(* ===== verification/_CoqProject ===== *)
-Q . S2P
Prelude.v
CString.v
StringUtils.v
DList.v
SList.v
Base64.v
FileSys.v
Unicode.v
JsonLex.v
Json.v
JsonPrint.v
JsonTokener.v
JsonRoundTrip.v
StringHash.v
LinkHash.v
JsonObject.v
SendReqParser.v
OfflineCache.v
AesTables.v
Aes.v
AesInverse.v
AesSpec.v
Sha256.v
Der.v
Rsa.v
Cbc.v
Cipher.v
Signature.v
PayloadAes.v
Utf8.v
MqttPacket.v
MqttSocket.v
LinkedList.v
MqttProtocol.v
MqttExchange.v
MqttAsync.v
MqttAsyncLogic.v
MqttCalls.v
MqttReconnect.v
MqttWrapper.v
MqttLink.v
IniParser.v
MsgCounter.v
ThreadPool.v
MsgRecv.v
Httpd.v
HttpdServe.v
HttpCallback.v
HttpServer.v
Schedule.v
SysUtils.v
FileWatcher.v
App.v
