(* ===== verification/Prelude.v ===== *)
(** * A verification development for the MQTT message hub

    The hub is a Linux daemon between the programs of a device and an MQTT
    broker.  Local programs POST JSON messages over HTTP; the hub publishes
    them encrypted, keeps those that cannot be sent in a bounded queue of files
    when asked to, and counts every message's fate.  Commands from the broker
    are handed to local programs through a FIFO.  A timer looks after the
    connection and saves the counters.

    ** Parts and files

    Paths are below src/source/: [hub] stands for
    mqttmsghub/hub-app/source, [cipher] for mqttmsghub/cipher/source, [utils]
    for sharelibs/utils/source, [json-c], [mqtt-c], [tomcrypt] and [httpd] for
    the vendored libraries in sharelibs.

    The ground:
    - Prelude.v (this file): the result type [comp] of a C computation, which
      is a value or a [fault] (null dereference, access out of bounds, use
      after free, a failed assertion, division by zero, or fuel used up),
      machine integers, arrays with checked accesses, list lemmas, tactics and
      the hint database [hub].
    - CString.v: NUL-terminated strings and the functions of <string.h>,
      <ctype.h>, <stdlib.h> and printf conversions the sources call.
      [write_buf cap s] is a copy of [s] into [cap] bytes.  Unicode.v: the
      well-formed UTF-8 sequences.
    - StringUtils.v: utils/stringutils.c.  FileSys.v: utils/filepathutils.c,
      with the file system as a map.  Base64.v: utils/base64.c, both loops with
      their indices and buffers.
    - DList.v: utils/list.c, list_node.c, list_iterator.c, on a heap of nodes
      with explicit pointers.  SList.v: utils/slist.c, and LinkedList.v:
      mqtt-c/source/LinkedList.c, on the same kind of heap.

    JSON, json-c/source:
    - JsonLex.v: the inner loops of the tokener and parsing of numbers; Json.v:
      documents, json_helper.c and the class [JsonCodec], which is what the hub
      relies on; JsonPrint.v: the printer; JsonTokener.v: the tokener as a
      machine; JsonRoundTrip.v: it reads back what is printed, the instance of
      [JsonCodec].
    - StringHash.v, LinkHash.v: linkhash.c: the hash of a key by its address,
      and tables with open addressing whose entries are also a linked list.
      JsonObject.v: the objects of json_object.c on them.

    Cryptography:
    - AesTables.v, Aes.v: tomcrypt's aes_tab.c and aes.c; AesInverse.v:
      decryption undoes encryption; AesSpec.v: the cipher of FIPS-197 and the
      equivalence.  Cbc.v: the table of ciphers and the CBC mode, over the class
      [BlockCipher], of which AES is the instance.
    - Sha256.v: sha256.c and the hash of FIPS 180-4.  Der.v: the decoders of
      pk/asn1/der for what keys and signatures are made of, and the class
      [Bignum], which is what tomcrypt asks of the numbers of its mathematics
      descriptor.  Rsa.v: rsa_import.c, rsa_exptmod.c (public operation),
      pkcs_1_v1_5_decode.c, rsa_verify_hash.c.
    - Cipher.v: cipher/mqttpayloadcipher.c, aescbc.c, over a cipher with the law
      [cbc_law]; PayloadAes.v: that law for AES and the key of the program.
      Signature.v: cipher/rsaverifysig.c over SHA-256 and RSA.

    The MQTT client, mqtt-c/source:
    - Utf8.v: utf-8.c.  MqttPacket.v: MQTTPacket.c, MQTTPacketOut.c.
      MqttSocket.v: Socket.c, SocketBuffer.c: writes that are taken in parts and
      reads that arrive in parts.  MqttProtocol.v: MQTTProtocolClient.c: the
      handlers of one client.  MqttExchange.v: two ends and a connection
      between them, as steps.
    - MqttAsync.v: MQTTAsync.c, MQTTProtocolOut.c: commands, the turns of the
      sending and the receiving thread, connecting and reconnecting, as actions
      on the client's state that list the callbacks they make.
      MqttAsyncLogic.v: weakest preconditions for these actions; MqttCalls.v,
      MqttReconnect.v: what holds of callbacks and reconnection.

    The HTTP library, httpd/source:
    - Httpd.v: reading, from protocol.c and api.c: the buffer on the socket,
      lines, the first line, headers, the path, the variables of the query.
      HttpdServe.v: answering, from protocol.c, api.c and ip_acl.c: the tree of
      contents and the search in it, responses, escaping, access lists.

    The hub:
    - SendReqParser.v: hub/mqttsendreqbodyparser.c, utils/devicesn.c: the JSON
      request and its completion.
    - OfflineCache.v: hub/offlinemsgcache.c: the queue, its directory, the
      eviction, the sender thread, loading at start, and the threads as a step
      relation [cache_step].
    - MqttWrapper.v: hub/mqttclientwrapper.c: the status record, the callbacks
      of the client and the functions around it; [wrapper_run] is a sequence of
      events in any order.  MqttLink.v: the wrapper above the library: the
      callbacks that MqttAsync.v makes are its events.
    - IniParser.v: utils/ini_parser.c, ini_parser_helper.c.
    - MsgCounter.v: hub/msgcounter.c: counters, their file, and counting
      threads beside one that saves, as steps [mstep].
    - ThreadPool.v: utils/threadpool.c, hub/threadpoolwrapper.c: the ring
      buffer, workers as steps [pool_step], the wrapper's pointer.
    - MsgRecv.v: hub/msgrevhandler.c, writepipe.c.
    - HttpCallback.v: hub/httprequestcallback.c, netutils.c and the accept
      loop of httpserver.c: what one request does to the hub, over the parser,
      the wrapper, the cache and the counters.  HttpServer.v: the rest of
      httpserver.c: the callbacks registered with the HTTP library, and a
      connection's thread from the bytes it receives to the bytes it sends.
    - Schedule.v: hub/schedulejob.c, utils/timerhelper.c.
    - SysUtils.v: utils/sysutils.c, processstatus.c, sysstatus.c and the body
      callback of httpwrapper.c.
    - FileWatcher.v: utils/filechangewatcher.c.
    - App.v: hub/app.c, config.c: command line, configuration, the callback for
      a new connection, starting and stopping.

    ** How the model reads

    A C function is a Coq function of the same name.  Global variables and
    objects changed through pointers are arguments and results; a result in
    [comp] says that the function can fault, so a theorem that ends in [Ret]
    also says that the code stays inside its buffers and follows no bad
    pointer.  Calls to the system return what an argument of the definition
    says (a result code, the bytes of a file, the time, how much a socket takes
    or delivers).  Code that computes and is modelled elsewhere in the
    development enters a client through an interface: documents through
    [JsonCodec], block ciphers through [BlockCipher], CBC through [cbc_law]; the
    instances are theorems about the vendored code.  The numbers of RSA enter
    through [Bignum], whose laws are those documented for the descriptor; the
    integers are an instance.  Code that is not modelled and computes is a
    Section variable (MQTTAsync_sendMessage as the wrapper calls it, mkdir,
    popen), and the witnesses instantiate it.
    [char] is signed, [int] has 32 bits, [long] and [size_t] have 64.  Mutexes
    are taken for what they protect: a critical section is one step of the step
    relations.  Memory that was not initialised is an argument named [junk].

    ** What the theorems show

    - A message's fate (HttpServer): a posted message, in whatever pieces its
      bytes come, is read whole and answered once, and it has been published,
      cached, discarded or refused and counted.  Any other GET or POST whose
      lines fit the reader, without an Authorization header, leaves the hub as
      it was, and other methods get the method error; what longer lines and
      such headers do is under the faults.  No path that is looked up leads
      upwards (Httpd).
    - The offline queue (OfflineCache): queue and directory stay in step and
      within the capacity; eviction takes the oldest of the lowest priority; the
      sender drains the queue in order while sends succeed; at most one sender
      takes messages and the queue stays within its capacity in any
      interleaving of the threads' critical sections; a restart restores the
      queue.
    - Delivery (MqttExchange): a message of quality of service 2 is given to the
      other end exactly once, over any number of lost connections; the packets
      written in parts are the packets read in parts (MqttSocket); the handlers
      never use a released publication (MqttProtocol).
    - The client (MqttCalls, MqttReconnect, MqttLink): every accepted request is
      told to the application exactly once, while the socket takes PUBLISHes of
      quality 0 whole; a connection that is lost comes back when the server can
      be reached again, whichever way the attempts before have ended, for a
      client that has nothing in flight or queued; the pauses between attempts
      double up to their bound; the wrapper's flag is what the library's state
      says while the server sends one CONNACK for a CONNECT.  The actions of
      MqttAsync.v are more atomic than the code: where the mutex is released
      in a turn of the receiving thread there are two steps, but what calls of
      the application and completed writes do without the mutex is not cut
      further.
    - Equivalence: AES over tables is FIPS-197; the hash fed in pieces is the
      SHA-256 of FIPS 180-4; the UTF-8 check accepts exactly the well-formed
      sequences; the escapes of JSON are UTF-8; the hash of a key does not depend
      on its address.
    - Signatures (Signature): what was signed with the private exponent is found
      valid; what is found valid, exactly; and that for exponent 3 this includes
      signatures made without a key.
    - Round trips: JSON documents, cached request, encrypted payload, Base64,
      ini file, cache file name.
    - Invariants of threads and callbacks: one subscription per rise of the
      connection, no count doubled and none lost but in a save that cannot open
      the file, tasks run in order and once.
    - Refinement: the pointer lists implement sequences; the objects of JSON
      over their hash tables implement ordered maps.
    - Bounds: packets fill their buffers exactly; message texts, command output,
      HTTP bodies and the line for the pipe fit their buffers, for all inputs of
      the stated sizes.
    - Time: the scheduled jobs run at their ticks for ever; a tick saves the
      counters and repairs the subscription.
    - Starting and stopping (App): what a run does in which order, in every
      case of its calls' results, and that it has released what it held
      wherever it ends.
    - Faults that the code has are theorems too: reads behind a plaintext, a
      PUBLISH that is read past its end, a comment left open, a
      capacity of zero, a failed write that reports success, a report that
      races with saving, a dangling thread pool, an empty key in an ini file,
      a stale connection after a new start of the client, an exchange that a
      lost PUBCOMP leaves open, HTTP requests that are read past their buffers,
      a second CONNACK that sets the flag of the wrapper wrong, an interrupted
      write of quality 0 that takes the answer of another message, a slow
      connection that is given up, a save that loses the counts because its
      file cannot be opened.

    ** Fuel

    [mkdirp] and the prefixes of a path use one unit per separator, fewer than
    its length; [evict] one per queued message and one more; [parse_lines],
    [read_output] and the ARP scan one per character and one more; the tokener
    of JSON eleven per character and eleven more; the UTF-8 check one per byte,
    the reading of an HTTP request one per byte and one more;
    the lengths of MQTT packets ten and five; receiving one per byte and one
    more; the search for a message id one per id; the loops of CBC one per
    block, and those of the AES key schedule their number of rounds; SHA-256 one
    per byte; probing a hash table one per slot, and inserting two levels, since
    the doubled table takes the key.  The
    theorems are stated for every fuel above these, so running out is never an
    outcome, but where the loop of the code does not end.  The sending loop
    runs against the list of the answers it gets.

    ** Not modelled

    Of the vendored libraries: the logs of libhttpd, the synchronous client, persistence,
    SSL, threads and tracing of the MQTT client, the arrays and buffers of
    json-c and the values of its numbers with fractions, what libtomcrypt has
    beyond AES, CBC, SHA-256 and the verification of RSA signatures, libtommath,
    zlog, and the accelerated and small variants of the
    ciphers.  Of the program: logging, daemonize, the crash handler, reading of
    floating-point numbers (CPU and load figures), the release of parsed JSON
    documents, failing [malloc], and overlapping runs of the timer's thread.
    Callbacks of the MQTT client that call the library again are later steps. *)

From Stdlib Require Export ZArith Lia.
From Stdlib Require Import Ascii.
From stdpp Require Export base gmap strings pretty numbers list_relations list.

#[global] Arguments String.append !_ _ : simpl nomatch.

Declare Scope hub_scope.
Delimit Scope hub_scope with hub.
Open Scope hub_scope.

(** ** Undefined behaviour and errors of C

    A C computation either yields a value or runs into behaviour that the
    language leaves undefined.  [comp] keeps the two apart, so that a theorem
    that says "this returns [Ret x]" also says "it stays inside its
    buffers and never follows a null or freed pointer". *)
Inductive fault : Set :=
  | NullDeref
  | OutOfBounds
  | UseAfterFree
  | AssertFailed
  | DivisionByZero
  | OutOfFuel.

#[global] Instance fault_eq_dec : EqDecision fault.
Proof. solve_decision. Defined.

Inductive comp (A : Type) : Type :=
  | Ret (a : A)
  | Err (f : fault).
Arguments Ret {A} a.
Arguments Err {A} f.

#[global] Instance comp_ret : MRet comp := @Ret.
#[global] Instance comp_bind : MBind comp := fun A B k m =>
  match m with
  | Ret a => k a
  | Err f => Err f
  end.
#[global] Instance comp_fmap : FMap comp := fun A B g m =>
  match m with
  | Ret a => Ret (g a)
  | Err f => Err f
  end.

Definition comp_of_option {A} (f : fault) (o : option A) : comp A :=
  match o with
  | Some a => Ret a
  | None => Err f
  end.

(** The notation of the monad.  [stdpp] already has one for [mbind]; the
    block form below reads closer to the sequence of C statements. *)
Notation "'let*' x ':=' c1 'in' c2" := (mbind (fun x => c2) c1)
  (at level 10, x pattern, c1 at level 100, c2 at level 200) : hub_scope.

Lemma comp_bind_ret {A B} (m : comp A) (k : A -> comp B) (b : B) :
  (let* x := m in k x) = Ret b <-> exists a, m = Ret a /\ k a = Ret b.
Proof.
  destruct m as [a|f]; simpl; split.
  - intros H. eauto.
  - intros (a' & [= ->] & H). done.
  - done.
  - by intros (a' & [=] & _).
Qed.

(** A step of the monad, as an equation: rewriting with it leaves the rest as
    it is. *)
Lemma ret_bind {A B} (x : A) (f : A -> comp B) : mbind f (Ret x) = f x.
Proof. done. Qed.

Lemma comp_bind_assoc {A B C} (m : comp A) (k : A -> comp B) (h : B -> comp C) :
  (let* y := (let* x := m in k x) in h y) = (let* x := m in let* y := k x in h y).
Proof. by destruct m. Qed.

(** ** Machine integers *)
Section ints.
Local Open Scope Z_scope.

Definition INT_MAX : Z := 2147483647.
Definition INT_MIN : Z := -2147483648.

(** Conversion to a 32-bit [int], two's complement. *)
Definition to_int (z : Z) : Z := (z + 2147483648) mod 4294967296 - 2147483648.
(** Conversion to [unsigned int]. *)
Definition to_uint (z : Z) : Z := z mod 4294967296.
(** Conversion to [unsigned long] and [size_t] (64-bit targets). *)
Definition to_ulong (z : Z) : Z := z mod 18446744073709551616.
(** Conversion to [int64_t], [long] and [long long]. *)
Definition to_long (z : Z) : Z :=
  (z + 9223372036854775808) mod 18446744073709551616 - 9223372036854775808.

Definition LONG_MAX : Z := 9223372036854775807.
Definition LONG_MIN : Z := -9223372036854775808.

Definition is_int (z : Z) : Prop := INT_MIN <= z <= INT_MAX.
Definition is_long (z : Z) : Prop := LONG_MIN <= z <= LONG_MAX.

#[global] Instance is_int_dec z : Decision (is_int z).
Proof. unfold is_int. apply _. Defined.

Lemma to_int_id z : is_int z -> to_int z = z.
Proof. unfold is_int, to_int, INT_MIN, INT_MAX. intros ?. rewrite Z.mod_small; lia. Qed.

Lemma to_int_range z : is_int (to_int z).
Proof.
  unfold is_int, to_int, INT_MIN, INT_MAX.
  pose proof (Z.mod_pos_bound (z + 2147483648) 4294967296). lia.
Qed.

Lemma to_long_id z : is_long z -> to_long z = z.
Proof. unfold is_long, to_long, LONG_MIN, LONG_MAX. intros ?. rewrite Z.mod_small; lia. Qed.

Lemma to_ulong_id z : 0 <= z < 18446744073709551616 -> to_ulong z = z.
Proof. intros ?. unfold to_ulong. by rewrite Z.mod_small. Qed.

Lemma to_ulong_range z : 0 <= to_ulong z < 18446744073709551616.
Proof. apply Z.mod_pos_bound. lia. Qed.

Lemma is_int_is_long z : is_int z -> is_long z.
Proof. unfold is_int, is_long, INT_MIN, INT_MAX, LONG_MIN, LONG_MAX. lia. Qed.
(** A byte, as an unsigned character. *)
Definition is_byte (b : Z) : Prop := 0 <= b < 256.

(** Masks of low bits. *)
Lemma land_3 x : Z.land x 3 = x mod 4. Proof. exact (Z.land_ones x 2 ltac:(lia)). Qed.
Lemma land_7 x : Z.land x 7 = x mod 8. Proof. exact (Z.land_ones x 3 ltac:(lia)). Qed.
Lemma land_15 x : Z.land x 15 = x mod 16. Proof. exact (Z.land_ones x 4 ltac:(lia)). Qed.
Lemma land_63 x : Z.land x 63 = x mod 64. Proof. exact (Z.land_ones x 6 ltac:(lia)). Qed.
Lemma land_127 x : Z.land x 127 = x mod 128. Proof. exact (Z.land_ones x 7 ltac:(lia)). Qed.
Lemma land_255 x : Z.land x 255 = x mod 256. Proof. exact (Z.land_ones x 8 ltac:(lia)). Qed.
Lemma land_1023 x : Z.land x 1023 = x mod 1024. Proof. exact (Z.land_ones x 10 ltac:(lia)). Qed.

(** Setting bits above a number that fits below them is an addition. *)
Lemma lor_add a b n : 0 <= n -> Z.land a (Z.ones n) = 0 -> 0 <= b < 2 ^ n -> Z.lor a b = a + b.
Proof.
  intros Hn Ha Hb. pose proof (Z.add_lor_land a b) as E.
  assert (Z.land a b = 0) as E0; [|lia].
  apply Z.bits_inj'. intros i Hi. rewrite Z.land_spec, Z.bits_0.
  destruct (decide (i < n)) as [Hin|Hin].
  - pose proof (f_equal (fun z => Z.testbit z i) Ha) as Hx. cbn beta in Hx.
    rewrite Z.land_spec, Z.bits_0, Z.ones_spec_low, andb_true_r in Hx by lia. by rewrite Hx.
  - destruct (decide (b = 0)) as [->|]; [by rewrite Z.bits_0, andb_false_r|].
    rewrite (Z.bits_above_log2 b), andb_false_r; [done|lia|].
    apply Z.log2_lt_pow2; [lia|]. apply Z.lt_le_trans with (2 ^ n); [lia|]. apply Z.pow_le_mono_r; lia.
Qed.
End ints.

(** ** Return codes and flags shared by every file (sharecommon.h) *)
Definition SUCCESS : Z := 0.
Definition FAILURE : Z := -1.

(** ** Proof automation *)

Create HintDb hub discriminated.
#[export] Hint Resolve to_int_id to_int_range to_long_id to_ulong_id is_int_is_long : hub.

Create Rewrite HintDb hub_simpl.

(** [simpl_comp] breaks a hypothesis [_ = Ret _] into the steps that gave it. *)
Ltac simpl_comp :=
  repeat match goal with
  | H : mbind _ _ = Ret _ |- _ => apply comp_bind_ret in H as (? & ? & ?)
  | H : Ret _ = Ret _ |- _ => injection H as ?; subst
  | H : Err _ = Ret _ |- _ => discriminate H
  | H : Ret _ = Err _ |- _ => discriminate H
  end.

(** Case analysis on the boolean and decidable tests of the goal. *)
Ltac split_if :=
  repeat first [ case_decide | case_bool_decide | case_match ]; simplify_eq/=.

(** ** Lists *)

Lemma take_app_length_eq {A} (l k : list A) n : n = length l -> take n (l ++ k) = l.
Proof. intros ->. apply take_app_length. Qed.

Lemma drop_app_length_eq {A} (l k : list A) n : n = length l -> drop n (l ++ k) = k.
Proof. intros ->. apply drop_app_length. Qed.

Lemma lookup_snoc_last {A} (l : list A) x : (l ++ [x]) !! length l = Some x.
Proof. by rewrite lookup_app_r, Nat.sub_diag. Qed.

(** The first element of a list that passes a test, with what precedes and
    follows it: what a forward scan with an early exit computes. *)
Fixpoint split_first {A} (p : A -> bool) (l : list A) : option (list A * A * list A) :=
  match l with
  | [] => None
  | x :: l' =>
      if p x then Some ([], x, l')
      else match split_first p l' with
           | Some (l1, y, l2) => Some (x :: l1, y, l2)
           | None => None
           end
  end.

Lemma split_first_Some {A} (p : A -> bool) l l1 x l2 :
  split_first p l = Some (l1, x, l2) ->
  l = l1 ++ x :: l2 /\ p x = true /\ Forall (fun y => p y = false) l1.
Proof.
  revert l1; induction l as [|y l IH]; intros l1; simpl; [done|].
  destruct (p y) eqn:Hp.
  - intros [= <- -> ->]. done.
  - destruct (split_first p l) as [[[l1' z] l2']|]; [|done].
    intros [= <- -> ->]. destruct (IH l1' eq_refl) as (-> & ? & ?).
    split_and!; [done..|]. by constructor.
Qed.

Lemma split_first_None {A} (p : A -> bool) l :
  split_first p l = None <-> Forall (fun y => p y = false) l.
Proof.
  induction l as [|y l IH]; simpl; [by split|].
  destruct (p y) eqn:Hp.
  - split; [done|]. intros Hf. inversion Hf. congruence.
  - destruct (split_first p l) as [[[? ?] ?]|].
    + split; [done|]. intros Hf. inversion Hf; subst.
      destruct IH as [_ IH]. discriminate (IH H2).
    + split; [|done]. intros _. constructor; [done|]. by apply IH.
Qed.

Lemma split_first_app {A} (p : A -> bool) l1 x l2 :
  Forall (fun y => p y = false) l1 -> p x = true ->
  split_first p (l1 ++ x :: l2) = Some (l1, x, l2).
Proof. intros Hf Hx. induction Hf as [|y l1 Hy Hf IH]; simpl; [by rewrite Hx|]. by rewrite Hy, IH. Qed.

(** ** C arrays: every access is checked against the extent of the object *)
Section arrays.
Local Open Scope Z_scope.
Context {A : Type}.
Implicit Types l : list A.

Definition arr_get l (i : Z) : comp A :=
  if 0 <=? i then comp_of_option OutOfBounds (l !! Z.to_nat i) else Err OutOfBounds.

Definition arr_set l (i : Z) (x : A) : comp (list A) :=
  if (0 <=? i) && (i <? Z.of_nat (length l)) then Ret (<[Z.to_nat i := x]> l) else Err OutOfBounds.

Lemma arr_get_Some l (i : Z) x : 0 <= i -> l !! Z.to_nat i = Some x -> arr_get l i = Ret x.
Proof. intros Hi Hx. unfold arr_get. by rewrite (proj2 (Z.leb_le _ _) Hi), Hx. Qed.

Lemma arr_get_app l x k (i : Z) : i = Z.of_nat (length l) -> arr_get (l ++ x :: k) i = Ret x.
Proof. intros ->. apply arr_get_Some; [lia|]. by rewrite Nat2Z.id, list_lookup_middle. Qed.

Lemma arr_set_app l x k (i : Z) y :
  i = Z.of_nat (length l) -> arr_set (l ++ x :: k) i y = Ret (l ++ y :: k).
Proof.
  intros ->. unfold arr_set. rewrite length_app; cbn [length].
  rewrite (proj2 (Z.leb_le _ _)), (proj2 (Z.ltb_lt _ _)) by lia.
  rewrite Nat2Z.id, <- (Nat.add_0_r (length l)) at 1. by rewrite insert_app_r.
Qed.

(** [n] elements from index [i] on, and [memcpy] of [src] to index [i]. *)
Definition arr_slice l (i n : Z) : comp (list A) :=
  if (0 <=? i) && (0 <=? n) && (i + n <=? Z.of_nat (length l)) then Ret (take (Z.to_nat n) (drop (Z.to_nat i) l))
  else Err OutOfBounds.

Definition arr_write l (i : Z) (src : list A) : comp (list A) :=
  if (0 <=? i) && (i + Z.of_nat (length src) <=? Z.of_nat (length l))
  then Ret (take (Z.to_nat i) l ++ src ++ drop (Z.to_nat i + length src) l)
  else Err OutOfBounds.

Lemma arr_slice_app l x k (i n : Z) :
  i = Z.of_nat (length l) -> n = Z.of_nat (length x) -> arr_slice (l ++ x ++ k) i n = Ret x.
Proof.
  intros -> ->. unfold arr_slice. rewrite !length_app.
  rewrite !(proj2 (Z.leb_le _ _)) by lia. by rewrite !Nat2Z.id, drop_app_length, take_app_length.
Qed.

Lemma arr_slice_all l : arr_slice l 0 (Z.of_nat (length l)) = Ret l.
Proof. pose proof (arr_slice_app [] l [] 0 (Z.of_nat (length l)) eq_refl eq_refl) as H. by rewrite app_nil_r in H. Qed.

Lemma arr_write_app l x k (i : Z) src :
  i = Z.of_nat (length l) -> length x = length src -> arr_write (l ++ x ++ k) i src = Ret (l ++ src ++ k).
Proof.
  intros -> Hx. unfold arr_write. rewrite !length_app, Hx.
  rewrite !(proj2 (Z.leb_le _ _)) by lia. rewrite Nat2Z.id, take_app_length. cbn [andb]. do 3 f_equal.
  rewrite app_assoc. apply drop_app_length_eq. by rewrite length_app, Hx.
Qed.

Lemma arr_write_hole l h (i : Z) src :
  i = Z.of_nat (length l) -> (length src <= length h)%nat ->
  arr_write (l ++ h) i src = Ret (l ++ src ++ drop (length src) h).
Proof.
  intros Hi Hh. rewrite <- (take_drop (length src) h) at 1. apply arr_write_app; [done|]. rewrite length_take. lia.
Qed.

Lemma arr_get_fault l (i : Z) : Z.of_nat (length l) <= i -> arr_get l i = Err OutOfBounds.
Proof.
  intros Hi. unfold arr_get. destruct (0 <=? i); [|done]. by rewrite lookup_ge_None_2 by lia.
Qed.
End arrays.
