(* ===== verification/CString.v ===== *)
(** * C strings and the libc functions the hub calls on them

    A NUL-terminated [char *] is modelled by the [string] of the bytes before
    its terminator.  The functions below are the parts of <string.h>,
    <ctype.h> and <stdlib.h> the sources use, on a target where [char] is
    signed and [long] has 64 bits (the README names 64-bit Ubuntu), with the
    saturating [strtol] of glibc behind [atoi] and [atoll]. *)

From Stdlib Require Import Ascii.
From S2P Require Import Prelude.

Local Open Scope Z_scope.

(** ** Characters *)

Definition uchar_val (c : ascii) : Z := Z.of_N (N_of_ascii c).

(** The value of a (signed) [char] in an expression. *)
Definition char_val (c : ascii) : Z :=
  if uchar_val c <? 128 then uchar_val c else uchar_val c - 256.

(** Storing an integer in a [char]. *)
Definition chr (z : Z) : ascii := ascii_of_N (Z.to_N (z mod 256)).

Definition NUL : ascii := chr 0.
Definition DQUOTE : ascii := chr 34.
Definition LF : ascii := chr 10.
Definition CR : ascii := chr 13.
Definition SPACE : ascii := chr 32.

Lemma uchar_val_range c : 0 <= uchar_val c < 256.
Proof.
  unfold uchar_val. split; [lia|].
  pose proof (N_ascii_bounded c). lia.
Qed.

Lemma uchar_val_chr z : 0 <= z < 256 -> uchar_val (chr z) = z.
Proof.
  intros Hz. unfold uchar_val, chr. rewrite Z.mod_small by lia.
  rewrite N_ascii_embedding by lia. lia.
Qed.

Lemma chr_uchar_val c : chr (uchar_val c) = c.
Proof.
  unfold chr. pose proof (uchar_val_range c). rewrite Z.mod_small by lia.
  unfold uchar_val. rewrite N2Z.id. apply ascii_N_embedding.
Qed.

Lemma uchar_val_inj c d : uchar_val c = uchar_val d -> c = d.
Proof. intros H. by rewrite <- (chr_uchar_val c), H, chr_uchar_val. Qed.

Definition isspace (c : ascii) : bool :=
  let v := uchar_val c in (v =? 32) || ((9 <=? v) && (v <=? 13)).

Definition isdigit (c : ascii) : bool :=
  let v := uchar_val c in (48 <=? v) && (v <=? 57).

Definition tolower (c : ascii) : ascii :=
  let v := uchar_val c in if (65 <=? v) && (v <=? 90) then chr (v + 32) else c.

(** ** Strings *)

Definition strlen (s : string) : Z := Z.of_nat (String.length s).

#[global] Arguments strlen : simpl never.

Fixpoint str_forall (p : ascii -> bool) (s : string) : bool :=
  match s with
  | EmptyString => true
  | String c s' => p c && str_forall p s'
  end.

Fixpoint str_map (g : ascii -> ascii) (s : string) : string :=
  match s with
  | EmptyString => EmptyString
  | String c s' => String (g c) (str_map g s')
  end.

(** No terminator inside: what a string must satisfy to be the content of a
    NUL-terminated buffer. *)
Definition no_nul (s : string) : bool := str_forall (fun c => bool_decide (c ≠ NUL)) s.

(** [strchr]: the text before the first [c] and the text after it. *)
Fixpoint strchr (s : string) (c : ascii) : option (string * string) :=
  match s with
  | EmptyString => None
  | String d s' =>
      if decide (d = c) then Some (EmptyString, s')
      else match strchr s' c with
           | Some (pre, post) => Some (String d pre, post)
           | None => None
           end
  end.

(** [strrchr]: the text before the last [c] and the text after it. *)
Fixpoint strrchr (s : string) (c : ascii) : option (string * string) :=
  match s with
  | EmptyString => None
  | String d s' =>
      match strrchr s' c with
      | Some (pre, post) => Some (String d pre, post)
      | None => if decide (d = c) then Some (EmptyString, s') else None
      end
  end.

(** A [char *] into a counted string ends at its first NUL. *)
Definition c_str (s : string) : string :=
  match strchr s NUL with
  | Some (pre, _) => pre
  | None => s
  end.

(** [strstr(s, needle) != NULL] *)
Fixpoint strstr (s needle : string) : bool :=
  String.prefix needle s ||
  match s with
  | EmptyString => false
  | String _ s' => strstr s' needle
  end.

(** [strcmp(s, t) == 0] and [strcasecmp(s, t) == 0] (C locale) *)
Definition strcmp_eq (s t : string) : bool := bool_decide (s = t).
Definition strcasecmp_eq (s t : string) : bool :=
  bool_decide (str_map tolower s = str_map tolower t).

Fixpoint skip_spaces (s : string) : string :=
  match s with
  | String c s' => if isspace c then skip_spaces s' else s
  | EmptyString => EmptyString
  end.

Fixpoint digits_val (s : string) (acc : Z) : Z :=
  match s with
  | String c s' => if isdigit c then digits_val s' (acc * 10 + (uchar_val c - 48)) else acc
  | EmptyString => acc
  end.

(** [strtol(s, NULL, 10)] with its saturation at the bounds of [long]. *)
Definition strtol (s : string) : Z :=
  let clamp v := Z.max LONG_MIN (Z.min LONG_MAX v) in
  match skip_spaces s with
  | String c s' =>
      if decide (c = "-"%char) then clamp (- digits_val s' 0)
      else if decide (c = "+"%char) then clamp (digits_val s' 0)
      else clamp (digits_val (String c s') 0)
  | EmptyString => 0
  end.

Definition atoi (s : string) : Z := to_int (strtol s).
Definition atoll (s : string) : Z := strtol s.

(** A copy of a string with its terminator into a buffer of [cap] bytes
    (strcpy, strcat, sprintf): out of bounds when it does not fit. *)
Definition write_buf (cap : Z) (s : string) : comp string :=
  if strlen s + 1 <=? cap then Ret s else Err OutOfBounds.

(** The tokens [strtok] delivers: maximal runs of characters outside the
    delimiter set.  [cur] is the token being collected. *)
Fixpoint strtok_all (delim : string) (cur s : string) : list string :=
  match s with
  | EmptyString => if decide (cur = EmptyString) then [] else [cur]
  | String c s' =>
      match strchr delim c with
      | Some _ =>
          if decide (cur = EmptyString) then strtok_all delim EmptyString s'
          else cur :: strtok_all delim EmptyString s'
      | None => strtok_all delim (cur +:+ String c EmptyString) s'
      end
  end.

(** The conversions "%d" and "%lld" of printf. *)
Definition fmt_d (z : Z) : string := pretty z.

(** ** Facts about strings *)

Lemma str_app_nil_r s : s +:+ "" = s.
Proof. induction s as [|c s IH]; simpl; [done|]. by rewrite IH. Qed.

Lemma str_app_assoc (s t u : string) : s +:+ (t +:+ u) = (s +:+ t) +:+ u.
Proof. induction s as [|c s IH]; simpl; [done|]. by rewrite IH. Qed.

Lemma str_length_app (s t : string) :
  String.length (s +:+ t) = (String.length s + String.length t)%nat.
Proof. induction s as [|c s IH]; simpl; [done|]. by rewrite IH. Qed.

Lemma strlen_app s t : strlen (s +:+ t) = strlen s + strlen t.
Proof. unfold strlen. rewrite str_length_app. lia. Qed.

Lemma strlen_cons c s : strlen (String c s) = 1 + strlen s.
Proof. unfold strlen. simpl. lia. Qed.

(** A string between double quotes. *)
Definition quoted (s : string) : string := String DQUOTE s +:+ String DQUOTE EmptyString.

Lemma strlen_quoted s : strlen (quoted s) = strlen s + 2.
Proof. unfold quoted. rewrite strlen_app, !strlen_cons. change (strlen "") with 0. lia. Qed.

Lemma strlen_nonneg s : 0 <= strlen s.
Proof. unfold strlen. lia. Qed.

Lemma str_app_inj_l (s t u : string) : s +:+ t = s +:+ u -> t = u.
Proof. induction s as [|c s IH]; simpl; [done|]. intros [= H]. by apply IH. Qed.

Lemma str_forall_app p s t : str_forall p (s +:+ t) = str_forall p s && str_forall p t.
Proof. induction s as [|c s IH]; simpl; [done|]. by rewrite IH, andb_assoc. Qed.

Lemma str_forall_weaken (p q : ascii -> bool) s :
  (forall c, p c = true -> q c = true) -> str_forall p s = true -> str_forall q s = true.
Proof.
  intros Hpq. induction s as [|c s IH]; simpl; [done|].
  rewrite !andb_true_iff. intros [? ?]. auto.
Qed.

Lemma str_map_map g h s : str_map g (str_map h s) = str_map (fun c => g (h c)) s.
Proof. induction s as [|c s IH]; simpl; [done|]. by rewrite IH. Qed.

Lemma str_map_ext g h s : (forall c, g c = h c) -> str_map g s = str_map h s.
Proof. intros E. induction s as [|c s IH]; simpl; [done|]. by rewrite E, IH. Qed.

Lemma strlen_map g s : strlen (str_map g s) = strlen s.
Proof. induction s as [|c s IH]; simpl; [done|]. rewrite !strlen_cons. lia. Qed.

#[export] Hint Rewrite strlen_app strlen_cons strlen_map : hub_simpl.

(** [strchr] and [strrchr] really split the string at the character. *)
Lemma strchr_Some s c pre post :
  strchr s c = Some (pre, post) -> s = pre +:+ String c post /\ strchr pre c = None.
Proof.
  revert pre; induction s as [|d s IH]; intros pre; simpl; [done|].
  case_decide as Hd.
  - intros [= <- <-]. by subst.
  - destruct (strchr s c) as [[pre' post']|]; [|done]. intros [= <- <-].
    destruct (IH pre' eq_refl) as [-> Hn]. simpl. by rewrite decide_False, Hn.
Qed.

Lemma strchr_None_app s t c : strchr s c = None ->
  strchr (s +:+ String c t) c = Some (s, t).
Proof.
  induction s as [|d s IH]; simpl; intros H; [by rewrite decide_True|].
  case_decide; [done|]. destruct (strchr s c) as [[? ?]|]; [done|]. by rewrite IH.
Qed.

Lemma strchr_str_forall s c :
  strchr s c = None <-> str_forall (fun d => bool_decide (d ≠ c)) s = true.
Proof.
  induction s as [|d s IH]; simpl; [done|]. case_decide as Hd.
  - rewrite bool_decide_false by (intros []; done). done.
  - rewrite bool_decide_true by done. simpl. rewrite <- IH.
    by destruct (strchr s c) as [[? ?]|].
Qed.

Lemma write_buf_Ret cap s t : write_buf cap s = Ret t <-> t = s /\ strlen s + 1 <= cap.
Proof.
  unfold write_buf. destruct (Z.leb_spec (strlen s + 1) cap); split; [by intros [= ->]|by intros [-> _]|done|lia].
Qed.

Lemma write_buf_ok cap s : strlen s + 1 <= cap -> write_buf cap s = Ret s.
Proof. intros H. by apply write_buf_Ret. Qed.

Lemma strrchr_None s c : strrchr s c = None <-> strchr s c = None.
Proof.
  induction s as [|d s IH]; simpl; [done|].
  case_decide as Hd.
  - by destruct (strrchr s c) as [[? ?]|].
  - destruct (strrchr s c) as [[? ?]|], (strchr s c) as [[? ?]|]; destruct IH as [IH1 IH2]; split; done || (intros _; (by discriminate IH1) || (by discriminate IH2)).
Qed.

Lemma strrchr_Some s c pre post :
  strrchr s c = Some (pre, post) -> s = pre +:+ String c post /\ strchr post c = None.
Proof.
  revert pre; induction s as [|d s IH]; intros pre; simpl; [done|].
  destruct (strrchr s c) as [[pre' post']|] eqn:E.
  - intros [= <- <-]. destruct (IH pre' eq_refl) as [-> Hn]. done.
  - case_decide as Hd; [|done]. intros [= <- <-]. subst. split; [done|].
    by apply strrchr_None.
Qed.

Lemma strrchr_app s t c : strchr t c = None -> strrchr (s +:+ String c t) c = Some (s, t).
Proof.
  intros Ht. apply strrchr_None in Ht.
  induction s as [|d s IH]; simpl; [by rewrite Ht, decide_True|]. by rewrite IH.
Qed.

(** ** Printing and reading numbers *)

Lemma isdigit_spec c : isdigit c = true <-> 48 <= uchar_val c <= 57.
Proof. unfold isdigit. lia. Qed.

Lemma isspace_not_digit c : isdigit c = true -> isspace c = false.
Proof. rewrite isdigit_spec. unfold isspace. lia. Qed.

Lemma pretty_N_char_digit x : (x < 10)%N ->
  isdigit (pretty_N_char x) = true /\ uchar_val (pretty_N_char x) - 48 = Z.of_N x.
Proof.
  intros Hx.
  assert (x = 0 \/ x = 1 \/ x = 2 \/ x = 3 \/ x = 4 \/ x = 5 \/ x = 6 \/ x = 7 \/ x = 8 \/ x = 9)%N
    as Hc by lia.
  destruct_or! Hc; subst; by vm_compute.
Qed.

Lemma digits_val_pretty_go x s : digits_val (pretty_N_go x s) 0 = digits_val s (Z.of_N x).
Proof.
  revert s. induction (N.lt_wf_0 x) as [x _ IH]; intros s.
  destruct (decide (0 < x)%N) as [Hx|Hx]; [|assert (x = 0%N) as -> by lia; by rewrite pretty_N_go_0].
  rewrite pretty_N_go_step by done. rewrite IH by (apply N.div_lt; lia). simpl.
  destruct (pretty_N_char_digit (x `mod` 10)) as [-> ->]; [apply N.mod_lt; lia|].
  f_equal. rewrite N2Z.inj_div, N2Z.inj_mod. pose proof (Z.div_mod (Z.of_N x) 10). lia.
Qed.

Lemma str_forall_digit_pretty_go x s :
  str_forall isdigit s = true -> str_forall isdigit (pretty_N_go x s) = true.
Proof.
  revert s. induction (N.lt_wf_0 x) as [x _ IH]; intros s Hs.
  destruct (decide (0 < x)%N) as [Hx|Hx]; [|assert (x = 0%N) as -> by lia; by rewrite pretty_N_go_0].
  rewrite pretty_N_go_step by done. apply IH; [apply N.div_lt; lia|]. simpl.
  destruct (pretty_N_char_digit (x `mod` 10)) as [-> _]; [apply N.mod_lt; lia|]. done.
Qed.

(** The text printed for a non-negative number is a non-empty run of digits
    whose value is that number, whatever follows it. *)
Lemma pretty_N_go_append x s t : pretty_N_go x (s +:+ t) = pretty_N_go x s +:+ t.
Proof.
  revert s. induction (N.lt_wf_0 x) as [x _ IH]; intros s.
  destruct (decide (0 < x)%N) as [Hx|Hx]; [|assert (x = 0%N) as -> by lia; by rewrite !pretty_N_go_0].
  rewrite !(pretty_N_go_step x) by done. rewrite <- IH by (apply N.div_lt; lia). done.
Qed.

Definition starts_digit (s : string) : bool :=
  match s with String c _ => isdigit c | EmptyString => false end.

Lemma digits_val_stop s v : starts_digit s = false -> digits_val s v = v.
Proof. destruct s as [|c s]; simpl; [done|]. by intros ->. Qed.

Lemma pretty_N_eq (x : N) : pretty x = if decide (x = 0)%N then "0" else pretty_N_go x "".
Proof. done. Qed.

Lemma digits_val_pretty_N (x : N) t : starts_digit t = false ->
  digits_val (pretty x +:+ t) 0 = Z.of_N x.
Proof.
  intros Ht. rewrite pretty_N_eq. case_decide as Hx.
  - subst. simpl. by rewrite digits_val_stop.
  - rewrite <- pretty_N_go_append, digits_val_pretty_go. simpl. by apply digits_val_stop.
Qed.

Lemma pretty_N_digits (x : N) : str_forall isdigit (pretty x) = true.
Proof. rewrite pretty_N_eq. case_decide; [done|]. by apply str_forall_digit_pretty_go. Qed.

Lemma pretty_N_cons (x : N) : exists c s, pretty x = String c s /\ isdigit c = true.
Proof.
  pose proof (pretty_N_digits x) as Hd.
  destruct (pretty x) as [|c s] eqn:E.
  - exfalso. assert (digits_val (pretty x) 0 = 0) as H0 by by rewrite E.
    pose proof (digits_val_pretty_N x "" eq_refl) as H1. rewrite str_app_nil_r in H1.
    assert (x = 0%N) as -> by lia. discriminate E.
  - simpl in Hd. apply andb_true_iff in Hd as [? _]. eauto.
Qed.

Lemma fmt_d_nonneg z : 0 <= z -> fmt_d z = pretty (Z.to_N z).
Proof. intros Hz. destruct z; done. Qed.

Lemma fmt_d_neg z : z < 0 -> fmt_d z = "-" +:+ pretty (Z.to_N (- z)).
Proof. intros Hz. destruct z; done. Qed.

(** Reading back a printed [long] gives it, whatever non-digit text follows. *)
Lemma strtol_fmt_d z t : is_long z -> starts_digit t = false -> strtol (fmt_d z +:+ t) = z.
Proof.
  unfold is_long. intros Hz Ht. unfold strtol.
  destruct (decide (0 <= z)) as [Hs|Hs].
  - rewrite fmt_d_nonneg by done.
    pose proof (digits_val_pretty_N (Z.to_N z) t Ht) as Hv.
    destruct (pretty_N_cons (Z.to_N z)) as (c & s & E & Hd). rewrite E in *. simpl.
    rewrite isspace_not_digit by done.
    rewrite !decide_False by (intros ->; discriminate Hd).
    simpl in Hv. rewrite Hv. lia.
  - rewrite fmt_d_neg by lia. simpl.
    rewrite digits_val_pretty_N by done. lia.
Qed.

Lemma strtol_fmt_d_all z : is_long z -> strtol (fmt_d z) = z.
Proof. intros Hz. rewrite <- (str_app_nil_r (fmt_d z)). by apply strtol_fmt_d. Qed.

Lemma atoi_fmt_d z : is_int z -> atoi (fmt_d z) = z.
Proof.
  intros Hz. unfold atoi. rewrite strtol_fmt_d_all by auto with hub. by apply to_int_id.
Qed.

Lemma fmt_d_digits z : 0 <= z -> str_forall isdigit (fmt_d z) = true.
Proof. intros Hz. rewrite fmt_d_nonneg by done. apply pretty_N_digits. Qed.

Lemma fmt_d_nonempty z : fmt_d z ≠ "".
Proof.
  destruct (decide (0 <= z)).
  - rewrite fmt_d_nonneg by done. by destruct (pretty_N_cons (Z.to_N z)) as (? & ? & -> & _).
  - rewrite fmt_d_neg by lia. done.
Qed.

Lemma isdigit_ne c d : isdigit c = true -> isdigit d = false -> c ≠ d.
Proof. intros Hc Hd ->. congruence. Qed.

Lemma strchr_digits s c : str_forall isdigit s = true -> isdigit c = false -> strchr s c = None.
Proof.
  intros Hs Hc. apply strchr_str_forall. revert Hs. apply str_forall_weaken.
  intros d Hd. apply bool_decide_eq_true. by eapply isdigit_ne.
Qed.

(** How many characters a number takes. *)
Lemma pretty_N_go_length k x s :
  (x < 10 ^ N.of_nat k)%N -> strlen (pretty_N_go x s) <= Z.of_nat k + strlen s.
Proof.
  revert x s. induction k as [|k IH]; intros x s Hx.
  - assert (x = 0%N) as -> by (simpl in Hx; lia). rewrite pretty_N_go_0. lia.
  - destruct (decide (0 < x)%N); [|assert (x = 0%N) as -> by lia; rewrite pretty_N_go_0; lia].
    rewrite pretty_N_go_step by done. etrans; [apply IH|rewrite strlen_cons; lia].
    apply N.Div0.div_lt_upper_bound.
    rewrite Nat2N.inj_succ, N.pow_succ_r' in Hx. lia.
Qed.

Lemma pretty_N_length k (x : N) :
  (0 < k)%nat -> (x < 10 ^ N.of_nat k)%N -> strlen (pretty x) <= Z.of_nat k.
Proof.
  intros Hk Hx. rewrite pretty_N_eq. case_decide.
  - change (strlen "0") with 1. lia.
  - etrans; [by apply pretty_N_go_length|]. change (strlen "") with 0. lia.
Qed.

Lemma fmt_d_long_length z : is_long z -> strlen (fmt_d z) <= 20.
Proof.
  unfold is_long, LONG_MIN, LONG_MAX. intros Hz. destruct (decide (0 <= z)).
  - rewrite fmt_d_nonneg by done. etrans; [apply (pretty_N_length 19)|]; lia.
  - rewrite fmt_d_neg, strlen_app by lia. change (strlen "-") with 1.
    pose proof (pretty_N_length 19 (Z.to_N (- z))). lia.
Qed.

Lemma fmt_d_int_length z : is_int z -> strlen (fmt_d z) <= 11.
Proof.
  unfold is_int, INT_MIN, INT_MAX. intros Hz. destruct (decide (0 <= z)).
  - rewrite fmt_d_nonneg by done. etrans; [apply (pretty_N_length 10)|]; lia.
  - rewrite fmt_d_neg, strlen_app by lia. change (strlen "-") with 1.
    pose proof (pretty_N_length 10 (Z.to_N (- z))). lia.
Qed.
