(* ===== verification/StringUtils.v ===== *)
(** * String helpers (sharelibs/utils/source/stringutils.c)

    Every function of the file, with the buffers it allocates and the writes
    it makes into them.  [malloc] is taken to succeed. *)

From Stdlib Require Import Ascii.
From S2P Require Import Prelude CString.

Local Open Scope Z_scope.

Definition string_is_empty (s : option string) : bool :=
  match s with
  | None => true
  | Some s => strlen s =? 0
  end.

(** The loop [while( *str ) ... str++] of [string_is_number]. *)
Fixpoint all_digits (str : string) : bool :=
  match str with
  | EmptyString => true
  | String c str' =>
      if (char_val c <? char_val "0"%char) || (char_val c >? char_val "9"%char) then false
      else all_digits str'
  end.

Definition string_is_number (str : option string) : bool :=
  if string_is_empty str then false
  else match str with
       | Some s => all_digits s
       | None => false
       end.

Definition string_equals (s1 s2 : string) (ignoreCase : bool) : bool :=
  if ignoreCase then strcasecmp_eq s1 s2 else strcmp_eq s1 s2.

Definition safe_string (str : option string) : string :=
  match str with
  | None => EmptyString
  | Some s => s
  end.

(** The first token is duplicated before it is tested: a string without a
    token makes [strdup] read a null pointer. *)
Definition string_split (str delimiter : string) : comp (list string) :=
  match strtok_all delimiter EmptyString str with
  | [] => Err NullDeref
  | pch :: rest => Ret (pch :: rest)
  end.

Fixpoint string_trim_left (str : string) (trim : ascii) : string :=
  match str with
  | String c str' => if decide (c = trim) then string_trim_left str' trim else str
  | EmptyString => EmptyString
  end.

(** The scan [while(end > str && *end == trim) end--] over everything but the
    first character. *)
Fixpoint trim_tail (s : string) (trim : ascii) : string :=
  match s with
  | EmptyString => EmptyString
  | String c s' =>
      match trim_tail s' trim with
      | EmptyString => if decide (c = trim) then EmptyString else String c EmptyString
      | t => String c t
      end
  end.

Definition string_trim_right (str : string) (trim : ascii) : string :=
  match str with
  | EmptyString => EmptyString
  | String c s' => String c (trim_tail s' trim)
  end.

Definition string_trim (str : string) (trim : ascii) : string :=
  let str := string_trim_left str trim in
  match str with
  | EmptyString => str
  | String _ _ => string_trim_right str trim
  end.

(** ** Escaping for JSON *)

Record json_replace_char := { replaceChar : ascii; withString : string }.

Definition BSLASH : ascii := chr 92.

Definition g_jsonReplaceChars : list json_replace_char :=
  let esc c := String BSLASH (String c EmptyString) in
  [ {| replaceChar := BSLASH; withString := esc BSLASH |};
    {| replaceChar := "/"%char; withString := esc "/"%char |};
    {| replaceChar := chr 8; withString := esc "b"%char |};
    {| replaceChar := chr 12; withString := esc "f"%char |};
    {| replaceChar := chr 10; withString := esc "n"%char |};
    {| replaceChar := chr 13; withString := esc "r"%char |};
    {| replaceChar := chr 9; withString := esc "t"%char |};
    {| replaceChar := chr 39; withString := esc (chr 39) |};
    {| replaceChar := DQUOTE; withString := esc DQUOTE |} ].

Fixpoint find_in_table (tbl : list json_replace_char) (c : ascii) : option json_replace_char :=
  match tbl with
  | [] => None
  | jrc :: tbl' => if decide (replaceChar jrc = c) then Some jrc else find_in_table tbl' c
  end.

Definition find_json_replace_char (c : ascii) : option json_replace_char :=
  find_in_table g_jsonReplaceChars c.

(** The text the loop of [string_json_friendly] writes to [newstr]. *)
Fixpoint json_escape (p : string) : string :=
  match p with
  | EmptyString => EmptyString
  | String c p' =>
      match find_json_replace_char c with
      | Some jrc => withString jrc +:+ json_escape p'
      | None => String c (json_escape p')
      end
  end.

(** [newstr] has [2 * strlen(str)] bytes; [str] points to [cap] bytes and is
    overwritten with the result. *)
Definition string_json_friendly (cap : Z) (str : string) : comp string :=
  let* newstr := write_buf (strlen str * 2) (json_escape str) in
  write_buf cap newstr.

(** ** Case *)

Definition upper_char (c : ascii) : ascii :=
  if (char_val c >=? char_val "a"%char) && (char_val c <=? char_val "z"%char)
  then chr (char_val c - 32) else c.

Definition lower_char (c : ascii) : ascii :=
  if (char_val c >=? char_val "A"%char) && (char_val c <=? char_val "Z"%char)
  then chr (char_val c + 32) else c.

Definition string_upper_case (str : string) : string := str_map upper_char str.
Definition string_lower_case (str : string) : string := str_map lower_char str.

(** ** Replacing a character by a string *)

Fixpoint count_char (p : string) (c : ascii) : Z :=
  match p with
  | EmptyString => 0
  | String d p' => (if decide (d = c) then 1 else 0) + count_char p' c
  end.

Fixpoint replace_loop (p : string) (c : ascii) (replace : string) : string :=
  match p with
  | EmptyString => EmptyString
  | String d p' =>
      if decide (d = c) then replace +:+ replace_loop p' c replace
      else String d (replace_loop p' c replace)
  end.

(** [None] when [*newstr] is left as it was. *)
Definition string_replace_char (str : string) (c : ascii) (replace : string)
    : comp (option string) :=
  let count := count_char str c in
  if count =? 0 then Ret None
  else
    let size := to_int (strlen str - count + count * strlen replace + 1) in
    let* newstr := write_buf size (replace_loop str c replace) in
    Ret (Some newstr).

(** ** Facts used by the other components *)

Lemma string_is_empty_Some s : string_is_empty (Some s) = bool_decide (s = EmptyString).
Proof. by destruct s. Qed.

Lemma char_val_digit c :
  (char_val c <? char_val "0"%char) || (char_val c >? char_val "9"%char) = negb (isdigit c).
Proof.
  change (char_val "0"%char) with 48. change (char_val "9"%char) with 57.
  unfold char_val, isdigit. pose proof (uchar_val_range c).
  destruct (Z.ltb_spec (uchar_val c) 128); lia.
Qed.

Lemma all_digits_str_forall s : all_digits s = str_forall isdigit s.
Proof.
  induction s as [|c s IH]; [done|].
  cbn [all_digits str_forall]. rewrite char_val_digit, <- IH. by destruct (isdigit c).
Qed.

Lemma string_is_number_Some s :
  string_is_number (Some s) = negb (bool_decide (s = EmptyString)) && str_forall isdigit s.
Proof.
  unfold string_is_number. rewrite string_is_empty_Some, all_digits_str_forall.
  by case_bool_decide.
Qed.

Lemma string_is_number_fmt_d z : 0 <= z -> string_is_number (Some (fmt_d z)) = true.
Proof.
  intros Hz. rewrite string_is_number_Some, fmt_d_digits by done.
  rewrite bool_decide_false by apply fmt_d_nonempty. done.
Qed.

Lemma string_equals_refl s b : string_equals s s b = true.
Proof. unfold string_equals, strcasecmp_eq, strcmp_eq. destruct b; by apply bool_decide_eq_true. Qed.

(** A closed fact about one character is settled by going through all 256. *)
Ltac all_chars := intros [[] [] [] [] [] [] [] []]; vm_compute; reflexivity.

Lemma upper_lower_char c : lower_char (upper_char c) = tolower c.
Proof. revert c. all_chars. Qed.

Lemma upper_char_idemp c : upper_char (upper_char c) = upper_char c.
Proof. revert c. all_chars. Qed.

Lemma tolower_upper_char c : tolower (upper_char c) = tolower c.
Proof. revert c. all_chars. Qed.

Lemma json_replace_length c jrc :
  find_json_replace_char c = Some jrc -> strlen (withString jrc) = 2.
Proof.
  unfold find_json_replace_char. intros H.
  cbn [find_in_table g_jsonReplaceChars replaceChar] in H.
  repeat (destruct (decide _); [by injection H as <-|]). done.
Qed.

Lemma strlen_json_escape_upper s : strlen (json_escape s) <= 2 * strlen s.
Proof.
  induction s as [|c s IH]; simpl; [done|].
  destruct (find_json_replace_char c) as [jrc|] eqn:E; autorewrite with hub_simpl; [|lia].
  rewrite (json_replace_length c) by done. lia.
Qed.

Lemma strlen_json_escape_all s :
  str_forall (fun c => bool_decide (is_Some (find_json_replace_char c))) s = true ->
  strlen (json_escape s) = 2 * strlen s.
Proof.
  induction s as [|c s IH]; [done|]. cbn [str_forall json_escape]. rewrite andb_true_iff. intros [Hc Hs].
  apply bool_decide_eq_true in Hc as [jrc E]. rewrite E. autorewrite with hub_simpl.
  rewrite (json_replace_length c), IH by done. lia.
Qed.

Lemma strlen_replace_loop p c r :
  strlen (replace_loop p c r) = strlen p - count_char p c + count_char p c * strlen r.
Proof.
  induction p as [|d p IH]; simpl; [done|].
  destruct (decide (d = c)); autorewrite with hub_simpl; lia.
Qed.

Lemma count_char_bounds p c : 0 <= count_char p c <= strlen p.
Proof.
  induction p as [|d p IH]; simpl; [done|]. autorewrite with hub_simpl. case_decide; lia.
Qed.

(** Runs of one character, to state what trimming removes. *)
Fixpoint str_repeat (c : ascii) (n : nat) : string :=
  match n with
  | O => EmptyString
  | S n => String c (str_repeat c n)
  end.

Definition ends_with (s : string) (c : ascii) : Prop := exists t, s = t +:+ String c EmptyString.
Definition starts_with (s : string) (c : ascii) : Prop := exists t, s = String c t.

Lemma trim_left_spec s c :
  exists n, s = str_repeat c n +:+ string_trim_left s c /\ ~ starts_with (string_trim_left s c) c.
Proof.
  induction s as [|d s (n & IH1 & IH2)]; simpl.
  - exists O. split; [done|]. by intros [t [=]].
  - case_decide as Hd.
    + subst d. exists (S n). simpl. by rewrite <- IH1.
    + exists O. split; [done|]. intros [t [= H]]. done.
Qed.

Lemma ends_with_cons d s c : s <> EmptyString -> ends_with (String d s) c -> ends_with s c.
Proof. intros Hs [[|e t] Ht]; simplify_eq/=. by exists t. Qed.

Lemma ends_with_one d c : ends_with (String d EmptyString) c -> d = c.
Proof. intros [[|e [|f t]] Ht]; by injection Ht. Qed.

Lemma ends_with_nil c : ~ ends_with EmptyString c.
Proof. intros [[|e t] Ht]; discriminate Ht. Qed.

Lemma trim_tail_spec s c :
  exists n, s = trim_tail s c +:+ str_repeat c n /\ ~ ends_with (trim_tail s c) c.
Proof.
  induction s as [|d s (n & IH1 & IH2)]; simpl.
  - exists O. split; [done|]. apply ends_with_nil.
  - destruct (trim_tail s c) as [|e t] eqn:E.
    + case_decide as Hd; [subst d|].
      * exists (S n). simpl in *. split; [by f_equal|]. apply ends_with_nil.
      * exists n. simpl in *. split; [by f_equal|]. by intros ?%ends_with_one.
    + exists n. simpl in *. split; [by f_equal|].
      intros Hx. by apply IH2, (ends_with_cons d).
Qed.

Lemma trim_right_cons d s c :
  d <> c ->
  exists n, String d s = string_trim_right (String d s) c +:+ str_repeat c n /\
            ~ ends_with (string_trim_right (String d s) c) c.
Proof.
  intros Hd. destruct (trim_tail_spec s c) as (n & H1 & H2). exists n. simpl. split; [by f_equal|].
  intros Hx. destruct (decide (trim_tail s c = EmptyString)) as [E|E].
  - rewrite E in Hx. by apply ends_with_one in Hx.
  - by eapply H2, ends_with_cons.
Qed.

(** [string_trim] removes exactly a run of the trim character on each
    side, and the result neither starts nor ends with it. *)
Theorem string_trim_spec (str : string) (trim : ascii) :
  exists l r : nat,
    str = str_repeat trim l +:+ string_trim str trim +:+ str_repeat trim r
    /\ ~ starts_with (string_trim str trim) trim
    /\ ~ ends_with (string_trim str trim) trim.
Proof.
  destruct (trim_left_spec str trim) as (l & Hl & Hs). unfold string_trim.
  destruct (string_trim_left str trim) as [|d s].
  - exists l, O. split_and!; [done..|]. apply ends_with_nil.
  - assert (d <> trim) as Hd by (intros ->; apply Hs; by exists s).
    destruct (trim_right_cons d s trim Hd) as (r & Hr & He). exists l, r.
    split_and!; [by rewrite <- Hr|..|done]. intros [t Ht]. by simplify_eq/=.
Qed.

(** Converting to upper case does not change what a string equals when
    case is ignored, and doing it twice is doing it once. *)
Theorem string_upper_case_equals (s t : string) :
  string_equals (string_upper_case s) t true = string_equals s t true
  /\ string_upper_case (string_upper_case s) = string_upper_case s
  /\ string_equals s (string_upper_case s) true = true.
Proof.
  unfold string_equals, strcasecmp_eq, string_upper_case.
  rewrite !str_map_map, !(str_map_ext _ _ s tolower_upper_char).
  split_and!; [done| |by apply bool_decide_eq_true].
  apply str_map_ext, upper_char_idemp.
Qed.

(** The buffer [string_replace_char] allocates is exactly large enough:
    the copy never leaves it, and each occurrence is replaced. *)
Theorem string_replace_char_fits (str : string) (c : ascii) (replace : string) :
  strlen str + strlen str * strlen replace < INT_MAX ->
  string_replace_char str c replace =
    Ret (if count_char str c =? 0 then None else Some (replace_loop str c replace)).
Proof.
  intros Hlen. unfold string_replace_char. case_match; [done|].
  pose proof (count_char_bounds str c). pose proof (strlen_nonneg str). pose proof (strlen_nonneg replace).
  assert (0 <= count_char str c * strlen replace <= strlen str * strlen replace) by nia.
  rewrite to_int_id by (unfold is_int, INT_MIN; lia).
  rewrite write_buf_ok; [done|]. rewrite strlen_replace_loop. lia.
Qed.

Lemma string_replace_char_fits_witness :
  string_replace_char "a/b/c" "/"%char "::" = Ret (Some "a::b::c").
Proof. exact (string_replace_char_fits "a/b/c" "/"%char "::" ltac:(vm_compute; done)). Defined.

(** [string_json_friendly] stays inside its buffers exactly when the
    escaped text and its terminator fit both the scratch buffer of twice the
    input's length and the caller's buffer; an input made only of characters
    to escape (the empty string included) always overruns the scratch
    buffer. *)
Theorem string_json_friendly_bounds (cap : Z) (str : string) :
  (string_json_friendly cap str = Ret (json_escape str) <->
     strlen (json_escape str) + 1 <= strlen str * 2 /\ strlen (json_escape str) + 1 <= cap)
  /\ (str_forall (fun c => bool_decide (is_Some (find_json_replace_char c))) str = true ->
      string_json_friendly cap str = Err OutOfBounds).
Proof.
  unfold string_json_friendly. split.
  - rewrite comp_bind_ret. split.
    + intros (n & [-> ?]%write_buf_Ret & [_ ?]%write_buf_Ret). done.
    + intros [? ?]. exists (json_escape str). by rewrite !write_buf_Ret.
  - intros Hall. apply strlen_json_escape_all in Hall.
    unfold write_buf. destruct (Z.leb_spec (strlen (json_escape str) + 1) (strlen str * 2)); [lia|done].
Qed.
