(* ===== verification/DList.v ===== *)
(** * The doubly linked list (sharelibs/utils: list.c, list_node.c, list_iterator.c)

    Nodes live in a store of allocated cells; a pointer is an [option loc],
    with [None] for NULL.  Following NULL and following a pointer to a cell
    that was freed are faults.  The representation predicate [dlist] relates a
    [list_t] and a store to the sequence of (node, value) pairs it holds, and
    the theorems say that every operation of list.c refines the obvious
    operation on that sequence. *)

From S2P Require Import Prelude.

Local Open Scope Z_scope.

Definition loc := positive.
Abbreviation ptr := (option loc).

Section dlist.
(** [V] is what [void *val] points to; [list_find] compares such pointers. *)
Context {V : Type} `{EqDecision V}.

Record list_node_t := { prev : ptr; next : ptr; val : V }.

(** The allocated nodes, and the values handed to the [free] callback. *)
Record mem := { nodes : gmap loc list_node_t; freed : list V }.

(** [has_free] and [match_fn] are the two function pointers of [list_t]. *)
Record list_t := {
  head : ptr;
  tail : ptr;
  len : Z;
  has_free : bool;
  match_fn : option (V -> V -> bool)
}.

Inductive list_direction_t := LIST_HEAD | LIST_TAIL.

Record list_iterator_t := { it_next : ptr; direction : list_direction_t }.

(** ** Access through pointers *)

Definition load (m : mem) (p : ptr) : comp list_node_t :=
  match p with
  | None => Err NullDeref
  | Some l => comp_of_option UseAfterFree (nodes m !! l)
  end.

Definition store (m : mem) (p : ptr) (g : list_node_t -> list_node_t) : comp mem :=
  match p with
  | None => Err NullDeref
  | Some l =>
      match nodes m !! l with
      | Some nd => Ret {| nodes := <[l := g nd]> (nodes m); freed := freed m |}
      | None => Err UseAfterFree
      end
  end.

Definition set_prev (p : ptr) (nd : list_node_t) : list_node_t :=
  {| prev := p; next := next nd; val := val nd |}.
Definition set_next (p : ptr) (nd : list_node_t) : list_node_t :=
  {| prev := prev nd; next := p; val := val nd |}.

Definition free_node (m : mem) (p : ptr) : comp mem :=
  match p with
  | None => Ret m
  | Some l =>
      match nodes m !! l with
      | Some _ => Ret {| nodes := delete l (nodes m); freed := freed m |}
      | None => Err UseAfterFree
      end
  end.

Definition free_val (m : mem) (self : list_t) (v : V) : mem :=
  if has_free self then {| nodes := nodes m; freed := freed m ++ [v] |} else m.

Definition with_ends (self : list_t) (h t : ptr) : list_t :=
  {| head := h; tail := t; len := len self;
     has_free := has_free self; match_fn := match_fn self |}.
Definition with_len (self : list_t) (n : Z) : list_t :=
  {| head := head self; tail := tail self; len := n;
     has_free := has_free self; match_fn := match_fn self |}.

(** ** The operations *)

Definition list_new : list_t :=
  {| head := None; tail := None; len := 0; has_free := false; match_fn := None |}.

(** The allocator returns a cell that is not in use. *)
Definition list_node_new (m : mem) (v : V) : mem * ptr :=
  let l := fresh (dom (nodes m)) in
  ({| nodes := <[l := {| prev := None; next := None; val := v |}]> (nodes m);
      freed := freed m |}, Some l).

Definition list_rpush (m : mem) (self : list_t) (node : ptr) : comp (mem * list_t * ptr) :=
  match node with
  | None => Ret (m, self, None)
  | Some _ =>
      let* (m, self) :=
        (if len self =? 0 then
           let self := with_ends self node node in
           let* m := store m node (set_next None) in
           let* m := store m node (set_prev None) in
           Ret (m, self)
         else
           let* m := store m node (set_prev (tail self)) in
           let* m := store m node (set_next None) in
           let* m := store m (tail self) (set_next node) in
           Ret (m, with_ends self (head self) node)) in
      Ret (m, with_len self (to_uint (len self + 1)), node)
  end.

Definition list_lpush (m : mem) (self : list_t) (node : ptr) : comp (mem * list_t * ptr) :=
  match node with
  | None => Ret (m, self, None)
  | Some _ =>
      let* (m, self) :=
        (if len self =? 0 then
           let self := with_ends self node node in
           let* m := store m node (set_next None) in
           let* m := store m node (set_prev None) in
           Ret (m, self)
         else
           let* m := store m node (set_next (head self)) in
           let* m := store m node (set_prev None) in
           let* m := store m (head self) (set_prev node) in
           Ret (m, with_ends self node (tail self))) in
      Ret (m, with_len self (to_uint (len self + 1)), node)
  end.

Definition list_rpop (m : mem) (self : list_t) : comp (mem * list_t * ptr) :=
  if len self =? 0 then Ret (m, self, None)
  else
    let node := tail self in
    let self := with_len self (to_uint (len self - 1)) in
    let* (m, self) :=
      (if len self =? 0 then Ret (m, with_ends self None None)
       else
         let* nd := load m node in
         let self := with_ends self (head self) (prev nd) in
         let* m := store m (tail self) (set_next None) in
         Ret (m, self)) in
    let* m := store m node (set_prev None) in
    let* m := store m node (set_next None) in
    Ret (m, self, node).

Definition list_lpop (m : mem) (self : list_t) : comp (mem * list_t * ptr) :=
  if len self =? 0 then Ret (m, self, None)
  else
    let node := head self in
    let self := with_len self (to_uint (len self - 1)) in
    let* (m, self) :=
      (if len self =? 0 then Ret (m, with_ends self None None)
       else
         let* nd := load m node in
         let self := with_ends self (next nd) (tail self) in
         let* m := store m (head self) (set_prev None) in
         Ret (m, self)) in
    let* m := store m node (set_prev None) in
    let* m := store m node (set_next None) in
    Ret (m, self, node).

Definition list_remove (m : mem) (self : list_t) (node : ptr) : comp (mem * list_t) :=
  let* nd := load m node in
  let* (m, self) :=
    (match prev nd with
     | Some _ => let* m := store m (prev nd) (set_next (next nd)) in Ret (m, self)
     | None => Ret (m, with_ends self (next nd) (tail self))
     end) in
  let* nd := load m node in
  let* (m, self) :=
    (match next nd with
     | Some _ => let* m := store m (next nd) (set_prev (prev nd)) in Ret (m, self)
     | None => Ret (m, with_ends self (head self) (prev nd))
     end) in
  let* nd := load m node in
  let m := free_val m self (val nd) in
  let* m := free_node m node in
  Ret (m, with_len self (to_uint (len self - 1))).

(** The loop [while (len--)] of [list_destroy]; [n] counts it down. *)
Fixpoint list_destroy_loop (n : nat) (m : mem) (self : list_t) (curr : ptr) : comp mem :=
  match n with
  | O => Ret m
  | S n =>
      let* nd := load m curr in
      let m := free_val m self (val nd) in
      let* m := free_node m curr in
      list_destroy_loop n m self (next nd)
  end.

Definition list_destroy (m : mem) (self : list_t) : comp mem :=
  list_destroy_loop (Z.to_nat (len self)) m self (head self).

(** ** Iterators *)

Definition list_iterator_new_from_node (node : ptr) (d : list_direction_t) : list_iterator_t :=
  {| it_next := node; direction := d |}.

Definition list_iterator_new (l : list_t) (d : list_direction_t) : list_iterator_t :=
  list_iterator_new_from_node
    (match d with LIST_HEAD => head l | LIST_TAIL => tail l end) d.

Definition list_iterator_next (m : mem) (it : list_iterator_t) : comp (list_iterator_t * ptr) :=
  let curr := it_next it in
  match curr with
  | None => Ret (it, None)
  | Some _ =>
      let* nd := load m curr in
      Ret ({| it_next := match direction it with LIST_HEAD => next nd | LIST_TAIL => prev nd end;
              direction := direction it |}, curr)
  end.

(** The loop of [list_find]; [fuel] bounds the number of nodes visited. *)
Fixpoint list_find_loop (fuel : nat) (m : mem) (self : list_t) (it : list_iterator_t) (v : V)
    : comp ptr :=
  match fuel with
  | O => Err OutOfFuel
  | S fuel =>
      let* (it, node) := list_iterator_next m it in
      match node with
      | None => Ret None
      | Some _ =>
          let* nd := load m node in
          let hit := match match_fn self with
                     | Some f => f v (val nd)
                     | None => bool_decide (v = val nd)
                     end in
          if hit then Ret node else list_find_loop fuel m self it v
      end
  end.

Definition list_find (fuel : nat) (m : mem) (self : list_t) (v : V) : comp ptr :=
  list_find_loop fuel m self (list_iterator_new self LIST_HEAD) v.

(** The loop [while (index--) node = list_iterator_next(it)]. *)
Fixpoint list_at_loop (index : nat) (m : mem) (it : list_iterator_t) (node : ptr) : comp ptr :=
  match index with
  | O => Ret node
  | S index =>
      let* (it, node) := list_iterator_next m it in
      list_at_loop index m it node
  end.

Definition list_at (m : mem) (self : list_t) (index : Z) : comp ptr :=
  let '(d, index) := if index <? 0 then (LIST_TAIL, Z.lnot index) else (LIST_HEAD, index) in
  if to_uint index <? len self then
    let it := list_iterator_new self d in
    let* (it, node) := list_iterator_next m it in
    list_at_loop (Z.to_nat index) m it node
  else Ret None.

(** ** Representation *)

Definition first_or (xs : list (loc * V)) (q : ptr) : ptr :=
  match xs with (n, _) :: _ => Some n | [] => q end.

Fixpoint last_or (p : ptr) (xs : list (loc * V)) : ptr :=
  match xs with
  | [] => p
  | (n, _) :: xs => last_or (Some n) xs
  end.

(** [linked ns p xs q]: the nodes of [xs] are linked in order in the store
    [ns], the first one back to [p] and the last one on to [q]. *)
Fixpoint linked (ns : gmap loc list_node_t) (p : ptr) (xs : list (loc * V)) (q : ptr) : Prop :=
  match xs with
  | [] => True
  | (n, v) :: xs =>
      ns !! n = Some {| prev := p; next := first_or xs q; val := v |}
      /\ linked ns (Some n) xs q
  end.

Record dlist (m : mem) (self : list_t) (xs : list (loc * V)) : Prop := {
  dl_linked : linked (nodes m) None xs None;
  dl_nodup : NoDup xs.*1;
  dl_head : head self = first_or xs None;
  dl_tail : tail self = last_or None xs;
  dl_len : len self = Z.of_nat (length xs)
}.
End dlist.

Arguments list_node_t : clear implicits.
Arguments mem : clear implicits.
Arguments list_t : clear implicits.

Section dlist_facts.
Context {V : Type} `{EqDecision V}.
Implicit Types (m : mem V) (self : list_t V) (xs ys : list (loc * V)) (n : loc).

Lemma store_Some m n nd g :
  nodes m !! n = Some nd ->
  store m (Some n) g = Ret {| nodes := <[n := g nd]> (nodes m); freed := freed m |}.
Proof. simpl. by intros ->. Qed.

Lemma load_Some m n nd : nodes m !! n = Some nd -> load m (Some n) = Ret nd.
Proof. simpl. by intros ->. Qed.

Lemma first_or_app xs ys (q : ptr) : first_or (xs ++ ys) q = first_or xs (first_or ys q).
Proof. by destruct xs as [|[??] ?]. Qed.

Lemma last_or_app (p : ptr) xs ys : last_or p (xs ++ ys) = last_or (last_or p xs) ys.
Proof. revert p. induction xs as [|[n v] xs IH]; intros p; simpl; auto. Qed.

Lemma last_or_cons (p p' : ptr) n (v : V) xs : last_or p ((n, v) :: xs) = last_or p' ((n, v) :: xs).
Proof. done. Qed.

Lemma linked_app (ns : gmap loc (list_node_t V)) p xs ys q :
  linked ns p (xs ++ ys) q <-> linked ns p xs (first_or ys q) /\ linked ns (last_or p xs) ys q.
Proof.
  revert p. induction xs as [|[n v] xs IH]; intros p; simpl; [naive_solver|].
  rewrite IH, first_or_app. naive_solver.
Qed.

Lemma linked_insert_ne (ns : gmap loc (list_node_t V)) n nd p xs q :
  n ∉ xs.*1 -> linked ns p xs q -> linked (<[n := nd]> ns) p xs q.
Proof.
  revert p. induction xs as [|[n' v] xs IH]; intros p; simpl; [done|].
  intros Hn [H1 H2]. apply not_elem_of_cons in Hn as [Hne Hn].
  split; [by rewrite lookup_insert_ne|auto].
Qed.

Lemma linked_delete_ne (ns : gmap loc (list_node_t V)) n p xs q :
  n ∉ xs.*1 -> linked ns p xs q -> linked (delete n ns) p xs q.
Proof.
  revert p. induction xs as [|[n' v] xs IH]; intros p; simpl; [done|].
  intros Hn [H1 H2]. apply not_elem_of_cons in Hn as [Hne Hn].
  split; [by rewrite lookup_delete_ne|auto].
Qed.

Lemma linked_lookup (ns : gmap loc (list_node_t V)) p xs n v ys q :
  linked ns p (xs ++ (n, v) :: ys) q ->
  ns !! n = Some {| prev := last_or p xs; next := first_or ys q; val := v |}.
Proof. rewrite linked_app. simpl. by intros (_ & ? & _). Qed.

(** Redirecting the outer link of the last or of the first node. *)
Lemma linked_redirect_next (ns : gmap loc (list_node_t V)) p xs n v q q' :
  NoDup (xs ++ [(n, v)]).*1 -> linked ns p (xs ++ [(n, v)]) q ->
  linked (<[n := {| prev := last_or p xs; next := q'; val := v |}]> ns) p (xs ++ [(n, v)]) q'.
Proof.
  rewrite fmap_app. intros Hnd [H1 H2]%linked_app. apply NoDup_app in Hnd as (_ & Hd & _).
  apply linked_app. simpl. rewrite lookup_insert_eq. split; [|done].
  apply linked_insert_ne; [|done]. intros Hin. eapply Hd; [done|]. simpl. set_solver.
Qed.

Lemma linked_redirect_prev (ns : gmap loc (list_node_t V)) p p' n v xs q :
  NoDup ((n, v) :: xs).*1 -> linked ns p ((n, v) :: xs) q ->
  linked (<[n := {| prev := p'; next := first_or xs q; val := v |}]> ns) p' ((n, v) :: xs) q.
Proof.
  simpl. intros [Hn _]%NoDup_cons [_ H2]. rewrite lookup_insert_eq. split; [done|].
  by apply linked_insert_ne.
Qed.

Lemma dlist_nil_len m self : dlist m self [] -> len self = 0 /\ head self = None /\ tail self = None.
Proof. intros [_ _ H1 H2 H3]. done. Qed.

Lemma to_uint_id z : 0 <= z < 4294967296 -> to_uint z = z.
Proof. intros ?. unfold to_uint. by rewrite Z.mod_small. Qed.

Lemma dlist_new (m : mem V) : dlist m list_new [].
Proof. constructor; simpl; [done|constructor|done..]. Qed.

(** A push onto the empty list is the same from both sides. *)
Lemma push_empty_dlist m self n nd :
  dlist m self [] -> nodes m !! n = Some nd ->
  dlist {| nodes := <[n := {| prev := None; next := None; val := val nd |}]> (nodes m);
           freed := freed m |}
        (with_len (with_ends self (Some n) (Some n)) 1) [(n, val nd)].
Proof.
  intros Hd Hn. constructor; simpl; [|apply NoDup_singleton|done..].
  by rewrite lookup_insert_eq.
Qed.

Definition push_pre m xs n nd : Prop :=
  nodes m !! n = Some nd /\ n ∉ xs.*1 /\ Z.of_nat (length xs) + 1 < 4294967296.

Lemma nodup_snoc xs n (v : V) : NoDup xs.*1 -> n ∉ xs.*1 -> NoDup (xs ++ [(n, v)]).*1.
Proof.
  intros H1 H2. rewrite fmap_app. apply NoDup_app. split_and!; [done| |apply NoDup_singleton].
  simpl. set_solver.
Qed.

Lemma list_rpush_ok m self xs n nd :
  dlist m self xs -> push_pre m xs n nd ->
  exists m' self', list_rpush m self (Some n) = Ret (m', self', Some n)
    /\ dlist m' self' (xs ++ [(n, val nd)]).
Proof.
  intros Hd (Hn & Hni & Hlen). unfold list_rpush.
  destruct xs as [|[t w] ys _] using rev_ind.
  - destruct (dlist_nil_len _ _ Hd) as (Hl & _). rewrite Hl.
    rewrite (store_Some _ _ _ _ Hn). simpl. rewrite lookup_insert_eq. simpl.
    eexists _, _. split; [done|]. simpl. rewrite insert_insert_eq, Hl.
    exact (push_empty_dlist m self n nd Hd Hn).
  - destruct Hd as [Hk Hnd Hh Ht Hl]. rewrite length_app in Hl, Hlen. simpl in Hl, Hlen.
    assert (n <> t) as Hnt by (rewrite fmap_app in Hni; set_solver).
    rewrite (proj2 (Z.eqb_neq _ _)) by lia.
    rewrite last_or_app in Ht. simpl in Ht. rewrite Ht.
    pose proof (linked_lookup _ _ _ _ _ _ _ Hk) as Htl. simpl in Htl.
    rewrite (store_Some _ _ _ _ Hn). simpl. rewrite lookup_insert_eq. simpl.
    rewrite insert_insert_eq, lookup_insert_ne, Htl by done. simpl.
    eexists _, _. split; [done|]. constructor; simpl.
    + rewrite linked_app. simpl. rewrite last_or_app. simpl. split.
      * apply linked_redirect_next with (q := None); [done|]. by apply linked_insert_ne.
      * rewrite lookup_insert_ne by done. by rewrite lookup_insert_eq.
    + by apply nodup_snoc.
    + rewrite Hh, !first_or_app. by destruct ys as [|[??]?].
    + by rewrite last_or_app.
    + rewrite !length_app, Hl. simpl. rewrite to_uint_id; lia.
Qed.

Lemma list_lpush_ok m self xs n nd :
  dlist m self xs -> push_pre m xs n nd ->
  exists m' self', list_lpush m self (Some n) = Ret (m', self', Some n)
    /\ dlist m' self' ((n, val nd) :: xs).
Proof.
  intros Hd (Hn & Hni & Hlen). unfold list_lpush.
  destruct xs as [|[h w] ys].
  - destruct (dlist_nil_len _ _ Hd) as (Hl & _). rewrite Hl.
    rewrite (store_Some _ _ _ _ Hn). simpl. rewrite lookup_insert_eq. simpl.
    eexists _, _. split; [done|]. simpl. rewrite insert_insert_eq, Hl.
    exact (push_empty_dlist m self n nd Hd Hn).
  - destruct Hd as [Hk Hnd Hh Ht Hl]. simpl in Hl, Hlen, Hh.
    assert (n <> h) as Hnh by set_solver.
    rewrite (proj2 (Z.eqb_neq _ _)) by lia. rewrite Hh.
    pose proof (linked_lookup _ _ [] _ _ _ _ Hk) as Hhd. simpl in Hhd.
    rewrite (store_Some _ _ _ _ Hn). simpl. rewrite lookup_insert_eq. simpl.
    rewrite insert_insert_eq, lookup_insert_ne, Hhd by done. simpl.
    eexists _, _. split; [done|]. constructor; [|simpl; by constructor|done..|].
    + cbn [linked nodes]. rewrite lookup_insert_ne, lookup_insert_eq by done. split; [done|].
      apply linked_redirect_prev with (p := None); [done|]. by apply linked_insert_ne.
    + simpl. rewrite Hl, to_uint_id; lia.
Qed.
End dlist_facts.

Section dlist_removal.
Context {V : Type} `{EqDecision V}.
Implicit Types (m : mem V) (self : list_t V) (xs ys : list (loc * V)) (n : loc).
Implicit Types (ns : gmap loc (list_node_t V)).

Lemma linked_alter_ne ns (g : list_node_t V -> list_node_t V) n p xs q :
  n ∉ xs.*1 -> linked ns p xs q -> linked (alter g n ns) p xs q.
Proof.
  revert p. induction xs as [|[n' v] xs IH]; intros p; simpl; [done|].
  intros Hn [H1 H2]. apply not_elem_of_cons in Hn as [Hne Hn].
  split; [by rewrite lookup_alter_ne|auto].
Qed.

(** The two assignments of an unlinking: through a pointer that may be NULL. *)
Definition relink_next ns (p q : ptr) : gmap loc (list_node_t V) :=
  match p with Some l => alter (set_next q) l ns | None => ns end.
Definition relink_prev ns (q p : ptr) : gmap loc (list_node_t V) :=
  match q with Some l => alter (set_prev p) l ns | None => ns end.

Lemma last_or_None_elem xs l : last_or None xs = Some l -> l ∈ xs.*1.
Proof.
  destruct xs as [|[t w] ys _] using rev_ind; [done|].
  rewrite last_or_app, fmap_app. simpl. intros [= ->]. set_solver.
Qed.

Lemma first_or_None_elem xs l : first_or xs None = Some l -> l ∈ xs.*1.
Proof. destruct xs as [|[t w] ys]; [done|]. simpl. intros [= ->]. set_solver. Qed.

Lemma linked_relink_next ns xs (q q' : ptr) :
  NoDup xs.*1 -> linked ns None xs q ->
  linked (relink_next ns (last_or None xs) q') None xs q'.
Proof.
  destruct xs as [|[t w] ys _] using rev_ind; [done|]. intros Hnd Hk.
  rewrite last_or_app. simpl. pose proof (linked_lookup _ _ _ _ _ _ _ Hk) as Ht.
  rewrite <- (insert_id _ _ _ Ht), alter_insert_eq.
  by eapply linked_redirect_next.
Qed.

Lemma linked_relink_prev ns xs (p p' q : ptr) :
  NoDup xs.*1 -> linked ns p xs q ->
  linked (relink_prev ns (first_or xs None) p') p' xs q.
Proof.
  destruct xs as [|[t w] ys]; [done|]. intros Hnd Hk. simpl first_or. cbn [relink_prev].
  pose proof (linked_lookup _ _ [] _ _ _ _ Hk) as Ht. simpl in Ht.
  rewrite <- (insert_id _ _ _ Ht), alter_insert_eq.
  by eapply linked_redirect_prev.
Qed.

Lemma linked_relink_next_ne ns (l q' p q : ptr) xs :
  (forall x, l = Some x -> x ∉ xs.*1) -> linked ns p xs q -> linked (relink_next ns l q') p xs q.
Proof. intros Hl Hk. destruct l as [l|]; [|done]. apply linked_alter_ne; auto. Qed.

Lemma linked_relink_prev_ne ns (l p' p q : ptr) xs :
  (forall x, l = Some x -> x ∉ xs.*1) -> linked ns p xs q -> linked (relink_prev ns l p') p xs q.
Proof. intros Hl Hk. destruct l as [l|]; [|done]. apply linked_alter_ne; auto. Qed.

Lemma store_alter m l (g : list_node_t V -> list_node_t V) :
  is_Some (nodes m !! l) ->
  store m (Some l) g = Ret {| nodes := alter g l (nodes m); freed := freed m |}.
Proof.
  intros [nd Hl]. rewrite (store_Some _ _ nd) by done. do 2 f_equal.
  apply map_eq. intros i. rewrite lookup_insert, lookup_alter.
  case_decide; subst; [|done]. by rewrite Hl.
Qed.

Lemma linked_elem_Some ns p xs q l : linked ns p xs q -> l ∈ xs.*1 -> is_Some (ns !! l).
Proof.
  revert p. induction xs as [|[n v] xs IH]; intros p; simpl; [set_solver|].
  intros [H1 H2] [->|Hin]%elem_of_cons; [eauto|]. eauto.
Qed.

(** What removing the node [n] between [l1] and [l2] leaves of the store. *)
Lemma linked_remove ns l1 n (v : V) l2 :
  NoDup (l1 ++ (n, v) :: l2).*1 -> linked ns None (l1 ++ (n, v) :: l2) None ->
  linked (delete n (relink_prev (relink_next ns (last_or None l1) (first_or l2 None))
                                (first_or l2 None) (last_or None l1)))
         None (l1 ++ l2) None.
Proof.
  rewrite fmap_app. intros (Hnd1 & Hdis & [Hn2 Hnd2]%NoDup_cons)%NoDup_app [Hk1 [_ Hk2]]%linked_app.
  assert (n ∉ l1.*1) as Hn1 by (intros Hin; eapply Hdis; set_solver).
  apply linked_delete_ne; [rewrite fmap_app; set_solver|].
  apply linked_app. split.
  - apply linked_relink_prev_ne; [|by eapply linked_relink_next].
    intros x Hx%first_or_None_elem Hx1. eapply Hdis; set_solver.
  - eapply linked_relink_prev; [done|]. apply linked_relink_next_ne; [|done].
    intros x Hx%last_or_None_elem Hx2. eapply Hdis; set_solver.
Qed.

Lemma store_opt_next m self (p q : ptr) :
  (forall x, p = Some x -> is_Some (nodes m !! x)) ->
  (match p with
   | Some _ => let* m := store m p (set_next q) in Ret (m, self)
   | None => Ret (m, with_ends self q (tail self))
   end) =
  Ret ({| nodes := relink_next (nodes m) p q; freed := freed m |},
       match p with Some _ => self | None => with_ends self q (tail self) end).
Proof.
  intros Hp. destruct p as [l|]; [|by destruct m]. by rewrite store_alter by auto.
Qed.

Lemma store_opt_prev m self (q p : ptr) :
  (forall x, q = Some x -> is_Some (nodes m !! x)) ->
  (match q with
   | Some _ => let* m := store m q (set_prev p) in Ret (m, self)
   | None => Ret (m, with_ends self (head self) p)
   end) =
  Ret ({| nodes := relink_prev (nodes m) q p; freed := freed m |},
       match q with Some _ => self | None => with_ends self (head self) p end).
Proof.
  intros Hp. destruct q as [l|]; [|by destruct m]. by rewrite store_alter by auto.
Qed.

Lemma relink_next_lookup_ne ns (l q : ptr) n :
  l <> Some n -> relink_next ns l q !! n = ns !! n.
Proof. intros Hn. destruct l as [l|]; [|done]. apply lookup_alter_ne. congruence. Qed.

Lemma relink_prev_lookup_ne ns (l p : ptr) n :
  l <> Some n -> relink_prev ns l p !! n = ns !! n.
Proof. intros Hn. destruct l as [l|]; [|done]. apply lookup_alter_ne. congruence. Qed.

Lemma relink_next_is_Some ns (l q : ptr) x : is_Some (ns !! x) -> is_Some (relink_next ns l q !! x).
Proof.
  intros Hx. destruct l as [l|]; [|done]. simpl. rewrite lookup_alter.
  case_decide; subst; [|done]. by destruct Hx as [? ->].
Qed.

(** The ends of the list after an unlinking. *)
Lemma remove_ends self l1 n (v : V) l2 (p q : ptr) :
  p = last_or None l1 -> q = first_or l2 None ->
  head self = first_or (l1 ++ (n, v) :: l2) None ->
  tail self = last_or None (l1 ++ (n, v) :: l2) ->
  let s1 := match p with Some _ => self | None => with_ends self q (tail self) end in
  let s2 := match q with Some _ => s1 | None => with_ends s1 (head s1) p end in
  head s2 = first_or (l1 ++ l2) None /\ tail s2 = last_or None (l1 ++ l2)
  /\ len s2 = len self /\ has_free s2 = has_free self /\ match_fn s2 = match_fn self.
Proof.
  intros -> -> Hh Ht.
  rewrite first_or_app in *. rewrite last_or_app in *.
  destruct l1 as [|[a x] l1 _] using rev_ind; destruct l2 as [|[b y] l2]; simpl in *;
    rewrite ?last_or_app, ?first_or_app in *; simpl in *; auto.
Qed.

Definition unlinked ns (l1 l2 : list (loc * V)) : gmap loc (list_node_t V) :=
  relink_prev (relink_next ns (last_or None l1) (first_or l2 None))
              (first_or l2 None) (last_or None l1).

Definition unlinked_ends self (l1 l2 : list (loc * V)) : list_t V :=
  let s1 := match last_or None l1 with
            | Some _ => self
            | None => with_ends self (first_or l2 None) (tail self)
            end in
  match first_or l2 None with
  | Some _ => s1
  | None => with_ends s1 (head s1) (last_or None l1)
  end.

Lemma neighbours_fresh l1 n (v : V) l2 :
  NoDup (l1 ++ (n, v) :: l2).*1 ->
  last_or None l1 <> Some n /\ first_or l2 None <> Some n.
Proof.
  rewrite fmap_app. intros (_ & Hdis & [Hx _]%NoDup_cons)%NoDup_app.
  split; [intros Hi%last_or_None_elem|by intros Hi%first_or_None_elem].
  eapply Hdis; set_solver.
Qed.

Lemma unlinked_lookup ns l1 n (v : V) l2 :
  NoDup (l1 ++ (n, v) :: l2).*1 -> unlinked ns l1 l2 !! n = ns !! n.
Proof.
  intros [H1 H2]%neighbours_fresh. unfold unlinked.
  by rewrite relink_prev_lookup_ne, relink_next_lookup_ne.
Qed.

(** [list_remove] as one step. *)
Lemma list_remove_eq m self l1 n (v : V) l2 :
  linked (nodes m) None (l1 ++ (n, v) :: l2) None -> NoDup (l1 ++ (n, v) :: l2).*1 ->
  list_remove m self (Some n) =
    let s2 := unlinked_ends self l1 l2 in
    Ret ({| nodes := delete n (unlinked (nodes m) l1 l2);
            freed := freed m ++ (if has_free s2 then [v] else []) |},
         with_len s2 (to_uint (len s2 - 1))).
Proof.
  intros Hk Hnd. unfold list_remove.
  pose proof (linked_lookup _ _ _ _ _ _ _ Hk) as Hn.
  pose proof (unlinked_lookup (nodes m) _ _ _ _ Hnd) as Hu.
  destruct (neighbours_fresh _ _ _ _ Hnd) as [Hn1 Hn2].
  assert (forall x, last_or None l1 = Some x \/ first_or l2 None = Some x -> is_Some (nodes m !! x)) as Hs.
  { intros x Hx. eapply linked_elem_Some; [done|]. rewrite fmap_app.
    destruct Hx as [Hx%last_or_None_elem|Hx%first_or_None_elem]; set_solver. }
  rewrite (load_Some _ _ _ Hn). cbn [mbind comp_bind prev next val].
  rewrite store_opt_next by (intros; apply Hs; auto). cbn [mbind comp_bind].
  rewrite (load_Some _ n {| prev := last_or None l1; next := first_or l2 None; val := v |})
    by (simpl; by rewrite relink_next_lookup_ne).
  cbn [mbind comp_bind prev next val].
  rewrite store_opt_prev by (intros; apply relink_next_is_Some, Hs; auto).
  cbn [mbind comp_bind nodes freed]. fold (unlinked (nodes m) l1 l2). fold (unlinked_ends self l1 l2).
  rewrite (load_Some _ n {| prev := last_or None l1; next := first_or l2 None; val := v |})
    by (simpl; by rewrite Hu).
  unfold free_val. destruct (has_free _); simpl; by rewrite ?app_nil_r, Hu, Hn.
Qed.

Lemma list_remove_ok m self l1 n (v : V) l2 :
  dlist m self (l1 ++ (n, v) :: l2) -> len self < 4294967296 ->
  exists m' self', list_remove m self (Some n) = Ret (m', self')
    /\ dlist m' self' (l1 ++ l2)
    /\ nodes m' !! n = None
    /\ freed m' = freed m ++ (if has_free self then [v] else [])
    /\ has_free self' = has_free self.
Proof.
  intros [Hk Hnd Hh Ht Hl] Hlen. rewrite (list_remove_eq m self l1 n v l2) by done.
  destruct (remove_ends self l1 n v l2 _ _ eq_refl eq_refl Hh Ht) as (E1 & E2 & E3 & E4 & E5).
  fold (unlinked_ends self l1 l2) in *. rewrite length_app in Hl. simpl in Hl.
  eexists _, _. split; [done|]. cbn [nodes freed has_free with_len]. rewrite E4.
  split; [|split_and!; [apply lookup_delete_eq|done..]].
  constructor; simpl; [by eapply linked_remove| |done|done|].
  - rewrite fmap_app in *. apply NoDup_app in Hnd as (? & Hdis & [? ?]%NoDup_cons).
    apply NoDup_app. split_and!; [done| |done]. intros x Hx Hx'. eapply Hdis; set_solver.
  - rewrite E3, Hl, length_app, to_uint_id; lia.
Qed.
End dlist_removal.

Section dlist_pop.
Context {V : Type} `{EqDecision V}.
Implicit Types (m : mem V) (self : list_t V) (xs ys : list (loc * V)) (n : loc).

(** Detaching resets both links of the popped node, outside the list. *)
Lemma detach_ok m n nd xs self :
  nodes m !! n = Some nd -> n ∉ xs.*1 -> dlist m self xs ->
  exists m', (let* m := store m (Some n) (set_prev None) in
              let* m := store m (Some n) (set_next None) in Ret (m, self, Some n))
             = Ret (m', self, Some n)
    /\ dlist m' self xs /\ nodes m' !! n = Some {| prev := None; next := None; val := val nd |}
    /\ freed m' = freed m.
Proof.
  intros Hn Hni [Hk Hnd Hh Ht Hl].
  rewrite (store_Some _ _ _ _ Hn). cbn [mbind comp_bind].
  rewrite (store_Some _ n (set_prev None nd)) by apply lookup_insert_eq. simpl.
  eexists. split; [done|]. simpl. rewrite insert_insert_eq, lookup_insert_eq.
  split; [|done]. constructor; simpl; [|done..]. by apply linked_insert_ne.
Qed.

Lemma list_lpop_ok m self n (v : V) xs :
  dlist m self ((n, v) :: xs) -> len self < 4294967296 ->
  exists m' self', list_lpop m self = Ret (m', self', Some n)
    /\ dlist m' self' xs
    /\ nodes m' !! n = Some {| prev := None; next := None; val := v |}
    /\ freed m' = freed m /\ has_free self' = has_free self.
Proof.
  intros [Hk Hnd Hh Ht Hl] Hlen. unfold list_lpop. simpl in Hl, Hh.
  rewrite (proj2 (Z.eqb_neq _ _)) by lia. cbn [with_len len].
  rewrite Hh. pose proof (linked_lookup _ _ [] _ _ _ _ Hk) as Hn. cbn [last_or] in Hn.
  cbn [fmap list_fmap fst] in Hnd. apply NoDup_cons in Hnd as [Hni Hnd].
  destruct Hk as [_ Hk]. rewrite to_uint_id by lia.
  destruct xs as [|[h w] xs].
  - simpl in Hl. rewrite Hl. cbn -[store].
    destruct (detach_ok m n _ [] (with_ends (with_len self 0) None None) Hn) as (m' & E & Hd' & ? & ?);
      [set_solver|constructor; simpl; done|].
    eexists m', _. split; [exact E|]. done.
  - simpl in Hl. rewrite (proj2 (Z.eqb_neq _ _)) by lia.
    rewrite (load_Some _ _ _ Hn). cbn [mbind comp_bind next first_or with_ends head with_len].
    pose proof (linked_lookup _ _ [] _ _ _ _ Hk) as Hw. cbn [last_or] in Hw.
    rewrite (store_Some _ _ _ _ Hw). cbn [mbind comp_bind].
    assert (n <> h) by set_solver.
    edestruct (detach_ok {| nodes := <[h := set_prev None {| prev := Some n; next := first_or xs None; val := w |}]> (nodes m); freed := freed m |}
                n {| prev := None; next := Some h; val := v |} ((h, w) :: xs)
                (with_ends (with_len self (len self - 1)) (Some h) (tail self))) as (m' & E & Hd' & ? & ?);
      [simpl; by rewrite lookup_insert_ne|done| |].
    { constructor; [by eapply (linked_redirect_prev _ (Some n) None)|done|done|done|simpl in *; lia]. }
    eexists m', _. split; [exact E|]. done.
Qed.

Lemma list_rpop_ok m self n (v : V) xs :
  dlist m self (xs ++ [(n, v)]) -> len self < 4294967296 ->
  exists m' self', list_rpop m self = Ret (m', self', Some n)
    /\ dlist m' self' xs
    /\ nodes m' !! n = Some {| prev := None; next := None; val := v |}
    /\ freed m' = freed m /\ has_free self' = has_free self.
Proof.
  intros [Hk Hnd Hh Ht Hl] Hlen. unfold list_rpop.
  rewrite length_app in Hl. rewrite last_or_app in Ht. simpl in Hl, Ht.
  rewrite (proj2 (Z.eqb_neq _ _)) by lia. cbn [with_len len].
  rewrite Ht. pose proof (linked_lookup _ _ _ _ _ _ _ Hk) as Hn. cbn [first_or] in Hn.
  rewrite fmap_app in Hnd. apply NoDup_app in Hnd as (Hnd & Hdis & _).
  assert (n ∉ xs.*1) as Hni by (intros Hx; eapply Hdis; set_solver).
  apply linked_app in Hk as [Hk _]. rewrite to_uint_id by lia.
  destruct xs as [|[t w] xs _] using rev_ind.
  - simpl in Hl. rewrite Hl. cbn -[store].
    destruct (detach_ok m n _ [] (with_ends (with_len self 0) None None) Hn) as (m' & E & Hd' & ? & ?);
      [set_solver|constructor; simpl; done|].
    eexists m', _. split; [exact E|]. done.
  - rewrite length_app in Hl. simpl in Hl. rewrite (proj2 (Z.eqb_neq _ _)) by lia.
    rewrite (load_Some _ _ _ Hn). cbn [mbind comp_bind prev with_ends tail with_len].
    rewrite last_or_app. cbn [last_or].
    pose proof (linked_lookup _ _ _ _ _ _ _ Hk) as Hw. cbn [first_or] in Hw.
    rewrite (store_Some _ _ _ _ Hw). cbn [mbind comp_bind].
    assert (n <> t) by (rewrite fmap_app in Hni; set_solver).
    edestruct (detach_ok {| nodes := <[t := set_next None {| prev := last_or None xs; next := Some n; val := w |}]> (nodes m); freed := freed m |}
                n {| prev := Some t; next := None; val := v |} (xs ++ [(t, w)])
                (with_ends (with_len self (len self - 1)) (head self) (Some t))) as (m' & E & Hd' & ? & ?);
      [simpl; rewrite lookup_insert_ne, Hn by done; by rewrite last_or_app|done| |].
    { constructor; [by eapply (linked_redirect_next _ None xs t w (Some n) None)|done| | |].
      - simpl. rewrite Hh, !first_or_app. by destruct xs as [|[??]?].
      - simpl. by rewrite last_or_app.
      - simpl. rewrite length_app. simpl. lia. }
    eexists m', _. split; [exact E|]. done.
Qed.

Lemma list_pop_empty m self : dlist m self [] ->
  list_lpop m self = Ret (m, self, None) /\ list_rpop m self = Ret (m, self, None).
Proof. intros Hd. destruct (dlist_nil_len _ _ Hd) as (Hl & _). unfold list_lpop, list_rpop. by rewrite Hl. Qed.
End dlist_pop.

Section dlist_scan.
Context {V : Type} `{EqDecision V}.
Implicit Types (m : mem V) (self : list_t V) (xs ys : list (loc * V)) (n : loc).

Definition hits self (v w : V) : bool :=
  match match_fn self with
  | Some f => f v w
  | None => bool_decide (v = w)
  end.

Lemma iterator_next_head m p xs :
  linked (nodes m) p xs None ->
  list_iterator_next m {| it_next := first_or xs None; direction := LIST_HEAD |} =
    Ret ({| it_next := first_or (tl xs) None; direction := LIST_HEAD |}, first_or xs None).
Proof.
  destruct xs as [|[n v] xs]; [done|]. intros [Hn _]. unfold list_iterator_next.
  cbn [it_next first_or direction]. by rewrite (load_Some _ _ _ Hn).
Qed.

Lemma iterator_next_tail m xs q :
  linked (nodes m) None xs q ->
  list_iterator_next m {| it_next := last_or None xs; direction := LIST_TAIL |} =
    Ret ({| it_next := last_or None (removelast xs); direction := LIST_TAIL |}, last_or None xs).
Proof.
  destruct xs as [|[n v] xs _] using rev_ind; [done|]. intros Hk.
  pose proof (linked_lookup _ _ _ _ _ _ _ Hk) as Hn.
  rewrite removelast_last, last_or_app. unfold list_iterator_next. cbn [it_next last_or direction].
  by rewrite (load_Some _ _ _ Hn).
Qed.

(** [list_find] is the first element that matches. *)
Lemma list_find_loop_ok fuel m self p xs v :
  linked (nodes m) p xs None -> (length xs < fuel)%nat ->
  list_find_loop fuel m self {| it_next := first_or xs None; direction := LIST_HEAD |} v =
    Ret (fst <$> List.find (fun x => hits self v x.2) xs).
Proof.
  revert p xs. induction fuel as [|fuel IH]; intros p xs Hk Hf; [lia|].
  cbn [list_find_loop]. rewrite (iterator_next_head _ p) by done. cbn [mbind comp_bind].
  destruct xs as [|[n w] xs]; [done|]. destruct Hk as [Hn Hk]. simpl in Hf.
  cbn [first_or]. rewrite (load_Some _ _ _ Hn). cbn [mbind comp_bind val tl List.find snd].
  fold (hits self v w). destruct (hits self v w); [done|]. apply (IH (Some n)); [done|lia].
Qed.

Lemma list_find_ok fuel m self xs v :
  dlist m self xs -> (length xs < fuel)%nat ->
  list_find fuel m self v = Ret (fst <$> List.find (fun x => hits self v x.2) xs).
Proof.
  intros [Hk _ Hh _ _] Hf. unfold list_find, list_iterator_new, list_iterator_new_from_node.
  rewrite Hh. by eapply list_find_loop_ok.
Qed.

Lemma list_at_loop_null k m d : list_at_loop k m {| it_next := None; direction := d |} None = Ret None.
Proof. induction k as [|k IH]; simpl; [done|]. apply IH. Qed.

Lemma list_at_loop_head k m p n (v : V) xs :
  linked (nodes m) p xs None ->
  list_at_loop k m {| it_next := first_or xs None; direction := LIST_HEAD |} (Some n) =
    Ret (fst <$> ((n, v) :: xs) !! k).
Proof.
  revert p n v xs. induction k as [|k IH]; intros p n v xs Hk; [done|].
  cbn [list_at_loop]. rewrite (iterator_next_head _ p) by done. cbn [mbind comp_bind].
  destruct xs as [|[n' w] xs]; simpl.
  - apply list_at_loop_null.
  - destruct Hk as [_ Hk]. by apply (IH (Some n')).
Qed.

Lemma list_at_loop_tail k m n (v : V) xs q :
  linked (nodes m) None xs q ->
  list_at_loop k m {| it_next := last_or None xs; direction := LIST_TAIL |} (Some n) =
    Ret (fst <$> ((n, v) :: reverse xs) !! k).
Proof.
  revert n v xs q. induction k as [|k IH]; intros n v xs q Hk; [done|].
  cbn [list_at_loop]. rewrite (iterator_next_tail _ _ q) by done. cbn [mbind comp_bind].
  destruct xs as [|[n' w] xs _] using rev_ind; simpl.
  - apply list_at_loop_null.
  - rewrite removelast_last, last_or_app, reverse_snoc. simpl.
    apply linked_app in Hk as [Hk _]. by eapply IH.
Qed.

(** Which element [list_at] means by an index. *)
Definition at_index (xs : list (loc * V)) (index : Z) : ptr :=
  fst <$> (if 0 <=? index then xs !! Z.to_nat index else reverse xs !! Z.to_nat (- index - 1)).

Lemma list_at_ok m self xs index :
  dlist m self xs -> is_int index -> list_at m self index = Ret (at_index xs index).
Proof.
  intros [Hk _ Hh Ht Hl] Hi. unfold is_int, INT_MIN, INT_MAX in Hi.
  unfold list_at, at_index, list_iterator_new, list_iterator_new_from_node.
  destruct (Z.ltb_spec index 0).
  - rewrite (proj2 (Z.leb_gt 0 index)) by lia. rewrite to_uint_id by (unfold Z.lnot; lia).
    replace (Z.lnot index) with (- index - 1) by (unfold Z.lnot; lia). rewrite Hl, Ht.
    destruct (Z.ltb_spec (- index - 1) (Z.of_nat (length xs))).
    + rewrite (iterator_next_tail _ _ None) by done. cbn [mbind comp_bind].
      destruct xs as [|[n v] xs _] using rev_ind; [simpl in *; lia|].
      rewrite removelast_last, last_or_app, reverse_snoc. simpl last_or.
      apply linked_app in Hk as [Hk _]. by eapply list_at_loop_tail.
    + by rewrite lookup_ge_None_2 by (rewrite length_reverse; lia).
  - rewrite (proj2 (Z.leb_le 0 index)) by lia. rewrite to_uint_id by lia. rewrite Hl, Hh.
    destruct (Z.ltb_spec index (Z.of_nat (length xs))).
    + rewrite (iterator_next_head _ None) by done. cbn [mbind comp_bind].
      destruct xs as [|[n v] xs]; [simpl in *; lia|]. destruct Hk as [_ Hk].
      by apply (list_at_loop_head _ _ (Some n) n v).
    + by rewrite lookup_ge_None_2 by lia.
Qed.

Lemma list_destroy_loop_ok m self p xs :
  linked (nodes m) p xs None -> NoDup xs.*1 ->
  exists m', list_destroy_loop (length xs) m self (first_or xs None) = Ret m'
    /\ freed m' = freed m ++ (if has_free self then xs.*2 else [])
    /\ (forall n, n ∈ xs.*1 -> nodes m' !! n = None)
    /\ (forall n, n ∉ xs.*1 -> nodes m' !! n = nodes m !! n).
Proof.
  revert m p. induction xs as [|[n v] xs IH]; intros m p Hk Hnd.
  - exists m. split_and!; [done|by destruct (has_free self); rewrite app_nil_r|set_solver|done].
  - destruct Hk as [Hn Hk]. cbn [fmap list_fmap fst] in Hnd. apply NoDup_cons in Hnd as [Hni Hnd].
    cbn [length list_destroy_loop first_or]. rewrite (load_Some _ _ _ Hn). cbn [mbind comp_bind val next].
    assert (nodes (free_val m self v) = nodes m) as Hfv by (unfold free_val; by destruct (has_free self)).
    cbn [free_node]. rewrite Hfv, Hn. cbn [mbind comp_bind].
    edestruct (IH {| nodes := delete n (nodes m); freed := freed (free_val m self v) |} (Some n))
      as (m' & E & Hf & Hm1 & Hm2); [by apply linked_delete_ne|done|].
    exists m'. split_and!; [exact E| | |].
    + rewrite Hf. unfold free_val. destruct (has_free self); simpl; by rewrite <- ?app_assoc.
    + intros n' Hin. cbn [fmap list_fmap fst] in Hin. apply elem_of_cons in Hin as [->|Hin]; [|auto].
      rewrite Hm2 by done. apply lookup_delete_eq.
    + intros n' Hn'. cbn [fmap list_fmap fst] in Hn'. apply not_elem_of_cons in Hn' as [? ?].
      rewrite Hm2 by done. by apply lookup_delete_ne.
Qed.
End dlist_scan.

(** ** What list.c promises

    The promise to the clients is a deque of values: the node pointers are
    handles that only the operations themselves look into. *)
Section deque.
Context {V : Type} `{EqDecision V}.

(** Appending, prepending and popping at both ends of the linked list
    are the corresponding operations on the sequence it represents, with no
    access through a null or freed pointer. *)
Theorem list_deque_refines (m : mem V) (self : list_t V) (xs : list (loc * V)) :
  dlist m self xs -> Z.of_nat (length xs) + 1 < 4294967296 ->
  (forall n nd, nodes m !! n = Some nd -> n ∉ xs.*1 ->
     (exists m' s', list_rpush m self (Some n) = Ret (m', s', Some n) /\ dlist m' s' (xs ++ [(n, val nd)]))
     /\ (exists m' s', list_lpush m self (Some n) = Ret (m', s', Some n) /\ dlist m' s' ((n, val nd) :: xs)))
  /\ (exists m' s', list_lpop m self = Ret (m', s', fst <$> hd_error xs) /\ dlist m' s' (tl xs))
  /\ (exists m' s', list_rpop m self = Ret (m', s', fst <$> last xs) /\ dlist m' s' (removelast xs)).
Proof.
  intros Hd Hlen. split_and!.
  - intros n nd Hn Hni. split; [eapply list_rpush_ok|eapply list_lpush_ok]; by try split_and!.
  - destruct xs as [|[n v] xs]; [exists m, self; by rewrite (proj1 (list_pop_empty _ _ Hd))|].
    destruct (list_lpop_ok m self n v xs Hd) as (m' & s' & -> & ? & _); [|by eexists _, _].
    destruct Hd as [_ _ _ _ ->]. lia.
  - destruct xs as [|[n v] xs _] using rev_ind; [exists m, self; by rewrite (proj2 (list_pop_empty _ _ Hd))|].
    rewrite last_snoc, removelast_last.
    destruct (list_rpop_ok m self n v xs Hd) as (m' & s' & -> & ? & _); [|by eexists _, _].
    destruct Hd as [_ _ _ _ ->]. rewrite length_app in *. lia.
Qed.

(** [list_remove] of a node of the list takes exactly that element out
    of the sequence, wherever it stands, gives its value to the [free]
    callback once and releases the node. *)
Theorem list_remove_refines (m : mem V) (self : list_t V) (l1 l2 : list (loc * V)) n v :
  dlist m self (l1 ++ (n, v) :: l2) -> Z.of_nat (length (l1 ++ (n, v) :: l2)) < 4294967296 ->
  exists m' self', list_remove m self (Some n) = Ret (m', self')
    /\ dlist m' self' (l1 ++ l2)
    /\ nodes m' !! n = None
    /\ freed m' = freed m ++ (if has_free self then [v] else []).
Proof.
  intros Hd Hlen. destruct (list_remove_ok m self l1 n v l2 Hd) as (m' & s' & ? & ? & ? & ? & _);
    [destruct Hd; lia|]. by eexists _, _.
Qed.

(** Scanning the linked list agrees with the sequence: [list_find]
    terminates within one step per element and returns the first match,
    [list_at] counts from the front for an index >= 0 and from the back for
    a negative one, and [list_destroy] frees every node and every value
    once, in order. *)
Theorem list_scan_refines (m : mem V) (self : list_t V) (xs : list (loc * V)) :
  dlist m self xs ->
  (forall fuel v, (length xs < fuel)%nat ->
     list_find fuel m self v = Ret (fst <$> List.find (fun x => hits self v x.2) xs))
  /\ (forall index, is_int index -> list_at m self index = Ret (at_index xs index))
  /\ (exists m', list_destroy m self = Ret m'
       /\ freed m' = freed m ++ (if has_free self then xs.*2 else [])
       /\ (forall n, n ∈ xs.*1 -> nodes m' !! n = None)
       /\ (forall n, n ∉ xs.*1 -> nodes m' !! n = nodes m !! n)).
Proof.
  intros Hd. split_and!; [intros; by apply list_find_ok|intros; by apply list_at_ok|].
  destruct Hd as [Hk Hnd Hh _ Hl]. unfold list_destroy. rewrite Hh, Hl, Nat2Z.id.
  by eapply list_destroy_loop_ok.
Qed.
End deque.

(** A two-element list on which the refinement theorems apply. *)
Definition demo_mem : mem Z :=
  {| nodes := <[2%positive := {| prev := Some 1%positive; next := None; val := 20 |}]>
              (<[1%positive := {| prev := None; next := Some 2%positive; val := 10 |}]>
              (<[3%positive := {| prev := None; next := None; val := 30 |}]> ∅));
     freed := [] |}.
Definition demo_list : list_t Z :=
  {| head := Some 1%positive; tail := Some 2%positive; len := 2; has_free := true; match_fn := None |}.
Definition demo_seq : list (loc * Z) := [(1%positive, 10); (2%positive, 20)].

Lemma demo_dlist : dlist demo_mem demo_list demo_seq.
Proof. constructor; [by vm_compute| |done..]. apply (bool_decide_unpack _). by vm_compute. Qed.

Lemma list_deque_refines_witness :
  exists m' s', list_rpush demo_mem demo_list (Some 3%positive) = Ret (m', s', Some 3%positive)
    /\ dlist m' s' (demo_seq ++ [(3%positive, 30)]).
Proof.
  destruct (list_deque_refines demo_mem demo_list demo_seq demo_dlist) as [H _]; [by vm_compute|].
  destruct (H 3%positive {| prev := None; next := None; val := 30 |}) as [H' _]; [done| |exact H'].
  apply (bool_decide_unpack _). by vm_compute.
Defined.

Lemma list_remove_refines_witness :
  exists m' s', list_remove demo_mem demo_list (Some 1%positive) = Ret (m', s')
    /\ dlist m' s' [(2%positive, 20)] /\ nodes m' !! 1%positive = None /\ freed m' = [10].
Proof.
  exact (list_remove_refines demo_mem demo_list [] [(2%positive, 20)] 1%positive 10 demo_dlist
           ltac:(by vm_compute)).
Defined.

Lemma list_scan_refines_witness :
  list_find 3 demo_mem demo_list 20 = Ret (Some 2%positive)
  /\ list_at demo_mem demo_list (-1) = Ret (Some 2%positive).
Proof.
  destruct (list_scan_refines demo_mem demo_list demo_seq demo_dlist) as (H1 & H2 & _).
  split; [apply (H1 3%nat 20); simpl; lia|]. apply (H2 (-1)). by vm_compute.
Defined.
