(* ===== verification/SList.v ===== *)
(** * The singly linked list (sharelibs/utils/source/slist.c)

    The list behind the ini parser.  As in [DList], nodes live in a store of
    allocated cells and the representation predicate [slist] relates the
    structure to the sequence of (node, payload) pairs.  The payload [V] is
    what the embedding structure adds to [struct slist_node]; [key_hit_test]
    is the callback that compares it with a key. *)

From S2P Require Import Prelude DList.

Local Open Scope Z_scope.

Section slist.
Context {V K : Type}.

Record slist_node := { s_next : ptr; s_data : V }.

(** The allocated nodes and the payloads released so far. *)
Record smem := { cells : gmap loc slist_node; released : list V }.

(** [key_hit_test]: [Some f] when the callback is set; [f] is true on a hit
    (the C callback returns 0). *)
Record single_list := {
  s_head : ptr;
  s_tail : ptr;
  s_size : Z;
  key_hit_test : option (V -> K -> bool)
}.

Definition sload (m : smem) (p : ptr) : comp slist_node :=
  match p with
  | None => Err NullDeref
  | Some l => comp_of_option UseAfterFree (cells m !! l)
  end.

Definition sset_next (m : smem) (p q : ptr) : comp smem :=
  match p with
  | None => Err NullDeref
  | Some l =>
      match cells m !! l with
      | Some nd => Ret {| cells := <[l := {| s_next := q; s_data := s_data nd |}]> (cells m);
                          released := released m |}
      | None => Err UseAfterFree
      end
  end.

(** [if(list->free_node) list->free_node(p); else if(p) free(p);] *)
Definition release (m : smem) (p : ptr) : comp smem :=
  match p with
  | None => Ret m
  | Some l =>
      match cells m !! l with
      | Some nd => Ret {| cells := delete l (cells m); released := released m ++ [s_data nd] |}
      | None => Err UseAfterFree
      end
  end.

Definition mk (l : single_list) (h t : ptr) (n : Z) : single_list :=
  {| s_head := h; s_tail := t; s_size := n; key_hit_test := key_hit_test l |}.

Definition new_single_list (op_cmp : option (V -> K -> bool)) : single_list :=
  {| s_head := None; s_tail := None; s_size := 0; key_hit_test := op_cmp |}.

Definition _add_node (m : smem) (l : single_list) (node : ptr) : comp (smem * single_list) :=
  match s_tail l with
  | Some _ =>
      let* m := sset_next m (s_tail l) node in
      let* m := sset_next m node None in
      Ret (m, mk l (s_head l) node (to_int (s_size l + 1)))
  | None =>
      let* m := sset_next m node None in
      Ret (m, mk l node node 1)
  end.

(** [for(; i < pos; i++) { prev = p; p = p->next; }] *)
Fixpoint walk (k : nat) (m : smem) (p prev : ptr) : comp (ptr * ptr) :=
  match k with
  | O => Ret (p, prev)
  | S k => let* nd := sload m p in walk k m (s_next nd) p
  end.

Definition _insert_node (m : smem) (l : single_list) (pos : Z) (node : ptr)
    : comp (smem * single_list) :=
  if pos <? s_size l then
    let* (p, prev) := walk (Z.to_nat pos) m (s_head l) (s_head l) in
    let* (m, l) :=
      (if decide (p = s_head l) then
         let* m := sset_next m node (s_head l) in
         Ret (m, mk l node (s_tail l) (s_size l))
       else
         let* m := sset_next m prev node in
         let* m := sset_next m node p in
         Ret (m, l)) in
    let* nd := sload m node in
    let t := match s_next nd with None => node | Some _ => s_tail l end in
    Ret (m, mk l (s_head l) t (to_int (s_size l + 1)))
  else _add_node m l node.

Definition _replace (m : smem) (l : single_list) (pos : Z) (node : ptr)
    : comp (smem * single_list) :=
  if pos <? s_size l then
    let* (p, prev) := walk (Z.to_nat pos) m (s_head l) (s_head l) in
    let* (m, l) :=
      (if decide (p = s_head l) then
         let* hd := sload m (s_head l) in
         let* m := sset_next m node (s_next hd) in
         Ret (m, mk l node (s_tail l) (s_size l))
       else
         let* m := sset_next m prev node in
         let* nd := sload m p in
         let* m := sset_next m node (s_next nd) in
         Ret (m, l)) in
    let* nd := sload m node in
    let t := match s_next nd with None => node | Some _ => s_tail l end in
    let* m := release m p in
    Ret (m, mk l (s_head l) t (s_size l))
  else Ret (m, l).

(** The scan [while(p)] with an exit on a hit; the result is the node
    found and the one before it. *)
Fixpoint scan (fuel : nat) (m : smem) (stop : loc -> V -> bool) (p prev : ptr)
    : comp (ptr * ptr) :=
  match fuel with
  | O => Err OutOfFuel
  | S fuel =>
      match p with
      | None => Ret (None, prev)
      | Some l =>
          let* nd := sload m p in
          if stop l (s_data nd) then Ret (p, prev)
          else scan fuel m stop (s_next nd) p
      end
  end.

Definition hit_key (f : V -> K -> bool) (key : K) : loc -> V -> bool := fun _ v => f v key.
Definition hit_node (node : ptr) : loc -> V -> bool := fun l _ => bool_decide (Some l = node).

Definition _find_by_key (fuel : nat) (m : smem) (l : single_list) (key : K) : comp ptr :=
  match key_hit_test l with
  | Some f =>
      let* (p, _) := scan fuel m (hit_key f key) (s_head l) (s_head l) in
      Ret p
  | None => Ret None
  end.

Definition _first_of (l : single_list) : ptr := s_head l.
Definition _last_of (l : single_list) : ptr := s_tail l.
Definition _length_of (l : single_list) : Z := s_size l.

Definition _node_at (m : smem) (l : single_list) (pos : Z) : comp ptr :=
  if pos <? s_size l then
    let* (p, _) := walk (Z.to_nat pos) m (s_head l) (s_head l) in
    Ret p
  else Ret None.

(** The three-way unlinking of [p], reached from [prev], that the take and
    remove functions share. *)
Definition unlink (m : smem) (l : single_list) (p prev : ptr) : comp (smem * single_list) :=
  if decide (p = s_head l) then
    let* nd := sload m p in
    let h := s_next nd in
    Ret (m, mk l h (match h with None => None | Some _ => s_tail l end) (s_size l))
  else if decide (p = s_tail l) then
    let* m := sset_next m prev None in
    Ret (m, mk l (s_head l) prev (s_size l))
  else
    let* nd := sload m p in
    let* m := sset_next m prev (s_next nd) in
    Ret (m, l).

Definition _take_at (m : smem) (l : single_list) (pos : Z) : comp (smem * single_list * ptr) :=
  if pos <? s_size l then
    let* (p, prev) := walk (Z.to_nat pos) m (s_head l) (s_head l) in
    let* (m, l) := unlink m l p prev in
    let l := mk l (s_head l) (s_tail l) (to_int (s_size l - 1)) in
    let* m := sset_next m p None in
    Ret (m, l, p)
  else Ret (m, l, None).

Definition _take_by_key (fuel : nat) (m : smem) (l : single_list) (key : K)
    : comp (smem * single_list * ptr) :=
  match key_hit_test l with
  | Some f =>
      let* (p, prev) := scan fuel m (hit_key f key) (s_head l) (s_head l) in
      match p with
      | Some _ =>
          let* (m, l) := unlink m l p prev in
          let l := mk l (s_head l) (s_tail l) (to_int (s_size l - 1)) in
          let* m := sset_next m p None in
          Ret (m, l, p)
      | None => Ret (m, l, None)
      end
  | None => Ret (m, l, None)
  end.

(** The tail shared by the three remove functions. *)
Definition unlink_release (m : smem) (l : single_list) (p prev : ptr) : comp (smem * single_list) :=
  let* (m, l) := unlink m l p prev in
  let* m := release m p in
  Ret (m, mk l (s_head l) (s_tail l) (to_int (s_size l - 1))).

Definition _remove_node (fuel : nat) (m : smem) (l : single_list) (node : ptr)
    : comp (smem * single_list) :=
  let* (p, prev) := scan fuel m (hit_node node) (s_head l) (s_head l) in
  match p with
  | Some _ => unlink_release m l p prev
  | None => Ret (m, l)
  end.

Definition _remove_at (m : smem) (l : single_list) (pos : Z) : comp (smem * single_list) :=
  if pos <? s_size l then
    let* (p, prev) := walk (Z.to_nat pos) m (s_head l) (s_head l) in
    unlink_release m l p prev
  else Ret (m, l).

Definition _remove_by_key (fuel : nat) (m : smem) (l : single_list) (key : K)
    : comp (smem * single_list) :=
  match key_hit_test l with
  | Some f =>
      let* (p, prev) := scan fuel m (hit_key f key) (s_head l) (s_head l) in
      match p with
      | Some _ => unlink_release m l p prev
      | None => Ret (m, l)
      end
  | None => Ret (m, l)
  end.

Fixpoint clear_loop (fuel : nat) (m : smem) (p : ptr) : comp smem :=
  match fuel with
  | O => Err OutOfFuel
  | S fuel =>
      match p with
      | None => Ret m
      | Some _ =>
          let* nd := sload m p in
          let* m := release m p in
          clear_loop fuel m (s_next nd)
      end
  end.

Definition _clear_list (fuel : nat) (m : smem) (l : single_list) : comp (smem * single_list) :=
  let* m := clear_loop fuel m (s_head l) in
  Ret (m, mk l None None 0).

(** ** Representation *)

Fixpoint slinked (cs : gmap loc slist_node) (xs : list (loc * V)) (q : ptr) : Prop :=
  match xs with
  | [] => True
  | (n, v) :: xs =>
      cs !! n = Some {| s_next := first_or xs q; s_data := v |} /\ slinked cs xs q
  end.

Record slist (m : smem) (l : single_list) (xs : list (loc * V)) : Prop := {
  sl_linked : slinked (cells m) xs None;
  sl_nodup : NoDup xs.*1;
  sl_head : s_head l = first_or xs None;
  sl_tail : s_tail l = last_or None xs;
  sl_size : s_size l = Z.of_nat (length xs)
}.
End slist.

Arguments slist_node : clear implicits.
Arguments smem : clear implicits.
Arguments single_list : clear implicits.

Section slist_facts.
Context {V K : Type}.
Implicit Types (m : smem V) (xs ys : list (loc * V)) (n : loc) (v : V).
Implicit Types (cs : gmap loc (slist_node V)).

Lemma sload_Some m n nd : cells m !! n = Some nd -> sload m (Some n) = Ret nd.
Proof. simpl. by intros ->. Qed.

Lemma sset_next_Some m n nd q :
  cells m !! n = Some nd ->
  sset_next m (Some n) q =
    Ret {| cells := <[n := {| s_next := q; s_data := s_data nd |}]> (cells m); released := released m |}.
Proof. simpl. by intros ->. Qed.

Lemma release_Some m n nd :
  cells m !! n = Some nd ->
  release m (Some n) = Ret {| cells := delete n (cells m); released := released m ++ [s_data nd] |}.
Proof. simpl. by intros ->. Qed.

Lemma slinked_app cs xs ys q :
  slinked cs (xs ++ ys) q <-> slinked cs xs (first_or ys q) /\ slinked cs ys q.
Proof.
  induction xs as [|[n v] xs IH]; simpl; [naive_solver|].
  rewrite IH, first_or_app. naive_solver.
Qed.

Lemma slinked_insert_ne cs n nd xs q :
  n ∉ xs.*1 -> slinked cs xs q -> slinked (<[n := nd]> cs) xs q.
Proof.
  induction xs as [|[n' v] xs IH]; simpl; [done|].
  intros Hn [H1 H2]. apply not_elem_of_cons in Hn as [Hne Hn].
  split; [by rewrite lookup_insert_ne|auto].
Qed.

Lemma slinked_delete_ne cs n xs q :
  n ∉ xs.*1 -> slinked cs xs q -> slinked (delete n cs) xs q.
Proof.
  induction xs as [|[n' v] xs IH]; simpl; [done|].
  intros Hn [H1 H2]. apply not_elem_of_cons in Hn as [Hne Hn].
  split; [by rewrite lookup_delete_ne|auto].
Qed.

Lemma slinked_lookup cs xs n v ys q :
  slinked cs (xs ++ (n, v) :: ys) q -> cs !! n = Some {| s_next := first_or ys q; s_data := v |}.
Proof. rewrite slinked_app. simpl. by intros (_ & ? & _). Qed.

Lemma slinked_redirect cs xs n v q q' :
  NoDup (xs ++ [(n, v)]).*1 -> slinked cs (xs ++ [(n, v)]) q ->
  slinked (<[n := {| s_next := q'; s_data := v |}]> cs) (xs ++ [(n, v)]) q'.
Proof.
  rewrite fmap_app. intros (_ & Hd & _)%NoDup_app [H1 H2]%slinked_app.
  apply slinked_app. simpl. rewrite lookup_insert_eq. split; [|done].
  apply slinked_insert_ne; [|done]. intros Hin. eapply Hd; [done|]. simpl. set_solver.
Qed.

Lemma nodup_split xs n v ys :
  NoDup (xs ++ (n, v) :: ys).*1 ->
  NoDup (xs ++ ys).*1 /\ n ∉ xs.*1 /\ n ∉ ys.*1 /\ (forall x, x ∈ xs.*1 -> x ∉ ys.*1).
Proof.
  rewrite !fmap_app. intros (? & Hdis & [? ?]%NoDup_cons)%NoDup_app.
  assert (forall x, x ∈ xs.*1 -> x ∉ ys.*1) as Hd.
  { intros x Hx Hy. eapply Hdis; [done|]. by apply elem_of_cons; right. }
  split_and!; [|intros Hin; eapply Hdis; set_solver|done|done].
  apply NoDup_app. done.
Qed.

(** The counted and the conditional walk over the nodes. *)
Lemma walk_ok m l1 xs prev0 :
  slinked (cells m) (l1 ++ xs) None ->
  walk (length l1) m (first_or (l1 ++ xs) None) prev0 = Ret (first_or xs None, last_or prev0 l1).
Proof.
  revert prev0. induction l1 as [|[n v] l1 IH]; intros prev0 Hk; [done|].
  destruct Hk as [Hn Hk]. cbn [length walk app first_or]. rewrite (sload_Some _ _ _ Hn).
  cbn [mbind comp_bind s_next]. by rewrite IH.
Qed.

Lemma scan_ok fuel m stop xs prev0 :
  slinked (cells m) xs None -> (length xs < fuel)%nat ->
  scan fuel m stop (first_or xs None) prev0 =
    Ret (match split_first (fun x => stop x.1 x.2) xs with
         | Some (l1, x, _) => (Some x.1, last_or prev0 l1)
         | None => (None, last_or prev0 xs)
         end).
Proof.
  revert xs prev0. induction fuel as [|fuel IH]; intros xs prev0 Hk Hf; [lia|].
  destruct xs as [|[n v] xs]; [done|]. destruct Hk as [Hn Hk]. simpl in Hf.
  cbn [scan first_or]. rewrite (sload_Some _ _ _ Hn). cbn [mbind comp_bind s_data s_next split_first fst snd].
  destruct (stop n v); [done|]. rewrite IH by (done || lia).
  by destruct (split_first _ xs) as [[[l1 [n' v']] l2]|].
Qed.

Lemma sl_head_eq m (l : single_list V K) xs n v ys :
  slist m l (xs ++ (n, v) :: ys) -> Some n = s_head l <-> xs = [].
Proof.
  intros [_ Hnd Hh _ _]. rewrite Hh, first_or_app. destruct xs as [|[n' v'] xs]; [done|]. simpl.
  split; [|done]. intros [= ->]. cbn in Hnd. apply NoDup_cons in Hnd as [Hn _].
  rewrite fmap_app in Hn. set_solver.
Qed.

Lemma sl_tail_eq m (l : single_list V K) xs n v ys :
  slist m l (xs ++ (n, v) :: ys) -> Some n = s_tail l <-> ys = [].
Proof.
  intros [_ Hnd _ Ht _]. rewrite Ht, last_or_app. destruct ys as [|[n' v'] ys _] using rev_ind; [done|].
  cbn [last_or]. rewrite last_or_app. simpl. split; [|by destruct ys].
  intros [= ->]. apply nodup_split in Hnd as (_ & _ & Hn & _). rewrite fmap_app in Hn. set_solver.
Qed.

(** Unlinking [n] leaves the rest linked and the node itself readable. *)
Lemma unlink_ok m (l : single_list V K) l1 n v l2 prev0 :
  slist m l (l1 ++ (n, v) :: l2) ->
  exists m' l', unlink m l (Some n) (last_or prev0 l1) = Ret (m', l')
    /\ slinked (cells m') (l1 ++ l2) None
    /\ s_head l' = first_or (l1 ++ l2) None /\ s_tail l' = last_or None (l1 ++ l2)
    /\ s_size l' = s_size l /\ key_hit_test l' = key_hit_test l
    /\ cells m' !! n = Some {| s_next := first_or l2 None; s_data := v |}
    /\ released m' = released m.
Proof.
  intros Hl. pose proof (sl_head_eq _ _ _ _ _ _ Hl) as Hph. pose proof (sl_tail_eq _ _ _ _ _ _ Hl) as Hpt.
  destruct Hl as [Hk Hnd Hh Ht Hs]. pose proof (slinked_lookup _ _ _ _ _ _ Hk) as Hn.
  unfold unlink. destruct l1 as [|[t w] l1 _] using rev_ind.
  - rewrite decide_True by (by apply Hph). rewrite (sload_Some _ _ _ Hn). cbn [mbind comp_bind s_next].
    eexists _, _. split; [done|]. destruct Hk as [_ Hk]. simpl. split_and!; try done.
    rewrite Ht. destruct l2 as [|[n' v'] l2]; [done|]. done.
  - rewrite decide_False by (intros E%Hph; by destruct l1).
    apply nodup_split in Hnd as (Hnd & Hn1 & Hn2 & Hd).
    apply slinked_app in Hk as [Hk1 [_ Hk2]]. cbn [first_or] in Hk1.
    pose proof (slinked_lookup _ _ _ _ _ _ Hk1) as Htl. cbn [first_or] in Htl.
    assert (n <> t) as Hnt by (rewrite fmap_app in Hn1; set_solver).
    assert (t ∉ l2.*1) as Ht2 by (apply Hd; rewrite fmap_app; set_solver).
    rewrite last_or_app. cbn [last_or].
    assert (slinked (<[t := {| s_next := first_or l2 None; s_data := w |}]> (cells m))
                        ((l1 ++ [(t, w)]) ++ l2) None) as Hk'.
    { apply slinked_app. split; [|by apply slinked_insert_ne].
      eapply slinked_redirect; [|done]. rewrite fmap_app in Hnd. by apply NoDup_app in Hnd as [? _]. }
    destruct l2 as [|[n' v'] l2].
    + rewrite decide_True by (by apply Hpt). rewrite (sset_next_Some _ _ _ _ Htl). cbn [mbind comp_bind].
      eexists _, _. split; [done|]. split_and!;
        first [ exact Hk' | by cbn; rewrite lookup_insert_ne
              | by cbn; rewrite Hh, !first_or_app; destruct l1 as [|[??]?]
              | by cbn; rewrite ?app_nil_r, ?Ht, !last_or_app | done ].
    + rewrite decide_False by (by intros E%Hpt). rewrite (sload_Some _ _ _ Hn). cbn [mbind comp_bind s_next].
      rewrite (sset_next_Some _ _ _ _ Htl). cbn [mbind comp_bind s_data].
      eexists _, _. split; [done|]. split_and!;
        first [ exact Hk' | by cbn; rewrite lookup_insert_ne
              | by cbn; rewrite Hh, !first_or_app; destruct l1 as [|[??]?]
              | by cbn; rewrite ?app_nil_r, ?Ht, !last_or_app | done ].
Qed.

Lemma unlink_release_ok m (l : single_list V K) l1 n v l2 prev0 :
  slist m l (l1 ++ (n, v) :: l2) -> s_size l <= INT_MAX ->
  exists m' l', unlink_release m l (Some n) (last_or prev0 l1) = Ret (m', l')
    /\ slist m' l' (l1 ++ l2) /\ cells m' !! n = None /\ released m' = released m ++ [v]
    /\ key_hit_test l' = key_hit_test l.
Proof.
  intros Hl Hs. unfold unlink_release.
  destruct (unlink_ok m l l1 n v l2 prev0 Hl) as (m' & l' & -> & Hk & Hh & Ht & Hz & Hf & Hn & Hr).
  destruct Hl as [_ Hnd _ _ Hs']. apply nodup_split in Hnd as (Hnd & Hn1 & Hn2 & _).
  cbn [mbind comp_bind]. rewrite (release_Some _ _ _ Hn). cbn [mbind comp_bind s_data].
  eexists _, _. split; [done|]. split_and!; [|apply lookup_delete_eq|by simpl; rewrite Hr|done].
  constructor; simpl; [|done..|].
  - apply slinked_delete_ne; [rewrite fmap_app; set_solver|done].
  - rewrite Hz, Hs', !length_app in *. simpl in *. rewrite to_int_id; [lia|].
    unfold is_int, INT_MIN, INT_MAX in *. lia.
Qed.

(** Taking a node out keeps it allocated, with its link cleared. *)
Lemma unlink_take_ok m (l : single_list V K) l1 n v l2 prev0 :
  slist m l (l1 ++ (n, v) :: l2) -> s_size l <= INT_MAX ->
  exists m' l', (let* (m, l) := unlink m l (Some n) (last_or prev0 l1) in
                 let l := mk l (s_head l) (s_tail l) (to_int (s_size l - 1)) in
                 let* m := sset_next m (Some n) None in
                 Ret (m, l, Some n)) = Ret (m', l', Some n)
    /\ slist m' l' (l1 ++ l2) /\ cells m' !! n = Some {| s_next := None; s_data := v |}
    /\ released m' = released m.
Proof.
  intros Hl Hs.
  destruct (unlink_ok m l l1 n v l2 prev0 Hl) as (m' & l' & -> & Hk & Hh & Ht & Hz & Hf & Hn & Hr).
  destruct Hl as [_ Hnd _ _ Hs']. apply nodup_split in Hnd as (Hnd & Hn1 & Hn2 & _).
  cbn [mbind comp_bind]. rewrite (sset_next_Some _ _ _ _ Hn). cbn [mbind comp_bind s_data].
  eexists _, _. split; [done|]. split_and!; [|apply lookup_insert_eq|done].
  constructor; simpl; [|done..|].
  - apply slinked_insert_ne; [rewrite fmap_app; set_solver|done].
  - rewrite Hz, Hs', !length_app in *. simpl in *. rewrite to_int_id; [lia|].
    unfold is_int, INT_MIN, INT_MAX in *. lia.
Qed.
End slist_facts.

Section slist_ops.
Context {V K : Type}.
Implicit Types (m : smem V) (xs ys : list (loc * V)) (n : loc) (v : V).

Lemma to_int_small z : 0 <= z <= INT_MAX -> to_int z = z.
Proof. intros ?. apply to_int_id. unfold is_int, INT_MIN. lia. Qed.

Lemma s_nodup_snoc xs ys n v : NoDup (xs ++ ys).*1 -> n ∉ (xs ++ ys).*1 -> NoDup (xs ++ (n, v) :: ys).*1.
Proof.
  rewrite !fmap_app. intros (? & Hd & ?)%NoDup_app Hn. apply NoDup_app.
  split_and!; [done| |apply NoDup_cons; set_solver].
  intros x Hx [->|Hx']%elem_of_cons; [set_solver|]. by eapply Hd.
Qed.

Lemma add_ok m (l : single_list V K) xs n nd :
  slist m l xs -> cells m !! n = Some nd -> n ∉ xs.*1 -> Z.of_nat (length xs) < INT_MAX ->
  exists m' l', _add_node m l (Some n) = Ret (m', l')
    /\ slist m' l' (xs ++ [(n, s_data nd)]) /\ released m' = released m
    /\ key_hit_test l' = key_hit_test l.
Proof.
  intros [Hk Hnd Hh Ht Hs] Hn Hni Hlen. unfold _add_node.
  destruct xs as [|[t w] xs _] using rev_ind.
  - rewrite Ht. cbn [last_or]. rewrite (sset_next_Some _ _ _ _ Hn). cbn [mbind comp_bind].
    eexists _, _. split; [done|]. split_and!; [|done..].
    constructor; simpl; [by rewrite lookup_insert_eq|apply NoDup_singleton|done..].
  - rewrite Ht, last_or_app. cbn [last_or]. pose proof (slinked_lookup _ _ _ _ _ _ Hk) as Htl.
    assert (n <> t) as Hnt by (rewrite fmap_app in Hni; set_solver).
    rewrite (sset_next_Some _ _ _ _ Htl). cbn [mbind comp_bind].
    rewrite (sset_next_Some _ n nd) by (cbn; by rewrite lookup_insert_ne). cbn [mbind comp_bind].
    eexists _, _. split; [done|]. split_and!; [|done..]. constructor; cbn.
    + apply slinked_app. split; [|cbn; by rewrite lookup_insert_eq].
      apply slinked_insert_ne; [done|]. by eapply slinked_redirect.
    + apply s_nodup_snoc; by rewrite app_nil_r.
    + rewrite Hh, !first_or_app. by destruct xs as [|[??]?].
    + by rewrite last_or_app.
    + rewrite Hs, !length_app in *. cbn [length] in *. rewrite to_int_small; lia.
Qed.

(** A node put between [l1] and a non-empty [l2]. *)
Lemma insert_ok m (l : single_list V K) l1 l2 n nd :
  slist m l (l1 ++ l2) -> l2 <> [] -> cells m !! n = Some nd -> n ∉ (l1 ++ l2).*1 ->
  Z.of_nat (length (l1 ++ l2)) < INT_MAX ->
  exists m' l', _insert_node m l (Z.of_nat (length l1)) (Some n) = Ret (m', l')
    /\ slist m' l' (l1 ++ (n, s_data nd) :: l2) /\ released m' = released m.
Proof.
  intros Hl Hl2 Hn Hni Hlen. destruct l2 as [|[p w] l2]; [done|]. clear Hl2.
  pose proof (sl_head_eq _ _ _ _ _ _ Hl) as Hph.
  destruct Hl as [Hk Hnd Hh Ht Hs]. unfold _insert_node.
  rewrite Hs. rewrite length_app in Hlen |- *. cbn [length] in *.
  rewrite (proj2 (Z.ltb_lt _ _)) by lia. rewrite Nat2Z.id, Hh, (walk_ok m l1) by done.
  cbn [mbind comp_bind first_or]. rewrite <- Hh.
  pose proof (s_nodup_snoc _ _ _ (s_data nd) Hnd Hni) as Hnd'.
  assert (Z.of_nat (length l1 + S (length l2)) + 1 =
          Z.of_nat (length (l1 ++ (n, s_data nd) :: (p, w) :: l2))) as Hlen'
    by (rewrite length_app; cbn [length]; lia).
  destruct l1 as [|[t u] l1 _] using rev_ind.
  - rewrite decide_True by (by apply Hph). cbn [app] in *. cbn [first_or] in Hh.
    rewrite (sset_next_Some _ _ _ _ Hn). cbn [mbind comp_bind].
    erewrite sload_Some by (cbn; apply lookup_insert_eq). cbn [mbind comp_bind s_next].
    rewrite Hh. eexists _, _. split; [done|]. split; [|done].
    constructor; cbn [mk s_head s_tail s_size cells]; [|done|done|done|cbn; rewrite to_int_small; lia].
    split; [by rewrite lookup_insert_eq|by apply slinked_insert_ne].
  - rewrite decide_False by (intros E%Hph; by destruct l1).
    rewrite last_or_app. cbn [last_or].
    assert (n <> t) as Hnt by (rewrite !fmap_app in Hni; set_solver).
    apply slinked_app in Hk as [Hk1 Hk2]. cbn [first_or] in Hk1.
    pose proof (slinked_lookup _ _ _ _ _ _ Hk1) as Htl.
    rewrite (sset_next_Some _ _ _ _ Htl). cbn [mbind comp_bind].
    rewrite (sset_next_Some _ n nd) by (cbn; by rewrite lookup_insert_ne). cbn [mbind comp_bind].
    erewrite sload_Some by (cbn; apply lookup_insert_eq). cbn [mbind comp_bind s_next].
    eexists _, _. split; [done|]. split; [|done].
    rewrite fmap_app in Hnd, Hni. apply not_elem_of_app in Hni as [Hni1 Hni2].
    apply NoDup_app in Hnd as (Hnd1 & Hd & Hnd2).
    constructor; cbn [mk s_head s_tail s_size cells]; [|done|..|rewrite length_app in Hs; cbn [length] in Hs; rewrite <- Hlen', Hs; apply to_int_small; lia].
    + apply slinked_app. cbn [first_or slinked]. rewrite lookup_insert_eq. split; [|split; [done|]].
      * apply slinked_insert_ne; [done|]. by eapply slinked_redirect.
      * change (slinked (<[n := {| s_next := Some p; s_data := s_data nd |}]>
            (<[t := {| s_next := Some n; s_data := u |}]> (cells m))) ((p, w) :: l2) None).
        apply slinked_insert_ne; [done|]. apply slinked_insert_ne; [|done].
        apply Hd. rewrite fmap_app. set_solver.
    + rewrite Hh, !first_or_app. by destruct l1 as [|[??]?].
    + by rewrite Ht, !last_or_app.
Qed.

Lemma find_by_key_ok fuel m (l : single_list V K) xs key f :
  slist m l xs -> key_hit_test l = Some f -> (length xs < fuel)%nat ->
  _find_by_key fuel m l key = Ret (fst <$> List.find (fun x => f x.2 key) xs).
Proof.
  intros [Hk _ Hh _ _] Hf Hfu. unfold _find_by_key. rewrite Hf, Hh, scan_ok by done.
  cbn [mbind comp_bind]. unfold hit_key. clear.
  induction xs as [|[n v] xs IH]; [done|]. cbn [split_first List.find fst snd].
  destruct (f v key); [done|]. destruct (split_first _ xs) as [[[l1 x] l2]|]; done.
Qed.

Lemma node_at_ok m (l : single_list V K) xs pos :
  slist m l xs -> 0 <= pos -> _node_at m l pos = Ret (fst <$> xs !! Z.to_nat pos).
Proof.
  intros [Hk _ Hh _ Hs] Hp. unfold _node_at. rewrite Hs.
  destruct (Z.ltb_spec pos (Z.of_nat (length xs))) as [Hlt|Hge].
  - destruct (lookup_lt_is_Some_2 xs (Z.to_nat pos)) as [[n v] Hx]; [lia|].
    rewrite Hx. rewrite <- (take_drop_middle _ _ _ Hx) in Hk, Hh.
    rewrite Hh. replace (Z.to_nat pos) with (length (take (Z.to_nat pos) xs)) at 1
      by (rewrite length_take; lia).
    by rewrite walk_ok.
  - by rewrite lookup_ge_None_2 by lia.
Qed.

Lemma clear_loop_ok fuel m xs :
  slinked (cells m) xs None -> NoDup xs.*1 -> (length xs < fuel)%nat ->
  exists m', clear_loop fuel m (first_or xs None) = Ret m' /\ released m' = released m ++ xs.*2
    /\ (forall n, n ∈ xs.*1 -> cells m' !! n = None)
    /\ (forall n, n ∉ xs.*1 -> cells m' !! n = cells m !! n).
Proof.
  revert m xs. induction fuel as [|fuel IH]; intros m xs Hk Hnd Hf; [lia|].
  destruct xs as [|[n v] xs].
  - exists m. split_and!; [done|by rewrite app_nil_r|set_solver|done].
  - destruct Hk as [Hn Hk]. cbn in Hnd. apply NoDup_cons in Hnd as [Hni Hnd]. cbn [length] in Hf.
    cbn [clear_loop first_or]. rewrite (sload_Some _ _ _ Hn), (release_Some _ _ _ Hn).
    cbn [mbind comp_bind s_next s_data].
    destruct (IH {| cells := delete n (cells m); released := released m ++ [v] |} xs)
      as (m' & E & Hr & Hc1 & Hc2); [by apply slinked_delete_ne|done|lia|].
    exists m'. split_and!; [exact E|rewrite Hr; cbn; by rewrite <- app_assoc|..];
      intros n' Hin; cbn in Hin.
    + apply elem_of_cons in Hin as [->|Hin]; [|auto]. rewrite Hc2 by done. apply lookup_delete_eq.
    + apply not_elem_of_cons in Hin as [? ?]. rewrite Hc2 by done. by apply lookup_delete_ne.
Qed.
End slist_ops.

(** ** What slist.c promises *)
Section slist_contract.
Context {V K : Type}.
Implicit Types (m : smem V) (xs : list (loc * V)) (n : loc) (v : V).

(** Removing or taking the first element that passes a test, on sequences. *)
Definition drop_first (p : loc * V -> bool) (xs : list (loc * V)) : list (loc * V) :=
  match split_first p xs with
  | Some (l1, _, l2) => l1 ++ l2
  | None => xs
  end.

Lemma scan_unlink_release fuel m (l : single_list V K) stop xs :
  slist m l xs -> Z.of_nat (length xs) <= INT_MAX -> (length xs < fuel)%nat ->
  exists m' l',
    (let* (p, prev) := scan fuel m stop (s_head l) (s_head l) in
     match p with
     | Some _ => unlink_release m l p prev
     | None => Ret (m, l)
     end) = Ret (m', l')
    /\ slist m' l' (drop_first (fun x => stop x.1 x.2) xs)
    /\ released m' = released m ++
         match split_first (fun x => stop x.1 x.2) xs with Some (_, x, _) => [x.2] | None => [] end.
Proof.
  intros Hl Hlen Hf. pose proof (scan_ok fuel m stop xs (s_head l) (sl_linked _ _ _ Hl) Hf) as Es.
  rewrite <- (sl_head _ _ _ Hl) in Es. rewrite Es. clear Es. cbn [mbind comp_bind]. unfold drop_first.
  destruct (split_first _ xs) as [[[l1 [n v]] l2]|] eqn:E; cbn [fst snd].
  - apply split_first_Some in E as (-> & _).
    destruct (unlink_release_ok m l l1 n v l2 (s_head l) Hl) as (m' & l' & E & ? & _ & ? & _);
      [rewrite (sl_size _ _ _ Hl); lia|]. by exists m', l'.
  - exists m, l. by rewrite app_nil_r.
Qed.

(** [_insert_node] at any position puts the node at that position of
    the sequence (at the end when the position is the length), keeps every
    other element in order and releases nothing; [_add_node] appends. *)
Theorem slist_insert_refines m (l : single_list V K) (l1 l2 : list (loc * V)) n nd :
  slist m l (l1 ++ l2) -> cells m !! n = Some nd -> n ∉ (l1 ++ l2).*1 ->
  Z.of_nat (length (l1 ++ l2)) < INT_MAX ->
  (exists m' l', _insert_node m l (Z.of_nat (length l1)) (Some n) = Ret (m', l')
     /\ slist m' l' (l1 ++ (n, s_data nd) :: l2) /\ released m' = released m)
  /\ (exists m' l', _add_node m l (Some n) = Ret (m', l')
     /\ slist m' l' ((l1 ++ l2) ++ [(n, s_data nd)]) /\ released m' = released m).
Proof.
  intros Hl Hn Hni Hlen.
  destruct (add_ok m l (l1 ++ l2) n nd Hl Hn Hni Hlen) as (m1 & l1' & E1 & H1 & R1 & _).
  split; [|by exists m1, l1'].
  destruct l2 as [|x l2]; [|by apply insert_ok].
  rewrite app_nil_r in *. unfold _insert_node. rewrite (sl_size _ _ _ Hl), Z.ltb_irrefl.
  by exists m1, l1'.
Qed.

(** The three remove functions take exactly the designated element
    (the one at a position, the first one whose key hits, the given node)
    out of the sequence and release its payload once; when no element is
    designated the list is left as it is.  The scans end within one step per
    element. *)
Theorem slist_remove_refines fuel m (l : single_list V K) xs key f :
  slist m l xs -> key_hit_test l = Some f -> Z.of_nat (length xs) <= INT_MAX ->
  (length xs < fuel)%nat ->
  (forall pos, 0 <= pos ->
     exists m' l', _remove_at m l pos = Ret (m', l')
       /\ slist m' l' (take (Z.to_nat pos) xs ++ drop (S (Z.to_nat pos)) xs)
       /\ released m' = released m ++ option_list (snd <$> xs !! Z.to_nat pos))
  /\ (exists m' l', _remove_by_key fuel m l key = Ret (m', l')
       /\ slist m' l' (drop_first (fun x => f x.2 key) xs)
       /\ released m' = released m ++ option_list (snd <$> List.find (fun x => f x.2 key) xs))
  /\ (forall n, exists m' l', _remove_node fuel m l (Some n) = Ret (m', l')
       /\ slist m' l' (drop_first (fun x => bool_decide (Some x.1 = Some n)) xs)).
Proof.
  intros Hl Hk Hlen Hf. split_and!.
  - intros pos Hp. unfold _remove_at. rewrite (sl_size _ _ _ Hl).
    destruct (Z.ltb_spec pos (Z.of_nat (length xs))) as [Hlt|Hge].
    + destruct (lookup_lt_is_Some_2 xs (Z.to_nat pos)) as [[n v] Hx]; [lia|]. rewrite Hx.
      pose proof (take_drop_middle _ _ _ Hx) as Hxs.
      rewrite <- Hxs in Hl. pose proof (sl_linked _ _ _ Hl) as Hlk.
      pose proof (walk_ok m _ _ (s_head l) Hlk) as Ew.
      rewrite <- (sl_head _ _ _ Hl), length_take, Nat.min_l in Ew by lia.
      rewrite Ew. cbn [mbind comp_bind first_or].
      destruct (unlink_release_ok _ _ _ _ _ _ (s_head l) Hl) as (m' & l' & E & ? & _ & ? & _);
        [rewrite (sl_size _ _ _ Hl), Hxs; lia|]. by exists m', l'.
    + rewrite lookup_ge_None_2, take_ge, drop_ge, app_nil_r by lia.
      exists m, l. by rewrite app_nil_r.
  - unfold _remove_by_key. rewrite Hk.
    destruct (scan_unlink_release fuel m l (hit_key f key) xs Hl Hlen Hf) as (m' & l' & E & Hs & Hr).
    exists m', l'. split; [exact E|]. split; [exact Hs|]. rewrite Hr. f_equal. clear.
    induction xs as [|[n v] xs IH]; [done|]. cbn. unfold hit_key in *. destruct (f v key); [done|].
    rewrite <- IH. by destruct (split_first _ xs) as [[[? ?] ?]|].
  - intros n. destruct (scan_unlink_release fuel m l (hit_node (Some n)) xs Hl Hlen Hf)
      as (m' & l' & E & Hs & _). by exists m', l'.
Qed.

(** Lookups agree with the sequence, and [_clear_list] frees every node
    and releases every payload exactly once, in order, leaving an empty
    list. *)
Theorem slist_lookup_refines fuel m (l : single_list V K) xs f :
  slist m l xs -> key_hit_test l = Some f -> (length xs < fuel)%nat ->
  (forall key, _find_by_key fuel m l key = Ret (fst <$> List.find (fun x => f x.2 key) xs))
  /\ (forall pos, 0 <= pos -> _node_at m l pos = Ret (fst <$> xs !! Z.to_nat pos))
  /\ _length_of l = Z.of_nat (length xs)
  /\ (exists m' l', _clear_list fuel m l = Ret (m', l') /\ slist m' l' []
       /\ released m' = released m ++ xs.*2
       /\ (forall n, n ∈ xs.*1 -> cells m' !! n = None)
       /\ (forall n, n ∉ xs.*1 -> cells m' !! n = cells m !! n)).
Proof.
  intros Hl Hk Hf. split_and!; [intros; by apply find_by_key_ok|intros; by apply node_at_ok|apply Hl|].
  destruct (clear_loop_ok fuel m xs) as (m' & E & Hr & H1 & H2); [apply Hl..|done|].
  unfold _clear_list. rewrite (sl_head _ _ _ Hl), E. cbn [mbind comp_bind].
  eexists _, _. split; [done|]. split_and!; [|done..]. constructor; try done. apply NoDup_nil_2.
Qed.
End slist_contract.

(** A two-element list keyed by its payload. *)
Definition demo_smem : smem Z :=
  {| cells := <[2%positive := {| s_next := None; s_data := 20 |}]>
              (<[1%positive := {| s_next := Some 2%positive; s_data := 10 |}]>
              (<[3%positive := {| s_next := None; s_data := 30 |}]> ∅));
     released := [] |}.
Definition demo_slist : single_list Z Z :=
  {| s_head := Some 1%positive; s_tail := Some 2%positive; s_size := 2; key_hit_test := Some Z.eqb |}.

Lemma demo_slist_ok : slist demo_smem demo_slist demo_seq.
Proof. constructor; [by vm_compute| |done..]. apply (bool_decide_unpack _). by vm_compute. Qed.

Lemma slist_insert_refines_witness :
  exists m' l', _insert_node demo_smem demo_slist 1 (Some 3%positive) = Ret (m', l')
    /\ slist m' l' [(1%positive, 10); (3%positive, 30); (2%positive, 20)] /\ released m' = [].
Proof.
  refine (proj1 (slist_insert_refines demo_smem demo_slist [(1%positive, 10)] [(2%positive, 20)] 3%positive
            {| s_next := None; s_data := 30 |} demo_slist_ok _ _ _)); [done| |by vm_compute].
  apply (bool_decide_unpack _). by vm_compute.
Defined.

Lemma slist_remove_refines_witness :
  exists m' l', _remove_by_key 3 demo_smem demo_slist 20 = Ret (m', l')
    /\ slist m' l' [(1%positive, 10)] /\ released m' = [20].
Proof.
  exact (proj1 (proj2 (slist_remove_refines 3 demo_smem demo_slist demo_seq 20 Z.eqb demo_slist_ok
    eq_refl ltac:(by vm_compute) ltac:(simpl; lia)))).
Defined.

Lemma slist_lookup_refines_witness :
  _find_by_key 3 demo_smem demo_slist 20 = Ret (Some 2%positive)
  /\ _node_at demo_smem demo_slist 0 = Ret (Some 1%positive).
Proof.
  destruct (slist_lookup_refines 3 demo_smem demo_slist demo_seq Z.eqb demo_slist_ok eq_refl
    ltac:(simpl; lia)) as (H1 & H2 & _). split; [exact (H1 20)|]. apply (H2 0). lia.
Defined.
