(* ===== verification/Base64.v ===== *)
(** * Base64 (sharelibs/utils/source/base64.c)

    Both loops are translated with their indices: [out] is the caller's
    buffer, every read and write is checked against the extent of the array.
    Bytes are integers; a [char] is its signed value. *)

From Stdlib Require Import Ascii.
From S2P Require Import Prelude CString.

Local Open Scope Z_scope.

Module Base64.

Definition BASE64_OK : Z := 0.
Definition BASE64_INVALID : Z := 1.

Definition base64en : list Z :=
  char_val <$> String.list_ascii_of_string
    "ABCDEFGHIJKLMNOPQRSTUVWXYZabcdefghijklmnopqrstuvwxyz0123456789+/".

Definition BASE64_PAD : Z := 61.
Definition BASE64DE_FIRST : Z := 43.
Definition BASE64DE_LAST : Z := 122.

Definition base64de : list Z :=
  [62; -1; -1; -1; 63; 52; 53; 54;
   55; 56; 57; 58; 59; 60; 61; -1;
   -1; -1; -1; -1; -1; -1; 0; 1;
   2; 3; 4; 5; 6; 7; 8; 9;
   10; 11; 12; 13; 14; 15; 16; 17;
   18; 19; 20; 21; 22; 23; 24; 25;
   -1; -1; -1; -1; -1; -1; 26; 27;
   28; 29; 30; 31; 32; 33; 34; 35;
   36; 37; 38; 39; 40; 41; 42; 43;
   44; 45; 46; 47; 48; 49; 50; 51].

(** [out[j++] = c] *)
Definition put (st : list Z * Z) (c : Z) : comp (list Z * Z) :=
  let* out := arr_set st.1 st.2 c in Ret (out, to_ulong (st.2 + 1)).

(** [out[j++] = base64en[k]] *)
Definition put_en (st : list Z * Z) (k : Z) : comp (list Z * Z) :=
  let* c := arr_get base64en k in put st c.

(** The body of the encoding loop at index [i]. *)
Definition encrypt_step (inp : list Z) (i : Z) (st : list Z * Z) : comp (list Z * Z) :=
  let s := i mod 3 in
  let* b := arr_get inp i in
  if s =? 0 then put_en st (Z.land (Z.shiftr b 2) 63)
  else if s =? 1 then
    let* a := arr_get inp (i - 1) in
    put_en st (Z.shiftl (Z.land a 3) 4 + Z.land (Z.shiftr b 4) 15)
  else
    let* a := arr_get inp (i - 1) in
    let* st := put_en st (Z.shiftl (Z.land a 15) 2 + Z.land (Z.shiftr b 6) 3) in
    put_en st (Z.land b 63).

(** [for (; i < inlen; i++)], [k] iterations left. *)
Fixpoint encrypt_loop (k : nat) (inp : list Z) (i : Z) (st : list Z * Z) : comp (list Z * Z) :=
  match k with
  | O => Ret st
  | S k => let* st := encrypt_step inp i st in encrypt_loop k inp (to_ulong (i + 1)) st
  end.

(** After [i -= 1]: the last bits and the padding. *)
Definition encrypt_pad (inp : list Z) (i : Z) (st : list Z * Z) : comp (list Z * Z) :=
  if i mod 3 =? 0 then
    let* a := arr_get inp i in
    let* st := put_en st (Z.shiftl (Z.land a 3) 4) in
    let* st := put st BASE64_PAD in
    put st BASE64_PAD
  else if i mod 3 =? 1 then
    let* a := arr_get inp i in
    let* st := put_en st (Z.shiftl (Z.land a 15) 2) in
    put st BASE64_PAD
  else Ret st.

Definition base64_encrypt (inp : list Z) (inlen : Z) (out : list Z) : comp (Z * list Z) :=
  let* st := encrypt_loop (Z.to_nat inlen) inp 0 (out, 0) in
  let* st := encrypt_pad inp (to_ulong (inlen - 1)) st in
  let* out := arr_set st.1 st.2 0 in
  Ret (BASE64_OK, out).

(** [out[j] += v], on an [unsigned char]. *)
Definition add_at (out : list Z) (j v : Z) : comp (list Z) :=
  let* x := arr_get out j in arr_set out j ((x + v) mod 256).

(** The [switch] of the decoding loop, for the value [c] of the character at
    index [i]; [outLen] is the counter behind the pointer argument. *)
Definition decrypt_switch (inp : list Z) (inlen i c : Z) (out : list Z) (j outLen : Z)
    : comp (list Z * Z * Z) :=
  let s := i mod 4 in
  if s =? 0 then
    let* out := arr_set out j (Z.land (Z.shiftl c 2) 255) in
    Ret (out, j, outLen)
  else if s =? 1 then
    let* out := add_at out j (Z.land (Z.shiftr c 4) 3) in
    let j := to_ulong (j + 1) in
    let* more := (if i <? to_ulong (inlen - 3) then Ret true
                  else let* p := arr_get inp (to_ulong (inlen - 2)) in Ret (negb (p =? 61))) in
    let* out := (if (more : bool) then arr_set out j (Z.shiftl (Z.land c 15) 4) else Ret out) in
    Ret (out, j, to_ulong (outLen + 1))
  else if s =? 2 then
    let* out := add_at out j (Z.land (Z.shiftr c 2) 15) in
    let j := to_ulong (j + 1) in
    let* more := (if i <? to_ulong (inlen - 2) then Ret true
                  else let* p := arr_get inp (to_ulong (inlen - 1)) in Ret (negb (p =? 61))) in
    let* out := (if (more : bool) then arr_set out j (Z.shiftl (Z.land c 3) 6) else Ret out) in
    Ret (out, j, to_ulong (outLen + 1))
  else
    let* out := add_at out j c in
    Ret (out, to_ulong (j + 1), to_ulong (outLen + 1)).

(** The decoding loop, [k] iterations left. *)
Fixpoint decrypt_loop (k : nat) (inp : list Z) (inlen i : Z) (out : list Z) (j outLen : Z)
    : comp (Z * list Z * Z) :=
  match k with
  | O => Ret (BASE64_OK, out, outLen)
  | S k =>
      let* ch := arr_get inp i in
      if ch =? 61 then Ret (BASE64_OK, out, outLen)
      else if (ch <? BASE64DE_FIRST) || (BASE64DE_LAST <? ch) then Ret (BASE64_INVALID, out, outLen)
      else
        let* c := arr_get base64de (ch - BASE64DE_FIRST) in
        if c =? -1 then Ret (BASE64_INVALID, out, outLen)
        else
          let* (out, j, outLen) := decrypt_switch inp inlen i c out j outLen in
          decrypt_loop k inp inlen (to_ulong (i + 1)) out j outLen
  end.

Definition base64_decrypt (inp : list Z) (inlen : Z) (out : list Z) : comp (Z * list Z * Z) :=
  decrypt_loop (Z.to_nat inlen) inp inlen 0 out 0 0.

Definition calc_base64_encrypted_size (input_size : Z) : Z :=
  to_ulong (to_ulong (input_size * 4) / 3 + input_size / 96 + 6).

(** ** Reference: the encoding by groups of three bytes *)

Definition en (k : Z) : Z := nth (Z.to_nat k) base64en 0.

Fixpoint encode (l : list Z) : list Z :=
  match l with
  | [] => []
  | [a] => [en (a / 4); en (a mod 4 * 16); BASE64_PAD; BASE64_PAD]
  | [a; b] => [en (a / 4); en (a mod 4 * 16 + b / 16); en (b mod 16 * 4); BASE64_PAD]
  | a :: b :: c :: l =>
      en (a / 4) :: en (a mod 4 * 16 + b / 16) :: en (b mod 16 * 4 + c / 64) :: en (c mod 64) :: encode l
  end.

Example encode_man :
  base64_encrypt [77; 97; 110; 33] 4 (replicate 12 7) =
    Ret (BASE64_OK, (char_val <$> String.list_ascii_of_string "TWFuIQ==") ++ [0; 7; 7; 7]).
Proof. reflexivity. Qed.

Example decode_man :
  base64_decrypt (char_val <$> String.list_ascii_of_string "TWFuIQ==") 8 (replicate 5 0) =
    Ret (BASE64_OK, [77; 97; 110; 33; 0], 4).
Proof. reflexivity. Qed.

(** ** Arithmetic of the six-bit groups *)

Ltac bits :=
  rewrite ?land_3, ?land_15, ?land_63, ?land_255, ?Z.shiftr_div_pow2, ?Z.shiftl_mul_pow2 by lia;
  change (2 ^ 2) with 4; change (2 ^ 4) with 16; change (2 ^ 6) with 64.
Ltac divmod := unfold is_byte in *; Z.div_mod_to_equations; lia.

Lemma en_ok k : 0 <= k < 64 -> arr_get base64en k = Ret (en k).
Proof.
  intros Hk. destruct (lookup_lt_is_Some_2 base64en (Z.to_nat k)) as [x Hx]; [cbn; lia|].
  rewrite (arr_get_Some _ _ x) by (done || lia). unfold en. f_equal. symmetry. by apply nth_lookup_Some.
Qed.

(** The decode table inverts the encode table. *)
Definition de_check (k : Z) : bool :=
  negb (en k =? 61) && negb ((en k <? BASE64DE_FIRST) || (BASE64DE_LAST <? en k))
  && bool_decide (base64de !! Z.to_nat (en k - BASE64DE_FIRST) = Some k).

Lemma de_ok k : 0 <= k < 64 ->
  (en k =? 61) = false /\ ((en k <? BASE64DE_FIRST) || (BASE64DE_LAST <? en k)) = false
  /\ arr_get base64de (en k - BASE64DE_FIRST) = Ret k.
Proof.
  intros Hk. assert (de_check k = true) as H.
  { assert (forallb de_check (seqZ 0 64) = true) as Hall by (by vm_compute).
    rewrite forallb_forall in Hall. apply Hall. apply list_elem_of_In, elem_of_seqZ. lia. }
  unfold de_check in H. apply andb_prop in H as [[H1 H2]%andb_prop H3].
  apply negb_true_iff in H1, H2. apply bool_decide_eq_true_1 in H3. split_and!; [done..|].
  apply arr_get_Some; [|done]. apply orb_false_iff in H2 as [H2%Z.ltb_ge _]. lia.
Qed.

Lemma list_ind3 {A} (P : list A -> Prop) :
  P [] -> (forall a, P [a]) -> (forall a b, P [a; b]) ->
  (forall a b c l, P l -> P (a :: b :: c :: l)) -> forall l, P l.
Proof.
  intros H0 H1 H2 H3. fix IH 1. intros [|a [|b [|c l]]]; [done|apply H1|apply H2|apply H3, IH].
Qed.

(** ** Encoding *)

(** [w] is written, [r] is what is left of the buffer. *)
Definition st (w r : list Z) : list Z * Z := (w ++ r, Z.of_nat (length w)).

Definition ULONG : Z := 18446744073709551616.

Lemma put_ok w x r c :
  Z.of_nat (length w) + 1 < ULONG -> put (st w (x :: r)) c = Ret (st (w ++ [c]) r).
Proof.
  intros H. unfold put, st. cbn [fst snd]. rewrite arr_set_app by done. cbn [mbind comp_bind].
  rewrite to_ulong_id by (unfold ULONG in H; lia). rewrite <- app_assoc, length_app. cbn [app length].
  by rewrite Nat2Z.inj_add.
Qed.

Lemma put_en_ok w x r k :
  Z.of_nat (length w) + 1 < ULONG -> 0 <= k < 64 ->
  put_en (st w (x :: r)) k = Ret (st (w ++ [en k]) r).
Proof. intros. unfold put_en. rewrite en_ok by done. by apply put_ok. Qed.

Lemma arr_get_off {A} (l k : list A) (i : Z) :
  0 <= i -> arr_get (l ++ k) (Z.of_nat (length l) + i) = arr_get k i.
Proof.
  intros Hi. unfold arr_get. rewrite !(proj2 (Z.leb_le _ _)) by lia.
  by rewrite lookup_app_r, Z2Nat.inj_add, Nat2Z.id, Nat.add_comm, Nat.add_sub by lia.
Qed.

Lemma arr_get_off0 {A} (l k : list A) : arr_get (l ++ k) (Z.of_nat (length l)) = arr_get k 0.
Proof. rewrite <- (arr_get_off l k 0) by lia. f_equal. lia. Qed.

Lemma arr_get_0 {A} (a : A) l : arr_get (a :: l) 0 = Ret a. Proof. reflexivity. Qed.
Lemma arr_get_1 {A} (a b : A) l : arr_get (a :: b :: l) 1 = Ret b. Proof. reflexivity. Qed.
Lemma arr_get_2 {A} (a b c : A) l : arr_get (a :: b :: c :: l) 2 = Ret c. Proof. reflexivity. Qed.

#[local] Arguments en : simpl never.

(** Reads at constant offsets past a prefix, then the monadic steps. *)
Ltac reads :=
  rewrite ?arr_get_off0, ?arr_get_off by lia; rewrite ?arr_get_0, ?arr_get_1, ?arr_get_2;
  cbn [mbind comp_bind Z.eqb Pos.eqb].

(** What the loop emits, and what [encrypt_pad] adds. *)
Fixpoint body (l : list Z) : list Z :=
  match l with
  | [] => []
  | [a] => [en (a / 4)]
  | [a; b] => [en (a / 4); en (a mod 4 * 16 + b / 16)]
  | a :: b :: c :: l =>
      en (a / 4) :: en (a mod 4 * 16 + b / 16) :: en (b mod 16 * 4 + c / 64) :: en (c mod 64) :: body l
  end.

Fixpoint padding (l : list Z) : list Z :=
  match l with
  | [] => []
  | [a] => [en (a mod 4 * 16); BASE64_PAD; BASE64_PAD]
  | [a; b] => [en (b mod 16 * 4); BASE64_PAD]
  | a :: b :: c :: l => padding l
  end.

Lemma encode_split l : encode l = body l ++ padding l.
Proof. induction l as [| | |a b c l IH] using list_ind3; [done..|]. simpl. by rewrite IH. Qed.

Section steps.
Variables (pre l w r : list Z).
Hypothesis Hpre : Z.of_nat (length pre) mod 3 = 0.
Hypothesis Hw : Z.of_nat (length w) + 2 < ULONG.

Lemma step0 a x : is_byte a ->
  encrypt_step (pre ++ a :: l) (Z.of_nat (length pre)) (st w (x :: r)) = Ret (st (w ++ [en (a / 4)]) r).
Proof using Hpre Hw.
  intros Ha. unfold encrypt_step. rewrite Hpre. reads. bits. replace (a / 4 mod 64) with (a / 4) by divmod. apply put_en_ok; [lia|divmod].
Qed.

Lemma step1 a b x : is_byte a -> is_byte b ->
  encrypt_step (pre ++ a :: b :: l) (Z.of_nat (length pre) + 1) (st w (x :: r)) =
    Ret (st (w ++ [en (a mod 4 * 16 + b / 16)]) r).
Proof using Hpre Hw.
  intros Ha Hb. unfold encrypt_step. replace ((Z.of_nat (length pre) + 1) mod 3) with 1 by divmod.
  rewrite Z.add_simpl_r. reads. bits.
  replace (b / 16 mod 16) with (b / 16) by divmod. apply put_en_ok; [lia|divmod].
Qed.

Lemma step2 a b c x y : is_byte b -> is_byte c ->
  encrypt_step (pre ++ a :: b :: c :: l) (Z.of_nat (length pre) + 2) (st w (x :: y :: r)) =
    Ret (st (w ++ [en (b mod 16 * 4 + c / 64); en (c mod 64)]) r).
Proof using Hpre Hw.
  intros Hb Hc. unfold encrypt_step.
  replace ((Z.of_nat (length pre) + 2) mod 3) with 2 by divmod.
  replace (Z.of_nat (length pre) + 2 - 1) with (Z.of_nat (length pre) + 1) by lia.
  reads. bits. replace (c / 64 mod 4) with (c / 64) by divmod.
  rewrite put_en_ok by (lia || divmod). cbn [mbind comp_bind].
  rewrite put_en_ok; [by rewrite <- app_assoc|rewrite length_app; simpl; lia|divmod].
Qed.
End steps.

(** The first [n] cells of a buffer known to be long enough. *)
Tactic Notation "uncons" integer(n) ident(r) :=
  do n (destruct r as [|? r]; cbn [length] in *; [lia|]).

Lemma pre_app (pre k : list Z) n :
  length k = n -> Z.of_nat (length (pre ++ k)) = Z.of_nat (length pre) + Z.of_nat n.
Proof. intros <-. rewrite length_app. lia. Qed.

Lemma length_body_pos l : (length (body l) <= length (encode l))%nat.
Proof. rewrite encode_split, length_app. lia. Qed.

Lemma encrypt_loop_ok l pre w r1 r2 :
  Forall is_byte l -> Z.of_nat (length pre) mod 3 = 0 ->
  Z.of_nat (length pre) + Z.of_nat (length l) < ULONG ->
  length r1 = length (body l) -> Z.of_nat (length w) + Z.of_nat (length r1) + 3 < ULONG ->
  encrypt_loop (length l) (pre ++ l) (Z.of_nat (length pre)) (st w (r1 ++ r2)) = Ret (st (w ++ body l) r2).
Proof.
  unfold ULONG. revert pre w r1. induction l as [|a|a b|a b c l IH] using list_ind3; intros pre w r1 Hl Hpre Hi Hr Hw;
    cbn [body length] in *; repeat (apply Forall_cons in Hl as [? Hl]).
  - destruct r1; [|done]. by rewrite !app_nil_r.
  - uncons 1 r1. destruct r1; [|done]. cbn [encrypt_loop app]. by rewrite step0 by (done || unfold ULONG; lia).
  - uncons 2 r1. destruct r1; [|done]. cbn [encrypt_loop app]. rewrite step0 by (done || unfold ULONG; lia). cbn [mbind comp_bind].
    rewrite (to_ulong_id (Z.of_nat (length pre) + 1)), step1 by (done || unfold ULONG; rewrite ?length_app; cbn [length]; lia).
    cbn [mbind comp_bind]. by rewrite <- app_assoc.
  - uncons 4 r1. cbn [encrypt_loop app]. rewrite step0 by (done || unfold ULONG; lia). cbn [mbind comp_bind].
    rewrite (to_ulong_id (Z.of_nat (length pre) + 1)), step1 by (done || unfold ULONG; rewrite ?length_app; cbn [length]; lia).
    cbn [mbind comp_bind]. rewrite (to_ulong_id (Z.of_nat (length pre) + 1 + 1)) by lia.
    replace (Z.of_nat (length pre) + 1 + 1) with (Z.of_nat (length pre) + 2) by lia.
    rewrite step2 by (done || unfold ULONG; rewrite ?length_app; cbn [length]; lia). cbn [mbind comp_bind].
    rewrite to_ulong_id by lia. rewrite <- Z.add_assoc.
    change (2 + 1) with (Z.of_nat 3).
    rewrite <- (pre_app pre [a; b; c]) by done.
    replace (pre ++ a :: b :: c :: l) with ((pre ++ [a; b; c]) ++ l) by (by rewrite <- app_assoc).
    rewrite IH.
    + by rewrite <- !app_assoc.
    + done.
    + rewrite (pre_app _ _ 3) by done. divmod.
    + rewrite (pre_app _ _ 3) by done. lia.
    + lia.
    + rewrite !length_app. cbn [length]. lia.
Qed.

Lemma encrypt_pad_ok l pre w r1 r2 :
  l <> [] -> Forall is_byte l -> Z.of_nat (length pre) mod 3 = 0 ->
  length r1 = length (padding l) -> Z.of_nat (length w) + Z.of_nat (length r1) + 3 < ULONG ->
  encrypt_pad (pre ++ l) (Z.of_nat (length pre) + Z.of_nat (length l) - 1) (st w (r1 ++ r2)) =
    Ret (st (w ++ padding l) r2).
Proof.
  unfold ULONG. revert pre. induction l as [|a|a b|a b c l IH] using list_ind3; intros pre Hne Hl Hpre Hr Hw;
    [done|..]; repeat (apply Forall_cons in Hl as [? Hl]).
  - cbn [padding length] in *. uncons 3 r1. destruct r1; [|done].
    unfold encrypt_pad. rewrite Z.add_simpl_r, Hpre. reads. bits. cbn [app].
    rewrite put_en_ok by (unfold ULONG; lia || divmod). cbn [mbind comp_bind].
    rewrite put_ok by (rewrite ?length_app; unfold ULONG; cbn [length]; lia). cbn [mbind comp_bind].
    rewrite put_ok by (rewrite ?length_app; unfold ULONG; cbn [length]; lia). by rewrite <- !app_assoc.
  - cbn [padding length] in *. uncons 2 r1. destruct r1; [|done].
    unfold encrypt_pad. replace (Z.of_nat (length pre) + Z.of_nat 2 - 1) with (Z.of_nat (length pre) + 1) by lia.
    replace ((Z.of_nat (length pre) + 1) mod 3) with 1 by divmod. reads. bits. cbn [app].
    rewrite put_en_ok by (unfold ULONG; lia || divmod). cbn [mbind comp_bind].
    rewrite put_ok by (rewrite ?length_app; unfold ULONG; cbn [length]; lia). by rewrite <- !app_assoc.
  - cbn [padding length] in *. destruct l as [|d l].
    + cbn [padding length] in *. destruct r1; [|done]. rewrite app_nil_r. unfold encrypt_pad.
      replace ((Z.of_nat (length pre) + Z.of_nat 3 - 1) mod 3) with 2 by divmod. done.
    + replace (pre ++ a :: b :: c :: d :: l) with ((pre ++ [a; b; c]) ++ d :: l) by (by rewrite <- app_assoc).
      rewrite <- (IH (pre ++ [a; b; c])); [f_equal|done..| | done|done].
      * rewrite (pre_app _ _ 3) by done. cbn [length]. lia.
      * rewrite (pre_app _ _ 3) by done. divmod.
Qed.

Lemma length_encode l : Z.of_nat (length (encode l)) = (Z.of_nat (length l) + 2) / 3 * 4.
Proof.
  induction l as [| | |a b c l IH] using list_ind3; [done..|].
  cbn [encode length]. rewrite !Nat2Z.inj_succ, IH. divmod.
Qed.

Lemma encrypt_ok l out :
  l <> [] -> Forall is_byte l -> (length (encode l) < length out)%nat ->
  Z.of_nat (length out) + 3 < ULONG ->
  base64_encrypt l (Z.of_nat (length l)) out =
    Ret (BASE64_OK, encode l ++ 0 :: drop (S (length (encode l))) out).
Proof.
  intros Hne Hl Hlen Hout. unfold base64_encrypt. pose proof (length_encode l) as Hle.
  rewrite <- (take_drop (length (encode l)) out) at 1.
  destruct (drop (length (encode l)) out) as [|x r] eqn:Hd.
  { apply (f_equal length) in Hd. rewrite length_drop in Hd. simpl in Hd. lia. }
  assert (drop (S (length (encode l))) out = r) as ->.
  { rewrite <- Nat.add_1_r, <- drop_drop, Hd. done. }
  set (r0 := take (length (encode l)) out).
  assert (length r0 = length (body l) + length (padding l))%nat as Hr0.
  { unfold r0. rewrite length_take, encode_split, length_app in *. lia. }
  rewrite encode_split, length_app in Hlen.
  rewrite <- (take_drop (length (body l)) r0), <- app_assoc.
  assert (Z.of_nat (length l) + 3 < ULONG) as Hll.
  { unfold ULONG in *. rewrite encode_split, length_app in Hle. divmod. }
  pose proof (encrypt_loop_ok l [] [] (take (length (body l)) r0) (drop (length (body l)) r0 ++ x :: r)) as E1.
  unfold st at 1 in E1. cbn [app length] in E1. change (Z.of_nat 0) with 0 in E1. rewrite Nat2Z.id, E1; clear E1;
    [|done|done|lia|rewrite length_take; lia|rewrite length_take; lia].
  cbn [mbind comp_bind app]. rewrite to_ulong_id by (unfold ULONG in *; destruct l; cbn [length] in *; [done|lia]).
  pose proof (encrypt_pad_ok l [] (body l) (drop (length (body l)) r0) (x :: r)) as E2.
  cbn [app length] in E2. change (Z.of_nat 0) with 0 in E2. rewrite Z.add_0_l in E2. rewrite E2; clear E2;
    [|done|done|done|rewrite length_drop; lia|rewrite length_drop; lia].
  cbn [mbind comp_bind]. rewrite <- encode_split. cbn [st fst snd]. by rewrite arr_set_app.
Qed.

(** ** Decoding *)

Lemma dec_char n inp inlen i out j outLen k :
  0 <= k < 64 -> arr_get inp i = Ret (en k) ->
  decrypt_loop (S n) inp inlen i out j outLen =
    let* (out, j, outLen) := decrypt_switch inp inlen i k out j outLen in
    decrypt_loop n inp inlen (to_ulong (i + 1)) out j outLen.
Proof.
  intros Hk Hi. cbn [decrypt_loop]. rewrite Hi. cbn [mbind comp_bind].
  destruct (de_ok k Hk) as (-> & -> & ->). cbn [mbind comp_bind].
  by rewrite (proj2 (Z.eqb_neq k (-1))) by lia.
Qed.

Lemma dec_pad n inp inlen i out j outLen :
  arr_get inp i = Ret BASE64_PAD ->
  decrypt_loop (S n) inp inlen i out j outLen = Ret (BASE64_OK, out, outLen).
Proof. intros Hi. cbn [decrypt_loop]. by rewrite Hi. Qed.

Lemma add_at_ok w x r v :
  add_at (w ++ x :: r) (Z.of_nat (length w)) v = Ret (w ++ ((x + v) mod 256) :: r).
Proof. unfold add_at. rewrite arr_get_app by done. cbn [mbind comp_bind]. by rewrite arr_set_app. Qed.

Lemma length_snoc_Z (w : list Z) y : Z.of_nat (length (w ++ [y])) = Z.of_nat (length w) + 1.
Proof. rewrite length_app. cbn [length]. lia. Qed.

Section groups.
Variables (inp pre w : list Z) (inlen : Z).
Hypothesis Hpre : Z.of_nat (length pre) mod 4 = 0.
Hypothesis Hpre' : Z.of_nat (length pre) + 4 < ULONG.
Hypothesis Hw : Z.of_nat (length w) + 4 < ULONG.
Notation i := (Z.of_nat (length pre)).
Notation j := (Z.of_nat (length w)).

(** The two tests for "last char with padding". *)
Definition more1 : comp bool :=
  if i + 1 <? to_ulong (inlen - 3) then Ret true
  else let* p := arr_get inp (to_ulong (inlen - 2)) in Ret (negb (p =? 61)).
Definition more2 : comp bool :=
  if i + 2 <? to_ulong (inlen - 2) then Ret true
  else let* p := arr_get inp (to_ulong (inlen - 1)) in Ret (negb (p =? 61)).

Lemma switch0 k x r o :
  decrypt_switch inp inlen i k (w ++ x :: r) j o = Ret (w ++ (k * 4) mod 256 :: r, j, o).
Proof using Hpre.
  unfold decrypt_switch. rewrite Hpre. cbn [Z.eqb]. bits. by rewrite arr_set_app.
Qed.

Lemma switch1 k x y r more :
  more1 = Ret more ->
  decrypt_switch inp inlen (i + 1) k (w ++ x :: y :: r) j j =
    Ret ((w ++ [(x + k / 16 mod 4) mod 256]) ++ (if more then k mod 16 * 16 else y) :: r, j + 1, j + 1).
Proof using Hpre Hw.
  unfold more1. intros Hm. unfold decrypt_switch. replace ((i + 1) mod 4) with 1 by divmod. cbn [Z.eqb Pos.eqb].
  rewrite add_at_ok. cbn [mbind comp_bind]. cbn [mbind comp_bind] in Hm. rewrite Hm. cbn [mbind comp_bind]. bits.
  rewrite !to_ulong_id by (unfold ULONG in *; lia). rewrite <- app_assoc. cbn [app].
  destruct more; [|done]. rewrite cons_middle, app_assoc, arr_set_app by (by rewrite length_snoc_Z).
  by rewrite <- app_assoc.
Qed.

(** A whole group written at the end of [w]; [r] is not touched. *)
Lemma switch1_last k x r :
  more1 = Ret false ->
  decrypt_switch inp inlen (i + 1) k (w ++ x :: r) j j =
    Ret (w ++ (x + k / 16 mod 4) mod 256 :: r, j + 1, j + 1).
Proof using Hpre Hw.
  unfold more1. intros Hm. unfold decrypt_switch. replace ((i + 1) mod 4) with 1 by divmod. cbn [Z.eqb Pos.eqb].
  rewrite add_at_ok. cbn [mbind comp_bind]. cbn [mbind comp_bind] in Hm. rewrite Hm. cbn [mbind comp_bind]. bits.
  by rewrite !to_ulong_id by (unfold ULONG in *; lia).
Qed.

Lemma switch2 k v x y r more :
  more2 = Ret more ->
  decrypt_switch inp inlen (i + 2) k ((w ++ [v]) ++ x :: y :: r) (j + 1) (j + 1) =
    Ret ((w ++ [v; (x + k / 4 mod 16) mod 256]) ++ (if more then k mod 4 * 64 else y) :: r, j + 2, j + 2).
Proof using Hpre Hw.
  unfold more2. intros Hm. unfold decrypt_switch. replace ((i + 2) mod 4) with 2 by divmod. cbn [Z.eqb Pos.eqb].
  rewrite <- (length_snoc_Z w v), add_at_ok. cbn [mbind comp_bind]. cbn [mbind comp_bind] in Hm. rewrite Hm. cbn [mbind comp_bind]. bits.
  rewrite length_snoc_Z, !to_ulong_id by (unfold ULONG in *; lia).
  replace (j + 1 + 1) with (j + 2) by lia. rewrite <- !app_assoc. cbn [app].
  destruct more; [|done]. change (w ++ v :: ?z :: ?a :: ?t) with (w ++ [v; z] ++ a :: t).
  rewrite app_assoc, arr_set_app by (rewrite length_app; cbn [length]; lia). by rewrite <- app_assoc.
Qed.

Lemma switch2_last k v x r :
  more2 = Ret false ->
  decrypt_switch inp inlen (i + 2) k ((w ++ [v]) ++ x :: r) (j + 1) (j + 1) =
    Ret ((w ++ [v]) ++ (x + k / 4 mod 16) mod 256 :: r, j + 2, j + 2).
Proof using Hpre Hw.
  unfold more2. intros Hm. unfold decrypt_switch. replace ((i + 2) mod 4) with 2 by divmod. cbn [Z.eqb Pos.eqb].
  rewrite <- (length_snoc_Z w v), add_at_ok. cbn [mbind comp_bind]. cbn [mbind comp_bind] in Hm. rewrite Hm. cbn [mbind comp_bind]. bits.
  rewrite length_snoc_Z, !to_ulong_id by (unfold ULONG in *; lia).
  by replace (j + 1 + 1) with (j + 2) by lia.
Qed.

Lemma switch3 k u v x r :
  decrypt_switch inp inlen (i + 3) k ((w ++ [u; v]) ++ x :: r) (j + 2) (j + 2) =
    Ret ((w ++ [u; v; (x + k) mod 256]) ++ r, j + 3, j + 3).
Proof using Hpre Hw.
  unfold decrypt_switch. replace ((i + 3) mod 4) with 3 by divmod. cbn [Z.eqb Pos.eqb].
  replace (j + 2) with (Z.of_nat (length (w ++ [u; v]))) by (rewrite length_app; cbn [length]; lia).
  rewrite add_at_ok. cbn [mbind comp_bind]. rewrite length_app. cbn [length].
  rewrite !to_ulong_id by (unfold ULONG in *; lia). rewrite <- !app_assoc.
  by replace (Z.of_nat (length w + 2) + 1) with (j + 3) by lia.
Qed.
End groups.

Lemma arr_get_3 {A} (a b c d : A) l : arr_get (a :: b :: c :: d :: l) 3 = Ret d. Proof. reflexivity. Qed.

Lemma more_ok pre c0 c1 c2 c3 rest :
  Z.of_nat (length pre) + 4 + Z.of_nat (length rest) < ULONG ->
  let inp := pre ++ c0 :: c1 :: c2 :: c3 :: rest in
  more1 inp pre (Z.of_nat (length inp)) =
    Ret (negb (bool_decide (rest = [])) || negb (c2 =? 61))
  /\ more2 inp pre (Z.of_nat (length inp)) =
    Ret (negb (bool_decide (rest = [])) || negb (c3 =? 61)).
Proof.
  intros Hb inp. unfold more1, more2, inp. rewrite length_app, Nat2Z.inj_add. cbn [length].
  unfold ULONG in *. rewrite !to_ulong_id by lia. destruct rest as [|d rest]; cbn [length].
  - rewrite !(proj2 (Z.ltb_ge _ _)) by lia.
    replace (Z.of_nat (length pre) + Z.of_nat 4 - 2) with (Z.of_nat (length pre) + 2) by lia.
    replace (Z.of_nat (length pre) + Z.of_nat 4 - 1) with (Z.of_nat (length pre) + 3) by lia.
    rewrite !arr_get_off, arr_get_2, arr_get_3 by lia. done.
  - by rewrite !(proj2 (Z.ltb_lt _ _)) by lia.
Qed.

Lemma decrypt_loop_ok l pre w r1 r2 :
  Forall is_byte l -> Z.of_nat (length pre) mod 4 = 0 -> length r1 = length l ->
  Z.of_nat (length (pre ++ encode l)) + 4 < ULONG ->
  Z.of_nat (length w) + Z.of_nat (length l) + 4 < ULONG ->
  decrypt_loop (length (encode l)) (pre ++ encode l) (Z.of_nat (length (pre ++ encode l)))
    (Z.of_nat (length pre)) (w ++ r1 ++ r2) (Z.of_nat (length w)) (Z.of_nat (length w)) =
  Ret (BASE64_OK, w ++ l ++ r2, Z.of_nat (length w) + Z.of_nat (length l)).
Proof.
  revert pre w r1. induction l as [|a|a b|a b c l IH] using list_ind3; intros pre w r1 Hl Hpre Hr Hi Hw;
    cbn [length] in *; repeat (apply Forall_cons in Hl as [? Hl]);
    assert (forall k, 0 <= k < 64 -> (en k =? 61) = false) as Hen by (intros k Hk; apply (de_ok k Hk)).
  - destruct r1; [|done]. cbn [encode length decrypt_loop app]. by rewrite Z.add_0_r.
  - uncons 1 r1. destruct r1; [|done]. cbn [encode length app] in *. rewrite length_app in Hi. cbn [length] in Hi.
    destruct (more_ok pre (en (a / 4)) (en (a mod 4 * 16)) BASE64_PAD BASE64_PAD []) as [M1 _]; [cbn [length]; lia|].
    erewrite dec_char; [| |by reads]; [|divmod]. rewrite switch0 by done. cbn [mbind comp_bind].
    rewrite to_ulong_id by (unfold ULONG in *; lia).
    erewrite dec_char; [| |by reads]; [|divmod]. rewrite switch1_last by (done || lia).
    cbn [mbind comp_bind]. rewrite to_ulong_id by (unfold ULONG in *; lia).
    rewrite dec_pad; [|rewrite <- Z.add_assoc; by reads].
    by replace (((a / 4 * 4) mod 256 + a mod 4 * 16 / 16 mod 4) mod 256) with a by divmod.
  - uncons 2 r1. destruct r1; [|done]. cbn [encode length app] in *. rewrite length_app in Hi. cbn [length] in Hi.
    destruct (more_ok pre (en (a / 4)) (en (a mod 4 * 16 + b / 16)) (en (b mod 16 * 4)) BASE64_PAD [])
      as [M1 M2]; [cbn [length]; lia|]. rewrite (Hen (b mod 16 * 4)) in M1 by divmod.
    erewrite dec_char; [| |by reads]; [|divmod]. rewrite switch0 by done. cbn [mbind comp_bind].
    rewrite to_ulong_id by (unfold ULONG in *; lia).
    erewrite dec_char; [| |by reads]; [|divmod]. rewrite switch1 with (more := true) by (done || lia).
    cbn [mbind comp_bind]. rewrite to_ulong_id by (unfold ULONG in *; lia). rewrite <- Z.add_assoc.
    erewrite dec_char; [| |by reads]; [|divmod]. rewrite switch2_last by (done || lia).
    cbn [mbind comp_bind]. rewrite to_ulong_id by (unfold ULONG in *; lia).
    rewrite dec_pad; [|rewrite <- Z.add_assoc; rewrite arr_get_off by lia; by rewrite arr_get_3].
    rewrite <- app_assoc. cbn [app].
    replace (((a / 4 * 4) mod 256 + (a mod 4 * 16 + b / 16) / 16 mod 4) mod 256) with a by divmod.
    by replace (((a mod 4 * 16 + b / 16) mod 16 * 16 + b mod 16 * 4 / 4 mod 16) mod 256) with b by divmod.
  - uncons 3 r1. cbn [encode length app] in *.
    assert (Z.of_nat (length pre) + 4 + Z.of_nat (length (encode l)) + 4 < ULONG) as Hi'.
    { rewrite length_app in Hi. cbn [length] in Hi. lia. }
    destruct (more_ok pre (en (a / 4)) (en (a mod 4 * 16 + b / 16)) (en (b mod 16 * 4 + c / 64)) (en (c mod 64)) (encode l))
      as [M1 M2]; [lia|]. rewrite Hen, orb_true_r in M1, M2 by divmod.
    erewrite dec_char; [| |by reads]; [|divmod]. rewrite switch0 by done. cbn [mbind comp_bind].
    rewrite to_ulong_id by (unfold ULONG in *; lia).
    erewrite dec_char; [| |by reads]; [|divmod]. rewrite switch1 with (more := true) by (done || lia).
    cbn [mbind comp_bind]. rewrite to_ulong_id by (unfold ULONG in *; lia). rewrite <- Z.add_assoc.
    erewrite dec_char; [| |by reads]; [|divmod]. rewrite switch2 with (more := true) by (done || lia).
    cbn [mbind comp_bind]. rewrite to_ulong_id by (unfold ULONG in *; lia). rewrite <- Z.add_assoc.
    erewrite dec_char; [| |rewrite arr_get_off by lia; by rewrite arr_get_3]; [|divmod].
    rewrite switch3 by (done || lia).
    cbn [mbind comp_bind]. rewrite to_ulong_id by (unfold ULONG in *; lia). rewrite <- Z.add_assoc.
    specialize (IH (pre ++ [en (a / 4); en (a mod 4 * 16 + b / 16); en (b mod 16 * 4 + c / 64); en (c mod 64)])
                   (w ++ [a; b; c]) r1).
    rewrite <- !app_assoc, !(pre_app _ [_; _; _; _] 4), !(pre_app _ [_; _; _] 3) in IH by done. cbn [app] in IH.
    replace (((a / 4 * 4) mod 256 + (a mod 4 * 16 + b / 16) / 16 mod 4) mod 256) with a by divmod.
    replace (((a mod 4 * 16 + b / 16) mod 16 * 16 + (b mod 16 * 4 + c / 64) / 4 mod 16) mod 256) with b by divmod.
    replace (((b mod 16 * 4 + c / 64) mod 4 * 64 + c mod 64) mod 256) with c by divmod.
    rewrite <- app_assoc. cbn [app]. etrans; [apply IH|]; [done|divmod|lia|done|lia|].
    do 2 f_equal. lia.
Qed.

Lemma calc_size_enough n :
  0 <= n -> n * 4 < ULONG - 7 ->
  (n + 2) / 3 * 4 < calc_base64_encrypted_size n <= n * 4 + 6.
Proof.
  unfold ULONG, calc_base64_encrypted_size. intros H0 H1.
  rewrite (to_ulong_id (n * 4)) by lia. rewrite to_ulong_id by divmod. divmod.
Qed.

(** C35: encoding any non-empty byte string into a buffer of
    [calc_base64_encrypted_size] bytes stays inside the buffer and
    NUL-terminates it, the encoded length is 4 * ceil(n / 3), and decoding the
    result restores the bytes and their number into a buffer of exactly the
    original size. *)
Theorem base64_roundtrip (l out dst : list Z) :
  l <> [] -> Forall is_byte l -> Z.of_nat (length l) * 4 < ULONG - 16 ->
  Z.of_nat (length out) = calc_base64_encrypted_size (Z.of_nat (length l)) ->
  length dst = length l ->
  exists enc rest, base64_encrypt l (Z.of_nat (length l)) out = Ret (BASE64_OK, enc ++ 0 :: rest)
    /\ Z.of_nat (length enc) = (Z.of_nat (length l) + 2) / 3 * 4
    /\ base64_decrypt enc (Z.of_nat (length enc)) dst = Ret (BASE64_OK, l, Z.of_nat (length l)).
Proof.
  intros Hne Hl Hn Hout Hdst. pose proof (length_encode l) as Hle.
  pose proof (calc_size_enough (Z.of_nat (length l))) as Hc.
  assert (Z.of_nat (length (encode l)) < Z.of_nat (length out) <= Z.of_nat (length l) * 4 + 6) as Hlt by lia.
  eexists _, _. split; [apply encrypt_ok; [done|done|lia|unfold ULONG in *; lia]|]. split; [done|].
  unfold base64_decrypt. rewrite Nat2Z.id.
  pose proof (decrypt_loop_ok l [] [] dst []) as E. rewrite !app_nil_r in E. apply E;
    [done|done|done|cbn [app]; unfold ULONG in *; lia|cbn [length]; unfold ULONG in *; lia].
Qed.

Lemma base64_roundtrip_witness :
  exists enc rest, base64_encrypt [77; 97; 110; 33] 4 (replicate 11 0) = Ret (BASE64_OK, enc ++ 0 :: rest)
    /\ Z.of_nat (length enc) = 8
    /\ base64_decrypt enc (Z.of_nat (length enc)) (replicate 4 0) = Ret (BASE64_OK, [77; 97; 110; 33], 4).
Proof.
  apply (base64_roundtrip [77; 97; 110; 33] (replicate 11 0) (replicate 4 0));
    [done|repeat constructor; unfold is_byte; lia|by vm_compute|by vm_compute|done].
Defined.

(** On the empty input the index steps back below zero and the last byte is
    read at [in[ULONG_MAX]]. *)
Lemma base64_encrypt_empty_faults out : base64_encrypt [] 0 out = Err OutOfBounds.
Proof. reflexivity. Qed.
End Base64.
