(* ===== verification/FileSys.v ===== *)
(** * Files and paths (sharelibs/utils/source/filepathutils.c)

    The file system is a map from paths to contents with a set of
    directories.  Whether an [fopen] for writing succeeds, and how many bytes
    an [fwrite] takes, is the answer of the operating system and comes in as
    [write_resp].  [mkdir] is a parameter of [mkdirp]. *)

From Stdlib Require Import Ascii.
From S2P Require Import Prelude CString StringUtils.

Local Open Scope Z_scope.

Definition POSIX_PATH_MAX : Z := 256.
Definition SLASH : ascii := "/"%char.
Definition DOT : ascii := "."%char.

(** ** Paths *)

(** The result of [readlink] on /proc/self/exe: [None] when it fails with -1.
    With nothing read, the scan starts below the buffer. *)
Definition local_path (exe : option string) : comp string :=
  match exe with
  | None => Err OutOfBounds
  | Some exe =>
      let distPath := String.substring 0 256 exe in
      if strlen distPath =? 0 then Err OutOfBounds
      else match strrchr distPath SLASH with
           | Some (pre, _) => Ret pre
           | None => Ret EmptyString
           end
  end.

(** The home directory is looked up once and then kept. *)
Definition home_path (gHomePath : string) (pw_dir : option string) : comp string :=
  if strlen gHomePath =? 0 then
    match pw_dir with
    | None => Err NullDeref
    | Some d => write_buf POSIX_PATH_MAX d
    end
  else Ret gHomePath.

(** One separator for every run of them; [skip] is true right after a
    separator was copied. *)
Fixpoint normalize_from (skip : bool) (path : string) : string :=
  match path with
  | EmptyString => EmptyString
  | String c path =>
      if decide (c = SLASH) then
        if skip then normalize_from true path else String c (normalize_from true path)
      else String c (normalize_from false path)
  end.

Definition path_normalize (path : string) : string := normalize_from false path.

Section mkdirp.
Context {W : Type}.
(** [mkdir] changes the world and sets [errno]; 0 stands for success. *)
Variable mkdir : W -> string -> W * Z.
Definition EEXIST : Z := 17.

Fixpoint mkdirp (fuel : nat) (w : W) (path : option string) : comp (W * Z) :=
  match fuel with
  | O => Err OutOfFuel
  | S fuel =>
      match path with
      | None => Ret (w, -1)
      | Some path =>
          let pathname := path_normalize path in
          let make (w : W) : comp (W * Z) :=
            let '(w, errno) := mkdir w pathname in
            Ret (w, if (errno =? 0) || (errno =? EEXIST) then 0 else -1) in
          match strrchr pathname SLASH with
          | Some (String c p, _) =>
              let* (w, rc) := mkdirp fuel w (Some (String c p)) in
              if rc =? 0 then make w else Ret (w, -1)
          | _ => make w
          end
      end
  end.

(** Reference: the directories to make for [path], outermost first, and
    making them until one fails. *)
Fixpoint prefixes (fuel : nat) (path : string) : list string :=
  match fuel with
  | O => []
  | S fuel =>
      match strrchr path SLASH with
      | Some (String c p, _) => prefixes fuel (String c p) ++ [path]
      | _ => [path]
      end
  end.

Fixpoint make_all (w : W) (dirs : list string) : W * Z :=
  match dirs with
  | [] => (w, 0)
  | d :: dirs =>
      let '(w, errno) := mkdir w d in
      if (errno =? 0) || (errno =? EEXIST) then make_all w dirs else (w, -1)
  end.
End mkdirp.

Definition get_parent_dir (dirOrFile : string) : comp string :=
  let* path := write_buf POSIX_PATH_MAX dirOrFile in
  let parentDir := string_trim path SPACE in
  let parentDir := string_trim_right parentDir SLASH in
  Ret (match strrchr parentDir SLASH with
       | Some (pre, _) => pre
       | None => parentDir
       end).

Definition get_file_suffix (path : option string) : string :=
  match path with
  | None => EmptyString
  | Some path =>
      if strlen path =? 0 then EmptyString
      else match strrchr path DOT with
           | Some (_, post) => String DOT post
           | None => EmptyString
           end
  end.

Definition get_file_base_name (path : option string) : string :=
  match path with
  | None => EmptyString
  | Some path =>
      if strlen path =? 0 then EmptyString
      else match strrchr path DOT with
           | Some (pre, _) => pre
           | None => EmptyString
           end
  end.

(** [None]: the output buffer is left as it was. *)
Definition get_name_from_path (path : string) : option string :=
  match strrchr path SLASH with
  | Some (_, post) => Some post
  | None => None
  end.

(** ** Files *)

Record fs := {
  files : gmap string string;
  dirs : gset string;
  mtimes : gmap string Z
}.

Definition set_file (s : fs) (p c : string) : fs :=
  {| files := <[p := c]> (files s); dirs := dirs s; mtimes := mtimes s |}.

Definition path_exists (s : fs) (p : string) : bool :=
  bool_decide (is_Some (files s !! p)) || bool_decide (p ∈ dirs s).
Definition file_exists (s : fs) (p : string) : bool := path_exists s p.
Definition is_file (s : fs) (p : string) : bool := bool_decide (is_Some (files s !! p)).
Definition is_dir (s : fs) (p : string) : bool := bool_decide (p ∈ dirs s).

Definition unlink_file (s : fs) (p : string) : fs :=
  {| files := delete p (files s); dirs := dirs s; mtimes := mtimes s |}.

(** The answer to [fopen(.., "w")] followed by [fwrite]. *)
Inductive write_resp : Set :=
  | WFail
  | WShort (n : nat)
  | WFull.

(** [write_file_string(ptr, 1, strlen(ptr), filePath, "w")] *)
Definition write_file_string (r : write_resp) (s : fs) (content filePath : string) : fs * Z :=
  match r with
  | WFail => (s, to_ulong (-1))
  | WShort n =>
      let c := String.substring 0 n content in (set_file s filePath c, strlen c)
  | WFull => (set_file s filePath content, strlen content)
  end.

(** The buffer stays null when the file is empty. *)
Definition read_file_string (s : fs) (filePath : string) : option string * Z :=
  match files s !! filePath with
  | None => (None, to_ulong (-1))
  | Some c => (if 0 <? strlen c then Some c else None, strlen c)
  end.

Definition get_file_modified_time (s : fs) (p : string) : Z := default 0 (mtimes s !! p).

Definition get_local_file_path (s : fs) (exe : option string) (fileName : string) : comp (string * Z) :=
  let* path := local_path exe in
  let* path := write_buf POSIX_PATH_MAX (path +:+ "/") in
  let* path := write_buf POSIX_PATH_MAX (path +:+ fileName) in
  Ret (path, if path_exists s path then 0 else -1).

Definition get_local_dir_path (exe : option string) (dirName : string) : comp (string * Z) :=
  let* path := local_path exe in
  let* path := write_buf POSIX_PATH_MAX (path +:+ "/") in
  let* path := write_buf POSIX_PATH_MAX (path +:+ dirName) in
  Ret (path, 0).

Definition run_version_path (appName : string) : comp string :=
  write_buf POSIX_PATH_MAX ("/tmp/" +:+ appName +:+ "-ver-runtime").

Definition write_app_run_version_file (r : write_resp) (s : fs) (appName version : string)
    : comp (fs * Z) :=
  let* filePath := run_version_path appName in
  let '(s, writeSize) := write_file_string r s version filePath in
  Ret (s, if writeSize <=? 0 then -1 else 0).

Definition delete_app_run_version_file (s : fs) (appName : string) : comp fs :=
  let* filePath := run_version_path appName in
  Ret (unlink_file s filePath).

(** ** Facts *)

Example normalize_ex : path_normalize "//a///b/" = "/a/b/".
Proof. reflexivity. Qed.

Lemma normalize_idemp b s : normalize_from b (normalize_from b s) = normalize_from b s.
Proof.
  revert b. induction s as [|c s IH]; intros b; [done|]. cbn [normalize_from].
  destruct (decide (c = SLASH)) as [->|Hc].
  - destruct b; [apply IH|]. cbn [normalize_from]. rewrite decide_True by done. by rewrite IH.
  - cbn [normalize_from]. rewrite decide_False by done. by rewrite IH.
Qed.

Lemma strrchr_normalize b s pre post :
  strrchr (normalize_from b s) SLASH = Some (pre, post) -> normalize_from b pre = pre.
Proof.
  revert b pre post. induction s as [|c s IH]; intros b pre post; [done|]. cbn [normalize_from].
  destruct (decide (c = SLASH)) as [->|Hc]; [destruct b|]; [apply IH|..]; cbn [strrchr];
    (destruct (strrchr (normalize_from _ s) SLASH) as [[pre' post']|] eqn:E;
       [intros [= <- <-]; cbn [normalize_from]; apply IH in E|]);
    rewrite ?decide_True, ?decide_False by done; try (by intros [= <- _]); try done; by rewrite E.
Qed.

Lemma strrchr_length s c pre post : strrchr s c = Some (pre, post) -> (String.length pre < String.length s)%nat.
Proof. intros [-> _]%strrchr_Some. rewrite str_length_app. simpl. lia. Qed.

Lemma normalize_length b s : (String.length (normalize_from b s) <= String.length s)%nat.
Proof.
  revert b. induction s as [|c s IH]; intros b; [done|]. cbn [normalize_from].
  pose proof (IH true). pose proof (IH false). destruct (decide (c = SLASH)), b; simpl; lia.
Qed.

Definition path_prefixes (path : string) : list string := prefixes (S (String.length path)) path.

Lemma prefixes_fuel fuel path :
  (String.length path < fuel)%nat -> prefixes fuel path = path_prefixes path.
Proof.
  unfold path_prefixes. assert (forall f g p, (String.length p < f)%nat -> (String.length p < g)%nat ->
    prefixes f p = prefixes g p) as H; [|intros; apply H; lia].
  induction f as [|f IH]; intros [|g] p Hf Hg; try lia. cbn [prefixes].
  destruct (strrchr p SLASH) as [[[|c q] ?]|] eqn:E; try done.
  apply strrchr_length in E. by rewrite (IH g) by lia.
Qed.

Lemma path_prefixes_eq path :
  path_prefixes path =
    match strrchr path SLASH with
    | Some (String c p, _) => path_prefixes (String c p) ++ [path]
    | _ => [path]
    end.
Proof.
  unfold path_prefixes at 1. cbn [prefixes].
  destruct (strrchr path SLASH) as [[[|c q] ?]|] eqn:E; try done.
  apply strrchr_length in E. by rewrite prefixes_fuel.
Qed.

Section mkdirp_facts.
Context {W : Type} (mkdir : W -> string -> W * Z).

Lemma make_all_app w ds d :
  make_all mkdir w (ds ++ [d]) =
    (let '(w, rc) := make_all mkdir w ds in
     if rc =? 0 then
       let '(w, errno) := mkdir w d in (w, if (errno =? 0) || (errno =? EEXIST) then 0 else -1)
     else (w, -1)).
Proof.
  revert w. induction ds as [|d' ds IH]; intros w; cbn [app make_all].
  - cbn. destruct (mkdir w d) as [w' e]. by destruct (_ || _).
  - destruct (mkdir w d') as [w' e]. by destruct (_ || _).
Qed.

(** [mkdirp] ends and calls [mkdir] on exactly the ancestors of the
    normalized path and the path itself, outermost first, stopping at the
    first one that neither succeeds nor exists; it returns 0 exactly when it
    got through all of them. *)
Theorem mkdirp_makes_prefixes fuel w path :
  (String.length path < fuel)%nat ->
  mkdirp mkdir fuel w (Some path) = Ret (make_all mkdir w (path_prefixes (path_normalize path))).
Proof.
  revert w path. induction fuel as [|fuel IH]; intros w path Hf; [lia|]. cbn [mkdirp].
  rewrite path_prefixes_eq. pose proof (normalize_length false path) as Hn. fold (path_normalize path) in *.
  destruct (strrchr (path_normalize path) SLASH) as [[[|c p] post]|] eqn:E.
  1,3: cbn; destruct (mkdir w _) as [w' e]; by destruct (_ || _).
  pose proof (strrchr_length _ _ _ _ E). rewrite IH by lia. apply strrchr_normalize in E.
  change (path_normalize (String c p) = String c p) in E. rewrite E, make_all_app. cbn [mbind comp_bind].
  destruct (make_all mkdir w _) as [w' rc]. destruct (rc =? 0); [|done]. by destruct (mkdir w' _).
Qed.
End mkdirp_facts.

Lemma mkdirp_makes_prefixes_witness :
  mkdirp (fun w d => (w ++ [d], 0)) 12 [] (Some "//a/b//c") = Ret (["/a"; "/a/b"; "/a/b/c"], 0).
Proof.
  rewrite (mkdirp_makes_prefixes (fun w d => (w ++ [d], 0)) 12 [] "//a/b//c") by (simpl; lia).
  reflexivity.
Defined.

(** The base name and the suffix of a path put together give the path
    back when it has a dot, the suffix has no further dot, and both are empty
    otherwise. *)
Theorem file_name_split (path : string) :
  match strrchr path DOT with
  | Some _ =>
      get_file_base_name (Some path) +:+ get_file_suffix (Some path) = path
      /\ (exists ext, get_file_suffix (Some path) = String DOT ext /\ strchr ext DOT = None)
  | None => get_file_base_name (Some path) = EmptyString /\ get_file_suffix (Some path) = EmptyString
  end.
Proof.
  destruct (strrchr path DOT) as [[pre post]|] eqn:E; unfold get_file_base_name, get_file_suffix; rewrite E.
  - apply strrchr_Some in E as [-> ?]. rewrite strlen_app, strlen_cons.
    pose proof (strlen_nonneg pre). pose proof (strlen_nonneg post).
    rewrite (proj2 (Z.eqb_neq _ _)) by lia. eauto.
  - by destruct (strlen path =? 0).
Qed.

(** A full write is read back as it was written and reported with its
    length, and other files keep their contents; a failed open leaves the file
    system alone but is reported as [(size_t)-1], which the caller's test
    [writeSize <= 0] takes for success. *)
Theorem write_read_file (s : fs) (content filePath appName : string) :
  (let '(s', n) := write_file_string WFull s content filePath in
   n = strlen content
   /\ read_file_string s' filePath = (if 0 <? strlen content then Some content else None, strlen content)
   /\ forall p, p <> filePath -> files s' !! p = files s !! p)
  /\ write_file_string WFail s content filePath = (s, 18446744073709551615)
  /\ write_app_run_version_file WFail s appName content =
      (let* _ := run_version_path appName in Ret (s, 0)).
Proof.
  split_and!; [|done|].
  - cbn. unfold read_file_string. cbn. rewrite lookup_insert_eq. split_and!; [done..|].
    intros p Hp. by rewrite lookup_insert_ne.
  - unfold write_app_run_version_file. by destruct (run_version_path appName).
Qed.
