(* ===== verification/Unicode.v ===== *)
(** * Bytes and Unicode

    Strings as sequences of bytes, and the reference for the UTF-8 code: the
    form of a code point, and which sequences of bytes are made of such forms. *)

From Stdlib Require Import Ascii.
From S2P Require Import Prelude CString.

Local Open Scope Z_scope.

Definition bytes (l : list Z) : string := foldr (fun z s => String (chr z) s) EmptyString l.

Fixpoint bytes_of (s : string) : list Z :=
  match s with
  | EmptyString => []
  | String c s => uchar_val c :: bytes_of s
  end.


(** The code points that have a UTF-8 form: all but the surrogates. *)
Definition scalar_value (cp : Z) : Prop := 0 <= cp < 0xD800 \/ 0xE000 <= cp < 0x110000.

(** The UTF-8 form of a code point (RFC 3629). *)
Definition utf8_bytes (cp : Z) : list Z :=
  if cp <? 128 then [cp]
  else if cp <? 2048 then [192 + cp / 64; 128 + cp mod 64]
  else if cp <? 65536 then [224 + cp / 4096; 128 + cp / 64 mod 64; 128 + cp mod 64]
  else [240 + cp / 262144; 128 + cp / 4096 mod 64; 128 + cp / 64 mod 64; 128 + cp mod 64].

Definition utf8_encode (cp : Z) : string := bytes (utf8_bytes cp).

Definition utf8_text (l : list Z) : Prop := exists cps, Forall scalar_value cps /\ l = mjoin (utf8_bytes <$> cps).

Lemma bytes_of_app s t : bytes_of (s +:+ t) = bytes_of s ++ bytes_of t.
Proof. induction s as [|c s IH]; cbn; [done|]. by rewrite IH. Qed.

Lemma bytes_of_byte s : Forall is_byte (bytes_of s).
Proof. induction s as [|c s IH]; cbn; constructor; [apply uchar_val_range|done]. Qed.

Lemma bytes_of_bytes l : Forall is_byte l -> bytes_of (bytes l) = l.
Proof. induction 1 as [|z l Hz Hl IH]; [done|]. cbn. rewrite uchar_val_chr by exact Hz. f_equal. exact IH. Qed.

Lemma bytes_bytes_of s : bytes (bytes_of s) = s.
Proof. induction s as [|c s IH]; [done|]. cbn. rewrite chr_uchar_val. f_equal. exact IH. Qed.

Lemma length_bytes_of s : Z.of_nat (length (bytes_of s)) = strlen s.
Proof. unfold strlen. f_equal. induction s as [|c s IH]; cbn; [done|]. by rewrite IH. Qed.

Lemma utf8_bytes_byte cp : scalar_value cp -> Forall is_byte (utf8_bytes cp).
Proof.
  unfold scalar_value, utf8_bytes, is_byte. intros Hcp.
  destruct (Z.ltb_spec cp 128), (Z.ltb_spec cp 2048), (Z.ltb_spec cp 65536); repeat constructor; Z.div_mod_to_equations; lia.
Qed.

Lemma utf8_bytes_cons cp : exists b l, utf8_bytes cp = b :: l.
Proof. unfold utf8_bytes. repeat case_match; by do 2 eexists. Qed.

(** A text starts with the form of its first code point. *)
Lemma utf8_text_cons l :
  l <> [] -> utf8_text l <-> exists cp l', scalar_value cp /\ l = utf8_bytes cp ++ l' /\ utf8_text l'.
Proof.
  intros Hl. split.
  - intros ([|cp cps] & Hs & ->); [done|]. inversion Hs; subst. exists cp, (mjoin (utf8_bytes <$> cps)).
    split_and!; [done|done|]. by exists cps.
  - intros (cp & l' & Hs & -> & cps & Hcps & ->). exists (cp :: cps). by split; [constructor|].
Qed.

Lemma utf8_text_nil : utf8_text [].
Proof. by exists []. Qed.
