(* ===== verification/JsonLex.v ===== *)
(** * The lexical loops of json-c (json_tokener.c, json_util.c)

    The tokener handles a whole string, comment, number or escape in a loop of
    its own, over the input from the current character on.  Each loop is a
    function of that input: the empty string is the terminating NUL. *)

From Stdlib Require Import Ascii.
From S2P Require Import Prelude CString Unicode.

Local Open Scope Z_scope.

(** ** Characters *)

Definition json_number_chars : string := "0123456789.+-eE".
Definition json_hex_chars : string := "0123456789abcdefABCDEF".

(** [c && strchr(set, c)] for a character [c] before the end of the input. *)
Definition in_chars (set : string) (c : ascii) : bool :=
  match strchr set c with Some _ => true | None => false end.

Definition jt_hexdigit (c : ascii) : Z :=
  if char_val c <=? 57 then char_val c - 48 else Z.land (char_val c) 7 + 9.

Definition IS_HIGH_SURROGATE (uc : Z) : bool := Z.land uc 0xFC00 =? 0xD800.
Definition IS_LOW_SURROGATE (uc : Z) : bool := Z.land uc 0xFC00 =? 0xDC00.
Definition DECODE_SURROGATE_PAIR (hi lo : Z) : Z :=
  Z.shiftl (Z.land hi 0x3FF) 10 + Z.land lo 0x3FF + 0x10000.

Definition utf8_replacement_char : string := bytes [0xEF; 0xBF; 0xBD].

(** The character at the start of the input. *)
Definition peek (s : string) : ascii :=
  match s with String c _ => c | EmptyString => NUL end.

(** ** Strings and comments: the run of characters before the first one that
    stops the loop, and the input from that one on. *)
Fixpoint scan_until (stop : ascii -> bool) (s : string) : string * string :=
  match s with
  | EmptyString => (EmptyString, EmptyString)
  | String c s' =>
      if stop c then (EmptyString, s)
      else let '(run, rest) := scan_until stop s' in (String c run, rest)
  end.

(** ** Infinity: [expected] is what is left of the word. *)
Fixpoint inf_scan (strict : bool) (expected s : string) : bool * string :=
  match expected with
  | EmptyString => (true, s)
  | String e expected =>
      match s with
      | EmptyString => (false, s)
      | String c s' =>
          if (if strict then c =? e else tolower c =? e)%char then inf_scan strict expected s'
          else (false, s)
      end
  end.

(** ** null, NaN, true, false *)
Fixpoint str_take (n : nat) (s : string) : string :=
  match n, s with
  | S n, String c s => String c (str_take n s)
  | _, _ => EmptyString
  end.

(** [strncmp(s, t, n) == 0] and [strncasecmp(s, t, n) == 0] *)
Definition strncmp_eq (n : nat) (s t : string) : bool :=
  bool_decide (str_take n s = str_take n t).
Definition strncasecmp_eq (n : nat) (s t : string) : bool :=
  bool_decide (str_map tolower (str_take n s) = str_map tolower (str_take n t)).

(** The test of a literal word against the text collected so far. *)
Definition word_matches (strict : bool) (word buf : string) (size : nat) : bool :=
  (negb strict && strncasecmp_eq size word (c_str buf)) || strncmp_eq size word (c_str buf).

(** ** Numbers *)
Inductive number_result :=
  | NumberDone (text : string) (is_double : bool) (rest : string)
  | NumberError (rest : string).

Fixpoint number_scan (s : string) (case_len : Z) (is_double is_exponent : bool)
    (negativesign_next_possible_location : Z) : number_result :=
  match s with
  | EmptyString => NumberDone EmptyString is_double EmptyString
  | String c s' =>
      if negb (in_chars json_number_chars c) then NumberDone EmptyString is_double s
      else
        let case_len := case_len + 1 in
        if (c =? ".")%char && is_double then NumberError s
        else
          let is_double := is_double || (c =? ".")%char in
          let e := ((c =? "e") || (c =? "E"))%char in
          if e && is_exponent then NumberError s
          else
            let is_exponent := is_exponent || e in
            let is_double := is_double || e in
            let loc := if e then case_len + 1 else negativesign_next_possible_location in
            if (c =? "-")%char && negb (case_len =? loc) then NumberError s
            else match number_scan s' case_len is_double is_exponent loc with
                 | NumberDone text d rest => NumberDone (String c text) d rest
                 | NumberError rest => NumberError rest
                 end
  end.

Definition skip_sign (s : string) : string :=
  match s with
  | String c s' => if ((c =? "-") || (c =? "+"))%char then s' else s
  | EmptyString => EmptyString
  end.

(** json_util.c: [strtoll] converts a prefix; it converts nothing when no digit
    follows the blanks and the sign. *)
Definition json_parse_int64 (buf : string) : option Z :=
  if starts_digit (skip_sign (skip_spaces buf)) then Some (strtol buf) else None.

(** [strtod] converts a prefix of a text of number characters when a digit, or
    a point and a digit, follow the sign. *)
Definition json_parse_double_ok (buf : string) : bool :=
  match skip_sign buf with
  | String "." s => starts_digit s
  | s => starts_digit s
  end.

(** ** The escape \u, from the first hexadecimal digit *)
Inductive escape_result :=
  | EscapeDone (pb : string) (rest : string)
  | EscapeError (pb : string) (rest : string).

Definition utf_2 (uc : Z) : string :=
  bytes [Z.lor 0xc0 (Z.shiftr uc 6); Z.lor 0x80 (Z.land uc 0x3f)].
Definition utf_3 (uc : Z) : string :=
  bytes [Z.lor 0xe0 (Z.shiftr uc 12); Z.lor 0x80 (Z.land (Z.shiftr uc 6) 0x3f); Z.lor 0x80 (Z.land uc 0x3f)].
Definition utf_4 (uc : Z) : string :=
  bytes [Z.lor 0xf0 (Z.land (Z.shiftr uc 18) 0x07); Z.lor 0x80 (Z.land (Z.shiftr uc 12) 0x3f);
         Z.lor 0x80 (Z.land (Z.shiftr uc 6) 0x3f); Z.lor 0x80 (Z.land uc 0x3f)].

(** A high surrogate before this sequence is joined with it or replaced. *)
Definition join_surrogate (got_hi_surrogate uc : Z) (pb : string) : Z * string :=
  if got_hi_surrogate =? 0 then (uc, pb)
  else if IS_LOW_SURROGATE uc then (DECODE_SURROGATE_PAIR got_hi_surrogate uc, pb)
  else (uc, pb +:+ utf8_replacement_char).

(** At the end the last hexadecimal digit is the current character. *)
Fixpoint escape_unicode (s : string) (st_pos : Z) (ucs_char got_hi_surrogate : Z) (pb : string) : escape_result :=
  match s with
  | EmptyString => EscapeError pb s
  | String c s' =>
      if negb (in_chars json_hex_chars c) then EscapeError pb s
      else
        let ucs_char := ucs_char + Z.shiftl (jt_hexdigit c) ((3 - st_pos) * 4) in
        let st_pos := st_pos + 1 in
        if negb (st_pos =? 4) then escape_unicode s' st_pos ucs_char got_hi_surrogate pb
        else
          let '(uc, pb) := join_surrogate got_hi_surrogate ucs_char pb in
          if uc <? 0x80 then EscapeDone (pb +:+ bytes [uc]) s
          else if uc <? 0x800 then EscapeDone (pb +:+ utf_2 uc) s
          else if IS_HIGH_SURROGATE uc then
            match s' with
            | String b (String u s'') =>
                if ((b =? "\") && (u =? "u"))%char then escape_unicode s'' 0 0 uc pb
                else EscapeDone (pb +:+ utf8_replacement_char) s
            | _ => EscapeDone (pb +:+ utf8_replacement_char) s
            end
          else if IS_LOW_SURROGATE uc then EscapeDone (pb +:+ utf8_replacement_char) s
          else if uc <? 0x10000 then EscapeDone (pb +:+ utf_3 uc) s
          else if uc <? 0x110000 then EscapeDone (pb +:+ utf_4 uc) s
          else EscapeDone (pb +:+ utf8_replacement_char) s
  end.

(** ** Reference: Unicode *)

Definition hex_digit (n : Z) : ascii := default NUL (String.get (Z.to_nat n) json_hex_chars).

Definition hex4 (v : Z) (rest : string) : string :=
  String (hex_digit (v / 4096)) (String (hex_digit (v / 256 mod 16))
    (String (hex_digit (v / 16 mod 16)) (String (hex_digit (v mod 16)) rest))).

(** What follows the first \u of the JSON escape of a code point: four digits,
    or those of the two surrogates (RFC 8259). *)
Definition unicode_escape (cp : Z) (rest : string) : string :=
  if cp <? 0x10000 then hex4 cp rest
  else hex4 (0xD800 + (cp - 0x10000) / 1024)
         (String "\" (String "u" (hex4 (0xDC00 + (cp - 0x10000) mod 1024) rest))).

(** The last digit of the escape, which is where the loop stops. *)
Definition last_digit (cp : Z) : ascii :=
  hex_digit ((if cp <? 0x10000 then cp else 0xDC00 + (cp - 0x10000) mod 1024) mod 16).

(** ** Bits as arithmetic *)

Lemma lor_0x80 b : 0 <= b < 64 -> Z.lor 0x80 b = 128 + b.
Proof. intros Hb. rewrite (lor_add _ _ 6); [lia|lia|done|lia]. Qed.
Lemma lor_0xc0 b : 0 <= b < 64 -> Z.lor 0xc0 b = 192 + b.
Proof. intros Hb. rewrite (lor_add _ _ 6); [lia|lia|done|lia]. Qed.
Lemma lor_0xe0 b : 0 <= b < 32 -> Z.lor 0xe0 b = 224 + b.
Proof. intros Hb. rewrite (lor_add _ _ 5); [lia|lia|done|lia]. Qed.
Lemma lor_0xf0 b : 0 <= b < 16 -> Z.lor 0xf0 b = 240 + b.
Proof. intros Hb. rewrite (lor_add _ _ 4); [lia|lia|done|lia]. Qed.

(** The surrogate tests look at six bits of the low sixteen. *)
Lemma land_fc00 uc : 0 <= uc -> Z.land uc 0xFC00 = uc mod 65536 - uc mod 1024.
Proof.
  intros Hu. change 0xFC00 with (Z.shiftl (Z.ones 6) 10).
  assert (Z.land uc (Z.shiftl (Z.ones 6) 10) = Z.shiftl (Z.land (Z.shiftr uc 10) (Z.ones 6)) 10) as ->.
  { apply Z.bits_inj'. intros i Hi. rewrite Z.land_spec.
    destruct (decide (i < 10)).
    - rewrite !Z.shiftl_spec_low, andb_false_r by lia. done.
    - rewrite !Z.shiftl_spec, Z.land_spec, Z.shiftr_spec by lia. do 2 f_equal. lia. }
  rewrite Z.land_ones, Z.shiftr_div_pow2, Z.shiftl_mul_pow2 by lia.
  change (2 ^ 10) with 1024. change (2 ^ 6) with 64. Z.div_mod_to_equations. lia.
Qed.

Lemma is_high_spec uc : 0 <= uc -> IS_HIGH_SURROGATE uc = true <-> 0xD800 <= uc mod 65536 < 0xDC00.
Proof. intros Hu. unfold IS_HIGH_SURROGATE. rewrite land_fc00, Z.eqb_eq by done. Z.div_mod_to_equations. lia. Qed.

Lemma is_low_spec uc : 0 <= uc -> IS_LOW_SURROGATE uc = true <-> 0xDC00 <= uc mod 65536 < 0xE000.
Proof. intros Hu. unfold IS_LOW_SURROGATE. rewrite land_fc00, Z.eqb_eq by done. Z.div_mod_to_equations. lia. Qed.

Lemma is_high_true uc : 0 <= uc -> 0xD800 <= uc mod 65536 < 0xDC00 -> IS_HIGH_SURROGATE uc = true.
Proof. intros Hu. by apply is_high_spec. Qed.

Lemma is_low_true uc : 0 <= uc -> 0xDC00 <= uc mod 65536 < 0xE000 -> IS_LOW_SURROGATE uc = true.
Proof. intros Hu. by apply is_low_spec. Qed.

Lemma is_high_false uc : 0 <= uc -> ~ 0xD800 <= uc mod 65536 < 0xDC00 -> IS_HIGH_SURROGATE uc = false.
Proof. intros Hu Hn. apply not_true_iff_false. by rewrite is_high_spec. Qed.

Lemma is_low_false uc : 0 <= uc -> ~ 0xDC00 <= uc mod 65536 < 0xE000 -> IS_LOW_SURROGATE uc = false.
Proof. intros Hu Hn. apply not_true_iff_false. by rewrite is_low_spec. Qed.

Lemma utf_2_encode uc : 0x80 <= uc < 0x800 -> utf_2 uc = utf8_encode uc.
Proof.
  intros Hu. unfold utf_2, utf8_encode, utf8_bytes. rewrite (proj2 (Z.ltb_ge _ _)), (proj2 (Z.ltb_lt _ _)) by lia.
  rewrite land_63, Z.shiftr_div_pow2 by lia. change (2 ^ 6) with 64.
  rewrite lor_0xc0, lor_0x80; [done|..]; Z.div_mod_to_equations; lia.
Qed.

Lemma utf_3_encode uc : 0x800 <= uc < 0x10000 -> utf_3 uc = utf8_encode uc.
Proof.
  intros Hu. unfold utf_3, utf8_encode, utf8_bytes.
  rewrite !(proj2 (Z.ltb_ge _ _)), (proj2 (Z.ltb_lt _ _)) by lia.
  rewrite !land_63, !Z.shiftr_div_pow2 by lia. change (2 ^ 6) with 64. change (2 ^ 12) with 4096.
  rewrite lor_0xe0, !lor_0x80; [done|..]; Z.div_mod_to_equations; lia.
Qed.

Lemma utf_4_encode uc : 0x10000 <= uc < 0x110000 -> utf_4 uc = utf8_encode uc.
Proof.
  intros Hu. unfold utf_4, utf8_encode, utf8_bytes. rewrite !(proj2 (Z.ltb_ge _ _)) by lia.
  rewrite !land_63, land_7, !Z.shiftr_div_pow2 by lia.
  change (2 ^ 6) with 64. change (2 ^ 12) with 4096. change (2 ^ 18) with 262144.
  rewrite lor_0xf0, !lor_0x80 by (Z.div_mod_to_equations; lia).
  do 2 f_equal. Z.div_mod_to_equations. lia.
Qed.

(** ** Four hexadecimal digits *)

Lemma hex_digit_ok n : 0 <= n < 16 -> in_chars json_hex_chars (hex_digit n) = true /\ jt_hexdigit (hex_digit n) = n.
Proof.
  intros Hn. assert (Z.of_nat (Z.to_nat n) = n) as <- by lia.
  assert (Z.to_nat n < 16)%nat as Hk by lia. clear Hn. revert Hk. generalize (Z.to_nat n) as k. intros k Hk.
  do 16 (destruct k as [|k]; [split; reflexivity|]). lia.
Qed.

(** What is done with a complete sequence whose last digit is [c]. *)
Definition escape_complete (uc : Z) (pb : string) (c : ascii) (s' : string) : escape_result :=
  let s := String c s' in
  if uc <? 0x80 then EscapeDone (pb +:+ bytes [uc]) s
  else if uc <? 0x800 then EscapeDone (pb +:+ utf_2 uc) s
  else if IS_HIGH_SURROGATE uc then
    match s' with
    | String b (String u s'') =>
        if ((b =? "\") && (u =? "u"))%char then escape_unicode s'' 0 0 uc pb
        else EscapeDone (pb +:+ utf8_replacement_char) s
    | _ => EscapeDone (pb +:+ utf8_replacement_char) s
    end
  else if IS_LOW_SURROGATE uc then EscapeDone (pb +:+ utf8_replacement_char) s
  else if uc <? 0x10000 then EscapeDone (pb +:+ utf_3 uc) s
  else if uc <? 0x110000 then EscapeDone (pb +:+ utf_4 uc) s
  else EscapeDone (pb +:+ utf8_replacement_char) s.

Lemma escape_step c s' st uc hi pb :
  in_chars json_hex_chars c = true -> st <> 3 ->
  escape_unicode (String c s') st uc hi pb =
    escape_unicode s' (st + 1) (uc + Z.shiftl (jt_hexdigit c) ((3 - st) * 4)) hi pb.
Proof. intros Hc Hst. cbn [escape_unicode]. rewrite Hc, (proj2 (Z.eqb_neq (st + 1) 4)) by lia. reflexivity. Qed.

Lemma escape_last c s' uc hi pb :
  in_chars json_hex_chars c = true ->
  escape_unicode (String c s') 3 uc hi pb =
    let '(uc, pb) := join_surrogate hi (uc + jt_hexdigit c) pb in escape_complete uc pb c s'.
Proof. intros Hc. cbn [escape_unicode]. rewrite Hc. change ((3 - 3) * 4) with 0. by rewrite Z.shiftl_0_r. Qed.

Lemma escape_hex4 v rest hi pb :
  0 <= v < 65536 ->
  escape_unicode (hex4 v rest) 0 0 hi pb =
    let '(uc, pb) := join_surrogate hi v pb in escape_complete uc pb (hex_digit (v mod 16)) rest.
Proof.
  intros Hv. unfold hex4.
  destruct (hex_digit_ok (v / 4096)) as [H1 E1]; [Z.div_mod_to_equations; lia|].
  destruct (hex_digit_ok (v / 256 mod 16)) as [H2 E2]; [Z.div_mod_to_equations; lia|].
  destruct (hex_digit_ok (v / 16 mod 16)) as [H3 E3]; [Z.div_mod_to_equations; lia|].
  destruct (hex_digit_ok (v mod 16)) as [H4 E4]; [Z.div_mod_to_equations; lia|].
  rewrite !escape_step by done. change (0 + 1 + 1 + 1) with 3. rewrite escape_last by done.
  rewrite E1, E2, E3, E4, !Z.shiftl_mul_pow2 by done.
  match goal with |- context [join_surrogate hi ?x pb] => replace x with v; [done|] end.
  change (2 ^ ((3 - 0) * 4)) with 4096. change (2 ^ ((3 - (0 + 1)) * 4)) with 256.
  change (2 ^ ((3 - (0 + 1 + 1)) * 4)) with 16. Z.div_mod_to_equations. lia.
Qed.

Lemma escape_complete_scalar uc pb c rest :
  scalar_value uc -> ~ 0xD800 <= uc mod 0x10000 < 0xE000 ->
  escape_complete uc pb c rest = EscapeDone (pb +:+ utf8_encode uc) (String c rest).
Proof.
  unfold scalar_value. intros Hs Hm. unfold escape_complete. cbv zeta.
  destruct (Z.ltb_spec uc 0x80).
  { unfold utf8_encode, utf8_bytes. by rewrite (proj2 (Z.ltb_lt uc 128)). }
  destruct (Z.ltb_spec uc 0x800); [by rewrite utf_2_encode by lia|].
  rewrite is_high_false, is_low_false by lia.
  destruct (Z.ltb_spec uc 0x10000); [by rewrite utf_3_encode by lia|].
  rewrite (proj2 (Z.ltb_lt uc _)), utf_4_encode by lia. done.
Qed.

Lemma decode_pair v : 0 <= v < 0x100000 ->
  DECODE_SURROGATE_PAIR (0xD800 + v / 1024) (0xDC00 + v mod 1024) = v + 0x10000.
Proof.
  intros Hv. unfold DECODE_SURROGATE_PAIR. rewrite !land_1023, Z.shiftl_mul_pow2 by lia.
  change (2 ^ 10) with 1024. Z.div_mod_to_equations. lia.
Qed.

(** The escape of a code point above the basic plane reaches the end of its
    second sequence with the code point itself. *)
Lemma escape_pair cp rest pb :
  0x10000 <= cp < 0x110000 ->
  escape_unicode (unicode_escape cp rest) 0 0 0 pb = escape_complete cp pb (last_digit cp) rest.
Proof.
  intros Hcp. unfold unicode_escape, last_digit. rewrite (proj2 (Z.ltb_ge cp _)) by lia.
  set (v := cp - 0x10000). assert (0 <= v < 0x100000) as Hv by (unfold v; lia).
  rewrite escape_hex4 by (Z.div_mod_to_equations; lia). unfold join_surrogate at 1. rewrite Z.eqb_refl.
  unfold escape_complete at 1. cbv zeta.
  rewrite !(proj2 (Z.ltb_ge _ _)) by (Z.div_mod_to_equations; lia).
  rewrite is_high_true by (Z.div_mod_to_equations; lia).
  change (("\" =? "\") && ("u" =? "u"))%char with true. cbv iota.
  rewrite escape_hex4 by (Z.div_mod_to_equations; lia).
  unfold join_surrogate. rewrite (proj2 (Z.eqb_neq _ _)) by (Z.div_mod_to_equations; lia).
  rewrite is_low_true by (Z.div_mod_to_equations; lia).
  rewrite decode_pair by done. unfold v. by replace (cp - 0x10000 + 0x10000) with cp by lia.
Qed.

(** C32: the escape of a Unicode scalar value, as one sequence or as a pair of
    surrogates, is decoded to the UTF-8 form of that value, except where the
    value's low sixteen bits are in the surrogate range. *)
Theorem escape_unicode_utf8 cp rest pb :
  scalar_value cp -> ~ 0xD800 <= cp mod 0x10000 < 0xE000 ->
  escape_unicode (unicode_escape cp rest) 0 0 0 pb =
    EscapeDone (pb +:+ utf8_encode cp) (String (last_digit cp) rest).
Proof.
  intros Hs Hm. rewrite <- escape_complete_scalar by done.
  destruct (Z.ltb_spec cp 0x10000).
  - unfold scalar_value in Hs. unfold unicode_escape, last_digit. rewrite !(proj2 (Z.ltb_lt cp _)) by done.
    by rewrite escape_hex4 by lia.
  - apply escape_pair. unfold scalar_value in Hs. lia.
Qed.

(** A code point outside the basic plane whose low sixteen bits look like a
    surrogate is lost: its pair is decoded, tested once more for being a
    surrogate, and replaced. *)
Lemma escape_unicode_replaced cp rest pb :
  0x10000 <= cp < 0x110000 -> 0xD800 <= cp mod 0x10000 < 0xE000 -> peek rest <> "\"%char ->
  escape_unicode (unicode_escape cp rest) 0 0 0 pb =
    EscapeDone (pb +:+ utf8_replacement_char) (String (last_digit cp) rest).
Proof.
  intros Hcp Hm Hr. rewrite escape_pair by done. unfold escape_complete. cbv zeta.
  rewrite !(proj2 (Z.ltb_ge _ _)) by lia.
  destruct (decide (cp mod 0x10000 < 0xDC00)).
  - rewrite is_high_true by lia. destruct rest as [|b [|u rest]]; [done..|]. cbn in Hr.
    by rewrite (proj2 (Ascii.eqb_neq b _)).
  - rewrite is_high_false by lia. by rewrite is_low_true by lia.
Qed.

(** ** The scanning loops *)

Lemma scan_until_spec stop s run rest :
  scan_until stop s = (run, rest) ->
  s = run +:+ rest /\ str_forall (fun c => negb (stop c)) run = true
  /\ (rest = EmptyString \/ exists c s', rest = String c s' /\ stop c = true).
Proof.
  revert run. induction s as [|c s IH]; intros run; cbn; [intros [= <- <-]; by auto|].
  destruct (stop c) eqn:Hc.
  - intros [= <- <-]. split_and!; [done..|]. right. eauto.
  - destruct (scan_until stop s) as [run' rest']. intros [= <- ->].
    destruct (IH run' eq_refl) as (-> & Hr & Hrest). cbn. rewrite Hc. by split_and!.
Qed.

Lemma scan_until_app stop run rest :
  str_forall (fun c => negb (stop c)) run = true -> stop (peek rest) = true \/ rest = EmptyString ->
  scan_until stop (run +:+ rest) = (run, rest).
Proof.
  intros Hr Hrest. induction run as [|c run IH]; cbn in *.
  - destruct rest as [|c rest]; [done|]. destruct Hrest as [Hrest|]; [|done]. cbn in *. by rewrite Hrest.
  - apply andb_true_iff in Hr as [Hc Hr]. apply negb_true_iff in Hc. by rewrite Hc, IH.
Qed.

Definition starts_number (s : string) : bool :=
  match s with String c _ => in_chars json_number_chars c | EmptyString => false end.

Lemma number_scan_Done s n d e k text d' rest :
  number_scan s n d e k = NumberDone text d' rest ->
  s = text +:+ rest /\ starts_number rest = false /\ number_scan text n d e k = NumberDone text d' EmptyString.
Proof.
  revert n d e k text. induction s as [|c s IH]; intros n d e k text; cbn -[in_chars]; [intros [= <- <- <-]; done|].
  destruct (in_chars json_number_chars c) eqn:Hc; cbn [negb].
  - destruct ((c =? ".")%char && d) eqn:E1; [done|]. case_match; [done|]. case_match; [done|].
    destruct (number_scan s _ _ _ _) as [text' ? ?|] eqn:E; [|done]. intros [= <- -> ->].
    destruct (IH _ _ _ _ _ E) as (-> & Hs & Ht). split_and!; [done..|].
    cbn -[in_chars]. rewrite Hc. cbn [negb]. repeat case_match; congruence.
  - intros [= <- <- <-]. split_and!; [done| |done]. by cbn -[in_chars].
Qed.

Lemma number_scan_app text n d e k d' rest :
  number_scan text n d e k = NumberDone text d' EmptyString -> starts_number rest = false ->
  number_scan (text +:+ rest) n d e k = NumberDone text d' rest.
Proof.
  intros H Hr. revert n d e k H. induction text as [|c text IH]; intros n d e k; cbn -[in_chars].
  - intros [= ->]. destruct rest as [|c rest]; [done|]. cbn -[in_chars] in Hr |- *. by rewrite Hr.
  - destruct (in_chars json_number_chars c); cbn [negb]; [|done].
    case_match; [done|]. case_match; [done|]. case_match; [done|].
    destruct (number_scan text _ _ _ _) as [text' ? ?|] eqn:E; [|done]. intros [= -> -> ->].
    by erewrite IH by done.
Qed.

Lemma isdigit_number c : isdigit c = true -> in_chars json_number_chars c = true /\
  (c =? ".")%char = false /\ (c =? "e")%char = false /\ (c =? "E")%char = false /\ (c =? "-")%char = false.
Proof. destruct c as [[] [] [] [] [] [] [] []]; vm_compute; try done. Qed.

Lemma number_scan_digits s n e k :
  str_forall isdigit s = true -> number_scan s n false e k = NumberDone s false EmptyString.
Proof.
  revert n. induction s as [|c s IH]; intros n Hs; [done|]. cbn in Hs. apply andb_true_iff in Hs as [Hc Hs].
  destruct (isdigit_number c Hc) as (H1 & H2 & H3 & H4 & H5).
  cbn -[in_chars]. rewrite H1, H2, H3, H4, H5. cbn. rewrite orb_false_r. by rewrite IH.
Qed.

(** A printed integer is scanned and read as that integer. *)
Lemma number_scan_fmt_d z : number_scan (fmt_d z) 0 false false 1 = NumberDone (fmt_d z) false EmptyString.
Proof.
  destruct (decide (0 <= z)).
  - apply number_scan_digits. by apply fmt_d_digits.
  - rewrite fmt_d_neg by lia. cbn -[in_chars pretty]. rewrite number_scan_digits by apply pretty_N_digits. done.
Qed.

Lemma json_parse_int64_fmt_d z : is_long z -> json_parse_int64 (fmt_d z) = Some z.
Proof.
  intros Hz. unfold json_parse_int64. rewrite strtol_fmt_d_all by done.
  assert (starts_digit (skip_sign (skip_spaces (fmt_d z))) = true) as ->; [|done].
  destruct (decide (0 <= z)).
  - rewrite fmt_d_nonneg by done. destruct (pretty_N_cons (Z.to_N z)) as (c & s & -> & Hc).
    cbn. rewrite isspace_not_digit by done. cbn.
    destruct (isdigit_number c Hc) as (_ & _ & _ & _ & ->).
    assert ((c =? "+")%char = false) as -> by (destruct c as [[] [] [] [] [] [] [] []]; done). done.
  - rewrite fmt_d_neg by lia. cbn. by destruct (pretty_N_cons (Z.to_N (- z))) as (c & s & -> & Hc).
Qed.

Lemma strtol_long s : is_long (strtol s).
Proof. unfold strtol, is_long, LONG_MIN, LONG_MAX. repeat case_match; lia. Qed.

Lemma json_parse_int64_long s z : json_parse_int64 s = Some z -> is_long z.
Proof. unfold json_parse_int64. case_match; [|done]. intros [= <-]. apply strtol_long. Qed.

Lemma escape_unicode_utf8_witness :
  escape_unicode (unicode_escape 0x1F600 "x") 0 0 0 "a" = EscapeDone ("a" +:+ bytes [0xF0; 0x9F; 0x98; 0x80]) "0x".
Proof. apply (escape_unicode_utf8 0x1F600 "x" "a"); [right; lia|vm_compute; by intros []]. Defined.
