(* ===== verification/Json.v ===== *)
(** * JSON documents (json-c/source/json_object.c, json_helper.c)

    A document is a tree.  An object keeps its members in the order of their
    insertion, as the linked hash table of json-c does; a null value is the
    pointer NULL, here [JNull].  A number with a fraction or an exponent is kept
    with the text it was read from, which is also what is printed for it.  The
    class [JsonCodec] is what the hub relies on: reading gives documents, and a
    printed document is read back. *)

From Stdlib Require Import Ascii.
From S2P Require Import Prelude CString JsonLex.

Local Open Scope Z_scope.

Unset Elimination Schemes.
Inductive json :=
  | JNull
  | JBool (b : bool)
  | JDouble (text : string)
  | JInt (z : Z)
  | JString (s : string)
  | JArray (l : list json)
  | JObject (m : list (string * json)).
Set Elimination Schemes.

(** Induction with the hypothesis for every element and every member. *)
Definition json_ind (P : json -> Prop)
    (Hnull : P JNull) (Hbool : forall b, P (JBool b)) (Hdouble : forall t, P (JDouble t))
    (Hint : forall z, P (JInt z)) (Hstring : forall s, P (JString s))
    (Harray : forall l, Forall P l -> P (JArray l))
    (Hobject : forall m, Forall (fun kv => P kv.2) m -> P (JObject m)) : forall j, P j :=
  fix F (j : json) : P j :=
    match j with
    | JNull => Hnull
    | JBool b => Hbool b
    | JDouble t => Hdouble t
    | JInt z => Hint z
    | JString s => Hstring s
    | JArray l => Harray l ((fix G l : Forall P l :=
        match l with [] => Forall_nil_2 _ | x :: l => Forall_cons_2 _ _ _ (F x) (G l) end) l)
    | JObject m => Hobject m ((fix G m : Forall (fun kv => P kv.2) m :=
        match m with [] => Forall_nil_2 _ | kv :: m => Forall_cons_2 _ _ _ (F kv.2) (G m) end) m)
    end.

(** ** Objects *)

Fixpoint members_get (m : list (string * json)) (key : string) : option json :=
  match m with
  | [] => None
  | (k, v) :: m => if decide (k = key) then Some v else members_get m key
  end.

(** Replaces the value of an existing key, appends a new one. *)
Fixpoint members_add (m : list (string * json)) (key : string) (val : json) : list (string * json) :=
  match m with
  | [] => [(key, val)]
  | (k, v) :: m => if decide (k = key) then (k, val) :: m else (k, v) :: members_add m key val
  end.

Definition json_object_object_get_ex (j : json) (key : string) : option json :=
  match j with
  | JObject m => members_get m key
  | _ => None
  end.

Definition json_object_object_add (j : json) (key : string) (val : json) : json :=
  match j with
  | JObject m => JObject (members_add m key val)
  | _ => j
  end.

Definition json_object_get_int (z : Z) : Z :=
  if z <=? INT_MIN then INT_MIN else if INT_MAX <=? z then INT_MAX else z.

(** ** json_helper.c *)
Definition JSON_HELPER_OK : Z := 0.
Definition JSON_HELPER_ERROR_NO_NODE : Z := -2.
Definition JSON_HELPER_ERROR_TYPE_NOT_MATCH : Z := -3.

(** The result code, the value stored through the out parameter when the code
    is [JSON_HELPER_OK], and the text left in [errorMsg] otherwise. *)
Definition helper_result (A : Type) : Type := Z * option A * string.

Definition no_node (key : string) : string := "no node '" +:+ key +:+ "'".
Definition not_a (key what : string) : string := "node '" +:+ key +:+ "' is not a " +:+ what.

Definition json_helper_get_string (j : json) (key : string) : helper_result string :=
  match json_object_object_get_ex j key with
  | Some (JString s) => (JSON_HELPER_OK, Some (c_str s), EmptyString)
  | Some _ => (JSON_HELPER_ERROR_TYPE_NOT_MATCH, None, not_a key "string")
  | None => (JSON_HELPER_ERROR_NO_NODE, None, no_node key)
  end.

Definition json_helper_get_object (j : json) (key : string) : helper_result json :=
  match json_object_object_get_ex j key with
  | Some (JObject m) => (JSON_HELPER_OK, Some (JObject m), EmptyString)
  | Some _ => (JSON_HELPER_ERROR_TYPE_NOT_MATCH, None, not_a key "JSON object")
  | None => (JSON_HELPER_ERROR_NO_NODE, None, no_node key)
  end.

Definition json_helper_get_int64 (j : json) (key : string) : helper_result Z :=
  match json_object_object_get_ex j key with
  | Some (JInt z) => (JSON_HELPER_OK, Some z, EmptyString)
  | Some _ => (JSON_HELPER_ERROR_TYPE_NOT_MATCH, None, not_a key "int64")
  | None => (JSON_HELPER_ERROR_NO_NODE, None, no_node key)
  end.

Definition json_helper_get_int (j : json) (key : string) : helper_result Z :=
  match json_object_object_get_ex j key with
  | Some (JInt z) => (JSON_HELPER_OK, Some (json_object_get_int z), EmptyString)
  | Some _ => (JSON_HELPER_ERROR_TYPE_NOT_MATCH, None, not_a key "int")
  | None => (JSON_HELPER_ERROR_NO_NODE, None, no_node key)
  end.

Definition json_helper_get_double (j : json) (key : string) : helper_result string :=
  match json_object_object_get_ex j key with
  | Some (JDouble d) => (JSON_HELPER_OK, Some d, EmptyString)
  | Some _ => (JSON_HELPER_ERROR_TYPE_NOT_MATCH, None, not_a key "double")
  | None => (JSON_HELPER_ERROR_NO_NODE, None, no_node key)
  end.

(** ** Well-formed documents *)

(** How many levels of nesting a document takes. *)
Fixpoint json_height (j : json) : nat :=
  match j with
  | JArray l => S (max_list (map json_height l))
  | JObject m => S (max_list (map (fun kv => json_height kv.2) m))
  | _ => 1
  end.

(** The texts that stand for a number with a fraction or an exponent. *)
Definition double_text (t : string) : bool :=
  bool_decide (t = "NaN" \/ t = "Infinity" \/ t = "-Infinity") ||
  match number_scan t 0 false false 1 with
  | NumberDone _ is_double EmptyString => is_double && json_parse_double_ok t && (starts_digit t || (peek t =? "-")%char)
  | _ => false
  end.

(** What the constructors of json-c can build: integers of 64 bits, numbers in
    their written form, distinct keys that are C strings. *)
Inductive json_wf : json -> Prop :=
  | wf_null : json_wf JNull
  | wf_bool b : json_wf (JBool b)
  | wf_double t : double_text t = true -> json_wf (JDouble t)
  | wf_int z : is_long z -> json_wf (JInt z)
  | wf_string s : json_wf (JString s)
  | wf_array l : Forall json_wf l -> json_wf (JArray l)
  | wf_object m :
      NoDup m.*1 -> Forall (fun kv => no_nul kv.1 = true /\ json_wf kv.2) m -> json_wf (JObject m).

(** A document that fits a tokener of the given depth. *)
Definition json_document (depth : nat) (j : json) : Prop := json_wf j /\ (json_height j <= depth)%nat.

Definition JSON_TOKENER_DEFAULT_DEPTH : nat := 32.
Definition INT32_MAX : Z := INT_MAX.

(** What a reader and a printer of JSON promise to the programs that keep
    documents as text. *)
Class JsonCodec (parse : string -> option json) (print : json -> string) : Prop := {
  codec_document s j : parse s = Some j -> json_document JSON_TOKENER_DEFAULT_DEPTH j;
  codec_read_back j :
    json_document JSON_TOKENER_DEFAULT_DEPTH j -> j <> JNull -> strlen (print j) <= INT32_MAX ->
    parse (print j) = Some j
}.

(** ** Members of an object *)

Lemma members_get_add m k v : members_get (members_add m k v) k = Some v.
Proof.
  induction m as [|[k' v'] m IH]; cbn; [by rewrite decide_True|].
  case_decide; cbn; [by rewrite decide_True|]. by rewrite decide_False.
Qed.

Lemma members_get_add_ne m k k' v : k <> k' -> members_get (members_add m k v) k' = members_get m k'.
Proof.
  intros Hk. induction m as [|[k0 v0] m IH]; cbn; [by rewrite decide_False|].
  destruct (decide (k0 = k)) as [->|]; cbn; [by rewrite !decide_False|]. by rewrite IH.
Qed.

Lemma members_add_same m k v : members_get m k = Some v -> members_add m k v = m.
Proof.
  induction m as [|[k0 v0] m IH]; cbn; [done|]. case_decide; [by intros [= ->]|].
  intros Hm. by rewrite IH.
Qed.

Lemma get_add j k v : (exists m, j = JObject m) -> json_object_object_get_ex (json_object_object_add j k v) k = Some v.
Proof. intros [m ->]. apply members_get_add. Qed.

Lemma get_add_ne j k k' v :
  k <> k' -> json_object_object_get_ex (json_object_object_add j k v) k' = json_object_object_get_ex j k'.
Proof. intros Hk. destruct j; cbn; try done. by apply members_get_add_ne. Qed.

Lemma add_same j k v : json_object_object_get_ex j k = Some v -> json_object_object_add j k v = j.
Proof. destruct j; cbn; try done. intros H. by rewrite members_add_same. Qed.

(** ** Well-formedness of members *)

Lemma members_add_keys m k v :
  (members_add m k v).*1 = if decide (k ∈ m.*1) then m.*1 else m.*1 ++ [k].
Proof.
  induction m as [|[k' v'] m IH]; cbn -[decide]; [by rewrite decide_False by set_solver|].
  destruct (decide (k' = k)) as [->|]; cbn -[decide].
  - by rewrite decide_True by set_solver.
  - rewrite IH. destruct (decide (k ∈ m.*1)); [rewrite decide_True by set_solver|rewrite decide_False by set_solver]; done.
Qed.

Lemma members_add_Forall (P : string * json -> Prop) m k v :
  Forall P m -> P (k, v) -> Forall P (members_add m k v).
Proof.
  intros Hm Hkv. induction Hm as [|[k' v'] m Hk Hm IH]; cbn; [by constructor|].
  case_decide as Hd; [subst|]; by constructor.
Qed.

Lemma members_add_NoDup m k v : NoDup m.*1 -> NoDup (members_add m k v).*1.
Proof.
  intros Hm. rewrite members_add_keys. case_decide; [done|]. apply NoDup_app. split_and!; [done|set_solver|by apply NoDup_singleton].
Qed.

Lemma json_wf_object_add j k v :
  json_wf j -> no_nul k = true -> json_wf v -> json_wf (json_object_object_add j k v).
Proof.
  intros Hj Hk Hv. destruct Hj; cbn; try by constructor.
  constructor; [by apply members_add_NoDup|]. by apply members_add_Forall.
Qed.

Lemma max_list_le (l : list nat) n : (max_list l <= n)%nat <-> Forall (fun x => (x <= n)%nat) l.
Proof.
  induction l as [|x l IH]; cbn; [split; [by constructor|lia]|]. rewrite Forall_cons, <- IH. lia.
Qed.

Lemma json_height_pos j : (1 <= json_height j)%nat.
Proof. destruct j; cbn; lia. Qed.

Lemma json_height_array l n : (json_height (JArray l) <= S n)%nat <-> Forall (fun j => json_height j <= n)%nat l.
Proof. cbn. rewrite <- Nat.succ_le_mono, max_list_le, Forall_map. done. Qed.

Lemma json_height_object m n :
  (json_height (JObject m) <= S n)%nat <-> Forall (fun kv => json_height kv.2 <= n)%nat m.
Proof. cbn. rewrite <- Nat.succ_le_mono, max_list_le, Forall_map. done. Qed.

Lemma json_height_object_add j k v n :
  (json_height j <= S n)%nat -> (json_height v <= n)%nat -> (json_height (json_object_object_add j k v) <= S n)%nat.
Proof.
  intros Hj Hv. destruct j as [| | | | | |m]; cbn [json_object_object_add]; try done.
  apply json_height_object. apply json_height_object in Hj. by apply members_add_Forall.
Qed.

Lemma members_get_Forall (P : json -> Prop) m k v :
  Forall (fun kv => P kv.2) m -> members_get m k = Some v -> P v.
Proof.
  intros Hm. induction Hm as [|[k' v'] m Hk Hm IH]; cbn; [done|]. case_decide; [by intros [= ->]|done].
Qed.

Lemma json_document_get n j k v :
  json_document (S n) j -> json_object_object_get_ex j k = Some v -> json_document n v.
Proof.
  intros [Hw Hh]. destruct Hw as [| | | | | |m Hk Hm]; cbn [json_object_object_get_ex]; try done. intros Hv. split.
  - eapply (members_get_Forall _ m); [|done]. eapply Forall_impl; [done|]. by intros ? [].
  - apply json_height_object in Hh. by eapply (members_get_Forall (fun j => json_height j <= n)%nat m).
Qed.

Lemma json_document_add n j k v :
  json_document (S n) j -> no_nul k = true -> json_document n v -> json_document (S n) (json_object_object_add j k v).
Proof. intros [] ? []. split; [by apply json_wf_object_add|by apply json_height_object_add]. Qed.

Lemma json_document_weaken n n' j : (n <= n')%nat -> json_document n j -> json_document n' j.
Proof. intros ? []. split; [done|lia]. Qed.

#[export] Hint Resolve json_document_add json_wf_object_add : hub.
