(* ===== verification/JsonPrint.v ===== *)
(** * Printing JSON (json-c/source/json_object.c)

    [json_escape_str] copies runs of plain characters and writes escapes
    between them; the printer of an object or array calls the printers of its
    values.  All formatting flags are modelled. *)

From Stdlib Require Import Ascii.
From S2P Require Import Prelude CString JsonLex Json.

Local Open Scope Z_scope.

Definition JSON_C_TO_STRING_PLAIN : Z := 0.
Definition JSON_C_TO_STRING_SPACED : Z := 1.
Definition JSON_C_TO_STRING_PRETTY : Z := 2.
Definition JSON_C_TO_STRING_PRETTY_TAB : Z := 8.
Definition JSON_C_TO_STRING_NOSLASHESCAPE : Z := 16.

Definition TAB : ascii := chr 9.
Definition BACKSPACE : ascii := chr 8.
Definition FORMFEED : ascii := chr 12.

Definition one (c : ascii) : string := String c EmptyString.

Section printer.
Variable flags : Z.

Definition flag (f : Z) : bool := negb (Z.land flags f =? 0).

(** ** json_escape_str *)

(** The characters of the first switch: the text that replaces them. *)
Definition named_escape (c : ascii) : option string :=
  if (c =? BACKSPACE)%char then Some "\b"
  else if (c =? LF)%char then Some "\n"
  else if (c =? CR)%char then Some "\r"
  else if (c =? TAB)%char then Some "\t"
  else if (c =? FORMFEED)%char then Some "\f"
  else if (c =? DQUOTE)%char then Some (String "\" (one DQUOTE))
  else if (c =? "\")%char then Some "\\"
  else if (c =? "/")%char then Some "\/"
  else None.

(** "\\u00%c%c" *)
Definition control_escape (c : ascii) : string :=
  "\u00" +:+ String (hex_digit (Z.shiftr (uchar_val c) 4)) (one (hex_digit (Z.land (uchar_val c) 0xf))).

(** [run] is the text from start_offset to pos that is not yet copied. *)
Fixpoint json_escape_loop (str run pb : string) : string :=
  match str with
  | EmptyString => if 0 <? strlen run then pb +:+ run else pb
  | String c str =>
      match named_escape c with
      | Some e =>
          if flag JSON_C_TO_STRING_NOSLASHESCAPE && (c =? "/")%char then json_escape_loop str (run +:+ one c) pb
          else json_escape_loop str EmptyString ((if 0 <? strlen run then pb +:+ run else pb) +:+ e)
      | None =>
          if uchar_val c <? uchar_val " " then
            json_escape_loop str EmptyString ((if 0 <? strlen run then pb +:+ run else pb) +:+ control_escape c)
          else json_escape_loop str (run +:+ one c) pb
      end
  end.

Definition json_escape_str (str : string) : string := json_escape_loop str EmptyString EmptyString.

(** ** Values *)

Definition str_repeat (n : nat) (c : ascii) : string := String.concat EmptyString (replicate n (one c)).

Definition indent (level : nat) : string :=
  if flag JSON_C_TO_STRING_PRETTY then
    if flag JSON_C_TO_STRING_PRETTY_TAB then str_repeat level TAB else str_repeat (level * 2) SPACE
  else EmptyString.

Definition newline : string := if flag JSON_C_TO_STRING_PRETTY then one LF else EmptyString.
Definition space : string := if flag JSON_C_TO_STRING_SPACED then one SPACE else EmptyString.

Definition separator (had_children : bool) : string := if had_children then "," +:+ newline else EmptyString.

(** What ends an object or array. *)
Definition closing (level : nat) (had_children : bool) (close : string) : string :=
  (if flag JSON_C_TO_STRING_PRETTY then (if had_children then one LF else EmptyString) +:+ indent level else EmptyString)
  +:+ (if flag JSON_C_TO_STRING_SPACED then " " +:+ close else close).

(** [print] is the printer of a value, one level deeper. *)
Fixpoint object_members (print : json -> string) (level : nat) (m : list (string * json)) (had_children : bool) : string :=
  match m with
  | [] => EmptyString
  | (k, v) :: m =>
      separator had_children +:+ space +:+ indent (S level) +:+ one DQUOTE +:+ json_escape_str (c_str k)
      +:+ (one DQUOTE +:+ ":" +:+ space) +:+ print v +:+ object_members print level m true
  end.

Definition json_object_object_to_json_string (print : json -> string) (level : nat) (m : list (string * json)) : string :=
  "{" +:+ newline +:+ object_members print level m false
  +:+ closing level (match m with [] => false | _ => true end) "}".

Fixpoint array_elements (print : json -> string) (level : nat) (l : list json) (had_children : bool) : string :=
  match l with
  | [] => EmptyString
  | v :: l =>
      separator had_children +:+ space +:+ indent (S level) +:+ print v +:+ array_elements print level l true
  end.

Definition json_object_array_to_json_string (print : json -> string) (level : nat) (l : list json) : string :=
  "[" +:+ newline +:+ array_elements print level l false
  +:+ closing level (match l with [] => false | _ => true end) "]".

Definition json_object_boolean_to_json_string (b : bool) : string := if b then "true" else "false".

(** char sbuf[21], filled by snprintf *)
Definition json_object_int_to_json_string (z : Z) : string := str_take 20 (fmt_d z).

Definition json_object_string_to_json_string (s : string) : string :=
  one DQUOTE +:+ json_escape_str s +:+ one DQUOTE.

(** The serializer that the constructor installed in the value. *)
Fixpoint _to_json_string (level : nat) (j : json) : string :=
  match j with
  | JNull => "null"
  | JBool b => json_object_boolean_to_json_string b
  | JDouble t => t
  | JInt z => json_object_int_to_json_string z
  | JString s => json_object_string_to_json_string s
  | JArray l => json_object_array_to_json_string (_to_json_string (S level)) level l
  | JObject m => json_object_object_to_json_string (_to_json_string (S level)) level m
  end.

Definition json_object_to_json_string_ext (j : json) : string := _to_json_string 0 j.

(** ** The escapes one character at a time *)

Definition escape_char (c : ascii) : string :=
  match named_escape c with
  | Some e => if flag JSON_C_TO_STRING_NOSLASHESCAPE && (c =? "/")%char then one c else e
  | None => if uchar_val c <? 32 then control_escape c else one c
  end.

Fixpoint escape_chars (s : string) : string :=
  match s with
  | EmptyString => EmptyString
  | String c s => escape_char c +:+ escape_chars s
  end.

Lemma append_run run pb : (if 0 <? strlen run then pb +:+ run else pb) = pb +:+ run.
Proof. destruct run; [by rewrite str_app_nil_r|]. rewrite strlen_cons. pose proof (strlen_nonneg run). by rewrite (proj2 (Z.ltb_lt _ _)) by lia. Qed.

Lemma json_escape_loop_eq str run pb : json_escape_loop str run pb = pb +:+ run +:+ escape_chars str.
Proof.
  revert run pb. induction str as [|c str IH]; intros run pb; cbn -[Z.ltb].
  - by rewrite append_run, str_app_nil_r.
  - unfold escape_char. rewrite !append_run. change (uchar_val " ") with 32.
    destruct (named_escape c); [destruct (flag _ && _)|destruct (uchar_val c <? 32)]; rewrite IH;
      by rewrite <- ?str_app_assoc.
Qed.

(** Json_escape_str, which copies runs of unescaped characters, computes
    the character-by-character escape of the text, whatever the flags. *)
Theorem json_escape_str_chars str : json_escape_str str = escape_chars str.
Proof. apply json_escape_loop_eq. Qed.
End printer.
