(* ===== verification/JsonTokener.v ===== *)
(** * Reading JSON (json-c/source/json_tokener.c)

    The tokener is a machine over the characters of the text with a stack of
    levels, one per open array or object.  [tokener_step] is the body of its
    main loop for the current character: it goes round again with the same
    character ([goto redo_char]), advances, or leaves.  [strict] is the flag
    JSON_TOKENER_STRICT, [max_depth] the size of the stack. *)

From Stdlib Require Import Ascii.
From S2P Require Import Prelude CString JsonLex Json.

Local Open Scope Z_scope.

Inductive json_tokener_state :=
  | json_tokener_state_eatws
  | json_tokener_state_start
  | json_tokener_state_finish
  | json_tokener_state_null
  | json_tokener_state_comment_start
  | json_tokener_state_comment
  | json_tokener_state_comment_eol
  | json_tokener_state_comment_end
  | json_tokener_state_string
  | json_tokener_state_string_escape
  | json_tokener_state_escape_unicode
  | json_tokener_state_boolean
  | json_tokener_state_number
  | json_tokener_state_array
  | json_tokener_state_array_add
  | json_tokener_state_array_sep
  | json_tokener_state_object_field_start
  | json_tokener_state_object_field
  | json_tokener_state_object_field_end
  | json_tokener_state_object_value
  | json_tokener_state_object_value_add
  | json_tokener_state_object_sep
  | json_tokener_state_array_after_sep
  | json_tokener_state_object_field_start_after_sep
  | json_tokener_state_inf.

#[global] Instance json_tokener_state_eq_dec : EqDecision json_tokener_state.
Proof. solve_decision. Defined.

Inductive json_tokener_error :=
  | json_tokener_success
  | json_tokener_continue
  | json_tokener_error_depth
  | json_tokener_error_parse_eof
  | json_tokener_error_parse_unexpected
  | json_tokener_error_parse_null
  | json_tokener_error_parse_boolean
  | json_tokener_error_parse_number
  | json_tokener_error_parse_array
  | json_tokener_error_parse_object_key_name
  | json_tokener_error_parse_object_key_sep
  | json_tokener_error_parse_object_value_sep
  | json_tokener_error_parse_string
  | json_tokener_error_parse_comment
  | json_tokener_error_size.

#[global] Instance json_tokener_error_eq_dec : EqDecision json_tokener_error.
Proof. solve_decision. Defined.

Definition json_tokener_error_desc (jerr : json_tokener_error) : string :=
  match jerr with
  | json_tokener_success => "success"
  | json_tokener_continue => "continue"
  | json_tokener_error_depth => "nesting too deep"
  | json_tokener_error_parse_eof => "unexpected end of data"
  | json_tokener_error_parse_unexpected => "unexpected character"
  | json_tokener_error_parse_null => "null expected"
  | json_tokener_error_parse_boolean => "boolean expected"
  | json_tokener_error_parse_number => "number expected"
  | json_tokener_error_parse_array => "array value separator ',' expected"
  | json_tokener_error_parse_object_key_name => "quoted object property name expected"
  | json_tokener_error_parse_object_key_sep => "object property name separator ':' expected"
  | json_tokener_error_parse_object_value_sep => "object value separator ',' expected"
  | json_tokener_error_parse_string => "invalid string sequence"
  | json_tokener_error_parse_comment => "expected comment"
  | json_tokener_error_size => "buffer size overflow"
  end.

(** struct json_tokener_srec *)
Record srec := {
  state : json_tokener_state;
  saved_state : json_tokener_state;
  current : json;
  obj_field_name : option string
}.

(** struct json_tokener: the level of [depth] and the levels below it, whose
    number is [depth]. *)
Record tokener := {
  top : srec;
  below : list srec;
  pb : string;
  is_double : bool;
  st_pos : nat;
  err : json_tokener_error;
  quote_char : ascii
}.

Definition depth (t : tokener) : nat := length (below t).

(** json_tokener_reset_level *)
Definition json_tokener_reset_level : srec :=
  {| state := json_tokener_state_eatws; saved_state := json_tokener_state_start;
     current := JNull; obj_field_name := None |}.

Definition json_tokener_new : tokener :=
  {| top := json_tokener_reset_level; below := []; pb := EmptyString; is_double := false; st_pos := 0;
     err := json_tokener_success; quote_char := NUL |}.

(** ** Assignments *)

Definition with_top (t : tokener) (r : srec) : tokener :=
  {| top := r; below := below t; pb := pb t; is_double := is_double t; st_pos := st_pos t; err := err t;
     quote_char := quote_char t |}.
Definition with_pb (t : tokener) (s : string) : tokener :=
  {| top := top t; below := below t; pb := s; is_double := is_double t; st_pos := st_pos t; err := err t;
     quote_char := quote_char t |}.
Definition with_is_double (t : tokener) (d : bool) : tokener :=
  {| top := top t; below := below t; pb := pb t; is_double := d; st_pos := st_pos t; err := err t;
     quote_char := quote_char t |}.
Definition with_st_pos (t : tokener) (n : nat) : tokener :=
  {| top := top t; below := below t; pb := pb t; is_double := is_double t; st_pos := n; err := err t;
     quote_char := quote_char t |}.
Definition with_err (t : tokener) (e : json_tokener_error) : tokener :=
  {| top := top t; below := below t; pb := pb t; is_double := is_double t; st_pos := st_pos t; err := e;
     quote_char := quote_char t |}.
Definition with_quote_char (t : tokener) (c : ascii) : tokener :=
  {| top := top t; below := below t; pb := pb t; is_double := is_double t; st_pos := st_pos t; err := err t;
     quote_char := c |}.
Definition with_levels (t : tokener) (r : srec) (rs : list srec) : tokener :=
  {| top := r; below := rs; pb := pb t; is_double := is_double t; st_pos := st_pos t; err := err t;
     quote_char := quote_char t |}.

Definition srec_state (r : srec) (s : json_tokener_state) : srec :=
  {| state := s; saved_state := saved_state r; current := current r; obj_field_name := obj_field_name r |}.

(** state = s *)
Definition set_state (t : tokener) (s : json_tokener_state) : tokener := with_top t (srec_state (top t) s).
(** saved_state = s; state = json_tokener_state_eatws *)
Definition eatws_then (t : tokener) (s : json_tokener_state) : tokener :=
  with_top t {| state := json_tokener_state_eatws; saved_state := s; current := current (top t);
                obj_field_name := obj_field_name (top t) |}.
(** saved_state = s; state = json_tokener_state_string_escape *)
Definition escape_then (t : tokener) (s : json_tokener_state) : tokener :=
  with_top t {| state := json_tokener_state_string_escape; saved_state := s; current := current (top t);
                obj_field_name := obj_field_name (top t) |}.
(** current = j *)
Definition set_current (t : tokener) (j : json) : tokener :=
  with_top t {| state := state (top t); saved_state := saved_state (top t); current := j;
                obj_field_name := obj_field_name (top t) |}.
(** obj_field_name = k *)
Definition set_field_name (t : tokener) (k : option string) : tokener :=
  with_top t {| state := state (top t); saved_state := saved_state (top t); current := current (top t);
                obj_field_name := k |}.

(** A value is complete: current = j; saved_state = finish; state = eatws. *)
Definition finish_value (t : tokener) (j : json) : tokener :=
  eatws_then (set_current t j) json_tokener_state_finish.

(** How the body of the main loop ends; the string is the input from the
    current character on, and [obj] the local variable of that name. *)
Inductive flow :=
  | Redo (t : tokener) (obj : json) (s : string)
  | Advance (t : tokener) (obj : json) (s : string)
  | Out (t : tokener) (s : string).

Section tokener_loop.
Variable strict : bool.
Variable max_depth : nat.

Definition fail (t : tokener) (e : json_tokener_error) (s : string) : flow := Out (with_err t e) s.

(** ** The states of the machine *)

Definition do_eatws (t : tokener) (obj : json) (s : string) : flow :=
  let s := skip_spaces s in
  if (peek s =? "/")%char && negb strict then
    Advance (set_state (with_pb t (String (peek s) EmptyString)) json_tokener_state_comment_start) obj s
  else Redo (set_state t (saved_state (top t))) obj s.

Definition do_start (t : tokener) (obj : json) (s : string) : flow :=
  let c := peek s in
  let word (st : json_tokener_state) := Redo (with_st_pos (with_pb (set_state t st) EmptyString) 0) obj s in
  if (c =? "{")%char then
    Advance (set_current (eatws_then t json_tokener_state_object_field_start) (JObject [])) obj s
  else if (c =? "[")%char then Advance (set_current (eatws_then t json_tokener_state_array) (JArray [])) obj s
  else if ((c =? "I") || (c =? "i"))%char then word json_tokener_state_inf
  else if ((c =? "N") || (c =? "n"))%char then word json_tokener_state_null
  else if (c =? "'")%char && strict then fail t json_tokener_error_parse_unexpected s
  else if ((c =? "'") || (c =? DQUOTE))%char then
    Advance (with_quote_char (with_pb (set_state t json_tokener_state_string) EmptyString) c) obj s
  else if ((c =? "T") || (c =? "t") || (c =? "F") || (c =? "f"))%char then word json_tokener_state_boolean
  else if isdigit c || (c =? "-")%char then
    Redo (with_is_double (with_pb (set_state t json_tokener_state_number) EmptyString) false) obj s
  else fail t json_tokener_error_parse_unexpected s.

Definition do_finish (t : tokener) (s : string) : flow :=
  match below t with
  | [] => Out t s
  | r :: rs => Redo (with_levels t r rs) (current (top t)) s
  end.

Definition do_inf (t : tokener) (obj : json) (s : string) : flow :=
  match inf_scan strict (if strict then "Infinity" else "infinity") s with
  | (false, s) => fail t json_tokener_error_parse_unexpected s
  | (true, s) => Redo (finish_value t (JDouble (if (peek (pb t) =? "-")%char then "-Infinity" else "Infinity"))) obj s
  end.

Definition do_null (t : tokener) (obj : json) (s : string) : flow :=
  let t := with_pb t (pb t +:+ String (peek s) EmptyString) in
  let next := Advance (with_st_pos t (S (st_pos t))) obj s in
  if word_matches strict "null" (pb t) (Nat.min (st_pos t + 1) 4) then
    if decide (st_pos t = 4%nat) then Redo (finish_value t JNull) obj s else next
  else if word_matches strict "NaN" (pb t) (Nat.min (st_pos t + 1) 3) then
    if decide (st_pos t = 3%nat) then Redo (finish_value t (JDouble "NaN")) obj s else next
  else fail t json_tokener_error_parse_null s.

Definition do_comment_start (t : tokener) (obj : json) (s : string) : flow :=
  let c := peek s in
  let t' := with_pb t (pb t +:+ String c EmptyString) in
  if (c =? "*")%char then Advance (set_state t' json_tokener_state_comment) obj s
  else if (c =? "/")%char then Advance (set_state t' json_tokener_state_comment_eol) obj s
  else fail t json_tokener_error_parse_comment s.

Definition do_comment (t : tokener) (obj : json) (s : string) : flow :=
  let '(run, rest) := scan_until (fun c => c =? "*")%char s in
  let t := with_pb t (pb t +:+ run +:+ String (peek rest) EmptyString) in
  match rest with
  | EmptyString => Out t rest
  | _ => Advance (set_state t json_tokener_state_comment_end) obj rest
  end.

Definition do_comment_eol (t : tokener) (obj : json) (s : string) : flow :=
  let '(run, rest) := scan_until (fun c => c =? LF)%char s in
  match rest with
  | EmptyString => Out (with_pb t (pb t +:+ run +:+ String NUL EmptyString)) rest
  | _ => Advance (set_state (with_pb t (pb t +:+ run)) json_tokener_state_eatws) obj rest
  end.

Definition do_comment_end (t : tokener) (obj : json) (s : string) : flow :=
  let t := with_pb t (pb t +:+ String (peek s) EmptyString) in
  Advance (set_state t (if (peek s =? "/")%char then json_tokener_state_eatws else json_tokener_state_comment)) obj s.

(** The text of a string or of a key up to its closing quote or an escape. *)
Definition scan_quoted (t : tokener) (s : string) : string * string :=
  scan_until (fun c => (c =? quote_char t) || (c =? "\"))%char s.

Definition do_string (t : tokener) (obj : json) (s : string) : flow :=
  let '(run, rest) := scan_quoted t s in
  match rest with
  | EmptyString => Out (with_pb t (pb t +:+ run +:+ String NUL EmptyString)) rest
  | String c _ =>
      let t := with_pb t (pb t +:+ run) in
      if (c =? quote_char t)%char then Advance (finish_value t (JString (pb t))) obj rest
      else Advance (escape_then t json_tokener_state_string) obj rest
  end.

Definition do_string_escape (t : tokener) (obj : json) (s : string) : flow :=
  let c := peek s in
  let add (d : ascii) :=
    Advance (set_state (with_pb t (pb t +:+ String d EmptyString)) (saved_state (top t))) obj s in
  if ((c =? DQUOTE) || (c =? "\") || (c =? "/"))%char then add c
  else if (c =? "b")%char then add (chr 8)
  else if (c =? "n")%char then add (chr 10)
  else if (c =? "r")%char then add (chr 13)
  else if (c =? "t")%char then add (chr 9)
  else if (c =? "f")%char then add (chr 12)
  else if (c =? "u")%char then Advance (set_state (with_st_pos t 0) json_tokener_state_escape_unicode) obj s
  else fail t json_tokener_error_parse_string s.

Definition do_escape_unicode (t : tokener) (obj : json) (s : string) : flow :=
  match escape_unicode s 0 0 0 (pb t) with
  | EscapeDone buf rest => Advance (set_state (with_pb t buf) (saved_state (top t))) obj rest
  | EscapeError buf rest => fail (with_pb t buf) json_tokener_error_parse_string rest
  end.

Definition do_boolean (t : tokener) (obj : json) (s : string) : flow :=
  let t := with_pb t (pb t +:+ String (peek s) EmptyString) in
  let next := Advance (with_st_pos t (S (st_pos t))) obj s in
  if word_matches strict "true" (pb t) (Nat.min (st_pos t + 1) 4) then
    if decide (st_pos t = 4%nat) then Redo (finish_value t (JBool true)) obj s else next
  else if word_matches strict "false" (pb t) (Nat.min (st_pos t + 1) 5) then
    if decide (st_pos t = 5%nat) then Redo (finish_value t (JBool false)) obj s else next
  else fail t json_tokener_error_parse_boolean s.

(** The value of the number in the buffer. *)
Definition number_value (buf : string) (is_double : bool) : option json :=
  if is_double then if json_parse_double_ok buf then Some (JDouble buf) else None
  else match json_parse_int64 buf with
       | Some num64 =>
           if negb (num64 =? 0) && (peek buf =? "0")%char && strict then None else Some (JInt num64)
       | None => None
       end.

Definition do_number (t : tokener) (obj : json) (s : string) : flow :=
  match number_scan s 0 (is_double t) false 1 with
  | NumberError rest => fail t json_tokener_error_parse_number rest
  | NumberDone text d rest =>
      let t := with_is_double (with_pb t (pb t +:+ text)) d in
      if ((peek (pb t) =? "-")%char && (strlen text <=? 1) && ((peek rest =? "i") || (peek rest =? "I"))%char)%bool then
        Redo (with_st_pos (set_state t json_tokener_state_inf) 0) obj rest
      else match number_value (pb t) d with
           | Some j => Redo (finish_value t j) obj rest
           | None => fail t json_tokener_error_parse_number rest
           end
  end.

(** tok->depth++ after state = s *)
Definition push (t : tokener) (s : json_tokener_state) : tokener :=
  with_levels t json_tokener_reset_level (srec_state (top t) s :: below t).

Definition do_array (t : tokener) (obj : json) (s : string) : flow :=
  if (peek s =? "]")%char then
    if bool_decide (state (top t) = json_tokener_state_array_after_sep) && strict
    then fail t json_tokener_error_parse_unexpected s
    else Advance (eatws_then t json_tokener_state_finish) obj s
  else if decide (max_depth - 1 <= depth t)%nat then fail t json_tokener_error_depth s
  else Redo (push t json_tokener_state_array_add) obj s.

Definition do_array_add (t : tokener) (obj : json) (s : string) : comp flow :=
  match current (top t) with
  | JArray l => Ret (Redo (eatws_then (set_current t (JArray (l ++ [obj]))) json_tokener_state_array_sep) obj s)
  | _ => Err AssertFailed
  end.

Definition do_array_sep (t : tokener) (obj : json) (s : string) : flow :=
  if (peek s =? "]")%char then Advance (eatws_then t json_tokener_state_finish) obj s
  else if (peek s =? ",")%char then Advance (eatws_then t json_tokener_state_array_after_sep) obj s
  else fail t json_tokener_error_parse_array s.

Definition do_object_field_start (t : tokener) (obj : json) (s : string) : flow :=
  let c := peek s in
  if (c =? "}")%char then
    if bool_decide (state (top t) = json_tokener_state_object_field_start_after_sep) && strict
    then fail t json_tokener_error_parse_unexpected s
    else Advance (eatws_then t json_tokener_state_finish) obj s
  else if ((c =? DQUOTE) || (c =? "'"))%char then
    Advance (set_state (with_pb (with_quote_char t c) EmptyString) json_tokener_state_object_field) obj s
  else fail t json_tokener_error_parse_object_key_name s.

Definition do_object_field (t : tokener) (obj : json) (s : string) : flow :=
  let '(run, rest) := scan_quoted t s in
  match rest with
  | EmptyString => Out (with_pb t (pb t +:+ run +:+ String NUL EmptyString)) rest
  | String c _ =>
      let t := with_pb t (pb t +:+ run) in
      if (c =? quote_char t)%char then
        Advance (eatws_then (set_field_name t (Some (c_str (pb t)))) json_tokener_state_object_field_end) obj rest
      else Advance (escape_then t json_tokener_state_object_field) obj rest
  end.

Definition do_object_field_end (t : tokener) (obj : json) (s : string) : flow :=
  if (peek s =? ":")%char then Advance (eatws_then t json_tokener_state_object_value) obj s
  else fail t json_tokener_error_parse_object_key_sep s.

Definition do_object_value (t : tokener) (obj : json) (s : string) : flow :=
  if decide (max_depth - 1 <= depth t)%nat then fail t json_tokener_error_depth s
  else Redo (push t json_tokener_state_object_value_add) obj s.

Definition do_object_value_add (t : tokener) (obj : json) (s : string) : comp flow :=
  match current (top t), obj_field_name (top t) with
  | JObject _, Some k =>
      let t := set_current t (json_object_object_add (current (top t)) k obj) in
      Ret (Redo (eatws_then (set_field_name t None) json_tokener_state_object_sep) obj s)
  | JObject _, None => Err NullDeref
  | _, _ => Err AssertFailed
  end.

Definition do_object_sep (t : tokener) (obj : json) (s : string) : flow :=
  if (peek s =? "}")%char then Advance (eatws_then t json_tokener_state_finish) obj s
  else if (peek s =? ",")%char then Advance (eatws_then t json_tokener_state_object_field_start_after_sep) obj s
  else fail t json_tokener_error_parse_object_value_sep s.

(** switch(state) *)
Definition tokener_step (t : tokener) (obj : json) (s : string) : comp flow :=
  match state (top t) with
  | json_tokener_state_eatws => Ret (do_eatws t obj s)
  | json_tokener_state_start => Ret (do_start t obj s)
  | json_tokener_state_finish => Ret (do_finish t s)
  | json_tokener_state_inf => Ret (do_inf t obj s)
  | json_tokener_state_null => Ret (do_null t obj s)
  | json_tokener_state_comment_start => Ret (do_comment_start t obj s)
  | json_tokener_state_comment => Ret (do_comment t obj s)
  | json_tokener_state_comment_eol => Ret (do_comment_eol t obj s)
  | json_tokener_state_comment_end => Ret (do_comment_end t obj s)
  | json_tokener_state_string => Ret (do_string t obj s)
  | json_tokener_state_string_escape => Ret (do_string_escape t obj s)
  | json_tokener_state_escape_unicode => Ret (do_escape_unicode t obj s)
  | json_tokener_state_boolean => Ret (do_boolean t obj s)
  | json_tokener_state_number => Ret (do_number t obj s)
  | json_tokener_state_array_after_sep | json_tokener_state_array => Ret (do_array t obj s)
  | json_tokener_state_array_add => do_array_add t obj s
  | json_tokener_state_array_sep => Ret (do_array_sep t obj s)
  | json_tokener_state_object_field_start
  | json_tokener_state_object_field_start_after_sep => Ret (do_object_field_start t obj s)
  | json_tokener_state_object_field => Ret (do_object_field t obj s)
  | json_tokener_state_object_field_end => Ret (do_object_field_end t obj s)
  | json_tokener_state_object_value => Ret (do_object_value t obj s)
  | json_tokener_state_object_value_add => do_object_value_add t obj s
  | json_tokener_state_object_sep => Ret (do_object_sep t obj s)
  end.

(** The main loop: what is left of the input when it is left. *)
Fixpoint tokener_loop (fuel : nat) (t : tokener) (obj : json) (s : string) : comp (tokener * string) :=
  match fuel with
  | O => Err OutOfFuel
  | S fuel =>
      let* f := tokener_step t obj s in
      match f with
      | Redo t obj s => tokener_loop fuel t obj s
      | Advance t obj EmptyString => Ret (t, EmptyString)
      | Advance t obj (String _ s) => tokener_loop fuel t obj s
      | Out t s => Ret (t, s)
      end
  end.

(** After the loop, at the label [out]. *)
Definition out_error (t : tokener) (s : string) : tokener :=
  let c := peek s in
  let t :=
    if negb (c =? NUL)%char && bool_decide (state (top t) = json_tokener_state_finish) && bool_decide (depth t = 0%nat) && strict
    then with_err t json_tokener_error_parse_unexpected else t in
  if (c =? NUL)%char && negb (bool_decide (state (top t) = json_tokener_state_finish))
     && negb (bool_decide (saved_state (top t) = json_tokener_state_finish))
  then with_err t json_tokener_error_parse_eof else t.

Definition parse_fuel (s : string) : nat := (11 * String.length s + 11)%nat.

(** json_tokener_parse_ex(tok, str, -1) on a new tokener, and its error. *)
Definition json_tokener_parse_ex (s : string) : comp (json * json_tokener_error) :=
  if INT32_MAX <? strlen s then Ret (JNull, json_tokener_error_size)
  else
    let* (t, rest) := tokener_loop (parse_fuel s) json_tokener_new JNull s in
    let t := out_error t rest in
    Ret (if decide (err t = json_tokener_success) then current (top t) else JNull, err t).
End tokener_loop.

(** The object is NULL after an error and for the text null. *)
Definition json_tokener_parse_verbose (s : string) : comp (option json * json_tokener_error) :=
  let* (j, e) := json_tokener_parse_ex false JSON_TOKENER_DEFAULT_DEPTH s in
  Ret (match j with JNull => None | _ => if decide (e = json_tokener_success) then Some j else None end, e).

Definition json_tokener_parse (s : string) : option json :=
  match json_tokener_parse_verbose s with
  | Ret (j, _) => j
  | Err _ => None
  end.

(** ** The invariant of the machine *)

(** The states a level waits in behind blanks, comments and escapes. *)
Definition waiting (st : json_tokener_state) : bool :=
  match st with
  | json_tokener_state_start | json_tokener_state_finish | json_tokener_state_string
  | json_tokener_state_array | json_tokener_state_array_sep | json_tokener_state_array_after_sep
  | json_tokener_state_object_field_start | json_tokener_state_object_field
  | json_tokener_state_object_field_end | json_tokener_state_object_value
  | json_tokener_state_object_sep | json_tokener_state_object_field_start_after_sep => true
  | _ => false
  end.

(** The state a level is in, or returns to. *)
Definition resumes (r : srec) : json_tokener_state :=
  match state r with
  | json_tokener_state_eatws | json_tokener_state_comment_start | json_tokener_state_comment
  | json_tokener_state_comment_eol | json_tokener_state_comment_end
  | json_tokener_state_string_escape | json_tokener_state_escape_unicode => saved_state r
  | st => st
  end.

(** What a state needs of the value under construction. *)
Definition level_shape (st : json_tokener_state) (r : srec) : Prop :=
  match st with
  | json_tokener_state_array | json_tokener_state_array_after_sep
  | json_tokener_state_array_add | json_tokener_state_array_sep => exists l, current r = JArray l
  | json_tokener_state_object_field_start | json_tokener_state_object_field_start_after_sep
  | json_tokener_state_object_field | json_tokener_state_object_sep => exists m, current r = JObject m
  | json_tokener_state_object_field_end | json_tokener_state_object_value
  | json_tokener_state_object_value_add =>
      exists m k, current r = JObject m /\ obj_field_name r = Some k /\ no_nul k = true
  | _ => True
  end.

Definition adds (st : json_tokener_state) : Prop :=
  st = json_tokener_state_array_add \/ st = json_tokener_state_object_value_add.

(** A level that may hold [n] levels of nesting. *)
Definition level_ok (n : nat) (r : srec) : Prop :=
  waiting (saved_state r) = true /\ level_shape (resumes r) r /\ json_document n (current r).

Fixpoint below_ok (max_depth : nat) (rs : list srec) : Prop :=
  match rs with
  | [] => True
  | r :: rs => adds (state r) /\ level_ok (max_depth - length rs) r /\ below_ok max_depth rs
  end.

Record tok_inv (max_depth : nat) (t : tokener) (obj : json) (s : string) : Prop := {
  inv_top : level_ok (max_depth - depth t) (top t);
  inv_below : below_ok max_depth (below t);
  inv_depth : (depth t < max_depth)%nat;
  inv_obj : adds (state (top t)) -> json_document (max_depth - depth t - 1) obj;
  inv_number : state (top t) = json_tokener_state_number ->
    pb t = EmptyString /\ is_double t = false /\ (starts_digit s = true \/ peek s = "-"%char)
}.

(** The rank of a state decreases while the same character is looked at. *)
Definition rank (st : json_tokener_state) : nat :=
  match st with
  | json_tokener_state_array_add | json_tokener_state_object_value_add => 2
  | json_tokener_state_finish => 3
  | json_tokener_state_inf | json_tokener_state_null | json_tokener_state_boolean => 5
  | json_tokener_state_number => 6
  | json_tokener_state_start => 7
  | json_tokener_state_array | json_tokener_state_array_after_sep | json_tokener_state_object_value => 9
  | _ => 0
  end.

Definition level_rank (r : srec) : nat :=
  match state r with
  | json_tokener_state_eatws => S (rank (saved_state r))
  | st => rank st
  end.

Definition loop_measure (t : tokener) (s : string) : nat := 11 * String.length s + level_rank (top t).

(** What one round of the loop guarantees. *)
Definition flow_ok (max_depth : nat) (t : tokener) (s : string) (f : flow) : Prop :=
  match f with
  | Redo t' obj' s' =>
      tok_inv max_depth t' obj' s' /\ (String.length s' <= String.length s)%nat
      /\ (loop_measure t' s' < loop_measure t s)%nat
  | Advance t' obj' s' =>
      (forall s'', tok_inv max_depth t' obj' s'') /\ (String.length s' <= String.length s)%nat
  | Out t' _ => json_document max_depth (current (top t'))
  end.

Lemma level_rank_le r : (level_rank r <= 10)%nat.
Proof. unfold level_rank, rank. repeat case_match; lia. Qed.

Lemma skip_spaces_length s : (String.length (skip_spaces s) <= String.length s)%nat.
Proof. induction s as [|c s IH]; cbn; [done|]. case_match; cbn; lia. Qed.

Lemma scan_until_length stop s run rest :
  scan_until stop s = (run, rest) -> (String.length rest <= String.length s)%nat.
Proof. intros H. apply scan_until_spec in H as (-> & _). rewrite str_length_app. lia. Qed.

Lemma inf_scan_length strict e s b rest : inf_scan strict e s = (b, rest) -> (String.length rest <= String.length s)%nat.
Proof.
  revert s. induction e as [|x e IH]; intros s; cbn; [by intros [= _ <-]|].
  destruct s as [|c s]; cbn; [by intros [= _ <-]|].
  destruct (if strict then _ else _); [|by intros [= _ <-]]. intros H. apply IH in H. lia.
Qed.

Lemma escape_unicode_length s st uc hi buf buf' rest :
  escape_unicode s st uc hi buf = EscapeDone buf' rest -> (String.length rest <= String.length s)%nat.
Proof.
  remember (String.length s) as n eqn:Hn. revert s Hn st uc hi buf.
  induction (lt_wf n) as [n _ IH]; intros s -> st uc hi buf. destruct s as [|c s]; cbn -[in_chars Z.ltb IS_HIGH_SURROGATE IS_LOW_SURROGATE]; [done|].
  destruct (join_surrogate _ _ _) as [uc' buf''].
  repeat (case_match; try done; try (intros [= _ <-]; cbn; lia)); intros H';
    match type of H' with escape_unicode ?x _ _ _ _ = _ => apply (IH (String.length x)) in H'; subst; cbn in *; [lia|lia|done] end.
Qed.

Lemma no_nul_c_str s : no_nul (c_str s) = true.
Proof.
  unfold c_str, no_nul. destruct (strchr s NUL) as [[pre post]|] eqn:E.
  - apply strchr_Some in E as [_ E]. by apply strchr_str_forall.
  - by apply strchr_str_forall.
Qed.

(** ** Every round keeps the invariant *)

Lemma document_scalar n j : (0 < n)%nat -> json_wf j -> json_height j = 1%nat -> json_document n j.
Proof. intros Hn Hw Hh. split; [done|lia]. Qed.

#[export] Hint Constructors json_wf : hub.

Section rounds.
Variable strict : bool.
Variable max_depth : nat.

#[local] Abbreviation inv := (tok_inv max_depth).
#[local] Abbreviation ok := (flow_ok max_depth).

(** States that look at nothing but their level. *)
Definition calm (st : json_tokener_state) : bool :=
  match st with
  | json_tokener_state_array_add | json_tokener_state_object_value_add | json_tokener_state_number => false
  | _ => true
  end.

Lemma waiting_calm st : waiting st = true -> calm st = true.
Proof. by destruct st. Qed.

Lemma inv_next t obj s t' obj' s' :
  inv t obj s -> below t' = below t -> level_ok (max_depth - depth t) (top t') ->
  calm (state (top t')) = true -> inv t' obj' s'.
Proof.
  intros [H1 H2 H3 H4 H5] Hb Ht Hc. unfold depth in *. constructor; unfold depth; rewrite ?Hb; try done.
  - intros [E|E]; rewrite E in Hc; discriminate Hc.
  - intros E. rewrite E in Hc. discriminate Hc.
Qed.

(** Moving between the states that wait for the same one. *)
Lemma level_ok_moves n r r' :
  level_ok n r -> resumes r' = resumes r -> current r' = current r -> obj_field_name r' = obj_field_name r ->
  waiting (saved_state r') = true -> level_ok n r'.
Proof.
  intros (Hw & Hsh & Hd) Hr Hc Hf Hw'. unfold level_ok. rewrite Hr, Hc. split_and!; [done| |done].
  unfold level_shape in *. rewrite Hc, Hf. done.
Qed.

Lemma level_ok_finish n j k :
  json_document n j ->
  level_ok n {| state := json_tokener_state_eatws; saved_state := json_tokener_state_finish; current := j; obj_field_name := k |}.
Proof. by intros. Qed.

Lemma inv_finish t obj s j s' obj' :
  inv t obj s -> json_document (max_depth - depth t) j -> inv (finish_value t j) obj' s'.
Proof. intros H Hj. eapply inv_next; [done|done| |done]. by apply level_ok_finish. Qed.

Lemma inv_room t obj s : inv t obj s -> (0 < max_depth - depth t)%nat.
Proof. intros H. pose proof (inv_depth _ _ _ _ H). lia. Qed.

Lemma inv_scalar t obj s j s' obj' :
  inv t obj s -> json_wf j -> json_height j = 1%nat -> inv (finish_value t j) obj' s'.
Proof. intros H Hw Hh. eapply inv_finish; [done|]. eapply document_scalar; [by eapply inv_room|done..]. Qed.

Lemma out_ok t obj s t' s' :
  inv t obj s -> current (top t') = current (top t) -> ok t s (Out t' s').
Proof.
  intros H Hc. cbn. rewrite Hc. destruct (inv_top _ _ _ _ H) as (_ & _ & Hd).
  eapply json_document_weaken; [|exact Hd]. lia.
Qed.

Lemma advance_ok t obj s t' obj' s' :
  inv t obj s -> below t' = below t -> level_ok (max_depth - depth t) (top t') -> calm (state (top t')) = true ->
  (String.length s' <= String.length s)%nat -> ok t s (Advance t' obj' s').
Proof. intros. split; [|done]. intros s''. by eapply inv_next. Qed.

Lemma redo_ok t obj s t' obj' s' :
  inv t obj s -> inv t' obj' s' -> (String.length s' <= String.length s)%nat ->
  (level_rank (top t') < level_rank (top t))%nat -> ok t s (Redo t' obj' s').
Proof. intros. split_and!; [done..|]. unfold loop_measure. lia. Qed.

Lemma round_eatws t obj s :
  inv t obj s -> state (top t) = json_tokener_state_eatws -> ok t s (do_eatws strict t obj s).
Proof.
  intros H Hst. unfold do_eatws. pose proof (skip_spaces_length s).
  pose proof (inv_top _ _ _ _ H) as Htop. pose proof Htop as (Hw & _ & _).
  assert (forall st, calm st = true -> (st = saved_state (top t) \/ st = json_tokener_state_comment_start) ->
            level_ok (max_depth - depth t) (srec_state (top t) st)) as Hl.
  { intros st Hc Hs. apply (level_ok_moves _ (top t)); [done| |done..|done].
    unfold resumes. rewrite Hst. cbn. destruct Hs as [->| ->]; [|done]. by destruct (saved_state (top t)). }
  case_match; cbn zeta.
  - apply advance_ok with obj; [done|done| |done|done]. apply Hl; by auto.
  - apply redo_ok with obj; [done| |done|].
    + eapply inv_next; [done|done|apply Hl; [by apply waiting_calm|by left]|by apply waiting_calm].
    + unfold level_rank. cbn. rewrite Hst. destruct (saved_state (top t)); try done; cbn; lia.
Qed.

(** Between blanks and comments. *)
Definition skips (st : json_tokener_state) : bool :=
  match st with
  | json_tokener_state_eatws | json_tokener_state_comment_start | json_tokener_state_comment
  | json_tokener_state_comment_eol | json_tokener_state_comment_end => true
  | _ => false
  end.

Lemma advance_skips t obj s t' obj' s' st0 st :
  inv t obj s -> state (top t) = st0 -> top t' = srec_state (top t) st -> skips st0 = true -> skips st = true ->
  below t' = below t -> (String.length s' <= String.length s)%nat -> ok t s (Advance t' obj' s').
Proof.
  intros H Hst0 Ht Hs Hst Hb Hl. apply advance_ok with obj; [done..| | |done]; rewrite Ht; [|by destruct st].
  pose proof (inv_top _ _ _ _ H) as Htop. pose proof Htop as (Hw & _ & _).
  apply (level_ok_moves _ (top t)); [done| |done..].
  unfold resumes. cbn. rewrite Hst0. by destruct st0, st.
Qed.

Lemma round_comment_start t obj s :
  inv t obj s -> state (top t) = json_tokener_state_comment_start -> ok t s (do_comment_start t obj s).
Proof.
  intros H Hst. unfold do_comment_start. cbn zeta. repeat case_match.
  - by eapply (advance_skips _ _ _ _ _ _ _ _ H Hst).
  - by eapply (advance_skips _ _ _ _ _ _ _ _ H Hst).
  - by eapply out_ok.
Qed.

Lemma round_comment t obj s :
  inv t obj s -> state (top t) = json_tokener_state_comment -> ok t s (do_comment t obj s).
Proof.
  intros H Hst. unfold do_comment. destruct (scan_until _ s) as [run rest] eqn:E. apply scan_until_length in E.
  destruct rest; [by eapply out_ok|]. by eapply (advance_skips _ _ _ _ _ _ _ _ H Hst).
Qed.

Lemma round_comment_eol t obj s :
  inv t obj s -> state (top t) = json_tokener_state_comment_eol -> ok t s (do_comment_eol t obj s).
Proof.
  intros H Hst. unfold do_comment_eol. destruct (scan_until _ s) as [run rest] eqn:E. apply scan_until_length in E.
  destruct rest; [by eapply out_ok|]. by eapply (advance_skips _ _ _ _ _ _ _ _ H Hst).
Qed.

Lemma round_comment_end t obj s :
  inv t obj s -> state (top t) = json_tokener_state_comment_end -> ok t s (do_comment_end t obj s).
Proof. intros H Hst. unfold do_comment_end. eapply (advance_skips _ _ _ _ _ _ _ _ H Hst); try done. by case_match. Qed.

(** *** Values *)

Lemma start_word t obj s st :
  inv t obj s -> state (top t) = json_tokener_state_start -> (rank st <= 6)%nat -> calm st = true ->
  st <> json_tokener_state_eatws -> resumes (srec_state (top t) st) = st -> level_shape st (top t) ->
  ok t s (Redo (with_st_pos (with_pb (set_state t st) EmptyString) 0) obj s).
Proof.
  intros H Hst Hr Hc Hne Hres Hsh. eapply redo_ok; [done| |done|].
  - eapply inv_next; [done|done| |done].
    destruct (inv_top _ _ _ _ H) as (Hw & _ & Hd). split_and!; [done| |done].
    change (level_shape (resumes (srec_state (top t) st)) (srec_state (top t) st)). rewrite Hres. by destruct st.
  - unfold level_rank. cbn. rewrite Hst. destruct st; cbn in *; try done; lia.
Qed.

Lemma start_container t obj s j st :
  inv t obj s -> json_wf j -> json_height j = 1%nat -> waiting st = true ->
  level_shape st {| state := json_tokener_state_eatws; saved_state := st; current := j; obj_field_name := obj_field_name (top t) |} ->
  ok t s (Advance (set_current (eatws_then t st) j) obj s).
Proof.
  intros H Hj Hh Hw Hsh. eapply advance_ok; [done|done| |done|done]. split_and!; [done|done|].
  eapply document_scalar; [by eapply inv_room|done..].
Qed.

Lemma round_start t obj s :
  inv t obj s -> state (top t) = json_tokener_state_start -> ok t s (do_start strict t obj s).
Proof.
  intros H Hst. unfold do_start. cbn zeta.
  destruct (_ =? "{")%char; [eapply start_container; [done|by repeat constructor|done..|by eexists]|].
  destruct (_ =? "[")%char; [eapply start_container; [done|by repeat constructor|done..|by eexists]|].
  destruct ((_ =? "I") || _)%char; [apply start_word; cbn; by auto; lia|].
  destruct ((_ =? "N") || _)%char; [apply start_word; cbn; by auto; lia|].
  destruct (_ && strict); [by eapply out_ok|].
  destruct ((_ =? "'") || _)%char.
  { eapply advance_ok; [done|done| |done|done]. destruct (inv_top _ _ _ _ H) as (Hw & _ & Hd). by split_and!. }
  destruct (_ || (_ =? "f")%char); [apply start_word; cbn; by auto; lia|].
  destruct (isdigit (peek s) || _) eqn:Hd; [|by eapply out_ok].
  eapply redo_ok; [done| |done|unfold level_rank; cbn; rewrite Hst; cbn; lia].
  destruct (inv_top _ _ _ _ H) as (Hw & _ & Hdoc). destruct H as [_ H2 H3 _ _].
  constructor; cbn; [by split_and!|done|done|by intros []|].
  intros _. split_and!; [done..|]. apply orb_true_iff in Hd as [Hd|Hd]; [left; by destruct s|right; by apply Ascii.eqb_eq].
Qed.

Lemma finish_rank t j : level_rank (top (finish_value t j)) = 4%nat.
Proof. done. Qed.

Lemma redo_value t obj s t' j s' :
  inv t obj s -> below t' = below t -> json_wf j -> json_height j = 1%nat -> (String.length s' <= String.length s)%nat ->
  (4 < level_rank (top t))%nat -> ok t s (Redo (finish_value t' j) obj s').
Proof.
  intros H Hb Hw Hh Hl Hr. eapply redo_ok; [done| |done|by rewrite finish_rank].
  eapply inv_next; [done|done| |done]. apply level_ok_finish. eapply document_scalar; [by eapply inv_room|done..].
Qed.

(** The state stays, only the scratch fields change. *)
Lemma advance_same t obj s t' obj' s' :
  inv t obj s -> top t' = top t -> below t' = below t -> calm (state (top t)) = true ->
  (String.length s' <= String.length s)%nat -> ok t s (Advance t' obj' s').
Proof.
  intros H Ht Hb Hc Hl. eapply advance_ok; [done|done| |by rewrite Ht|done]. rewrite Ht. by destruct H.
Qed.

Lemma round_finish t obj s :
  inv t obj s -> state (top t) = json_tokener_state_finish -> ok t s (do_finish t s).
Proof.
  intros H Hst. unfold do_finish. pose proof (inv_top _ _ _ _ H) as (_ & _ & Hd).
  destruct (below t) as [|r rs] eqn:Hb; [by eapply out_ok|].
  destruct H as [_ H2 H3 _ _]. unfold depth in *. rewrite Hb in *. cbn in H2. destruct H2 as (Ha & Hr & Hrs).
  split_and!; [|done|].
  - constructor; cbn; [done|done|unfold depth; cbn in *; lia| |].
    + intros _. cbn in *. eapply json_document_weaken; [|exact Hd]. lia.
    + intros E. destruct Ha as [Ha|Ha]; rewrite Ha in E; discriminate E.
  - unfold loop_measure, level_rank. rewrite Hst. cbn. destruct Ha as [-> | ->]; cbn; lia.
Qed.

Lemma round_inf t obj s :
  inv t obj s -> state (top t) = json_tokener_state_inf -> ok t s (do_inf strict t obj s).
Proof.
  intros H Hst. unfold do_inf. destruct (inf_scan _ _ s) as [[] rest] eqn:E; [|by eapply out_ok].
  apply inf_scan_length in E. apply redo_value; [done|done| |done|done|unfold level_rank; rewrite Hst; cbn; lia].
  constructor. by case_match.
Qed.

Lemma round_null t obj s :
  inv t obj s -> state (top t) = json_tokener_state_null -> ok t s (do_null strict t obj s).
Proof.
  intros H Hst. unfold do_null. cbn zeta.
  assert (calm (state (top t)) = true) as Hc by by rewrite Hst.
  repeat case_match; first [by eapply advance_same|by eapply out_ok|idtac];
    (apply redo_value; [done|done|by repeat constructor|done|done|unfold level_rank; rewrite Hst; cbn; lia]).
Qed.

Lemma round_boolean t obj s :
  inv t obj s -> state (top t) = json_tokener_state_boolean -> ok t s (do_boolean strict t obj s).
Proof.
  intros H Hst. unfold do_boolean. cbn zeta.
  assert (calm (state (top t)) = true) as Hc by by rewrite Hst.
  repeat case_match; first [by eapply advance_same|by eapply out_ok|idtac];
    (apply redo_value; [done|done|by repeat constructor|done|done|unfold level_rank; rewrite Hst; cbn; lia]).
Qed.

Lemma number_value_wf buf d j :
  number_scan buf 0 false false 1 = NumberDone buf d EmptyString -> starts_digit buf || (peek buf =? "-")%char = true ->
  number_value strict buf d = Some j -> json_wf j /\ json_height j = 1%nat.
Proof.
  intros Hs Hp. unfold number_value. destruct d.
  - destruct (json_parse_double_ok buf) eqn:E; [|done]. intros [= <-]. split; [|done]. constructor.
    unfold double_text. by rewrite Hs, E, Hp, orb_true_r.
  - destruct (json_parse_int64 buf) as [z|] eqn:E; [|done]. case_match; [done|]. intros [= <-]. split; [|done].
    constructor. by eapply json_parse_int64_long.
Qed.

Lemma number_scan_double s d n e k text d' rest :
  number_scan s n d e k = NumberDone text d' rest -> number_scan text n d e k = NumberDone text d' EmptyString.
Proof. intros H. by apply number_scan_Done in H as (_ & _ & ?). Qed.

Lemma round_number t obj s :
  inv t obj s -> state (top t) = json_tokener_state_number -> ok t s (do_number strict t obj s).
Proof.
  intros H Hst. unfold do_number. destruct (inv_number _ _ _ _ H Hst) as (Hpb & Hdb & Hs). rewrite Hdb.
  destruct (number_scan s 0 false false 1) as [text d rest|rest] eqn:E; [|by eapply out_ok].
  pose proof (number_scan_double _ _ _ _ _ _ _ _ E) as Ht.
  apply number_scan_Done in E as (-> & Hrest & _).
  assert (String.length rest <= String.length (text +:+ rest))%nat as Hl by (rewrite str_length_app; lia).
  rewrite Hpb. cbn [String.append]. cbn zeta. case_match; cbn [pb with_is_double with_pb].
  - eapply redo_ok; [done| |done|unfold level_rank; cbn; rewrite Hst; cbn; lia].
    eapply inv_next; [done|done| |done]. destruct (inv_top _ _ _ _ H) as (Hw & _ & Hd). by split_and!.
  - destruct (number_value strict text d) as [j|] eqn:Ev; [|by eapply out_ok].
    destruct (number_value_wf text d j Ht) as [Hj Hh]; [|done|].
    { destruct text as [|c text]; [exfalso|destruct Hs as [Hs|Hs]; cbn in *; by rewrite Hs, ?orb_true_r].
      destruct rest as [|c rest]; cbn in *; [by destruct Hs|].
      destruct Hs as [Hs| ->]; [|done]. apply isdigit_number in Hs as [Hs _]. congruence. }
    apply redo_value; [done..|unfold level_rank; rewrite Hst; cbn; lia].
Qed.

(** *** Strings and keys *)

Lemma advance_moves t obj s t' obj' s' st0 :
  inv t obj s -> state (top t) = st0 -> resumes (top t') = resumes (top t) -> current (top t') = current (top t) ->
  obj_field_name (top t') = obj_field_name (top t) -> waiting (saved_state (top t')) = true ->
  calm (state (top t')) = true -> below t' = below t -> (String.length s' <= String.length s)%nat ->
  ok t s (Advance t' obj' s').
Proof.
  intros H Hst0 Hr Hc Hf Hw Hcalm Hb Hl. eapply advance_ok; [done|done| |done|done].
  eapply level_ok_moves; [|done..]. by destruct H.
Qed.

Lemma round_string t obj s :
  inv t obj s -> state (top t) = json_tokener_state_string -> ok t s (do_string t obj s).
Proof.
  intros H Hst. unfold do_string. destruct (scan_quoted t s) as [run rest] eqn:E. apply scan_until_length in E.
  destruct rest as [|c rest]; [by eapply out_ok|]. cbn zeta. case_match.
  - eapply advance_ok; [done|done| |done|done]. apply level_ok_finish.
    eapply document_scalar; [by eapply inv_room|by constructor|done].
  - eapply advance_moves; try done. unfold resumes. by rewrite Hst.
Qed.

Lemma back_from_escape t obj s t' obj' s' :
  inv t obj s -> state (top t) = json_tokener_state_string_escape \/ state (top t) = json_tokener_state_escape_unicode ->
  top t' = srec_state (top t) (saved_state (top t)) -> below t' = below t ->
  (String.length s' <= String.length s)%nat -> ok t s (Advance t' obj' s').
Proof.
  intros H Hst Ht Hb Hl. pose proof (inv_top _ _ _ _ H) as (Hw & _ & _).
  eapply advance_moves; rewrite ?Ht; try done; [|by apply waiting_calm].
  unfold resumes. destruct Hst as [-> | ->]; cbn; by destruct (saved_state (top t)).
Qed.

Lemma round_string_escape t obj s :
  inv t obj s -> state (top t) = json_tokener_state_string_escape -> ok t s (do_string_escape t obj s).
Proof.
  intros H Hst. unfold do_string_escape. cbn zeta.
  pose proof (inv_top _ _ _ _ H) as (Hw & _ & _).
  repeat case_match; first [by eapply out_ok|by eapply back_from_escape; [|left|..]|idtac].
  eapply advance_moves; try done. unfold resumes. cbn. by rewrite Hst.
Qed.

Lemma round_escape_unicode t obj s :
  inv t obj s -> state (top t) = json_tokener_state_escape_unicode -> ok t s (do_escape_unicode t obj s).
Proof.
  intros H Hst. unfold do_escape_unicode. destruct (escape_unicode _ _ _ _ _) as [buf rest|buf rest] eqn:E; [|by eapply out_ok].
  apply escape_unicode_length in E. eapply back_from_escape; by eauto.
Qed.

(** *** Arrays and objects *)

Lemma keeps_document t obj s : inv t obj s -> json_document (max_depth - depth t) (current (top t)).
Proof. intros H. by destruct (inv_top _ _ _ _ H) as (_ & _ & ?). Qed.

(** The value is complete. *)
Lemma advance_finish t obj s obj' s' :
  inv t obj s -> (String.length s' <= String.length s)%nat -> ok t s (Advance (eatws_then t json_tokener_state_finish) obj' s').
Proof.
  intros H Hl. eapply advance_ok; [done|done| |done|done]. apply level_ok_finish. by eapply keeps_document.
Qed.

(** Blanks, then another state of the same array or object. *)
Lemma advance_eatws t obj s obj' s' st :
  inv t obj s -> waiting st = true ->
  level_shape st {| state := json_tokener_state_eatws; saved_state := st; current := current (top t);
                    obj_field_name := obj_field_name (top t) |} ->
  (String.length s' <= String.length s)%nat -> ok t s (Advance (eatws_then t st) obj' s').
Proof.
  intros H Hw Hsh Hl. eapply advance_ok; [done|done| |done|done]. split_and!; [done|done|exact (keeps_document _ _ _ H)].
Qed.

Lemma push_ok t obj s st :
  inv t obj s -> adds st -> level_shape st (top t) -> rank (state (top t)) = 9%nat ->
  ~ (max_depth - 1 <= depth t)%nat -> ok t s (Redo (push t st) obj s).
Proof.
  intros H Ha Hsh Hr Hd. pose proof (inv_top _ _ _ _ H) as (Hw & _ & Hdoc).
  assert (level_rank (top t) = 9%nat) as Hrk by (unfold level_rank; destruct (state (top t)); by cbn in *).
  eapply redo_ok; [done| |done|rewrite Hrk; cbn; lia]. destruct H as [_ H2 H3 _ _].
  constructor; cbn; unfold depth in *; cbn.
  - split_and!; [done..|]. apply document_scalar; [lia|by constructor|done].
  - split; [done|]. split; [|done]. split_and!; [done| |done].
    destruct Ha as [-> | ->]; cbn in *; exact Hsh.
  - lia.
  - by intros [].
  - done.
Qed.

Lemma round_array t obj s :
  inv t obj s -> state (top t) = json_tokener_state_array \/ state (top t) = json_tokener_state_array_after_sep ->
  ok t s (do_array strict max_depth t obj s).
Proof.
  intros H Hst. pose proof (inv_top _ _ _ _ H) as (_ & Hsh & _). unfold resumes in Hsh. unfold do_array.
  destruct (_ =? "]")%char; [destruct (_ && strict); [by eapply out_ok|by eapply advance_finish]|]. case_decide; [by eapply out_ok|].
  apply push_ok; [done|by left| | |done]; by destruct Hst as [Hst|Hst]; rewrite Hst in *.
Qed.

Lemma round_array_add t obj s :
  inv t obj s -> state (top t) = json_tokener_state_array_add -> exists f, do_array_add t obj s = Ret f /\ ok t s f.
Proof.
  intros H Hst. pose proof (inv_top _ _ _ _ H) as (Hw & Hsh & Hwf & Hh). unfold resumes in Hsh. rewrite Hst in Hsh.
  destruct Hsh as [l Hl]. unfold do_array_add. rewrite Hl in *. eexists; split; [reflexivity|].
  destruct (inv_obj _ _ _ _ H) as [How Hoh]; [by left|]. pose proof (inv_room _ _ _ H) as Hroom.
  eapply redo_ok; [done| |done|unfold level_rank; cbn; rewrite Hst; cbn; lia].
  eapply inv_next; [done|done| |done]. split_and!; [done|by eexists|]. split; cbn.
  - inversion Hwf; subst. constructor. apply Forall_app. by split; [|repeat constructor].
  - destruct (max_depth - depth t)%nat as [|n] eqn:En; [lia|].
    apply json_height_array. apply json_height_array in Hh. apply Forall_app. split; [done|]. constructor; [lia|done].
Qed.

Lemma round_array_sep t obj s :
  inv t obj s -> state (top t) = json_tokener_state_array_sep -> ok t s (do_array_sep t obj s).
Proof.
  intros H Hst. pose proof (inv_top _ _ _ _ H) as (_ & Hsh & _). unfold resumes in Hsh. rewrite Hst in Hsh.
  unfold do_array_sep. repeat case_match; [by eapply advance_finish|by eapply advance_eatws|by eapply out_ok].
Qed.

Lemma round_object_field_start t obj s :
  inv t obj s ->
  state (top t) = json_tokener_state_object_field_start \/ state (top t) = json_tokener_state_object_field_start_after_sep ->
  ok t s (do_object_field_start strict t obj s).
Proof.
  intros H Hst. pose proof (inv_top _ _ _ _ H) as (Hw & Hsh & Hdoc). unfold resumes in Hsh. unfold do_object_field_start.
  cbn zeta. destruct (_ =? "}")%char; [destruct (_ && strict); [by eapply out_ok|by eapply advance_finish]|].
  destruct (_ || _); [|by eapply out_ok].
  eapply advance_ok; [done|done| |done|done]. split_and!; [done| |done].
  by destruct Hst as [Hst|Hst]; rewrite Hst in *.
Qed.

Lemma round_object_field t obj s :
  inv t obj s -> state (top t) = json_tokener_state_object_field -> ok t s (do_object_field t obj s).
Proof.
  intros H Hst. pose proof (inv_top _ _ _ _ H) as (_ & Hsh & Hdoc). unfold resumes in Hsh. rewrite Hst in Hsh.
  unfold do_object_field. destruct (scan_quoted t s) as [run rest] eqn:E. apply scan_until_length in E.
  destruct rest as [|c rest]; [by eapply out_ok|]. cbn zeta. case_match.
  - eapply advance_ok; [done|done| |done|done]. destruct Hsh as [m Hm].
    split_and!; [done| |done]. exists m, (c_str (pb t +:+ run)). split_and!; [done|done|apply no_nul_c_str].
  - eapply advance_ok; [done|done| |done|done]. by split_and!.
Qed.

Lemma round_object_field_end t obj s :
  inv t obj s -> state (top t) = json_tokener_state_object_field_end -> ok t s (do_object_field_end t obj s).
Proof.
  intros H Hst. pose proof (inv_top _ _ _ _ H) as (_ & Hsh & _). unfold resumes in Hsh. rewrite Hst in Hsh.
  unfold do_object_field_end. case_match; [by eapply advance_eatws|by eapply out_ok].
Qed.

Lemma round_object_value t obj s :
  inv t obj s -> state (top t) = json_tokener_state_object_value -> ok t s (do_object_value max_depth t obj s).
Proof.
  intros H Hst. pose proof (inv_top _ _ _ _ H) as (_ & Hsh & _). unfold resumes in Hsh. rewrite Hst in Hsh.
  unfold do_object_value. case_decide; [by eapply out_ok|].
  apply push_ok; [done|by right|done|by rewrite Hst|done].
Qed.

Lemma round_object_value_add t obj s :
  inv t obj s -> state (top t) = json_tokener_state_object_value_add ->
  exists f, do_object_value_add t obj s = Ret f /\ ok t s f.
Proof.
  intros H Hst. pose proof (inv_top _ _ _ _ H) as (Hw & Hsh & Hdoc). unfold resumes in Hsh. rewrite Hst in Hsh.
  destruct Hsh as (m & k & Hm & Hk & Hnk). unfold do_object_value_add. rewrite Hm, Hk in *.
  eexists; split; [reflexivity|].
  pose proof (inv_obj _ _ _ _ H ltac:(by right)) as Hobj. pose proof (inv_room _ _ _ H) as Hroom.
  eapply redo_ok; [done| |done|unfold level_rank; cbn; rewrite Hst; cbn; lia].
  eapply inv_next; [done|done| |done]. split_and!; [done|by eexists|].
  destruct (max_depth - depth t)%nat as [|n] eqn:En; [lia|].
  apply (json_document_add n (JObject m) k obj); [done|done|]. by replace n with (S n - 1)%nat by lia.
Qed.

Lemma round_object_sep t obj s :
  inv t obj s -> state (top t) = json_tokener_state_object_sep -> ok t s (do_object_sep t obj s).
Proof.
  intros H Hst. pose proof (inv_top _ _ _ _ H) as (_ & Hsh & _). unfold resumes in Hsh. rewrite Hst in Hsh.
  unfold do_object_sep. repeat case_match; [by eapply advance_finish|by eapply advance_eatws|by eapply out_ok].
Qed.

Lemma round_ok t obj s :
  inv t obj s -> exists f, tokener_step strict max_depth t obj s = Ret f /\ ok t s f.
Proof.
  intros H. unfold tokener_step. destruct (state (top t)) eqn:Hst;
    try (eexists; split; [reflexivity|]).
  - by apply round_eatws.
  - by apply round_start.
  - by eapply round_finish.
  - by apply round_null.
  - by apply round_comment_start.
  - by apply round_comment.
  - by apply round_comment_eol.
  - by apply round_comment_end.
  - by apply round_string.
  - by apply round_string_escape.
  - by apply round_escape_unicode.
  - by apply round_boolean.
  - by apply round_number.
  - apply round_array; auto.
  - by apply round_array_add.
  - by apply round_array_sep.
  - apply round_object_field_start; auto.
  - by apply round_object_field.
  - by apply round_object_field_end.
  - by apply round_object_value.
  - by apply round_object_value_add.
  - by apply round_object_sep.
  - apply round_array; auto.
  - apply round_object_field_start; auto.
  - by apply round_inf.
Qed.

Lemma tokener_loop_ok fuel t obj s :
  inv t obj s -> (loop_measure t s < fuel)%nat ->
  exists t' rest, tokener_loop strict max_depth fuel t obj s = Ret (t', rest) /\ json_document max_depth (current (top t')).
Proof.
  revert t obj s. induction fuel as [|fuel IH]; intros t obj s H Hf; [lia|]. cbn [tokener_loop].
  destruct (round_ok t obj s H) as (f & -> & Hok). cbn [mbind comp_bind].
  destruct f as [t' obj' s'|t' obj' s'|t' s'].
  - destruct Hok as (H' & _ & Hm). apply IH; [done|lia].
  - destruct Hok as [H' Hl]. destruct s' as [|c s'].
    + do 2 eexists; split; [reflexivity|]. eapply json_document_weaken; [|exact (keeps_document _ _ _ (H' EmptyString))]. lia.
    + apply IH; [done|]. pose proof (level_rank_le (top t')). unfold loop_measure in *. cbn in Hl. lia.
  - do 2 eexists; split; [reflexivity|done].
Qed.

Lemma new_inv s : (0 < max_depth)%nat -> inv json_tokener_new JNull s.
Proof.
  intros Hd. constructor; unfold depth; cbn; [|done|done|by intros []|done].
  split_and!; [done|done|]. apply document_scalar; [lia|by constructor|done].
Qed.

Lemma out_error_current t s : current (top (out_error strict t s)) = current (top t).
Proof. unfold out_error. by repeat case_match. Qed.

Lemma parse_ex_ok s :
  (0 < max_depth)%nat ->
  exists j e, json_tokener_parse_ex strict max_depth s = Ret (j, e) /\ json_document max_depth j
    /\ (e <> json_tokener_success -> j = JNull).
Proof.
  intros Hd. unfold json_tokener_parse_ex.
  assert (json_document max_depth JNull) as Hnull by (apply document_scalar; [lia|by constructor|done]).
  case_match; [by do 2 eexists|].
  destruct (tokener_loop_ok (parse_fuel s) json_tokener_new JNull s (new_inv s Hd)) as (t & rest & -> & Hdoc).
  { unfold loop_measure, parse_fuel. cbn. lia. }
  cbn [mbind comp_bind]. do 2 eexists; split; [reflexivity|]. cbn zeta. rewrite out_error_current.
  case_decide; by split.
Qed.

(** C22: on every text and at every depth the tokener comes to an end within
    the fuel, without failing one of json-c's assertions and without using a
    field name that is not there; after an error it returns no document. *)
Theorem tokener_terminates s :
  (0 < max_depth)%nat ->
  exists j e, json_tokener_parse_ex strict max_depth s = Ret (j, e) /\ (e <> json_tokener_success -> j = JNull).
Proof. intros Hd. destruct (parse_ex_ok s Hd) as (j & e & H & _ & He). eauto. Qed.
End rounds.

Lemma parse_document s j : json_tokener_parse s = Some j -> json_document JSON_TOKENER_DEFAULT_DEPTH j.
Proof.
  unfold json_tokener_parse, json_tokener_parse_verbose.
  destruct (parse_ex_ok false JSON_TOKENER_DEFAULT_DEPTH s) as (j' & e & -> & Hd & _); [unfold JSON_TOKENER_DEFAULT_DEPTH; lia|].
  cbn [mbind comp_bind]. destruct j'; try case_decide; try done; by intros [= <-].
Qed.

(** C28: what the tokener returns is well formed, whatever the text: integers
    fit 64 bits, numbers with a fraction are kept in a form that reads back,
    the keys of an object are distinct C strings, and at most 32 levels are
    nested. *)
Theorem parsed_documents_wf s j :
  json_tokener_parse s = Some j -> json_document JSON_TOKENER_DEFAULT_DEPTH j.
Proof. apply parse_document. Qed.

Lemma tokener_terminates_witness :
  exists j e, json_tokener_parse_ex true 2 "[[[1]]]" = Ret (j, e) /\ (e <> json_tokener_success -> j = JNull).
Proof. apply (tokener_terminates true 2 "[[[1]]]"). lia. Defined.

Lemma parsed_documents_wf_witness :
  json_document JSON_TOKENER_DEFAULT_DEPTH (JObject [("a", JArray [JInt 9223372036854775807; JDouble "-1.5e3"])]).
Proof. apply (parsed_documents_wf "{'a': 7, 'a': [9223372036854775808, -1.5e3]}"). by vm_compute. Defined.
