(* ===== verification/JsonRoundTrip.v ===== *)
(** * json-c reads back what it prints

    The main loop of the tokener as a step relation, the steps it takes over
    the text of each kind of value, and by induction on the document that a
    printed document is read back: whatever the formatting flags, strict or
    not.  This discharges the interface [JsonCodec] for json-c. *)

From Stdlib Require Import Ascii.
From S2P Require Import Prelude CString Unicode JsonLex Json JsonPrint JsonTokener.

Local Open Scope Z_scope.

Definition conf : Type := tokener * json * string.

Inductive tok_step (strict : bool) (max_depth : nat) : conf -> conf -> Prop :=
  | tok_redo t o s t' o' s' :
      tokener_step strict max_depth t o s = Ret (Redo t' o' s') -> tok_step strict max_depth (t, o, s) (t', o', s')
  | tok_advance t o s t' o' c s' :
      tokener_step strict max_depth t o s = Ret (Advance t' o' (String c s')) ->
      tok_step strict max_depth (t, o, s) (t', o', s').

(** A level, and a tokener without an error. *)
Definition lv (st sv : json_tokener_state) (j : json) (k : option string) : srec :=
  {| state := st; saved_state := sv; current := j; obj_field_name := k |}.
Definition tk (r : srec) (bl : list srec) (b : string) (d : bool) (p : nat) (q : ascii) : tokener :=
  {| top := r; below := bl; pb := b; is_double := d; st_pos := p; err := json_tokener_success; quote_char := q |}.

(** ** Blanks *)

Lemma skip_spaces_app ws s : str_forall isspace ws = true -> skip_spaces (ws +:+ s) = skip_spaces s.
Proof.
  induction ws as [|c ws IH]; cbn; [done|]. intros H. apply andb_true_iff in H as [-> H]. by apply IH.
Qed.

Lemma skip_spaces_idem s : skip_spaces (skip_spaces s) = skip_spaces s.
Proof. induction s as [|c s IH]; cbn; [done|]. destruct (isspace c) eqn:E; [done|]. cbn. by rewrite E. Qed.

Lemma skip_spaces_stop c s : isspace c = false -> skip_spaces (String c s) = String c s.
Proof. cbn. by intros ->. Qed.

Lemma str_forall_repeat p n c : p c = true -> str_forall p (str_repeat n c) = true.
Proof.
  intros Hc. unfold str_repeat. induction n as [|n IH]; [done|]. destruct n as [|n]; [cbn in *; by rewrite Hc|].
  change (str_forall p (one c +:+ "" +:+ String.concat "" (replicate (S n) (one c))) = true).
  cbn -[String.concat replicate]. by rewrite Hc.
Qed.

Section blanks.
Variable flags : Z.

Lemma newline_blank : str_forall isspace (newline flags) = true.
Proof. unfold newline. by case_match. Qed.
Lemma space_blank : str_forall isspace (space flags) = true.
Proof. unfold space. by case_match. Qed.
Lemma indent_blank n : str_forall isspace (indent flags n) = true.
Proof. unfold indent. repeat case_match; [by apply str_forall_repeat..|done]. Qed.

Lemma closing_skip level had c s :
  isspace c = false -> skip_spaces (closing flags level had (one c) +:+ s) = String c s.
Proof.
  intros Hc. unfold closing. rewrite <- str_app_assoc, skip_spaces_app.
  - case_match; cbn; by rewrite Hc.
  - case_match; [|done]. rewrite str_forall_app, indent_blank. by case_match.
Qed.
End blanks.

#[export] Hint Resolve newline_blank space_blank indent_blank : hub.

(** ** Words *)

(** What the two states of words conclude from the text collected so far:
    an error, one more character, or a value. *)
Definition word_verdict (strict : bool) (st : json_tokener_state) (buf : string) (pos : nat) : option (option json) :=
  match st with
  | json_tokener_state_null =>
      if word_matches strict "null" buf (Nat.min (pos + 1) 4) then
        Some (if decide (pos = 4%nat) then Some JNull else None)
      else if word_matches strict "NaN" buf (Nat.min (pos + 1) 3) then
        Some (if decide (pos = 3%nat) then Some (JDouble "NaN") else None)
      else None
  | _ =>
      if word_matches strict "true" buf (Nat.min (pos + 1) 4) then
        Some (if decide (pos = 4%nat) then Some (JBool true) else None)
      else if word_matches strict "false" buf (Nat.min (pos + 1) 5) then
        Some (if decide (pos = 5%nat) then Some (JBool false) else None)
      else None
  end.

(** A decidable form of what [word_steps] asks of the characters of a word. *)
Fixpoint word_runs (strict : bool) (st : json_tokener_state) (w1 w2 : string) : bool :=
  match w2 with
  | EmptyString => true
  | String c w2 =>
      match word_verdict strict st (w1 +:+ one c) (String.length w1) with
      | Some None => word_runs strict st (w1 +:+ one c) w2
      | _ => false
      end
  end.

Lemma word_accepted st w v :
  (st, w, v) ∈ [(json_tokener_state_null, "null", JNull); (json_tokener_state_boolean, "true", JBool true);
                (json_tokener_state_boolean, "false", JBool false); (json_tokener_state_null, "NaN", JDouble "NaN")] ->
  forall strict, word_runs strict st EmptyString w = true
    /\ forall c, word_verdict strict st (w +:+ one c) (String.length w) = Some (Some v).
Proof.
  rewrite !elem_of_cons. intros Hw strict. destruct_or! Hw; try (by apply elem_of_nil in Hw); injection Hw as -> -> ->;
    (split; [by destruct strict|]); intros [[] [] [] [] [] [] [] []]; destruct strict; reflexivity.
Qed.

Section steps.
Variable strict : bool.
Variable max_depth : nat.

#[local] Abbreviation step := (tok_step strict max_depth).

(** From one level and input to another, whatever the scratch fields. *)
Definition moves (r : srec) (bl : list srec) (s : string) (r' : srec) (bl' : list srec) (s' : string) : Prop :=
  forall b d p q o, exists b' d' p' q' o', rtc step (tk r bl b d p q, o, s) (tk r' bl' b' d' p' q', o', s').

Lemma moves_refl r bl s : moves r bl s r bl s.
Proof. intros b d p q o. do 5 eexists. reflexivity. Qed.

Lemma moves_trans r1 bl1 s1 r2 bl2 s2 r3 bl3 s3 :
  moves r1 bl1 s1 r2 bl2 s2 -> moves r2 bl2 s2 r3 bl3 s3 -> moves r1 bl1 s1 r3 bl3 s3.
Proof.
  intros H1 H2 b d p q o. destruct (H1 b d p q o) as (b' & d' & p' & q' & o' & R1).
  destruct (H2 b' d' p' q' o') as (b'' & d'' & p'' & q'' & o'' & R2). do 5 eexists. by etrans.
Qed.

Lemma moves_redo r bl s r' bl' s' :
  (forall b d p q o, exists b' d' p' q' o',
     tokener_step strict max_depth (tk r bl b d p q) o s = Ret (Redo (tk r' bl' b' d' p' q') o' s')) ->
  moves r bl s r' bl' s'.
Proof.
  intros H b d p q o. destruct (H b d p q o) as (b' & d' & p' & q' & o' & E). do 5 eexists.
  apply rtc_once. by apply tok_redo.
Qed.

Lemma moves_advance r bl s r' bl' c s' :
  (forall b d p q o, exists b' d' p' q' o',
     tokener_step strict max_depth (tk r bl b d p q) o s = Ret (Advance (tk r' bl' b' d' p' q') o' (String c s'))) ->
  moves r bl s r' bl' s'.
Proof.
  intros H b d p q o. destruct (H b d p q o) as (b' & d' & p' & q' & o' & E). do 5 eexists.
  apply rtc_once. by eapply tok_advance.
Qed.

Lemma moves_eatws sv j k bl s :
  peek (skip_spaces s) <> "/"%char ->
  moves (lv json_tokener_state_eatws sv j k) bl s (lv sv sv j k) bl (skip_spaces s).
Proof.
  intros Hs. apply moves_redo. intros b d p q o. do 5 eexists. cbn. unfold do_eatws.
  cbn zeta. rewrite (proj2 (Ascii.eqb_neq _ _)) by done. reflexivity.
Qed.

(** A value is handed to the array or object below it. *)
Lemma moves_array_add j k acc k' sv bl s :
  peek (skip_spaces s) <> "/"%char ->
  moves (lv json_tokener_state_eatws json_tokener_state_finish j k)
    (lv json_tokener_state_array_add sv (JArray acc) k' :: bl) s
    (lv json_tokener_state_eatws json_tokener_state_array_sep (JArray (acc ++ [j])) k') bl (skip_spaces s).
Proof.
  intros Hs. eapply moves_trans; [by apply moves_eatws|]. intros b d p q o. do 5 eexists.
  eapply rtc_l; [by apply tok_redo|]. apply rtc_once. by apply tok_redo.
Qed.

Lemma moves_object_add j k acc key sv bl s :
  peek (skip_spaces s) <> "/"%char ->
  moves (lv json_tokener_state_eatws json_tokener_state_finish j k)
    (lv json_tokener_state_object_value_add sv (JObject acc) (Some key) :: bl) s
    (lv json_tokener_state_eatws json_tokener_state_object_sep (JObject (members_add acc key j)) None) bl (skip_spaces s).
Proof.
  intros Hs. eapply moves_trans; [by apply moves_eatws|]. intros b d p q o. do 5 eexists.
  eapply rtc_l; [by apply tok_redo|]. apply rtc_once. by apply tok_redo.
Qed.

(** ** Strings and keys *)

(** The states that collect quoted text. *)
Definition quoting (st : json_tokener_state) : Prop :=
  st = json_tokener_state_string \/ st = json_tokener_state_object_field.

(** A plain character only moves from the input to the buffer. *)
Lemma quoting_plain st sv j k bl b d p o c s :
  quoting st -> c <> DQUOTE -> c <> "\"%char ->
  tokener_step strict max_depth (tk (lv st sv j k) bl b d p DQUOTE) o (String c s) =
  tokener_step strict max_depth (tk (lv st sv j k) bl (b +:+ one c) d p DQUOTE) o s.
Proof.
  intros Hst Hq Hb. apply Ascii.eqb_neq in Hq, Hb.
  assert (forall t, quote_char t = DQUOTE ->
    scan_quoted t (String c s) = let '(run, rest) := scan_quoted t s in (String c run, rest)) as E.
  { intros t Ht. unfold scan_quoted. rewrite Ht. cbn -[Ascii.eqb]. by rewrite Hq, Hb. }
  assert (forall x y : string, x +:+ String c y = (x +:+ one c) +:+ y) as Happ by (intros; by rewrite <- str_app_assoc).
  destruct Hst as [-> | ->]; cbn -[Ascii.eqb]; unfold do_string, do_object_field; rewrite !E by done;
    change (scan_quoted (tk ?r bl b d p DQUOTE)) with (scan_quoted (tk r bl (b +:+ one c) d p DQUOTE));
    destruct (scan_quoted _ s) as [run rest]; cbn -[Ascii.eqb];
    destruct rest; cbn -[Ascii.eqb]; by rewrite ?Happ.
Qed.

Lemma quoting_escape st sv j k bl b d p o s :
  quoting st ->
  step (tk (lv st sv j k) bl b d p DQUOTE, o, String "\" s)
       (tk (lv json_tokener_state_string_escape st j k) bl b d p DQUOTE, o, s).
Proof.
  intros Hst. eapply tok_advance.
  assert (forall t, scan_quoted t (String "\" s) = (EmptyString, String "\" s)) as E.
  { intros t. unfold scan_quoted. cbn [scan_until]. by rewrite orb_true_r. }
  destruct Hst as [-> | ->]; cbn -[Ascii.eqb]; unfold do_string, do_object_field; rewrite E;
    change ("\" =? DQUOTE)%char with false; cbn -[Ascii.eqb]; unfold escape_then, with_top, with_pb;
    cbn; by rewrite str_app_nil_r.
Qed.

Lemma escaped_char st j k bl b d p o c x s :
  quoting st -> do_string_escape (tk (lv json_tokener_state_string_escape st j k) bl b d p DQUOTE) o (String x s) =
    Advance (tk (lv st st j k) bl (b +:+ one c) d p DQUOTE) o (String x s) ->
  step (tk (lv json_tokener_state_string_escape st j k) bl b d p DQUOTE, o, String x s)
       (tk (lv st st j k) bl (b +:+ one c) d p DQUOTE, o, s).
Proof. intros Hst H. eapply tok_advance. cbn -[do_string_escape]. by rewrite H. Qed.

Lemma control_escape_hex4 c s : uchar_val c < 32 -> control_escape c +:+ s = String "\" (String "u" (hex4 (uchar_val c) s)).
Proof.
  intros Hc. pose proof (uchar_val_range c). unfold control_escape, hex4.
  assert (Z.land (uchar_val c) 0xf = uchar_val c mod 16) as -> by exact (Z.land_ones _ 4 ltac:(lia)).
  rewrite Z.shiftr_div_pow2 by lia. change (2 ^ 4) with 16.
  rewrite (Z.div_small _ 4096), (Z.div_small _ 256), (Z.mod_small (_ / 16)) by (Z.div_mod_to_equations; lia).
  reflexivity.
Qed.

Lemma unicode_control st j k bl b d o c s :
  uchar_val c < 32 ->
  step (tk (lv json_tokener_state_escape_unicode st j k) bl b d 0 DQUOTE, o, hex4 (uchar_val c) s)
       (tk (lv st st j k) bl (b +:+ one c) d 0 DQUOTE, o, s).
Proof.
  intros Hc. pose proof (uchar_val_range c). eapply tok_advance. cbn -[hex4 escape_unicode]. unfold do_escape_unicode.
  cbn [pb tk]. rewrite escape_hex4 by lia. unfold join_surrogate. rewrite Z.eqb_refl. unfold escape_complete.
  rewrite (proj2 (Z.ltb_lt _ _)) by lia. cbn [bytes foldr]. rewrite chr_uchar_val. reflexivity.
Qed.

(** At least one step leads to a configuration with [P]. *)
Definition hits (P : conf -> Prop) (c : conf) : Prop := exists c', P c' /\ tc step c c'.

Lemma hits_step P c c' : step c c' -> hits P c' -> hits P c.
Proof. intros Hs (c'' & HP & Ht). exists c''. split; [done|by eapply tc_l]. Qed.

Lemma hits_once (P : conf -> Prop) c c' : step c c' -> P c' -> hits P c.
Proof. intros Hs HP. exists c'. split; [done|by apply tc_once]. Qed.

(** The steps over the printed form of one character. *)
Lemma quoting_char flags st sv j k bl b d p o c s (P : conf -> Prop) :
  quoting st ->
  (forall sv' p', hits P (tk (lv st sv' j k) bl (b +:+ one c) d p' DQUOTE, o, s)) ->
  hits P (tk (lv st sv j k) bl b d p DQUOTE, o, escape_char flags c +:+ s).
Proof.
  intros Hst Hs. unfold escape_char.
  assert (c <> DQUOTE -> c <> "\"%char ->
    hits P (tk (lv st sv j k) bl b d p DQUOTE, o, String c s)) as Hplain.
  { intros Hq Hb. pose proof (quoting_plain st sv j k bl b d p o c s Hst Hq Hb) as E.
    destruct (Hs sv p) as (c' & Hc' & Ht). exists c'. split; [done|]. inversion Ht as [? ? H1|? y ? H1 H2]; subst.
    - apply tc_once. inversion H1; subst; [apply tok_redo|eapply tok_advance]; by rewrite E.
    - eapply tc_l; [|exact H2]. inversion H1; subst; [apply tok_redo|eapply tok_advance]; by rewrite E. }
  assert (forall x, do_string_escape (tk (lv json_tokener_state_string_escape st j k) bl b d p DQUOTE) o (String x s) =
      Advance (tk (lv st st j k) bl (b +:+ one c) d p DQUOTE) o (String x s) ->
    hits P (tk (lv st sv j k) bl b d p DQUOTE, o, String "\" (String x s))) as Hnamed.
  { intros x Hx. eapply hits_step; [by apply quoting_escape|]. eapply hits_step; [by apply escaped_char|]. apply Hs. }
  destruct (named_escape c) as [e|] eqn:En.
  - destruct (flag flags JSON_C_TO_STRING_NOSLASHESCAPE && (c =? "/")%char) eqn:Hf.
    + apply andb_true_iff in Hf as [_ Hf]. apply Ascii.eqb_eq in Hf as ->. by apply Hplain.
    + clear Hf. revert En. unfold named_escape.
      repeat (match goal with |- (if (c =? ?x)%char then _ else _) = _ -> _ =>
                destruct (Ascii.eqb_spec c x) as [->|]; [intros [= <-]; by apply Hnamed|] end).
      done.
  - destruct (Z.ltb_spec (uchar_val c) 32).
    + rewrite control_escape_hex4 by done. eapply hits_step; [by apply quoting_escape|].
      eapply hits_step; [by eapply tok_advance|]. eapply hits_step; [by apply unicode_control|]. apply Hs.
    + apply Hplain; intros ->; discriminate En.
Qed.

Lemma quoting_text flags st sv j k bl b d p o text s (P : conf -> Prop) :
  quoting st ->
  (forall sv' p', hits P (tk (lv st sv' j k) bl (b +:+ text) d p' DQUOTE, o, s)) ->
  hits P (tk (lv st sv j k) bl b d p DQUOTE, o, escape_chars flags text +:+ s).
Proof.
  revert b sv p. induction text as [|c text IH]; intros b sv p Hst Hs; cbn [escape_chars].
  - specialize (Hs sv p). by rewrite str_app_nil_r in Hs.
  - rewrite <- str_app_assoc. apply quoting_char; [done|]. intros sv' p'. apply IH; [done|].
    intros sv'' p''. specialize (Hs sv'' p''). by rewrite <- str_app_assoc.
Qed.

(** At the closing quote. *)
Lemma string_end sv j k bl b d p o s :
  step (tk (lv json_tokener_state_string sv j k) bl b d p DQUOTE, o, String DQUOTE s)
       (tk (lv json_tokener_state_eatws json_tokener_state_finish (JString b) k) bl b d p DQUOTE, o, s).
Proof.
  eapply tok_advance. cbn -[Ascii.eqb]. unfold do_string, scan_quoted. cbn [scan_until quote_char tk].
  rewrite Ascii.eqb_refl. cbn [orb]. cbn -[Ascii.eqb]. rewrite Ascii.eqb_refl.
  unfold finish_value, eatws_then, set_current, with_top, with_pb. cbn. by rewrite str_app_nil_r.
Qed.

Lemma key_end sv j k bl b d p o s :
  step (tk (lv json_tokener_state_object_field sv j k) bl b d p DQUOTE, o, String DQUOTE s)
       (tk (lv json_tokener_state_eatws json_tokener_state_object_field_end j (Some (c_str b))) bl b d p DQUOTE, o, s).
Proof.
  eapply tok_advance. cbn -[Ascii.eqb]. unfold do_object_field, scan_quoted. cbn [scan_until quote_char tk].
  rewrite Ascii.eqb_refl. cbn [orb]. cbn -[Ascii.eqb]. rewrite Ascii.eqb_refl.
  unfold eatws_then, set_field_name, with_top, with_pb. cbn. by rewrite str_app_nil_r.
Qed.

(** What [moves] asks of the end of a run of steps. *)
Definition reached (r : srec) (bl : list srec) (s : string) (c : conf) : Prop :=
  exists b d p q o, c = (tk r bl b d p q, o, s).

Lemma moves_hits r bl s r' bl' s' :
  (forall b d p q o, hits (reached r' bl' s') (tk r bl b d p q, o, s)) -> moves r bl s r' bl' s'.
Proof.
  intros H b d p q o. destruct (H b d p q o) as (c' & (b' & d' & p' & q' & o' & ->) & Ht).
  do 5 eexists. by apply tc_rtc.
Qed.

Lemma moves_string flags j k sv bl text s :
  moves (lv json_tokener_state_start sv j k) bl
    (json_object_string_to_json_string flags text +:+ s)
    (lv json_tokener_state_eatws json_tokener_state_finish (JString text) k) bl s.
Proof.
  apply moves_hits. intros b d p q o. unfold json_object_string_to_json_string, json_escape_str.
  rewrite json_escape_loop_eq, <- !str_app_assoc. cbn [String.append one].
  eapply hits_step; [by eapply tok_advance|]. apply (quoting_text flags); [by left|].
  intros sv' p'. eapply hits_once; [apply string_end|]. by do 5 eexists.
Qed.

(** A key and the colon behind it, from the opening quote on. *)
Lemma moves_key flags st j k sv bl key s :
  st = json_tokener_state_object_field_start \/ st = json_tokener_state_object_field_start_after_sep ->
  no_nul key = true ->
  moves (lv st sv j k) bl
    (one DQUOTE +:+ escape_chars flags key +:+ one DQUOTE +:+ ":" +:+ s)
    (lv json_tokener_state_eatws json_tokener_state_object_value j (Some key)) bl s.
Proof.
  intros Hst Hkey.
  apply moves_trans with (lv json_tokener_state_eatws json_tokener_state_object_field_end j (Some key)) bl (String ":" s).
  - apply moves_hits. intros b d p q o. cbn [String.append one].
    eapply hits_step; [by destruct Hst as [-> | ->]; eapply tok_advance|].
    apply (quoting_text flags); [by right|]. intros sv' p'. eapply hits_once; [apply key_end|].
    do 5 eexists. do 4 f_equal. cbn [String.append pb with_pb].
    unfold c_str. by rewrite (proj2 (strchr_str_forall key NUL)).
  - eapply moves_trans; [by apply moves_eatws|]. eapply moves_advance. intros b d p q o.
    by do 5 eexists.
Qed.

(** ** Words and numbers *)

Lemma word_step st sv j k bl b d p q o s :
  st = json_tokener_state_null \/ st = json_tokener_state_boolean ->
  tokener_step strict max_depth (tk (lv st sv j k) bl b d p q) o s =
    Ret (match word_verdict strict st (b +:+ one (peek s)) p with
         | Some None => Advance (tk (lv st sv j k) bl (b +:+ one (peek s)) d (S p) q) o s
         | Some (Some v) =>
             Redo (tk (lv json_tokener_state_eatws json_tokener_state_finish v k) bl (b +:+ one (peek s)) d p q) o s
         | None => fail (tk (lv st sv j k) bl (b +:+ one (peek s)) d p q)
                     (if decide (st = json_tokener_state_null) then json_tokener_error_parse_null
                      else json_tokener_error_parse_boolean) s
         end).
Proof.
  intros [-> | ->]; cbn -[word_matches Nat.min decide]; unfold do_null, do_boolean, fail; cbn -[word_matches Nat.min decide];
    repeat (destruct (word_matches _ _ _ _) || destruct (decide (p = _))); reflexivity.
Qed.

(** The word is [w1 ++ w2], and [w1] has been collected. *)
Lemma word_steps st sv j k bl d q o v w1 w2 s :
  st = json_tokener_state_null \/ st = json_tokener_state_boolean ->
  (forall u1 c u2, w2 = u1 +:+ String c u2 -> word_verdict strict st (w1 +:+ u1 +:+ one c) (String.length (w1 +:+ u1)) = Some None) ->
  (forall c, word_verdict strict st (w1 +:+ w2 +:+ one c) (String.length (w1 +:+ w2)) = Some (Some v)) ->
  exists p, rtc step (tk (lv st sv j k) bl w1 d (String.length w1) q, o, w2 +:+ s)
    (tk (lv json_tokener_state_eatws json_tokener_state_finish v k) bl (w1 +:+ w2 +:+ one (peek s)) d p q, o, s).
Proof.
  intros Hst. revert w1. induction w2 as [|c w2 IH]; intros w1 Hnext Hend.
  - eexists. apply rtc_once, tok_redo. rewrite word_step by done.
    specialize (Hend (peek s)). cbn [String.append] in *. rewrite str_app_nil_r in Hend. by rewrite Hend.
  - pose proof (Hnext EmptyString c w2 eq_refl) as Hc. cbn [String.append] in Hc. rewrite str_app_nil_r in Hc.
    destruct (IH (w1 +:+ one c)) as [p Hp].
    + intros u1 x u2 ->. rewrite <- !str_app_assoc. by apply (Hnext (String c u1) x u2).
    + intros x. rewrite <- !str_app_assoc. apply Hend.
    + exists p. rewrite <- !str_app_assoc in Hp. eapply rtc_l; [|exact Hp].
      eapply tok_advance. rewrite word_step by done. cbn [peek String.append]. rewrite Hc.
      rewrite str_length_app. cbn [String.length one]. by rewrite Nat.add_1_r.
Qed.

Lemma word_runs_spec st w1 w2 :
  word_runs strict st w1 w2 = true ->
  forall u1 c u2, w2 = u1 +:+ String c u2 -> word_verdict strict st (w1 +:+ u1 +:+ one c) (String.length (w1 +:+ u1)) = Some None.
Proof.
  revert w1. induction w2 as [|x w2 IH]; intros w1 Hr u1 c u2 E; [by destruct u1|]. cbn in Hr.
  destruct (word_verdict strict st (w1 +:+ one x) _) as [[|]|] eqn:Ev; try done.
  destruct u1 as [|y u1]; injection E as -> ->.
  - cbn [String.append]. by rewrite str_app_nil_r.
  - specialize (IH _ Hr u1 c u2 eq_refl). by rewrite <- !str_app_assoc in IH.
Qed.

Lemma moves_word sv j k bl (w : string) (v : json) s :
  (w = "null" /\ v = JNull) \/ (w = "true" /\ v = JBool true) \/ (w = "false" /\ v = JBool false)
  \/ (w = "NaN" /\ v = JDouble "NaN") ->
  moves (lv json_tokener_state_start sv j k) bl (w +:+ s)
        (lv json_tokener_state_eatws json_tokener_state_finish v k) bl s.
Proof.
  intros Hw.
  assert (exists st, (st = json_tokener_state_null \/ st = json_tokener_state_boolean) /\ word_runs strict st EmptyString w = true
    /\ (forall c, word_verdict strict st (w +:+ one c) (String.length w) = Some (Some v))
    /\ forall t o, do_start strict t o (w +:+ s) = Redo (with_st_pos (with_pb (set_state t st) EmptyString) 0) o (w +:+ s))
    as (st & Hst & Hr & He & Hstart).
  { destruct_or! Hw; destruct Hw as [-> ->];
      [exists json_tokener_state_null|exists json_tokener_state_boolean|exists json_tokener_state_boolean|exists json_tokener_state_null];
      (split; [by auto|]); (edestruct word_accepted as [Hr He]; [|split_and!; [apply Hr|apply He|done]]); set_solver. }
  intros b d p q o.
  destruct (word_steps st sv j k bl d q o v EmptyString w s Hst (word_runs_spec _ _ _ Hr) He) as [p' Hp].
  do 5 eexists. eapply rtc_l; [|exact Hp]. apply tok_redo. cbn -[do_start]. by rewrite Hstart.
Qed.

Lemma number_first c : isdigit c = true ->
  forall t o s, do_start strict t o (String c s) =
    Redo (with_is_double (with_pb (set_state t json_tokener_state_number) EmptyString) false) o (String c s).
Proof. intros Hc t o s. unfold do_start. destruct c as [[] [] [] [] [] [] [] []]; try discriminate Hc; destruct strict; reflexivity. Qed.

(** A text that the number loop accepts whole, up to a character that ends it. *)
Lemma moves_number sv j k bl text d v s :
  number_scan text 0 false false 1 = NumberDone text d EmptyString ->
  starts_digit text || (peek text =? "-")%char = true ->
  (peek text = "-"%char -> 1 < strlen text) ->
  number_value strict text d = Some v -> starts_number s = false ->
  moves (lv json_tokener_state_start sv j k) bl (text +:+ s)
        (lv json_tokener_state_eatws json_tokener_state_finish v k) bl s.
Proof.
  intros Hscan Hp Hlen Hv Hs.
  intros b d0 p q o. exists text, d, p, q, o.
  eapply rtc_l with (tk (lv json_tokener_state_number sv j k) bl EmptyString false p q, o, text +:+ s).
  { apply tok_redo. cbn -[do_start]. destruct text as [|c text]; [done|]. apply orb_true_iff in Hp as [Hp|Hp].
    - cbn [String.append]. by rewrite number_first.
    - cbn in Hp. apply Ascii.eqb_eq in Hp as ->. reflexivity. }
  apply rtc_once, tok_redo. cbn -[do_number]. unfold do_number. cbn [is_double tk].
  rewrite (number_scan_app _ _ _ _ _ _ _ Hscan Hs). cbn [String.append pb with_pb with_is_double tk].
  assert ((peek text =? "-")%char && (strlen text <=? 1) = false) as ->.
  { destruct (Ascii.eqb_spec (peek text) "-") as [E|]; [|done]. specialize (Hlen E). lia. }
  cbn [andb]. by rewrite Hv.
Qed.

(** Printed integers: no zero comes first, so strict reading accepts them. *)
Lemma pretty_N_go_first x s : (0 < x)%N -> exists c s', pretty_N_go x s = String c s' /\ isdigit c = true /\ c <> "0"%char.
Proof.
  revert s. induction (N.lt_wf_0 x) as [x _ IH]; intros s Hx. rewrite pretty_N_go_step by done.
  destruct (decide (0 < x `div` 10)%N) as [Hd|Hd]; [apply IH; [apply N.div_lt; lia|done]|].
  assert (x `div` 10 = 0)%N as -> by (apply N.le_0_r, N.nlt_ge, Hd). rewrite pretty_N_go_0.
  destruct (pretty_N_char_digit (x `mod` 10)) as [H1 H2]; [apply N.mod_lt; lia|].
  do 2 eexists. split_and!; [done|done|]. intros E. rewrite E in H2. change (uchar_val "0" - 48) with 0 in H2.
  pose proof (N.div_mod' x 10). lia.
Qed.

Lemma fmt_d_first z :
  (z = 0 /\ fmt_d z = "0") \/ (exists c s, fmt_d z = String c s /\ isdigit c = true /\ c <> "0"%char)
  \/ (exists c s, fmt_d z = String "-" (String c s)).
Proof.
  destruct (Z.lt_trichotomy z 0) as [Hz|[->|Hz]].
  - right; right. rewrite fmt_d_neg by done. destruct (pretty_N_cons (Z.to_N (- z))) as (c & s & -> & _). by do 2 eexists.
  - by left.
  - right; left. rewrite fmt_d_nonneg, pretty_N_eq, decide_False by lia. apply pretty_N_go_first. lia.
Qed.

Lemma str_take_all n s : (String.length s <= n)%nat -> str_take n s = s.
Proof. revert n. induction s as [|c s IH]; intros [|n]; cbn; try done; [lia|]. intros H. by rewrite IH by lia. Qed.

Lemma print_int z : is_long z -> json_object_int_to_json_string z = fmt_d z.
Proof.
  intros Hz. unfold json_object_int_to_json_string. apply str_take_all.
  pose proof (fmt_d_long_length z Hz). unfold strlen in *. lia.
Qed.

Lemma moves_int sv j k bl z s :
  is_long z -> starts_number s = false ->
  moves (lv json_tokener_state_start sv j k) bl (fmt_d z +:+ s)
        (lv json_tokener_state_eatws json_tokener_state_finish (JInt z) k) bl s.
Proof.
  intros Hz Hs. apply moves_number with false; [apply number_scan_fmt_d| | | |done].
  - destruct (fmt_d_first z) as [[_ ->]|[(c & t & -> & Hc & _)|(c & t & ->)]]; [done| |done]. cbn. by rewrite Hc.
  - destruct (fmt_d_first z) as [[_ ->]|[(c & t & -> & Hc & _)|(c & t & ->)]]; [done|cbn [peek]; by intros ->|].
    intros _. rewrite !strlen_cons. pose proof (strlen_nonneg t). lia.
  - unfold number_value. rewrite json_parse_int64_fmt_d by done.
    destruct (fmt_d_first z) as [[-> ->]|[(c & t & -> & _ & Hc)|(c & t & ->)]]; [done| |by rewrite andb_false_r].
    cbn [peek]. rewrite (proj2 (Ascii.eqb_neq c _)) by done. by rewrite andb_false_r.
Qed.

Lemma inf_scan_word s : inf_scan strict (if strict then "Infinity" else "infinity") ("Infinity" +:+ s) = (true, s).
Proof. by destruct strict. Qed.

Lemma inf_step sv j k bl b d p q o s :
  step (tk (lv json_tokener_state_inf sv j k) bl b d p q, o, "Infinity" +:+ s)
       (tk (lv json_tokener_state_eatws json_tokener_state_finish
              (JDouble (if (peek b =? "-")%char then "-Infinity" else "Infinity")) k) bl b d p q, o, s).
Proof.
  apply tok_redo. cbn -[inf_scan String.append]. unfold do_inf. rewrite inf_scan_word. reflexivity.
Qed.

Lemma moves_double sv j k bl t s :
  double_text t = true -> starts_number s = false ->
  moves (lv json_tokener_state_start sv j k) bl (t +:+ s)
        (lv json_tokener_state_eatws json_tokener_state_finish (JDouble t) k) bl s.
Proof.
  unfold double_text. intros Ht Hs. apply orb_true_iff in Ht as [Ht|Ht].
  - apply bool_decide_eq_true in Ht as [->|[->| ->]].
    + apply moves_word. by auto 10.
    + intros b d p q o. exists EmptyString, d, 0%nat, q, o.
      eapply rtc_l; [|apply rtc_once, (inf_step sv j k bl EmptyString)]. by apply tok_redo.
    + intros b d p q o. exists "-"%string, false, 0%nat, q, o.
      eapply rtc_l; [|eapply rtc_l; [|apply rtc_once, (inf_step sv j k bl "-")]].
      * apply tok_redo. reflexivity.
      * apply tok_redo. reflexivity.
  - destruct (number_scan t 0 false false 1) as [text d rest|] eqn:E; [|done].
    destruct rest; [|done]. pose proof (number_scan_double _ _ _ _ _ _ _ _ E) as E'.
    apply number_scan_Done in E as (-> & _ & _). rewrite str_app_nil_r in *.
    apply andb_true_iff in Ht as [Ht Hp]. apply andb_true_iff in Ht as [-> Hd].
    apply moves_number with true; [done|done| | |done].
    + intros Hm. destruct text as [|c [|x text]]; [done| |rewrite !strlen_cons; pose proof (strlen_nonneg text); lia].
      cbn in Hm. subst c. discriminate E'.
    + unfold number_value. by rewrite Hd.
Qed.

(** ** Arrays and objects *)
Variable flags : Z.

#[local] Abbreviation print := (_to_json_string flags).

(** The text behind a value neither goes on with a number nor opens a comment. *)
Definition follows (s : string) : Prop := starts_number s = false /\ peek (skip_spaces s) <> "/"%char.

Lemma follows_blank ws c s :
  str_forall isspace ws = true -> isspace c = false -> in_chars json_number_chars c = false -> c <> "/"%char ->
  follows (ws +:+ String c s) /\ skip_spaces (ws +:+ String c s) = String c s.
Proof.
  intros Hws Hc Hn Hs. assert (skip_spaces (ws +:+ String c s) = String c s) as E.
  { by rewrite skip_spaces_app, skip_spaces_stop. }
  unfold follows. rewrite E. split_and!; [|done..]. destruct ws as [|x ws]; [done|].
  cbn -[in_chars] in *. apply andb_true_iff in Hws as [Hx _]. revert Hx. by destruct x as [[] [] [] [] [] [] [] []].
Qed.

Lemma closing_follows level had c s :
  c = "]"%char \/ c = "}"%char ->
  follows (closing flags level had (String c "") +:+ s) /\ skip_spaces (closing flags level had (String c "") +:+ s) = String c s.
Proof.
  change (String c "") with (one c). intros Hc. unfold closing. rewrite <- str_app_assoc.
  set (ws := (if flag flags JSON_C_TO_STRING_PRETTY then _ else _)).
  assert (str_forall isspace ws = true) as Hws.
  { unfold ws. case_match; [|done]. rewrite str_forall_app, indent_blank. by case_match. }
  case_match.
  - replace (ws +:+ (" " +:+ one c) +:+ s) with ((ws +:+ " ") +:+ String c s) by by rewrite <- !str_app_assoc.
    apply follows_blank; [by rewrite str_forall_app, Hws|..]; by destruct Hc as [-> | ->].
  - apply follows_blank; [done|..]; by destruct Hc as [-> | ->].
Qed.

Lemma comma_follows s : follows (String "," s) /\ skip_spaces (String "," s) = String "," s.
Proof. by apply (follows_blank EmptyString). Qed.

(** Printed values start with a character of their own. *)
Definition value_start (s : string) : Prop :=
  exists c s', s = String c s' /\ isspace c = false /\ c <> "/"%char /\ c <> "]"%char.

Lemma print_start level j s : json_wf j -> value_start (print level j +:+ s).
Proof.
  intros Hj. destruct Hj as [|b|t Ht|z Hz|x|l Hl|m Hk Hm]; cbn [_to_json_string]; try by do 2 eexists.
  - destruct b; by do 2 eexists.
  - unfold double_text in Ht. apply orb_true_iff in Ht as [Ht|Ht].
    + apply bool_decide_eq_true in Ht as [->|[->| ->]]; by do 2 eexists.
    + destruct (number_scan t 0 false false 1) as [? d []|]; try done. apply andb_true_iff in Ht as [_ Hp].
      destruct t as [|c t]; [done|]. do 2 eexists. split; [reflexivity|]. cbn in Hp. revert Hp.
      by destruct c as [[] [] [] [] [] [] [] []].
  - rewrite print_int by done. destruct (fmt_d_first z) as [[_ ->]|[(c & t & -> & Hc & _)|(c & t & ->)]]; try by do 2 eexists.
    do 2 eexists. split; [reflexivity|]. revert Hc. by destruct c as [[] [] [] [] [] [] [] []].
Qed.

(** What is to be shown of every value. *)
Definition reads_back (j : json) : Prop :=
  forall level bl s, starts_number s = false -> (length bl + json_height j <= max_depth)%nat ->
    moves json_tokener_reset_level bl (print level j +:+ s) (lv json_tokener_state_eatws json_tokener_state_finish j None) bl s.

Lemma moves_reset bl s : value_start s ->
  moves json_tokener_reset_level bl s (lv json_tokener_state_start json_tokener_state_start JNull None) bl s.
Proof.
  intros (c & s' & -> & Hc & Hs & _).
  replace (String c s') with (skip_spaces (String c s')) at 2 by (by apply skip_spaces_stop).
  apply moves_eatws. by rewrite skip_spaces_stop.
Qed.

(** A level is opened for an element. *)
Lemma moves_open_element st acc k bl ws text :
  st = json_tokener_state_array \/ st = json_tokener_state_array_after_sep ->
  str_forall isspace ws = true -> value_start text -> (S (length bl) < max_depth)%nat ->
  moves (lv json_tokener_state_eatws st (JArray acc) k) bl (ws +:+ text)
        json_tokener_reset_level (lv json_tokener_state_array_add st (JArray acc) k :: bl) text.
Proof.
  intros Hst Hws (c & s' & -> & Hc & Hslash & Hb) Hd.
  assert (skip_spaces (ws +:+ String c s') = String c s') as Hskip by by rewrite skip_spaces_app, skip_spaces_stop.
  eapply moves_trans; [apply moves_eatws; by rewrite Hskip|]. rewrite Hskip.
  apply moves_redo. intros b d p q o. exists b, d, p, q, o.
  assert (tokener_step strict max_depth (tk (lv st st (JArray acc) k) bl b d p q) o (String c s')
          = Ret (do_array strict max_depth (tk (lv st st (JArray acc) k) bl b d p q) o (String c s'))) as ->
    by (by destruct Hst as [-> | ->]).
  unfold do_array. cbn [peek]. rewrite (proj2 (Ascii.eqb_neq c _)) by done.
  unfold depth. cbn [below tk]. by rewrite decide_False by lia.
Qed.

(** One element: blanks, the value, and what follows it. *)
Lemma moves_element st acc k bl ws v level s :
  st = json_tokener_state_array \/ st = json_tokener_state_array_after_sep ->
  str_forall isspace ws = true -> json_wf v -> reads_back v -> follows s ->
  (S (length bl) + json_height v <= max_depth)%nat ->
  moves (lv json_tokener_state_eatws st (JArray acc) k) bl (ws +:+ print level v +:+ s)
        (lv json_tokener_state_eatws json_tokener_state_array_sep (JArray (acc ++ [v])) k) bl (skip_spaces s).
Proof.
  intros Hst Hws Hv Hr [Hs1 Hs2] Hd. pose proof (json_height_pos v) as Hh.
  eapply moves_trans; [apply moves_open_element; [done|done|by apply print_start|lia]|].
  eapply moves_trans; [apply Hr; [done|cbn; lia]|]. by apply moves_array_add.
Qed.

Lemma moves_array_comma j k bl s :
  moves (lv json_tokener_state_array_sep json_tokener_state_array_sep j k) bl (String "," s)
        (lv json_tokener_state_eatws json_tokener_state_array_after_sep j k) bl s.
Proof. eapply moves_advance. intros b d p q o. by do 5 eexists. Qed.

Lemma moves_object_comma j k bl s :
  moves (lv json_tokener_state_object_sep json_tokener_state_object_sep j k) bl (String "," s)
        (lv json_tokener_state_eatws json_tokener_state_object_field_start_after_sep j k) bl s.
Proof. eapply moves_advance. intros b d p q o. by do 5 eexists. Qed.

Lemma moves_array_tail level l acc k bl s0 s :
  Forall json_wf l -> Forall reads_back l -> Forall (fun v => S (length bl) + json_height v <= max_depth)%nat l ->
  skip_spaces s0 = skip_spaces (array_elements flags (print (S level)) level l true +:+ closing flags level true "]" +:+ s) ->
  moves (lv json_tokener_state_eatws json_tokener_state_array_sep (JArray acc) k) bl s0
        (lv json_tokener_state_eatws json_tokener_state_finish (JArray (acc ++ l)) k) bl s.
Proof.
  revert acc s0. induction l as [|v l IH]; intros acc s0 Hw Hr Hd; cbn [array_elements String.append].
  - destruct (closing_follows level true "]" s) as [_ ->]; [by left|]. intros Hs0. rewrite app_nil_r.
    eapply moves_trans; [apply moves_eatws; by rewrite Hs0|]. rewrite Hs0.
    eapply moves_advance. intros b d p q o. by do 5 eexists.
  - inversion Hw; inversion Hr; inversion Hd; subst. unfold separator. cbn [String.append]. rewrite <- !str_app_assoc.
    cbn [String.append]. rewrite (proj2 (comma_follows _)). intros Hs0.
    eapply moves_trans; [apply moves_eatws; by rewrite Hs0|]. rewrite Hs0.
    eapply moves_trans; [apply moves_array_comma|].
    rewrite (str_app_assoc (space flags)), (str_app_assoc (newline flags)).
    replace (acc ++ v :: l) with ((acc ++ [v]) ++ l) by by rewrite <- app_assoc.
    eapply moves_trans; [apply moves_element; try done; [by right|by rewrite !str_forall_app, newline_blank, space_blank, indent_blank|]|].
    + destruct l; cbn [array_elements String.append]; [apply closing_follows; by left|apply comma_follows].
    + apply IH; [done..|]. by rewrite skip_spaces_idem.
Qed.

Lemma moves_array level l bl s :
  Forall json_wf l -> Forall reads_back l -> Forall (fun v => S (length bl) + json_height v <= max_depth)%nat l ->
  moves (lv json_tokener_state_start json_tokener_state_start JNull None) bl
        (json_object_array_to_json_string flags (print (S level)) level l +:+ s)
        (lv json_tokener_state_eatws json_tokener_state_finish (JArray l) None) bl s.
Proof.
  intros Hw Hr Hd. unfold json_object_array_to_json_string. rewrite <- !str_app_assoc.
  eapply moves_trans.
  { instantiate (1 := (newline flags +:+ array_elements flags (print (S level)) level l false +:+
      closing flags level (match l with [] => false | _ => true end) "]" +:+ s)).
    instantiate (1 := bl). instantiate (1 := lv json_tokener_state_eatws json_tokener_state_array (JArray []) None).
    eapply moves_advance. intros b d p q o. by do 5 eexists. }
  destruct l as [|v l]; cbn [array_elements String.append].
  - destruct (closing_follows level false "]" s) as [_ E]; [by left|].
    rewrite <- (skip_spaces_app (newline flags)) in E by auto with hub.
    eapply moves_trans; [apply moves_eatws; by rewrite E|]. rewrite E.
    eapply moves_advance. intros b d p q o. by do 5 eexists.
  - inversion Hw; inversion Hr; inversion Hd; subst. unfold separator. cbn [String.append]. rewrite <- !str_app_assoc.
    rewrite (str_app_assoc (space flags)), (str_app_assoc (newline flags)).
    eapply moves_trans; [apply moves_element; try done; [by left|by rewrite !str_forall_app, newline_blank, space_blank, indent_blank|]|].
    + destruct l; cbn [array_elements String.append]; [apply closing_follows; by left|apply comma_follows].
    + apply (moves_array_tail level l [v]); [done..|]. by rewrite skip_spaces_idem.
Qed.

(** One member, up to the state that waits for a comma or the end. *)
Lemma moves_member st acc k bl ws key v level s :
  st = json_tokener_state_object_field_start \/ st = json_tokener_state_object_field_start_after_sep ->
  str_forall isspace ws = true -> no_nul key = true -> json_wf v -> reads_back v -> follows s ->
  (S (length bl) + json_height v <= max_depth)%nat ->
  moves (lv json_tokener_state_eatws st (JObject acc) k) bl
        (ws +:+ one DQUOTE +:+ escape_chars flags key +:+ one DQUOTE +:+ ":" +:+ space flags +:+ print level v +:+ s)
        (lv json_tokener_state_eatws json_tokener_state_object_sep (JObject (members_add acc key v)) None) bl (skip_spaces s).
Proof.
  intros Hst Hws Hkey Hv Hr [Hs1 Hs2] Hd. pose proof (json_height_pos v) as Hh.
  pose proof (print_start level v s Hv) as (c & s' & E & Hc & Hslash & Hb).
  set (after := space flags +:+ print level v +:+ s).
  assert (skip_spaces (ws +:+ one DQUOTE +:+ escape_chars flags key +:+ one DQUOTE +:+ ":" +:+ after)
          = one DQUOTE +:+ escape_chars flags key +:+ one DQUOTE +:+ ":" +:+ after) as Hskip by by rewrite skip_spaces_app.
  eapply moves_trans; [apply moves_eatws; by rewrite Hskip|]. rewrite Hskip.
  eapply moves_trans; [by apply moves_key|].
  assert (skip_spaces after = print level v +:+ s) as Hskip2.
  { unfold after. rewrite skip_spaces_app, E by auto with hub. by apply skip_spaces_stop. }
  eapply moves_trans; [apply moves_eatws; by rewrite Hskip2, E|]. rewrite Hskip2.
  apply moves_trans with json_tokener_reset_level
    (lv json_tokener_state_object_value_add json_tokener_state_object_value (JObject acc) (Some key) :: bl) (print level v +:+ s).
  { apply moves_redo. intros b d p q o. exists b, d, p, q, o. cbn -[do_object_value]. unfold do_object_value, depth.
    cbn [below tk]. by rewrite decide_False by lia. }
  eapply moves_trans; [apply Hr; [done|cbn; lia]|]. by apply moves_object_add.
Qed.

Lemma members_add_new m k v : k ∉ m.*1 -> members_add m k v = m ++ [(k, v)].
Proof.
  induction m as [|[k' v'] m IH]; cbn -[decide]; intros Hk; [done|]. rewrite decide_False by set_solver.
  by rewrite IH by set_solver.
Qed.

(** What is asked of the members of an object. *)
Definition member_ok (bl : list srec) (kv : string * json) : Prop :=
  no_nul kv.1 = true /\ json_wf kv.2 /\ reads_back kv.2 /\ (S (length bl) + json_height kv.2 <= max_depth)%nat.

Lemma c_str_no_nul k : no_nul k = true -> c_str k = k.
Proof. intros Hk. unfold c_str. by rewrite (proj2 (strchr_str_forall k NUL)). Qed.

Lemma escape_key k : no_nul k = true -> json_escape_str flags (c_str k) = escape_chars flags k.
Proof. intros Hk. rewrite c_str_no_nul by done. apply json_escape_loop_eq. Qed.

Lemma moves_object_tail level m acc bl s0 s :
  NoDup (acc ++ m).*1 -> Forall (member_ok bl) m ->
  skip_spaces s0 = skip_spaces (object_members flags (print (S level)) level m true +:+ closing flags level true "}" +:+ s) ->
  moves (lv json_tokener_state_eatws json_tokener_state_object_sep (JObject acc) None) bl s0
        (lv json_tokener_state_eatws json_tokener_state_finish (JObject (acc ++ m)) None) bl s.
Proof.
  intros Hnd Hm. revert acc s0 Hnd. induction Hm as [|[key v] m (Hk & Hw & Hr & Hd) Hm IH]; intros acc s0 Hnd;
    cbn [object_members String.append].
  - destruct (closing_follows level true "}" s) as [_ ->]; [by right|]. intros Hs0. rewrite app_nil_r.
    eapply moves_trans; [apply moves_eatws; by rewrite Hs0|]. rewrite Hs0.
    eapply moves_advance. intros b d p q o. by do 5 eexists.
  - cbn [fst snd] in *. unfold separator. cbn [String.append]. rewrite escape_key, <- !str_app_assoc by done.
    cbn [String.append]. rewrite (proj2 (comma_follows _)). intros Hs0.
    eapply moves_trans; [apply moves_eatws; by rewrite Hs0|]. rewrite Hs0.
    eapply moves_trans; [apply moves_object_comma|].
    rewrite (str_app_assoc (space flags) (indent _ _)), (str_app_assoc (newline flags)).
    assert (key ∉ acc.*1) as Hnew.
    { rewrite fmap_app, NoDup_app in Hnd. cbn in Hnd. destruct Hnd as (_ & Hdis & _). intros Hin.
      apply (Hdis key Hin). set_solver. }
    eapply moves_trans; [apply (moves_member _ acc None bl _ key v (S level)); try done;
      [by right|by rewrite !str_forall_app, newline_blank, space_blank, indent_blank|]|].
    + destruct m as [|[]]; cbn [object_members String.append]; [apply closing_follows; by right|apply comma_follows].
    + rewrite members_add_new by done. replace (acc ++ (key, v) :: m) with ((acc ++ [(key, v)]) ++ m) in * by by rewrite <- app_assoc.
      apply IH; [done|]. by rewrite skip_spaces_idem.
Qed.

Lemma moves_object level m bl s :
  NoDup m.*1 -> Forall (member_ok bl) m ->
  moves (lv json_tokener_state_start json_tokener_state_start JNull None) bl
        (json_object_object_to_json_string flags (print (S level)) level m +:+ s)
        (lv json_tokener_state_eatws json_tokener_state_finish (JObject m) None) bl s.
Proof.
  intros Hnd Hm. unfold json_object_object_to_json_string. rewrite <- !str_app_assoc.
  eapply moves_trans.
  { instantiate (1 := (newline flags +:+ object_members flags (print (S level)) level m false +:+
      closing flags level (match m with [] => false | _ => true end) "}" +:+ s)).
    instantiate (1 := bl). instantiate (1 := lv json_tokener_state_eatws json_tokener_state_object_field_start (JObject []) None).
    eapply moves_advance. intros b d p q o. by do 5 eexists. }
  destruct Hm as [|[key v] m (Hk & Hw & Hr & Hd) Hm]; cbn [object_members String.append].
  - destruct (closing_follows level false "}" s) as [_ E]; [by right|].
    rewrite <- (skip_spaces_app (newline flags)) in E by auto with hub.
    eapply moves_trans; [apply moves_eatws; by rewrite E|]. rewrite E.
    eapply moves_advance. intros b d p q o. by do 5 eexists.
  - cbn [fst snd] in *. unfold separator. cbn [String.append]. rewrite escape_key, <- !str_app_assoc by done.
    rewrite (str_app_assoc (space flags) (indent _ _)), (str_app_assoc (newline flags)).
    eapply moves_trans; [apply (moves_member _ [] None bl _ key v (S level)); try done;
      [by left|by rewrite !str_forall_app, newline_blank, space_blank, indent_blank|]|].
    + destruct m as [|[]]; cbn [object_members String.append]; [apply closing_follows; by right|apply comma_follows].
    + apply (moves_object_tail level m [(key, v)]); [done..|]. by rewrite skip_spaces_idem.
Qed.

(** ** Every document *)

Lemma json_reads_back j : json_wf j -> reads_back j.
Proof.
  induction j as [| | | |text|l IH|m IH]; intros Hj level bl rest Hs Hd;
    (eapply moves_trans; [apply moves_reset; by apply print_start|]); inversion Hj; subst; cbn [_to_json_string].
  - apply moves_word. by auto.
  - apply moves_word. destruct b; by auto.
  - by apply moves_double.
  - rewrite print_int by done. by apply moves_int.
  - apply moves_string.
  - apply moves_array; [done| |].
    + apply Forall_forall. rewrite !Forall_forall in *. auto.
    + pose proof (proj1 (json_height_array l (pred (json_height (JArray l)))) (ltac:(cbn; lia))) as Hl.
      eapply Forall_impl; [exact Hl|]. intros v Hv. cbn in *. lia.
  - apply moves_object; [done|].
    pose proof (proj1 (json_height_object m (pred (json_height (JObject m)))) (ltac:(cbn; lia))) as Hl.
    rewrite !Forall_forall in *. intros [key v] Hin. unfold member_ok. cbn.
    match goal with H : forall x, _ -> no_nul x.1 = true /\ _ |- _ => destruct (H (key, v) Hin) as [Hk Hv] end.
    specialize (Hl (key, v) Hin). cbn in *. split_and!; [done|done|by apply (IH (key, v))|lia].
Qed.
End steps.

(** ** From steps to the main loop *)

Lemma loop_follows strict max_depth c c' fuel r :
  rtc (tok_step strict max_depth) c c' ->
  tokener_loop strict max_depth fuel c.1.1 c.1.2 c.2 = Ret r ->
  exists fuel', tokener_loop strict max_depth fuel' c'.1.1 c'.1.2 c'.2 = Ret r.
Proof.
  intros Hc. revert fuel. induction Hc as [|c1 c2 c3 Hs _ IH]; intros fuel Hr; [by eexists|].
  destruct fuel as [|fuel]; [done|]. apply (IH fuel). destruct Hs as [t o s t' o' s' E|t o s t' o' x s' E];
    cbn in Hr; rewrite E in Hr; exact Hr.
Qed.

(** Where the steps of a new tokener lead, its loop ends. *)
Lemma parse_follows strict max_depth s r bl s' :
  (0 < max_depth)%nat -> strlen s <= INT32_MAX ->
  moves strict max_depth json_tokener_reset_level [] s r bl s' ->
  exists t rest fuel b d p q o,
    json_tokener_parse_ex strict max_depth s =
      Ret (if decide (err (out_error strict t rest) = json_tokener_success) then current (top (out_error strict t rest)) else JNull,
           err (out_error strict t rest))
    /\ tokener_loop strict max_depth fuel (tk r bl b d p q) o s' = Ret (t, rest).
Proof.
  intros Hd Hlen Hm. unfold json_tokener_parse_ex. rewrite (proj2 (Z.ltb_ge _ _)) by done.
  destruct (tokener_loop_ok strict max_depth (parse_fuel s) json_tokener_new JNull s (new_inv max_depth s Hd)) as (t & rest & E & _).
  { unfold loop_measure, parse_fuel. cbn. lia. }
  rewrite E. cbn [mbind comp_bind].
  destruct (Hm EmptyString false 0%nat NUL JNull) as (b & d & p & q & o & Hsteps).
  destruct (loop_follows _ _ _ _ (parse_fuel s) (t, rest) Hsteps E) as [fuel Hr].
  exists t, rest, fuel, b, d, p, q, o. by split.
Qed.

Lemma parse_printed strict max_depth flags j :
  json_document max_depth j -> strlen (json_object_to_json_string_ext flags j) <= INT32_MAX ->
  json_tokener_parse_ex strict max_depth (json_object_to_json_string_ext flags j) = Ret (j, json_tokener_success).
Proof.
  intros [Hw Hh] Hlen. pose proof (json_height_pos j) as Hpos.
  pose proof (json_reads_back strict max_depth flags j Hw 0%nat [] EmptyString eq_refl Hh) as Hm. rewrite str_app_nil_r in Hm.
  destruct (parse_follows strict max_depth _ _ _ _ ltac:(lia) Hlen Hm) as (t & rest & fuel & b & d & p & q & o & -> & Hr).
  destruct fuel as [|[|fuel]]; [done|done|]. cbn in Hr. injection Hr as <- <-. reflexivity.
Qed.

(** C12: json-c reads back what it prints: for every well-formed document that
    fits the depth, whatever the formatting flags and whether or not reading is
    strict, the printed text is accepted and gives the document again, with
    its members in their order. *)
Theorem parse_print strict max_depth flags j :
  json_document max_depth j -> strlen (json_object_to_json_string_ext flags j) <= INT32_MAX ->
  json_tokener_parse_ex strict max_depth (json_object_to_json_string_ext flags j) = Ret (j, json_tokener_success).
Proof. apply parse_printed. Qed.

(** The flags the hub prints with. *)
Definition HUB_TO_STRING : Z := Z.lor JSON_C_TO_STRING_PLAIN JSON_C_TO_STRING_NOSLASHESCAPE.

#[export] Instance json_c_codec : JsonCodec json_tokener_parse (json_object_to_json_string_ext HUB_TO_STRING).
Proof.
  split; [exact parse_document|]. intros j Hj Hnull Hlen.
  unfold json_tokener_parse, json_tokener_parse_verbose. rewrite parse_printed by done. by destruct j.
Qed.

(** Documents come back from text as they were. *)
Definition demo_document : json :=
  JObject [("a/b", JArray [JNull; JBool true; JInt (-9223372036854775808); JDouble "2.50e+1"]);
           ("t" +:+ one TAB, JString (one DQUOTE +:+ "x\y" +:+ one (chr 1) +:+ one (chr 200))); ("o", JObject [])].

Lemma demo_document_ok : json_document 3 demo_document.
Proof.
  split; [|vm_compute; lia]. repeat constructor; try (by vm_compute); set_solver.
Qed.

Lemma parse_print_witness :
  json_tokener_parse_ex true 3 (json_object_to_json_string_ext (Z.lor JSON_C_TO_STRING_PRETTY JSON_C_TO_STRING_SPACED) demo_document)
    = Ret (demo_document, json_tokener_success).
Proof. apply parse_print; [exact demo_document_ok|by vm_compute]. Defined.

(** ** A text that ends inside a comment *)

Lemma scan_until_all stop s : str_forall (fun c => negb (stop c)) s = true -> scan_until stop s = (s, EmptyString).
Proof.
  intros Hs. rewrite <- (str_app_nil_r s) at 1. rewrite scan_until_app; [by rewrite ?str_app_nil_r|done|by right].
Qed.

Lemma moves_comment max_depth j k bl sv s :
  moves false max_depth (lv json_tokener_state_eatws sv j k) bl ("/*" +:+ s) (lv json_tokener_state_comment sv j k) bl s.
Proof.
  apply moves_trans with (lv json_tokener_state_comment_start sv j k) bl (String "*" s);
    eapply moves_advance; intros b d p q o; by do 5 eexists.
Qed.

(** A text that breaks off inside a comment is taken for complete even
    when an array is still open: the result is the last value before the
    comment, with no error. *)
Theorem unclosed_comment_accepted max_depth flags v y :
  json_document (pred max_depth) v -> str_forall (fun c => negb (c =? "*")%char) y = true ->
  let s := "[" +:+ _to_json_string flags 0 v +:+ "/*" +:+ y in
  strlen s <= INT32_MAX ->
  json_tokener_parse_ex false max_depth s = Ret (v, json_tokener_success).
Proof.
  intros [Hw Hh] Hy s Hlen. pose proof (json_height_pos v) as Hpos.
  assert (moves false max_depth json_tokener_reset_level [] s (lv json_tokener_state_comment json_tokener_state_finish v None)
            [lv json_tokener_state_array_add json_tokener_state_array (JArray []) None] y) as Hm.
  { apply moves_trans with (lv json_tokener_state_eatws json_tokener_state_array (JArray []) None) []
                           (_to_json_string flags 0 v +:+ "/*" +:+ y).
    { eapply moves_trans; [by apply moves_eatws|]. eapply moves_advance. intros b d p q o. by do 5 eexists. }
    eapply moves_trans; [apply (moves_open_element false max_depth json_tokener_state_array [] None [] EmptyString);
      [by left|done|by apply print_start|cbn; lia]|].
    eapply moves_trans; [apply (json_reads_back false max_depth flags v Hw); [done|cbn; lia]|].
    apply moves_comment. }
  destruct (parse_follows false max_depth _ _ _ _ ltac:(lia) Hlen Hm) as (t & rest & fuel & b & d & p & q & o & -> & Hr).
  destruct fuel as [|fuel]; [done|]. cbn -[scan_until do_comment] in Hr. unfold do_comment in Hr.
  rewrite scan_until_all in Hr by done. cbn in Hr. injection Hr as <- <-. reflexivity.
Qed.

Lemma unclosed_comment_accepted_witness :
  json_tokener_parse_ex false 32 "[{}/* and then nothing" = Ret (JObject [], json_tokener_success).
Proof.
  apply (unclosed_comment_accepted 32 HUB_TO_STRING (JObject []) " and then nothing");
    [split; [by repeat constructor|vm_compute; lia]|by vm_compute|by vm_compute].
Defined.
