(* ===== verification/StringHash.v ===== *)
(** * The hash functions of json-c's tables (json-c/source/linkhash.c)

    A key may lie at any address, and [hashlittle] reads words, halves or bytes
    there as the address allows.  The hash must not depend on it. *)

From Stdlib Require Import Ascii.
From S2P Require Import Prelude CString.

Local Open Scope Z_scope.

(** ** Hash functions *)

(** A [uint32_t] is a [Z] below 2^32; the key is the memory from its address
    on, as bytes. *)
Definition rot (x k : Z) : Z := to_uint (Z.lor (Z.shiftl x k) (Z.shiftr x (32 - k))).

Definition mix (s : Z * Z * Z) : Z * Z * Z :=
  let '(a, b, c) := s in
  let a := to_uint (a - c) in let a := Z.lxor a (rot c 4) in let c := to_uint (c + b) in
  let b := to_uint (b - a) in let b := Z.lxor b (rot a 6) in let a := to_uint (a + c) in
  let c := to_uint (c - b) in let c := Z.lxor c (rot b 8) in let b := to_uint (b + a) in
  let a := to_uint (a - c) in let a := Z.lxor a (rot c 16) in let c := to_uint (c + b) in
  let b := to_uint (b - a) in let b := Z.lxor b (rot a 19) in let a := to_uint (a + c) in
  let c := to_uint (c - b) in let c := Z.lxor c (rot b 4) in let b := to_uint (b + a) in
  (a, b, c).

Definition final (s : Z * Z * Z) : Z :=
  let '(a, b, c) := s in
  let c := Z.lxor c b in let c := to_uint (c - rot b 14) in
  let a := Z.lxor a c in let a := to_uint (a - rot c 11) in
  let b := Z.lxor b a in let b := to_uint (b - rot a 25) in
  let c := Z.lxor c b in let c := to_uint (c - rot b 16) in
  let a := Z.lxor a c in let a := to_uint (a - rot c 4) in
  let b := Z.lxor b a in let b := to_uint (b - rot a 14) in
  let c := Z.lxor c b in to_uint (c - rot b 24).

(** [x += v] *)
Definition plus (x v : Z) : Z := to_uint (x + v).

(** [k[i]] for pointers to 8, 16 and 32 bits, on a little-endian machine. *)
Definition k8 (k : list Z) (i : Z) : comp Z := arr_get k i.
Definition k16 (k : list Z) (i : Z) : comp Z :=
  let* l := arr_get k (2 * i) in let* h := arr_get k (2 * i + 1) in Ret (l + 256 * h).
Definition k32 (k : list Z) (i : Z) : comp Z :=
  let* l := k16 k (2 * i) in let* h := k16 k (2 * i + 1) in Ret (l + 65536 * h).

(** [k[i] + (((uint32_t)k[i + 1]) << 16)] over 16 bits. *)
Definition k16_2 (k : list Z) (i : Z) : comp Z :=
  let* l := k16 k i in let* h := k16 k (i + 1) in Ret (l + Z.shiftl h 16).

(** One block of twelve bytes, read as words, as halves, or byte by byte. *)
Definition block32 (k : list Z) (s : Z * Z * Z) : comp (Z * Z * Z) :=
  let '(a, b, c) := s in
  let* x := k32 k 0 in let* y := k32 k 1 in let* z := k32 k 2 in Ret (plus a x, plus b y, plus c z).
Definition block16 (k : list Z) (s : Z * Z * Z) : comp (Z * Z * Z) :=
  let '(a, b, c) := s in
  let* x := k16_2 k 0 in let* y := k16_2 k 2 in let* z := k16_2 k 4 in Ret (plus a x, plus b y, plus c z).
(** Four bytes into one word: [x += k[i]], [x += k[i+1] << 8], ... *)
Definition add8 (k : list Z) (x i : Z) : comp Z :=
  let* b0 := k8 k i in let* b1 := k8 k (i + 1) in let* b2 := k8 k (i + 2) in let* b3 := k8 k (i + 3) in
  Ret (plus (plus (plus (plus x b0) (Z.shiftl b1 8)) (Z.shiftl b2 16)) (Z.shiftl b3 24)).
Definition block8 (k : list Z) (s : Z * Z * Z) : comp (Z * Z * Z) :=
  let '(a, b, c) := s in
  let* a := add8 k a 0 in let* b := add8 k b 4 in let* c := add8 k c 8 in Ret (a, b, c).

(** The loop over all blocks but the last: the state, the length and the
    pointer at its end. *)
Fixpoint hash_loop (block : list Z -> Z * Z * Z -> comp (Z * Z * Z)) (fuel : nat) (k : list Z) (length : Z) (s : Z * Z * Z)
    : comp (Z * Z * Z * Z * list Z) :=
  match fuel with
  | O => Err OutOfFuel
  | S fuel =>
      if 12 <? length then
        let* s := block k s in hash_loop block fuel (drop 12 k) (length - 12) (mix s)
      else Ret (s, length, k)
  end.

(** The last block: [None] for the empty one, which is not mixed.  [add x i] is
    [x += k[i]], [part x i m] is [x += k[i] & m]. *)
Definition last32 (k : list Z) (length : Z) (s : Z * Z * Z) : comp (option (Z * Z * Z)) :=
  let '(a, b, c) := s in
  let add (x i : Z) := let* w := k32 k i in Ret (plus x w) in
  let part (x i m : Z) := let* w := k32 k i in Ret (plus x (Z.land w m)) in
  match length with
  | 12 => let* c := add c 2 in let* b := add b 1 in let* a := add a 0 in Ret (Some (a, b, c))
  | 11 => let* c := part c 2 0xffffff in let* b := add b 1 in let* a := add a 0 in Ret (Some (a, b, c))
  | 10 => let* c := part c 2 0xffff in let* b := add b 1 in let* a := add a 0 in Ret (Some (a, b, c))
  | 9 => let* c := part c 2 0xff in let* b := add b 1 in let* a := add a 0 in Ret (Some (a, b, c))
  | 8 => let* b := add b 1 in let* a := add a 0 in Ret (Some (a, b, c))
  | 7 => let* b := part b 1 0xffffff in let* a := add a 0 in Ret (Some (a, b, c))
  | 6 => let* b := part b 1 0xffff in let* a := add a 0 in Ret (Some (a, b, c))
  | 5 => let* b := part b 1 0xff in let* a := add a 0 in Ret (Some (a, b, c))
  | 4 => let* a := add a 0 in Ret (Some (a, b, c))
  | 3 => let* a := part a 0 0xffffff in Ret (Some (a, b, c))
  | 2 => let* a := part a 0 0xffff in Ret (Some (a, b, c))
  | 1 => let* a := part a 0 0xff in Ret (Some (a, b, c))
  | _ => Ret None
  end.

(** With the bytes [k8] of the same address for odd ends; a case that falls
    through goes on with the next. *)
Definition last16 (k : list Z) (length : Z) (s : Z * Z * Z) : comp (option (Z * Z * Z)) :=
  let '(a, b, c) := s in
  let ka := let* x := k16_2 k 0 in Ret (plus a x) in
  let kb := let* x := k16_2 k 2 in Ret (plus b x) in
  let case10 (c : Z) := let* x := k16 k 4 in let* b := kb in let* a := ka in Ret (Some (a, b, plus c x)) in
  let case8 (c : Z) := let* b := kb in let* a := ka in Ret (Some (a, b, c)) in
  let case6 (b : Z) := let* x := k16 k 2 in let* a := ka in Ret (Some (a, plus b x, c)) in
  let case4 (b : Z) := let* a := ka in Ret (Some (a, b, c)) in
  let case2 (a : Z) := let* x := k16 k 0 in Ret (Some (plus a x, b, c)) in
  match length with
  | 12 => let* x := k16_2 k 4 in let* b := kb in let* a := ka in Ret (Some (a, b, plus c x))
  | 11 => let* x := k8 k 10 in case10 (plus c (Z.shiftl x 16))
  | 10 => case10 c
  | 9 => let* x := k8 k 8 in case8 (plus c x)
  | 8 => case8 c
  | 7 => let* x := k8 k 6 in case6 (plus b (Z.shiftl x 16))
  | 6 => case6 b
  | 5 => let* x := k8 k 4 in case4 (plus b x)
  | 4 => case4 b
  | 3 => let* x := k8 k 2 in case2 (plus a (Z.shiftl x 16))
  | 2 => case2 a
  | 1 => let* x := k8 k 0 in Ret (Some (plus a x, b, c))
  | _ => Ret None
  end.

(** Every case falls through: byte [i], shifted, if the block has it. *)
Definition add_byte (k : list Z) (length i sh x : Z) : comp Z :=
  if i <? length then let* v := k8 k i in Ret (plus x (Z.shiftl v sh)) else Ret x.
Definition last8 (k : list Z) (length : Z) (s : Z * Z * Z) : comp (option (Z * Z * Z)) :=
  let '(a, b, c) := s in
  if length =? 0 then Ret None
  else
    let* c := add_byte k length 11 24 c in let* c := add_byte k length 10 16 c in
    let* c := add_byte k length 9 8 c in let* c := add_byte k length 8 0 c in
    let* b := add_byte k length 7 24 b in let* b := add_byte k length 6 16 b in
    let* b := add_byte k length 5 8 b in let* b := add_byte k length 4 0 b in
    let* a := add_byte k length 3 24 a in let* a := add_byte k length 2 16 a in
    let* a := add_byte k length 1 8 a in let* a := add_byte k length 0 0 a in
    Ret (Some (a, b, c)).

Definition hash_path (block : list Z -> Z * Z * Z -> comp (Z * Z * Z)) (last : list Z -> Z -> Z * Z * Z -> comp (option (Z * Z * Z)))
    (key : list Z) (length x : Z) : comp Z :=
  let* (s, length, k) := hash_loop block (S (Z.to_nat length)) key length (x, x, x) in
  let* r := last k length s in
  Ret (match r with Some s => final s | None => s.2 end).

(** [addr] is the address of the key. *)
Definition hashlittle (addr : Z) (key : list Z) (length initval : Z) : comp Z :=
  let x := to_uint (0xdeadbeef + to_uint length + initval) in
  if Z.land addr 3 =? 0 then hash_path block32 last32 key length x
  else if Z.land addr 1 =? 0 then hash_path block16 last16 key length x
  else hash_path block8 last8 key length x.

Definition lh_perllike_str_hash (k : string) : Z :=
  fold_left (fun hashval c => to_uint (hashval * 33 + char_val c)) (String.list_ascii_of_string k) 1.

Definition LH_PRIME : Z := 0x9e370001.
Definition lh_ptr_hash (k : Z) : Z := Z.land (Z.shiftr (to_ulong (k * LH_PRIME)) 4) 18446744073709551615.

(** ** The address of a key does not matter *)

Lemma to_uint_plus x y : to_uint (to_uint x + y) = to_uint (x + y).
Proof. unfold to_uint. by rewrite Zplus_mod_idemp_l. Qed.
Lemma plus_plus x u v : plus (plus x u) v = plus x (u + v).
Proof. unfold plus. rewrite to_uint_plus. f_equal. lia. Qed.

(** The bytes of a word, the least significant first. *)
Definition le (l : list Z) : Z := foldr (fun b w => b + 256 * w) 0 l.

Lemma le_range l : Forall is_byte l -> 0 <= le l < 2 ^ (8 * Z.of_nat (length l)).
Proof.
  induction 1 as [|b l Hb _ IH]; [done|]. cbn [le foldr length]. fold (le l).
  replace (8 * Z.of_nat (S (length l))) with (8 + 8 * Z.of_nat (length l)) by lia. rewrite Z.pow_add_r by lia. change (2 ^ 8) with 256.
  unfold is_byte in Hb. lia.
Qed.
Lemma le_app l k : le (l ++ k) = le l + 2 ^ (8 * Z.of_nat (length l)) * le k.
Proof.
  induction l as [|b l IH]; [cbn [app length]; change (le []) with 0; change (2 ^ (8 * Z.of_nat 0)) with 1; lia|].
  cbn [app length]. change (b + 256 * le (l ++ k) = b + 256 * le l + 2 ^ (8 * Z.of_nat (S (length l))) * le k). rewrite IH.
  replace (8 * Z.of_nat (S (length l))) with (8 + 8 * Z.of_nat (length l)) by lia. rewrite Z.pow_add_r by lia. change (2 ^ 8) with 256. lia.
Qed.

(** What a word holds of the first bytes in it. *)
Lemma le_mask l k n m : Forall is_byte l -> n = 8 * Z.of_nat (length l) -> m = Z.ones n -> Z.land (le (l ++ k)) m = le l.
Proof.
  intros Hl -> ->. rewrite Z.land_ones by lia. rewrite le_app, Z.mul_comm, Z.mod_add by (pose proof (Z.pow_pos_nonneg 2 (8 * Z.of_nat (length l))); lia).
  apply Z.mod_small, le_range, Hl.
Qed.

(** What a block and the last block add to the state. *)
Definition padd (x : Z) (l : list Z) : Z := match l with [] => x | _ => plus x (le l) end.
Definition add_block (l : list Z) (s : Z * Z * Z) : Z * Z * Z :=
  let '(a, b, c) := s in (padd a (take 4 l), padd b (take 4 (drop 4 l)), padd c (drop 8 l)).

(** [explode l n]: the first [n] elements of [l], by name. *)
Ltac explode l n :=
  lazymatch n with
  | O => idtac
  | S ?n => let b := fresh "b" in destruct l as [|b l]; [cbn [length] in *; lia|]; explode l n
  end.

(** Reads of named elements. *)
Ltac reads :=
  repeat (match goal with |- context [arr_get ?l ?i] =>
    let n := eval vm_compute in (Z.to_nat i) in
    let x := eval cbn in (l !! n) in
    match x with Some ?v => change (arr_get l i) with (Ret v) end end; cbn [mbind comp_bind]).
Ltac le_lia := rewrite ?plus_plus, ?Z.shiftl_mul_pow2 by done;
  change (2 ^ 0) with 1; change (2 ^ 8) with 256; change (2 ^ 16) with 65536; change (2 ^ 24) with 16777216; unfold le; cbn [foldr];
  repeat lazymatch goal with
    | |- Ret _ = Ret _ => f_equal
    | |- Some _ = Some _ => f_equal
    | |- (_, _) = (_, _) => f_equal
    | |- plus _ _ = plus _ _ => f_equal
    end; try done; lia.

Lemma block_paths l k s : length l = 12%nat ->
  block32 (l ++ k) s = Ret (add_block l s) /\ block16 (l ++ k) s = Ret (add_block l s) /\ block8 (l ++ k) s = Ret (add_block l s).
Proof.
  intros Hl. destruct s as [[a b] c]. do 12 (destruct l as [|? l]; [done|]). destruct l; [|done]. clear Hl.
  unfold block32, block16, block8, add8, k16_2, k32, k16, k8. cbn [app]. unfold add_block, padd. cbn [take drop].
  split_and!; reads; le_lia.
Qed.

(** The last block: the bytes are [l]; what lies behind them is read, but not
    used. *)
Ltac closed_tests :=
  try match goal with |- context [Z.of_nat ?n] => let v := eval vm_compute in (Z.of_nat n) in change (Z.of_nat n) with v end;
  repeat match goal with |- context [?i <? ?j] => let v := eval vm_compute in (i <? j) in change (i <? j) with v end;
  repeat match goal with |- context [?i =? 0] => let v := eval vm_compute in (i =? 0) in change (i =? 0) with v end;
  cbv iota zeta; cbn [mbind comp_bind]; unfold add_block, padd; cbn [take drop].

Lemma last8_ok l k s : (length l <= 12)%nat ->
  last8 (l ++ k) (Z.of_nat (length l)) s = Ret (match l with [] => None | _ => Some (add_block l s) end).
Proof.
  intros Hl. destruct s as [[a b] c]. unfold last8, add_byte, k8.
  do 13 (destruct l as [|? l]; [cbn [length app]; try reflexivity; closed_tests; reads; le_lia|]).
  cbn [length] in Hl. lia.
Qed.

Lemma last16_ok l k s : (length l <= 12)%nat ->
  last16 (l ++ k) (Z.of_nat (length l)) s = Ret (match l with [] => None | _ => Some (add_block l s) end).
Proof.
  intros Hl. destruct s as [[a b] c]. unfold last16, k16_2, k16, k8.
  do 13 (destruct l as [|? l]; [cbn [length app]; try reflexivity; closed_tests; reads; le_lia|]).
  cbn [length] in Hl. lia.
Qed.

(** A word with some of its bytes masked. *)
Lemma masked b0 b1 b2 b3 :
  is_byte b0 -> is_byte b1 -> is_byte b2 ->
  let w := b0 + 256 * b1 + 65536 * (b2 + 256 * b3) in
  Z.land w 0xff = b0 /\ Z.land w 0xffff = b0 + 256 * b1 /\ Z.land w 0xffffff = b0 + 256 * b1 + 65536 * b2.
Proof.
  intros H0 H1 H2 w. replace w with (le [b0; b1; b2; b3]) by (unfold w, le; cbn [foldr]; lia). split_and!.
  - rewrite (le_mask [b0] [b1; b2; b3] 8) by (done || by rewrite ?Forall_cons, Forall_nil). unfold le. cbn [foldr]. lia.
  - rewrite (le_mask [b0; b1] [b2; b3] 16) by (done || by rewrite ?Forall_cons, Forall_nil). unfold le. cbn [foldr]. lia.
  - rewrite (le_mask [b0; b1; b2] [b3] 24) by (done || by rewrite ?Forall_cons, Forall_nil). unfold le. cbn [foldr]. lia.
Qed.

(** Words are read to their end, behind the key if need be. *)
Lemma last32_ok l k s : (length l <= 12)%nat -> Forall is_byte (l ++ k) -> (3 <= length k)%nat ->
  last32 (l ++ k) (Z.of_nat (length l)) s = Ret (match l with [] => None | _ => Some (add_block l s) end).
Proof.
  intros Hl Hb Hk. destruct s as [[a b] c]. unfold last32, k32, k16.
  destruct k as [|j0 [|j1 [|j2 k]]]; cbn [length] in Hk; [lia..|]. clear Hk.
  do 13 (destruct l as [|? l];
    [cbn [length app]; try reflexivity; cbn [app] in Hb; decompose_Forall_hyps; closed_tests; reads;
     try match goal with |- context [Z.land (?b0 + 256 * ?b1 + 65536 * (?b2 + 256 * ?b3)) _] =>
       destruct (masked b0 b1 b2 b3) as (? & ? & ?); [assumption..|] end;
     try match goal with H : Z.land ?w ?m = _ |- context [Z.land ?w ?m] => rewrite H end; le_lia|]).
  cbn [length] in Hl. lia.
Qed.

(** The hash of the bytes alone. *)
Fixpoint hash_bytes (fuel : nat) (l : list Z) (s : Z * Z * Z) : Z :=
  match fuel with
  | O => 0
  | S fuel =>
      if (12 <? length l)%nat then hash_bytes fuel (drop 12 l) (mix (add_block (take 12 l) s))
      else match l with [] => s.2 | _ => final (add_block l s) end
  end.

Section path.
Variable block : list Z -> Z * Z * Z -> comp (Z * Z * Z).
Variable last : list Z -> Z -> Z * Z * Z -> comp (option (Z * Z * Z)).
Variable mem : list Z.
Hypothesis Hblock : forall l k s, length l = 12%nat -> block (l ++ k) s = Ret (add_block l s).
Hypothesis Hlast : forall l s, (length l <= 12)%nat -> Forall is_byte l ->
  last (l ++ mem) (Z.of_nat (length l)) s = Ret (match l with [] => None | _ => Some (add_block l s) end).

Lemma hash_loop_ok fuel key s : Forall is_byte key -> (length key < fuel)%nat ->
  (let* (s, n, k) := hash_loop block fuel (key ++ mem) (Z.of_nat (length key)) s in
   let* r := last k n s in Ret (match r with Some s => final s | None => s.2 end)) = Ret (hash_bytes fuel key s).
Proof using Hblock Hlast.
  revert key s. induction fuel as [|fuel IH]; intros key s Hk Hf; [lia|]. cbn [hash_loop hash_bytes].
  destruct (Nat.ltb_spec 12 (length key)) as [Hl|Hl].
  - rewrite (proj2 (Z.ltb_lt _ _)) by lia. rewrite <- (take_drop 12 key) at 1. rewrite <- app_assoc, Hblock by (rewrite length_take; lia).
    cbn [mbind comp_bind]. rewrite drop_app_le by lia.
    replace (Z.of_nat (length key) - 12) with (Z.of_nat (length (drop 12 key))) by (rewrite length_drop; lia).
    apply IH; [by apply Forall_drop|rewrite length_drop; lia].
  - rewrite (proj2 (Z.ltb_ge _ _)) by lia. cbn [mbind comp_bind]. rewrite Hlast by (done || lia). cbn [mbind comp_bind]. by destruct key.
Qed.
End path.

(** The initial state of all three words. *)
Definition initial (length initval : Z) : Z * Z * Z :=
  let x := to_uint (0xdeadbeef + to_uint length + initval) in (x, x, x).

Lemma hashlittle_bytes addr key mem initval :
  Forall is_byte (key ++ mem) -> (3 <= length mem)%nat ->
  hashlittle addr (key ++ mem) (Z.of_nat (length key)) initval =
    Ret (hash_bytes (S (length key)) key (initial (Z.of_nat (length key)) initval)).
Proof.
  intros Hb Hm. pose proof Hb as [Hk Hj]%Forall_app. unfold hashlittle, hash_path, initial. cbv zeta. rewrite Nat2Z.id.
  destruct (Z.land addr 3 =? 0); [|destruct (Z.land addr 1 =? 0)]; (apply hash_loop_ok; [intros; by apply block_paths| |done|lia]); intros l s Hl Hlb.
  - apply last32_ok; [done|by apply Forall_app|done].
  - by apply last16_ok.
  - by apply last8_ok.
Qed.

(** C34: a key hashes to the same value wherever it lies: the paths for keys
    at addresses that are multiples of four, that are even, and that are odd
    read it as words, halves and bytes and agree, whatever the bytes behind it
    are.  Words are read behind the key: of an object of exactly the key and its
    terminator the first path reads too much. *)
Theorem hash_address_free addr addr' key mem mem' initval :
  Forall is_byte (key ++ mem) -> Forall is_byte mem' -> (3 <= length mem)%nat -> (3 <= length mem')%nat ->
  (exists h, hashlittle addr (key ++ mem) (Z.of_nat (length key)) initval = Ret h
    /\ hashlittle addr' (key ++ mem') (Z.of_nat (length key)) initval = Ret h)
  /\ forall b, hashlittle 0 [b; 0] 1 initval = Err OutOfBounds.
Proof.
  intros Hb Hb' Hm Hm'. pose proof Hb as [Hk _]%Forall_app. split; [|done].
  rewrite !hashlittle_bytes by (done || by apply Forall_app). by eexists.
Qed.

Definition demo_key : list Z := [116; 111; 112; 105; 99; 45; 111; 102; 45; 97; 45; 104; 117; 98].
Lemma hash_address_free_witness :
  (exists h, hashlittle 4096 (demo_key ++ [0; 1; 2]) 14 77 = Ret h /\ hashlittle 4097 (demo_key ++ [0; 8; 9]) 14 77 = Ret h)
  /\ forall b, hashlittle 0 [b; 0] 1 77 = Err OutOfBounds.
Proof.
  apply (hash_address_free 4096 4097 demo_key [0; 1; 2] [0; 8; 9] 77); [|by rewrite ?Forall_cons, Forall_nil; vm_compute|cbn; lia|cbn; lia].
  apply bool_decide_unpack with (dec := Forall_dec _ _). by vm_compute.
Defined.

(** The address and the memory of a key in the build of the hub: a string with
    its terminator.  [answers] are those of json_c_get_random_seed, and -1 says
    that no seed was taken yet; the seed is given back. *)
Fixpoint key_strlen (k : list Z) : comp Z :=
  match k with
  | [] => Err OutOfBounds
  | c :: k => if c =? 0 then Ret 0 else let* n := key_strlen k in Ret (n + 1)
  end.
Definition lh_char_hash (random_seed : Z) (answers : list Z) (addr : Z) (k : list Z) : comp (Z * Z) :=
  let* seed := if random_seed =? -1 then comp_of_option OutOfFuel (find (fun seed => negb (seed =? -1)) answers) else Ret random_seed in
  let* len := key_strlen k in
  let* h := hashlittle addr k len (to_uint seed) in
  Ret (h, seed).
