(* ===== verification/LinkHash.v ===== *)
(** * Hash tables of json-c (json-c/source/linkhash.c, json_object.c)

    A table is an array of slots that is probed from the slot of the hash on;
    the used slots are chained in the order of insertion.  Pointers to entries
    are indices in the array.  An object of a JSON document is such a table. *)

From S2P Require Import Prelude.

Local Open Scope Z_scope.

(** ** Tables *)

Section table.
Context {K V : Type}.
(** The functions of the table. *)
Variable hash_fn : K -> Z.
Variable equal_fn : K -> K -> bool.

Inductive lh_key := LH_EMPTY | LH_FREED | Key (k : K).

(** A pointer to an entry is its index; a value may be NULL. *)
Record lh_entry := {
  k : lh_key; k_is_constant : bool; v : option V; next : option nat; prev : option nat
}.
Record lh_table := { size : Z; count : Z; head : option nat; tail : option nat; table : list lh_entry }.

Definition set_next (p : option nat) (e : lh_entry) : lh_entry :=
  {| k := k e; k_is_constant := k_is_constant e; v := v e; next := p; prev := prev e |}.
Definition set_prev (p : option nat) (e : lh_entry) : lh_entry :=
  {| k := k e; k_is_constant := k_is_constant e; v := v e; next := next e; prev := p |}.
Definition set_v (x : option V) (e : lh_entry) : lh_entry :=
  {| k := k e; k_is_constant := k_is_constant e; v := x; next := next e; prev := prev e |}.
Definition with_table (t : lh_table) (l : list lh_entry) : lh_table :=
  {| size := size t; count := count t; head := head t; tail := tail t; table := l |}.

Definition get_entry (t : lh_table) (n : nat) : comp lh_entry := arr_get (table t) (Z.of_nat n).
(** [t->table[n]] changed by [f]; nothing follows NULL. *)
Definition change_entry (t : lh_table) (p : option nat) (f : lh_entry -> lh_entry) : comp lh_table :=
  match p with
  | None => Err NullDeref
  | Some n => let* e := get_entry t n in let* l := arr_set (table t) (Z.of_nat n) (f e) in Ret (with_table t l)
  end.

Definition empty_entry : lh_entry := {| k := LH_EMPTY; k_is_constant := false; v := None; next := None; prev := None |}.

(** calloc refuses a negative size. *)
Definition lh_table_new (size : Z) : option lh_table :=
  if size <? 0 then None
  else Some {| size := size; count := 0; head := None; tail := None; table := replicate (Z.to_nat size) empty_entry |}.

(** [h % t->size] *)
Definition slot_of (t : lh_table) (h : Z) : comp nat :=
  if size t =? 0 then Err DivisionByZero else Ret (Z.to_nat (h mod size t)).
(** [if ((int)++n == t->size) n = 0] *)
Definition next_slot (t : lh_table) (n : nat) : nat := if Z.of_nat (S n) =? size t then 0%nat else S n.

Fixpoint find_free (fuel : nat) (t : lh_table) (n : nat) : comp nat :=
  match fuel with
  | O => Err OutOfFuel
  | S fuel =>
      let* e := get_entry t n in
      match k e with
      | Key _ => find_free fuel t (next_slot t n)
      | _ => Ret n
      end
  end.

(** The end of lh_table_insert_w_hash, once the slot is found. *)
Definition put_entry (t : lh_table) (n : nat) (key : K) (val : option V) (const : bool) : comp lh_table :=
  let* e := get_entry t n in
  let e := {| k := Key key; k_is_constant := const; v := val; next := next e; prev := prev e |} in
  let* l := arr_set (table t) (Z.of_nat n) e in
  let t := {| size := size t; count := count t + 1; head := head t; tail := tail t; table := l |} in
  match head t with
  | None =>
      let* l := arr_set l (Z.of_nat n) (set_next None (set_prev None e)) in
      Ret {| size := size t; count := count t; head := Some n; tail := Some n; table := l |}
  | Some _ =>
      let* t := change_entry t (tail t) (set_next (Some n)) in
      let* t := change_entry t (Some n) (fun e => set_next None (set_prev (tail t) e)) in
      Ret {| size := size t; count := count t; head := head t; tail := Some n; table := table t |}
  end.

(** [t->count >= t->size * LH_LOAD_FACTOR], where the factor is 0.66. *)
Definition loaded (t : lh_table) : bool := 66 * size t <=? 100 * count t.

(** The entries from [ent] on are put in the new table by [insert]. *)
Fixpoint copy_entries (insert : lh_table -> K -> option V -> Z -> bool -> comp (Z * lh_table)) (fuel : nat)
    (t : lh_table) (ent : option nat) (new_t : lh_table) : comp (Z * lh_table) :=
  match ent with
  | None => Ret (0, new_t)
  | Some n =>
      match fuel with
      | O => Err OutOfFuel
      | S fuel =>
          let* e := get_entry t n in
          match k e with
          | Key key =>
              let* (rc, new_t) := insert new_t key (v e) (hash_fn key) (k_is_constant e) in
              if rc =? 0 then copy_entries insert fuel t (next e) new_t else Ret (-1, new_t)
          | _ => Err NullDeref
          end
      end
  end.
Definition lh_table_resize_with (insert : lh_table -> K -> option V -> Z -> bool -> comp (Z * lh_table)) (t : lh_table) (new_size : Z)
    : comp (Z * lh_table) :=
  match lh_table_new new_size with
  | None => Ret (-1, t)
  | Some new_t =>
      let* (rc, new_t) := copy_entries insert (length (table t)) t (head t) new_t in
      if rc =? 0 then
        Ret (0, {| size := new_size; count := count t; head := head new_t; tail := tail new_t; table := table new_t |})
      else Ret (-1, t)
  end.

(** Inserting may resize, and resizing inserts, in a new table: [depth] bounds
    how often. *)
Fixpoint lh_table_insert_w_hash (depth : nat) (t : lh_table) (key : K) (val : option V) (h : Z) (const : bool)
    : comp (Z * lh_table) :=
  match depth with
  | O => Err OutOfFuel
  | S depth =>
      let* (rc, t) :=
        if loaded t then lh_table_resize_with (lh_table_insert_w_hash depth) t (to_int (size t * 2)) else Ret (0, t) in
      if rc =? 0 then
        let* n := slot_of t h in
        let* n := find_free (length (table t)) t n in
        let* t := put_entry t n key val const in
        Ret (0, t)
      else Ret (-1, t)
  end.
Definition lh_table_resize (depth : nat) : lh_table -> Z -> comp (Z * lh_table) :=
  lh_table_resize_with (lh_table_insert_w_hash depth).
Definition lh_table_insert (depth : nat) (t : lh_table) (key : K) (val : option V) : comp (Z * lh_table) :=
  lh_table_insert_w_hash depth t key val (hash_fn key) false.

(** [remain] is [t->size - count]. *)
Fixpoint lookup_loop (remain : nat) (t : lh_table) (n : nat) (key : K) : comp (option nat) :=
  match remain with
  | O => Ret None
  | S remain =>
      let* e := get_entry t n in
      match k e with
      | LH_EMPTY => Ret None
      | LH_FREED => lookup_loop remain t (next_slot t n) key
      | Key k => if equal_fn k key then Ret (Some n) else lookup_loop remain t (next_slot t n) key
      end
  end.
Definition lh_table_lookup_entry_w_hash (t : lh_table) (key : K) (h : Z) : comp (option nat) :=
  let* n := slot_of t h in lookup_loop (Z.to_nat (size t)) t n key.
Definition lh_table_lookup_entry (t : lh_table) (key : K) : comp (option nat) :=
  lh_table_lookup_entry_w_hash t key (hash_fn key).
(** Whether the key was found, and its value. *)
Definition lh_table_lookup_ex (t : lh_table) (key : K) : comp (bool * option V) :=
  let* e := lh_table_lookup_entry t key in
  match e with
  | Some n => let* e := get_entry t n in Ret (true, v e)
  | None => Ret (false, None)
  end.
Definition lh_table_lookup (t : lh_table) (key : K) : comp (option V) :=
  let* (_, v) := lh_table_lookup_ex t key in Ret v.

(** The result, the table, and the entries handed to [free_fn]. *)
Definition lh_table_delete_entry (t : lh_table) (n : nat) : comp (Z * lh_table * list lh_entry) :=
  let* e := get_entry t n in
  match k e with
  | LH_EMPTY | LH_FREED => Ret (-1, t, [])
  | Key _ =>
      let* l := arr_set (table t) (Z.of_nat n)
        {| k := LH_FREED; k_is_constant := k_is_constant e; v := None; next := next e; prev := prev e |} in
      let t := {| size := size t; count := count t - 1; head := head t; tail := tail t; table := l |} in
      let is_tail := bool_decide (tail t = Some n) in
      let is_head := bool_decide (head t = Some n) in
      let* t :=
        if is_tail && is_head then
          Ret {| size := size t; count := count t; head := None; tail := None; table := table t |}
        else if is_head then
          let* t := change_entry t (next e) (set_prev None) in
          Ret {| size := size t; count := count t; head := next e; tail := tail t; table := table t |}
        else if is_tail then
          let* t := change_entry t (prev e) (set_next None) in
          Ret {| size := size t; count := count t; head := head t; tail := prev e; table := table t |}
        else
          let* t := change_entry t (prev e) (set_next (next e)) in
          change_entry t (next e) (set_prev (prev e)) in
      let* t := change_entry t (Some n) (fun e => set_next None (set_prev None e)) in
      Ret (0, t, [e])
  end.
Definition lh_table_delete (t : lh_table) (key : K) : comp (Z * lh_table * list lh_entry) :=
  let* e := lh_table_lookup_entry t key in
  match e with
  | None => Ret (-1, t, [])
  | Some n => lh_table_delete_entry t n
  end.
Definition lh_table_length (t : lh_table) : Z := count t.

(** The entries from [c] on: what [lh_foreach] visits, and what
    [lh_table_free] hands to [free_fn]. *)
Fixpoint lh_foreach (fuel : nat) (t : lh_table) (c : option nat) : comp (list lh_entry) :=
  match c with
  | None => Ret []
  | Some n =>
      match fuel with
      | O => Err OutOfFuel
      | S fuel => let* e := get_entry t n in let* l := lh_foreach fuel t (next e) in Ret (e :: l)
      end
  end.
Definition lh_table_free (t : lh_table) : comp (list lh_entry) := lh_foreach (length (table t)) t (head t).
End table.

(** ** The abstract table

    What a table stands for: its entries in the order of insertion. *)

Section facts.
Context {K V : Type} `{EqDecision K}.
Variable hash_fn : K -> Z.
Variable equal_fn : K -> K -> bool.
Hypothesis Hequal : forall a b, equal_fn a b = true <-> a = b.
Implicit Types (t : @lh_table K V) (l : list (K * option V * bool)) (ns : list nat).

Definition entry_is (e : @lh_entry K V) (it : K * option V * bool) : Prop :=
  k e = Key it.1.1 /\ v e = it.1.2 /\ k_is_constant e = it.2.
Definition keys l : list K := (fun it => it.1.1) <$> l.
Definition before ns (i : nat) : option nat := match i with O => None | S j => ns !! j end.

(** The used slots [ns], chained in this order, hold the items [l]. *)
Record chained (tab : list (@lh_entry K V)) (hd tl : option nat) ns l : Prop := {
  ch_head : hd = ns !! 0%nat;
  ch_tail : tl = last ns;
  ch_nodup : NoDup ns;
  ch_length : length ns = length l;
  ch_entry : forall i n it, ns !! i = Some n -> l !! i = Some it ->
    exists e, tab !! n = Some e /\ entry_is e it /\ next e = ns !! S i /\ prev e = before ns i;
  ch_used : forall n e key, tab !! n = Some e -> k e = Key key -> n ∈ ns
}.

(** The [j]-th slot that is looked at for a hash. *)
Definition probe t (h : Z) (j : nat) : nat := ((Z.to_nat (h mod size t) + j) mod length (table t))%nat.

(** Every key is reached from its slot over slots that were used. *)
Definition reached (t : lh_table) : Prop :=
  forall n e key, table t !! n = Some e -> k e = Key key ->
    exists d, (d < length (table t))%nat /\ n = probe t (hash_fn key) d /\
      forall j, (j < d)%nat -> exists e, table t !! probe t (hash_fn key) j = Some e /\ k e <> LH_EMPTY.

Record table_ok t l ns : Prop := {
  ok_chain : chained (table t) (head t) (tail t) ns l;
  ok_size : size t = Z.of_nat (length (table t));
  ok_pos : 0 < size t;
  ok_count : count t = Z.of_nat (length l);
  ok_load : 100 * Z.of_nat (length l) < 66 * size t + 100;
  ok_keys : NoDup (keys l);
  ok_reached : reached t
}.

(** *** Slots *)

Lemma get_entry_ok t n e : table t !! n = Some e -> get_entry t n = Ret e.
Proof. intros He. unfold get_entry. apply arr_get_Some; [lia|by rewrite Nat2Z.id]. Qed.
Lemma arr_set_nat {A} (l : list A) (n : nat) x : (n < length l)%nat -> arr_set l (Z.of_nat n) x = Ret (<[n := x]> l).
Proof. intros Hn. unfold arr_set. rewrite (proj2 (Z.leb_le _ _)), (proj2 (Z.ltb_lt _ _)), Nat2Z.id by lia. done. Qed.
Lemma change_entry_ok t n e f : table t !! n = Some e -> change_entry t (Some n) f = Ret (with_table t (<[n := f e]> (table t))).
Proof.
  intros He. unfold change_entry. rewrite (get_entry_ok t n e He). cbn [mbind comp_bind].
  rewrite arr_set_nat by by eapply lookup_lt_Some. done.
Qed.

Lemma probe_lt t h j : (0 < length (table t))%nat -> (probe t h j < length (table t))%nat.
Proof. intros H. apply Nat.mod_upper_bound. lia. Qed.
Lemma probe_0 t h : size t = Z.of_nat (length (table t)) -> 0 < size t -> slot_of t h = Ret (probe t h 0).
Proof.
  intros Hs Hp. unfold slot_of, probe. rewrite (proj2 (Z.eqb_neq _ _)), Nat.add_0_r by lia. f_equal. symmetry. apply Nat.mod_small.
  pose proof (Z.mod_pos_bound h (size t) Hp). lia.
Qed.
Lemma probe_next t h j : size t = Z.of_nat (length (table t)) -> 0 < size t -> next_slot t (probe t h j) = probe t h (S j).
Proof.
  intros Hs Hp. unfold next_slot, probe. set (s := Z.to_nat (h mod size t)). set (N := length (table t)) in *.
  assert (N <> 0)%nat as HN by lia. pose proof (Nat.mod_upper_bound (s + j) N HN). rewrite Hs.
  replace (s + S j)%nat with (s + j + 1)%nat by lia. rewrite <- (Nat.Div0.add_mod_idemp_l (s + j) 1 N).
  destruct (Z.eqb_spec (Z.of_nat (S ((s + j) mod N))) (Z.of_nat N)) as [E|E].
  - replace ((s + j) mod N + 1)%nat with N by lia. by rewrite Nat.Div0.mod_same.
  - rewrite (Nat.mod_small ((s + j) mod N + 1) N) by lia. lia.
Qed.

(** All slots are probed. *)
Lemma probe_onto t h n : size t = Z.of_nat (length (table t)) -> (n < length (table t))%nat ->
  exists j, (j < length (table t))%nat /\ probe t h j = n.
Proof.
  intros Hs Hn. unfold probe. set (N := length (table t)) in *. set (s := Z.to_nat (h mod size t)).
  assert (s < N)%nat as Hsl by (unfold s; pose proof (Z.mod_pos_bound h (size t)); lia).
  destruct (le_lt_dec s n).
  - exists (n - s)%nat. split; [lia|]. rewrite Nat.mod_small by lia. lia.
  - exists (n + N - s)%nat. split; [lia|]. replace (s + (n + N - s))%nat with (n + 1 * N)%nat by lia.
    rewrite Nat.Div0.mod_add. by apply Nat.mod_small.
Qed.

Lemma probe_inj s a b N : (a < N -> b < N -> (s + a) mod N = (s + b) mod N -> a = b)%nat.
Proof.
  intros Ha Hb E. pose proof (Nat.div_mod_eq (s + a) N) as E1. pose proof (Nat.div_mod_eq (s + b) N) as E2. rewrite E in E1.
  set (p := ((s + a) / N)%nat) in *. set (q := ((s + b) / N)%nat) in *.
  destruct (Nat.lt_trichotomy p q) as [H|[H|H]]; [|rewrite H in E1; lia|]; apply (Nat.mul_le_mono_l _ _ N) in H; lia.
Qed.

(** The same hash is probed in the same slots while the size stays. *)
Lemma probe_same t t' h j : size t' = size t -> length (table t') = length (table t) -> probe t' h j = probe t h j.
Proof. unfold probe. by intros -> ->. Qed.

Lemma least (P : nat -> bool) d : P d = true -> exists d', (d' <= d)%nat /\ P d' = true /\ forall j, (j < d')%nat -> P j = false.
Proof.
  induction d as [d IH] using lt_wf_ind. intros Hd. destruct (existsb P (seq 0 d)) eqn:E.
  - apply existsb_exists in E as (j & Hj%in_seq & Hp). destruct (IH j) as (d' & ? & ? & ?); [lia|done|]. exists d'. split_and!; [lia|done|done].
  - exists d. split_and!; [lia|done|]. intros j Hj. apply not_true_iff_false. intros Hp. apply not_true_iff_false in E. apply E, existsb_exists.
    exists j. split; [apply in_seq; lia|done].
Qed.

Definition used (o : option (@lh_entry K V)) : bool := match o with Some e => match k e with Key _ => true | _ => false end | None => false end.

Lemma used_Some o : used o = true <-> exists e key, o = Some e /\ k e = Key key.
Proof.
  split.
  - destruct o as [e|]; [|done]. cbn. destruct (k e) eqn:E; [done..|]. intros _. by eexists _, _.
  - by intros (e & key & -> & E); cbn; rewrite E.
Qed.

(** *** The loops *)

Lemma used_free t ns l : table_ok t l ns -> (length l < length (table t))%nat ->
  exists n, (n < length (table t))%nat /\ used (table t !! n) = false.
Proof.
  intros Ht Hl. destruct (existsb (fun n => negb (used (table t !! n))) (seq 0 (length (table t)))) eqn:E.
  - apply existsb_exists in E as (n & Hn%in_seq & Hu). exists n. split; [lia|]. by apply negb_true_iff.
  - exfalso. apply (Nat.lt_irrefl (length l)). eapply Nat.lt_le_trans; [exact Hl|].
    rewrite <- (ch_length _ _ _ _ _ (ok_chain _ _ _ Ht)), <- (length_seq (length (table t)) 0). apply submseteq_length, NoDup_submseteq; [apply NoDup_seq|].
    intros n Hn. apply elem_of_seq in Hn. apply not_true_iff_false in E.
    destruct (used (table t !! n)) eqn:Hu.
    + apply used_Some in Hu as (e & key & He & Hk). eapply (ch_used _ _ _ _ _ (ok_chain _ _ _ Ht)); done.
    + exfalso. apply E, existsb_exists. exists n. split; [apply in_seq; lia|by rewrite Hu].
Qed.

(** The search for a free slot ends at the first. *)
Lemma find_free_steps t h j d fuel : size t = Z.of_nat (length (table t)) -> 0 < size t ->
  (forall i, (i < d)%nat -> used (table t !! probe t h (j + i)) = true) -> used (table t !! probe t h (j + d)) = false -> (d < fuel)%nat ->
  find_free fuel t (probe t h j) = Ret (probe t h (j + d)).
Proof.
  intros Hs Hp. revert j d. induction fuel as [|fuel IH]; intros j d Hu Hd Hf; [lia|]. cbn [find_free].
  destruct (lookup_lt_is_Some_2 (table t) (probe t h j)) as [e He]; [apply probe_lt; lia|]. rewrite (get_entry_ok t _ e He). cbn [mbind comp_bind].
  destruct d as [|d].
  - rewrite Nat.add_0_r in *. rewrite He in Hd. cbn in Hd. by destruct (k e).
  - pose proof (Hu 0%nat ltac:(lia)) as H0. rewrite Nat.add_0_r, He in H0. cbn in H0. destruct (k e); [done..|].
    rewrite probe_next by done. replace (j + S d)%nat with (S j + d)%nat by lia. apply IH; [|by rewrite Nat.add_succ_comm|lia].
    intros i Hi. rewrite Nat.add_succ_comm. apply Hu. lia.
Qed.

Lemma find_free_ok t ns l h : table_ok t l ns -> (length l < length (table t))%nat ->
  exists d, (d < length (table t))%nat /\ find_free (length (table t)) t (probe t h 0) = Ret (probe t h d)
    /\ used (table t !! probe t h d) = false
    /\ forall j, (j < d)%nat -> used (table t !! probe t h j) = true.
Proof.
  intros Ht Hl. destruct (used_free t ns l Ht Hl) as (n & Hn & Hu).
  destruct (probe_onto t h n) as (d0 & Hd0 & E); [apply Ht|done|].
  destruct (least (fun d => negb (used (table t !! probe t h d))) d0) as (d & Hd & Hud & Hb); [by rewrite E, Hu|].
  apply negb_true_iff in Hud. exists d. assert (forall j, (j < d)%nat -> used (table t !! probe t h j) = true) as Hb'.
  { intros j Hj. by apply negb_false_iff, Hb. }
  split_and!; [lia| |done|done]. apply (find_free_steps t h 0 d); [apply Ht|apply Ht|done|done|lia].
Qed.

(** What the search for a key finds. *)
Lemma lookup_hit t h key j d e remain : size t = Z.of_nat (length (table t)) -> 0 < size t ->
  (forall i, (i < d)%nat -> exists e, table t !! probe t h (j + i) = Some e /\ k e <> LH_EMPTY /\ k e <> Key key) ->
  table t !! probe t h (j + d) = Some e -> k e = Key key -> (d < remain)%nat ->
  lookup_loop equal_fn remain t (probe t h j) key = Ret (Some (probe t h (j + d))).
Proof.
  intros Hs Hp. revert j d. induction remain as [|remain IH]; intros j d Hb He Hk Hr; [lia|]. cbn [lookup_loop].
  destruct d as [|d].
  - rewrite Nat.add_0_r in *. rewrite (get_entry_ok t _ e He). cbn [mbind comp_bind]. rewrite Hk. by rewrite (proj2 (Hequal key key)).
  - destruct (Hb 0%nat ltac:(lia)) as (e0 & He0 & H1 & H2). rewrite Nat.add_0_r in He0. rewrite (get_entry_ok t _ e0 He0). cbn [mbind comp_bind].
    assert (lookup_loop equal_fn remain t (next_slot t (probe t h j)) key = Ret (Some (probe t h (j + S d)))) as E.
    { rewrite probe_next by done. replace (j + S d)%nat with (S j + d)%nat by lia. apply IH; [|by rewrite Nat.add_succ_comm|done|lia].
      intros i Hi. rewrite Nat.add_succ_comm. apply Hb. lia. }
    destruct (k e0) as [| |k0] eqn:E0; [done|done|]. destruct (equal_fn k0 key) eqn:Eq; [|done]. apply Hequal in Eq. congruence.
Qed.

Lemma lookup_miss t h key j remain : size t = Z.of_nat (length (table t)) -> 0 < size t ->
  (forall n e, table t !! n = Some e -> k e <> Key key) -> lookup_loop equal_fn remain t (probe t h j) key = Ret None.
Proof.
  intros Hs Hp Hk. revert j. induction remain as [|remain IH]; intros j; cbn [lookup_loop]; [done|].
  destruct (lookup_lt_is_Some_2 (table t) (probe t h j)) as [e He]; [apply probe_lt; lia|]. rewrite (get_entry_ok t _ e He). cbn [mbind comp_bind].
  pose proof (Hk _ _ He) as Hne. rewrite probe_next by done.
  destruct (k e) as [| |k0] eqn:E0; [done|apply IH|]. destruct (equal_fn k0 key) eqn:Eq; [|apply IH]. apply Hequal in Eq. congruence.
Qed.

(** *** Items and slots *)

Lemma slot_item t ns l n e key : table_ok t l ns -> table t !! n = Some e -> k e = Key key ->
  exists i it, ns !! i = Some n /\ l !! i = Some it /\ it.1.1 = key /\ entry_is e it.
Proof.
  intros Ht He Hk. destruct (ok_chain _ _ _ Ht) as [_ _ _ Hlen Hent Hu]. pose proof (Hu n e key He Hk) as Hin.
  apply list_elem_of_lookup in Hin as [i Hi]. destruct (lookup_lt_is_Some_2 l i) as [it Hit]; [rewrite <- Hlen; by eapply lookup_lt_Some|].
  destruct (Hent i n it Hi Hit) as (e' & He' & Hie & _). rewrite He in He'. injection He' as <-. exists i, it. split_and!; [done..| |done].
  destruct Hie as [Hie _]. congruence.
Qed.

Lemma key_item l i it : l !! i = Some it -> keys l !! i = Some it.1.1.
Proof. intros H. unfold keys. by rewrite list_lookup_fmap, H. Qed.

(** A key that is there is found, whatever was deleted on the way. *)
Lemma lookup_present t ns l i n it : table_ok t l ns -> ns !! i = Some n -> l !! i = Some it ->
  lh_table_lookup_entry hash_fn equal_fn t it.1.1 = Ret (Some n).
Proof.
  intros Ht Hn Hit. unfold lh_table_lookup_entry, lh_table_lookup_entry_w_hash.
  rewrite probe_0 by apply Ht. cbn [mbind comp_bind].
  destruct (ch_entry _ _ _ _ _ (ok_chain _ _ _ Ht) i n it Hn Hit) as (e & He & (Hk & _) & _).
  destruct (ok_reached _ _ _ Ht n e it.1.1 He Hk) as (d & Hd & -> & Hb). pose proof (ok_size _ _ _ Ht) as Hs.
  eapply (lookup_hit t _ _ 0 d e); [done|apply Ht| |done|done|lia]. intros j Hj. destruct (Hb j Hj) as (e0 & He0 & Hne). exists e0.
  split_and!; [done|done|]. intros Hk0.
  destruct (slot_item t ns l _ e0 _ Ht He0 Hk0) as (i0 & it0 & Hn0 & Hit0 & E0 & _).
  assert (i0 = i) as ->.
  { eapply (NoDup_lookup (keys l)); [apply Ht|by apply key_item|]. by rewrite E0, (key_item l i it Hit). }
  rewrite Hn in Hn0. injection Hn0 as E. destruct Ht as [_ _ Hp _ _ _ _]. unfold probe in E. 
  apply probe_inj in E; lia.
Qed.

(** A key that is not there is not found. *)
Lemma lookup_absent t ns l key : table_ok t l ns -> key ∉ keys l -> lh_table_lookup_entry hash_fn equal_fn t key = Ret None.
Proof.
  intros Ht Hk. unfold lh_table_lookup_entry, lh_table_lookup_entry_w_hash. rewrite probe_0 by apply Ht. cbn [mbind comp_bind].
  apply lookup_miss; [apply Ht|apply Ht|]. intros n e He Hke. apply Hk.
  destruct (slot_item t ns l n e key Ht He Hke) as (i & it & _ & Hit & <- & _). apply key_item in Hit. by eapply list_elem_of_lookup_2.
Qed.

(** *** Inserting *)

(** What [put_entry] changes: the slot, the entry that was last, head and
    tail. *)
Lemma put_entry_spec t ns l n key val const : table_ok t l ns -> (n < length (table t))%nat -> used (table t !! n) = false ->
  exists t', put_entry t n key val const = Ret t' /\ size t' = size t /\ count t' = count t + 1 /\
    length (table t') = length (table t) /\ head t' = (ns ++ [n]) !! 0%nat /\ tail t' = Some n /\
    forall x, table t' !! x =
      if decide (x = n) then Some {| k := Key key; k_is_constant := const; v := val; next := None; prev := last ns |}
      else if decide (last ns = Some x) then set_next (Some n) <$> table t !! x else table t !! x.
Proof.
  intros Ht Hn Hu. destruct (ok_chain _ _ _ Ht) as [Hh Htl _ Hlen Hent _]. destruct (lookup_lt_is_Some_2 (table t) n Hn) as [e He].
  unfold put_entry. rewrite (get_entry_ok t n e He). cbn [mbind comp_bind]. rewrite arr_set_nat by done. cbn [mbind comp_bind head tail table count size].
  destruct ns as [|n0 ns'] eqn:Ens.
  - cbn in Hh. rewrite Hh. rewrite arr_set_nat by by rewrite length_insert. cbn [mbind comp_bind]. eexists. split; [reflexivity|].
    cbn [size count table head tail]. split_and!; [done|done|by rewrite !length_insert|done|done|]. intros x. rewrite list_insert_insert_eq.
    cbn [last]. destruct (decide (x = n)) as [->|Hx]; [by rewrite list_lookup_insert_eq|]. by rewrite list_lookup_insert_ne.
  - rewrite <- Ens in *. assert (head t = Some n0) as Eh by by rewrite Hh, Ens.
    destruct (last ns) as [m|] eqn:El; [|by apply last_None in El; subst ns]. rewrite Eh, Htl.
    rewrite last_lookup in El. pose proof El as Hm. apply lookup_lt_Some in Hm.
    destruct (lookup_lt_is_Some_2 l (pred (length ns))) as [it Hit]; [lia|].
    destruct (Hent _ m it El Hit) as (em & Hem & (Hk & _) & _).
    assert (m <> n) as Hmn by (intros ->; by rewrite Hem in Hu; cbn in Hu; rewrite Hk in Hu).
    erewrite (change_entry_ok _ m em); [|cbn [table]; by rewrite list_lookup_insert_ne]. cbn [mbind comp_bind].
    erewrite (change_entry_ok _ n); [|cbn [table with_table]; by rewrite list_lookup_insert_ne, list_lookup_insert_eq]. cbn [mbind comp_bind].
    eexists. split; [reflexivity|]. cbn [size count table head tail with_table].
    split_and!; [done|done|by rewrite !length_insert|by rewrite Ens|done|]. intros x.
    destruct (decide (x = n)) as [->|Hx]; [by rewrite list_lookup_insert_eq by by rewrite !length_insert|].
    rewrite list_lookup_insert_ne by done. destruct (decide (Some m = Some x)) as [[= <-]|Hx'].
    + rewrite list_lookup_insert_eq by (rewrite length_insert; by eapply lookup_lt_Some). by rewrite Hem.
    + by rewrite !list_lookup_insert_ne by congruence.
Qed.

Lemma entry_is_next p e it : entry_is e it -> entry_is (set_next p e) it.
Proof. done. Qed.
Lemma entry_is_prev p e it : entry_is e it -> entry_is (set_prev p e) it.
Proof. done. Qed.

Lemma before_snoc ns n i : (i < length ns)%nat -> before (ns ++ [n]) i = before ns i.
Proof. intros Hi. destruct i as [|i]; [done|]. cbn [before]. by rewrite lookup_app_l by lia. Qed.

Lemma chained_snoc t t' ns l n it :
  chained (table t) (head t) (tail t) ns l -> (n < length (table t))%nat -> n ∉ ns ->
  length (table t') = length (table t) -> head t' = (ns ++ [n]) !! 0%nat -> tail t' = Some n ->
  (forall x, table t' !! x =
      if decide (x = n) then Some {| k := Key it.1.1; k_is_constant := it.2; v := it.1.2; next := None; prev := last ns |}
      else if decide (last ns = Some x) then set_next (Some n) <$> table t !! x else table t !! x) ->
  chained (table t') (head t') (tail t') (ns ++ [n]) (l ++ [it]).
Proof.
  intros [Hh Htl Hnd Hlen Hent Hu] Hn Hni Hl Hh' Ht' Htab. constructor.
  - done.
  - by rewrite last_snoc.
  - apply NoDup_app. split_and!; [done| |apply NoDup_singleton]. intros x Hx ->%list_elem_of_singleton. done.
  - rewrite !length_app. cbn. lia.
  - intros i m it' Hi Hit. destruct (decide (i < length ns)%nat) as [Hlt|Hge].
    + rewrite lookup_app_l in Hi by done. rewrite lookup_app_l in Hit by lia. destruct (Hent i m it' Hi Hit) as (e & He & Hie & Hnx & Hpv).
      assert (m <> n) as Hmn by (intros ->; apply Hni; by eapply list_elem_of_lookup_2).
      rewrite before_snoc by done. rewrite Htab, decide_False by done. destruct (decide (last ns = Some m)) as [El|El].
      * assert (S i = length ns) as Ei.
        { rewrite last_lookup in El. pose proof (NoDup_lookup ns i (pred (length ns)) m Hnd Hi El). lia. }
        rewrite He. cbn [fmap option_fmap option_map]. eexists. split; [done|]. split; [by apply entry_is_next|].
        cbn [next prev set_next]. split; [|done]. rewrite Ei. by rewrite lookup_app_r, Nat.sub_diag by lia.
      * exists e. split_and!; [done|done| |done]. rewrite Hnx. destruct (decide (S i < length ns)%nat); [by rewrite lookup_app_l by done|].
        exfalso. apply El. rewrite last_lookup. replace (pred (length ns)) with i by lia. done.
    + pose proof (lookup_lt_Some _ _ _ Hi) as Hi'. rewrite length_app in Hi'. cbn in Hi'. assert (i = length ns) as -> by lia.
      rewrite lookup_app_r, Nat.sub_diag in Hi by lia. injection Hi as <-. rewrite Hlen, lookup_app_r, Nat.sub_diag in Hit by lia. injection Hit as <-.
      rewrite Htab, decide_True by done. eexists. split; [done|]. split; [by split_and!|]. cbn [next prev]. split.
      * rewrite lookup_ge_None_2; [done|]. rewrite length_app. cbn. lia.
      * destruct ns as [|n0 ns] using rev_ind; [done|]. rewrite last_snoc, length_app. cbn [length]. rewrite Nat.add_1_r. cbn [before].
        rewrite lookup_app_l by (rewrite length_app; cbn; lia). by rewrite lookup_app_r, Nat.sub_diag by lia.
  - intros m e key He Hk. rewrite elem_of_app, list_elem_of_singleton. rewrite Htab in He.
    destruct (decide (m = n)); [by right|]. left. destruct (decide (last ns = Some m)) as [El|].
    + apply last_Some in El as [ns' ->]. apply elem_of_app. right. by apply list_elem_of_singleton.
    + by eapply Hu.
Qed.

(** Keys stay, freed slots stay freed or are used again: no slot becomes empty. *)
Lemma reached_mono t t' n :
  reached t -> size t' = size t -> length (table t') = length (table t) ->
  (forall x e key, table t' !! x = Some e -> k e = Key key -> x <> n -> exists e0, table t !! x = Some e0 /\ k e0 = Key key) ->
  (forall x e, table t !! x = Some e -> k e <> LH_EMPTY -> exists e', table t' !! x = Some e' /\ k e' <> LH_EMPTY) ->
  (forall e key, table t' !! n = Some e -> k e = Key key ->
     exists d, (d < length (table t))%nat /\ n = probe t (hash_fn key) d /\
       forall j, (j < d)%nat -> exists e, table t !! probe t (hash_fn key) j = Some e /\ k e <> LH_EMPTY) ->
  reached t'.
Proof.
  intros Hr Hs Hl Hk Hm Hn x e key He Hke. 
  assert (exists d, (d < length (table t))%nat /\ x = probe t (hash_fn key) d /\
    forall j, (j < d)%nat -> exists e, table t !! probe t (hash_fn key) j = Some e /\ k e <> LH_EMPTY) as (d & Hd & E & Hb).
  { destruct (decide (x = n)) as [->|Hx]; [by apply (Hn e)|]. destruct (Hk x e key He Hke Hx) as (e0 & He0 & Hk0). by apply (Hr x e0 key). }
  exists d. rewrite Hl, (probe_same t t' _ d Hs Hl). split_and!; [done|done|]. intros j Hj. rewrite (probe_same t t' _ j Hs Hl).
  destruct (Hb j Hj) as (e1 & He1 & Hne). by apply (Hm _ e1).
Qed.

Definition fits t : Prop := 66 * size t > 100 * count t.

Lemma keys_app l l' : keys (l ++ l') = keys l ++ keys l'.
Proof. apply fmap_app. Qed.

(** A new key goes to the end, in a table with room. *)
Lemma insert_room_ok t ns l key val const depth : table_ok t l ns -> fits t -> key ∉ keys l ->
  exists t' n, lh_table_insert_w_hash hash_fn (S depth) t key val (hash_fn key) const = Ret (0, t')
    /\ table_ok t' (l ++ [(key, val, const)]) (ns ++ [n]) /\ size t' = size t.
Proof.
  intros Ht Hf Hk. cbn [lh_table_insert_w_hash]. pose proof Ht as [Hc Hs Hp Hcnt Hld Hnd Hr]. unfold fits in Hf.
  assert (loaded t = false) as -> by (unfold loaded; apply Z.leb_gt; lia). cbn [mbind comp_bind]. change (0 =? 0) with true. cbn iota.
  rewrite probe_0 by done. cbn [mbind comp_bind].
  destruct (find_free_ok t ns l (hash_fn key) Ht) as (d & Hd & -> & Hu & Hb); [lia|]. cbn [mbind comp_bind]. set (n := probe t (hash_fn key) d) in *.
  assert (n < length (table t))%nat as Hn by (apply probe_lt; lia).
  destruct (put_entry_spec t ns l n key val const Ht Hn Hu) as (t' & -> & Es & Ec & El & Eh & Etl & Etab). cbn [mbind comp_bind].
  exists t', n. split; [done|]. split; [|done].
  assert (n ∉ ns) as Hni.
  { intros Hin. apply list_elem_of_lookup in Hin as [i Hi]. destruct (lookup_lt_is_Some_2 l i) as [it Hit].
    { rewrite <- (ch_length _ _ _ _ _ Hc). by eapply lookup_lt_Some. }
    destruct (ch_entry _ _ _ _ _ Hc i n it Hi Hit) as (e & He & (Hke & _) & _). rewrite He in Hu. cbn in Hu. by rewrite Hke in Hu. }
  constructor.
  - by apply (chained_snoc t t' ns l n (key, val, const)).
  - by rewrite Es, El.
  - by rewrite Es.
  - rewrite Ec, Hcnt, length_app. cbn [length]. lia.
  - rewrite Es, length_app. cbn [length]. lia.
  - rewrite keys_app. apply NoDup_app. split_and!; [done| |apply NoDup_singleton]. intros x Hx ->%list_elem_of_singleton. done.
  - apply (reached_mono t t' n); [done..| | |].
    + intros x e key' He Hke Hx. rewrite Etab, decide_False in He by done. destruct (decide (last ns = Some x)); [|by exists e].
      destruct (table t !! x) as [e1|]; [|done]. injection He as <-. by exists e1.
    + intros x e He Hne. rewrite Etab. destruct (decide (x = n)); [by eexists|]. rewrite He. destruct (decide (last ns = Some x)); by eexists.
    + intros e key' He Hke. rewrite Etab, decide_True in He by done. injection He as <-. cbn in Hke. injection Hke as <-.
      exists d. split_and!; [done|done|]. intros j Hj. specialize (Hb j Hj). apply used_Some in Hb as (e & key' & He & Hke). exists e. split; [done|by rewrite Hke].
Qed.

(** *** New tables, and resizing *)

Lemma new_ok size0 : 0 < size0 -> exists t, lh_table_new size0 = Some t /\ table_ok t [] [] /\ size t = size0.
Proof.
  intros Hs. unfold lh_table_new. rewrite (proj2 (Z.ltb_ge _ _)) by lia. eexists. split; [done|]. split; [|done].
  constructor; cbn [size count head tail table length keys].
  - constructor; try done; [apply NoDup_nil_2|]. intros n e key He%lookup_replicate. destruct He as [-> _]. done.
  - by rewrite length_replicate, Z2Nat.id by lia.
  - done.
  - done.
  - lia.
  - apply NoDup_nil_2.
  - intros n e key He. cbn [table] in He. apply lookup_replicate in He as [-> _]. done.
Qed.

(** The items from the [i]-th on, into a table that holds those before. *)
Lemma copy_ok t ns l depth new_t ns1 i fuel :
  table_ok t l ns -> table_ok new_t (take i l) ns1 -> (i <= length l)%nat -> (length l - i <= fuel)%nat ->
  66 * size new_t > 100 * (Z.of_nat (length l) - 1) ->
  exists new_t' ns2, copy_entries hash_fn (lh_table_insert_w_hash hash_fn (S depth)) fuel t (ns !! i) new_t = Ret (0, new_t')
    /\ table_ok new_t' l ns2 /\ size new_t' = size new_t.
Proof.
  intros Ht. revert new_t ns1 i. induction fuel as [|fuel IH]; intros new_t ns1 i Hnew Hi Hf Hsz;
    pose proof (ch_length _ _ _ _ _ (ok_chain _ _ _ Ht)) as Hlen.
  - rewrite lookup_ge_None_2 by lia. cbn [copy_entries]. exists new_t, ns1. split; [done|]. split; [|done]. by rewrite take_ge in Hnew by lia.
  - destruct (decide (i < length l)%nat) as [Hlt|Hge].
    + destruct (lookup_lt_is_Some_2 ns i) as [n Hn]; [lia|]. destruct (lookup_lt_is_Some_2 l i Hlt) as [it Hit].
      destruct (ch_entry _ _ _ _ _ (ok_chain _ _ _ Ht) i n it Hn Hit) as (e & He & (Hk & Hv & Hkc) & Hnx & _).
      rewrite Hn. cbn [copy_entries]. rewrite (get_entry_ok t n e He). cbn [mbind comp_bind]. rewrite Hk, Hv, Hkc.
      destruct (insert_room_ok new_t ns1 (take i l) it.1.1 it.1.2 it.2 depth Hnew) as (t1 & n1 & -> & Ht1 & Es).
      * unfold fits. rewrite (ok_count _ _ _ Hnew), length_take. lia.
      * intros Hin. apply list_elem_of_lookup in Hin as [j Hj]. unfold keys in Hj. rewrite list_lookup_fmap in Hj.
        destruct (take i l !! j) as [it'|] eqn:Ej; [|done]. injection Hj as Hj. apply lookup_take_Some in Ej as [Ej Hji].
        pose proof (NoDup_lookup (keys l) i j it.1.1 (ok_keys _ _ _ Ht) (key_item _ _ _ Hit)) as Hd. rewrite (key_item _ _ _ Ej), Hj in Hd. specialize (Hd eq_refl). lia.
      * cbn [mbind comp_bind]. change (0 =? 0) with true. cbn iota. rewrite Hnx.
        assert ((it.1.1, it.1.2, it.2) = it) as Eit by by destruct it as [[? ?] ?]. rewrite Eit in Ht1.
        rewrite <- (take_S_r _ _ _ Hit) in Ht1.
        destruct (IH t1 (ns1 ++ [n1]) (S i) Ht1) as (t2 & ns2 & -> & Ht2 & Es2); [lia|lia|by rewrite Es|]. exists t2, ns2. split_and!; [done|done|by rewrite Es2].
    + rewrite lookup_ge_None_2 by lia. cbn [copy_entries]. exists new_t, ns1. split; [done|]. split; [|done]. by rewrite take_ge in Hnew by lia.
Qed.

(** Resizing keeps the items and their order. *)
Lemma resize_ok t ns l depth new_size :
  table_ok t l ns -> 0 < new_size -> 66 * new_size > 100 * (Z.of_nat (length l) - 1) ->
  exists t' ns', lh_table_resize hash_fn (S depth) t new_size = Ret (0, t') /\ table_ok t' l ns' /\ size t' = new_size.
Proof.
  intros Ht Hn Hs. unfold lh_table_resize, lh_table_resize_with. destruct (new_ok new_size Hn) as (t0 & -> & Ht0 & Es0).
  rewrite (ch_head _ _ _ _ _ (ok_chain _ _ _ Ht)).
  destruct (copy_ok t ns l depth t0 [] 0 (length (table t)) Ht) as (t1 & ns1 & -> & Ht1 & Es1); [done|lia| |by rewrite Es0|].
  { pose proof (ok_load _ _ _ Ht). pose proof (ok_size _ _ _ Ht). pose proof (ok_pos _ _ _ Ht). lia. }
  cbn [mbind comp_bind]. change (0 =? 0) with true. cbn iota. eexists _, ns1. split; [done|]. split; [|done].
  destruct Ht1 as [Hc1 Hs1 Hp1 Hn1 Hl1 Hk1 Hr1]. rewrite Es1, Es0 in *. constructor; cbn [size count head tail table]; [done..|apply Ht|done|done|].
  unfold reached, probe in *. cbn [size table]. by rewrite Es1 in Hr1.
Qed.

(** Inserting a new key, also when the table has to grow. *)
Lemma insert_grows t ns l key val const depth :
  table_ok t l ns -> key ∉ keys l -> 2 * size t <= INT_MAX ->
  exists t' ns', lh_table_insert_w_hash hash_fn (S (S depth)) t key val (hash_fn key) const = Ret (0, t')
    /\ table_ok t' (l ++ [(key, val, const)]) ns' /\ size t <= size t' <= Z.max (size t) (4 * Z.of_nat (length l)).
Proof.
  intros Ht Hk Hm. destruct (loaded t) eqn:El.
  - pose proof Ht as [_ _ Hp Hcnt Hld _ _].
    assert (66 * size t <= 100 * Z.of_nat (length l)) by (unfold loaded in El; apply Z.leb_le in El; lia).
    destruct (resize_ok t ns l depth (2 * size t) Ht) as (t1 & ns1 & E1 & Ht1 & Es1); [lia|lia|].
    destruct (insert_room_ok t1 ns1 l key val const (S depth) Ht1) as (t2 & n2 & E2 & Ht2 & Es2); [unfold fits; rewrite (ok_count _ _ _ Ht1); lia|done|].
    exists t2, (ns1 ++ [n2]). split; [|split; [done|lia]]. cbn [lh_table_insert_w_hash] in E2 |- *. rewrite El.
    assert (loaded t1 = false) as El1 by (unfold loaded; rewrite (ok_count _ _ _ Ht1); apply Z.leb_gt; lia). rewrite El1 in E2.
    rewrite to_int_id by (unfold is_int, INT_MIN, INT_MAX in *; lia). replace (size t * 2) with (2 * size t) by lia.
    unfold lh_table_resize in E1. cbn [lh_table_insert_w_hash] in E1. rewrite E1. exact E2.
  - unfold loaded in El. apply Z.leb_gt in El. destruct (insert_room_ok t ns l key val const (S depth) Ht) as (t2 & n2 & E2 & Ht2 & Es2); [unfold fits; lia|done|].
    exists t2, (ns ++ [n2]). pose proof (ok_pos _ _ _ Ht). split_and!; [done|done|lia|lia].
Qed.

(** *** Replacing a value *)

Lemma replace_value_ok t ns l i n it x : table_ok t l ns -> ns !! i = Some n -> l !! i = Some it ->
  exists e t', get_entry t n = Ret e /\ entry_is e it /\ change_entry t (Some n) (set_v x) = Ret t'
    /\ table_ok t' (<[i := (it.1.1, x, it.2)]> l) ns /\ size t' = size t.
Proof.
  intros Ht Hn Hit. pose proof Ht as [Hc Hs Hp Hcnt Hld Hnd Hr]. destruct Hc as [Hh Htl Hnodup Hlen Hent Hu].
  destruct (Hent i n it Hn Hit) as (e & He & Hie & Hnx & Hpv). exists e. eexists. split_and!; [by apply get_entry_ok|done|by apply change_entry_ok| |done].
  assert (n < length (table t))%nat as Hlt by by eapply lookup_lt_Some. destruct Hie as (Hk & Hv & Hconst).
  assert (forall y e', <[n := set_v x e]> (table t) !! y = Some e' -> exists e0, table t !! y = Some e0 /\ k e' = k e0) as Hback.
  { intros y e' He'. destruct (decide (n = y)) as [<-|Hy]; [rewrite list_lookup_insert_eq in He' by done; injection He' as <-; by exists e|].
    rewrite list_lookup_insert_ne in He' by done. by exists e'. }
  assert (keys (<[i := (it.1.1, x, it.2)]> l) = keys l) as Hkeys.
  { unfold keys. rewrite list_fmap_insert. apply list_insert_id. by rewrite list_lookup_fmap, Hit. }
  constructor; cbn [table size count with_table head tail]; rewrite ?length_insert, ?Hkeys; try done.
  - constructor; [done|done|done|by rewrite length_insert| |].
    + intros j m it' Hj Hit'. destruct (decide (i = j)) as [<-|Hij].
      * rewrite Hn in Hj. injection Hj as <-. rewrite list_lookup_insert_eq in Hit' by by eapply lookup_lt_Some. injection Hit' as <-.
        rewrite list_lookup_insert_eq by done. by eexists.
      * rewrite list_lookup_insert_ne in Hit' by done. rewrite list_lookup_insert_ne; [by apply Hent|].
        intros <-. apply Hij. exact (NoDup_lookup _ _ _ _ Hnodup Hn Hj).
    + intros m e' key He' Hk'. destruct (Hback m e' He') as (e0 & He0 & E). rewrite E in Hk'. by eapply Hu.
  - apply (reached_mono t _ n); cbn [table with_table]; [done|done|by rewrite length_insert| | |].
    + intros y e' key He' Hk' _. destruct (Hback y e' He') as (e0 & He0 & E). exists e0. by rewrite <- E.
    + intros y e' He' Hne. destruct (decide (n = y)) as [<-|Hy].
      * rewrite list_lookup_insert_eq by done. eexists. split; [done|]. cbn. by rewrite Hk.
      * rewrite list_lookup_insert_ne by done. by exists e'.
    + intros e' key He' Hk'. rewrite list_lookup_insert_eq in He' by done. injection He' as <-. by apply (Hr n e key).
Qed.

(** *** Deleting *)

Definition freed_entry (const : bool) : @lh_entry K V := {| k := LH_FREED; k_is_constant := const; v := None; next := None; prev := None |}.

Lemma before_middle ns1 n ns2 : before (ns1 ++ n :: ns2) (length ns1) = last ns1.
Proof.
  destruct ns1 as [|n0 ns1 _] using rev_ind; [done|]. rewrite length_app. cbn [length]. rewrite Nat.add_1_r. cbn [before].
  rewrite <- app_assoc. cbn [app]. by rewrite list_lookup_middle, last_snoc.
Qed.
Lemma next_middle ns1 n ns2 : (ns1 ++ n :: ns2) !! S (length ns1) = ns2 !! 0%nat.
Proof. rewrite lookup_app_r by lia. replace (S (length ns1) - length ns1)%nat with 1%nat by lia. by destruct ns2. Qed.

(** The slot is freed and its neighbours are linked. *)
Lemma delete_spec t ns1 n ns2 l1 it l2 : table_ok t (l1 ++ it :: l2) (ns1 ++ n :: ns2) -> length ns1 = length l1 ->
  exists t' e, lh_table_delete_entry t n = Ret (0, t', [e]) /\ entry_is e it /\ size t' = size t /\ count t' = count t - 1 /\
    length (table t') = length (table t) /\ head t' = (ns1 ++ ns2) !! 0%nat /\ tail t' = last (ns1 ++ ns2) /\
    forall x, table t' !! x =
      if decide (x = n) then Some (freed_entry it.2)
      else if decide (last ns1 = Some x) then set_next (ns2 !! 0%nat) <$> table t !! x
      else if decide (ns2 !! 0%nat = Some x) then set_prev (last ns1) <$> table t !! x
      else table t !! x.
Proof.
  intros Ht Hl. destruct (ok_chain _ _ _ Ht) as [Hh Htl Hnd Hlen Hent _].
  assert (forall i m, (ns1 ++ n :: ns2) !! i = Some m -> exists e it', table t !! m = Some e /\ k e = Key it') as Hkey.
  { intros i m Hi. destruct (lookup_lt_is_Some_2 (l1 ++ it :: l2) i) as [it' Hit]; [rewrite <- Hlen; by eapply lookup_lt_Some|].
    destruct (Hent i m it' Hi Hit) as (e & He & (Hk & _) & _). by exists e, it'.1.1. }
  destruct (Hent (length ns1) n it) as (e & He & Hie & Hnx & Hpv); [by apply list_lookup_middle|rewrite Hl; by apply list_lookup_middle|].
  rewrite next_middle in Hnx. rewrite before_middle in Hpv. destruct Hie as (Hk & Hv & Hkc).
  assert (n < length (table t))%nat as Hn by by eapply lookup_lt_Some.
  unfold lh_table_delete_entry. rewrite (get_entry_ok t n e He). cbn [mbind comp_bind]. rewrite Hk, arr_set_nat by done.
  cbn [mbind comp_bind head tail table size count]. rewrite Hnx, Hpv, Hkc.
  set (f := {| k := LH_FREED; k_is_constant := it.2; v := None; next := ns2 !! 0%nat; prev := last ns1 |}).
  apply NoDup_app in Hnd as (Hnd1 & Hdis & Hnd2). apply NoDup_cons in Hnd2 as [Hn2 Hnd2].
  assert (n ∉ ns1) as Hn1 by (intros H; eapply Hdis; [exact H|left]).
  assert (bool_decide (tail t = Some n) = bool_decide (ns2 = [])) as ->.
  { apply bool_decide_ext. rewrite Htl, last_app_cons. destruct ns2 as [|n2 ns2]; [done|]. split; [|done]. rewrite last_cons.
    intros E. exfalso. apply Hn2. destruct (last (n2 :: ns2)) as [m|] eqn:El; [|by apply last_None in El]. injection E as ->.
    apply last_Some in El as [l' ->]. apply elem_of_app. right. by apply list_elem_of_singleton. }
  assert (bool_decide (head t = Some n) = bool_decide (ns1 = [])) as ->.
  { apply bool_decide_ext. rewrite Hh. destruct ns1 as [|n1 ns1]; [done|]. split; [|done]. cbn. intros [= ->]. exfalso. apply Hn1. left. }
  assert (forall m, last ns1 = Some m -> m <> n /\ exists em, table t !! m = Some em) as Hlast.
  { intros m El. apply last_Some in El as [l' ->]. split.
    - intros ->. apply Hn1, elem_of_app. right. by apply list_elem_of_singleton.
    - destruct (Hkey (length l') m) as (em & ? & ? & _); [rewrite <- app_assoc; by apply list_lookup_middle|by exists em]. }
  assert (forall m, ns2 !! 0%nat = Some m -> m <> n /\ exists em, table t !! m = Some em) as Hnext.
  { intros m E2. split; [intros ->; apply Hn2; by eapply list_elem_of_lookup_2|].
    destruct (Hkey (S (length ns1)) m) as (em & ? & ? & _); [by rewrite next_middle|by exists em]. }
  assert (forall m, last ns1 = Some m -> ns2 !! 0%nat <> Some m) as Hdiff.
  { intros m El E2. apply last_Some in El as [l' ->]. eapply (Hdis m); [apply elem_of_app; right; by apply list_elem_of_singleton|].
    right. by eapply list_elem_of_lookup_2. }
  destruct ns1 as [|m1 ns1'] eqn:E1, ns2 as [|m2 ns2'] eqn:E2; cbn [bool_decide andb].
  - rewrite !bool_decide_true by done. cbn [andb mbind comp_bind].
    erewrite (change_entry_ok _ n f); [|cbn [table]; by rewrite list_lookup_insert_eq]. cbn [mbind comp_bind]. eexists _, e.
    split; [reflexivity|]. cbn [size count table head tail with_table]. split_and!; [by split_and!|done|done|by rewrite !length_insert|done|done|].
    intros x. rewrite list_insert_insert_eq. destruct (decide (x = n)) as [->|Hx]; [by rewrite list_lookup_insert_eq|]. by rewrite list_lookup_insert_ne.
  - rewrite (bool_decide_false (_ = [])), (bool_decide_true (_ = [])) by done. cbn [andb mbind comp_bind].
    destruct (Hnext m2 eq_refl) as (Hne & em & Hem). change ((m2 :: ns2') !! 0%nat) with (Some m2).
    erewrite (change_entry_ok _ m2 em); [|cbn [table]; by rewrite list_lookup_insert_ne]. cbn [mbind comp_bind].
    erewrite (change_entry_ok _ n f); [|cbn [table with_table]; by rewrite list_lookup_insert_ne, list_lookup_insert_eq]. cbn [mbind comp_bind].
    eexists _, e. split; [reflexivity|]. cbn [size count table head tail with_table].
    split_and!; [by split_and!|done|done|by rewrite !length_insert|done|by rewrite Htl|].
    intros x. destruct (decide (x = n)) as [->|Hx]; [by rewrite list_lookup_insert_eq by by rewrite !length_insert|].
    rewrite list_lookup_insert_ne by done. cbn [last]. rewrite decide_False by done. destruct (decide (Some m2 = Some x)) as [[= <-]|Hx'].
    + rewrite list_lookup_insert_eq by (rewrite length_insert; by eapply lookup_lt_Some). by rewrite Hem.
    + by rewrite !list_lookup_insert_ne by congruence.
  - rewrite (bool_decide_true (_ = [])), (bool_decide_false (_ = [])) by done. cbn [andb mbind comp_bind]. rewrite <- E1 in *.
    destruct (last ns1) as [m|] eqn:El; [|by apply last_None in El; subst]. destruct (Hlast m eq_refl) as (Hne & em & Hem).
    erewrite (change_entry_ok _ m em); [|cbn [table]; by rewrite list_lookup_insert_ne]. cbn [mbind comp_bind].
    erewrite (change_entry_ok _ n f); [|cbn [table with_table]; by rewrite list_lookup_insert_ne, list_lookup_insert_eq]. cbn [mbind comp_bind].
    eexists _, e. split; [reflexivity|]. cbn [size count table head tail with_table].
    split_and!; [by split_and!|done|done|by rewrite !length_insert|rewrite Hh, E1; done|by rewrite app_nil_r|].
    intros x. destruct (decide (x = n)) as [->|Hx]; [by rewrite list_lookup_insert_eq by by rewrite !length_insert|].
    rewrite list_lookup_insert_ne by done. destruct (decide (Some m = Some x)) as [[= <-]|Hx'].
    + rewrite list_lookup_insert_eq by (rewrite length_insert; by eapply lookup_lt_Some). by rewrite Hem.
    + rewrite !list_lookup_insert_ne by congruence. by rewrite decide_False.
  - rewrite !(bool_decide_false (_ = [])) by done. cbn [andb mbind comp_bind]. rewrite <- E1, <- E2 in *.
    destruct (last ns1) as [m|] eqn:El; [|by apply last_None in El; subst]. destruct (Hlast m eq_refl) as (Hne & em & Hem).
    assert (ns2 !! 0%nat = Some m2) as E3 by by rewrite E2. rewrite E3 in *. destruct (Hnext m2 eq_refl) as (Hne2 & em2 & Hem2).
    assert (m <> m2) as Hmm by (intros ->; by eapply Hdiff).
    erewrite (change_entry_ok _ m em); [|cbn [table]; by rewrite list_lookup_insert_ne]. cbn [mbind comp_bind].
    erewrite (change_entry_ok _ m2 em2); [|cbn [table with_table]; by rewrite !list_lookup_insert_ne]. cbn [mbind comp_bind].
    erewrite (change_entry_ok _ n f); [|cbn [table with_table]; rewrite 2!list_lookup_insert_ne by done; by rewrite list_lookup_insert_eq]. cbn [mbind comp_bind].
    eexists _, e. split; [reflexivity|]. cbn [size count table head tail with_table].
    split_and!; [by split_and!|done|done|by rewrite !length_insert|rewrite Hh, E1; done| |].
    { rewrite Htl, E2. by rewrite !last_app_cons. }
    intros x. destruct (decide (x = n)) as [->|Hx]; [by rewrite list_lookup_insert_eq by by rewrite !length_insert|].
    rewrite list_lookup_insert_ne by done. destruct (decide (Some m = Some x)) as [[= <-]|Hx'].
    + rewrite list_lookup_insert_ne, list_lookup_insert_eq by (congruence || (rewrite length_insert; by eapply lookup_lt_Some)). by rewrite Hem.
    + destruct (decide (Some m2 = Some x)) as [[= <-]|Hx''].
      * rewrite list_lookup_insert_eq by (rewrite !length_insert; by eapply lookup_lt_Some). by rewrite Hem2.
      * by rewrite !list_lookup_insert_ne by congruence.
Qed.

Lemma lookup_remove {A} (l1 l2 : list A) x i :
  (l1 ++ l2) !! i = (l1 ++ x :: l2) !! (if decide (i < length l1)%nat then i else S i).
Proof.
  destruct (decide (i < length l1)%nat) as [H|H]; [by rewrite !lookup_app_l|]. rewrite !lookup_app_r by lia.
  by replace (S i - length l1)%nat with (S (i - length l1)) by lia.
Qed.

(** The chain closes over the slot that is freed. *)
Lemma chained_remove t t' ns1 n ns2 l1 it l2 :
  chained (table t) (head t) (tail t) (ns1 ++ n :: ns2) (l1 ++ it :: l2) -> length ns1 = length l1 ->
  head t' = (ns1 ++ ns2) !! 0%nat -> tail t' = last (ns1 ++ ns2) ->
  (forall x, table t' !! x =
      if decide (x = n) then Some (freed_entry it.2)
      else if decide (last ns1 = Some x) then set_next (ns2 !! 0%nat) <$> table t !! x
      else if decide (ns2 !! 0%nat = Some x) then set_prev (last ns1) <$> table t !! x
      else table t !! x) ->
  chained (table t') (head t') (tail t') (ns1 ++ ns2) (l1 ++ l2).
Proof.
  intros [Hh Htl Hnd Hlen Hent Hu] Hl Hh' Ht' Htab.
  assert (forall i m, (ns1 ++ ns2) !! i = Some m -> m <> n) as Hne.
  { intros i m Hi ->. apply NoDup_app in Hnd as (_ & Hdis & Hnd2). apply NoDup_cons in Hnd2 as [Hn2 _].
    apply list_elem_of_lookup_2, elem_of_app in Hi as [Hi|Hi]; [by apply (Hdis n Hi); left|done]. }
  assert (forall i m, (ns1 ++ ns2) !! i = Some m -> last ns1 = Some m -> S i = length ns1) as Hlast.
  { intros i m Hi El. rewrite (lookup_remove ns1 ns2 n) in Hi. rewrite last_lookup in El. pose proof (lookup_lt_Some _ _ _ El).
    rewrite <- (lookup_app_l ns1 (n :: ns2)) in El by done. pose proof (NoDup_lookup _ _ _ _ Hnd Hi El). destruct (decide (i < length ns1)%nat); lia. }
  assert (forall i m, (ns1 ++ ns2) !! i = Some m -> ns2 !! 0%nat = Some m -> i = length ns1) as Hnext.
  { intros i m Hi E2. rewrite (lookup_remove ns1 ns2 n) in Hi. rewrite <- (next_middle ns1 n ns2) in E2.
    pose proof (NoDup_lookup _ _ _ _ Hnd Hi E2). destruct (decide (i < length ns1)%nat); lia. }
  constructor.
  - done.
  - done.
  - apply NoDup_app in Hnd as (Hnd1 & Hdis & Hnd2). apply NoDup_cons in Hnd2 as [_ Hnd2]. apply NoDup_app. split_and!; [done| |done].
    intros x Hx Hx2. apply (Hdis x Hx). by right.
  - rewrite !length_app in *. cbn [length] in Hlen. lia.
  - intros i m it' Hi Hit. pose proof Hi as Hi0. pose proof (Hne i m Hi) as Hmn.
    rewrite (lookup_remove ns1 ns2 n) in Hi. rewrite (lookup_remove l1 l2 it), <- Hl in Hit.
    destruct (Hent _ m it' Hi Hit) as (e & He & Hie & Hnx & Hpv). rewrite Htab, decide_False by done.
    destruct (decide (last ns1 = Some m)) as [El|El].
    + pose proof (Hlast i m Hi0 El) as Ei. rewrite He. eexists. split; [done|]. split; [by apply entry_is_next|]. cbn [next prev set_next].
      split; [rewrite Ei, lookup_app_r, Nat.sub_diag by lia; done|]. rewrite Hpv, decide_True by lia. destruct i as [|i]; [done|]. cbn [before].
      by rewrite !lookup_app_l by lia.
    + destruct (decide (ns2 !! 0%nat = Some m)) as [E2|E2].
      * pose proof (Hnext i m Hi0 E2) as Ei. rewrite He. eexists. split; [done|]. split; [by apply entry_is_prev|]. cbn [next prev set_prev].
        rewrite Hnx, decide_False by lia. split; [by rewrite (lookup_remove ns1 ns2 n), decide_False by lia|].
        subst i. destruct ns1 as [|n1 ns1 _] using rev_ind; [done|]. rewrite length_app, last_snoc. cbn [length]. rewrite Nat.add_1_r. cbn [before].
        rewrite lookup_app_l by (rewrite length_app; cbn; lia). by rewrite lookup_app_r, Nat.sub_diag by lia.
      * exists e. split_and!; [done|done| |].
        -- rewrite Hnx, (lookup_remove ns1 ns2 n (S i)). destruct (decide (i < length ns1)%nat) as [Hlt|Hge].
           ++ rewrite decide_True; [done|]. destruct (decide (S i = length ns1)) as [Ei|]; [|lia]. exfalso. apply El.
              rewrite last_lookup, <- Ei. cbn [pred]. by rewrite lookup_app_l in Hi by done.
           ++ by rewrite decide_False by lia.
        -- rewrite Hpv. destruct (decide (i < length ns1)%nat) as [Hlt|Hge].
           ++ destruct i as [|i]; [done|]. cbn [before]. by rewrite !lookup_app_l by lia.
           ++ cbn [before]. destruct i as [|i].
              ** exfalso. apply E2. rewrite lookup_app_r in Hi by lia. replace (1 - length ns1)%nat with 1%nat in Hi by lia. cbn in Hi.
                 assert (length ns1 = 0%nat) as H0 by lia. by rewrite lookup_app_r, H0 in Hi0 by lia.
              ** cbn [before]. rewrite (lookup_remove ns1 ns2 n i). destruct (decide (i < length ns1)%nat); [|done].
                 exfalso. apply E2. rewrite lookup_app_r in Hi0 by lia. by replace (S i - length ns1)%nat with 0%nat in Hi0 by lia.
  - intros m e key He Hk. rewrite Htab in He. destruct (decide (m = n)) as [->|Hm]; [by injection He as <-|].
    assert (exists e0, table t !! m = Some e0 /\ k e0 = Key key) as (e0 & He0 & Hk0).
    { destruct (decide (last ns1 = Some m)); [|destruct (decide (ns2 !! 0%nat = Some m)); [|by exists e]];
        (destruct (table t !! m) as [e1|]; [|done]); injection He as <-; by exists e1. }
    pose proof (Hu m e0 key He0 Hk0) as Hin. apply elem_of_app in Hin as [Hin|Hin]; apply elem_of_app; [by left|].
    apply elem_of_cons in Hin as [->|Hin]; [done|by right].
Qed.

(** Deleting an item closes the gap and frees its entry. *)
Lemma delete_ok t ns1 n ns2 l1 it l2 : table_ok t (l1 ++ it :: l2) (ns1 ++ n :: ns2) -> length ns1 = length l1 ->
  exists t' e, lh_table_delete_entry t n = Ret (0, t', [e]) /\ entry_is e it /\ table_ok t' (l1 ++ l2) (ns1 ++ ns2) /\ size t' = size t.
Proof.
  intros Ht Hl. destruct (delete_spec t ns1 n ns2 l1 it l2 Ht Hl) as (t' & e & E & Hie & Es & Ec & El & Eh & Etl & Etab).
  exists t', e. split_and!; [done|done| |done]. destruct Ht as [Hc Hs Hp Hcnt Hld Hnd Hr]. constructor.
  - by eapply chained_remove.
  - by rewrite Es, El.
  - by rewrite Es.
  - rewrite Ec, Hcnt, !length_app. cbn [length]. lia.
  - rewrite Es. rewrite length_app in *. cbn [length] in Hld. lia.
  - rewrite keys_app in *. apply NoDup_app in Hnd as (H1 & Hdis & H2). cbn in H2. apply NoDup_cons in H2 as [_ H2].
    apply NoDup_app. split_and!; [done| |done]. intros x Hx Hx2. apply (Hdis x Hx). by right.
  - apply (reached_mono t t' n); [done..| | |].
    + intros x e' key He Hk Hx. rewrite Etab, decide_False in He by done.
      destruct (decide (last ns1 = Some x)); [|destruct (decide (ns2 !! 0%nat = Some x)); [|by exists e']];
        (destruct (table t !! x) as [e1|]; [|done]); injection He as <-; by exists e1.
    + intros x e' He Hne. rewrite Etab. destruct (decide (x = n)); [by eexists|]. rewrite He.
      destruct (decide (last ns1 = Some x)); [by eexists|]. destruct (decide (ns2 !! 0%nat = Some x)); by eexists.
    + intros e' key He Hk. rewrite Etab, decide_True in He by done. by injection He as <-.
Qed.

(** The entries in order: what is visited and what is freed. *)
Lemma foreach_ok t ns l i fuel : table_ok t l ns -> (length l - i <= fuel)%nat ->
  exists es, lh_foreach fuel t (ns !! i) = Ret es /\ Forall2 entry_is es (drop i l).
Proof.
  intros Ht. revert i. induction fuel as [|fuel IH]; intros i Hf; pose proof (ch_length _ _ _ _ _ (ok_chain _ _ _ Ht)) as Hlen.
  - rewrite lookup_ge_None_2, drop_ge by lia. exists []. split; [done|constructor].
  - destruct (lt_dec i (length l)) as [Hi|Hi].
    + destruct (lookup_lt_is_Some_2 ns i) as [n Hn]; [lia|]. destruct (lookup_lt_is_Some_2 l i Hi) as [it Hit].
      destruct (ch_entry _ _ _ _ _ (ok_chain _ _ _ Ht) i n it Hn Hit) as (e & He & Hie & Hnx & _).
      rewrite Hn. cbn [lh_foreach]. rewrite (get_entry_ok t n e He). cbn [mbind comp_bind]. rewrite Hnx.
      destruct (IH (S i)) as (es & -> & Hes); [lia|]. cbn [mbind comp_bind]. exists (e :: es). split; [done|].
      rewrite (drop_S _ _ _ Hit). by constructor.
    + rewrite lookup_ge_None_2, drop_ge by lia. exists []. split; [done|constructor].
Qed.
Lemma free_ok t ns l : table_ok t l ns -> exists es, lh_table_free t = Ret es /\ Forall2 entry_is es l.
Proof.
  intros Ht. unfold lh_table_free. rewrite (ch_head _ _ _ _ _ (ok_chain _ _ _ Ht)). apply (foreach_ok t ns l 0); [done|].
  pose proof (ok_load _ _ _ Ht). pose proof (ok_size _ _ _ Ht). pose proof (ok_pos _ _ _ Ht). lia.
Qed.
End facts.
