(* ===== verification/JsonObject.v ===== *)
(** * Objects of json-c over their hash table (json-c/source/json_object.c)

    The members of an object are entries of a hash table whose keys are C
    strings and whose values are pointers to objects, or NULL.  The functions are
    those of json_object.c for members; what they release is part of their
    result.  They implement ordered maps, the [JObject] of a document. *)

From Stdlib Require Import Ascii.
From S2P Require Import Prelude CString LinkHash Json.

Local Open Scope Z_scope.

Definition JSON_OBJECT_DEF_HASH_ENTRIES : Z := 16.
Definition JSON_C_OBJECT_ADD_KEY_IS_NEW : Z := 2.
Definition JSON_C_OBJECT_KEY_IS_CONSTANT : Z := 4.

Definition lh_char_equal (k1 k2 : string) : bool := strcmp_eq k1 k2.

Section object.
(** The pointers to objects, and the hash function that is configured. *)
Context {V : Type} `{EqDecision V}.
Variable char_hash_fn : string -> Z.

Definition lh_kchar_table_new (size : Z) : option (@lh_table string V) := lh_table_new size.

(** The object at [self]. *)
Record object := { self : V; c_object : @lh_table string V }.
Definition with_members (jso : object) (t : @lh_table string V) : object := {| self := self jso; c_object := t |}.

(** What a call releases: keys that are freed, values whose reference is
    dropped. *)
Record released := { freed_keys : list string; put : list V }.
Definition nothing : released := {| freed_keys := []; put := [] |}.

Definition json_object_new_object (jso : V) : option object :=
  t ← lh_kchar_table_new JSON_OBJECT_DEF_HASH_ENTRIES; Some {| self := jso; c_object := t |}.

(** json_object_put does nothing for NULL. *)
Definition json_object_put (val : option V) : list V := match val with Some x => [x] | None => [] end.
Definition json_object_lh_entry_free (ent : @lh_entry string V) : released :=
  {| freed_keys := match k ent with Key key => if k_is_constant ent then [] else [key] | _ => [] end;
     put := json_object_put (v ent) |}.
Definition release_all (es : list (@lh_entry string V)) : released :=
  {| freed_keys := mjoin (freed_keys ∘ json_object_lh_entry_free <$> es); put := mjoin (put ∘ json_object_lh_entry_free <$> es) |}.

Definition json_object_object_delete (jso : object) : comp released :=
  let* es := lh_table_free (c_object jso) in Ret (release_all es).

Definition json_object_object_add_ex (jso : object) (key : string) (val : option V) (opts : Z)
    : comp (Z * object * released) :=
  let hash := char_hash_fn key in
  let* existing_entry :=
    if negb (Z.land opts JSON_C_OBJECT_ADD_KEY_IS_NEW =? 0) then Ret None
    else lh_table_lookup_entry_w_hash lh_char_equal (c_object jso) key hash in
  if bool_decide (Some (self jso) = val) then Ret (-1, jso, nothing) else
  match existing_entry with
  | None =>
      let* (rc, t) := lh_table_insert_w_hash char_hash_fn 2 (c_object jso) key val hash
        (negb (Z.land opts JSON_C_OBJECT_KEY_IS_CONSTANT =? 0)) in
      Ret (rc, with_members jso t, nothing)
  | Some n =>
      let* e := get_entry (c_object jso) n in
      let existing_value := v e in
      let* t := change_entry (c_object jso) (Some n) (set_v val) in
      Ret (0, with_members jso t, {| freed_keys := []; put := json_object_put existing_value |})
  end.
Definition json_object_object_add (jso : object) (key : string) (val : option V) : comp (Z * object * released) :=
  json_object_object_add_ex jso key val 0.

Definition json_object_object_length (jso : object) : Z := lh_table_length (c_object jso).

(** Whether the key is there, and the value that is stored. *)
Definition json_object_object_get_ex (jso : object) (key : string) : comp (bool * option V) :=
  lh_table_lookup_ex char_hash_fn lh_char_equal (c_object jso) key.
Definition json_object_object_get (jso : object) (key : string) : comp (option V) :=
  let* (_, result) := json_object_object_get_ex jso key in Ret result.

Definition json_object_object_del (jso : object) (key : string) : comp (object * released) :=
  let* (_, t, es) := lh_table_delete char_hash_fn lh_char_equal (c_object jso) key in
  Ret (with_members jso t, release_all es).

(** The keys and values that [json_object_object_foreachC] visits. *)
Definition iter_of (e : @lh_entry string V) : comp (string * option V) :=
  match k e with Key key => Ret (key, v e) | _ => Err NullDeref end.
Fixpoint iter_all (es : list (@lh_entry string V)) : comp (list (string * option V)) :=
  match es with
  | [] => Ret []
  | e :: es => let* p := iter_of e in let* ps := iter_all es in Ret (p :: ps)
  end.
Definition json_object_object_foreachC (jso : object) : comp (list (string * option V)) :=
  let* es := lh_foreach (length (table (c_object jso))) (c_object jso) (head (c_object jso)) in
  iter_all es.

(** ** Sequences of calls *)

Inductive call :=
  | AddEx (key : string) (val : option V) (opts : Z)
  | GetEx (key : string)
  | Del (key : string)
  | Length
  | ForEach.

Inductive outcome :=
  | Added (rc : Z) (r : released)
  | Got (found : bool) (val : option V)
  | Deleted (r : released)
  | Counted (n : Z)
  | Visited (l : list (string * option V)).

Definition call_object (jso : object) (c : call) : comp (object * outcome) :=
  match c with
  | AddEx key val opts => let* (rc, jso, r) := json_object_object_add_ex jso key val opts in Ret (jso, Added rc r)
  | GetEx key => let* (found, val) := json_object_object_get_ex jso key in Ret (jso, Got found val)
  | Del key => let* (jso, r) := json_object_object_del jso key in Ret (jso, Deleted r)
  | Length => Ret (jso, Counted (json_object_object_length jso))
  | ForEach => let* l := json_object_object_foreachC jso in Ret (jso, Visited l)
  end.
Fixpoint call_all (jso : object) (cs : list call) : comp (object * list outcome) :=
  match cs with
  | [] => Ret (jso, [])
  | c :: cs => let* (jso, o) := call_object jso c in let* (jso, os) := call_all jso cs in Ret (jso, o :: os)
  end.

(** ** The specification: an ordered map *)

(** Key, value and whether the key is constant, in the order of insertion. *)
#[local] Notation item := (string * option V * bool)%type (only parsing).

Definition find_item (l : list item) (key : string) : option item := find (fun it => bool_decide (it.1.1 = key)) l.
Definition replace_item (l : list item) (key : string) (val : option V) : list item :=
  (fun it : item => if decide (it.1.1 = key) then (key, val, it.2) else it) <$> l.
Definition remove_item (l : list item) (key : string) : list item := filter (fun it : item => it.1.1 <> key) l.
Definition release_items (l : list item) : released :=
  {| freed_keys := (fun it : item => it.1.1) <$> filter (fun it : item => it.2 = false) l;
     put := mjoin ((fun it : item => json_object_put it.1.2) <$> l) |}.

Definition call_map (jso : V) (l : list item) (c : call) : list item * outcome :=
  match c with
  | AddEx key val opts =>
      if decide (Some jso = val) then (l, Added (-1) nothing)
      else match find_item l key with
           | None => (l ++ [(key, val, negb (Z.land opts JSON_C_OBJECT_KEY_IS_CONSTANT =? 0))], Added 0 nothing)
           | Some it => (replace_item l key val, Added 0 {| freed_keys := []; put := json_object_put it.1.2 |})
           end
  | GetEx key =>
      (l, match find_item l key with Some it => Got true it.1.2 | None => Got false None end)
  | Del key =>
      (remove_item l key, Deleted (match find_item l key with Some it => release_items [it] | None => nothing end))
  | Length => (l, Counted (Z.of_nat (length l)))
  | ForEach => (l, Visited (fst <$> l))
  end.
Fixpoint call_map_all (jso : V) (l : list item) (cs : list call) : list item * list outcome :=
  match cs with
  | [] => (l, [])
  | c :: cs => let '(l, o) := call_map jso l c in let '(l, os) := call_map_all jso l cs in (l, o :: os)
  end.

(** A key is declared new only when it is. *)
Fixpoint new_keys_new (jso : V) (l : list item) (cs : list call) : bool :=
  match cs with
  | [] => true
  | c :: cs =>
      match c with
      | AddEx key _ opts => (Z.land opts JSON_C_OBJECT_ADD_KEY_IS_NEW =? 0) || bool_decide (find_item l key = None)
      | _ => true
      end && new_keys_new jso (call_map jso l c).1 cs
  end.

(** The members of the document an object stands for. *)
Definition members_of (doc : V -> json) (l : list item) : list (string * json) :=
  (fun it : item => (it.1.1, match it.1.2 with Some x => doc x | None => JNull end)) <$> l.
Definition document_call (doc : V -> json) (jso : V) (m : list (string * json)) (c : call) : list (string * json) :=
  match c with
  | AddEx key val _ =>
      if decide (Some jso = val) then m else members_add m key (match val with Some x => doc x | None => JNull end)
  | Del key => filter (fun kv : string * json => kv.1 <> key) m
  | _ => m
  end.

(** ** Refinement *)

Lemma lh_char_equal_spec a b : lh_char_equal a b = true <-> a = b.
Proof. apply bool_decide_eq_true. Qed.

Implicit Types (l : list item) (t : @lh_table string V).

Lemma find_item_Some l key it : find_item l key = Some it -> exists i, l !! i = Some it /\ it.1.1 = key.
Proof.
  unfold find_item. intros H. apply find_some in H as [Hin Hk%bool_decide_eq_true]. apply list_elem_of_In, list_elem_of_lookup in Hin as [i Hi].
  by exists i.
Qed.
Lemma find_item_None l key : find_item l key = None <-> key ∉ keys l.
Proof.
  split.
  - intros H Hin. apply list_elem_of_fmap in Hin as (it & -> & Hin%list_elem_of_In). pose proof (find_none _ _ H _ Hin) as Hn.
    by apply bool_decide_eq_false in Hn.
  - intros H. destruct (find_item l key) as [it|] eqn:E; [|done]. exfalso. apply H. apply find_item_Some in E as (i & Hi & <-).
    apply list_elem_of_fmap. exists it. split; [done|]. by eapply list_elem_of_lookup_2.
Qed.

Lemma item_index l i j it it' : NoDup (keys l) -> l !! i = Some it -> l !! j = Some it' -> it.1.1 = it'.1.1 -> i = j.
Proof. intros Hn Hi%key_item Hj%key_item E. rewrite E in Hi. exact (NoDup_lookup _ _ _ _ Hn Hi Hj). Qed.

Lemma replace_item_insert l i it key val : NoDup (keys l) -> l !! i = Some it -> it.1.1 = key ->
  replace_item l key val = <[i := (key, val, it.2)]> l.
Proof.
  intros Hn Hi E. apply list_eq. intros j. unfold replace_item. rewrite list_lookup_fmap. destruct (decide (i = j)) as [<-|Hij].
  - rewrite list_lookup_insert_eq by by eapply lookup_lt_Some. rewrite Hi. cbn. by rewrite decide_True.
  - rewrite list_lookup_insert_ne by done. destruct (l !! j) as [it'|] eqn:Hj; [|done]. cbn. rewrite decide_False; [done|].
    intros E'. apply Hij. apply (item_index l i j it it'); [done..|by rewrite E].
Qed.

Lemma remove_item_id l key : key ∉ keys l -> remove_item l key = l.
Proof.
  unfold remove_item. induction l as [|it l IH]; intros Hk; [done|]. cbn in Hk. apply not_elem_of_cons in Hk as [Hne Hk].
  rewrite filter_cons_True by (intros E; by apply Hne). by rewrite IH.
Qed.
Lemma remove_item_delete l l1 l2 it : NoDup (keys l) -> l = l1 ++ it :: l2 -> remove_item l it.1.1 = l1 ++ l2.
Proof.
  intros Hn ->. unfold remove_item. rewrite filter_app, filter_cons_False by (intros H; by apply H).
  unfold keys in Hn. rewrite fmap_app in Hn. apply NoDup_app in Hn as (_ & Hd & Hn). cbn in Hn. apply NoDup_cons in Hn as [Hn _].
  f_equal; apply remove_item_id; [|done]. intros Hx. apply (Hd _ Hx). by left.
Qed.

Lemma release_items_cons (it : item) l :
  release_items (it :: l) = {| freed_keys := freed_keys (release_items [it]) ++ freed_keys (release_items l);
                               put := put (release_items [it]) ++ put (release_items l) |}.
Proof.
  destruct it as [[key val] const]. unfold release_items. cbn [fmap list_fmap mjoin list_join fst snd]. f_equal; [|by rewrite app_nil_r].
  destruct const; [by rewrite !filter_cons_False|by rewrite !filter_cons_True].
Qed.
Lemma release_all_items es l : Forall2 entry_is es l -> release_all es = release_items l.
Proof.
  induction 1 as [|e it es l (Hk & Hv & Hc) _ IH]; [done|]. rewrite release_items_cons, <- IH. unfold release_all. cbn [fmap list_fmap mjoin list_join].
  unfold compose, json_object_lh_entry_free at 1 3. rewrite Hk, Hv, Hc. cbn [freed_keys put].
  destruct it as [[key val] []]; cbn; by rewrite ?app_nil_r.
Qed.

Lemma iter_items es l : Forall2 entry_is es l -> iter_all es = Ret (fst <$> l).
Proof.
  induction 1 as [|e [[key val] const] es l (Hk & Hv & _) _ IH]; [done|]. cbn [iter_all]. rewrite IH. unfold iter_of. rewrite Hk, Hv. done.
Qed.

(** After [n] calls the table holds the items; it grows with their number only. *)
Definition represents (jso : object) l (n : nat) : Prop :=
  (exists ns, table_ok char_hash_fn (c_object jso) l ns) /\ size (c_object jso) <= 16 + 4 * Z.of_nat n /\ (length l <= n)%nat.

Definition few_calls (n : nat) : Prop := 8 * Z.of_nat n + 32 <= INT_MAX.

Lemma lookup_represents jso l n key : represents jso l n ->
  match find_item l key with
  | None => lh_table_lookup_entry char_hash_fn lh_char_equal (c_object jso) key = Ret None
  | Some it => exists ns i m, table_ok char_hash_fn (c_object jso) l ns /\ l !! i = Some it /\ it.1.1 = key /\ ns !! i = Some m /\
      lh_table_lookup_entry char_hash_fn lh_char_equal (c_object jso) key = Ret (Some m)
  end.
Proof.
  intros ((ns & Ht) & _). destruct (find_item l key) as [it|] eqn:E.
  - apply find_item_Some in E as (i & Hi & <-). destruct (lookup_lt_is_Some_2 ns i) as [m Hm].
    { rewrite (ch_length _ _ _ _ _ (ok_chain _ _ _ _ Ht)). by eapply lookup_lt_Some. }
    exists ns, i, m. split_and!; [done..|]. by apply (lookup_present _ _ lh_char_equal_spec _ ns l i).
  - apply (lookup_absent _ _ lh_char_equal_spec _ ns l); [done|]. by apply find_item_None.
Qed.

Lemma add_represents jso l n key val opts : represents jso l n -> few_calls n -> Some (self jso) <> val ->
  (Z.land opts JSON_C_OBJECT_ADD_KEY_IS_NEW =? 0) || bool_decide (find_item l key = None) = true ->
  exists jso' r, json_object_object_add_ex jso key val opts = Ret (0, jso', r) /\ self jso' = self jso /\
    call_map (self jso) l (AddEx key val opts) = (match find_item l key with None => l ++ [(key, val, negb (Z.land opts JSON_C_OBJECT_KEY_IS_CONSTANT =? 0))] | Some _ => replace_item l key val end, Added 0 r) /\
    represents jso' (match find_item l key with None => l ++ [(key, val, negb (Z.land opts JSON_C_OBJECT_KEY_IS_CONSTANT =? 0))] | Some _ => replace_item l key val end) (S n).
Proof.
  intros Hr Hf Hs Hnew. pose proof (lookup_represents jso l n key Hr) as Hl. destruct Hr as ((ns & Ht) & Hsz & Hlen).
  unfold json_object_object_add_ex. cbn [call_map]. rewrite decide_False by done. rewrite (bool_decide_false (Some _ = val)) by done.
  destruct (find_item l key) as [it|] eqn:E.
  - rewrite (bool_decide_false (Some it = None)), orb_false_r in Hnew by done. rewrite Hnew. cbn [negb].
    destruct Hl as (ns' & i & m & Ht' & Hi & Hk & Hm & Hlk). unfold lh_table_lookup_entry in Hlk. rewrite Hlk. cbn [mbind comp_bind].
    destruct (replace_value_ok _ _ ns' l i m it val Ht' Hm Hi) as (e & t' & He & (_ & Hv & _) & Hc & Hok & Es). rewrite He, Hc. cbn [mbind comp_bind].
    eexists _, _. split; [done|]. split; [done|]. rewrite Hv. split; [done|].
    rewrite (replace_item_insert l i it) by (try done; by apply (ok_keys _ _ _ _ Ht')). rewrite <- Hk. split_and!; [by exists ns'| |].
    + cbn [c_object with_members]. rewrite Es. lia.
    + rewrite length_insert. lia.
  - assert ((if negb (Z.land opts JSON_C_OBJECT_ADD_KEY_IS_NEW =? 0) then Ret None
      else lh_table_lookup_entry_w_hash lh_char_equal (c_object jso) key (char_hash_fn key)) = Ret None) as ->.
    { unfold lh_table_lookup_entry in Hl. rewrite Hl. by destruct (negb _). }
    cbn [mbind comp_bind]. apply find_item_None in E.
    destruct (insert_grows char_hash_fn (c_object jso) ns l key val (negb (Z.land opts JSON_C_OBJECT_KEY_IS_CONSTANT =? 0)) 0 Ht E) as (t' & ns' & -> & Hok & Hg).
    { unfold few_calls, INT_MAX in *. lia. }
    cbn [mbind comp_bind]. eexists _, _. split; [done|]. split_and!; [done|done|]. split_and!; [by exists ns'| |].
    + cbn [c_object with_members]. lia.
    + rewrite length_app. cbn [length]. lia.
Qed.

Lemma del_represents jso l n key : represents jso l n ->
  exists jso' r, json_object_object_del jso key = Ret (jso', r) /\ self jso' = self jso /\
    r = match find_item l key with Some it => release_items [it] | None => nothing end /\ represents jso' (remove_item l key) (S n).
Proof.
  intros Hr. pose proof (lookup_represents jso l n key Hr) as Hl. destruct Hr as ((ns & Ht) & Hsz & Hlen).
  unfold json_object_object_del, lh_table_delete. destruct (find_item l key) as [it|] eqn:E.
  - destruct Hl as (ns' & i & m & Ht' & Hi & <- & Hm & ->). cbn [mbind comp_bind].
    destruct (list_elem_of_split_length l i it Hi) as (l1 & l2 & -> & Ei). destruct (list_elem_of_split_length _ i m Hm) as (n1 & n2 & -> & En).
    destruct (delete_ok _ _ n1 m n2 l1 it l2 Ht') as (t' & e & -> & Hie & Hok & Es); [lia|]. cbn [mbind comp_bind].
    eexists _, _. split; [done|]. split_and!; [done|by apply release_all_items; repeat constructor; apply Hie|].
    rewrite (remove_item_delete _ l1 l2 it) by (try done; by apply (ok_keys _ _ _ _ Ht')). split_and!; [by exists (n1 ++ n2)| |].
    + cbn [c_object with_members]. lia.
    + rewrite length_app in *. cbn [length] in Hlen. lia.
  - rewrite Hl. cbn [mbind comp_bind]. eexists _, _. split; [done|]. split_and!; [done|done|].
    rewrite remove_item_id by by apply find_item_None.
    split_and!; [by exists ns|cbn [c_object with_members]; lia|lia].
Qed.
(** Each call returns what the map returns and keeps it represented. *)
Lemma call_represents jso l n c cs : represents jso l n -> few_calls n -> new_keys_new (self jso) l (c :: cs) = true ->
  exists jso', call_object jso c = Ret (jso', (call_map (self jso) l c).2) /\ self jso' = self jso /\
    represents jso' (call_map (self jso) l c).1 (S n).
Proof.
  intros Hr Hf Hnew. assert (represents jso l (S n)) as Hr' by (destruct Hr as (? & ? & ?); split_and!; [done|lia|lia]).
  destruct c as [key val opts|key|key| |]; cbn [call_object].
  - destruct (decide (Some (self jso) = val)) as [<-|Hv].
    + cbn [call_map]. rewrite decide_True by done. unfold json_object_object_add_ex. pose proof (lookup_represents jso l n key Hr) as Hl.
      assert (exists o, (if negb (Z.land opts JSON_C_OBJECT_ADD_KEY_IS_NEW =? 0) then Ret None
        else lh_table_lookup_entry_w_hash lh_char_equal (c_object jso) key (char_hash_fn key)) = Ret o) as [o ->].
      { destruct (negb _); [by eexists|]. unfold lh_table_lookup_entry in Hl.
        destruct (find_item l key); [destruct Hl as (? & ? & ? & _ & _ & _ & _ & ->)|rewrite Hl]; by eexists. }
      cbn [mbind comp_bind]. rewrite bool_decide_true by done. by exists jso.
    + cbn [new_keys_new] in Hnew. apply andb_prop in Hnew as [Hnew _].
      destruct (add_represents jso l n key val opts Hr Hf Hv Hnew) as (jso' & r & -> & Hs & -> & Hok). by exists jso'.
  - unfold json_object_object_get_ex, lh_table_lookup_ex. cbn [call_map]. pose proof (lookup_represents jso l n key Hr) as Hl.
    destruct (find_item l key) as [it|]; [|by rewrite Hl; exists jso].
    destruct Hl as (ns & i & m & Ht & Hi & Hk & Hm & ->). cbn [mbind comp_bind].
    destruct (ch_entry _ _ _ _ _ (ok_chain _ _ _ _ Ht) i m it Hm Hi) as (e & He & (_ & Hv & _) & _).
    rewrite (get_entry_ok _ _ _ He). cbn [mbind comp_bind]. rewrite Hv. by exists jso.
  - destruct (del_represents jso l n key Hr) as (jso' & r & -> & Hs & -> & Hok). by exists jso'.
  - exists jso. destruct Hr as ((ns & Ht) & _). unfold json_object_object_length, lh_table_length. by rewrite (ok_count _ _ _ _ Ht).
  - unfold json_object_object_foreachC. destruct Hr as ((ns & Ht) & _). destruct (free_ok _ _ ns l Ht) as (es & E & Hes).
    unfold lh_table_free in E. rewrite E. cbn [mbind comp_bind]. rewrite (iter_items es l Hes). by exists jso.
Qed.

Lemma calls_represent cs : forall jso l n, represents jso l n -> few_calls (n + length cs) -> new_keys_new (self jso) l cs = true ->
  exists jso', call_all jso cs = Ret (jso', (call_map_all (self jso) l cs).2) /\
    represents jso' (call_map_all (self jso) l cs).1 (n + length cs).
Proof.
  induction cs as [|c cs IH]; intros jso l n Hr Hf Hnew; [exists jso; by rewrite Nat.add_0_r|].
  unfold few_calls in Hf. cbn [length] in Hf. destruct (call_represents jso l n c cs Hr) as (jso1 & E1 & Hs & Hr1); [unfold few_calls; lia|done|].
  cbn [call_all call_map_all]. rewrite E1. cbn [mbind comp_bind]. cbn [new_keys_new] in Hnew. apply andb_prop in Hnew as [_ Hnew].
  destruct (call_map (self jso) l c) as [l1 o1]. cbn [fst snd] in *. rewrite <- Hs in *.
  destruct (IH jso1 l1 (S n) Hr1) as (jso2 & E2 & Hr2); [unfold few_calls; lia|done|]. rewrite E2. cbn [mbind comp_bind]. exists jso2.
  destruct (call_map_all (self jso1) l1 cs) as [l2 os]. cbn [fst snd] in *. split; [done|]. cbn [length]. by replace (n + S (length cs))%nat with (S n + length cs)%nat by lia.
Qed.

Lemma new_represents jso : exists o, json_object_new_object jso = Some o /\ self o = jso /\ represents o [] 0.
Proof.
  destruct (new_ok (V := V) char_hash_fn JSON_OBJECT_DEF_HASH_ENTRIES) as (t & E & Ht & Es); [done|].
  unfold json_object_new_object, lh_kchar_table_new. rewrite E. cbn [mbind option_bind]. eexists. split; [done|]. split; [done|].
  split_and!; [by exists []|cbn [c_object]; rewrite Es; done|done].
Qed.

(** The documents follow. *)
Lemma members_find doc l key : members_get (members_of doc l) key =
  (fun it : item => match it.1.2 with Some x => doc x | None => JNull end) <$> find_item l key.
Proof.
  induction l as [|[[k0 v0] c0] l IH]; [done|]. cbn -[decide]. unfold find_item in *. cbn -[decide]. case_decide as H; [by rewrite bool_decide_true|].
  rewrite bool_decide_false by done. exact IH.
Qed.
Lemma members_add_map doc l key val : NoDup (keys l) ->
  members_add (members_of doc l) key (match val with Some x => doc x | None => JNull end) =
  members_of doc (match find_item l key with None => l ++ [(key, val, false)] | Some _ => replace_item l key val end).
Proof.
  induction l as [|[[k0 v0] c0] l IH]; intros Hn; [done|]. cbn in Hn. apply NoDup_cons in Hn as [Hk Hn]. cbn -[decide]. unfold find_item. cbn -[decide].
  case_decide as H.
  - subst k0. rewrite bool_decide_true by done. unfold replace_item. cbn -[decide]. f_equal.
    unfold members_of. rewrite <- list_fmap_compose. apply list_fmap_ext. intros i it Hi. cbn. rewrite decide_False; [done|].
    intros E. apply Hk. apply list_elem_of_fmap. exists it. split; [done|]. by eapply list_elem_of_lookup_2.
  - rewrite bool_decide_false by done. specialize (IH Hn). unfold find_item in IH.
    etransitivity; [exact (f_equal (cons _) IH)|]. destruct (find _ l); [|done]. unfold replace_item. cbn -[decide]. done.
Qed.
Lemma members_remove doc l key :
  members_of doc (remove_item l key) = filter (fun kv : string * json => kv.1 <> key) (members_of doc l).
Proof.
  induction l as [|[[k0 v0] c0] l IH]; [done|]. unfold remove_item in *. cbn [members_of fmap list_fmap]. destruct (decide (k0 = key)) as [E|E].
  - rewrite !filter_cons_False by (intros Hne; by apply Hne). exact IH.
  - rewrite !filter_cons_True by done. exact (f_equal (cons _) IH).
Qed.
Lemma members_const doc l key val c c' : members_of doc (l ++ [(key, val, c)]) = members_of doc (l ++ [(key, val, c')]).
Proof. unfold members_of. by rewrite !fmap_app. Qed.

Lemma document_follows doc jso l c : NoDup (keys l) ->
  members_of doc (call_map jso l c).1 = document_call doc jso (members_of doc l) c.
Proof.
  intros Hn. destruct c as [key val opts|key|key| |]; cbn [call_map document_call fst]; [|done|by rewrite members_remove|done|done].
  case_decide; [done|]. rewrite members_add_map by done. destruct (find_item l key); [done|]. apply members_const.
Qed.
Lemma documents_follow doc cs : forall jso l n, represents jso l n -> few_calls (n + length cs) -> new_keys_new (self jso) l cs = true ->
  members_of doc (call_map_all (self jso) l cs).1 = fold_left (document_call doc (self jso)) cs (members_of doc l).
Proof.
  induction cs as [|c cs IH]; intros jso l n Hr Hf Hnew; [done|]. pose proof Hr as ((ns & Ht) & _). cbn [fold_left call_map_all].
  unfold few_calls in *. cbn [length] in Hf. rewrite <- (document_follows doc (self jso) l c) by exact (ok_keys _ _ _ _ Ht).
  destruct (call_represents jso l n c cs Hr) as (jso1 & _ & Hs & Hr1); [unfold few_calls; lia|done|].
  cbn [new_keys_new] in Hnew. apply andb_prop in Hnew as [_ Hnew]. destruct (call_map (self jso) l c) as [l1 o1]. cbn [fst] in *. rewrite <- Hs in *.
  specialize (IH jso1 l1 (S n) Hr1). destruct (call_map_all (self jso1) l1 cs) as [l2 os]. apply IH; [lia|done].
Qed.

(** C23: objects are ordered maps.  Whatever the hash function, a new object
    answers every sequence of up to 268 million calls exactly as an ordered map
    would: adding replaces the value of a key in place and releases the old one,
    or appends the key; deleting releases the key and the value and keeps the
    order; looking up, counting and iterating see the items in the order of
    insertion, whatever was deleted and however often the table grew.  At the end
    the object releases every key that is not constant and every value once, and
    the members are those of the document that the same calls build. *)
Theorem object_is_ordered_map (doc : V -> json) jso cs :
  8 * Z.of_nat (length cs) + 32 <= INT_MAX ->
  new_keys_new jso [] cs = true ->
  exists o o', json_object_new_object jso = Some o
    /\ call_all o cs = Ret (o', (call_map_all jso [] cs).2)
    /\ json_object_object_foreachC o' = Ret (fst <$> (call_map_all jso [] cs).1)
    /\ json_object_object_delete o' = Ret (release_items (call_map_all jso [] cs).1)
    /\ members_of doc (call_map_all jso [] cs).1 = fold_left (document_call doc jso) cs [].
Proof.
  intros Hf Hnew. destruct (new_represents jso) as (o & E & <- & Hr).
  destruct (calls_represent cs o [] 0 Hr Hf Hnew) as (o' & E' & ((ns & Ht) & _)). exists o, o'.
  destruct (free_ok _ _ ns _ Ht) as (es & Ef & Hes). split_and!; [done|done| | |by apply (documents_follow doc cs o [] 0)].
  - unfold json_object_object_foreachC. unfold lh_table_free in Ef. rewrite Ef. by apply iter_items.
  - unfold json_object_object_delete. rewrite Ef. cbn [mbind comp_bind]. by rewrite (release_all_items es _ Hes).
Qed.
End object.

(** Two keys with one hash, of which the first is deleted and added again; a
    value is replaced, and the table grows. *)
Definition example_calls : list call :=
  [AddEx "ip" (Some 1) 0; AddEx "mac" (Some 2) 4; Del "ip"; GetEx "mac"; AddEx "ip" None 2; AddEx "mac" (Some 3) 0; AddEx "self" (Some 0) 0]
  ++ ((fun i => AddEx (String (ascii_of_nat i) EmptyString) (Some 9) 0) <$> seq 65 12) ++ [Length; ForEach].
Lemma object_is_ordered_map_witness :
  exists o o', json_object_new_object 0 = Some o
    /\ call_all (fun _ => 7) o example_calls = Ret (o', (call_map_all 0 [] example_calls).2)
    /\ json_object_object_foreachC o' = Ret (fst <$> (call_map_all 0 [] example_calls).1)
    /\ json_object_object_delete o' = Ret (release_items (call_map_all 0 [] example_calls).1)
    /\ members_of JInt (call_map_all 0 [] example_calls).1 = fold_left (document_call JInt 0) example_calls [].
Proof. apply (object_is_ordered_map (fun _ => 7) JInt 0 example_calls); [by vm_compute|by vm_compute]. Defined.
Example example_outcome :
  match json_object_new_object 0 with
  | Some o => match call_all (fun _ => 7) o (take 7 example_calls) with
              | Ret (o', os) => (os !! 3%nat, json_object_object_foreachC o') = (Some (Got true (Some 2)), Ret [("mac", Some 3); ("ip", None)])
              | Err _ => False
              end
  | None => False
  end.
Proof. by vm_compute. Qed.
