(* ===== verification/SendReqParser.v ===== *)
(** * The JSON send request (hub-app/source/mqttsendreqbodyparser.c)

    The parser works over any reader and printer of JSON that keep the laws of
    [JsonCodec]; json-c does (JsonRoundTrip.v), and the examples at the end run
    on it. *)

From Stdlib Require Import Ascii.
From S2P Require Import Prelude CString StringUtils Json JsonPrint JsonTokener JsonRoundTrip.

Local Open Scope Z_scope.

(** ** mqttsendreqbodyparser.c *)

Definition JSON_NODE_FROM_MODULE_KEY : string := "from".
Definition JSON_NODE_MQTT_TOPIC_KEY : string := "topic".
Definition JSON_NODE_MQTT_PAYLOAD_KEY : string := "payload".
Definition JSON_NODE_MQTT_QOS_KEY : string := "qos".
Definition JSON_NODE_MQTT_CACHE_PRIORITY : string := "cache_priority".
Definition JSON_NODE_SN_KEY : string := "sn".
Definition JSON_NODE_MAC_KEY : string := "mac".
Definition JSON_NODE_TIME_KEY : string := "time".

Definition QOS0 : Z := 0.
Definition VALUE_CACHE_PRIORITY_DEFAULT : Z := 8.

(** devicesn.c: the serial number is fixed, computed once and cached. *)
Definition get_device_sn : string := string_upper_case "SN0000000001".

Record mqtt_send_content := {
  from : option string;
  topic : option string;
  payload : option string;
  qos : Z;
  cache_priority : Z
}.

Definition content_zero : mqtt_send_content :=
  {| from := None; topic := None; payload := None; qos := 0; cache_priority := 0 |}.

Definition with_payload (c : mqtt_send_content) (p : option string) : mqtt_send_content :=
  {| from := from c; topic := topic c; payload := p; qos := qos c; cache_priority := cache_priority c |}.

Section parser.
Variable json_tokener_parse : string -> option json.
(** With the flags JSON_C_TO_STRING_PLAIN | JSON_C_TO_STRING_NOSLASHESCAPE. *)
Variable json_object_to_json_string_ext : json -> string.

(** "add device sn, mac, time to payload object if they are not present" *)
Definition complete_payload (now : Z) (fromMacAddr : option string) (j : json) : json :=
  let j := match json_object_object_get_ex j JSON_NODE_SN_KEY with
           | Some _ => j
           | None => json_object_object_add j JSON_NODE_SN_KEY (JString get_device_sn)
           end in
  let j := if string_is_empty fromMacAddr then j
           else match json_object_object_get_ex j JSON_NODE_MAC_KEY with
                | Some _ => j
                | None => json_object_object_add j JSON_NODE_MAC_KEY (JString (safe_string fromMacAddr))
                end in
  match json_object_object_get_ex j JSON_NODE_TIME_KEY with
  | Some _ => j
  | None => json_object_object_add j JSON_NODE_TIME_KEY (JInt now)
  end.

(** The payload object is a member of the request object and is changed in
    place. *)
Definition set_payload (jobj jsub : json) : json :=
  json_object_object_add jobj JSON_NODE_MQTT_PAYLOAD_KEY jsub.

(** The fields read before the topic is checked. *)
Definition read_header (jobj : json) : mqtt_send_content :=
  let '(_, f, _) := json_helper_get_string jobj JSON_NODE_FROM_MODULE_KEY in
  let '(_, q, _) := json_helper_get_int jobj JSON_NODE_MQTT_QOS_KEY in
  let '(_, p, _) := json_helper_get_int jobj JSON_NODE_MQTT_CACHE_PRIORITY in
  {| from := f; topic := None; payload := None; qos := default QOS0 q;
     cache_priority := default VALUE_CACHE_PRIORITY_DEFAULT p |}.

Record parse_result := {
  p_rc : Z;
  p_content : mqtt_send_content;
  p_jobj : option json;
  p_error : string
}.

(** [last_err] is what json_util_get_last_err() returns; [now] is
    time(NULL). *)
Definition parse_mqtt_send_request_body (now : Z) (last_err : option string)
    (body fromMacAddr : option string) (content0 : mqtt_send_content) : comp parse_result :=
  match body with
  | None => Err NullDeref
  | Some body =>
      match json_tokener_parse body with
      | None =>
          let* e := write_buf 128 ("Parse JSON error: " +:+ default "(null)" last_err) in
          Ret {| p_rc := FAILURE; p_content := content0; p_jobj := None; p_error := e |}
      | Some jobj =>
          let fail (c : mqtt_send_content) (e : string) :=
            Ret {| p_rc := FAILURE; p_content := c; p_jobj := Some jobj; p_error := e |} in
          let c := read_header jobj in
          let '(rc, t, e) := json_helper_get_string jobj JSON_NODE_MQTT_TOPIC_KEY in
          if negb (rc =? JSON_HELPER_OK) then fail c e
          else
            let c := {| from := from c; topic := t; payload := payload c; qos := qos c;
                        cache_priority := cache_priority c |} in
            if string_is_empty t then fail c "topic is empty"
            else match json_object_object_get_ex jobj JSON_NODE_MQTT_PAYLOAD_KEY with
                 | Some (JString s) =>
                     let c := with_payload c (Some (c_str s)) in
                     if string_is_empty (payload c) then fail c "payload is empty"
                     else Ret {| p_rc := SUCCESS; p_content := c; p_jobj := Some jobj; p_error := EmptyString |}
                 | Some (JObject m) =>
                     let jsub := complete_payload now fromMacAddr (JObject m) in
                     let jobj := set_payload jobj jsub in
                     let c := with_payload c (Some (json_object_to_json_string_ext jsub)) in
                     Ret {| p_rc := SUCCESS; p_content := c; p_jobj := Some jobj; p_error := EmptyString |}
                 | Some _ => fail c "node 'payload' is not a string or JSON object"
                 | None => fail c "no json node 'payload'"
                 end
      end
  end.
End parser.

(** ** Completing a payload twice *)

Definition has_key (j : json) (k : string) : Prop := is_Some (json_object_object_get_ex j k).

Lemma has_key_add j k k' v : has_key j k' -> has_key (json_object_object_add j k v) k'.
Proof.
  intros Hk. unfold has_key. destruct (decide (k = k')) as [->|Hne]; [|by rewrite get_add_ne].
  rewrite get_add; [done|]. destruct j; try (by destruct Hk). by eexists.
Qed.

Lemma is_object_add j k v : (exists m, j = JObject m) -> exists m, json_object_object_add j k v = JObject m.
Proof. intros [m ->]. by eexists. Qed.

Definition ensure (j : json) (k : string) (v : json) : json :=
  match json_object_object_get_ex j k with
  | Some _ => j
  | None => json_object_object_add j k v
  end.

Lemma ensure_has j k v : (exists m, j = JObject m) -> has_key (ensure j k v) k.
Proof.
  intros Hj. unfold ensure, has_key. destruct (json_object_object_get_ex j k) eqn:E; [by rewrite E|].
  by rewrite get_add.
Qed.

Lemma ensure_mono j k v k' : has_key j k' -> has_key (ensure j k v) k'.
Proof. intros Hk. unfold ensure. case_match; [done|]. by apply has_key_add. Qed.

Lemma ensure_object j k v : (exists m, j = JObject m) -> exists m, ensure j k v = JObject m.
Proof. intros Hj. unfold ensure. case_match; [done|]. by apply is_object_add. Qed.

Lemma ensure_id j k v : has_key j k -> ensure j k v = j.
Proof. unfold ensure, has_key. by intros [x ->]. Qed.

Lemma complete_payload_eq now mac j :
  complete_payload now mac j =
    let j := ensure j JSON_NODE_SN_KEY (JString get_device_sn) in
    let j := if string_is_empty mac then j else ensure j JSON_NODE_MAC_KEY (JString (safe_string mac)) in
    ensure j JSON_NODE_TIME_KEY (JInt now).
Proof. reflexivity. Qed.

Lemma complete_payload_object now mac m : exists m', complete_payload now mac (JObject m) = JObject m'.
Proof.
  rewrite complete_payload_eq. cbn zeta. apply ensure_object.
  destruct (string_is_empty mac); repeat apply ensure_object; by eexists.
Qed.

(** A completed payload is left alone when it is completed again later, with
    no address known. *)
Lemma complete_payload_again now now' mac m :
  let j := complete_payload now mac (JObject m) in complete_payload now' None j = j.
Proof.
  intros j. destruct (complete_payload_object now mac m) as [m' Hm].
  assert (has_key j JSON_NODE_SN_KEY /\ has_key j JSON_NODE_TIME_KEY) as [Hsn Ht].
  { unfold j. rewrite complete_payload_eq. cbn zeta. split.
    - apply ensure_mono. destruct (string_is_empty mac); [|apply ensure_mono]; apply ensure_has; by eexists.
    - apply ensure_has. destruct (string_is_empty mac); repeat apply ensure_object; by eexists. }
  rewrite complete_payload_eq. cbn [string_is_empty]. cbn zeta. by rewrite (ensure_id j), (ensure_id j) by done.
Qed.

(** *** The completed payload is a document *)

Lemma scalar_document n j : json_wf j -> json_height j = 1%nat -> json_document (S n) j.
Proof. intros Hw Hh. split; [done|lia]. Qed.

Lemma ensure_document n j k v :
  json_document (S n) j -> no_nul k = true -> json_document n v -> json_document (S n) (ensure j k v).
Proof. intros Hj Hk Hv. unfold ensure. case_match; [done|]. by apply json_document_add. Qed.

Lemma complete_payload_document n now mac m :
  is_long now -> json_document (S (S n)) (JObject m) ->
  json_document (S (S n)) (complete_payload now mac (JObject m)).
Proof.
  intros Hnow Hm. rewrite complete_payload_eq. cbn zeta.
  apply ensure_document; [|done|apply scalar_document; [by constructor|done]].
  assert (json_document (S (S n)) (ensure (JObject m) JSON_NODE_SN_KEY (JString get_device_sn))).
  { apply ensure_document; [done|done|]. apply scalar_document; [constructor|done]. }
  case_match; [done|]. apply ensure_document; [done|done|]. apply scalar_document; [constructor|done].
Qed.

Section parser_facts.
Variable json_tokener_parse : string -> option json.
Variable json_object_to_json_string_ext : json -> string.
Notation parse := (parse_mqtt_send_request_body json_tokener_parse json_object_to_json_string_ext).

Lemma read_header_set_payload jobj jsub : read_header (set_payload jobj jsub) = read_header jobj.
Proof.
  unfold read_header, set_payload, json_helper_get_string, json_helper_get_int. by rewrite !get_add_ne.
Qed.

Lemma get_string_set_payload jobj jsub k :
  k <> JSON_NODE_MQTT_PAYLOAD_KEY ->
  json_helper_get_string (set_payload jobj jsub) k = json_helper_get_string jobj k.
Proof. intros Hk. unfold json_helper_get_string, set_payload. by rewrite get_add_ne. Qed.

(** A successful parse leaves a document that the codec can store. *)
Lemma accepted_document `{!JsonCodec json_tokener_parse json_object_to_json_string_ext} now last_err body mac content0 c j e :
  is_long now ->
  parse_mqtt_send_request_body json_tokener_parse json_object_to_json_string_ext now last_err (Some body) mac content0 =
    Ret {| p_rc := SUCCESS; p_content := c; p_jobj := Some j; p_error := e |} ->
  json_document JSON_TOKENER_DEFAULT_DEPTH j /\ exists m, j = JObject m.
Proof.
  intros Hnow H. unfold parse_mqtt_send_request_body in H.
  destruct (json_tokener_parse body) as [jobj|] eqn:Ep; [|by destruct (write_buf _ _)].
  apply codec_document in Ep.
  destruct (json_helper_get_string jobj JSON_NODE_MQTT_TOPIC_KEY) as [[rc t] e'].
  destruct (negb (rc =? JSON_HELPER_OK)); [done|]. destruct (string_is_empty t); [done|].
  destruct (json_object_object_get_ex jobj JSON_NODE_MQTT_PAYLOAD_KEY) as [[| | | |s| |m]|] eqn:Hp; try done.
  - case_match; [done|]. injection H as _ <- _. split; [done|]. destruct jobj; try done. by eexists.
  - injection H as _ <- _. split.
    + apply json_document_add; [done|done|]. apply complete_payload_document; [done|].
      exact (json_document_get 31 jobj _ _ Ep Hp).
    + destruct jobj; try done. by apply is_object_add; eexists.
Qed.

(** C15: a request that was accepted and then written to the cache as JSON
    text is read back, whenever that happens and from whatever state, as the
    same topic, payload, QoS and priority, and the document is not changed
    again: with any JSON library that keeps the laws of the codec, for texts
    up to the size such a library reads. *)
Theorem cached_request_stable `{!JsonCodec json_tokener_parse json_object_to_json_string_ext}
    now now' last_err last_err' body mac content0 content1 c j e :
  parse_mqtt_send_request_body json_tokener_parse json_object_to_json_string_ext now last_err (Some body) mac content0 =
    Ret {| p_rc := SUCCESS; p_content := c; p_jobj := Some j; p_error := e |} ->
  is_long now -> strlen (json_object_to_json_string_ext j) <= INT32_MAX ->
  parse_mqtt_send_request_body json_tokener_parse json_object_to_json_string_ext now' last_err' (Some (json_object_to_json_string_ext j)) None content1 =
    Ret {| p_rc := SUCCESS; p_content := c; p_jobj := Some j; p_error := EmptyString |}.
Proof.
  intros H Hnow Hlen. destruct (accepted_document _ _ _ _ _ _ _ _ Hnow H) as [Hdoc Hobj].
  assert (json_tokener_parse (json_object_to_json_string_ext j) = Some j) as Hj.
  { apply codec_read_back; [done| |done]. by destruct Hobj as [? ->]. }
  unfold parse_mqtt_send_request_body in H |- *. rewrite Hj. clear Hj Hdoc Hobj.
  destruct (json_tokener_parse body) as [jobj|]; [|by destruct (write_buf _ _)].
  destruct (json_helper_get_string jobj JSON_NODE_MQTT_TOPIC_KEY) as [[rc t] e'] eqn:Et.
  destruct (negb (rc =? JSON_HELPER_OK)) eqn:Hrc; [done|].
  destruct (string_is_empty t) eqn:He; [done|].
  destruct (json_object_object_get_ex jobj JSON_NODE_MQTT_PAYLOAD_KEY) as [[| | | |s| |m]|] eqn:Hp; try done.
  - case_match; [done|]. injection H as <- <- _. rewrite Et, Hrc, He, Hp. by case_match.
  - injection H as <- <- _. rewrite get_string_set_payload, Et, Hrc, He, read_header_set_payload by done.
    destruct (complete_payload_object now mac m) as [m' Hm'].
    assert (json_object_object_get_ex (set_payload jobj (complete_payload now mac (JObject m)))
              JSON_NODE_MQTT_PAYLOAD_KEY = Some (JObject m')) as ->.
    { unfold set_payload. rewrite get_add, Hm'; [done|]. destruct jobj; try done. by eexists. }
    pose proof (complete_payload_again now now' mac m) as Ha. cbn zeta in Ha. rewrite Hm' in *. rewrite Ha.
    do 3 f_equal. unfold set_payload. rewrite (add_same (json_object_object_add _ _ _)); [done|].
    apply get_add. destruct jobj; try done. by eexists.
Qed.

Lemma parse_ok now last_err body mac content0 :
  strlen (default "(null)" last_err) <= 109 ->
  exists r, parse_mqtt_send_request_body json_tokener_parse json_object_to_json_string_ext now last_err (Some body) mac content0 = Ret r
    /\ strlen (p_error r) < 128
    /\ ((p_rc r = SUCCESS /\ string_is_empty (topic (p_content r)) = false
          /\ is_Some (payload (p_content r)) /\ is_Some (p_jobj r) /\ is_int (qos (p_content r))
          /\ is_int (cache_priority (p_content r)))
        \/ (p_rc r = FAILURE /\ p_error r <> EmptyString)).
Proof.
  intros Hl. unfold parse_mqtt_send_request_body.
  destruct (json_tokener_parse body) as [jobj|].
  - assert (is_int (qos (read_header jobj)) /\ is_int (cache_priority (read_header jobj))) as [Hq Hcp].
    { unfold read_header, json_helper_get_int. destruct (json_helper_get_string _ _) as [[? ?] ?].
      destruct (json_object_object_get_ex jobj JSON_NODE_MQTT_QOS_KEY) as [[]|];
        destruct (json_object_object_get_ex jobj JSON_NODE_MQTT_CACHE_PRIORITY) as [[]|]; cbn;
        unfold json_object_get_int, VALUE_CACHE_PRIORITY_DEFAULT; repeat case_match;
        unfold is_int, INT_MIN, INT_MAX, QOS0 in *; lia. }
    unfold json_helper_get_string at 1.
    destruct (json_object_object_get_ex jobj JSON_NODE_MQTT_TOPIC_KEY) as [[]|]; cbn [negb Z.eqb JSON_HELPER_OK JSON_HELPER_ERROR_TYPE_NOT_MATCH JSON_HELPER_ERROR_NO_NODE];
      try (eexists; split; [reflexivity|]; split; [by vm_compute|by right]).
    destruct (string_is_empty (Some (c_str s))) eqn:He;
      [eexists; split; [reflexivity|]; split; [by vm_compute|by right]|].
    destruct (json_object_object_get_ex jobj JSON_NODE_MQTT_PAYLOAD_KEY) as [[| | | |p| |m]|];
      try (eexists; split; [reflexivity|]; split; [by vm_compute|by right]).
    + cbn [with_payload payload]. destruct (string_is_empty (Some (c_str p)));
        (eexists; split; [reflexivity|]; split; [by vm_compute|]); [by right|left; by split_and!].
    + eexists; split; [reflexivity|]; split; [by vm_compute|]. left. by split_and!.
  - assert (strlen ("Parse JSON error: " +:+ default "(null)" last_err) = 18 + strlen (default "(null)" last_err)) as E
      by (rewrite strlen_app; reflexivity).
    rewrite write_buf_ok by lia. cbn [mbind comp_bind]. eexists. split; [reflexivity|]. cbn [p_error p_rc].
    split; [lia|]. by right.
Qed.

(** C37: the parser answers SUCCESS only with a non-empty topic, a payload and
    a document; every other outcome is FAILURE with a message that fits the
    callers' 128-byte buffer, and it never faults on a body that is there
    (with json-c's error text, when set, short enough). *)
Theorem parse_total now last_err body mac content0 :
  strlen (default "(null)" last_err) <= 109 ->
  exists r, parse_mqtt_send_request_body json_tokener_parse json_object_to_json_string_ext now last_err (Some body) mac content0 = Ret r
    /\ strlen (p_error r) < 128
    /\ ((p_rc r = SUCCESS /\ string_is_empty (topic (p_content r)) = false
          /\ is_Some (payload (p_content r)) /\ is_Some (p_jobj r) /\ is_int (qos (p_content r))
          /\ is_int (cache_priority (p_content r)))
        \/ (p_rc r = FAILURE /\ p_error r <> EmptyString)).
Proof. apply parse_ok. Qed.
End parser_facts.

(** ** A request read and printed by json-c *)
Definition demo_parse : string -> option json := JsonTokener.json_tokener_parse.
Definition demo_print : json -> string := json_object_to_json_string_ext HUB_TO_STRING.
Definition demo_body : string := "{'topic':'hub/x', 'payload':{'v':[1, 2.50]}, 'qos':1}".
Definition demo_payload : json :=
  JObject [("v", JArray [JInt 1; JDouble "2.50"]); ("sn", JString get_device_sn); ("mac", JString "aa:bb"); ("time", JInt 100)].
Definition demo_completed : json :=
  JObject [("topic", JString "hub/x"); ("payload", demo_payload); ("qos", JInt 1)].
Definition demo_text : string := demo_print demo_completed.
Definition demo_content : mqtt_send_content :=
  {| from := None; topic := Some "hub/x"; payload := Some (demo_print demo_payload); qos := 1; cache_priority := 8 |}.

Lemma demo_accepted :
  parse_mqtt_send_request_body demo_parse demo_print 100 None (Some demo_body) (Some "aa:bb") content_zero =
    Ret {| p_rc := SUCCESS; p_content := demo_content; p_jobj := Some demo_completed; p_error := EmptyString |}.
Proof. by vm_compute. Qed.

Lemma demo_text_reads now last_err :
  parse_mqtt_send_request_body demo_parse demo_print now last_err (Some demo_text) None content_zero =
    Ret {| p_rc := SUCCESS; p_content := demo_content; p_jobj := Some demo_completed; p_error := EmptyString |}.
Proof. by vm_compute. Qed.

Lemma cached_request_stable_witness :
  parse_mqtt_send_request_body demo_parse demo_print 555 None (Some demo_text) None content_zero =
    Ret {| p_rc := SUCCESS; p_content := demo_content; p_jobj := Some demo_completed; p_error := EmptyString |}.
Proof.
  apply (cached_request_stable demo_parse demo_print 100 555 None None demo_body (Some "aa:bb")
           content_zero content_zero demo_content demo_completed EmptyString);
    [exact demo_accepted|by vm_compute|by vm_compute].
Defined.

Lemma parse_total_witness :
  exists r, parse_mqtt_send_request_body demo_parse demo_print 1 None (Some "{") None content_zero = Ret r
    /\ strlen (p_error r) < 128.
Proof.
  destruct (parse_total demo_parse demo_print 1 None "{" None content_zero) as (r & E & Hl & _);
    [by vm_compute|]. by exists r.
Defined.
