(* ===== verification/OfflineCache.v ===== *)
(** * The offline message cache (hub-app/source/offlinemsgcache.c)

    The in-memory queue [g_list] is the sequence of cache headers that the
    linked list of [DList] represents (its operations are proved there to be
    the sequence operations used here); the messages themselves are files
    named after their header.  [None] for [g_list] is the null pointer before
    [init_list].  The operations are split where the code gives up a mutex:
    [cache_step] runs any number of storing, starting and sending threads,
    one critical section or one call between two of them at a time. *)

From Stdlib Require Import Ascii.
From stdpp Require Import sorting.
From S2P Require Import Prelude CString StringUtils FileSys Json SendReqParser.

Local Open Scope Z_scope.

Definition CACHE_FILE_SUFFIX : string := ".cache".
Definition CACHE_INFO_SEPARATOR : ascii := "-"%char.

Record cache_file_header := { h_priority : Z; h_timestamp : Z }.

#[global] Instance cache_file_header_eq_dec : EqDecision cache_file_header.
Proof. solve_decision. Defined.

Record cache_state := {
  g_list : option (list cache_file_header);
  g_cacheCapacity : Z;
  g_isAsyncSending : bool;
  disk : fs;
  offline_discarded : Z;
  offline_sent : Z;
  sent_log : list (option string * option string * Z)
}.

Definition with_list (c : cache_state) (l : option (list cache_file_header)) : cache_state :=
  {| g_list := l; g_cacheCapacity := g_cacheCapacity c; g_isAsyncSending := g_isAsyncSending c;
     disk := disk c; offline_discarded := offline_discarded c; offline_sent := offline_sent c;
     sent_log := sent_log c |}.
Definition with_disk (c : cache_state) (d : fs) : cache_state :=
  {| g_list := g_list c; g_cacheCapacity := g_cacheCapacity c; g_isAsyncSending := g_isAsyncSending c;
     disk := d; offline_discarded := offline_discarded c; offline_sent := offline_sent c;
     sent_log := sent_log c |}.
Definition with_sending (c : cache_state) (b : bool) : cache_state :=
  {| g_list := g_list c; g_cacheCapacity := g_cacheCapacity c; g_isAsyncSending := b;
     disk := disk c; offline_discarded := offline_discarded c; offline_sent := offline_sent c;
     sent_log := sent_log c |}.
Definition increase_discarded (c : cache_state) : cache_state :=
  {| g_list := g_list c; g_cacheCapacity := g_cacheCapacity c; g_isAsyncSending := g_isAsyncSending c;
     disk := disk c; offline_discarded := to_int (offline_discarded c + 1); offline_sent := offline_sent c;
     sent_log := sent_log c |}.
Definition increase_sent (c : cache_state) : cache_state :=
  {| g_list := g_list c; g_cacheCapacity := g_cacheCapacity c; g_isAsyncSending := g_isAsyncSending c;
     disk := disk c; offline_discarded := offline_discarded c; offline_sent := to_int (offline_sent c + 1);
     sent_log := sent_log c |}.
Definition log_send (c : cache_state) (m : option string * option string * Z) : cache_state :=
  {| g_list := g_list c; g_cacheCapacity := g_cacheCapacity c; g_isAsyncSending := g_isAsyncSending c;
     disk := disk c; offline_discarded := offline_discarded c; offline_sent := offline_sent c;
     sent_log := sent_log c ++ [m] |}.

(** [g_list ? g_list->len : 0] *)
Definition list_len (c : cache_state) : Z := Z.of_nat (length (default [] (g_list c))).

Definition set_offline_cache_capacity (c : cache_state) (capacity : Z) : cache_state :=
  {| g_list := g_list c; g_cacheCapacity := capacity; g_isAsyncSending := g_isAsyncSending c;
     disk := disk c; offline_discarded := offline_discarded c; offline_sent := offline_sent c;
     sent_log := sent_log c |}.
Definition get_offline_cache_capacity (c : cache_state) : Z := g_cacheCapacity c.
Definition offline_messages_count (c : cache_state) : Z := list_len c.
Definition is_queue_full (c : cache_state) : bool := g_cacheCapacity c <=? list_len c.

Definition init_list (c : cache_state) : cache_state :=
  match g_list c with
  | Some _ => c
  | None => with_list c (Some [])
  end.

(** ** File names *)

(** The directory of the cache files, resolved once: the configured one or
    the default below the home directory; created when it is missing, and
    reset to the empty string when that fails. *)
Definition cache_root_path (g_cacheRootPath : string) (config : option string) (home : string)
    (exists_ : string -> bool) (mkdirp_rc : string -> Z) : comp string :=
  if string_is_empty (Some g_cacheRootPath) then
    let* p := match config with
              | Some p => write_buf POSIX_PATH_MAX p
              | None => write_buf POSIX_PATH_MAX (home +:+ "/mqttmsghub-data/mqtt-offline-msgs")
              end in
    Ret (if exists_ p then p else if mkdirp_rc p <? 0 then EmptyString else p)
  else Ret g_cacheRootPath.

(** The part of the path below the root. *)
Definition cache_file_name (cache_priority timestamp : Z) : string :=
  if 0 <=? cache_priority then
    fmt_d timestamp +:+ "-" +:+ fmt_d cache_priority +:+ CACHE_FILE_SUFFIX
  else fmt_d timestamp +:+ CACHE_FILE_SUFFIX.

Definition get_cache_file_path (root : string) (cache_priority timestamp : Z) : comp string :=
  write_buf POSIX_PATH_MAX (root +:+ "/" +:+ cache_file_name cache_priority timestamp).

Definition get_cache_file_header_from_file_base (fileBaseName : string) : comp (Z * Z) :=
  let* copy := write_buf POSIX_PATH_MAX fileBaseName in
  Ret (match strchr copy CACHE_INFO_SEPARATOR with
       | Some (pre, post) =>
           (if decide (post = EmptyString) then VALUE_CACHE_PRIORITY_DEFAULT else atoi post, atoll pre)
       | None => (VALUE_CACHE_PRIORITY_DEFAULT, atoll copy)
       end).

(** ** Loading *)

Definition filter_offline_cache_file (root : string) (d : fs) (d_name : string) : comp bool :=
  let* filePath := write_buf POSIX_PATH_MAX (root +:+ "/" +:+ d_name) in
  if is_file d filePath then
    let* suffix := write_buf POSIX_PATH_MAX (get_file_suffix (Some d_name)) in
    Ret (string_equals suffix CACHE_FILE_SUFFIX true)
  else Ret false.

Definition offline_cache_file_compare (d1 d2 : string) : comp Z :=
  let* (_, timestamp1) := get_cache_file_header_from_file_base (get_file_base_name (Some d1)) in
  let* (_, timestamp2) := get_cache_file_header_from_file_base (get_file_base_name (Some d2)) in
  Ret (if timestamp1 >? timestamp2 then 1 else if timestamp1 <? timestamp2 then -1 else 0).

(** The loop over the names [scandir] delivered, already in order. *)
Fixpoint load_loop (root : string) (c : cache_state) (namelist : list string) (addedCount : Z)
    : comp (cache_state * Z) :=
  match namelist with
  | [] => Ret (c, addedCount)
  | d_name :: namelist =>
      let fileBaseName := get_file_base_name (Some d_name) in
      if string_is_empty (Some fileBaseName) then load_loop root c namelist addedCount
      else
        let* (cache_priority, timestamp) := get_cache_file_header_from_file_base fileBaseName in
        if 0 <? timestamp then
          let val := {| h_priority := cache_priority; h_timestamp := timestamp |} in
          let c := with_list c (Some (default [] (g_list c) ++ [val])) in
          load_loop root c namelist (addedCount + 1)
        else
          let* fullPath := write_buf POSIX_PATH_MAX (root +:+ "/" +:+ d_name) in
          load_loop root (with_disk c (unlink_file (disk c) fullPath)) namelist addedCount
  end.

(** [None]: [scandir] failed. *)
Definition load_offline_messages (root : string) (c : cache_state) (namelist : option (list string))
    : comp (cache_state * Z) :=
  match namelist with
  | None => Ret (c, 0)
  | Some namelist => load_loop root (init_list c) namelist 0
  end.

(** ** Queueing *)

Definition can_message_enter_offine_queue (c : cache_state) (cache_priority : Z) : comp bool :=
  if list_len c <? g_cacheCapacity c then Ret true
  else match g_list c with
       | None => Err NullDeref
       | Some l => Ret (existsb (fun h => h_priority h <=? cache_priority) l)
       end.

(** First round: the lowest priority. *)
Fixpoint lowest_priority (l : list cache_file_header) (lowest : Z) : Z :=
  match l with
  | [] => lowest
  | h :: l => lowest_priority l (if h_priority h <? lowest then h_priority h else lowest)
  end.

Definition remove_one_lowest_priority_message (root : string) (c : cache_state) : comp cache_state :=
  match g_list c with
  | None => Err NullDeref
  | Some l =>
      let lowest := lowest_priority l INT_MAX in
      match split_first (fun h => h_priority h =? lowest) l with
      | Some (l1, h, l2) =>
          let* filePath := get_cache_file_path root (h_priority h) (h_timestamp h) in
          let c := if file_exists (disk c) filePath then with_disk c (unlink_file (disk c) filePath) else c in
          Ret (increase_discarded (with_list c (Some (l1 ++ l2))))
      | None => Ret c
      end
  end.

(** [while(len >= g_cacheCapacity)] *)
Fixpoint evict (fuel : nat) (root : string) (c : cache_state) : comp cache_state :=
  match fuel with
  | O => Err OutOfFuel
  | S fuel =>
      if g_cacheCapacity c <=? list_len c then
        let* c := remove_one_lowest_priority_message root c in evict fuel root c
      else Ret c
  end.

(** What [cache_offline_message] does between its two critical sections,
    [ok] being the answer of the first one: refusing the message, or writing
    its file.  The result is the return value and the error text; [None]: the
    message goes on to the queue. *)
Definition cache_write (root : string) (r : write_resp) (c : cache_state) (ok : bool)
    (message : option string) (cache_priority timestamp : Z) : comp (cache_state * option (Z * string)) :=
  if negb ok then
    Ret (increase_discarded c,
         Some (FAILURE, "offline queue is full, and no message with lower or same priority exists, discard it"))
  else if timestamp <=? 0 then
    Ret (c, Some (FAILURE, "timestamp " +:+ fmt_d timestamp +:+ " is invalid, discard it"))
  else if string_is_empty message then Ret (c, Some (FAILURE, "message is empty, discard it"))
  else
    let* filePath := get_cache_file_path root cache_priority timestamp in
    if string_is_empty (Some filePath) then Ret (c, Some (FAILURE, "file path is empty, discard it"))
    else
      let '(d, writeSize) := write_file_string r (disk c) (safe_string message) filePath in
      let c := with_disk c d in
      if writeSize <? 0 then
        let c := if file_exists (disk c) filePath then with_disk c (unlink_file (disk c) filePath) else c in
        Ret (c, Some (FAILURE, "write cache file failed"))
      else if writeSize =? 0 then
        let c := if file_exists (disk c) filePath then with_disk c (unlink_file (disk c) filePath) else c in
        Ret (c, Some (FAILURE, "nothing was written to cache file"))
      else Ret (c, None).

(** The second critical section: room is made and the header queued. *)
Definition cache_insert (fuel : nat) (root : string) (c : cache_state) (cache_priority timestamp : Z)
    : comp cache_state :=
  let* c := evict fuel root c in
  match g_list c with
  | None => Err NullDeref
  | Some l => Ret (with_list c (Some (l ++ [{| h_priority := cache_priority; h_timestamp := timestamp |}])))
  end.

Definition cache_offline_message (fuel : nat) (root : string) (r : write_resp) (c : cache_state)
    (message : option string) (cache_priority timestamp : Z) : comp (cache_state * Z * string) :=
  let* ok := can_message_enter_offine_queue c cache_priority in
  let* (c, res) := cache_write root r c ok message cache_priority timestamp in
  match res with
  | Some (rc, err) => Ret (c, rc, err)
  | None =>
      let* c := cache_insert fuel root c cache_priority timestamp in
      Ret (c, SUCCESS, EmptyString)
  end.

Definition enqueue_offline_message (fuel : nat) (root : string) (r : write_resp) (c : cache_state)
    (message : option string) (cache_priority timestamp : Z) : comp (cache_state * Z * string) :=
  cache_offline_message fuel root r (init_list c) message cache_priority timestamp.

(** ** Sending *)
Section sending.
Variable json_tokener_parse : string -> option json.
Variable json_object_to_json_string_ext : json -> string.
Variable root : string.
Notation parse := (parse_mqtt_send_request_body json_tokener_parse json_object_to_json_string_ext).

(** What the surroundings answer during one round of the sending loop:
    [MQTTClientWrapper_isConnected()], the result of
    [MQTTClientWrapper_sendMessage], [time(NULL)] and json-c's error text. *)
Record send_env := {
  e_connected : bool;
  e_sendRetCode : Z;
  e_now : Z;
  e_last_err : option string
}.

(** The top of the body: the connection is asked for ([None]: the loop is
    left) and the head taken off; [Some None] is the null node of an empty
    queue. *)
Definition send_pop (connected : bool) (c : cache_state) : comp (cache_state * option (option cache_file_header)) :=
  if negb connected then Ret (c, None)
  else match g_list c with
       | None => Err NullDeref
       | Some [] => Ret (c, Some None)
       | Some (h :: l) => Ret (with_list c (Some l), Some (Some h))
       end.

(** Reading the file of the node [h]: its path and the message in it; a file
    that cannot be read or parsed is deleted. *)
Definition send_read (now : Z) (last_err : option string) (c : cache_state) (h : cache_file_header)
    : comp (cache_state * option (string * mqtt_send_content)) :=
  let* filePath := get_cache_file_path root (h_priority h) (h_timestamp h) in
  if file_exists (disk c) filePath then
    let '(buffer, readSize) := read_file_string (disk c) filePath in
    if 0 <? readSize then
      let* p := parse now last_err buffer None content_zero in
      if p_rc p =? SUCCESS then Ret (c, Some (filePath, p_content p))
      else Ret (with_disk c (unlink_file (disk c) filePath), None)
    else Ret (with_disk c (unlink_file (disk c) filePath), None)
  else Ret (c, None).

(** After the send, which holds no mutex: a sent message is counted and its
    file deleted; the flag asks for the node to be put back. *)
Definition send_sent (sendRetCode : Z) (c : cache_state) (filePath : string) (content : mqtt_send_content)
    : cache_state * bool :=
  if sendRetCode =? SUCCESS then
    let c := log_send c (topic content, payload content, qos content) in
    (with_disk (increase_sent c) (unlink_file (disk c) filePath), false)
  else (c, true).

(** Putting the node back, if there is still room for it. *)
Definition send_put_back (c : cache_state) (h : cache_file_header) : comp cache_state :=
  if list_len c <? g_cacheCapacity c then
    match g_list c with
    | None => Err NullDeref
    | Some l => Ret (with_list c (Some (h :: l)))
    end
  else Ret c.

(** One round of [while(count > 0)] that no other thread interrupts; the
    flag says whether the loop goes on to its next test. *)
Definition send_round (e : send_env) (c : cache_state) : comp (cache_state * bool) :=
  let* (c, node) := send_pop (e_connected e) c in
  match node with
  | None => Ret (c, false)
  | Some None => Ret (c, true)
  | Some (Some h) =>
      let* (c, m) := send_read (e_now e) (e_last_err e) c h in
      match m with
      | None => Ret (c, true)
      | Some (filePath, content) =>
          let '(c, back) := send_sent (e_sendRetCode e) c filePath content in
          let* c := (if (back : bool) then send_put_back c h else Ret c) in
          Ret (c, true)
      end
  end.

(** The loop against the answers [env]; it is cut off when they run out, and
    the flag of the result says whether the loop ended by itself. *)
Fixpoint send_loop (env : list send_env) (c : cache_state) : comp (cache_state * bool) :=
  if offline_messages_count c <=? 0 then Ret (c, true)
  else match env with
       | [] => Ret (c, false)
       | e :: env =>
           let* (c, go) := send_round e c in
           if (go : bool) then send_loop env c else Ret (c, true)
       end.

(** The whole thread function. *)
Definition send_messages_thread_fun (env : list send_env) (c : cache_state) : comp (cache_state * bool) :=
  if g_isAsyncSending c then Ret (c, true)
  else
    let* (c, done) := send_loop env (with_sending c true) in
    Ret (with_sending c false, done).

(** What [asyn_send_offline_messages] makes of the count and the flag, each
    read under its own mutex: the result code and whether a thread was
    started. *)
Definition asyn_send_decide (count : Z) (isSending : bool) (pthread_create_rc : Z) : Z * bool :=
  if count =? 0 then (SUCCESS, false)
  else if isSending then (0, false)
  else if pthread_create_rc <? 0 then (pthread_create_rc, false)
  else (SUCCESS, pthread_create_rc =? 0).

Definition asyn_send_offline_messages (c : cache_state) (pthread_create_rc : Z) : Z * bool :=
  asyn_send_decide (offline_messages_count c) (g_isAsyncSending c) pthread_create_rc.

(** ** Threads

    Three kinds of threads, numbered by their creation.  One in
    [enqueue_offline_message] has yet to look at [g_list], is about to create
    the list, to ask for room, to write the file with the answer it got, or
    to queue the header; one in [asyn_send_offline_messages] holds the count
    it read; a sender is before the test of the flag, at the test of the
    loop, about to pop, holds a node, holds a node and its message, has to
    put the node back, is about to reset the flag, or is done. *)
Inductive storing_pc : Set :=
  | Entering
  | Creating
  | Asking
  | Writing (ok : bool)
  | Queueing
  | Stored (rc : Z) (err : string).

Record storing := { st_pc : storing_pc; st_msg : option string; st_prio : Z; st_ts : Z }.

Definition st_at (t : storing) (pc : storing_pc) : storing :=
  {| st_pc := pc; st_msg := st_msg t; st_prio := st_prio t; st_ts := st_ts t |}.

Inductive sender_pc : Set :=
  | Starting
  | Counting
  | Popping
  | Popped (h : cache_file_header)
  | Loaded (h : cache_file_header) (filePath : string) (content : mqtt_send_content)
  | PuttingBack (h : cache_file_header)
  | Leaving
  | Finished.

(** Between setting the flag and resetting it. *)
Definition in_loop (p : sender_pc) : bool :=
  match p with Starting | Finished => false | _ => true end.

Record hub := { h_cache : cache_state; h_storing : list storing; h_asking : list Z; h_senders : list sender_pc }.

Definition hub_store (h : hub) (i : nat) (c : cache_state) (t : storing) : hub :=
  {| h_cache := c; h_storing := <[i := t]> (h_storing h); h_asking := h_asking h; h_senders := h_senders h |}.

Definition hub_send (h : hub) (i : nat) (c : cache_state) (p : sender_pc) : hub :=
  {| h_cache := c; h_storing := h_storing h; h_asking := h_asking h; h_senders := <[i := p]> (h_senders h) |}.

(** The steps of a thread that stores a message. *)
Inductive storing_step (c : cache_state) (t : storing) : cache_state -> storing_pc -> Prop :=
  | store_enter :
      st_pc t = Entering ->
      storing_step c t c (match g_list c with None => Creating | Some _ => Asking end)
  | store_create :
      st_pc t = Creating -> storing_step c t (with_list c (Some [])) Asking
  | store_ask ok :
      st_pc t = Asking -> can_message_enter_offine_queue c (st_prio t) = Ret ok ->
      storing_step c t c (Writing ok)
  | store_write ok r c' res :
      st_pc t = Writing ok -> cache_write root r c ok (st_msg t) (st_prio t) (st_ts t) = Ret (c', res) ->
      storing_step c t c' (match res with Some (rc, err) => Stored rc err | None => Queueing end)
  | store_queue fuel c' :
      st_pc t = Queueing -> cache_insert fuel root c (st_prio t) (st_ts t) = Ret c' ->
      storing_step c t c' (Stored SUCCESS EmptyString).

(** The steps of a sending thread. *)
Inductive sender_step (c : cache_state) : sender_pc -> cache_state -> sender_pc -> Prop :=
  | send_enter :
      g_isAsyncSending c = false -> sender_step c Starting (with_sending c true) Counting
  | send_refused :
      g_isAsyncSending c = true -> sender_step c Starting c Finished
  | send_count :
      sender_step c Counting c (if 0 <? offline_messages_count c then Popping else Leaving)
  | send_take connected c' node :
      send_pop connected c = Ret (c', node) ->
      sender_step c Popping c'
        (match node with None => Leaving | Some None => Counting | Some (Some h) => Popped h end)
  | send_load h now last_err c' m :
      send_read now last_err c h = Ret (c', m) ->
      sender_step c (Popped h) c'
        (match m with None => Counting | Some (filePath, content) => Loaded h filePath content end)
  | send_done h filePath content rc c' back :
      send_sent rc c filePath content = (c', back) ->
      sender_step c (Loaded h filePath content) c' (if (back : bool) then PuttingBack h else Counting)
  | send_back h c' :
      send_put_back c h = Ret c' -> sender_step c (PuttingBack h) c' Counting
  | send_leave :
      sender_step c Leaving (with_sending c false) Finished.

Inductive cache_step : hub -> hub -> Prop :=
  | step_new h msg prio ts :
      cache_step h {| h_cache := h_cache h;
        h_storing := h_storing h ++ [{| st_pc := Entering; st_msg := msg; st_prio := prio; st_ts := ts |}];
        h_asking := h_asking h; h_senders := h_senders h |}
  | step_store h i t c pc :
      h_storing h !! i = Some t -> storing_step (h_cache h) t c pc ->
      cache_step h (hub_store h i c (st_at t pc))
  | step_ask h :
      cache_step h {| h_cache := h_cache h; h_storing := h_storing h;
        h_asking := h_asking h ++ [offline_messages_count (h_cache h)]; h_senders := h_senders h |}
  | step_spawn h i count rc :
      h_asking h !! i = Some count ->
      asyn_send_decide count (g_isAsyncSending (h_cache h)) rc = (SUCCESS, true) ->
      cache_step h {| h_cache := h_cache h; h_storing := h_storing h;
        h_asking := delete i (h_asking h); h_senders := h_senders h ++ [Starting] |}
  | step_send h i p c p' :
      h_senders h !! i = Some p -> sender_step (h_cache h) p c p' ->
      cache_step h (hub_send h i c p').

Definition cache_steps : hub -> hub -> Prop := rtc cache_step.

(** How many senders are between setting the flag and resetting it. *)
Definition senders (h : hub) : nat := length (filter (fun p => in_loop p = true) (h_senders h)).
End sending.

(** ** The name of a cache file carries its header *)

Definition header_ok (h : cache_file_header) : Prop :=
  is_int (h_priority h) /\ 0 < h_timestamp h <= LONG_MAX.

(** What the name remembers of a header: a negative priority is not written
    and comes back as the default. *)
Definition named_header (h : cache_file_header) : cache_file_header :=
  {| h_priority := if 0 <=? h_priority h then h_priority h else VALUE_CACHE_PRIORITY_DEFAULT;
     h_timestamp := h_timestamp h |}.

Definition file_of (root : string) (h : cache_file_header) : string :=
  root +:+ "/" +:+ cache_file_name (h_priority h) (h_timestamp h).

Lemma header_ok_long h : header_ok h -> is_long (h_timestamp h).
Proof. unfold header_ok, is_long, LONG_MIN. lia. Qed.

Lemma cache_file_name_length h : header_ok h -> strlen (cache_file_name (h_priority h) (h_timestamp h)) <= 38.
Proof.
  intros Hh. pose proof (fmt_d_long_length _ (header_ok_long _ Hh)). destruct Hh as [Hp Ht].
  pose proof (fmt_d_int_length _ Hp). unfold cache_file_name, CACHE_FILE_SUFFIX.
  destruct (0 <=? h_priority h); rewrite !strlen_app; change (strlen "-") with 1; change (strlen ".cache") with 6; lia.
Qed.

(** A directory name this short leaves room for every cache file name. *)
Definition ROOT_MAX : Z := 200.

Lemma get_cache_file_path_ok root h :
  strlen root <= ROOT_MAX -> header_ok h ->
  get_cache_file_path root (h_priority h) (h_timestamp h) = Ret (file_of root h).
Proof.
  unfold ROOT_MAX. intros Hr Hh. pose proof (cache_file_name_length h Hh). unfold get_cache_file_path, file_of.
  apply write_buf_ok. rewrite !strlen_app. change (strlen "/") with 1. unfold POSIX_PATH_MAX. lia.
Qed.

Definition base_name (h : cache_file_header) : string :=
  if 0 <=? h_priority h then fmt_d (h_timestamp h) +:+ "-" +:+ fmt_d (h_priority h) else fmt_d (h_timestamp h).

Lemma cache_file_name_eq h : cache_file_name (h_priority h) (h_timestamp h) = base_name h +:+ CACHE_FILE_SUFFIX.
Proof. unfold cache_file_name, base_name. destruct (0 <=? h_priority h); by rewrite <- ?str_app_assoc. Qed.

Lemma get_file_base_name_cache h :
  get_file_base_name (Some (cache_file_name (h_priority h) (h_timestamp h))) = base_name h.
Proof.
  rewrite cache_file_name_eq. unfold get_file_base_name, CACHE_FILE_SUFFIX.
  rewrite strlen_app. change (strlen ".cache") with 6. pose proof (strlen_nonneg (base_name h)).
  rewrite (proj2 (Z.eqb_neq _ _)) by lia. change ".cache" with (String DOT "cache").
  by rewrite strrchr_app.
Qed.

Lemma header_of_base h :
  header_ok h ->
  get_cache_file_header_from_file_base (base_name h) =
    Ret (h_priority (named_header h), h_timestamp h).
Proof.
  intros Hh. pose proof (cache_file_name_length h Hh) as Hl. rewrite cache_file_name_eq, strlen_app in Hl.
  pose proof (strlen_nonneg CACHE_FILE_SUFFIX). unfold get_cache_file_header_from_file_base.
  rewrite write_buf_ok by (unfold POSIX_PATH_MAX; lia). cbn [mbind comp_bind].
  pose proof (header_ok_long _ Hh) as Hlg. destruct Hh as [Hp Ht]. unfold base_name, named_header.
  assert (strchr (fmt_d (h_timestamp h)) CACHE_INFO_SEPARATOR = None) as Hn
    by (apply strchr_digits; [apply fmt_d_digits; lia|done]).
  cbn [h_priority]. destruct (Z.leb_spec 0 (h_priority h)).
  - change ("-" +:+ ?x) with (String CACHE_INFO_SEPARATOR x). rewrite strchr_None_app by done.
    rewrite decide_False by apply fmt_d_nonempty. rewrite atoi_fmt_d by done.
    unfold atoll. by rewrite strtol_fmt_d_all.
  - rewrite Hn. unfold atoll. by rewrite strtol_fmt_d_all.
Qed.

(** ** Evicting *)

Lemma lowest_priority_le l a : lowest_priority l a <= a.
Proof.
  revert a. induction l as [|h l IH]; intros a; cbn; [lia|].
  destruct (Z.ltb_spec (h_priority h) a); [|apply IH]. etrans; [apply IH|]. lia.
Qed.

Lemma lowest_priority_lower l a h : h ∈ l -> lowest_priority l a <= h_priority h.
Proof.
  revert a. induction l as [|h' l IH]; intros a Hin; [by apply elem_of_nil in Hin|].
  apply elem_of_cons in Hin as [->|Hin]; [|by apply IH]. cbn. etrans; [apply lowest_priority_le|].
  destruct (Z.ltb_spec (h_priority h') a); lia.
Qed.

Lemma lowest_priority_in l a : lowest_priority l a = a \/ exists h, h ∈ l /\ h_priority h = lowest_priority l a.
Proof.
  revert a. induction l as [|h l IH]; intros a; [by left|]. cbn.
  destruct (IH (if h_priority h <? a then h_priority h else a)) as [->|(h' & ? & ?)].
  - destruct (h_priority h <? a); [right; exists h; set_solver|by left].
  - right. exists h'. set_solver.
Qed.

(** The victim: the first of those with the lowest priority. *)
Definition victim (l l1 : list cache_file_header) (h : cache_file_header) (l2 : list cache_file_header) : Prop :=
  l = l1 ++ h :: l2
  /\ (forall h', h' ∈ l -> h_priority h <= h_priority h')
  /\ (forall h', h' ∈ l1 -> h_priority h < h_priority h').

Lemma victim_exists l :
  l <> [] -> Forall header_ok l ->
  exists l1 h l2, split_first (fun h => h_priority h =? lowest_priority l INT_MAX) l = Some (l1, h, l2)
    /\ victim l l1 h l2.
Proof.
  intros Hne Hl. destruct (split_first _ l) as [[[l1 h] l2]|] eqn:E.
  - exists l1, h, l2. split; [done|]. apply split_first_Some in E as (El & Hh & H1).
    apply Z.eqb_eq in Hh. split_and!; [done|intros h' Hin; rewrite Hh; by apply lowest_priority_lower|].
    intros h' Hin. rewrite Forall_forall in H1. specialize (H1 h' Hin). apply Z.eqb_neq in H1.
    assert (h' ∈ l) as Hin' by (rewrite El; apply elem_of_app; by left).
    pose proof (lowest_priority_lower l INT_MAX h' Hin'). lia.
  - exfalso. apply split_first_None in E. rewrite Forall_forall in E.
    destruct (lowest_priority_in l INT_MAX) as [Hm|(h & Hin & Hp)].
    + destruct l as [|h l]; [done|]. specialize (E h ltac:(set_solver)). apply Z.eqb_neq in E.
      pose proof (lowest_priority_lower (h :: l) INT_MAX h ltac:(set_solver)) as Hlo.
      apply Forall_cons in Hl as [[Hp _] _]. unfold is_int in Hp. lia.
    + specialize (E h Hin). apply Z.eqb_neq in E. lia.
Qed.

Lemma unlink_missing d p : file_exists d p = false -> unlink_file d p = d.
Proof.
  unfold file_exists, path_exists, unlink_file. intros Hf. apply orb_false_iff in Hf as [Hf _].
  apply bool_decide_eq_false in Hf. rewrite <- eq_None_not_Some in Hf.
  rewrite delete_id by done. by destruct d.
Qed.

(** Unlinking after the test for existence is unlinking. *)
Lemma unlink_if_exists c p :
  (if file_exists (disk c) p then with_disk c (unlink_file (disk c) p) else c) =
  with_disk c (unlink_file (disk c) p).
Proof.
  destruct (file_exists (disk c) p) eqn:E; [done|]. rewrite unlink_missing by done. by destruct c.
Qed.

Lemma remove_one_ok root c l :
  strlen root <= ROOT_MAX -> g_list c = Some l -> l <> [] -> Forall header_ok l ->
  exists l1 h l2, victim l l1 h l2
    /\ remove_one_lowest_priority_message root c =
         Ret (increase_discarded (with_list (with_disk c (unlink_file (disk c) (file_of root h))) (Some (l1 ++ l2)))).
Proof.
  intros Hr Hg Hne Hl. destruct (victim_exists l Hne Hl) as (l1 & h & l2 & E & Hv).
  exists l1, h, l2. split; [done|]. unfold remove_one_lowest_priority_message. rewrite Hg, E.
  destruct Hv as (Hl' & _). rewrite Hl' in Hl. apply Forall_app in Hl as [_ Hl]. apply Forall_cons in Hl as [Hh _].
  rewrite get_cache_file_path_ok by done. cbn [mbind comp_bind]. by rewrite unlink_if_exists.
Qed.

(** ** The queue and the directory agree

    Every queued header has its file, and no two headers share one. *)
Record cache_inv (root : string) (c : cache_state) (l : list cache_file_header) : Prop := {
  inv_list : g_list c = Some l;
  inv_ok : Forall header_ok l;
  inv_nodup : NoDup (file_of root <$> l);
  inv_files : forall h, h ∈ l -> is_Some (files (disk c) !! file_of root h)
}.

Lemma list_len_eq c l : g_list c = Some l -> list_len c = Z.of_nat (length l).
Proof. unfold list_len. by intros ->. Qed.

Lemma evict_ok fuel root c l :
  strlen root <= ROOT_MAX -> cache_inv root c l -> 1 <= g_cacheCapacity c -> (length l < fuel)%nat ->
  exists c' l', evict fuel root c = Ret c' /\ cache_inv root c' l'
    /\ g_cacheCapacity c' = g_cacheCapacity c
    /\ l' `sublist_of` l
    /\ Z.of_nat (length l') = Z.min (Z.of_nat (length l)) (g_cacheCapacity c - 1)
    /\ (forall p, p ∉ file_of root <$> l -> files (disk c') !! p = files (disk c) !! p).
Proof.
  intros Hr. revert c l. induction fuel as [|fuel IH]; intros c l Hi Hcap Hf; [lia|]. cbn [evict].
  pose proof Hi as [Hg Hok Hnd Hfi]. rewrite (list_len_eq _ _ Hg).
  destruct (Z.leb_spec (g_cacheCapacity c) (Z.of_nat (length l))) as [Hge|Hlt].
  - destruct (remove_one_ok root c l Hr Hg) as (l1 & h & l2 & (-> & _ & _) & ->);
      [intros ->; cbn in *; lia|done|]. cbn [mbind comp_bind].
    rewrite fmap_app, fmap_cons in Hnd. rewrite length_app in *. cbn [length] in *.
    apply NoDup_app in Hnd as (Hn1 & Hd & Hn2). apply NoDup_cons in Hn2 as [Hh2 Hn2].
    assert (file_of root h ∉ file_of root <$> l1) as Hh1 by (intros Hin; apply (Hd _ Hin), elem_of_cons; by left).
    edestruct (IH (increase_discarded (with_list (with_disk c (unlink_file (disk c) (file_of root h)))
                 (Some (l1 ++ l2)))) (l1 ++ l2)) as (c' & l' & -> & Hi' & Hc' & Hs & Hlen & Hfr).
    + constructor; [done| |rewrite fmap_app; apply NoDup_app; split_and!; [done| |done]|].
      * apply Forall_app in Hok as [? Hok]. apply Forall_cons in Hok as [_ ?]. by apply Forall_app.
      * intros x Hx Hx'. apply (Hd _ Hx), elem_of_cons. by right.
      * intros h' Hin. cbn. rewrite lookup_delete_ne; [apply Hfi; set_solver|].
        intros E. apply elem_of_app in Hin as [Hin|Hin]; [apply Hh1|apply Hh2]; rewrite E; by apply list_elem_of_fmap_2.
    + done.
    + rewrite length_app. lia.
    + cbn [g_cacheCapacity increase_discarded with_list with_disk] in *. exists c', l'. split_and!; try done.
      * etrans; [exact Hs|]. apply sublist_app; [done|]. by constructor.
      * rewrite Hlen, length_app. lia.
      * intros p Hp. rewrite fmap_app, fmap_cons in Hp. apply not_elem_of_app in Hp as [Hp1 Hp].
        apply not_elem_of_cons in Hp as [Hp Hp2].
        rewrite Hfr by (rewrite fmap_app; set_solver). cbn. by rewrite lookup_delete_ne.
  - exists c, l. split_and!; try done. lia.
Qed.

Lemma init_list_id root c l : cache_inv root c l -> init_list c = c.
Proof. intros [Hg _ _ _]. unfold init_list. by rewrite Hg. Qed.

Lemma can_enter_ok root c l p :
  cache_inv root c l ->
  can_message_enter_offine_queue c p =
    Ret ((Z.of_nat (length l) <? g_cacheCapacity c) || existsb (fun h => h_priority h <=? p) l).
Proof.
  intros [Hg _ _ _]. unfold can_message_enter_offine_queue. rewrite (list_len_eq _ _ Hg), Hg.
  by destruct (_ <? _).
Qed.

(** Writing the file of a new message leaves the queue in step. *)
Lemma inv_write root c l h m :
  cache_inv root c l -> file_of root h ∉ file_of root <$> l ->
  cache_inv root (with_disk c (set_file (disk c) (file_of root h) m)) l.
Proof.
  intros [Hg Hok Hnd Hfi] Hn. constructor; try done. intros h' Hin. cbn.
  rewrite lookup_insert_ne; [by apply Hfi|]. intros E. apply Hn. rewrite E. by apply list_elem_of_fmap_2.
Qed.

Lemma inv_push root c l h :
  cache_inv root c l -> header_ok h -> file_of root h ∉ file_of root <$> l ->
  is_Some (files (disk c) !! file_of root h) ->
  cache_inv root (with_list c (Some (l ++ [h]))) (l ++ [h]).
Proof.
  intros [Hg Hok Hnd Hfi] Hh Hn Hf. constructor; cbn; [done|by apply Forall_app; split; [|constructor]| |].
  - rewrite fmap_app. apply NoDup_app. split_and!; [done|set_solver|apply NoDup_singleton].
  - intros h' [Hin| ->%list_elem_of_singleton]%elem_of_app; [by apply Hfi|done].
Qed.

Lemma strlen_pos m : m <> EmptyString -> 0 < strlen m.
Proof. destruct m; [done|]. intros _. rewrite strlen_cons. pose proof (strlen_nonneg m). lia. Qed.

Section enqueue.
Variables (fuel : nat) (root : string) (c : cache_state) (l : list cache_file_header).
Variables (m : string) (prio ts : Z).
Let new := {| h_priority := prio; h_timestamp := ts |}.
Hypothesis Hroot : strlen root <= ROOT_MAX.
Hypothesis Hinv : cache_inv root c l.
Hypothesis Hnew : header_ok new.

Lemma enqueue_accept_eq :
  m <> EmptyString ->
  (Z.of_nat (length l) <? g_cacheCapacity c) || existsb (fun h => h_priority h <=? prio) l = true ->
  enqueue_offline_message fuel root WFull c (Some m) prio ts =
    let* c := evict fuel root (with_disk c (set_file (disk c) (file_of root new) m)) in
    match g_list c with
    | None => Err NullDeref
    | Some l => Ret (with_list c (Some (l ++ [new])), SUCCESS, EmptyString)
    end.
Proof using Hroot Hinv Hnew.
  intros Hm Ha. unfold enqueue_offline_message, cache_offline_message.
  rewrite (init_list_id root c l), (can_enter_ok root c l), Ha by done. unfold cache_write. cbn [mbind comp_bind negb].
  destruct Hnew as [_ Hts]. cbn [h_timestamp new] in Hts. rewrite (proj2 (Z.leb_gt _ _)) by lia.
  pose proof (strlen_pos m Hm) as Hml. assert (string_is_empty (Some m) = false) as -> by (apply Z.eqb_neq; lia).
  pose proof (get_cache_file_path_ok root new Hroot Hnew) as Hp. cbn [h_priority h_timestamp new] in Hp. rewrite Hp.
  cbn [mbind comp_bind write_file_string safe_string].
  assert (string_is_empty (Some (file_of root new)) = false) as ->.
  { unfold string_is_empty, file_of. rewrite !strlen_app. pose proof (strlen_nonneg root).
    pose proof (strlen_nonneg (cache_file_name (h_priority new) (h_timestamp new))).
    apply Z.eqb_neq. change (strlen "/") with 1. lia. }
  rewrite (proj2 (Z.ltb_ge _ _)), (proj2 (Z.eqb_neq (strlen m) 0)) by lia.
  cbn [mbind comp_bind]. unfold cache_insert. destruct (evict _ _ _) as [c'|]; [|done]. cbn [mbind comp_bind].
  by destruct (g_list c').
Qed.

Definition refused_message : string := "offline queue is full, and no message with lower or same priority exists, discard it".

(** What storing a message comes to: it is queued last, with its file, or it
    is refused and counted. *)
Lemma enqueue_total :
  1 <= g_cacheCapacity c -> m <> EmptyString -> file_of root new ∉ file_of root <$> l ->
  (length l < fuel)%nat ->
  if (Z.of_nat (length l) <? g_cacheCapacity c) || existsb (fun h => h_priority h <=? prio) l then
    exists c' l', enqueue_offline_message fuel root WFull c (Some m) prio ts = Ret (c', SUCCESS, EmptyString)
      /\ cache_inv root c' (l' ++ [new]) /\ l' `sublist_of` l
      /\ Z.of_nat (length (l' ++ [new])) = Z.min (Z.of_nat (length l) + 1) (g_cacheCapacity c)
      /\ files (disk c') !! file_of root new = Some m
  else enqueue_offline_message fuel root WFull c (Some m) prio ts = Ret (increase_discarded c, FAILURE, refused_message).
Proof using Hroot Hinv Hnew.
  intros Hcap Hm Hn Hf. destruct (_ || _) eqn:Ha.
  - rewrite enqueue_accept_eq by done.
    destruct (evict_ok fuel root _ l Hroot (inv_write root c l new m Hinv Hn)) as (c' & l' & -> & Hi & Hc & Hs & Hlen & Hfr);
      [done|done|]. cbn [mbind comp_bind]. rewrite (inv_list _ _ _ Hi).
    assert (files (disk c') !! file_of root new = Some m) as Hfile.
    { rewrite Hfr by done. cbn. apply lookup_insert_eq. }
    eexists _, l'. split; [done|]. cbn in Hlen. split_and!; [|done| |done].
    + apply inv_push; [done..| |by rewrite Hfile]. intros Hin. apply Hn.
      eapply elem_of_submseteq; [done|]. by apply sublist_submseteq, fmap_sublist.
    + rewrite length_app. cbn [length]. lia.
  - unfold enqueue_offline_message, cache_offline_message.
    rewrite (init_list_id root c l), (can_enter_ok root c l), Ha by done. reflexivity.
Qed.

(** C3: with a capacity of at least one, a stored message is written to its
    own file and queued last; the queue never exceeds the capacity, what is
    dropped for it leaves the others in order, and every queued header still
    has its file, one each.  A message that may not enter is refused and
    changes nothing but the discard counter. *)
Theorem enqueue_in_step :
  1 <= g_cacheCapacity c -> m <> EmptyString -> file_of root new ∉ file_of root <$> l ->
  (length l < fuel)%nat ->
  if (Z.of_nat (length l) <? g_cacheCapacity c) || existsb (fun h => h_priority h <=? prio) l then
    exists c' l', enqueue_offline_message fuel root WFull c (Some m) prio ts = Ret (c', SUCCESS, EmptyString)
      /\ cache_inv root c' (l' ++ [new]) /\ l' `sublist_of` l
      /\ Z.of_nat (length (l' ++ [new])) = Z.min (Z.of_nat (length l) + 1) (g_cacheCapacity c)
      /\ files (disk c') !! file_of root new = Some m
  else exists err, enqueue_offline_message fuel root WFull c (Some m) prio ts = Ret (increase_discarded c, FAILURE, err).
Proof using Hroot Hinv Hnew.
  intros Hcap Hm Hn Hf. pose proof (enqueue_total Hcap Hm Hn Hf) as H. destruct (_ || _); [exact H|by eexists].
Qed.

(** When the queue is exactly full, an accepted message takes the place
    of the oldest of the lowest-priority messages, whose file is deleted; no
    other message is touched and the discard counter goes up by one. *)
Theorem enqueue_replaces_lowest :
  1 <= g_cacheCapacity c -> m <> EmptyString -> file_of root new ∉ file_of root <$> l ->
  (1 < fuel)%nat -> Z.of_nat (length l) = g_cacheCapacity c ->
  existsb (fun h => h_priority h <=? prio) l = true ->
  exists l1 h l2 c', victim l l1 h l2 /\ h_priority h <= prio
    /\ enqueue_offline_message fuel root WFull c (Some m) prio ts = Ret (c', SUCCESS, EmptyString)
    /\ g_list c' = Some ((l1 ++ l2) ++ [new])
    /\ files (disk c') = delete (file_of root h) (<[file_of root new := m]> (files (disk c)))
    /\ offline_discarded c' = to_int (offline_discarded c + 1).
Proof using Hroot Hinv Hnew.
  intros Hcap Hm Hn Hf Hlen Hex. rewrite enqueue_accept_eq by (done || by rewrite Hex, orb_true_r).
  destruct fuel as [|[|f]]; [lia..|]. cbn [evict].
  pose proof (inv_write root c l new m Hinv Hn) as Hi'. pose proof Hi' as [Hg Hok _ _].
  rewrite (list_len_eq _ _ Hg). cbn [g_cacheCapacity with_disk]. rewrite (proj2 (Z.leb_le _ _)) by lia.
  edestruct (remove_one_ok root _ l Hroot Hg) as (l1 & h & l2 & Hv & ->); [by intros ->; cbn in *; lia|done|].
  cbn [mbind comp_bind]. erewrite (list_len_eq _ (l1 ++ l2)) by done.
  cbn [g_cacheCapacity with_disk with_list increase_discarded].
  pose proof Hv as (El & Hmin & _). rewrite (proj2 (Z.leb_gt _ _))
    by (rewrite <- Hlen, El, !length_app; cbn [length]; lia).
  cbn [mbind comp_bind g_list with_list increase_discarded]. eexists l1, h, l2, _. split; [done|].
  split; [|by split_and!].
  apply existsb_exists in Hex as (h' & Hin & Hle%Z.leb_le). apply list_elem_of_In in Hin.
  specialize (Hmin h' Hin). lia.
Qed.
End enqueue.

(** ** A capacity of zero, and writes that fail *)

Lemma evict_zero_diverges fuel root c :
  strlen root <= ROOT_MAX -> is_Some (g_list c) -> Forall header_ok (default [] (g_list c)) ->
  g_cacheCapacity c <= 0 -> evict fuel root c = Err OutOfFuel.
Proof.
  intros Hr. revert c. induction fuel as [|fuel IH]; intros c [l Hg] Hok Hcap; [done|]. rewrite Hg in Hok.
  cbn [evict]. rewrite (list_len_eq _ _ Hg), (proj2 (Z.leb_le _ _)) by lia.
  destruct (decide (l = [])) as [->|Hne].
  - unfold remove_one_lowest_priority_message. rewrite Hg. cbn. apply IH; [by eexists|by rewrite Hg|done].
  - destruct (remove_one_ok root c l Hr Hg Hne Hok) as (l1 & h & l2 & (-> & _) & ->). cbn [mbind comp_bind].
    apply IH; [by eexists| |done]. cbn in *. apply Forall_app in Hok as [? Hok].
    apply Forall_cons in Hok as [_ ?]. by apply Forall_app.
Qed.

(** With a capacity of zero or less, a message is refused as long as
    nothing of the same or a lower priority is queued; when something is (it
    was loaded from disk), storing the message empties the queue and then
    never ends. *)
Theorem enqueue_no_capacity root c l m prio ts fuel :
  strlen root <= ROOT_MAX -> cache_inv root c l ->
  header_ok {| h_priority := prio; h_timestamp := ts |} -> m <> EmptyString -> g_cacheCapacity c <= 0 ->
  if existsb (fun h => h_priority h <=? prio) l then
    enqueue_offline_message fuel root WFull c (Some m) prio ts = Err OutOfFuel
  else exists err, enqueue_offline_message fuel root WFull c (Some m) prio ts = Ret (increase_discarded c, FAILURE, err).
Proof.
  intros Hr Hi Hn Hm Hcap. destruct (existsb _ l) eqn:Hex.
  - rewrite (enqueue_accept_eq fuel root c l m prio ts Hr Hi Hn Hm) by (by rewrite Hex, orb_true_r).
    rewrite evict_zero_diverges; [done|done|..]; cbn; [|by rewrite (inv_list _ _ _ Hi); apply (inv_ok _ _ _ Hi)|done].
    rewrite (inv_list _ _ _ Hi). by eexists.
  - eexists. unfold enqueue_offline_message, cache_offline_message.
    rewrite (init_list_id root c l), (can_enter_ok root c l), Hex, (proj2 (Z.ltb_ge _ _)) by (done || lia). reflexivity.
Qed.

(** When the cache file cannot be opened for writing, the call still
    reports SUCCESS and queues the header, with no file behind it: the next
    round of the sender drops it without sending anything. *)
Theorem failed_write_loses_message parse print root c l m prio ts fuel e :
  strlen root <= ROOT_MAX -> cache_inv root c l ->
  header_ok {| h_priority := prio; h_timestamp := ts |} -> m <> EmptyString ->
  Z.of_nat (length l) < g_cacheCapacity c -> (0 < fuel)%nat ->
  let new := {| h_priority := prio; h_timestamp := ts |} in
  file_exists (disk c) (file_of root new) = false ->
  enqueue_offline_message fuel root WFail c (Some m) prio ts =
    Ret (with_list c (Some (l ++ [new])), SUCCESS, EmptyString)
  /\ (l = [] -> e_connected e = true ->
      send_round parse print root e (with_list c (Some [new])) = Ret (with_list c (Some []), true)).
Proof.
  intros Hr Hi Hn Hm Hlen Hf new Hex.
  pose proof (get_cache_file_path_ok root new Hr Hn) as Hp. cbn [h_priority h_timestamp new] in Hp. split.
  - unfold enqueue_offline_message, cache_offline_message.
    rewrite (init_list_id root c l), (can_enter_ok root c l), (proj2 (Z.ltb_lt _ _)) by done.
    unfold cache_write. cbn [mbind comp_bind negb orb]. destruct Hn as [_ Hts]. cbn [h_timestamp] in Hts.
    rewrite (proj2 (Z.leb_gt _ _)) by lia. pose proof (strlen_pos m Hm) as Hml.
    assert (string_is_empty (Some m) = false) as -> by (apply Z.eqb_neq; lia). rewrite Hp.
    cbn [mbind comp_bind write_file_string].
    assert (string_is_empty (Some (file_of root new)) = false) as ->.
    { unfold string_is_empty, file_of. rewrite !strlen_app. pose proof (strlen_nonneg root).
      pose proof (strlen_nonneg (cache_file_name (h_priority new) (h_timestamp new))).
      apply Z.eqb_neq. change (strlen "/") with 1. lia. }
    change (to_ulong (-1) <? 0) with false. change (to_ulong (-1) =? 0) with false. cbn iota.
    destruct fuel as [|f]; [lia|]. unfold cache_insert. cbn [mbind comp_bind evict].
    assert (with_disk c (disk c) = c) as -> by (by destruct c).
    rewrite (list_len_eq _ _ (inv_list _ _ _ Hi)), (proj2 (Z.leb_gt _ _)) by lia.
    cbn [mbind comp_bind]. by rewrite (inv_list _ _ _ Hi).
  - intros -> He. unfold send_round, send_pop. rewrite He. cbn [negb g_list with_list mbind comp_bind].
    unfold send_read. cbn [h_priority h_timestamp new]. rewrite Hp. cbn [mbind comp_bind]. cbn [disk with_list].
    by rewrite Hex.
Qed.

(** ** The sending loop *)
Section sending_facts.
Variable json_tokener_parse : string -> option json.
Variable json_object_to_json_string_ext : json -> string.
Variable root : string.
Hypothesis Hroot : strlen root <= ROOT_MAX.
Notation parse := (parse_mqtt_send_request_body json_tokener_parse json_object_to_json_string_ext).
Notation round := (send_round json_tokener_parse json_object_to_json_string_ext root).
Notation loop := (send_loop json_tokener_parse json_object_to_json_string_ext root).

(** The file of [h] holds a request that reads as the message [k]. *)
Definition stored (d : fs) (h : cache_file_header) (k : option string * option string * Z) : Prop :=
  exists b, files d !! file_of root h = Some b /\ b <> EmptyString
    /\ forall now last_err, exists p, parse now last_err (Some b) None content_zero = Ret p
         /\ p_rc p = SUCCESS /\ (topic (p_content p), payload (p_content p), qos (p_content p)) = k.

Lemma file_exists_Some d p b : files d !! p = Some b -> file_exists d p = true.
Proof. intros Hp. unfold file_exists, path_exists. by rewrite bool_decide_eq_true_2 by (by eexists). Qed.

Lemma send_round_eq e c h l k :
  e_connected e = true -> g_list c = Some (h :: l) -> header_ok h -> stored (disk c) h k ->
  round e c =
    let c := with_list c (Some l) in
    if e_sendRetCode e =? SUCCESS then
      let c := log_send c k in
      Ret (with_disk (increase_sent c) (unlink_file (disk c) (file_of root h)), true)
    else if list_len c <? g_cacheCapacity c then Ret (with_list c (Some (h :: l)), true)
    else Ret (c, true).
Proof using Hroot.
  intros He Hg Hh (b & Hb & Hne & Hp). unfold send_round, send_pop. rewrite He, Hg. cbn [negb mbind comp_bind].
  unfold send_read. rewrite get_cache_file_path_ok by done. cbn [mbind comp_bind]. cbn [disk with_list].
  rewrite (file_exists_Some _ _ _ Hb). unfold read_file_string. cbn [disk with_list]. rewrite Hb.
  rewrite (proj2 (Z.ltb_lt _ _)) by (by apply strlen_pos).
  destruct (Hp (e_now e) (e_last_err e)) as (p & -> & Hrc & Hk). cbn [mbind comp_bind]. rewrite Hrc.
  cbn [Z.eqb SUCCESS mbind comp_bind]. unfold send_sent. rewrite Hk.
  destruct (e_sendRetCode e =? SUCCESS); [done|]. unfold send_put_back. by destruct (_ <? _).
Qed.

(** C9: while the broker takes every message, the sender drains the queue in
    order: each message is sent exactly once, its file is deleted, the sent
    counter counts it, and the loop ends by itself after one round per
    message. *)
Theorem send_loop_drains env c l k :
  cache_inv root c l -> (forall h, h ∈ l -> stored (disk c) h (k h)) ->
  length env = length l -> Forall (fun e => e_connected e = true /\ e_sendRetCode e = SUCCESS) env ->
  0 <= offline_sent c -> offline_sent c + Z.of_nat (length l) <= INT_MAX ->
  exists c', send_loop json_tokener_parse json_object_to_json_string_ext root env c = Ret (c', true) /\ g_list c' = Some []
    /\ sent_log c' = sent_log c ++ (k <$> l)
    /\ offline_sent c' = offline_sent c + Z.of_nat (length l)
    /\ (forall h, h ∈ l -> files (disk c') !! file_of root h = None)
    /\ (forall p, p ∉ file_of root <$> l -> files (disk c') !! p = files (disk c) !! p).
Proof using Hroot.
  revert c l. induction env as [|e env IH]; intros c l Hi Hst Hlen Henv H0 Hmax.
  - destruct l; [|done]. exists c. unfold loop, offline_messages_count. rewrite (list_len_eq _ _ (inv_list _ _ _ Hi)).
    split_and!; [done|apply Hi|by rewrite app_nil_r|by rewrite Z.add_0_r| |done]. intros h Hin. by apply elem_of_nil in Hin.
  - destruct l as [|h l]; [done|]. cbn [length] in *. apply Forall_cons in Henv as [[He Hs] Henv].
    cbn [send_loop]. unfold offline_messages_count. rewrite (list_len_eq _ _ (inv_list _ _ _ Hi)).
    rewrite (proj2 (Z.leb_gt _ _)) by (cbn [length]; lia).
    pose proof (inv_list _ _ _ Hi) as Hg. pose proof (inv_ok _ _ _ Hi) as Hok. apply Forall_cons in Hok as [Hh Hok].
    pose proof (inv_nodup _ _ _ Hi) as Hnd. rewrite fmap_cons in Hnd. apply NoDup_cons in Hnd as [Hni Hnd].
    rewrite (send_round_eq e c h l (k h) He Hg Hh) by (apply Hst; set_solver).
    cbn zeta. rewrite Hs. cbn [Z.eqb SUCCESS mbind comp_bind].
    set (c1 := with_disk _ _).
    assert (forall h', h' ∈ l -> file_of root h <> file_of root h') as Hne
      by (intros h' Hin E; apply Hni; rewrite E; by apply list_elem_of_fmap_2).
    destruct (IH c1 l) as (c' & -> & Hg' & Hlog & Hcnt & Hdel & Hfr).
    + constructor; [done..|]. intros h' Hin. cbn. rewrite lookup_delete_ne by auto. apply Hi. set_solver.
    + intros h' Hin. destruct (Hst h') as (b & Hb & Hrest); [set_solver|]. exists b. split; [|done].
      cbn. by rewrite lookup_delete_ne by auto.
    + lia.
    + done.
    + cbn. rewrite to_int_id by (unfold is_int, INT_MIN; lia). lia.
    + cbn. rewrite to_int_id by (unfold is_int, INT_MIN; lia). lia.
    + exists c'. cbn in Hcnt, Hlog. rewrite to_int_id in Hcnt by (unfold is_int, INT_MIN; lia).
      split_and!; [done|done|by rewrite Hlog, <- app_assoc|lia| |].
      * intros h' [->|Hin]%elem_of_cons; [|by apply Hdel]. rewrite Hfr by done. cbn. apply lookup_delete_eq.
      * intros p Hp. rewrite fmap_cons in Hp. apply not_elem_of_cons in Hp as [Hp1 Hp2].
        rewrite Hfr by done. cbn. by rewrite lookup_delete_ne.
Qed.

(** A send that fails while the connection stays up puts the message
    back at the head: nothing is lost, reordered or counted, but the loop
    makes no progress, so as long as sends keep failing it never ends. *)
Theorem send_failure_retries e c h l k :
  cache_inv root c (h :: l) -> stored (disk c) h k -> Z.of_nat (length (h :: l)) <= g_cacheCapacity c ->
  e_connected e = true -> e_sendRetCode e <> SUCCESS ->
  send_round json_tokener_parse json_object_to_json_string_ext root e c = Ret (c, true) /\ forall n, send_loop json_tokener_parse json_object_to_json_string_ext root (replicate n e) c = Ret (c, false).
Proof using Hroot.
  intros Hi Hst Hcap He Hs. cbn [length] in Hcap.
  assert (round e c = Ret (c, true)) as Hr.
  { rewrite (send_round_eq e c h l k He (inv_list _ _ _ Hi)); [|by apply (Forall_cons_1 _ _ _ (inv_ok _ _ _ Hi))|done].
    cbn zeta. rewrite (proj2 (Z.eqb_neq _ _) Hs). erewrite list_len_eq by done. cbn [g_cacheCapacity with_list].
    rewrite (proj2 (Z.ltb_lt _ _)) by lia. pose proof (inv_list _ _ _ Hi) as Hg. by destruct c; cbn in *; subst. }
  split; [done|]. induction n as [|n IH]; cbn [send_loop replicate]; unfold offline_messages_count;
    rewrite (list_len_eq _ _ (inv_list _ _ _ Hi)), (proj2 (Z.leb_gt _ _)) by (cbn [length]; lia); [done|].
  rewrite Hr. cbn [mbind comp_bind]. exact IH.
Qed.
End sending_facts.

(** ** Threads: one sender at a time, a bounded queue *)

Lemma evict_frame fuel root c c' :
  evict fuel root c = Ret c' ->
  list_len c' < g_cacheCapacity c' /\ g_cacheCapacity c' = g_cacheCapacity c
  /\ g_isAsyncSending c' = g_isAsyncSending c.
Proof.
  revert c. induction fuel as [|fuel IH]; intros c; [done|]. cbn [evict].
  destruct (Z.leb_spec (g_cacheCapacity c) (list_len c)) as [Hle|Hlt]; [|intros [= <-]; done].
  intros (c1 & Hc1 & Hev)%comp_bind_ret. apply IH in Hev as (? & Hcap & Hs).
  assert (g_cacheCapacity c1 = g_cacheCapacity c /\ g_isAsyncSending c1 = g_isAsyncSending c) as [E1 E2].
  { clear -Hc1. unfold remove_one_lowest_priority_message in Hc1. destruct (g_list c); [|done].
    destruct (split_first _ _) as [[[l1 h] l2]|]; [|by injection Hc1 as <-].
    apply comp_bind_ret in Hc1 as (p & _ & Hc1). rewrite unlink_if_exists in Hc1. by injection Hc1 as <-. }
  split_and!; congruence.
Qed.

Lemma cache_write_frame root r c ok msg prio ts c' res :
  cache_write root r c ok msg prio ts = Ret (c', res) ->
  g_cacheCapacity c' = g_cacheCapacity c /\ g_isAsyncSending c' = g_isAsyncSending c /\ list_len c' = list_len c.
Proof.
  unfold cache_write. destruct (negb ok); [by intros [= <- _]|]. destruct (ts <=? 0); [by intros [= <- _]|].
  destruct (string_is_empty msg); [by intros [= <- _]|]. intros (p & _ & H)%comp_bind_ret.
  destruct (string_is_empty (Some p)); [by injection H as <- _|].
  destruct (write_file_string r (disk c) (safe_string msg) p) as [d n]. rewrite unlink_if_exists in H.
  destruct (n <? 0); [by injection H as <- _|]. by destruct (n =? 0); injection H as <- _.
Qed.

Lemma cache_insert_frame fuel root c prio ts c' :
  cache_insert fuel root c prio ts = Ret c' ->
  g_cacheCapacity c' = g_cacheCapacity c /\ g_isAsyncSending c' = g_isAsyncSending c
  /\ list_len c' <= g_cacheCapacity c'.
Proof.
  unfold cache_insert. intros (c1 & (Hlt & Hcap & Hs)%evict_frame & H)%comp_bind_ret.
  destruct (g_list c1) as [l|] eqn:Hg; [|done]. injection H as <-. cbn. split_and!; [done..|].
  rewrite (list_len_eq _ _ Hg) in Hlt. unfold list_len. cbn. rewrite length_app. cbn [length]. lia.
Qed.

Lemma send_pop_frame connected c c' node :
  send_pop connected c = Ret (c', node) ->
  g_cacheCapacity c' = g_cacheCapacity c /\ g_isAsyncSending c' = g_isAsyncSending c /\ list_len c' <= list_len c.
Proof.
  unfold send_pop. destruct (negb connected); [by intros [= <- _]|].
  destruct (g_list c) as [[|h l]|] eqn:Hg; [by intros [= <- _]| |done]. intros [= <- _].
  rewrite (list_len_eq _ _ Hg). unfold list_len. cbn. split_and!; [done..|lia].
Qed.

Lemma send_put_back_frame c h c' :
  send_put_back c h = Ret c' ->
  g_cacheCapacity c' = g_cacheCapacity c /\ g_isAsyncSending c' = g_isAsyncSending c
  /\ (list_len c <= g_cacheCapacity c -> list_len c' <= g_cacheCapacity c').
Proof.
  unfold send_put_back. destruct (Z.ltb_spec (list_len c) (g_cacheCapacity c)) as [Hlt|_]; [|by intros [= <-]].
  destruct (g_list c) as [l|] eqn:Hg; [|done]. intros [= <-]. cbn. split_and!; [done..|].
  rewrite (list_len_eq _ _ Hg) in Hlt. unfold list_len. cbn. lia.
Qed.

Section threads.
Variable json_tokener_parse : string -> option json.
Variable json_object_to_json_string_ext : json -> string.
Variable root : string.
Notation step := (cache_step json_tokener_parse json_object_to_json_string_ext root).
Notation sstep := (sender_step json_tokener_parse json_object_to_json_string_ext root).

Lemma send_read_frame now last_err c h c' m :
  send_read json_tokener_parse json_object_to_json_string_ext root now last_err c h = Ret (c', m) ->
  g_cacheCapacity c' = g_cacheCapacity c /\ g_isAsyncSending c' = g_isAsyncSending c /\ list_len c' = list_len c.
Proof.
  unfold send_read. intros (p & _ & H)%comp_bind_ret. destruct (file_exists _ _); [|by injection H as <- _].
  destruct (read_file_string _ _) as [b n]. destruct (0 <? n); [|by injection H as <- _].
  apply comp_bind_ret in H as (pr & _ & H). by destruct (p_rc pr =? SUCCESS); injection H as <- _.
Qed.

Lemma senders_insert (l : list sender_pc) i p q :
  l !! i = Some p ->
  (length (filter (fun x => in_loop x = true) (<[i := q]> l)) + Nat.b2n (in_loop p) =
   length (filter (fun x => in_loop x = true) l) + Nat.b2n (in_loop q))%nat.
Proof.
  intros Hi. rewrite (list_insert_alter), <- (take_drop_middle _ _ _ Hi) at 1.
  pose proof (lookup_lt_Some _ _ _ Hi) as Hlt.
  replace i with (length (take i l) + 0)%nat at 1 by (rewrite length_take; lia).
  rewrite alter_app_r. cbn. rewrite <- (take_drop_middle _ _ _ Hi) at 3.
  rewrite !filter_app, !filter_cons, !length_app.
  destruct (in_loop p), (in_loop q); repeat case_decide; cbn; try done; lia.
Qed.

(** The flag tells whether a sender is in the loop. *)
Definition senders_match (h : hub) : Prop := senders h = Nat.b2n (g_isAsyncSending (h_cache h)).

Definition within_capacity (c : cache_state) : Prop := list_len c <= g_cacheCapacity c.

Lemma storing_step_frame c t c' pc :
  storing_step root c t c' pc ->
  g_cacheCapacity c' = g_cacheCapacity c /\ g_isAsyncSending c' = g_isAsyncSending c
  /\ (within_capacity c -> within_capacity c').
Proof.
  unfold within_capacity. intros [| |ok _ _|ok r c1 res _ H|fuel c1 _ H]; try done.
  - split_and!; [done..|]. change (list_len (with_list c (Some []))) with 0. unfold list_len. cbn. lia.
  - apply cache_write_frame in H as (-> & -> & ->). done.
  - apply cache_insert_frame in H as (Hc & ? & ?). done.
Qed.

(** What one step of a sender does to the flag, the capacity and the bound. *)
Lemma sender_step_frame c p c' p' :
  sstep c p c' p' ->
  g_cacheCapacity c' = g_cacheCapacity c /\ (within_capacity c -> within_capacity c')
  /\ (g_isAsyncSending c' = g_isAsyncSending c /\ in_loop p' = in_loop p
      \/ g_isAsyncSending c = false /\ g_isAsyncSending c' = true /\ in_loop p = false /\ in_loop p' = true
      \/ g_isAsyncSending c' = false /\ in_loop p = true /\ in_loop p' = false).
Proof.
  unfold within_capacity. intros [Hf|Hf| |connected c1 node H|h now le c1 m H|h fp content rc c1 back H|h c1 H|].
  - split_and!; [done..|]. right. by left.
  - split_and!; [done..|]. by left.
  - split_and!; [done..|]. left. by destruct (0 <? _).
  - apply send_pop_frame in H as (-> & -> & ?). split_and!; [done|lia|]. left. by destruct node as [[|]|].
  - apply send_read_frame in H as (-> & -> & ->). split_and!; [done..|]. left. by destruct m as [[]|].
  - unfold send_sent in H. split_and!; [by destruct (rc =? SUCCESS); injection H as <- <-..|].
    left. by destruct (rc =? SUCCESS); injection H as <- <-.
  - apply send_put_back_frame in H as (? & ? & ?). split_and!; [done..|]. by left.
  - split_and!; [done..|]. right. by right.
Qed.

Lemma step_safe h h' :
  step h h' -> senders_match h -> within_capacity (h_cache h) ->
  senders_match h' /\ within_capacity (h_cache h') /\ g_cacheCapacity (h_cache h') = g_cacheCapacity (h_cache h).
Proof.
  unfold senders_match, senders. intros Hs Hm Hb. destruct Hs as
    [h msg prio ts|h i t c pc Hi Hs|h|h i count rc Hi Hd|h i p c p' Hi Hs]; cbn [h_cache h_senders hub_store hub_send] in *.
  - done.
  - apply storing_step_frame in Hs as (? & -> & ?). auto.
  - done.
  - split_and!; [|done..]. rewrite filter_app, length_app, filter_cons_False by done. rewrite Hm. apply Nat.add_0_r.
  - pose proof (senders_insert _ _ _ p' Hi) as E. apply sender_step_frame in Hs as (? & ? & Hs).
    split_and!; [|auto..].
    destruct Hs as [(Ef & Ep)|[(Ef & Ef' & Ep & Ep')|(Ef & Ep & Ep')]];
      rewrite ?Ef, ?Ef', ?Ep, ?Ep' in *; cbn [Nat.b2n] in *; [lia|lia|].
    destruct (g_isAsyncSending (h_cache h)); cbn [Nat.b2n] in *; lia.
Qed.

(** C8: however many threads store messages, ask for a sender and send, and
    wherever they are interrupted between their critical sections: at most
    one sender is between setting the flag and resetting it, the flag tells
    whether there is one, and a queue that starts within its capacity stays
    within it - a node taken off the queue, sent without the mutex and
    refused by the client included, for which the room may be gone when it
    is to be put back. *)
Theorem sender_exclusion_and_bound h h' :
  cache_steps json_tokener_parse json_object_to_json_string_ext root h h' -> senders_match h -> list_len (h_cache h) <= g_cacheCapacity (h_cache h) ->
  (senders h' <= 1)%nat /\ senders_match h'
  /\ g_cacheCapacity (h_cache h') = g_cacheCapacity (h_cache h)
  /\ list_len (h_cache h') <= g_cacheCapacity (h_cache h').
Proof.
  intros Hs Hm Hb. assert (senders_match h' /\ within_capacity (h_cache h')
    /\ g_cacheCapacity (h_cache h') = g_cacheCapacity (h_cache h)) as (Hm' & ? & ?).
  - induction Hs as [h|h h1 h' H1 Hs IH]; [done|]. apply step_safe in H1 as (? & ? & <-); [by apply IH|done..].
  - split_and!; try done. rewrite Hm'. by destruct (g_isAsyncSending (h_cache h')); cbn; lia.
Qed.
End threads.

(** ** Restarting: the directory gives the queue back *)

Lemma load_loop_ok root c q l n :
  g_list c = Some q -> Forall header_ok l ->
  load_loop root c (map (fun h => cache_file_name (h_priority h) (h_timestamp h)) l) n =
    Ret (with_list c (Some (q ++ map named_header l)), n + Z.of_nat (length l)).
Proof.
  revert c q n. induction l as [|h l IH]; intros c q n Hg Hl; cbn [map load_loop].
  - rewrite app_nil_r, Z.add_0_r. by destruct c; cbn in *; subst.
  - apply Forall_cons in Hl as [Hh Hl]. rewrite get_file_base_name_cache.
    assert (string_is_empty (Some (base_name h)) = false) as ->.
    { apply Z.eqb_neq. intros E. assert (base_name h = EmptyString) as Eb
        by (destruct (base_name h); [done|]; rewrite strlen_cons in E; pose proof (strlen_nonneg s); lia).
      unfold base_name in Eb. pose proof (fmt_d_nonempty (h_timestamp h)).
      destruct (0 <=? h_priority h); [|done]. by destruct (fmt_d (h_timestamp h)). }
    rewrite header_of_base by done. cbn [mbind comp_bind]. pose proof Hh as [_ Hts].
    rewrite (proj2 (Z.ltb_lt _ _)) by lia. rewrite Hg.
    change (default [] (Some q)) with q. rewrite (IH _ (q ++ [named_header h])) by done.
    rewrite <- app_assoc. cbn [app length]. f_equal. f_equal. lia.
Qed.

(** What [scandir] promises: the names in the order of the comparison. *)
Definition in_scan_order (names : list string) : Prop :=
  Sorted (fun a b => exists z, offline_cache_file_compare a b = Ret z /\ z <= 0) names.

Lemma compare_names a b :
  header_ok a -> header_ok b ->
  offline_cache_file_compare (cache_file_name (h_priority a) (h_timestamp a))
    (cache_file_name (h_priority b) (h_timestamp b)) =
    Ret (if h_timestamp a >? h_timestamp b then 1 else if h_timestamp a <? h_timestamp b then -1 else 0).
Proof.
  intros Ha Hb. unfold offline_cache_file_compare. by rewrite !get_file_base_name_cache, !header_of_base.
Qed.

Lemma sorted_names_timestamps l :
  Forall header_ok l ->
  in_scan_order (map (fun h => cache_file_name (h_priority h) (h_timestamp h)) l) ->
  Sorted (fun a b => h_timestamp a <= h_timestamp b) l.
Proof.
  unfold in_scan_order. induction l as [|a l IH]; intros Hl Hs; [constructor|]. cbn [map] in Hs.
  apply Forall_cons in Hl as [Ha Hl]. inversion_clear Hs as [|? ? Hs' Hd]. constructor; [by apply IH|].
  destruct l as [|b l]; constructor. cbn [map] in Hd. inversion_clear Hd as [|? ? Hz].
  apply Forall_cons in Hl as [Hb _]. destruct Hz as (z & Hz & Hle). rewrite compare_names in Hz by done.
  injection Hz as <-. rewrite Z.gtb_ltb in Hle. destruct (Z.ltb_spec (h_timestamp b) (h_timestamp a)); lia.
Qed.

Lemma strict_timestamps_inj (l : list cache_file_header) a b :
  StronglySorted (fun a b => h_timestamp a < h_timestamp b) l -> a ∈ l -> b ∈ l ->
  h_timestamp a = h_timestamp b -> a = b.
Proof.
  induction 1 as [|x l Hs IH Hx]; intros Ha Hb E; [by apply elem_of_nil in Ha|].
  rewrite Forall_forall in Hx.
  apply elem_of_cons in Ha as [->|Ha], Hb as [->|Hb]; [done| | |by apply IH].
  - specialize (Hx b Hb). lia.
  - specialize (Hx a Ha). lia.
Qed.

(** C10: a queue in time order survives a restart: whatever order the
    directory lists the files in before [scandir] sorts them, loading gives
    the same queue again, except that a negative priority has become the
    default one. *)
Theorem restart_restores_queue root c l namelist :
  g_list c = None -> Forall header_ok l -> StronglySorted (fun a b => h_timestamp a < h_timestamp b) l ->
  namelist ≡ₚ map (fun h => cache_file_name (h_priority h) (h_timestamp h)) l -> in_scan_order namelist ->
  load_offline_messages root c (Some namelist) =
    Ret (with_list c (Some (map named_header l)), Z.of_nat (length l)).
Proof.
  intros Hg Hl Hs Hp Hscan. apply Permutation_map_inv in Hp as (l' & -> & Hp).
  assert (Forall header_ok l') as Hl' by (by rewrite <- Hp).
  apply sorted_names_timestamps in Hscan; [|done].
  assert (Transitive (fun a b : cache_file_header => h_timestamp a <= h_timestamp b)) by (intros ???; cbn; lia).
  assert (l' = l) as ->.
  { eapply (Sorted_unique_strong (fun a b : cache_file_header => h_timestamp a <= h_timestamp b));
      [|exact Hscan|apply StronglySorted_Sorted|by rewrite Hp].
    - intros a b Ha Hb H1 H2. apply (strict_timestamps_inj l); [done|by rewrite Hp|done|lia].
    - clear -Hs. induction Hs as [|x l Hs IH Hx]; constructor; [done|]. eapply Forall_impl; [done|]. cbn. lia. }
  unfold load_offline_messages, init_list. rewrite Hg, (load_loop_ok root _ []) by done. by destruct c.
Qed.

(** ** Two queued messages on which the theorems apply *)
Definition demo_h1 : cache_file_header := {| h_priority := 8; h_timestamp := 100 |}.
Definition demo_h2 : cache_file_header := {| h_priority := 3; h_timestamp := 200 |}.
Definition demo_disk : fs :=
  {| files := <["/r/100-8.cache" := demo_text]> (<["/r/200-3.cache" := demo_text]> ∅);
     dirs := {["/r"]}; mtimes := ∅ |}.
Definition demo_cache (capacity : Z) : cache_state :=
  {| g_list := Some [demo_h1; demo_h2]; g_cacheCapacity := capacity; g_isAsyncSending := false;
     disk := demo_disk; offline_discarded := 0; offline_sent := 0; sent_log := [] |}.

Lemma demo_cache_inv capacity : cache_inv "/r" (demo_cache capacity) [demo_h1; demo_h2].
Proof.
  constructor; [done|repeat constructor; by vm_compute| |].
  - apply (bool_decide_unpack _). by vm_compute.
  - intros h [->|[->|[]%elem_of_nil]%elem_of_cons]%elem_of_cons; by vm_compute; eexists.
Qed.

Lemma demo_stored h : h ∈ [demo_h1; demo_h2] ->
  stored demo_parse demo_print "/r" demo_disk h (Some "hub/x", payload demo_content, 1).
Proof.
  intros Hin. exists demo_text. split; [|split; [by vm_compute|]].
  2: { intros now e. rewrite demo_text_reads. by eexists. }
  apply elem_of_cons in Hin as [->|[->|[]%elem_of_nil]%elem_of_cons]; by vm_compute.
Qed.

Lemma enqueue_in_step_witness :
  exists c' l', enqueue_offline_message 9 "/r" WFull (demo_cache 3) (Some "x") 1 300 = Ret (c', SUCCESS, EmptyString)
    /\ Z.of_nat (length (l' ++ [{| h_priority := 1; h_timestamp := 300 |}])) = 3.
Proof.
  destruct (enqueue_in_step 9 "/r" (demo_cache 3) [demo_h1; demo_h2] "x" 1 300 ltac:(by vm_compute)
    (demo_cache_inv 3) ltac:(by vm_compute) ltac:(by vm_compute) ltac:(done)
    ltac:(apply (bool_decide_unpack _); by vm_compute) ltac:(simpl; lia)) as (c' & l' & E & _ & _ & Hlen & _).
  by exists c', l'.
Defined.

Lemma enqueue_replaces_lowest_witness :
  exists l1 h l2 c', victim [demo_h1; demo_h2] l1 h l2
    /\ enqueue_offline_message 9 "/r" WFull (demo_cache 2) (Some "x") 5 300 = Ret (c', SUCCESS, EmptyString)
    /\ offline_discarded c' = 1.
Proof.
  destruct (enqueue_replaces_lowest 9 "/r" (demo_cache 2) [demo_h1; demo_h2] "x" 5 300 ltac:(by vm_compute)
    (demo_cache_inv 2) ltac:(by vm_compute) ltac:(by vm_compute) ltac:(done)
    ltac:(apply (bool_decide_unpack _); by vm_compute) ltac:(lia) eq_refl eq_refl)
    as (l1 & h & l2 & c' & Hv & _ & E & _ & _ & Hd). by exists l1, h, l2, c'.
Defined.

Lemma enqueue_no_capacity_witness :
  enqueue_offline_message 1000 "/r" WFull (demo_cache 0) (Some "x") 5 300 = Err OutOfFuel.
Proof.
  exact (enqueue_no_capacity "/r" (demo_cache 0) [demo_h1; demo_h2] "x" 5 300 1000 ltac:(by vm_compute)
    (demo_cache_inv 0) ltac:(by vm_compute) ltac:(done) ltac:(by vm_compute)).
Defined.

Lemma failed_write_loses_message_witness :
  enqueue_offline_message 9 "/r" WFail (demo_cache 9) (Some "x") 5 300 =
    Ret (with_list (demo_cache 9) (Some [demo_h1; demo_h2; {| h_priority := 5; h_timestamp := 300 |}]), SUCCESS, EmptyString).
Proof.
  exact (proj1 (failed_write_loses_message demo_parse demo_print "/r" (demo_cache 9) [demo_h1; demo_h2] "x" 5 300 9
    {| e_connected := true; e_sendRetCode := 0; e_now := 0; e_last_err := None |} ltac:(by vm_compute)
    (demo_cache_inv 9) ltac:(by vm_compute) ltac:(done) ltac:(by vm_compute) ltac:(lia) eq_refl)).
Defined.

Lemma send_loop_drains_witness :
  exists c', send_loop demo_parse demo_print "/r"
      (replicate 2 {| e_connected := true; e_sendRetCode := 0; e_now := 0; e_last_err := None |}) (demo_cache 9) = Ret (c', true)
    /\ g_list c' = Some [] /\ offline_sent c' = 2.
Proof.
  destruct (send_loop_drains demo_parse demo_print "/r" ltac:(by vm_compute)
    (replicate 2 {| e_connected := true; e_sendRetCode := 0; e_now := 0; e_last_err := None |}) (demo_cache 9)
    [demo_h1; demo_h2] (fun _ => (Some "hub/x", payload demo_content, 1)) (demo_cache_inv 9) demo_stored eq_refl
    ltac:(repeat constructor) ltac:(done) ltac:(by vm_compute)) as (c' & E & Hg & _ & Hn & _).
  exists c'. exact (conj E (conj Hg Hn)).
Defined.

Lemma send_failure_retries_witness :
  send_loop demo_parse demo_print "/r"
      (replicate 50 {| e_connected := true; e_sendRetCode := -1; e_now := 0; e_last_err := None |}) (demo_cache 2)
    = Ret (demo_cache 2, false).
Proof.
  exact (proj2 (send_failure_retries demo_parse demo_print "/r" ltac:(by vm_compute)
    {| e_connected := true; e_sendRetCode := -1; e_now := 0; e_last_err := None |} (demo_cache 2) demo_h1 [demo_h2]
    (Some "hub/x", payload demo_content, 1) (demo_cache_inv 2) (demo_stored demo_h1 ltac:(set_solver))
    ltac:(by vm_compute) eq_refl ltac:(done)) 50%nat).
Defined.

(** The sender holds the only node of a queue of capacity one when a storing
    thread, admitted while it was away, fills the queue: the node is dropped. *)
Definition demo_hub (c : cache_state) (pc : storing_pc) (p : sender_pc) : hub :=
  {| h_cache := c; h_storing := [{| st_pc := pc; st_msg := Some "x"; st_prio := 5; st_ts := 300 |}];
     h_asking := []; h_senders := [p] |}.

Definition demo_one : cache_state := with_sending (with_list (demo_cache 1) (Some [])) true.

Lemma sender_exclusion_and_bound_witness :
  g_list (with_list demo_one (Some [{| h_priority := 5; h_timestamp := 300 |}])) =
    Some [{| h_priority := 5; h_timestamp := 300 |}]
  /\ (senders (demo_hub (with_list demo_one (Some [{| h_priority := 5; h_timestamp := 300 |}]))
                (Stored SUCCESS EmptyString) Counting) <= 1)%nat.
Proof.
  split; [done|].
  refine (proj1 (sender_exclusion_and_bound demo_parse demo_print "/r"
    (demo_hub demo_one Queueing (PuttingBack demo_h1)) _ _ eq_refl ltac:(by vm_compute))).
  eapply rtc_l; [|apply rtc_once].
  - eapply (step_store _ _ _ (demo_hub demo_one Queueing (PuttingBack demo_h1)) 0%nat); [reflexivity|].
    eapply (store_queue _ _ _ 1%nat); reflexivity.
  - eapply (step_send _ _ _ (demo_hub (with_list demo_one (Some [{| h_priority := 5; h_timestamp := 300 |}]))
      (Stored SUCCESS EmptyString) (PuttingBack demo_h1)) 0%nat); [reflexivity|]. apply send_back. reflexivity.
Defined.

Lemma restart_restores_queue_witness :
  load_offline_messages "/r" (with_list (demo_cache 9) None) (Some ["100-8.cache"; "200-3.cache"]) =
    Ret (with_list (demo_cache 9) (Some [demo_h1; demo_h2]), 2).
Proof.
  apply (restart_restores_queue "/r" (with_list (demo_cache 9) None) [demo_h1; demo_h2]);
    [done|repeat constructor; by vm_compute|repeat constructor|by vm_compute|].
  repeat constructor. exists (-1). split; [reflexivity|lia].
Defined.
