(* ===== verification/Aes.v ===== *)
(** * AES (libtomcrypt, src/ciphers/aes/aes.c)

    The key schedule and the two directions of the block cipher, over the
    tables of AesTables.v, in the build without LTC_SMALL_CODE.  A [ulong32] is
    a [Z] below 2^32; the arrays of the key are lists of 60 words and [rk] is an
    index in them. *)

From S2P Require Import Prelude AesTables.

Local Open Scope Z_scope.

Definition CRYPT_OK : Z := 0.
Definition CRYPT_ERROR : Z := 1.
Definition CRYPT_INVALID_KEYSIZE : Z := 3.
Definition CRYPT_INVALID_ROUNDS : Z := 4.
Definition CRYPT_BUFFER_OVERFLOW : Z := 6.
Definition CRYPT_INVALID_ARG : Z := 16.

(** ** Macros *)

Definition byte (x n : Z) : Z := Z.land (Z.shiftr x (8 * n)) 255.
Definition RORc (x y : Z) : Z :=
  Z.land (Z.lor (Z.shiftr (Z.land x 0xFFFFFFFF) (Z.land y 31)) (Z.shiftl x (32 - Z.land y 31))) 0xFFFFFFFF.
(** An entry of a table or an array. *)
Definition at_ (t : list Z) (i : Z) : Z := nth (Z.to_nat i) t 0.
Definition LOAD32H (y : list Z) (i : Z) : Z :=
  Z.lor (Z.shiftl (Z.land (at_ y i) 255) 24)
    (Z.lor (Z.shiftl (Z.land (at_ y (i + 1)) 255) 16)
       (Z.lor (Z.shiftl (Z.land (at_ y (i + 2)) 255) 8) (Z.land (at_ y (i + 3)) 255))).
Definition STORE32H (x : Z) : list Z :=
  [Z.land (Z.shiftr x 24) 255; Z.land (Z.shiftr x 16) 255; Z.land (Z.shiftr x 8) 255; Z.land x 255].

(** ** The key *)

Record rijndael_key := { eK : list Z; dK : list Z; Nr : Z }.

(** [rk[i] = v] *)
Definition put (k : list Z) (i v : Z) : list Z := <[Z.to_nat i := v]> k.

Definition setup_mix (temp : Z) : Z :=
  Z.lxor (Z.lxor (Z.lxor (at_ Te4_3 (byte temp 2)) (at_ Te4_2 (byte temp 1))) (at_ Te4_1 (byte temp 0)))
    (at_ Te4_0 (byte temp 3)).

(** The loops of SETUP for the three key sizes; [n] bounds the iterations. *)
Fixpoint expand16 (n : nat) (i rk : Z) (k : list Z) : list Z :=
  match n with
  | O => k
  | S n =>
      let temp := at_ k (rk + 3) in
      let k := put k (rk + 4) (Z.lxor (Z.lxor (at_ k rk) (setup_mix temp)) (at_ rcon i)) in
      let k := put k (rk + 5) (Z.lxor (at_ k (rk + 1)) (at_ k (rk + 4))) in
      let k := put k (rk + 6) (Z.lxor (at_ k (rk + 2)) (at_ k (rk + 5))) in
      let k := put k (rk + 7) (Z.lxor (at_ k (rk + 3)) (at_ k (rk + 6))) in
      if i + 1 =? 10 then k else expand16 n (i + 1) (rk + 4) k
  end.

Fixpoint expand24 (n : nat) (i rk : Z) (k : list Z) : list Z :=
  match n with
  | O => k
  | S n =>
      let temp := at_ k (rk + 5) in
      let k := put k (rk + 6) (Z.lxor (Z.lxor (at_ k rk) (setup_mix temp)) (at_ rcon i)) in
      let k := put k (rk + 7) (Z.lxor (at_ k (rk + 1)) (at_ k (rk + 6))) in
      let k := put k (rk + 8) (Z.lxor (at_ k (rk + 2)) (at_ k (rk + 7))) in
      let k := put k (rk + 9) (Z.lxor (at_ k (rk + 3)) (at_ k (rk + 8))) in
      if i + 1 =? 8 then k
      else
        let k := put k (rk + 10) (Z.lxor (at_ k (rk + 4)) (at_ k (rk + 9))) in
        let k := put k (rk + 11) (Z.lxor (at_ k (rk + 5)) (at_ k (rk + 10))) in
        expand24 n (i + 1) (rk + 6) k
  end.

Fixpoint expand32 (n : nat) (i rk : Z) (k : list Z) : list Z :=
  match n with
  | O => k
  | S n =>
      let temp := at_ k (rk + 7) in
      let k := put k (rk + 8) (Z.lxor (Z.lxor (at_ k rk) (setup_mix temp)) (at_ rcon i)) in
      let k := put k (rk + 9) (Z.lxor (at_ k (rk + 1)) (at_ k (rk + 8))) in
      let k := put k (rk + 10) (Z.lxor (at_ k (rk + 2)) (at_ k (rk + 9))) in
      let k := put k (rk + 11) (Z.lxor (at_ k (rk + 3)) (at_ k (rk + 10))) in
      if i + 1 =? 7 then k
      else
        let temp := at_ k (rk + 11) in
        let k := put k (rk + 12) (Z.lxor (at_ k (rk + 4)) (setup_mix (RORc temp 8))) in
        let k := put k (rk + 13) (Z.lxor (at_ k (rk + 5)) (at_ k (rk + 12))) in
        let k := put k (rk + 14) (Z.lxor (at_ k (rk + 6)) (at_ k (rk + 13))) in
        let k := put k (rk + 15) (Z.lxor (at_ k (rk + 7)) (at_ k (rk + 14))) in
        expand32 n (i + 1) (rk + 8) k
  end.

(** [rk[i] = LOAD32H(key + 4 i)] for [i] up to [n]. *)
Definition load_key (key k : list Z) (n : nat) : list Z :=
  fold_left (fun k i => put k (Z.of_nat i) (LOAD32H key (4 * Z.of_nat i))) (seq 0 n) k.

(** A word of the inverse key. *)
Definition inverse_word (temp : Z) : Z :=
  Z.lxor (Z.lxor (Z.lxor (at_ Tks0 (byte temp 3)) (at_ Tks1 (byte temp 2))) (at_ Tks2 (byte temp 1)))
    (at_ Tks3 (byte temp 0)).

(** Four words, each through [f]. *)
Definition copy4 (f : Z -> Z) (ek : list Z) (rrk : Z) (dk : list Z) (rk : Z) : list Z :=
  put (put (put (put dk rk (f (at_ ek rrk))) (rk + 1) (f (at_ ek (rrk + 1)))) (rk + 2) (f (at_ ek (rrk + 2))))
    (rk + 3) (f (at_ ek (rrk + 3))).

Fixpoint inverse_keys (n : nat) (ek : list Z) (rrk : Z) (dk : list Z) (rk : Z) : list Z * Z * Z :=
  match n with
  | O => (dk, rrk, rk)
  | S n => inverse_keys n ek (rrk - 4) (copy4 inverse_word ek (rrk - 4) dk (rk + 4)) (rk + 4)
  end.

(** [skey] holds what was in the key before. *)
Definition SETUP (key : list Z) (keylen num_rounds : Z) (skey : rijndael_key) : Z * rijndael_key :=
  if negb (keylen =? 16) && negb (keylen =? 24) && negb (keylen =? 32) then (CRYPT_INVALID_KEYSIZE, skey)
  else if negb (num_rounds =? 0) && negb (num_rounds =? 10 + (keylen / 8 - 2) * 2) then (CRYPT_INVALID_ROUNDS, skey)
  else
    let nr := 10 + (keylen / 8 - 2) * 2 in
    let k := load_key key (eK skey) 4 in
    let (j, ek) :=
      if keylen =? 16 then (44, expand16 10 0 0 k)
      else if keylen =? 24 then (52, expand24 8 0 0 (load_key key (eK skey) 6))
      else (60, expand32 7 0 0 (load_key key (eK skey) 8)) in
    let dk := copy4 (fun x => x) ek (j - 4) (dK skey) 0 in
    let '(dk, rrk, rk) := inverse_keys (Z.to_nat (nr - 1)) ek (j - 4) dk 0 in
    let dk := copy4 (fun x => x) ek (rrk - 4) dk (rk + 4) in
    (CRYPT_OK, {| eK := ek; dK := dk; Nr := nr |}).

(** ** The cipher *)

Definition state : Type := Z * Z * Z * Z.

(** The sum of four table entries and a word of the key. *)
Definition lookup4 (T0 T1 T2 T3 : list Z) (a b c d k : Z) : Z :=
  Z.lxor (Z.lxor (Z.lxor (Z.lxor (at_ T0 (byte a 3)) (at_ T1 (byte b 2))) (at_ T2 (byte c 1))) (at_ T3 (byte d 0))) k.

Definition add_key (s : state) (k : list Z) (rk : Z) : state :=
  let '(s0, s1, s2, s3) := s in
  (Z.lxor s0 (at_ k rk), Z.lxor s1 (at_ k (rk + 1)), Z.lxor s2 (at_ k (rk + 2)), Z.lxor s3 (at_ k (rk + 3))).
Definition load_block (b : list Z) : state := (LOAD32H b 0, LOAD32H b 4, LOAD32H b 8, LOAD32H b 12).
Definition store_block (s : state) : list Z :=
  let '(s0, s1, s2, s3) := s in STORE32H s0 ++ STORE32H s1 ++ STORE32H s2 ++ STORE32H s3.

Definition enc_round (k : list Z) (rk : Z) (s : state) : state :=
  let '(s0, s1, s2, s3) := s in
  (lookup4 TE0 TE1 TE2 TE3 s0 s1 s2 s3 (at_ k rk), lookup4 TE0 TE1 TE2 TE3 s1 s2 s3 s0 (at_ k (rk + 1)),
   lookup4 TE0 TE1 TE2 TE3 s2 s3 s0 s1 (at_ k (rk + 2)), lookup4 TE0 TE1 TE2 TE3 s3 s0 s1 s2 (at_ k (rk + 3))).
Definition enc_last (k : list Z) (rk : Z) (s : state) : state :=
  let '(s0, s1, s2, s3) := s in
  (lookup4 Te4_3 Te4_2 Te4_1 Te4_0 s0 s1 s2 s3 (at_ k rk), lookup4 Te4_3 Te4_2 Te4_1 Te4_0 s1 s2 s3 s0 (at_ k (rk + 1)),
   lookup4 Te4_3 Te4_2 Te4_1 Te4_0 s2 s3 s0 s1 (at_ k (rk + 2)), lookup4 Te4_3 Te4_2 Te4_1 Te4_0 s3 s0 s1 s2 (at_ k (rk + 3))).

(** The loop over two rounds at a time; [r] is half the number of rounds. *)
Fixpoint enc_loop (r : nat) (k : list Z) (rk : Z) (s : state) : state * Z :=
  match r with
  | O => (s, rk)
  | S r =>
      let t := enc_round k (rk + 4) s in
      let rk := rk + 8 in
      match r with
      | O => (t, rk)
      | S _ => enc_loop r k rk (enc_round k rk t)
      end
  end.

Definition ECB_ENC (pt : list Z) (skey : rijndael_key) : list Z :=
  let s := add_key (load_block pt) (eK skey) 0 in
  let (t, rk) := enc_loop (Z.to_nat (Z.shiftr (Nr skey) 1)) (eK skey) 0 s in
  store_block (enc_last (eK skey) rk t).

Definition dec_round (k : list Z) (rk : Z) (s : state) : state :=
  let '(s0, s1, s2, s3) := s in
  (lookup4 TD0 TD1 TD2 TD3 s0 s3 s2 s1 (at_ k rk), lookup4 TD0 TD1 TD2 TD3 s1 s0 s3 s2 (at_ k (rk + 1)),
   lookup4 TD0 TD1 TD2 TD3 s2 s1 s0 s3 (at_ k (rk + 2)), lookup4 TD0 TD1 TD2 TD3 s3 s2 s1 s0 (at_ k (rk + 3))).

(** Four masked entries of [Td4] and a word of the key. *)
Definition last4 (a b c d k : Z) : Z :=
  Z.lxor (Z.lxor (Z.lxor (Z.lxor (Z.land (at_ Td4 (byte a 3)) 0xff000000) (Z.land (at_ Td4 (byte b 2)) 0x00ff0000))
                    (Z.land (at_ Td4 (byte c 1)) 0x0000ff00))
            (Z.land (at_ Td4 (byte d 0)) 0x000000ff)) k.
Definition dec_last (k : list Z) (rk : Z) (s : state) : state :=
  let '(s0, s1, s2, s3) := s in
  (last4 s0 s3 s2 s1 (at_ k rk), last4 s1 s0 s3 s2 (at_ k (rk + 1)),
   last4 s2 s1 s0 s3 (at_ k (rk + 2)), last4 s3 s2 s1 s0 (at_ k (rk + 3))).

Fixpoint dec_loop (r : nat) (k : list Z) (rk : Z) (s : state) : state * Z :=
  match r with
  | O => (s, rk)
  | S r =>
      let t := dec_round k (rk + 4) s in
      let rk := rk + 8 in
      match r with
      | O => (t, rk)
      | S _ => dec_loop r k rk (dec_round k rk t)
      end
  end.

Definition ECB_DEC (ct : list Z) (skey : rijndael_key) : list Z :=
  let s := add_key (load_block ct) (dK skey) 0 in
  let (t, rk) := dec_loop (Z.to_nat (Z.shiftr (Nr skey) 1)) (dK skey) 0 s in
  store_block (dec_last (dK skey) rk t).

(** The result and the size kept. *)
Definition ECB_KS (keysize : Z) : Z * Z :=
  if keysize <? 16 then (CRYPT_INVALID_KEYSIZE, keysize)
  else if keysize <? 24 then (CRYPT_OK, 16)
  else if keysize <? 32 then (CRYPT_OK, 24)
  else (CRYPT_OK, 32).
