(* ===== verification/AesInverse.v ===== *)
(** * AES: decryption inverts encryption

    The tables of AesTables.v are the products of the S-boxes with the columns
    of two matrices over GF(2^8) that are inverse to each other; from that, a
    round of decryption undoes a round of encryption, and ECB_DEC undoes
    ECB_ENC under every key that SETUP accepts. *)

From S2P Require Import Prelude AesTables Aes.

Local Open Scope Z_scope.

(** ** Words of four bytes *)

(** Sums of words, up to associativity and commutativity. *)
Ltac xor_ac :=
  apply Z.bits_inj'; intros ? _; rewrite ?Z.lxor_spec, ?Z.bits_0;
  repeat match goal with |- context [Z.testbit ?a ?b] => destruct (Z.testbit a b) end; reflexivity.

Definition is_word (w : Z) : Prop := 0 <= w < 2 ^ 32.

Definition word (a b c d : Z) : Z := Z.lxor (Z.shiftl a 24) (Z.lxor (Z.shiftl b 16) (Z.lxor (Z.shiftl c 8) d)).

Lemma word_xor a b c d a' b' c' d' :
  Z.lxor (word a b c d) (word a' b' c' d') = word (Z.lxor a a') (Z.lxor b b') (Z.lxor c c') (Z.lxor d d').
Proof. unfold word. rewrite !Z.shiftl_lxor. xor_ac. Qed.

Lemma below_high n x i : 0 <= n -> 0 <= x < 2 ^ n -> n <= i -> Z.testbit x i = false.
Proof. intros Hn Hx Hi. rewrite <- (Z.mod_small x (2 ^ n)) by done. by apply Z.mod_pow2_bits_high. Qed.
Lemma byte_high b i : is_byte b -> 8 <= i -> Z.testbit b i = false.
Proof. intros Hb. by apply (below_high 8). Qed.

Lemma byte_spec x n i : 0 <= n -> 0 <= i -> Z.testbit (byte x n) i = (i <? 8) && Z.testbit x (i + 8 * n).
Proof.
  intros Hn Hi. unfold byte. rewrite Z.land_spec, Z.shiftr_spec by done. change 255 with (Z.ones 8).
  destruct (Z.ltb_spec i 8); [rewrite Z.ones_spec_low by lia|rewrite Z.ones_spec_high by lia]; by destruct (Z.testbit _ _).
Qed.
Lemma word_spec a b c d i :
  0 <= i -> Z.testbit (word a b c d) i =
    xorb (Z.testbit a (i - 24)) (xorb (Z.testbit b (i - 16)) (xorb (Z.testbit c (i - 8)) (Z.testbit d i))).
Proof. intros Hi. unfold word. by rewrite !Z.lxor_spec, !Z.shiftl_spec. Qed.

Lemma byte_range x n : is_byte (byte x n).
Proof.
  unfold is_byte, byte. change 255 with (Z.ones 8). rewrite Z.land_ones by lia. apply Z.mod_pos_bound. lia.
Qed.

(** Bits of bytes outside their place are zero. *)
Ltac bits_out :=
  repeat match goal with
  | H : is_byte ?a |- context [Z.testbit ?a ?i] =>
      first [rewrite (byte_high a i H) by lia | rewrite (Z.testbit_neg_r a i) by lia]
  end.

Section bytes_of.
Context (a b c d : Z) (Ha : is_byte a) (Hb : is_byte b) (Hc : is_byte c) (Hd : is_byte d).

Lemma byte_word3 : byte (word a b c d) 3 = a.
Proof using All.
  apply Z.bits_inj'; intros i Hi. rewrite byte_spec, word_spec by lia. destruct (Z.ltb_spec i 8); cbn [andb]; bits_out; [|done].
  replace (i + 8 * 3 - 24) with i by lia. by destruct (Z.testbit a i).
Qed.
Lemma byte_word2 : byte (word a b c d) 2 = b.
Proof using All.
  apply Z.bits_inj'; intros i Hi. rewrite byte_spec, word_spec by lia. destruct (Z.ltb_spec i 8); cbn [andb]; bits_out; [|done].
  replace (i + 8 * 2 - 16) with i by lia. by destruct (Z.testbit b i).
Qed.
Lemma byte_word1 : byte (word a b c d) 1 = c.
Proof using All.
  apply Z.bits_inj'; intros i Hi. rewrite byte_spec, word_spec by lia. destruct (Z.ltb_spec i 8); cbn [andb]; bits_out; [|done].
  replace (i + 8 * 1 - 8) with i by lia. by destruct (Z.testbit c i).
Qed.
Lemma byte_word0 : byte (word a b c d) 0 = d.
Proof using All.
  apply Z.bits_inj'; intros i Hi. rewrite byte_spec, word_spec by lia. destruct (Z.ltb_spec i 8); cbn [andb]; bits_out; [|done].
  replace (i + 8 * 0) with i by lia. by destruct (Z.testbit d i).
Qed.
End bytes_of.

Lemma word_bytes w : is_word w -> word (byte w 3) (byte w 2) (byte w 1) (byte w 0) = w.
Proof.
  intros Hw. apply Z.bits_inj'; intros i Hi. rewrite word_spec by done.
  assert (forall n, 0 <= n -> 0 <= i - 8 * n -> Z.testbit (byte w n) (i - 8 * n) = (i - 8 * n <? 8) && Z.testbit w i) as Hin.
  { intros n Hn Hi'. rewrite byte_spec by lia. by replace (i - 8 * n + 8 * n) with i by lia. }
  assert (forall n, i - 8 * n < 0 -> Z.testbit (byte w n) (i - 8 * n) = false) as Hneg by (intros; by apply Z.testbit_neg_r).
  pose proof (Hin 0) as H0. rewrite Z.mul_0_r, Z.sub_0_r in H0. rewrite H0 by lia.
  pose proof (Hin 1) as H1. pose proof (Hin 2) as H2. pose proof (Hin 3) as H3.
  pose proof (Hneg 1) as N1. pose proof (Hneg 2) as N2. pose proof (Hneg 3) as N3. 
  change (8 * 1) with 8 in *. change (8 * 2) with 16 in *. change (8 * 3) with 24 in *.
  destruct (Z_lt_ge_dec i 8); [rewrite N1, N2, N3, (proj2 (Z.ltb_lt i 8)) by lia; by destruct (Z.testbit w i)|].
  rewrite (proj2 (Z.ltb_ge i 8)), H1 by lia.
  destruct (Z_lt_ge_dec i 16); [rewrite N2, N3, (proj2 (Z.ltb_lt (i - 8) 8)) by lia; by destruct (Z.testbit w i)|].
  rewrite (proj2 (Z.ltb_ge (i - 8) 8)), H2 by lia.
  destruct (Z_lt_ge_dec i 24); [rewrite N3, (proj2 (Z.ltb_lt (i - 16) 8)) by lia; by destruct (Z.testbit w i)|].
  rewrite (proj2 (Z.ltb_ge (i - 16) 8)), H3 by lia.
  destruct (Z_lt_ge_dec i 32); [rewrite (proj2 (Z.ltb_lt (i - 24) 8)) by lia; by destruct (Z.testbit w i)|].
  rewrite (proj2 (Z.ltb_ge (i - 24) 8)) by lia. by rewrite (below_high 32 w i) by (exact Hw || lia).
Qed.

Lemma byte_xor x y n : byte (Z.lxor x y) n = Z.lxor (byte x n) (byte y n).
Proof.
  unfold byte. rewrite Z.shiftr_lxor. apply Z.bits_inj'; intros i _. rewrite !Z.land_spec, !Z.lxor_spec, !Z.land_spec.
  destruct (Z.testbit _ i), (Z.testbit _ i), (Z.testbit _ i); reflexivity.
Qed.

(** ** Arithmetic in GF(2^8) *)

Definition xtime (b : Z) : Z := Z.lxor (Z.shiftl b 1) (if Z.testbit b 7 then 0x11b else 0).
Definition x4 (b : Z) : Z := xtime (xtime b).
Definition x8 (b : Z) : Z := xtime (x4 b).
Definition mul3 (b : Z) : Z := Z.lxor (xtime b) b.
Definition mul9 (b : Z) : Z := Z.lxor (x8 b) b.
Definition mul11 (b : Z) : Z := Z.lxor (x8 b) (mul3 b).
Definition mul13 (b : Z) : Z := Z.lxor (x8 b) (Z.lxor (x4 b) b).
Definition mul14 (b : Z) : Z := Z.lxor (x8 b) (Z.lxor (x4 b) (xtime b)).

Definition linear (f : Z -> Z) : Prop := forall a b, f (Z.lxor a b) = Z.lxor (f a) (f b).

Lemma linear_xor f g : linear f -> linear g -> linear (fun b => Z.lxor (f b) (g b)).
Proof. intros Hf Hg a b. rewrite Hf, Hg. xor_ac. Qed.
Lemma linear_id : linear (fun b => b).
Proof. done. Qed.
Lemma linear_xtime : linear xtime.
Proof. intros a b. unfold xtime. rewrite Z.shiftl_lxor, Z.lxor_spec. destruct (Z.testbit a 7), (Z.testbit b 7); cbn [xorb]; xor_ac. Qed.
Lemma linear_comp f g : linear f -> linear g -> linear (fun b => f (g b)).
Proof. intros Hf Hg a b. by rewrite Hg, Hf. Qed.
Lemma linear_x4 : linear x4.
Proof. exact (linear_comp _ _ linear_xtime linear_xtime). Qed.
Lemma linear_x8 : linear x8.
Proof. exact (linear_comp _ _ linear_xtime linear_x4). Qed.
Lemma linear_mul3 : linear mul3.
Proof. exact (linear_xor _ _ linear_xtime linear_id). Qed.

(** The columns of the matrix of MixColumns and of its inverse. *)
Definition c0 (y : Z) : Z := word (xtime y) y y (mul3 y).
Definition c1 (y : Z) : Z := word (mul3 y) (xtime y) y y.
Definition c2 (y : Z) : Z := word y (mul3 y) (xtime y) y.
Definition c3 (y : Z) : Z := word y y (mul3 y) (xtime y).
Definition d0 (y : Z) : Z := word (mul14 y) (mul9 y) (mul13 y) (mul11 y).
Definition d1 (y : Z) : Z := word (mul11 y) (mul14 y) (mul9 y) (mul13 y).
Definition d2 (y : Z) : Z := word (mul13 y) (mul11 y) (mul14 y) (mul9 y).
Definition d3 (y : Z) : Z := word (mul9 y) (mul13 y) (mul11 y) (mul14 y).

Lemma linear_word f g h k : linear f -> linear g -> linear h -> linear k -> linear (fun y => word (f y) (g y) (h y) (k y)).
Proof. intros Hf Hg Hh Hk a b. by rewrite word_xor, Hf, Hg, Hh, Hk. Qed.
Create HintDb linear.
#[export] Hint Resolve linear_word linear_xor linear_id linear_xtime linear_x4 linear_x8 linear_mul3 : linear.
Lemma linear_d0 : linear d0.
Proof. unfold d0, mul14, mul9, mul13, mul11. auto 10 with linear. Qed.
Lemma linear_d1 : linear d1.
Proof. unfold d1, mul14, mul9, mul13, mul11. auto 10 with linear. Qed.
Lemma linear_d2 : linear d2.
Proof. unfold d2, mul14, mul9, mul13, mul11. auto 10 with linear. Qed.
Lemma linear_d3 : linear d3.
Proof. unfold d3, mul14, mul9, mul13, mul11. auto 10 with linear. Qed.

Definition mix (w : Z) : Z := Z.lxor (Z.lxor (Z.lxor (c0 (byte w 3)) (c1 (byte w 2))) (c2 (byte w 1))) (c3 (byte w 0)).
Definition unmix (w : Z) : Z := Z.lxor (Z.lxor (Z.lxor (d0 (byte w 3)) (d1 (byte w 2))) (d2 (byte w 1))) (d3 (byte w 0)).

Lemma linear_unmix : linear unmix.
Proof. intros a b. unfold unmix. rewrite !byte_xor, linear_d0, linear_d1, linear_d2, linear_d3. xor_ac. Qed.

(** A property of all bytes is decided. *)
Definition bytes : list Z := map Z.of_nat (seq 0 256).

Lemma in_bytes b : is_byte b -> In b bytes.
Proof. intros Hb. apply in_map_iff. exists (Z.to_nat b). unfold is_byte in Hb. split; [lia|apply in_seq; lia]. Qed.
Lemma all_bytes (p : Z -> bool) b : forallb p bytes = true -> is_byte b -> p b = true.
Proof. intros Hp Hb. by apply (proj1 (forallb_forall p bytes) Hp), in_bytes. Qed.
Lemma at_map f i : is_byte i -> at_ (map f bytes) i = f i.
Proof.
  intros Hi. unfold at_, is_byte in *. rewrite (nth_indep _ 0 (f 0)) by (rewrite length_map; cbn; lia). rewrite map_nth. f_equal.
  change (nth (Z.to_nat i) (map Z.of_nat (seq 0 256)) (Z.of_nat 0) = i). rewrite map_nth, seq_nth by lia. lia.
Qed.

Lemma unmix_column : forallb (fun y => (unmix (c0 y) =? word y 0 0 0) && (unmix (c1 y) =? word 0 y 0 0) &&
  (unmix (c2 y) =? word 0 0 y 0) && (unmix (c3 y) =? word 0 0 0 y)) bytes = true.
Proof. vm_compute. reflexivity. Qed.

Lemma unmix_mix w : is_word w -> unmix (mix w) = w.
Proof.
  intros Hw. rewrite <- (word_bytes w Hw) at 2. unfold mix. rewrite !linear_unmix.
  assert (forall y, is_byte y -> unmix (c0 y) = word y 0 0 0 /\ unmix (c1 y) = word 0 y 0 0 /\ unmix (c2 y) = word 0 0 y 0 /\
    unmix (c3 y) = word 0 0 0 y) as Hc.
  { intros y Hy. pose proof (all_bytes _ _ unmix_column Hy) as H. cbn beta in H. rewrite !andb_true_iff, !Z.eqb_eq in H. tauto. }
  rewrite (proj1 (Hc _ (byte_range w 3))), (proj1 (proj2 (Hc _ (byte_range w 2)))), (proj1 (proj2 (proj2 (Hc _ (byte_range w 1))))),
    (proj2 (proj2 (proj2 (Hc _ (byte_range w 0))))).
  rewrite !word_xor. rewrite ?Z.lxor_0_l, ?Z.lxor_0_r. done.
Qed.

(** ** The tables *)

Definition sbox (x : Z) : Z := byte (at_ Te4 x) 0.
Definition invsbox (x : Z) : Z := byte (at_ Td4 x) 0.

Lemma TE0_eq : TE0 = map (fun x => c0 (sbox x)) bytes.
Proof. vm_compute. reflexivity. Qed.
Lemma TE1_eq : TE1 = map (fun x => c1 (sbox x)) bytes.
Proof. vm_compute. reflexivity. Qed.
Lemma TE2_eq : TE2 = map (fun x => c2 (sbox x)) bytes.
Proof. vm_compute. reflexivity. Qed.
Lemma TE3_eq : TE3 = map (fun x => c3 (sbox x)) bytes.
Proof. vm_compute. reflexivity. Qed.
Lemma Te4_3_eq : Te4_3 = map (fun x => word (sbox x) 0 0 0) bytes.
Proof. vm_compute. reflexivity. Qed.
Lemma Te4_2_eq : Te4_2 = map (fun x => word 0 (sbox x) 0 0) bytes.
Proof. vm_compute. reflexivity. Qed.
Lemma Te4_1_eq : Te4_1 = map (fun x => word 0 0 (sbox x) 0) bytes.
Proof. vm_compute. reflexivity. Qed.
Lemma Te4_0_eq : Te4_0 = map (fun x => word 0 0 0 (sbox x)) bytes.
Proof. vm_compute. reflexivity. Qed.
Lemma TD0_eq : TD0 = map (fun x => d0 (invsbox x)) bytes.
Proof. vm_compute. reflexivity. Qed.
Lemma TD1_eq : TD1 = map (fun x => d1 (invsbox x)) bytes.
Proof. vm_compute. reflexivity. Qed.
Lemma TD2_eq : TD2 = map (fun x => d2 (invsbox x)) bytes.
Proof. vm_compute. reflexivity. Qed.
Lemma TD3_eq : TD3 = map (fun x => d3 (invsbox x)) bytes.
Proof. vm_compute. reflexivity. Qed.
Lemma Tks0_eq : Tks0 = map d0 bytes.
Proof. vm_compute. reflexivity. Qed.
Lemma Tks1_eq : Tks1 = map d1 bytes.
Proof. vm_compute. reflexivity. Qed.
Lemma Tks2_eq : Tks2 = map d2 bytes.
Proof. vm_compute. reflexivity. Qed.
Lemma Tks3_eq : Tks3 = map d3 bytes.
Proof. vm_compute. reflexivity. Qed.
Lemma Td4_eq : Td4 = map (fun x => word (invsbox x) (invsbox x) (invsbox x) (invsbox x)) bytes.
Proof. vm_compute. reflexivity. Qed.

Lemma sbox_inverse : forallb (fun x => invsbox (sbox x) =? x) bytes = true.
Proof. vm_compute. reflexivity. Qed.
Lemma invsbox_sbox x : is_byte x -> invsbox (sbox x) = x.
Proof. intros Hx. by apply Z.eqb_eq, (all_bytes (fun x => invsbox (sbox x) =? x) x sbox_inverse). Qed.
Lemma sbox_byte x : is_byte (sbox x).
Proof. apply byte_range. Qed.
Lemma invsbox_byte x : is_byte (invsbox x).
Proof. apply byte_range. Qed.

(** *** Lookups *)

(** SubBytes and ShiftRows give one word of four. *)
Definition sub4 (a b c d : Z) : Z := word (sbox (byte a 3)) (sbox (byte b 2)) (sbox (byte c 1)) (sbox (byte d 0)).
Definition unsub4 (a b c d : Z) : Z := word (invsbox (byte a 3)) (invsbox (byte b 2)) (invsbox (byte c 1)) (invsbox (byte d 0)).

Lemma lookup_enc a b c d k : lookup4 TE0 TE1 TE2 TE3 a b c d k = Z.lxor (mix (sub4 a b c d)) k.
Proof.
  unfold lookup4, mix, sub4. rewrite TE0_eq, TE1_eq, TE2_eq, TE3_eq, !at_map by apply byte_range.
  by rewrite byte_word3, byte_word2, byte_word1, byte_word0 by apply sbox_byte.
Qed.
Lemma lookup_enc_last a b c d k : lookup4 Te4_3 Te4_2 Te4_1 Te4_0 a b c d k = Z.lxor (sub4 a b c d) k.
Proof.
  unfold lookup4, sub4. rewrite Te4_3_eq, Te4_2_eq, Te4_1_eq, Te4_0_eq, !at_map by apply byte_range.
  by rewrite !word_xor, ?Z.lxor_0_l, ?Z.lxor_0_r.
Qed.
Lemma lookup_dec a b c d k : lookup4 TD0 TD1 TD2 TD3 a b c d k = Z.lxor (unmix (unsub4 a b c d)) k.
Proof.
  unfold lookup4, unmix, unsub4. rewrite TD0_eq, TD1_eq, TD2_eq, TD3_eq, !at_map by apply byte_range.
  by rewrite byte_word3, byte_word2, byte_word1, byte_word0 by apply invsbox_byte.
Qed.

Lemma masks : forallb (fun y => (Z.land (word y y y y) 0xff000000 =? word y 0 0 0) && (Z.land (word y y y y) 0x00ff0000 =? word 0 y 0 0) &&
  (Z.land (word y y y y) 0x0000ff00 =? word 0 0 y 0) && (Z.land (word y y y y) 0x000000ff =? word 0 0 0 y)) bytes = true.
Proof. vm_compute. reflexivity. Qed.

Lemma lookup_dec_last a b c d k : last4 a b c d k = Z.lxor (unsub4 a b c d) k.
Proof.
  unfold last4, unsub4. rewrite Td4_eq, !at_map by apply byte_range.
  assert (forall y, is_byte y -> Z.land (word y y y y) 0xff000000 = word y 0 0 0 /\ Z.land (word y y y y) 0x00ff0000 = word 0 y 0 0 /\
    Z.land (word y y y y) 0x0000ff00 = word 0 0 y 0 /\ Z.land (word y y y y) 0x000000ff = word 0 0 0 y) as Hm.
  { intros y Hy. pose proof (all_bytes _ _ masks Hy) as H. cbn beta in H. rewrite !andb_true_iff, !Z.eqb_eq in H. tauto. }
  rewrite (proj1 (Hm _ (invsbox_byte _))), (proj1 (proj2 (Hm _ (invsbox_byte _)))), (proj1 (proj2 (proj2 (Hm _ (invsbox_byte _))))),
    (proj2 (proj2 (proj2 (Hm _ (invsbox_byte _))))).
  by rewrite !word_xor, ?Z.lxor_0_l, ?Z.lxor_0_r.
Qed.

Lemma inverse_word_eq w : inverse_word w = unmix w.
Proof. unfold inverse_word, unmix. by rewrite Tks0_eq, Tks1_eq, Tks2_eq, Tks3_eq, !at_map by apply byte_range. Qed.

(** ** Ranges *)

Lemma word_land w : is_word w <-> Z.land w (Z.ones 32) = w.
Proof.
  rewrite Z.land_ones by lia. unfold is_word. split; [by apply Z.mod_small|]. intros <-. apply Z.mod_pos_bound. lia.
Qed.
Lemma is_word_xor a b : is_word a -> is_word b -> is_word (Z.lxor a b).
Proof.
  rewrite !word_land. intros Ha Hb. rewrite <- Ha at 2. rewrite <- Hb at 2. apply Z.bits_inj'; intros i _.
  rewrite !Z.land_spec, !Z.lxor_spec, !Z.land_spec. by destruct (Z.testbit _ i), (Z.testbit _ i), (Z.testbit _ i).
Qed.
Lemma is_word_word a b c d : is_byte a -> is_byte b -> is_byte c -> is_byte d -> is_word (word a b c d).
Proof.
  unfold word. intros Ha Hb Hc Hd. rewrite !Z.shiftl_mul_pow2 by lia.
  repeat apply is_word_xor; unfold is_word, is_byte in *; lia.
Qed.
Lemma columns_words : forallb (fun y => forallb (fun z => (0 <=? z) && (z <? 2 ^ 32))
  [c0 y; c1 y; c2 y; c3 y; d0 y; d1 y; d2 y; d3 y]) bytes = true.
Proof. vm_compute. reflexivity. Qed.
Lemma column_word y :
  is_byte y -> (is_word (c0 y) /\ is_word (c1 y) /\ is_word (c2 y) /\ is_word (c3 y)) /\
    (is_word (d0 y) /\ is_word (d1 y) /\ is_word (d2 y) /\ is_word (d3 y)).
Proof.
  intros Hy. pose proof (all_bytes _ _ columns_words Hy) as H. cbn beta in H. rewrite forallb_forall in H.
  assert (forall z, In z [c0 y; c1 y; c2 y; c3 y; d0 y; d1 y; d2 y; d3 y] -> is_word z) as Hz.
  { intros z Hin. specialize (H z Hin). unfold is_word. lia. }
  split_and!; apply Hz; do 8 (try (by left); right).
Qed.
Lemma is_word_mix w : is_word (mix w).
Proof.
  destruct (column_word _ (byte_range w 3)) as [(H0 & _) _], (column_word _ (byte_range w 2)) as [(_ & H1 & _) _],
    (column_word _ (byte_range w 1)) as [(_ & _ & H2 & _) _], (column_word _ (byte_range w 0)) as [(_ & _ & _ & H3) _].
  exact (is_word_xor _ _ (is_word_xor _ _ (is_word_xor _ _ H0 H1) H2) H3).
Qed.
Lemma is_word_unmix w : is_word (unmix w).
Proof.
  destruct (column_word _ (byte_range w 3)) as [_ (H0 & _)], (column_word _ (byte_range w 2)) as [_ (_ & H1 & _)],
    (column_word _ (byte_range w 1)) as [_ (_ & _ & H2 & _)], (column_word _ (byte_range w 0)) as [_ (_ & _ & _ & H3)].
  exact (is_word_xor _ _ (is_word_xor _ _ (is_word_xor _ _ H0 H1) H2) H3).
Qed.
Lemma is_word_sub4 a b c d : is_word (sub4 a b c d).
Proof. apply is_word_word; apply sbox_byte. Qed.

(** ** States *)

Definition is_state (s : state) : Prop :=
  let '(s0, s1, s2, s3) := s in is_word s0 /\ is_word s1 /\ is_word s2 /\ is_word s3.
(** An array of words. *)
Definition words (k : list Z) : Prop := forall i, is_word (at_ k i).

Definition sub_shift (s : state) : state :=
  let '(s0, s1, s2, s3) := s in (sub4 s0 s1 s2 s3, sub4 s1 s2 s3 s0, sub4 s2 s3 s0 s1, sub4 s3 s0 s1 s2).
Definition mix_state (s : state) : state := let '(s0, s1, s2, s3) := s in (mix s0, mix s1, mix s2, mix s3).

Lemma enc_round_eq k rk s : enc_round k rk s = add_key (mix_state (sub_shift s)) k rk.
Proof. destruct s as [[[s0 s1] s2] s3]. cbn [enc_round add_key mix_state sub_shift]. by rewrite !lookup_enc. Qed.
Lemma enc_last_eq k rk s : enc_last k rk s = add_key (sub_shift s) k rk.
Proof. destruct s as [[[s0 s1] s2] s3]. cbn [enc_last add_key sub_shift]. by rewrite !lookup_enc_last. Qed.

Lemma is_state_add_key s k rk : is_state s -> words k -> is_state (add_key s k rk).
Proof. destruct s as [[[s0 s1] s2] s3]. intros (H0 & H1 & H2 & H3) Hk. split_and!; by apply is_word_xor. Qed.
Lemma is_state_enc_round k rk s : words k -> is_state (enc_round k rk s).
Proof.
  intros Hk. rewrite enc_round_eq. apply is_state_add_key; [|done]. destruct s as [[[s0 s1] s2] s3]. split_and!; apply is_word_mix.
Qed.

Lemma unsub_sub x a1 a2 a3 b1 b2 b3 e1 e2 e3 f1 f2 f3 :
  is_word x -> unsub4 (sub4 x a1 a2 a3) (sub4 b1 x b2 b3) (sub4 e1 e2 x e3) (sub4 f1 f2 f3 x) = x.
Proof.
  intros Hx. unfold unsub4, sub4. rewrite byte_word3, byte_word2, byte_word1, byte_word0 by apply sbox_byte.
  rewrite !invsbox_sbox by apply byte_range. by apply word_bytes.
Qed.

(** The four words of the inverse key at [drk] are those of the key at [erk]
    with the inverse of MixColumns applied. *)
Definition inverse4 (f : Z -> Z) (ek : list Z) (erk : Z) (dk : list Z) (drk : Z) : Prop :=
  at_ dk drk = f (at_ ek erk) /\ at_ dk (drk + 1) = f (at_ ek (erk + 1)) /\
  at_ dk (drk + 2) = f (at_ ek (erk + 2)) /\ at_ dk (drk + 3) = f (at_ ek (erk + 3)).

Lemma xor_cancel a b : Z.lxor (Z.lxor a b) b = a.
Proof. xor_ac. Qed.

Lemma round_undone ek erk dk drk s :
  is_state s -> words ek -> inverse4 unmix ek erk dk drk ->
  dec_round dk drk (sub_shift (enc_round ek erk s)) = sub_shift s.
Proof.
  intros Hs Hk (E0 & E1 & E2 & E3). pose proof (is_state_enc_round ek erk s Hk) as Hr. rewrite enc_round_eq in *.
  destruct s as [[[s0 s1] s2] s3]. cbn [add_key mix_state sub_shift dec_round is_state] in *. destruct Hr as (R0 & R1 & R2 & R3).
  rewrite !lookup_dec, !unsub_sub by done. rewrite E0, E1, E2, E3, !linear_unmix, !xor_cancel, !unmix_mix by apply is_word_sub4.
  done.
Qed.

Lemma last_undone ek erk dk drk s :
  is_state s -> inverse4 (fun x => x) ek erk dk drk -> dec_last dk drk (sub_shift s) = add_key s ek erk.
Proof.
  intros Hs (E0 & E1 & E2 & E3). destruct s as [[[s0 s1] s2] s3]. cbn [sub_shift dec_last add_key is_state] in *. destruct Hs as (H0 & H1 & H2 & H3).
  by rewrite !lookup_dec_last, !unsub_sub, E0, E1, E2, E3 by done.
Qed.

(** ** Rounds *)

Fixpoint rounds (f : Z -> state -> state) (i : Z) (n : nat) (s : state) : state :=
  match n with O => s | S n => rounds f (i + 1) n (f i s) end.

Lemma rounds_last f i n s : rounds f i (S n) s = f (i + Z.of_nat n) (rounds f i n s).
Proof.
  revert i s. induction n as [|n IH]; intros i s; [cbn; by rewrite Z.add_0_r|].
  cbn [rounds] in *. rewrite IH. f_equal. lia.
Qed.

Lemma enc_loop_rounds r k q s :
  (0 < r)%nat -> enc_loop r k (4 * q) s =
    (rounds (fun i => enc_round k (4 * i)) (q + 1) (2 * r - 1) s, 4 * q + 8 * Z.of_nat r).
Proof.
  revert q s. induction r as [|r IH]; intros q s Hr; [lia|]. cbn [enc_loop].
  replace (4 * q + 4) with (4 * (q + 1)) by lia. replace (4 * q + 8) with (4 * (q + 2)) by lia. destruct r as [|r].
  - cbn. f_equal. lia.
  - rewrite IH by lia. replace (2 * S (S r) - 1)%nat with (S (S (2 * S r - 1))) by lia.
    cbn [rounds]. f_equal; [|lia]. f_equal; [lia|]. f_equal. lia.
Qed.
Lemma dec_loop_rounds r k q s :
  (0 < r)%nat -> dec_loop r k (4 * q) s =
    (rounds (fun i => dec_round k (4 * i)) (q + 1) (2 * r - 1) s, 4 * q + 8 * Z.of_nat r).
Proof.
  revert q s. induction r as [|r IH]; intros q s Hr; [lia|]. cbn [dec_loop].
  replace (4 * q + 4) with (4 * (q + 1)) by lia. replace (4 * q + 8) with (4 * (q + 2)) by lia. destruct r as [|r].
  - cbn. f_equal. lia.
  - rewrite IH by lia. replace (2 * S (S r) - 1)%nat with (S (S (2 * S r - 1))) by lia.
    cbn [rounds]. f_equal; [|lia]. f_equal; [lia|]. f_equal. lia.
Qed.

Lemma rounds_state ek i n s : words ek -> is_state s -> is_state (rounds (fun i => enc_round ek (4 * i)) i n s).
Proof. intros Hk. revert i s. induction n as [|n IH]; intros i s Hs; [done|]. by apply IH, is_state_enc_round. Qed.

Lemma rounds_undone ek dk nr n s :
  words ek -> is_state s -> Z.of_nat n < nr ->
  (forall i, 0 < i < nr -> inverse4 unmix ek (4 * (nr - i)) dk (4 * i)) ->
  rounds (fun i => dec_round dk (4 * i)) (nr - Z.of_nat n) n (sub_shift (rounds (fun i => enc_round ek (4 * i)) 1 n s)) = sub_shift s.
Proof.
  intros Hk Hs Hn Hi. induction n as [|n IH]; [done|]. rewrite (rounds_last (fun i => enc_round ek (4 * i))). cbn [rounds]. cbn beta. rewrite round_undone.
  - replace (nr - Z.of_nat (S n) + 1) with (nr - Z.of_nat n) by lia. apply IH. lia.
  - by apply rounds_state.
  - done.
  - replace (1 + Z.of_nat n) with (nr - (nr - Z.of_nat (S n))) by lia. apply Hi. lia.
Qed.

(** ** Blocks *)

Lemma byte_land b : is_byte b -> Z.land b 255 = b.
Proof. intros Hb. change 255 with (Z.ones 8). rewrite Z.land_ones by lia. by apply Z.mod_small. Qed.

Lemma lor_disjoint a b n : 0 <= n -> 0 <= b < 2 ^ n -> Z.lor (Z.shiftl a n) b = Z.lxor (Z.shiftl a n) b.
Proof.
  intros Hn Hb. apply Z.bits_inj'; intros i Hi. rewrite Z.lor_spec, Z.lxor_spec, Z.shiftl_spec by done.
  destruct (Z_lt_ge_dec i n); [rewrite (Z.testbit_neg_r a) by lia; by destruct (Z.testbit b i)|].
  rewrite (below_high n b i) by lia. by destruct (Z.testbit a _).
Qed.

Lemma LOAD32H_word y i :
  is_byte (at_ y i) -> is_byte (at_ y (i + 1)) -> is_byte (at_ y (i + 2)) -> is_byte (at_ y (i + 3)) ->
  LOAD32H y i = word (at_ y i) (at_ y (i + 1)) (at_ y (i + 2)) (at_ y (i + 3)).
Proof.
  intros H0 H1 H2 H3. unfold LOAD32H. rewrite !byte_land by done. unfold word.
  assert (forall a, is_byte a -> 0 <= Z.shiftl a 8 < 2 ^ 16 /\ 0 <= Z.shiftl a 16 < 2 ^ 24) as Hr.
  { intros a Ha. unfold is_byte in Ha. rewrite !Z.shiftl_mul_pow2 by lia. lia. }
  assert (forall n a b, 0 <= n -> 0 <= a < 2 ^ n -> 0 <= b < 2 ^ n -> 0 <= Z.lxor a b < 2 ^ n) as Hx.
  { intros n a b Hn Ha Hb. rewrite <- (Z.mod_small a (2 ^ n)), <- (Z.mod_small b (2 ^ n)), <- !Z.land_ones by done.
    assert (Z.lxor (Z.land a (Z.ones n)) (Z.land b (Z.ones n)) = Z.land (Z.lxor a b) (Z.ones n)) as ->.
    { apply Z.bits_inj'; intros j _. rewrite Z.lxor_spec, !Z.land_spec, Z.lxor_spec. by destruct (Z.testbit _ j), (Z.testbit _ j), (Z.testbit _ j). }
    rewrite Z.land_ones by done. apply Z.mod_pos_bound. lia. }
  assert (0 <= at_ y (i + 3) < 2 ^ 16) by (unfold is_byte in H3; lia).
  assert (0 <= at_ y (i + 3) < 2 ^ 24) by (unfold is_byte in H3; lia).
  assert (0 <= Z.shiftl (at_ y (i + 2)) 8 < 2 ^ 24) by (destruct (Hr _ H2); lia).
  rewrite (lor_disjoint (at_ y (i + 2)) (at_ y (i + 3)) 8) by (unfold is_byte in H3; lia).
  rewrite (lor_disjoint (at_ y (i + 1))) by (lia || (apply Hx; [lia|apply Hr, H2|done])).
  rewrite lor_disjoint; [done|lia|]. apply Hx; [lia|apply Hr, H1|]. by apply Hx.
Qed.

Lemma LOAD32H_is_word y i :
  is_byte (at_ y i) -> is_byte (at_ y (i + 1)) -> is_byte (at_ y (i + 2)) -> is_byte (at_ y (i + 3)) -> is_word (LOAD32H y i).
Proof. intros. rewrite LOAD32H_word by done. by apply is_word_word. Qed.

Lemma STORE32H_bytes w : STORE32H w = [byte w 3; byte w 2; byte w 1; byte w 0].
Proof. unfold STORE32H, byte. by rewrite Z.mul_0_r, Z.shiftr_0_r. Qed.

(** A block is 16 bytes. *)
Definition is_block (b : list Z) : Prop := length b = 16%nat /\ Forall is_byte b.

Lemma load_block_state b : is_block b -> is_state (load_block b).
Proof.
  intros [Hl Hb].
  assert (forall i, 0 <= i < 16 -> is_byte (at_ b i)) as Hi.
  { intros i Hi. apply (proj1 (List.Forall_forall _ _) Hb), nth_In. lia. }
  split_and!; apply LOAD32H_is_word; apply Hi; lia.
Qed.

Lemma load_store s : is_state s -> load_block (store_block s) = s.
Proof.
  destruct s as [[[s0 s1] s2] s3]. intros (H0 & H1 & H2 & H3). unfold load_block, store_block. rewrite !STORE32H_bytes. cbn [app].
  rewrite !LOAD32H_word by apply byte_range. cbv [at_ nth Z.to_nat Z.add Pos.to_nat Pos.iter_op Init.Nat.add Pos.add Pos.succ].
  by rewrite !word_bytes.
Qed.

Lemma store_is_block s : is_block (store_block s).
Proof.
  destruct s as [[[u0 u1] u2] u3]. cbn [store_block]. rewrite !STORE32H_bytes. split; [done|]. repeat constructor; apply byte_range.
Qed.

Lemma store_load b : is_block b -> store_block (load_block b) = b.
Proof.
  intros [Hl Hb]. do 16 (destruct b as [|? b]; [discriminate Hl|]). destruct b; [|discriminate Hl].
  repeat (apply Forall_cons in Hb as [? Hb]). unfold load_block, store_block.
  rewrite !LOAD32H_word by done. rewrite !STORE32H_bytes. cbv [at_ nth Z.to_nat Z.add Pos.to_nat Pos.iter_op Init.Nat.add Pos.add Pos.succ].
  by rewrite !byte_word3, !byte_word2, !byte_word1, !byte_word0 by done.
Qed.

(** ** The key schedule *)

Lemma at_lookup k i : at_ k i = default 0 (k !! Z.to_nat i).
Proof. apply nth_lookup. Qed.

Lemma length_put k i v : length (put k i v) = length k.
Proof. apply length_insert. Qed.

Lemma at_put k i v j : 0 <= i < Z.of_nat (length k) -> 0 <= j -> at_ (put k i v) j = if i =? j then v else at_ k j.
Proof.
  intros Hi Hj. rewrite !at_lookup. unfold put. destruct (Z.eqb_spec i j) as [->|Hij].
  - by rewrite list_lookup_insert_eq by lia.
  - by rewrite list_lookup_insert_ne by lia.
Qed.

Lemma words_put k i v : words k -> is_word v -> words (put k i v).
Proof.
  intros Hk Hv j. specialize (Hk j). rewrite at_lookup in *. unfold put. rewrite list_lookup_insert.
  destruct (decide _); [done|done].
Qed.

Lemma words_list l : forallb (fun z => (0 <=? z) && (z <? 2 ^ 32)) l = true -> words l.
Proof.
  intros Hl i. unfold at_. destruct (nth_in_or_default (Z.to_nat i) l 0) as [Hin| ->]; [|by unfold is_word].
  pose proof (proj1 (forallb_forall _ l) Hl _ Hin) as H. cbn beta in H. unfold is_word. lia.
Qed.
Lemma words_rcon : words rcon.
Proof. apply words_list. vm_compute. reflexivity. Qed.

Lemma is_word_setup_mix x : is_word (setup_mix x).
Proof.
  unfold setup_mix. rewrite Te4_3_eq, Te4_2_eq, Te4_1_eq, Te4_0_eq, !at_map by apply byte_range. rewrite !word_xor.
  rewrite ?Z.lxor_0_l, ?Z.lxor_0_r. apply is_word_word; apply sbox_byte.
Qed.

#[local] Hint Resolve words_put is_word_xor is_word_setup_mix words_rcon : words.
Lemma words_at k i : words k -> is_word (at_ k i).
Proof. intros H. apply H. Qed.
#[local] Hint Resolve words_at : words.

(** One assignment of the schedule at a time. *)
Ltac words_let :=
  match goal with
  | |- words (let k := put ?k0 ?i ?v in @?body k) =>
      let H := fresh "H" in
      assert (words (put k0 i v)) as H by auto 10 with words;
      change (words (body (put k0 i v))); revert H; generalize (put k0 i v); intros ? H; cbv beta
  | |- words (let t := at_ ?k ?i in @?body t) => change (words (body (at_ k i))); cbv beta
  | |- words (if ?b then _ else _) => destruct b; [assumption|]
  end.

Lemma words_expand16 n i rk k : words k -> words (expand16 n i rk k).
Proof. revert i rk k. induction n as [|n IH]; intros i rk k Hk; [done|]. cbv beta iota delta [expand16]; fold expand16. repeat words_let. by apply IH. Qed.
Lemma words_expand24 n i rk k : words k -> words (expand24 n i rk k).
Proof. revert i rk k. induction n as [|n IH]; intros i rk k Hk; [done|]. cbv beta iota delta [expand24]; fold expand24. repeat words_let. by apply IH. Qed.

Lemma is_word_RORc x n : is_word (RORc x n).
Proof. unfold RORc, is_word. change 0xFFFFFFFF with (Z.ones 32). rewrite Z.land_ones by lia. apply Z.mod_pos_bound. lia. Qed.

Lemma words_expand32 n i rk k : words k -> words (expand32 n i rk k).
Proof. revert i rk k. induction n as [|n IH]; intros i rk k Hk; [done|]. cbv beta iota delta [expand32]; fold expand32. repeat words_let. by apply IH. Qed.

Lemma words_load_key key n k :
  (forall i, 0 <= i < 4 * Z.of_nat n -> is_byte (at_ key i)) -> words k -> words (load_key key k n).
Proof.
  unfold load_key. intros Hkey Hk.
  assert (forall l, (forall i, In i l -> (i < n)%nat) -> forall k, words k ->
    words (fold_left (fun k i => put k (Z.of_nat i) (LOAD32H key (4 * Z.of_nat i))) l k)) as Hl.
  { induction l as [|i l IH]; intros Hi k' Hk'; [done|]. cbn [fold_left]. apply IH; [intros j Hj; apply Hi; by right|].
    specialize (Hi i (or_introl eq_refl)). apply words_put; [done|]. apply LOAD32H_is_word; apply Hkey; lia. }
  apply Hl; [|done]. intros i Hi. apply in_seq in Hi. lia.
Qed.

(** *** The inverse key *)

Lemma length_copy4 f ek rrk dk rk : length (copy4 f ek rrk dk rk) = length dk.
Proof. unfold copy4. by rewrite !length_put. Qed.

Lemma at_copy4 f ek rrk dk rk j :
  0 <= rk -> rk + 4 <= Z.of_nat (length dk) -> 0 <= j < rk \/ rk + 4 <= j -> at_ (copy4 f ek rrk dk rk) j = at_ dk j.
Proof.
  intros H0 H1 Hj. unfold copy4. rewrite !at_put by (rewrite ?length_put; lia).
  by rewrite !(proj2 (Z.eqb_neq _ _)) by lia.
Qed.
Lemma inverse_copy4 f ek rrk dk rk :
  0 <= rk -> rk + 4 <= Z.of_nat (length dk) -> inverse4 f ek rrk (copy4 f ek rrk dk rk) rk.
Proof.
  intros H0 H1. unfold copy4, inverse4. rewrite !at_put by (rewrite ?length_put; lia).
  rewrite !Z.eqb_refl, !(proj2 (Z.eqb_neq _ _)) by lia. done.
Qed.
Lemma inverse4_kept f g ek erk dk rk ek' rrk drk :
  inverse4 f ek erk dk drk -> 0 <= drk -> drk + 4 <= rk -> rk + 4 <= Z.of_nat (length dk) -> inverse4 f ek erk (copy4 g ek' rrk dk rk) drk.
Proof. intros (E0 & E1 & E2 & E3) H0 H1 H2. unfold inverse4. by rewrite !at_copy4 by lia. Qed.

Lemma inverse_keys_ok n ek rrk dk rk nr :
  0 <= rk -> rk + 4 * Z.of_nat n + 4 <= Z.of_nat (length dk) ->
  (forall i, 0 < i -> 4 * i <= rk -> inverse4 unmix ek (4 * (nr - i)) dk (4 * i)) ->
  inverse4 (fun x => x) ek (4 * nr) dk 0 -> (exists q, 0 <= q /\ rk = 4 * q /\ rrk = 4 * (nr - q)) ->
  exists dk', inverse_keys n ek rrk dk rk = (dk', rrk - 4 * Z.of_nat n, rk + 4 * Z.of_nat n) /\ length dk' = length dk /\
    (forall i, 0 < i -> 4 * i <= rk + 4 * Z.of_nat n -> inverse4 unmix ek (4 * (nr - i)) dk' (4 * i)) /\
    inverse4 (fun x => x) ek (4 * nr) dk' 0.
Proof.
  revert rrk dk rk. induction n as [|n IH]; intros rrk dk rk H0 H1 Hi Hf (q & Hq & Erk & Errk).
  - exists dk. cbn [inverse_keys]. replace (rrk - 4 * Z.of_nat 0) with rrk by lia. replace (rk + 4 * Z.of_nat 0) with rk by lia. done.
  - cbn [inverse_keys].
    destruct (IH (rrk - 4) (copy4 inverse_word ek (rrk - 4) dk (rk + 4)) (rk + 4)) as (dk' & E & Hl & Hi' & Hf').
    + lia.
    + rewrite length_copy4. lia.
    + intros i Hi0 Hi1. destruct (Z.eq_dec (4 * i) (rk + 4)) as [Ei|Ei].
      * replace (4 * (nr - i)) with (rrk - 4) by lia. rewrite Ei.
        pose proof (inverse_copy4 inverse_word ek (rrk - 4) dk (rk + 4)) as (E0 & E1 & E2 & E3); [lia..|].
        unfold inverse4. by rewrite E0, E1, E2, E3, !inverse_word_eq.
      * apply inverse4_kept; [apply Hi|..]; lia.
    + apply inverse4_kept; [done|lia..].
    + exists (q + 1). lia.
    + exists dk'. rewrite E, Hl, length_copy4. split_and!; [f_equal; [f_equal|]; lia|done| |done].
      intros i Hi0 Hi1. apply Hi'; lia.
Qed.

(** *** SETUP *)

(** The two schedules of a key belong together. *)
Record scheduled (k : rijndael_key) : Prop := {
  sc_words : words (eK k);
  sc_rounds : exists r, (0 < r)%nat /\ Nr k = 2 * Z.of_nat r;
  sc_first : inverse4 (fun x => x) (eK k) (4 * Nr k) (dK k) 0;
  sc_inner : forall i, 0 < i < Nr k -> inverse4 unmix (eK k) (4 * (Nr k - i)) (dK k) (4 * i);
  sc_last : inverse4 (fun x => x) (eK k) 0 (dK k) (4 * Nr k)
}.

(** What was in the key before is two arrays of 60 words. *)
Definition is_key_object (k : rijndael_key) : Prop := words (eK k) /\ length (eK k) = 60%nat /\ length (dK k) = 60%nat.
Definition key_size (n : Z) : Prop := n = 16 \/ n = 24 \/ n = 32.
Definition default_rounds (n : Z) : Z := 10 + (n / 8 - 2) * 2.

Lemma inverse_schedule ek dk nr :
  (exists r, (0 < r)%nat /\ nr = 2 * Z.of_nat r) -> 4 * nr + 4 <= Z.of_nat (length dk) -> words ek ->
  let dk0 := copy4 (fun x => x) ek (4 * nr) dk 0 in
  let '(dk1, rrk, rk) := inverse_keys (Z.to_nat (nr - 1)) ek (4 * nr) dk0 0 in
  scheduled {| eK := ek; dK := copy4 (fun x => x) ek (rrk - 4) dk1 (rk + 4); Nr := nr |}.
Proof.
  intros (r & Hr & Er) Hl Hk. cbv zeta.
  destruct (inverse_keys_ok (Z.to_nat (nr - 1)) ek (4 * nr) (copy4 (fun x => x) ek (4 * nr) dk 0) 0 nr) as (dk1 & E & Hl1 & Hi & Hf).
  - lia.
  - rewrite length_copy4. lia.
  - intros i H0 H1. lia.
  - apply inverse_copy4; lia.
  - exists 0. lia.
  - rewrite E. rewrite length_copy4 in Hl1.
    replace (4 * nr - 4 * Z.of_nat (Z.to_nat (nr - 1)) - 4) with 0 by lia.
    replace (0 + 4 * Z.of_nat (Z.to_nat (nr - 1)) + 4) with (4 * nr) by lia.
    constructor; cbn [eK dK Nr].
    + done.
    + by exists r.
    + apply inverse4_kept; [done|lia..].
    + intros i Hi'. apply inverse4_kept; [apply Hi; lia|lia..].
    + apply inverse_copy4; lia.
Qed.

Lemma setup_scheduled key num_rounds skey :
  key_size (Z.of_nat (length key)) -> Forall is_byte key -> is_key_object skey ->
  num_rounds = 0 \/ num_rounds = default_rounds (Z.of_nat (length key)) ->
  exists k, SETUP key (Z.of_nat (length key)) num_rounds skey = (CRYPT_OK, k) /\ scheduled k /\
    Nr k = default_rounds (Z.of_nat (length key)).
Proof.
  intros Hn Hkey (He & _ & Hd) Hr.
  assert (forall i, 0 <= i < Z.of_nat (length key) -> is_byte (at_ key i)) as Hb.
  { intros i Hi. apply (proj1 (List.Forall_forall _ _) Hkey), nth_In. lia. }
  assert (forall n, 4 * Z.of_nat n <= Z.of_nat (length key) -> words (load_key key (eK skey) n)) as Hw.
  { intros n Hn'. apply words_load_key; [|done]. intros i Hi. apply Hb. lia. }
  unfold SETUP.
  assert (negb (num_rounds =? 0) && negb (num_rounds =? default_rounds (Z.of_nat (length key))) = false) as Hrt.
  { destruct Hr as [->| ->]; [done|]. by rewrite Z.eqb_refl, andb_false_r. }
  fold (default_rounds (Z.of_nat (length key))). rewrite Hrt. clear Hrt Hr.
  assert (forall ek nr, (exists r, (0 < r)%nat /\ nr = 2 * Z.of_nat r) -> 4 * nr + 4 <= 60 -> words ek ->
    exists k, (let dk := copy4 (fun x => x) ek (4 * nr) (dK skey) 0 in
               let '(dk, rrk, rk) := inverse_keys (Z.to_nat (nr - 1)) ek (4 * nr) dk 0 in
               let dk := copy4 (fun x => x) ek (rrk - 4) dk (rk + 4) in
               (CRYPT_OK, {| eK := ek; dK := dk; Nr := nr |})) = (CRYPT_OK, k) /\ scheduled k /\ Nr k = nr) as Hfin.
  { intros ek nr Hr Hl Hk. pose proof (inverse_schedule ek (dK skey) nr Hr) as H. rewrite Hd in H. specialize (H Hl Hk).
    cbv zeta in *. destruct (inverse_keys _ _ _ _ _) as [[dk1 rrk] rk]. eexists. split; [reflexivity|]. by split. }
  destruct Hn as [En|[En|En]]; rewrite En; cbn [Z.eqb negb andb].
  - apply (Hfin _ 10); [exists 5%nat; lia|lia|apply words_expand16, Hw; lia].
  - apply (Hfin _ 12); [exists 6%nat; lia|lia|apply words_expand24, Hw; lia].
  - apply (Hfin _ 14); [exists 7%nat; lia|lia|apply words_expand32, Hw; lia].
Qed.

Lemma scheduled_inverse k pt : scheduled k -> is_block pt -> is_block (ECB_ENC pt k) /\ ECB_DEC (ECB_ENC pt k) k = pt.
Proof.
  intros [Hw (r & Hr & En) Hf Hi Hl] Hpt. unfold ECB_ENC, ECB_DEC.
  assert (Z.to_nat (Z.shiftr (Nr k) 1) = r) as -> by (rewrite En, Z.shiftr_div_pow2 by lia; change (2 ^ 1) with 2; Z.div_mod_to_equations; lia).
  pose proof (is_state_add_key _ (eK k) 0 (load_block_state pt Hpt) Hw) as Hs. set (s := add_key (load_block pt) (eK k) 0) in *.
  change (enc_loop r (eK k) 0 s) with (enc_loop r (eK k) (4 * 0) s). rewrite (enc_loop_rounds r (eK k) 0 s Hr). change (0 + 1) with 1. change (4 * 0) with 0.
  pose proof (rounds_state (eK k) 1 (2 * r - 1) s Hw Hs) as Ht.
  set (t := rounds (fun i => enc_round (eK k) (4 * i)) 1 (2 * r - 1) s) in *.
  rewrite enc_last_eq. replace (0 + 8 * Z.of_nat r) with (4 * Nr k) by lia.
  assert (is_state (sub_shift t)) as Hst by (destruct t as [[[? ?] ?] ?]; split_and!; apply is_word_sub4).
  split.
  - apply store_is_block.
  - rewrite load_store by by apply is_state_add_key.
    assert (add_key (add_key (sub_shift t) (eK k) (4 * Nr k)) (dK k) 0 = sub_shift t) as ->.
    { destruct (sub_shift t) as [[[u0 u1] u2] u3], Hf as (E0 & E1 & E2 & E3). cbn [add_key]. cbn [Z.add] in *. by rewrite E0, E1, E2, E3, !xor_cancel. }
    change (dec_loop r (dK k) 0 (sub_shift t)) with (dec_loop r (dK k) (4 * 0) (sub_shift t)).
    rewrite (dec_loop_rounds r (dK k) 0 _ Hr). change (0 + 1) with 1.
    replace (rounds (fun i => dec_round (dK k) (4 * i)) 1 (2 * r - 1) (sub_shift t)) with (sub_shift s).
    2: { unfold t. rewrite <- (rounds_undone (eK k) (dK k) (Nr k) (2 * r - 1) s Hw Hs) by (done || lia).
         f_equal. lia. }
    replace (4 * 0 + 8 * Z.of_nat r) with (4 * Nr k) by lia.
    rewrite (last_undone (eK k) 0) by done. unfold s.
    assert (forall u, add_key (add_key u (eK k) 0) (eK k) 0 = u) as ->.
    { intros [[[u0 u1] u2] u3]. cbn [add_key]. by rewrite !xor_cancel. }
    by apply store_load.
Qed.
