(* ===== verification/AesSpec.v ===== *)
(** * AES is FIPS-197

    The standard's cipher on a state of 16 bytes, with the S-box computed in
    GF(2^8) and the key expansion as its recurrence, and the proof that SETUP
    and ECB_ENC compute it, over tables, unrolled rounds and words. *)

From S2P Require Import Prelude AesTables Aes AesInverse.

Local Open Scope Z_scope.

(** ** The standard *)

(** The field: multiplication bit by bit, the inverse as a power. *)
Definition gf_mul (a b : Z) : Z :=
  fold_right (fun i r => Z.lxor (xtime r) (if Z.testbit b i then a else 0)) 0 [0; 1; 2; 3; 4; 5; 6; 7].
Fixpoint gf_pow (a : Z) (n : nat) : Z := match n with O => 1 | S n => gf_mul a (gf_pow a n) end.
Definition gf_inverse (a : Z) : Z := gf_pow a 254.

(** The affine map: bit [i] is the sum of bits [i], [i+4], ..., [i+7] mod 8. *)
Definition rotate_left (b n : Z) : Z := Z.land (Z.lor (Z.shiftl b n) (Z.shiftr b (8 - n))) 255.
Definition SBox (x : Z) : Z :=
  let b := gf_inverse x in
  Z.lxor (Z.lxor (Z.lxor (Z.lxor (Z.lxor b (rotate_left b 1)) (rotate_left b 2)) (rotate_left b 3)) (rotate_left b 4)) 0x63.

(** A state is 16 bytes, column after column. *)
Definition cell (s : list Z) (row column : nat) : Z := nth (row + 4 * column) s 0.
Definition tabulate (f : nat -> nat -> Z) : list Z :=
  map (fun k => f (k mod 4)%nat (k / 4)%nat) (seq 0 16).

Definition SubBytes (s : list Z) : list Z := map SBox s.
Definition ShiftRows (s : list Z) : list Z := tabulate (fun r c => cell s r ((c + r) mod 4)%nat).
Definition MixColumns (s : list Z) : list Z :=
  tabulate (fun r c => Z.lxor (Z.lxor (Z.lxor (gf_mul 2 (cell s r c)) (gf_mul 3 (cell s ((r + 1) mod 4)%nat c)))
                               (cell s ((r + 2) mod 4)%nat c)) (cell s ((r + 3) mod 4)%nat c)).

(** The key schedule: words of four bytes. *)
Definition RotWord (w : list Z) : list Z := drop 1 w ++ take 1 w.
Definition SubWord (w : list Z) : list Z := map SBox w.
Definition Rcon (i : nat) : list Z := [gf_pow 2 (i - 1); 0; 0; 0].
Definition xor_word (a b : list Z) : list Z := zip_with Z.lxor a b.

Definition schedule_word (nk i : nat) (w : list (list Z)) : list Z :=
  let temp := nth (i - 1) w [] in
  let temp :=
    if decide (i mod nk = 0)%nat then xor_word (SubWord (RotWord temp)) (Rcon (i / nk))
    else if decide (6 < nk /\ i mod nk = 4)%nat then SubWord temp
    else temp in
  xor_word (nth (i - nk) w []) temp.

Fixpoint key_words (nk : nat) (key : list Z) : list (list Z) :=
  match nk with O => [] | S nk => take 4 key :: key_words nk (drop 4 key) end.
Fixpoint expand (n nk i : nat) (w : list (list Z)) : list (list Z) :=
  match n with O => w | S n => expand n nk (S i) (w ++ [schedule_word nk i w]) end.
Definition KeyExpansion (key : list Z) : list (list Z) :=
  let nk := (length key / 4)%nat in
  expand (4 * (nk + 7) - nk) nk nk (key_words nk key).

Definition AddRoundKey (s : list Z) (w : list (list Z)) (round : nat) : list Z :=
  zip_with Z.lxor s (concat (take 4 (drop (4 * round) w))).

Fixpoint middle_rounds (n round : nat) (w : list (list Z)) (s : list Z) : list Z :=
  match n with
  | O => s
  | S n => middle_rounds n (S round) w (AddRoundKey (MixColumns (ShiftRows (SubBytes s))) w round)
  end.
Definition Cipher (pt : list Z) (nr : nat) (w : list (list Z)) : list Z :=
  AddRoundKey (ShiftRows (SubBytes (middle_rounds (nr - 1) 1 w (AddRoundKey pt w 0)))) w nr.

Definition AES (key pt : list Z) : list Z := Cipher pt (length key / 4 + 6) (KeyExpansion key).

(** The example vectors of the standard (appendix C). *)
Example fips_c1 : AES (map Z.of_nat (seq 0 16)) (map (fun i => 17 * Z.of_nat i) (seq 0 16)) =
  [0x69; 0xc4; 0xe0; 0xd8; 0x6a; 0x7b; 0x04; 0x30; 0xd8; 0xcd; 0xb7; 0x80; 0x70; 0xb4; 0xc5; 0x5a].
Proof. vm_compute. reflexivity. Qed.
Example fips_c3 : AES (map Z.of_nat (seq 0 32)) (map (fun i => 17 * Z.of_nat i) (seq 0 16)) =
  [0x8e; 0xa2; 0xb7; 0xca; 0x51; 0x67; 0x45; 0xbf; 0xea; 0xfc; 0x49; 0x90; 0x4b; 0x49; 0x60; 0x89].
Proof. vm_compute. reflexivity. Qed.

(** ** Words and bytes *)

Definition bytes_of (w : Z) : list Z := [byte w 3; byte w 2; byte w 1; byte w 0].

Lemma sbox_standard : forallb (fun x => SBox x =? sbox x) bytes = true.
Proof. vm_compute. reflexivity. Qed.
Lemma SBox_sbox x : is_byte x -> SBox x = sbox x.
Proof. intros Hx. by apply Z.eqb_eq, (all_bytes (fun x => SBox x =? sbox x) x sbox_standard). Qed.

Lemma gf_small : forallb (fun x => (gf_mul 2 x =? xtime x) && (gf_mul 3 x =? mul3 x) &&
  (0 <=? xtime x) && (xtime x <? 256) && (0 <=? mul3 x) && (mul3 x <? 256)) bytes = true.
Proof. vm_compute. reflexivity. Qed.
Lemma gf_mul_2_3 x : is_byte x -> gf_mul 2 x = xtime x /\ gf_mul 3 x = mul3 x /\ is_byte (xtime x) /\ is_byte (mul3 x).
Proof.
  intros Hx. pose proof (all_bytes _ _ gf_small Hx) as H. cbn beta in H. rewrite !andb_true_iff, !Z.eqb_eq in H.
  unfold is_byte. lia.
Qed.

Lemma bytes_of_word a b c d : is_byte a -> is_byte b -> is_byte c -> is_byte d -> bytes_of (word a b c d) = [a; b; c; d].
Proof. intros. unfold bytes_of. by rewrite byte_word3, byte_word2, byte_word1, byte_word0. Qed.
Lemma bytes_of_xor a b : bytes_of (Z.lxor a b) = xor_word (bytes_of a) (bytes_of b).
Proof. unfold bytes_of, xor_word. cbn [zip_with]. by rewrite !byte_xor. Qed.
Lemma bytes_of_inj a b : is_word a -> is_word b -> bytes_of a = bytes_of b -> a = b.
Proof. intros Ha Hb [= H3 H2 H1 H0]. rewrite <- (word_bytes a Ha), <- (word_bytes b Hb). by rewrite H3, H2, H1, H0. Qed.

Lemma store_block_bytes s0 s1 s2 s3 : store_block (s0, s1, s2, s3) = bytes_of s0 ++ bytes_of s1 ++ bytes_of s2 ++ bytes_of s3.
Proof. unfold store_block. by rewrite !STORE32H_bytes. Qed.

Lemma bytes_of_mix w :
  bytes_of (mix w) =
    [Z.lxor (Z.lxor (Z.lxor (xtime (byte w 3)) (mul3 (byte w 2))) (byte w 1)) (byte w 0);
     Z.lxor (Z.lxor (Z.lxor (xtime (byte w 2)) (mul3 (byte w 1))) (byte w 0)) (byte w 3);
     Z.lxor (Z.lxor (Z.lxor (xtime (byte w 1)) (mul3 (byte w 0))) (byte w 3)) (byte w 2);
     Z.lxor (Z.lxor (Z.lxor (xtime (byte w 0)) (mul3 (byte w 3))) (byte w 2)) (byte w 1)].
Proof.
  unfold mix. rewrite !bytes_of_xor. unfold c0, c1, c2, c3.
  rewrite !bytes_of_word by (apply byte_range || apply gf_mul_2_3, byte_range).
  unfold xor_word. cbn [zip_with]. repeat apply (f_equal2 cons); [xor_ac..|done].
Qed.

(** ** Rounds *)

Ltac eval_cells := cbv [cell tabulate seq map nth Nat.modulo Nat.divmod Nat.div fst snd Nat.sub Init.Nat.add Nat.add Nat.mul Init.Nat.mul].

Lemma sub_shift_bytes s : store_block (sub_shift s) = ShiftRows (SubBytes (store_block s)).
Proof.
  destruct s as [[[s0 s1] s2] s3]. cbn [sub_shift]. rewrite !store_block_bytes. unfold sub4.
  rewrite !bytes_of_word by apply sbox_byte. unfold SubBytes, bytes_of. cbn [app map].
  rewrite !SBox_sbox by apply byte_range. unfold ShiftRows. eval_cells. reflexivity.
Qed.

Lemma mix_bytes s : store_block (mix_state s) = MixColumns (store_block s).
Proof.
  destruct s as [[[s0 s1] s2] s3]. cbn [mix_state]. rewrite !store_block_bytes, !bytes_of_mix.
  unfold MixColumns, bytes_of. cbn [app]. eval_cells.
  by rewrite !(proj1 (gf_mul_2_3 _ (byte_range _ _))), !(proj1 (proj2 (gf_mul_2_3 _ (byte_range _ _)))).
Qed.

(** The words of a key array are those of the standard's schedule, up to [n]. *)
Definition expanded (k : list Z) (w : list (list Z)) (n : nat) : Prop :=
  (n <= length w)%nat /\ forall i, (i < n)%nat -> w !! i = Some (bytes_of (at_ k (Z.of_nat i))).

Lemma add_key_bytes s k w n r :
  expanded k w n -> (4 * r + 4 <= n)%nat -> store_block (add_key s k (4 * Z.of_nat r)) = AddRoundKey (store_block s) w r.
Proof.
  intros [Hl Hw] Hr. destruct s as [[[s0 s1] s2] s3]. cbn [add_key]. rewrite !store_block_bytes. unfold AddRoundKey.
  assert (take 4 (drop (4 * r) w) = [bytes_of (at_ k (4 * Z.of_nat r)); bytes_of (at_ k (4 * Z.of_nat r + 1));
    bytes_of (at_ k (4 * Z.of_nat r + 2)); bytes_of (at_ k (4 * Z.of_nat r + 3))]) as ->.
  { assert (forall j, (j < 4)%nat -> w !! (4 * r + j)%nat = Some (bytes_of (at_ k (4 * Z.of_nat r + Z.of_nat j)))) as Hj.
    { intros j Hj. rewrite Hw by lia. do 3 f_equal. lia. }
    pose proof (Hj 0%nat) as H0. pose proof (Hj 1%nat) as H1. pose proof (Hj 2%nat) as H2. pose proof (Hj 3%nat) as H3. clear Hj Hw.
    specialize (H0 ltac:(lia)). specialize (H1 ltac:(lia)). specialize (H2 ltac:(lia)). specialize (H3 ltac:(lia)).
    rewrite <- lookup_drop in H0, H1, H2, H3. destruct (drop (4 * r) w) as [|w0 [|w1 [|w2 [|w3 l]]]]; try discriminate.
    cbn in H0, H1, H2, H3. simplify_eq. cbn [take]. by rewrite Z.add_0_r. }
  cbn [concat]. rewrite app_nil_r. rewrite !bytes_of_xor. unfold bytes_of, xor_word. reflexivity.
Qed.

Lemma middle_bytes n i s k w m :
  expanded k w m -> (4 * (i + n) <= m)%nat -> words k ->
  store_block (rounds (fun i => enc_round k (4 * i)) (Z.of_nat i) n s) = middle_rounds n i w (store_block s).
Proof.
  intros Hw Hm Hk. revert i s Hm. induction n as [|n IH]; intros i s Hm; [done|]. cbn [rounds middle_rounds].
  replace (Z.of_nat i + 1) with (Z.of_nat (S i)) by lia. rewrite IH by lia. f_equal.
  rewrite enc_round_eq, (add_key_bytes _ k w m) by (done || lia). by rewrite mix_bytes, sub_shift_bytes.
Qed.

Lemma encrypt_standard k w pt r :
  Nr k = 2 * Z.of_nat r -> (0 < r)%nat -> words (eK k) -> expanded (eK k) w (8 * r + 4) -> is_block pt ->
  ECB_ENC pt k = Cipher pt (2 * r) w.
Proof.
  intros Hn Hr Hk Hw Hpt. unfold ECB_ENC, Cipher.
  assert (Z.to_nat (Z.shiftr (Nr k) 1) = r) as ->.
  { rewrite Hn, Z.shiftr_div_pow2 by lia. change (2 ^ 1) with 2. Z.div_mod_to_equations; lia. }
  set (s := add_key (load_block pt) (eK k) 0).
  change (enc_loop r (eK k) 0 s) with (enc_loop r (eK k) (4 * 0) s). rewrite (enc_loop_rounds r (eK k) 0 s Hr).
  rewrite enc_last_eq. replace (4 * 0 + 8 * Z.of_nat r) with (4 * Z.of_nat (2 * r)) by lia.
  rewrite (add_key_bytes _ _ w (8 * r + 4)), sub_shift_bytes by (done || lia). f_equal. f_equal. f_equal.
  change (0 + 1) with (Z.of_nat 1). rewrite (middle_bytes _ _ _ _ w (8 * r + 4)) by (done || lia). f_equal. unfold s.
  change 0 with (4 * Z.of_nat 0). rewrite (add_key_bytes _ _ w (8 * r + 4)) by (done || lia). by rewrite store_load.
Qed.

(** ** The key schedule *)

(** The recurrence on words. *)
Definition step_word (nk p temp : Z) : Z :=
  if p mod nk =? 0 then Z.lxor (setup_mix temp) (at_ rcon (p / nk - 1))
  else if (6 <? nk) && (p mod nk =? 4) then setup_mix (RORc temp 8)
  else temp.
Definition next_word (nk : Z) (k : list Z) (p : Z) : Z := Z.lxor (at_ k (p - nk)) (step_word nk p (at_ k (p - 1))).

(** The first [p] words of [k] are the schedule of [key]. *)
Record follows (nk : Z) (key k : list Z) (p : Z) : Prop := {
  fo_length : length k = 60%nat;
  fo_key : forall i, 0 <= i < nk -> at_ k i = LOAD32H key (4 * i);
  fo_next : forall i, nk <= i < p -> at_ k i = next_word nk k i
}.

Lemma follows_put nk key k p v :
  0 < nk <= p -> p < 60 -> follows nk key k p -> v = next_word nk k p -> follows nk key (put k p v) (p + 1).
Proof.
  intros Hp H60 [Hl Hk Hn] ->. constructor; [by rewrite length_put|..].
  - intros i Hi. rewrite at_put by lia. rewrite (proj2 (Z.eqb_neq _ _)) by lia. by apply Hk.
  - intros i Hi. unfold next_word. rewrite !at_put by lia. rewrite !(proj2 (Z.eqb_neq p (_ - _))) by lia.
    destruct (Z.eqb_spec p i) as [<-|Hne]; [done|]. apply Hn. lia.
Qed.


Lemma step_word_0 nk q temp i : 0 < nk -> i = q -> step_word nk (nk * (q + 1)) temp = Z.lxor (setup_mix temp) (at_ rcon i).
Proof.
  intros Hk ->. unfold step_word. rewrite Z.mul_comm, Z.mod_mul, Z.div_mul by lia. cbn [Z.eqb]. do 2 f_equal. lia.
Qed.
Lemma step_word_copy nk q j temp : 0 < j < nk -> nk <= 6 \/ j <> 4 -> step_word nk (nk * (q + 1) + j) temp = temp.
Proof.
  intros Hj H4. unfold step_word. rewrite Z.add_comm, Z.mul_comm, Z.mod_add, Z.mod_small by lia.
  rewrite (proj2 (Z.eqb_neq j 0)) by lia. destruct (Z.ltb_spec 6 nk); [|done]. by rewrite (proj2 (Z.eqb_neq j 4)) by lia.
Qed.
Lemma step_word_4 nk q temp : 6 < nk -> step_word nk (nk * (q + 1) + 4) temp = setup_mix (RORc temp 8).
Proof.
  intros Hk. unfold step_word. rewrite Z.add_comm, Z.mul_comm, Z.mod_add, Z.mod_small by lia.
  by rewrite (proj2 (Z.ltb_lt 6 nk)) by lia.
Qed.

Lemma put_first nk key k q v i :
  0 < nk -> 0 <= q -> nk * (q + 1) < 60 -> i = q -> follows nk key k (nk * (q + 1)) ->
  v = Z.lxor (Z.lxor (at_ k (nk * q)) (setup_mix (at_ k (nk * q + (nk - 1))))) (at_ rcon i) ->
  follows nk key (put k (nk * q + nk) v) (nk * (q + 1) + 1).
Proof.
  intros Hk Hq H60 Hi Hf ->. replace (nk * q + nk) with (nk * (q + 1)) by lia. apply follows_put; [nia|done|done|].
  unfold next_word. rewrite (step_word_0 nk q _ i) by done. rewrite Z.lxor_assoc.
  replace (nk * (q + 1) - nk) with (nk * q) by lia. by replace (nk * (q + 1) - 1) with (nk * q + (nk - 1)) by lia.
Qed.
Lemma put_copy nk key k q j v :
  0 <= q -> 0 < j < nk -> nk <= 6 \/ j <> 4 -> nk * (q + 1) + j < 60 -> follows nk key k (nk * (q + 1) + j) ->
  v = Z.lxor (at_ k (nk * q + j)) (at_ k (nk * q + (nk + j - 1))) ->
  follows nk key (put k (nk * q + (nk + j)) v) (nk * (q + 1) + (j + 1)).
Proof.
  intros Hq Hj H4 H60 Hf ->. replace (nk * q + (nk + j)) with (nk * (q + 1) + j) by lia. rewrite Z.add_assoc.
  apply follows_put; [nia|done|done|]. unfold next_word. rewrite step_word_copy by done. f_equal; f_equal; lia.
Qed.

(** One assignment of SETUP in iteration [q]: [H] says what [k] follows before
    it, and the lemma that the assigned word is the next. *)
Ltac follow lemma :=
  match goal with
  | H : follows ?nk ?key ?k0 _ |- follows ?nk ?key (let t := at_ ?k0 ?a in @?body t) ?p =>
      change (follows nk key (body (at_ k0 a)) p); cbv beta; follow lemma
  | H : follows ?nk ?key ?k0 _ |- follows ?nk ?key (let k := put ?k0 ?i ?v in @?body k) ?p =>
      apply (lemma key k0 v) in H; [|lia..|reflexivity];
      match type of H with follows _ _ _ ?q => change (follows nk key (put k0 i v) q) in H end;
      change (follows nk key (body (put k0 i v)) p); revert H; generalize (put k0 i v); intros ? H; cbv beta
  end.

(** The instances of the two lemmas for iteration [q]. *)
Ltac follow_first nk q := follow (fun key k v H0 H1 H2 => put_first nk key k q v q H0 H1 H2 eq_refl).
Ltac follow_copy nk q j := follow (fun key k v => put_copy nk key k q j v).

Lemma expand16_follows n q key k :
  Z.of_nat n = 10 - q -> 0 <= q < 10 -> follows 4 key k (4 * (q + 1)) -> follows 4 key (expand16 n q (4 * q) k) 44.
Proof.
  revert q k. induction n as [|n IH]; intros q k Hn Hq Hf; [lia|]. cbv beta iota delta [expand16]; fold expand16.
  follow_first 4 q. follow_copy 4 q 1. follow_copy 4 q 2. follow_copy 4 q 3.
  destruct (Z.eqb_spec (q + 1) 10) as [E|E].
  - by replace 44 with (4 * (q + 1) + (3 + 1)) by lia.
  - replace (4 * q + 4) with (4 * (q + 1)) by lia. apply IH; [lia..|].
    by replace (4 * (q + 1 + 1)) with (4 * (q + 1) + (3 + 1)) by lia.
Qed.

Lemma expand24_follows n q key k :
  Z.of_nat n = 8 - q -> 0 <= q < 8 -> follows 6 key k (6 * (q + 1)) -> follows 6 key (expand24 n q (6 * q) k) 52.
Proof.
  revert q k. induction n as [|n IH]; intros q k Hn Hq Hf; [lia|]. cbv beta iota delta [expand24]; fold expand24.
  follow_first 6 q. follow_copy 6 q 1. follow_copy 6 q 2. follow_copy 6 q 3.
  destruct (Z.eqb_spec (q + 1) 8) as [E|E].
  - by replace 52 with (6 * (q + 1) + (3 + 1)) by lia.
  - follow_copy 6 q 4. follow_copy 6 q 5. replace (6 * q + 6) with (6 * (q + 1)) by lia. apply IH; [lia..|].
    by replace (6 * (q + 1 + 1)) with (6 * (q + 1) + (5 + 1)) by lia.
Qed.

Lemma put_fourth key k q v :
  0 <= q -> 8 * (q + 1) + 4 < 60 -> follows 8 key k (8 * (q + 1) + 4) ->
  v = Z.lxor (at_ k (8 * q + 4)) (setup_mix (RORc (at_ k (8 * q + 11)) 8)) ->
  follows 8 key (put k (8 * q + 12) v) (8 * (q + 1) + (4 + 1)).
Proof.
  intros Hq H60 Hf ->. replace (8 * q + 12) with (8 * (q + 1) + 4) by lia. rewrite Z.add_assoc.
  apply follows_put; [nia|done|done|]. unfold next_word. rewrite step_word_4 by done. f_equal; [f_equal; lia|].
  by replace (8 * (q + 1) + 4 - 1) with (8 * q + 11) by lia.
Qed.

Lemma expand32_follows n q key k :
  Z.of_nat n = 7 - q -> 0 <= q < 7 -> follows 8 key k (8 * (q + 1)) -> follows 8 key (expand32 n q (8 * q) k) 60.
Proof.
  revert q k. induction n as [|n IH]; intros q k Hn Hq Hf; [lia|]. cbv beta iota delta [expand32]; fold expand32.
  follow_first 8 q. follow_copy 8 q 1. follow_copy 8 q 2. follow_copy 8 q 3.
  destruct (Z.eqb_spec (q + 1) 7) as [E|E].
  - by replace 60 with (8 * (q + 1) + (3 + 1)) by lia.
  - follow (fun key k v => put_fourth key k q v). follow_copy 8 q 5. follow_copy 8 q 6. follow_copy 8 q 7.
    replace (8 * q + 8) with (8 * (q + 1)) by lia. apply IH; [lia..|].
    by replace (8 * (q + 1 + 1)) with (8 * (q + 1) + (7 + 1)) by lia.
Qed.

Lemma setup_mix_word t : setup_mix t = word (sbox (byte t 2)) (sbox (byte t 1)) (sbox (byte t 0)) (sbox (byte t 3)).
Proof.
  unfold setup_mix. rewrite Te4_3_eq, Te4_2_eq, Te4_1_eq, Te4_0_eq, !at_map by apply byte_range.
  by rewrite !word_xor, ?Z.lxor_0_l, ?Z.lxor_0_r.
Qed.
Lemma setup_mix_bytes t : bytes_of (setup_mix t) = SubWord (RotWord (bytes_of t)).
Proof.
  rewrite setup_mix_word, bytes_of_word by apply sbox_byte. unfold SubWord, RotWord, bytes_of. cbn [drop take app map].
  by rewrite !SBox_sbox by apply byte_range.
Qed.

Lemma RORc_word a b c d : is_byte a -> is_byte b -> is_byte c -> is_byte d -> RORc (word a b c d) 8 = word d a b c.
Proof.
  intros Ha Hb Hc Hd. pose proof (is_word_word a b c d Ha Hb Hc Hd) as Hw. unfold RORc. change 0xFFFFFFFF with (Z.ones 32).
  rewrite (proj1 (word_land _) Hw). change (Z.land 8 31) with 8. apply Z.bits_inj'; intros i Hi.
  rewrite Z.land_spec, Z.lor_spec, Z.shiftr_spec, Z.shiftl_spec by done. change (32 - 8) with 24.
  destruct (Z_lt_ge_dec i 32); [rewrite Z.ones_spec_low by lia|rewrite Z.ones_spec_high by lia].
  - rewrite andb_true_r, (word_spec d a b c i) by lia. destruct (Z_lt_ge_dec i 24).
    + rewrite word_spec by lia. rewrite (Z.testbit_neg_r (word a b c d) (i - 24)) by lia. rewrite (Z.testbit_neg_r d (i - 24)) by lia. rewrite orb_false_r.
      rewrite (byte_high d (i + 8)) by (done || lia). replace (i + 8 - 24) with (i - 16) by lia.
      replace (i + 8 - 16) with (i - 8) by lia. replace (i + 8 - 8) with i by lia.
      by destruct (Z.testbit a _), (Z.testbit b _), (Z.testbit c _).
    + rewrite (below_high 32 _ (i + 8)) by (exact Hw || lia). rewrite word_spec by lia. bits_out. by destruct (Z.testbit d _).
  - rewrite andb_false_r. symmetry. apply (below_high 32); [lia| |lia]. by apply is_word_word.
Qed.
Lemma sub_word_bytes t : is_word t -> bytes_of (setup_mix (RORc t 8)) = SubWord (bytes_of t).
Proof.
  intros Ht. rewrite <- (word_bytes t Ht) at 1. rewrite RORc_word by apply byte_range. rewrite setup_mix_bytes.
  by rewrite bytes_of_word by apply byte_range.
Qed.

Lemma rcon_bytes j : 1 <= j <= 10 -> bytes_of (at_ rcon (j - 1)) = Rcon (Z.to_nat j).
Proof.
  intros Hj. assert (In (Z.to_nat j) (seq 1 10)) as Hin by (apply in_seq; lia).
  rewrite <- (Z2Nat.id j) at 1 by lia. revert Hin. generalize (Z.to_nat j). intros n Hin.
  assert (forallb (fun n => bool_decide (bytes_of (at_ rcon (Z.of_nat n - 1)) = Rcon n)) (seq 1 10) = true) as H by (vm_compute; reflexivity).
  by apply (proj1 (forallb_forall _ _) H n), bool_decide_eq_true in Hin.
Qed.

Lemma nth_expanded k w m i : expanded k w m -> (i < m)%nat -> nth i w [] = bytes_of (at_ k (Z.of_nat i)).
Proof. intros [_ Hw] Hi. rewrite nth_lookup, Hw by done. done. Qed.

(** The code's next word is the standard's. *)
Lemma next_word_bytes nk k w i :
  (0 < nk <= i)%nat -> (i < 11 * nk)%nat -> words k -> expanded k w i ->
  bytes_of (next_word (Z.of_nat nk) k (Z.of_nat i)) = schedule_word nk i w.
Proof.
  intros Hi Hm Hk Hw. unfold next_word, schedule_word. rewrite bytes_of_xor, !(nth_expanded k w i) by (done || lia).
  rewrite !Nat2Z.inj_sub by lia. f_equal. change (Z.of_nat 1) with 1. set (t := at_ k (Z.of_nat i - 1)). unfold step_word.
  rewrite <- Nat2Z.inj_mod. destruct (decide (i mod nk = 0)%nat) as [E|E].
  - rewrite E. change (Z.of_nat 0 =? 0) with true. cbn iota. rewrite bytes_of_xor, setup_mix_bytes. f_equal. rewrite <- Nat2Z.inj_div.
    rewrite rcon_bytes, Nat2Z.id; [done|].
    assert (1 <= i / nk)%nat by (apply Nat.div_le_lower_bound; lia).
    assert (i / nk < 11)%nat by (apply Nat.Div0.div_lt_upper_bound; lia). lia.
  - rewrite (proj2 (Z.eqb_neq _ _)) by lia. destruct (decide (6 < nk /\ i mod nk = 4)%nat) as [[H6 H4]|H].
    + rewrite H4, (proj2 (Z.ltb_lt _ _)) by lia. change (true && (Z.of_nat 4 =? 4)) with true. cbn iota. apply sub_word_bytes. apply Hk.
    + destruct (Z.ltb_spec 6 (Z.of_nat nk)); [|done]. cbn [andb]. by rewrite (proj2 (Z.eqb_neq _ _)) by lia.
Qed.

Lemma expand_expanded n i nk key k w :
  (0 < nk <= i)%nat -> (i + n <= 11 * nk)%nat -> words k -> follows (Z.of_nat nk) key k (Z.of_nat (i + n)) ->
  length w = i -> expanded k w i -> expanded k (expand n nk i w) (i + n).
Proof.
  revert i w. induction n as [|n IH]; intros i w Hi Hm Hk Hf Hl Hw; [by rewrite Nat.add_0_r|]. cbn [expand].
  replace (i + S n)%nat with (S i + n)%nat in * by lia. apply IH; [lia..|done|done| |].
  - rewrite length_app. cbn. lia.
  - split; [rewrite length_app; cbn; lia|]. intros j Hj. destruct (decide (j = i)) as [->|Hne].
    + rewrite lookup_app_r by lia. replace (i - length w)%nat with 0%nat by lia. cbn [lookup list_lookup].
      f_equal. rewrite <- (next_word_bytes nk k w i) by (done || lia). f_equal. symmetry. apply Hf. lia.
    + rewrite lookup_app_l by lia. apply Hw. lia.
Qed.

(** *** The key itself *)

Lemma load_key_next key k n : load_key key k (S n) = put (load_key key k n) (Z.of_nat n) (LOAD32H key (4 * Z.of_nat n)).
Proof. unfold load_key. by rewrite seq_S, fold_left_app. Qed.
Lemma length_load_key key k n : length (load_key key k n) = length k.
Proof. induction n as [|n IH]; [done|]. by rewrite load_key_next, length_put. Qed.

Lemma load_key_follows key k n :
  length k = 60%nat -> (n <= 8)%nat -> follows (Z.of_nat n) key (load_key key k n) (Z.of_nat n).
Proof.
  intros Hl Hn. constructor; [by rewrite length_load_key| |intros i Hi; lia]. induction n as [|n IH]; intros i Hi; [lia|].
  rewrite load_key_next, at_put by (rewrite ?length_load_key; lia). destruct (Z.eqb_spec (Z.of_nat n) i) as [<-|]; [done|].
  apply IH; lia.
Qed.

Lemma key_words_lookup nk key i : (i < nk)%nat -> key_words nk key !! i = Some (take 4 (drop (4 * i) key)).
Proof.
  revert key i. induction nk as [|nk IH]; intros key i Hi; [lia|]. destruct i as [|i]; [done|]. cbn [key_words].
  rewrite lookup_cons_ne_0 by lia. cbn [Nat.pred]. rewrite IH, drop_drop by lia. do 3 f_equal. lia.
Qed.
Lemma length_key_words nk key : length (key_words nk key) = nk.
Proof. revert key. induction nk as [|nk IH]; intros key; [done|]. cbn. by rewrite IH. Qed.

Lemma key_expanded nk key k :
  length key = (4 * nk)%nat -> Forall is_byte key -> follows (Z.of_nat nk) key k (Z.of_nat nk) -> expanded k (key_words nk key) nk.
Proof.
  intros Hl Hb Hf. split; [by rewrite length_key_words|]. intros i Hi. rewrite key_words_lookup by done. f_equal.
  rewrite (fo_key _ _ _ _ Hf) by lia.
  assert (forall j, 0 <= j < 4 -> is_byte (at_ key (4 * Z.of_nat i + j))) as Hj.
  { intros j Hj. apply (proj1 (List.Forall_forall _ _) Hb), nth_In. lia. }
  pose proof (Hj 0 ltac:(lia)) as H0. rewrite Z.add_0_r in H0.
  pose proof (Hj 1 ltac:(lia)). pose proof (Hj 2 ltac:(lia)). pose proof (Hj 3 ltac:(lia)).
  rewrite LOAD32H_word, bytes_of_word by done.
  assert (length (drop (4 * i) key) >= 4)%nat as Hd by (rewrite length_drop; lia).
  assert (forall j, nth (4 * i + j) key 0 = nth j (drop (4 * i) key) 0) as Hn by (intros j; by rewrite !nth_lookup, lookup_drop).
  unfold at_. rewrite !Z2Nat.inj_add by lia. rewrite Z2Nat.inj_mul, Nat2Z.id by lia. change (Z.to_nat 4) with 4%nat.
  change (Z.to_nat 1) with 1%nat. change (Z.to_nat 2) with 2%nat. change (Z.to_nat 3) with 3%nat.
  rewrite !Hn. rewrite <- (Nat.add_0_r (4 * i)) at 2. rewrite Hn.
  by destruct (drop (4 * i) key) as [|x0 [|x1 [|x2 [|x3 l]]]]; cbn in Hd; try lia.
Qed.

(** ** SETUP *)

(** A key object holds the schedules of [key]. *)
Record schedules (key : list Z) (k : rijndael_key) : Prop := {
  sd_scheduled : scheduled k;
  sd_rounds : Nr k = 2 * Z.of_nat (length key / 8 + 3);
  sd_expanded : expanded (eK k) (KeyExpansion key) (8 * (length key / 8 + 3) + 4)
}.

Lemma setup_follows key num_rounds skey k :
  is_key_object skey -> SETUP key (Z.of_nat (length key)) num_rounds skey = (CRYPT_OK, k) ->
  exists nk, length key = (4 * nk)%nat /\ (nk = 4 \/ nk = 6 \/ nk = 8)%nat /\ follows (Z.of_nat nk) key (eK k) (Z.of_nat (4 * (nk + 7))).
Proof.
  intros (_ & Hl & _). unfold SETUP.
  destruct (negb (Z.of_nat (length key) =? 16) && _ && _) eqn:Es; [done|].
  destruct (negb (num_rounds =? 0) && _); [done|].
  set (e := if _ =? 16 then _ else _). destruct e as [j ek] eqn:E. subst e.
  set (i := inverse_keys _ _ _ _ _). destruct i as [[dk rrk] rk]. intros [= <-]. cbn [eK]. apply (f_equal snd) in E. change (snd (j, ek)) with ek in E. rewrite <- E. clear E.
  destruct (Z.eqb_spec (Z.of_nat (length key)) 16); [|destruct (Z.eqb_spec (Z.of_nat (length key)) 24);
    [|destruct (Z.eqb_spec (Z.of_nat (length key)) 32); [|done]]]; cbn [snd].
  - exists 4%nat. split_and!; [lia|lia|]. apply (expand16_follows 10 0); [lia|lia|apply (load_key_follows key (eK skey) 4); [done|lia]].
  - exists 6%nat. split_and!; [lia|lia|]. apply (expand24_follows 8 0); [lia|lia|apply (load_key_follows key (eK skey) 6); [done|lia]].
  - exists 8%nat. split_and!; [lia|lia|]. apply (expand32_follows 7 0); [lia|lia|apply (load_key_follows key (eK skey) 8); [done|lia]].
Qed.

Lemma setup_schedules key num_rounds skey :
  key_size (Z.of_nat (length key)) -> Forall is_byte key -> is_key_object skey ->
  num_rounds = 0 \/ num_rounds = default_rounds (Z.of_nat (length key)) ->
  exists k, SETUP key (Z.of_nat (length key)) num_rounds skey = (CRYPT_OK, k) /\ schedules key k.
Proof.
  intros Hn Hkey Ho Hr. destruct (setup_scheduled key num_rounds skey) as (k & E & Hk & Hnr); [done..|]. exists k. split; [done|].
  destruct (setup_follows key num_rounds skey k Ho E) as (nk & Hl & Hnk & Hf).
  assert (length key / 8 + 3 = nk / 2 + 3 /\ 8 * (nk / 2 + 3) + 4 = nk + (4 * (nk + 7) - nk))%nat as [E8 E4].
  { rewrite Hl. destruct Hnk as [->|[->| ->]]; done. }
  constructor; [done| |].
  - rewrite Hnr, Hl. unfold default_rounds. destruct Hnk as [->|[->| ->]]; done.
  - rewrite E8, E4. unfold KeyExpansion. replace (length key / 4)%nat with nk by (rewrite Hl, Nat.mul_comm, Nat.div_mul; lia).
    destruct Hf as [F1 F2 F3]. apply (expand_expanded _ nk nk key); [lia..|apply Hk| |apply length_key_words|].
    + constructor; [done..|]. intros i Hi. apply F3. lia.
    + apply key_expanded; [done|done|]. constructor; [done|done|]. intros i Hi. lia.
Qed.

Lemma schedules_encrypt key k pt :
  key_size (Z.of_nat (length key)) -> schedules key k -> is_block pt ->
  ECB_ENC pt k = AES key pt /\ is_block (AES key pt) /\ ECB_DEC (AES key pt) k = pt.
Proof.
  intros Hn [Hs Hr He] Hpt. destruct (scheduled_inverse k pt Hs Hpt) as [Hb Hd].
  assert (ECB_ENC pt k = AES key pt) as <-; [|by split_and!]. rewrite (encrypt_standard k _ pt _ Hr) by (done || lia || apply Hs).
  unfold AES. f_equal. destruct Hn as [E|[E|E]].
  - by replace (length key) with 16%nat by lia.
  - by replace (length key) with 24%nat by lia.
  - by replace (length key) with 32%nat by lia.
Qed.

(** C17: under every key of 16, 24 or 32 bytes, whatever the key object held
    before, SETUP succeeds and yields a key under which every block is
    encrypted to what FIPS-197 says and decrypted back. *)
Theorem aes_is_fips197 key num_rounds skey :
  key_size (Z.of_nat (length key)) -> Forall is_byte key -> is_key_object skey ->
  num_rounds = 0 \/ num_rounds = default_rounds (Z.of_nat (length key)) ->
  exists k, SETUP key (Z.of_nat (length key)) num_rounds skey = (CRYPT_OK, k) /\
    forall pt, is_block pt -> ECB_ENC pt k = AES key pt /\ is_block (AES key pt) /\ ECB_DEC (AES key pt) k = pt.
Proof.
  intros Hn Hkey Ho Hr. destruct (setup_schedules key num_rounds skey) as (k & E & Hk); [done..|].
  exists k. split; [done|]. intros pt. by apply schedules_encrypt.
Qed.

Lemma aes_is_fips197_witness :
  exists k, SETUP (replicate 24 7) 24 12 {| eK := replicate 60 3; dK := replicate 60 9; Nr := 1 |} = (CRYPT_OK, k) /\
    ECB_DEC (ECB_ENC (replicate 16 5) k) k = replicate 16 5.
Proof.
  destruct (aes_is_fips197 (replicate 24 7) 12 {| eK := replicate 60 3; dK := replicate 60 9; Nr := 1 |}) as (k & E & H).
  - right; left; reflexivity.
  - repeat constructor; discriminate.
  - split; [by apply words_list; vm_compute|by split].
  - right; reflexivity.
  - exists k. split; [exact E|]. destruct (H (replicate 16 5)) as (E1 & _ & E2); [split; [done|repeat constructor; discriminate]|].
    by rewrite E1.
Defined.
