(* ===== verification/Sha256.v ===== *)
(** * SHA-256 (libtomcrypt, src/hashes/sha2/sha256.c)

    The hash with its buffer, fed in any pieces, and the reference of FIPS 180-4
    that it computes.  The build is the one without LTC_SMALL_CODE: sixty-four
    rounds are written out over eight variables that change their places. *)

From S2P Require Import Prelude AesTables Aes AesInverse.

Local Open Scope Z_scope.

(** ** The code *)

Definition Ch (x y z : Z) : Z := Z.lxor z (Z.land x (Z.lxor y z)).
Definition Maj (x y z : Z) : Z := Z.lor (Z.land (Z.lor x y) z) (Z.land x y).
Definition rotate (x n : Z) : Z := RORc x n.
Definition R (x n : Z) : Z := Z.shiftr (Z.land x 0xFFFFFFFF) n.
Definition Sigma0 (x : Z) : Z := Z.lxor (Z.lxor (rotate x 2) (rotate x 13)) (rotate x 22).
Definition Sigma1 (x : Z) : Z := Z.lxor (Z.lxor (rotate x 6) (rotate x 11)) (rotate x 25).
Definition Gamma0 (x : Z) : Z := Z.lxor (Z.lxor (rotate x 7) (rotate x 18)) (R x 3).
Definition Gamma1 (x : Z) : Z := Z.lxor (Z.lxor (rotate x 17) (rotate x 19)) (R x 10).

Definition sha256_rounds : list (Z * Z) := [
  (0, 0x428a2f98); (1, 0x71374491); (2, 0xb5c0fbcf); (3, 0xe9b5dba5);
  (4, 0x3956c25b); (5, 0x59f111f1); (6, 0x923f82a4); (7, 0xab1c5ed5);
  (8, 0xd807aa98); (9, 0x12835b01); (10, 0x243185be); (11, 0x550c7dc3);
  (12, 0x72be5d74); (13, 0x80deb1fe); (14, 0x9bdc06a7); (15, 0xc19bf174);
  (16, 0xe49b69c1); (17, 0xefbe4786); (18, 0x0fc19dc6); (19, 0x240ca1cc);
  (20, 0x2de92c6f); (21, 0x4a7484aa); (22, 0x5cb0a9dc); (23, 0x76f988da);
  (24, 0x983e5152); (25, 0xa831c66d); (26, 0xb00327c8); (27, 0xbf597fc7);
  (28, 0xc6e00bf3); (29, 0xd5a79147); (30, 0x06ca6351); (31, 0x14292967);
  (32, 0x27b70a85); (33, 0x2e1b2138); (34, 0x4d2c6dfc); (35, 0x53380d13);
  (36, 0x650a7354); (37, 0x766a0abb); (38, 0x81c2c92e); (39, 0x92722c85);
  (40, 0xa2bfe8a1); (41, 0xa81a664b); (42, 0xc24b8b70); (43, 0xc76c51a3);
  (44, 0xd192e819); (45, 0xd6990624); (46, 0xf40e3585); (47, 0x106aa070);
  (48, 0x19a4c116); (49, 0x1e376c08); (50, 0x2748774c); (51, 0x34b0bcb5);
  (52, 0x391c0cb3); (53, 0x4ed8aa4a); (54, 0x5b9cca4f); (55, 0x682e6ff3);
  (56, 0x748f82ee); (57, 0x78a5636f); (58, 0x84c87814); (59, 0x8cc70208);
  (60, 0x90befffa); (61, 0xa4506ceb); (62, 0xbef9a3f7); (63, 0xc67178f2)].
Definition sha256_K : list Z := snd <$> sha256_rounds.

Record sha256_state := { md_length : Z; state : list Z; curlen : Z; buf : list Z }.

(** [W[16..63]] after the words of the block. *)
Definition expand (W : list Z) : list Z :=
  fold_left (fun W i =>
    W ++ [to_uint (Gamma1 (at_ W (Z.of_nat i - 2)) + at_ W (Z.of_nat i - 7) + Gamma0 (at_ W (Z.of_nat i - 15)) + at_ W (Z.of_nat i - 16))])
    (seq 16 48) W.

(** [RND(S[a],...,S[h],i,ki)] *)
Definition RND (W S : list Z) (a b c d e f g h i : Z) : list Z :=
  let t0 := to_uint (at_ S h + Sigma1 (at_ S e) + Ch (at_ S e) (at_ S f) (at_ S g) + at_ sha256_K i + at_ W i) in
  let t1 := to_uint (Sigma0 (at_ S a) + Maj (at_ S a) (at_ S b) (at_ S c)) in
  let S := put S d (to_uint (at_ S d + t0)) in
  put S h (to_uint (t0 + t1)).
(** Eight lines of the sixty-four. *)
Definition rounds8 (W S : list Z) (i : Z) : list Z :=
  let S := RND W S 0 1 2 3 4 5 6 7 i in
  let S := RND W S 7 0 1 2 3 4 5 6 (i + 1) in
  let S := RND W S 6 7 0 1 2 3 4 5 (i + 2) in
  let S := RND W S 5 6 7 0 1 2 3 4 (i + 3) in
  let S := RND W S 4 5 6 7 0 1 2 3 (i + 4) in
  let S := RND W S 3 4 5 6 7 0 1 2 (i + 5) in
  let S := RND W S 2 3 4 5 6 7 0 1 (i + 6) in
  RND W S 1 2 3 4 5 6 7 0 (i + 7).
Definition rounds (W S : list Z) : list Z :=
  let S := rounds8 W S 0 in let S := rounds8 W S 8 in let S := rounds8 W S 16 in let S := rounds8 W S 24 in
  let S := rounds8 W S 32 in let S := rounds8 W S 40 in let S := rounds8 W S 48 in rounds8 W S 56.

(** [b] is the memory from [buf] on. *)
Definition sha256_compress (md : sha256_state) (b : list Z) : comp (Z * sha256_state) :=
  let* b := arr_slice b 0 64 in
  let W := expand ((fun i => LOAD32H b (4 * Z.of_nat i)) <$> seq 0 16) in
  let S := rounds W (state md) in
  let new := (fun i => to_uint (at_ (state md) (Z.of_nat i) + at_ S (Z.of_nat i))) <$> seq 0 8 in
  Ret (CRYPT_OK, {| md_length := md_length md; state := new; curlen := curlen md; buf := buf md |}).

(** What is in the structure before is [junk]. *)
Definition sha256_init (junk : sha256_state) : sha256_state :=
  {| md_length := 0; curlen := 0; buf := buf junk;
     state := [0x6A09E667; 0xBB67AE85; 0x3C6EF372; 0xA54FF53A; 0x510E527F; 0x9B05688C; 0x1F83D9AB; 0x5BE0CD19] |}.

(** HASH_PROCESS with blocks of 64 bytes: a block at a time from [inp] or
    through the buffer. *)
Fixpoint process_loop (fuel : nat) (md : sha256_state) (inp : list Z) (inlen : Z) : comp (Z * sha256_state) :=
  if inlen <=? 0 then Ret (CRYPT_OK, md)
  else
    match fuel with
    | O => Err OutOfFuel
    | S fuel =>
        if (curlen md =? 0) && (64 <=? inlen) then
          let* (err, md) := sha256_compress md inp in
          if negb (err =? CRYPT_OK) then Ret (err, md) else
          let md := {| md_length := to_ulong (md_length md + 64 * 8); state := state md; curlen := curlen md; buf := buf md |} in
          process_loop fuel md (drop 64 inp) (inlen - 64)
        else
          let n := Z.min inlen (64 - curlen md) in
          let* src := arr_slice inp 0 n in
          let* b := arr_write (buf md) (curlen md) src in
          let md := {| md_length := md_length md; state := state md; curlen := to_uint (curlen md + n); buf := b |} in
          let inp := drop (Z.to_nat n) inp in
          if curlen md =? 64 then
            let* (err, md) := sha256_compress md (buf md) in
            if negb (err =? CRYPT_OK) then Ret (err, md) else
            process_loop fuel {| md_length := to_ulong (md_length md + 8 * 64); state := state md; curlen := 0; buf := buf md |} inp (inlen - n)
          else process_loop fuel md inp (inlen - n)
    end.
Definition sha256_process (md : sha256_state) (inp : list Z) (inlen : Z) : comp (Z * sha256_state) :=
  if 64 <? curlen md then Ret (CRYPT_INVALID_ARG, md) else process_loop (Z.to_nat inlen) md inp inlen.

(** [while (curlen < to) buf[curlen++] = 0;] *)
Fixpoint zero_to (fuel : nat) (to : Z) (md : sha256_state) : comp sha256_state :=
  if to <=? curlen md then Ret md
  else
    match fuel with
    | O => Err OutOfFuel
    | S fuel =>
        let* b := arr_set (buf md) (curlen md) 0 in
        zero_to fuel to {| md_length := md_length md; state := state md; curlen := to_uint (curlen md + 1); buf := b |}
    end.

Definition STORE64H (x : Z) : list Z := (fun i => Z.land (Z.shiftr x (8 * i)) 255) <$> [7; 6; 5; 4; 3; 2; 1; 0].

(** The parts of [sha256_done]: a block is spilled when the length does not fit
    behind the bit; the last block has the length. *)
Definition spill (md : sha256_state) : comp sha256_state :=
  if 56 <? curlen md then
    let* md := zero_to 64 64 md in
    let* (_, md) := sha256_compress md (buf md) in
    Ret {| md_length := md_length md; state := state md; curlen := 0; buf := buf md |}
  else Ret md.
Definition last_block (md : sha256_state) : comp sha256_state :=
  let* md := zero_to 64 56 md in
  let* b := arr_write (buf md) 56 (STORE64H (md_length md)) in
  let* (_, md) := sha256_compress {| md_length := md_length md; state := state md; curlen := curlen md; buf := b |} b in
  Ret md.
(** The result, the state and what is written to [out]. *)
Definition sha256_done (md : sha256_state) : comp (Z * sha256_state * list Z) :=
  if 64 <=? curlen md then Ret (CRYPT_INVALID_ARG, md, [])
  else
    let len := to_ulong (md_length md + to_uint (curlen md * 8)) in
    let* b := arr_set (buf md) (curlen md) 0x80 in
    let* md := spill {| md_length := len; state := state md; curlen := to_uint (curlen md + 1); buf := b |} in
    let* md := last_block md in
    Ret (CRYPT_OK, md, mjoin ((fun i => STORE32H (at_ (state md) (Z.of_nat i))) <$> seq 0 8)).

(** ** FIPS 180-4 *)

Definition add32 (x y : Z) : Z := (x + y) mod 2 ^ 32.
Definition ROTR (n x : Z) : Z := Z.lor (Z.shiftr x n) (Z.shiftl x (32 - n) mod 2 ^ 32).
Definition SHR (n x : Z) : Z := Z.shiftr x n.
Definition fips_Ch (x y z : Z) : Z := Z.lxor (Z.land x y) (Z.ldiff z x).
Definition fips_Maj (x y z : Z) : Z := Z.lxor (Z.lxor (Z.land x y) (Z.land x z)) (Z.land y z).
Definition big_sigma0 (x : Z) : Z := Z.lxor (Z.lxor (ROTR 2 x) (ROTR 13 x)) (ROTR 22 x).
Definition big_sigma1 (x : Z) : Z := Z.lxor (Z.lxor (ROTR 6 x) (ROTR 11 x)) (ROTR 25 x).
Definition small_sigma0 (x : Z) : Z := Z.lxor (Z.lxor (ROTR 7 x) (ROTR 18 x)) (SHR 3 x).
Definition small_sigma1 (x : Z) : Z := Z.lxor (Z.lxor (ROTR 17 x) (ROTR 19 x)) (SHR 10 x).

(** The first 32 bits of the fractions of the cube roots of the first 64
    primes, and of the square roots of the first eight. *)
Definition primes : list Z :=
  filter (fun p => forallb (fun d => negb (p mod d =? 0)) (filter (fun d => d < p) (seqZ 2 310))) (seqZ 2 310).
Definition cube_root (x : Z) : Z :=
  fold_left (fun r k => let r' := r + Z.shiftl 1 k in if r' * r' * r' <=? x then r' else r) (rev (seqZ 0 40)) 0.
Definition fips_K : list Z := (fun p => cube_root (Z.shiftl p 96) mod 2 ^ 32) <$> primes.
Definition fips_H0 : list Z := (fun p => Z.sqrt (Z.shiftl p 64) mod 2 ^ 32) <$> take 8 primes.

(** The message is padded to blocks of 512 bits. *)
Definition be64 (x : Z) : list Z := (fun i => (x / 2 ^ (8 * i)) mod 256) <$> [7; 6; 5; 4; 3; 2; 1; 0].
Definition pad_message (m : list Z) : list Z :=
  m ++ 0x80 :: replicate (Z.to_nat ((55 - Z.of_nat (length m)) mod 64)) 0 ++ be64 (8 * Z.of_nat (length m)).

Definition fips_word (block : list Z) (t : nat) : Z :=
  word (at_ block (4 * Z.of_nat t)) (at_ block (4 * Z.of_nat t + 1)) (at_ block (4 * Z.of_nat t + 2)) (at_ block (4 * Z.of_nat t + 3)).
(** The schedule, from its first [n] words. *)
Fixpoint schedule (block : list Z) (n : nat) : list Z :=
  match n with
  | O => []
  | S t =>
      let W := schedule block t in
      W ++ [if (t <? 16)%nat then fips_word block t
            else add32 (add32 (add32 (small_sigma1 (at_ W (Z.of_nat t - 2))) (at_ W (Z.of_nat t - 7))) (small_sigma0 (at_ W (Z.of_nat t - 15))))
                   (at_ W (Z.of_nat t - 16))]
  end.

Definition working : Type := Z * Z * Z * Z * Z * Z * Z * Z.
Definition fips_round (k w : Z) (s : working) : working :=
  let '(a, b, c, d, e, f, g, h) := s in
  let T1 := add32 (add32 (add32 (add32 h (big_sigma1 e)) (fips_Ch e f g)) k) w in
  let T2 := add32 (big_sigma0 a) (fips_Maj a b c) in
  (add32 T1 T2, a, b, c, add32 d T1, e, f, g).
Definition working_of (H : list Z) : working := (at_ H 0, at_ H 1, at_ H 2, at_ H 3, at_ H 4, at_ H 5, at_ H 6, at_ H 7).
Definition words_of (s : working) : list Z := let '(a, b, c, d, e, f, g, h) := s in [a; b; c; d; e; f; g; h].
Definition fips_block (H block : list Z) : list Z :=
  let W := schedule block 64 in
  zip_with add32 (words_of (fold_left (fun s kw => fips_round kw.1 kw.2 s) (zip fips_K W) (working_of H))) H.

(** The first [n] blocks of a message. *)
Fixpoint fips_blocks (n : nat) (H m : list Z) : list Z :=
  match n with
  | O => H
  | S n => fips_blocks n (fips_block H (take 64 m)) (drop 64 m)
  end.
Definition SHA256 (m : list Z) : list Z :=
  let m := pad_message m in
  mjoin ((fun w => [byte w 3; byte w 2; byte w 1; byte w 0]) <$> fips_blocks (length m / 64) fips_H0 m).

(** ** The constants *)

Lemma fips_K_eq : fips_K = sha256_K.
Proof. by vm_compute. Qed.
Lemma fips_H0_eq junk : state (sha256_init junk) = fips_H0.
Proof. by vm_compute. Qed.
Example sha256_abc : SHA256 [97; 98; 99] =
  [0xba; 0x78; 0x16; 0xbf; 0x8f; 0x01; 0xcf; 0xea; 0x41; 0x41; 0x40; 0xde; 0x5d; 0xae; 0x22; 0x23;
   0xb0; 0x03; 0x61; 0xa3; 0x96; 0x17; 0x7a; 0x9c; 0xb4; 0x10; 0xff; 0x61; 0xf2; 0x00; 0x15; 0xad].
Proof. by vm_compute. Qed.

(** ** The operations agree on words *)

Ltac bitwise := let i := fresh "i" in apply Z.bits_inj'; intros i ?;
  rewrite ?Z.lxor_spec, ?Z.land_spec, ?Z.lor_spec, ?Z.ldiff_spec, ?Z.lxor_spec, ?Z.land_spec, ?Z.lor_spec, ?Z.lxor_spec;
  repeat match goal with |- context [Z.testbit ?x i] => destruct (Z.testbit x i) end; done.

Lemma Ch_fips x y z : Ch x y z = fips_Ch x y z.
Proof. unfold Ch, fips_Ch. bitwise. Qed.
Lemma Maj_fips x y z : Maj x y z = fips_Maj x y z.
Proof. unfold Maj, fips_Maj. bitwise. Qed.

Lemma land_mask x : is_word x -> Z.land x 0xFFFFFFFF = x.
Proof. intros Hx. change 0xFFFFFFFF with (Z.ones 32). by apply word_land. Qed.
Lemma shiftr_word x n : is_word x -> 0 <= n -> is_word (Z.shiftr x n).
Proof.
  unfold is_word. intros Hx Hn. rewrite Z.shiftr_div_pow2 by done. split; [apply Z.div_pos; lia|].
  apply Z.div_lt_upper_bound; [lia|]. nia.
Qed.

Lemma rotate_fips x n : is_word x -> 0 < n < 32 -> rotate x n = ROTR n x.
Proof.
  intros Hx Hn. unfold rotate, RORc, ROTR. rewrite (land_mask x) by done. change 31 with (Z.ones 5). rewrite (Z.land_ones n 5), (Z.mod_small n) by lia.
  change 0xFFFFFFFF with (Z.ones 32). rewrite Z.land_lor_distr_l, (Z.land_ones (Z.shiftl _ _)) by lia. f_equal.
  apply word_land. apply shiftr_word; [done|lia].
Qed.
Lemma R_fips x n : is_word x -> R x n = SHR n x.
Proof. intros Hx. unfold R, SHR. by rewrite land_mask. Qed.

Lemma Sigma0_fips x : is_word x -> Sigma0 x = big_sigma0 x.
Proof. intros Hx. unfold Sigma0, big_sigma0. by rewrite !rotate_fips by (done || lia). Qed.
Lemma Sigma1_fips x : is_word x -> Sigma1 x = big_sigma1 x.
Proof. intros Hx. unfold Sigma1, big_sigma1. by rewrite !rotate_fips by (done || lia). Qed.
Lemma Gamma0_fips x : is_word x -> Gamma0 x = small_sigma0 x.
Proof. intros Hx. unfold Gamma0, small_sigma0. by rewrite !rotate_fips, R_fips by (done || lia). Qed.
Lemma Gamma1_fips x : is_word x -> Gamma1 x = small_sigma1 x.
Proof. intros Hx. unfold Gamma1, small_sigma1. by rewrite !rotate_fips, R_fips by (done || lia). Qed.

Lemma to_uint_add x y : to_uint (x + y) = add32 (to_uint x) y.
Proof. unfold add32, to_uint. change 4294967296 with (2 ^ 32). by rewrite Zplus_mod_idemp_l. Qed.
Lemma add32_word x y : is_word (add32 x y).
Proof. apply Z.mod_pos_bound. lia. Qed.
Lemma sum4 a b c d : to_uint (a + b + c + d) = add32 (add32 (add32 a b) c) d.
Proof. by rewrite !(to_uint_add (_ + _)). Qed.
Lemma sum5 a b c d e : to_uint (a + b + c + d + e) = add32 (add32 (add32 (add32 a b) c) d) e.
Proof. by rewrite !(to_uint_add (_ + _)). Qed.

(** ** The schedule *)

Definition all_words (l : list Z) : Prop := Forall is_word l.
Lemma at_words l i : all_words l -> is_word (at_ l i).
Proof.
  intros Hl. unfold at_. destruct (decide (Z.to_nat i < length l)%nat) as [H|H].
  - by apply (Forall_nth is_word 0 l).
  - rewrite nth_overflow by lia. by vm_compute.
Qed.

Section block.
Variable block : list Z.
Hypothesis Hblock : Forall is_byte block.

Lemma at_byte l i : Forall is_byte l -> is_byte (at_ l i).
Proof using.
  clear Hblock. intros Hl. unfold at_. destruct (decide (Z.to_nat i < length l)%nat) as [H|H].
  - by apply (Forall_nth is_byte 0 l).
  - rewrite nth_overflow by lia. by vm_compute.
Qed.

Lemma schedule_words n : all_words (schedule block n).
Proof using Hblock.
  induction n as [|n IH]; cbn [schedule]; [constructor|]. apply Forall_app. split; [done|]. constructor; [|constructor].
  destruct (n <? 16)%nat; [|apply add32_word]. unfold fips_word. apply is_word_word; by apply at_byte.
Qed.
Lemma schedule_16 n : (n <= 16)%nat -> (fun i => LOAD32H block (4 * Z.of_nat i)) <$> seq 0 n = schedule block n.
Proof using Hblock.
  induction n as [|n IH]; intros Hn; [done|]. rewrite seq_S, fmap_app, IH by lia. cbn [schedule]. rewrite (proj2 (Nat.ltb_lt _ _)) by lia.
  f_equal. cbn [fmap list_fmap]. by rewrite LOAD32H_word by by apply at_byte.
Qed.
Lemma schedule_S t : (16 <= t)%nat -> schedule block (S t) = schedule block t ++
  [add32 (add32 (add32 (small_sigma1 (at_ (schedule block t) (Z.of_nat t - 2))) (at_ (schedule block t) (Z.of_nat t - 7)))
     (small_sigma0 (at_ (schedule block t) (Z.of_nat t - 15)))) (at_ (schedule block t) (Z.of_nat t - 16))].
Proof using. clear Hblock. intros Ht. cbn [schedule]. by rewrite (proj2 (Nat.ltb_ge _ _)) by lia. Qed.
Lemma expand_schedule : expand ((fun i => LOAD32H block (4 * Z.of_nat i)) <$> seq 0 16) = schedule block 64.
Proof using Hblock.
  rewrite schedule_16 by done. unfold expand. change 64%nat with (16 + 48)%nat. generalize 48%nat as k. induction k as [|k IH]; [by rewrite Nat.add_0_r|].
  rewrite seq_S, fold_left_app, IH, Nat.add_succ_r, schedule_S by lia. cbn [fold_left].
  pose proof (schedule_words (16 + k)) as Hw. by rewrite sum4, Gamma0_fips, Gamma1_fips by (by apply at_words).
Qed.
End block.

(** ** Rounds *)


(** ** Rounds *)

(** The variables in the places [a] to [h]. *)
Definition pick (S : list Z) (a b c d e f g h : Z) : working :=
  (at_ S a, at_ S b, at_ S c, at_ S d, at_ S e, at_ S f, at_ S g, at_ S h).

Definition eight_words (S : list Z) : Prop := length S = 8%nat /\ all_words S.

Lemma RND_round W S a b c d e f g h i : eight_words S ->
  NoDup [a; b; c; d; e; f; g; h] -> Forall (fun x => 0 <= x < 8) [a; b; c; d; e; f; g; h] ->
  eight_words (RND W S a b c d e f g h i)
  /\ pick (RND W S a b c d e f g h i) h a b c d e f g = fips_round (at_ sha256_K i) (at_ W i) (pick S a b c d e f g h).
Proof.
  intros [Hl Hw] Hn Hr. repeat (apply NoDup_cons in Hn as [? Hn]). repeat (apply Forall_cons in Hr as [? Hr]). unfold eight_words, RND.
  split.
  - split; [unfold put; by rewrite !length_insert|]. unfold put. apply Forall_insert; [apply Forall_insert; [done|]|]; apply add32_word.
  - assert (forall x, x <> d -> x <> h -> 0 <= x < 8 -> forall v w, at_ (put (put S d v) h w) x = at_ S x) as Hother.
    { intros x Hd Hh Hx v w. rewrite !at_put by (rewrite ?length_put; lia). by rewrite !(proj2 (Z.eqb_neq _ _)) by done. }
    assert (forall v w, at_ (put (put S d v) h w) h = w) as Hh by (intros v w; rewrite at_put by (rewrite ?length_put; lia); by rewrite Z.eqb_refl).
    assert (h <> d) as Hhd by set_solver.
    assert (forall v w, at_ (put (put S d v) h w) d = v) as Hd.
    { intros v w. rewrite !at_put by (rewrite ?length_put; lia). by rewrite (proj2 (Z.eqb_neq _ _)), Z.eqb_refl. }
    repeat match goal with H : _ ∉ _ :: _ |- _ => apply not_elem_of_cons in H as [? H] end.
    unfold pick, fips_round. rewrite Hh, Hd, !Hother by (done || congruence).
    rewrite sum5, Maj_fips, Ch_fips, Sigma0_fips, Sigma1_fips by (by apply at_words). done.
Qed.

Definition next_round (W : list Z) (i : Z) (s : working) : working := fips_round (at_ sha256_K i) (at_ W i) s.

Lemma rounds8_ok W S i : eight_words S ->
  eight_words (rounds8 W S i)
  /\ working_of (rounds8 W S i) = fold_left (fun s j => next_round W (i + Z.of_nat j) s) (seq 0 8) (working_of S).
Proof.
  intros H0. unfold rounds8. set (S1 := RND W S 0 1 2 3 4 5 6 7 i). set (S2 := RND W S1 7 0 1 2 3 4 5 6 (i + 1)). set (S3 := RND W S2 6 7 0 1 2 3 4 5 (i + 2)).
  set (S4 := RND W S3 5 6 7 0 1 2 3 4 (i + 3)). set (S5 := RND W S4 4 5 6 7 0 1 2 3 (i + 4)). set (S6 := RND W S5 3 4 5 6 7 0 1 2 (i + 5)).
  set (S7 := RND W S6 2 3 4 5 6 7 0 1 (i + 6)).
  assert (forall S a b c d e f g h, eight_words S ->
    bool_decide (NoDup [a; b; c; d; e; f; g; h] /\ Forall (fun x => 0 <= x < 8) [a; b; c; d; e; f; g; h]) = true -> forall j,
    eight_words (RND W S a b c d e f g h j)
    /\ pick (RND W S a b c d e f g h j) h a b c d e f g = next_round W j (pick S a b c d e f g h)) as Hround.
  { intros S' a b c d e f g h HS [Hn Hr]%bool_decide_eq_true j. by apply RND_round. }
  destruct (Hround S 0 1 2 3 4 5 6 7 H0 eq_refl i) as [H1 E1]. destruct (Hround S1 7 0 1 2 3 4 5 6 H1 eq_refl (i + 1)) as [H2 E2].
  destruct (Hround S2 6 7 0 1 2 3 4 5 H2 eq_refl (i + 2)) as [H3 E3]. destruct (Hround S3 5 6 7 0 1 2 3 4 H3 eq_refl (i + 3)) as [H4 E4].
  destruct (Hround S4 4 5 6 7 0 1 2 3 H4 eq_refl (i + 4)) as [H5 E5]. destruct (Hround S5 3 4 5 6 7 0 1 2 H5 eq_refl (i + 5)) as [H6 E6].
  destruct (Hround S6 2 3 4 5 6 7 0 1 H6 eq_refl (i + 6)) as [H7 E7]. destruct (Hround S7 1 2 3 4 5 6 7 0 H7 eq_refl (i + 7)) as [H8 E8].
  split; [done|]. cbn [seq fold_left]. rewrite Z.add_0_r. change (working_of S) with (pick S 0 1 2 3 4 5 6 7).
  change (working_of (RND W S7 1 2 3 4 5 6 7 0 (i + 7))) with (pick (RND W S7 1 2 3 4 5 6 7 0 (i + 7)) 0 1 2 3 4 5 6 7).
  rewrite E8. unfold S7 in *. rewrite E7. unfold S6. rewrite E6. unfold S5. rewrite E5. unfold S4. rewrite E4. unfold S3. rewrite E3. unfold S2. rewrite E2. unfold S1. by rewrite E1.
Qed.

Lemma rounds_ok W S : eight_words S ->
  eight_words (rounds W S) /\ working_of (rounds W S) = fold_left (fun s j => next_round W (Z.of_nat j) s) (seq 0 64) (working_of S).
Proof.
  intros H0. unfold rounds.
  assert (forall i S, eight_words S -> eight_words (rounds8 W S (Z.of_nat i)) /\
    fold_left (fun s j => next_round W (Z.of_nat j) s) (seq i 8) (working_of S) = working_of (rounds8 W S (Z.of_nat i))) as H.
  { intros i S' H. destruct (rounds8_ok W S' (Z.of_nat i) H) as [H' ->]. split; [done|]. rewrite <- (Nat.add_0_r i) at 1. rewrite <- fmap_add_seq.
    cbn [seq fmap list_fmap fold_left]. by rewrite !Nat2Z.inj_add. }
  change (seq 0 64) with (seq 0 8 ++ seq 8 8 ++ seq 16 8 ++ seq 24 8 ++ seq 32 8 ++ seq 40 8 ++ seq 48 8 ++ seq 56 8).
  rewrite !fold_left_app.
  destruct (H 0%nat S H0) as [H1 ->]. destruct (H 8%nat _ H1) as [H2 ->]. destruct (H 16%nat _ H2) as [H3 ->]. destruct (H 24%nat _ H3) as [H4 ->].
  destruct (H 32%nat _ H4) as [H5 ->]. destruct (H 40%nat _ H5) as [H6 ->]. destruct (H 48%nat _ H6) as [H7 ->]. destruct (H 56%nat _ H7) as [H8 ->].
  by split.
Qed.

(** ** Blocks *)

Lemma fold_zip {A} (f : Z -> Z -> A -> A) (K W : list Z) s : length K = length W ->
  fold_left (fun s kw => f kw.1 kw.2 s) (zip K W) s = fold_left (fun s j => f (at_ K (Z.of_nat j)) (at_ W (Z.of_nat j)) s) (seq 0 (length W)) s.
Proof.
  revert K s. induction W as [|w W IH] using rev_ind; intros K s Hl; [by destruct K|]. rewrite length_app in *. cbn [length] in *.
  destruct K as [|k K _] using rev_ind; [cbn in Hl; lia|]. rewrite length_app in Hl. cbn [length] in Hl.
  rewrite zip_with_app by lia. rewrite Nat.add_1_r, seq_S, !fold_left_app, IH by lia. cbn [zip_with fold_left Nat.add fst snd].
  assert (forall l (x : Z) j, (j < length l)%nat -> at_ (l ++ [x]) (Z.of_nat j) = at_ l (Z.of_nat j)) as Ha.
  { intros l x j Hj. unfold at_. rewrite Nat2Z.id. by apply app_nth1. }
  assert (forall l (x : Z) n, n = length l -> at_ (l ++ [x]) (Z.of_nat n) = x) as Hx.
  { intros l x n ->. unfold at_. rewrite Nat2Z.id. apply nth_middle. }
  rewrite !Hx by lia. f_equal.
  assert (forall n s, (n <= length W)%nat -> fold_left (fun s j => f (at_ K (Z.of_nat j)) (at_ W (Z.of_nat j)) s) (seq 0 n) s =
    fold_left (fun s j => f (at_ (K ++ [k]) (Z.of_nat j)) (at_ (W ++ [w]) (Z.of_nat j)) s) (seq 0 n) s) as Hn; [|by apply Hn].
  induction n as [|n IHn]; intros s' Hn; [done|]. rewrite seq_S, !fold_left_app, IHn by lia. cbn [fold_left Nat.add]. by rewrite !Ha by lia.
Qed.

Lemma eight_words_of st : eight_words st -> exists a b c d e f g h, st = [a; b; c; d; e; f; g; h].
Proof. intros [Hl _]. do 9 (destruct st as [|? st]; try (cbn in Hl; lia)). by repeat eexists. Qed.

Lemma length_schedule block n : length (schedule block n) = n.
Proof. induction n as [|n IH]; cbn [schedule]; [done|]. rewrite length_app, IH. cbn. lia. Qed.

Lemma compress_ok md b k : length b = 64%nat -> Forall is_byte b -> eight_words (state md) ->
  sha256_compress md (b ++ k) =
    Ret (CRYPT_OK, {| md_length := md_length md; state := fips_block (state md) b; curlen := curlen md; buf := buf md |})
  /\ eight_words (fips_block (state md) b).
Proof.
  intros Hb Hbytes Hst. pose proof (arr_slice_app [] b k 0 64 eq_refl ltac:(lia)) as E. unfold sha256_compress. cbn [app] in E. rewrite E. cbn [mbind comp_bind].
  rewrite expand_schedule by done. destruct (rounds_ok (schedule b 64) (state md) Hst) as [Hr Er].
  unfold fips_block. rewrite fips_K_eq, (fold_zip fips_round), length_schedule by (by rewrite length_schedule).
  unfold next_round in Er. rewrite <- Er. clear E Er. destruct (eight_words_of _ Hr) as (b0 & b1 & b2 & b3 & b4 & b5 & b6 & b7 & ->).
  destruct (eight_words_of _ Hst) as (a0 & a1 & a2 & a3 & a4 & a5 & a6 & a7 & ->). split.
  - do 3 f_equal. cbv [at_ seq fmap list_fmap Z.of_nat Z.to_nat nth working_of words_of zip_with Pos.of_succ_nat Pos.succ Pos.to_nat Pos.iter_op Nat.add].
    unfold add32. by rewrite !(Z.add_comm a0), !(Z.add_comm a1), !(Z.add_comm a2), !(Z.add_comm a3), !(Z.add_comm a4), !(Z.add_comm a5), !(Z.add_comm a6), !(Z.add_comm a7).
  - split; [done|]. unfold all_words. cbn [words_of working_of zip_with]. repeat constructor; try apply add32_word; apply Z.mod_pos_bound; lia.
Qed.

Lemma length_SHA256 m : length (SHA256 m) = 32%nat.
Proof.
  assert (forall n H m, length H = 8%nat -> length (fips_blocks n H m) = 8%nat) as Hb.
  { induction n as [|n IH]; intros H m' Hl; [done|]. cbn [fips_blocks]. apply IH. unfold fips_block. rewrite length_zip_with, Hl.
    by destruct (fold_left _ _ _) as [[[[[[[a b] c] d] e] f] g] h]. }
  unfold SHA256. cbv zeta. specialize (Hb (length (pad_message m) / 64)%nat fips_H0 (pad_message m) eq_refl).
  destruct (fips_blocks _ _ _) as [|w0 l]; [done|]. do 8 (destruct l as [|? l]; try (cbn in Hb; lia)). done.
Qed.

#[local] Opaque fips_block fips_H0.

Lemma fips_blocks_app n k H m1 m2 : length m1 = (64 * n)%nat ->
  fips_blocks (n + k) H (m1 ++ m2) = fips_blocks k (fips_blocks n H m1) m2.
Proof.
  revert H m1. induction n as [|n IH]; intros H m1 Hl; [destruct m1; [done|cbn in Hl; lia]|]. cbn [Nat.add fips_blocks].
  assert (take 64 (m1 ++ m2) = take 64 m1) as -> by (apply take_app_le; lia). assert (drop 64 (m1 ++ m2) = drop 64 m1 ++ m2) as -> by (apply drop_app_le; lia).
  apply IH. rewrite length_drop. lia.
Qed.
Lemma fips_blocks_snoc n H m b : length m = (64 * n)%nat -> length b = 64%nat ->
  fips_blocks (S n) H (m ++ b) = fips_block (fips_blocks n H m) b.
Proof.
  intros Hm Hb. rewrite <- Nat.add_1_r, fips_blocks_app by done. cbn [fips_blocks]. assert (take 64 b = b) as -> by (apply take_ge; lia). reflexivity.
Qed.

(** The state after the bytes [m]: whole blocks are compressed, the rest is in
    the buffer. *)
Record hashed (md : sha256_state) (n : nat) (full rest : list Z) : Prop := {
  h_full : length full = (64 * n)%nat;
  h_rest : (length rest < 64)%nat;
  h_curlen : curlen md = Z.of_nat (length rest);
  h_buf : take (length rest) (buf md) = rest;
  h_size : length (buf md) = 64%nat;
  h_state : state md = fips_blocks n fips_H0 full;
  h_words : eight_words (state md);
  h_length : md_length md = to_ulong (8 * Z.of_nat (length full))
}.

Lemma hashed_init junk : length (buf junk) = 64%nat -> hashed (sha256_init junk) 0 [] [].
Proof.
  intros Hb. constructor; try done; [cbn; lia|]. split; [done|]. repeat constructor; by vm_compute.
Qed.

Lemma to_ulong_add x y : to_ulong (to_ulong x + y) = to_ulong (x + y).
Proof. unfold to_ulong. apply Zplus_mod_idemp_l. Qed.

(** One block more is compressed. *)
Lemma hashed_block md n full rest b len cl bu : hashed md n full rest -> length b = 64%nat -> md_length md = len -> cl = 0 -> length bu = 64%nat ->
  eight_words (fips_block (state md) b) ->
  hashed {| md_length := to_ulong (len + 512); state := fips_block (state md) b; curlen := cl; buf := bu |} (S n) (full ++ b) [].
Proof.
  intros [H1 H2 H3 H4 H5 H6 H7 H8] Hb <- -> Hbu Hw. constructor; cbn [md_length state curlen buf];
    [|cbn; lia|done|done|done| |exact Hw|].
  - rewrite length_app. lia.
  - rewrite fips_blocks_snoc by done. rewrite H6. reflexivity.
  - rewrite H8, to_ulong_add, length_app. f_equal. lia.
Qed.

Lemma process_loop_ok fuel : forall md n full rest inp mem, hashed md n full rest -> Forall is_byte rest -> Forall is_byte inp ->
  (length inp <= fuel)%nat ->
  exists md' n' full' rest', process_loop fuel md (inp ++ mem) (Z.of_nat (length inp)) = Ret (CRYPT_OK, md')
    /\ hashed md' n' full' rest' /\ full' ++ rest' = full ++ rest ++ inp.
Proof.
  induction fuel as [|fuel IH]; intros md n full rest inp mem Hh Hrb Hib Hf.
  { destruct inp; [|cbn in Hf; lia]. exists md, n, full, rest. rewrite app_nil_r. by split_and!. }
  destruct inp as [|x0 inp0] eqn:Ei; [exists md, n, full, rest; rewrite app_nil_r; by split_and!|]. rewrite <- Ei in *.
  assert (0 < length inp)%nat as Hpos by (rewrite Ei; cbn; lia). clear Ei x0 inp0. pose proof Hh as [H1 H2 H3 H4 H5 H6 H7 H8].
  cbn [process_loop]. rewrite (proj2 (Z.leb_gt _ _)) by lia. rewrite H3. destruct ((Z.of_nat (length rest) =? 0) && (64 <=? Z.of_nat (length inp))) eqn:E.
  - apply andb_prop in E as [E1%Z.eqb_eq E2%Z.leb_le]. destruct rest; [|cbn in E1; lia].
    rewrite <- (take_drop 64 inp), <- app_assoc. destruct (compress_ok md (take 64 inp) (drop 64 inp ++ mem)) as [-> Hw]; [rewrite length_take; lia|by apply Forall_take|done|].
    cbn [mbind comp_bind]. change (CRYPT_OK =? CRYPT_OK) with true. cbn [negb md_length state curlen buf].
    assert (drop 64 (take 64 inp ++ drop 64 inp ++ mem) = drop 64 inp ++ mem) as -> by (apply drop_app_length_eq; rewrite length_take; lia). rewrite length_app.
    replace (Z.of_nat (length (take 64 inp) + length (drop 64 inp)) - 64) with (Z.of_nat (length (drop 64 inp))) by (rewrite length_take, length_drop; lia).
    change (64 * 8) with 512.
    pose proof (hashed_block md n full [] (take 64 inp) (md_length md) (curlen md) (buf md) Hh ltac:(rewrite length_take; lia) eq_refl H3 H5 Hw) as Hh'.
    destruct (IH _ _ _ _ (drop 64 inp) mem Hh') as (md' & n' & full' & rest' & -> & Hh2 & Eq); [constructor|by apply Forall_drop|rewrite length_drop; lia|].
    exists md', n', full', rest'. split_and!; [done|done|]. rewrite Eq. by rewrite <- app_assoc.
  - set (k := Nat.min (length inp) (64 - length rest)). assert (0 < k)%nat as Hk by lia.
    replace (Z.min (Z.of_nat (length inp)) (64 - Z.of_nat (length rest))) with (Z.of_nat k) by lia.
    assert (arr_slice (inp ++ mem) 0 (Z.of_nat k) = Ret (take k inp)) as ->.
    { rewrite <- (take_drop k inp) at 1. rewrite <- app_assoc. apply (arr_slice_app [] (take k inp)); [done|]. rewrite length_take. lia. }
    cbn [mbind comp_bind]. rewrite <- (take_drop (length rest) (buf md)). rewrite H4.
    rewrite (arr_write_hole rest) by (done || rewrite length_drop, length_take; lia). cbn [mbind comp_bind md_length state curlen buf].
    rewrite Nat2Z.id, drop_app_le by lia. unfold to_uint. rewrite Z.mod_small by lia. rewrite length_take.
    replace (Nat.min k (length inp)) with k by lia.
    set (tl := drop k (drop (length rest) (buf md))). assert (length tl = 64 - length rest - k)%nat as Htl by (unfold tl; rewrite !length_drop; lia).
    assert (Z.of_nat (length inp) - Z.of_nat k = Z.of_nat (length (drop k inp))) as -> by (rewrite length_drop; lia).
    assert (length (take k inp) = k) as Hlk by (rewrite length_take; lia).
    destruct (Z.eqb_spec (Z.of_nat (length rest) + Z.of_nat k) 64) as [E64|E64].
    + destruct tl; [|cbn in Htl; lia]. rewrite app_nil_r.
      set (md1 := {| md_length := md_length md; state := state md; curlen := _; buf := _ |}).
      destruct (compress_ok md1 (rest ++ take k inp) []) as [Ec Hw]; [rewrite length_app, Hlk; lia|by apply Forall_app; split; [|apply Forall_take]|done|].
      rewrite app_nil_r in Ec. rewrite Ec. cbn [mbind comp_bind md_length state curlen buf md1]. change (CRYPT_OK =? CRYPT_OK) with true. cbn [negb]. change (8 * 64) with 512.
      pose proof (hashed_block md n full rest (rest ++ take k inp) (md_length md) 0 (rest ++ take k inp) Hh) as Hh'.
      destruct (IH _ _ _ _ (drop k inp) mem (Hh' ltac:(rewrite length_app, Hlk; lia) eq_refl eq_refl ltac:(rewrite length_app, Hlk; lia) Hw)) as (md' & n' & full' & rest' & -> & Hh2 & Eq);
        [constructor|by apply Forall_drop|rewrite length_drop; lia|].
      exists md', n', full', rest'. split_and!; [done|done|]. rewrite Eq, <- !app_assoc. cbn [app]. by rewrite take_drop.
    + assert (hashed {| md_length := md_length md; state := state md; curlen := Z.of_nat (length rest) + Z.of_nat k; buf := rest ++ take k inp ++ tl |} n full (rest ++ take k inp)) as Hh'.
      { constructor; cbn [md_length state curlen buf]; [done|rewrite length_app; lia|rewrite length_app; lia| | |exact H6|exact H7|exact H8].
        - rewrite app_assoc. by apply take_app_length_eq.
        - rewrite !length_app. lia. }
      destruct (IH _ _ _ _ (drop k inp) mem Hh') as (md' & n' & full' & rest' & -> & Hh2 & Eq);
        [by apply Forall_app; split; [|apply Forall_take]|by apply Forall_drop|rewrite length_drop; lia|].
      exists md', n', full', rest'. split_and!; [done|done|]. by rewrite Eq, <- !app_assoc, take_drop.
Qed.

(** ** The last blocks *)

Lemma zero_to_ok fuel (to : nat) (z : Z) : z = Z.of_nat to -> forall a h len st, (length a <= to)%nat -> (to <= length (a ++ h))%nat -> Z.of_nat to < 2 ^ 32 -> (to - length a <= fuel)%nat ->
  zero_to fuel z {| md_length := len; state := st; curlen := Z.of_nat (length a); buf := a ++ h |} =
  Ret {| md_length := len; state := st; curlen := z; buf := a ++ replicate (to - length a) 0 ++ drop (to - length a) h |}.
Proof.
  intros ->. induction fuel as [|fuel IH]; intros a h len st Ha Hto Hw Hf; cbn [zero_to curlen md_length state buf].
  - rewrite (proj2 (Z.leb_le _ _)) by lia. assert (to = length a) as -> by lia. by rewrite Nat.sub_diag.
  - destruct (Z.leb_spec (Z.of_nat to) (Z.of_nat (length a))) as [Hle|Hlt].
    + assert (to = length a) as -> by lia. by rewrite Nat.sub_diag.
    + rewrite length_app in Hto. destruct h as [|x h]; [cbn in Hto; lia|]. rewrite arr_set_app by done. cbn [mbind comp_bind].
      unfold to_uint. rewrite Z.mod_small by lia. cbn [length] in Hto.
      replace (Z.of_nat (length a) + 1) with (Z.of_nat (length (a ++ [0]))) by (rewrite length_app; cbn; lia).
      replace (a ++ 0 :: h) with ((a ++ [0]) ++ h) by by rewrite <- app_assoc.
      rewrite IH by (rewrite ?length_app; cbn [length]; lia). rewrite length_app. cbn [length].
      replace (to - length a)%nat with (S (to - (length a + 1))) by lia. by rewrite <- app_assoc.
Qed.

Lemma STORE64H_be64 x : STORE64H x = be64 x.
Proof.
  unfold STORE64H, be64. apply list_fmap_ext. intros i y Hy. change 255 with (Z.ones 8). rewrite Z.land_ones, Z.shiftr_div_pow2; [done| |lia].
  apply list_elem_of_lookup_2 in Hy. repeat (apply elem_of_cons in Hy as [->|Hy]; [lia|]). by apply elem_of_nil in Hy.
Qed.

Lemma be64_bytes x : Forall is_byte (be64 x).
Proof. unfold be64. cbn [fmap list_fmap]. repeat constructor; apply Z.mod_pos_bound; lia. Qed.

Lemma output_words st : eight_words st ->
  mjoin ((fun i => STORE32H (at_ st (Z.of_nat i))) <$> seq 0 8) = mjoin ((fun w => [byte w 3; byte w 2; byte w 1; byte w 0]) <$> st).
Proof.
  intros Hst. destruct (eight_words_of _ Hst) as (a0 & a1 & a2 & a3 & a4 & a5 & a6 & a7 & ->).
  cbn [seq fmap list_fmap]. rewrite !STORE32H_bytes. done.
Qed.

(** The padding of a message whose last [r] bytes are in the buffer. *)
Lemma pad_short full rest n : length full = (64 * n)%nat -> (length rest <= 55)%nat ->
  pad_message (full ++ rest) = full ++ rest ++ 0x80 :: replicate (55 - length rest) 0 ++ be64 (8 * Z.of_nat (length (full ++ rest))).
Proof.
  intros Hf Hr. unfold pad_message. rewrite <- app_assoc. do 4 f_equal. f_equal. rewrite length_app, Hf.
  replace (55 - Z.of_nat (64 * n + length rest)) with ((55 - Z.of_nat (length rest)) + (- Z.of_nat n) * 64) by lia.
  rewrite Z.mod_add, Z.mod_small by lia. lia.
Qed.
Lemma pad_long full rest n : length full = (64 * n)%nat -> (55 < length rest < 64)%nat ->
  pad_message (full ++ rest) =
    full ++ (rest ++ 0x80 :: replicate (63 - length rest) 0) ++ replicate 56 0 ++ be64 (8 * Z.of_nat (length (full ++ rest))).
Proof.
  intros Hf Hr. unfold pad_message. rewrite <- !app_assoc. do 2 f_equal. cbn [app]. f_equal. rewrite app_assoc, <- replicate_add. do 2 f_equal. rewrite length_app, Hf.
  replace (55 - Z.of_nat (64 * n + length rest)) with ((119 - Z.of_nat (length rest)) + (- Z.of_nat n - 1) * 64) by lia.
  rewrite Z.mod_add, Z.mod_small by lia. lia.
Qed.

Lemma total_length (full rest : list Z) : 8 * Z.of_nat (length (full ++ rest)) < 2 ^ 64 -> (length rest < 64)%nat ->
  to_ulong (to_ulong (8 * Z.of_nat (length full)) + to_uint (Z.of_nat (length rest) * 8)) = 8 * Z.of_nat (length (full ++ rest)).
Proof.
  rewrite length_app. intros Hb Hr. rewrite to_ulong_add. unfold to_uint. rewrite Z.mod_small by lia. rewrite to_ulong_id by lia. lia.
Qed.

Lemma length_bit (l : list Z) : length (l ++ [0x80]) = S (length l).
Proof. rewrite length_app. cbn [length]. lia. Qed.

(** The end of the message in the buffer, with the first bit of the padding. *)
Section ending.
Variables (len : Z) (st full rest h : list Z) (n : nat).
#[local] Notation r := (length rest).
Hypothesis Hst : st = fips_blocks n fips_H0 full.
Hypothesis Hwords : eight_words st.
Hypothesis Hfull : length full = (64 * n)%nat.
Hypothesis Hrest : Forall is_byte rest.
Hypothesis Hh : S (length h) = (64 - r)%nat.

Definition after_bit : sha256_state :=
  {| md_length := len; state := st; curlen := Z.of_nat (length (rest ++ [0x80])); buf := (rest ++ [0x80]) ++ h |}.

Lemma spill_long : (55 < r < 64)%nat ->
  exists md, spill after_bit = Ret md /\ md_length md = len /\ curlen md = 0
    /\ length (buf md) = 64%nat /\ state md = fips_blocks (S n) fips_H0 (full ++ rest ++ 0x80 :: replicate (63 - r) 0) /\ eight_words (state md).
Proof using Hst Hwords Hfull Hrest Hh.
  intros Hr. unfold spill, after_bit. cbn [curlen]. rewrite (proj2 (Z.ltb_lt _ _)) by (rewrite length_bit; lia).
  rewrite (zero_to_ok 64 64 64 eq_refl) by (rewrite ?length_app; cbn [length]; lia).
  rewrite length_bit, drop_ge, app_nil_r by lia. set (b1 := _ ++ replicate _ 0).
  assert (b1 = rest ++ 0x80 :: replicate (63 - r) 0) as Eb1 by (unfold b1; rewrite <- app_assoc; do 3 f_equal; lia).
  assert (length b1 = 64%nat) as Hb1 by (rewrite Eb1, length_app; cbn [length]; rewrite length_replicate; lia).
  assert (Forall is_byte b1) as Hbb.
  { rewrite Eb1. apply Forall_app. split; [done|]. constructor; [by vm_compute|]. by apply Forall_replicate. }
  clearbody b1. cbn [mbind comp_bind buf].
  destruct (compress_ok {| md_length := len; state := st; curlen := 64; buf := b1 |} b1 [] Hb1 Hbb Hwords) as [E Hw]. rewrite app_nil_r in E.
  rewrite E. eexists. split; [reflexivity|]. cbn [md_length state buf curlen]. split_and!; [done|done|done| |exact Hw].
  rewrite <- Eb1, fips_blocks_snoc by done. rewrite Hst. reflexivity.
Qed.

End ending.


Definition digest (m : list Z) (n : nat) : list Z := mjoin ((fun w => [byte w 3; byte w 2; byte w 1; byte w 0]) <$> fips_blocks n fips_H0 m).

(** The length and the last block. *)
Lemma last_block_ok md a h n full : buf md = a ++ h -> curlen md = Z.of_nat (length a) -> (length a <= 56)%nat -> length (buf md) = 64%nat ->
  state md = fips_blocks n fips_H0 full -> eight_words (state md) -> length full = (64 * n)%nat -> Forall is_byte a ->
  exists md', last_block md = Ret md'
    /\ mjoin ((fun i => STORE32H (at_ (state md') (Z.of_nat i))) <$> seq 0 8) =
       digest (full ++ a ++ replicate (56 - length a) 0 ++ be64 (md_length md)) (S n).
Proof.
  destruct md as [len st cl bu]. cbn [buf curlen state md_length]. intros -> -> Ha Hb Est Hst Hf Hab. unfold last_block.
  rewrite (zero_to_ok 64 56 56 eq_refl) by lia. set (pre := a ++ replicate (56 - length a) 0). set (tl := drop _ h).
  replace (a ++ replicate (56 - length a) 0 ++ tl) with (pre ++ tl) by (unfold pre; by rewrite <- app_assoc).
  assert (length pre = 56%nat) as Hp by (unfold pre; rewrite length_app, length_replicate; lia).
  assert (length tl = 8%nat) as Htl by (unfold tl; rewrite length_app in Hb; rewrite length_drop; lia).
  assert (Forall is_byte pre) as Hpb by (apply Forall_app; split; [done|by apply Forall_replicate]).
  replace (full ++ a ++ replicate (56 - length a) 0 ++ be64 len) with (full ++ pre ++ be64 len) by (unfold pre; by rewrite <- app_assoc).
  clearbody pre tl. cbn [mbind comp_bind buf md_length state curlen].
  rewrite STORE64H_be64, (arr_write_hole pre) by (rewrite ?Hp, ?Htl; cbn; lia). rewrite (drop_ge tl), app_nil_r by (rewrite Htl; cbn; lia).
  assert (length (pre ++ be64 len) = 64%nat) as Hbl by (by rewrite length_app, Hp).
  assert (Forall is_byte (pre ++ be64 len)) as Hbytes by (apply Forall_app; split; [done|apply be64_bytes]).
  cbn [mbind comp_bind]. generalize dependent (pre ++ be64 len). intros b Hbl Hbytes.
  destruct (compress_ok {| md_length := len; state := st; curlen := 56; buf := b |} b [] Hbl Hbytes Hst) as [E Hw]. rewrite app_nil_r in E. rewrite E.
  eexists. split; [reflexivity|]. cbn [state] in Hw |- *. unfold digest. rewrite fips_blocks_snoc, <- Est by done. exact (output_words _ Hw).
Qed.

Lemma SHA256_digest m n : length (pad_message m) = (64 * n)%nat -> SHA256 m = digest (pad_message m) n.
Proof. intros Hl. unfold SHA256, digest. rewrite Hl, Nat.mul_comm, Nat.div_mul by done. reflexivity. Qed.

(** Both together, after the bit was appended. *)
Lemma padded_ok len st full rest h n : st = fips_blocks n fips_H0 full -> eight_words st -> length full = (64 * n)%nat ->
  Forall is_byte rest -> (length rest < 64)%nat -> S (length h) = (64 - length rest)%nat -> len = 8 * Z.of_nat (length (full ++ rest)) ->
  exists md md', spill (after_bit len st rest h) = Ret md /\ last_block md = Ret md' /\
    mjoin ((fun i => STORE32H (at_ (state md') (Z.of_nat i))) <$> seq 0 8) = SHA256 (full ++ rest).
Proof.
  intros Est Hst Hf Hrb Hr Hh Hlen. destruct (decide (length rest <= 55)%nat) as [Hs|Hl].
  - exists (after_bit len st rest h). assert (spill (after_bit len st rest h) = Ret (after_bit len st rest h)) as Hsp.
    { unfold spill. cbn [curlen after_bit]. by rewrite (proj2 (Z.ltb_ge _ _)) by (rewrite length_bit; lia). }
    destruct (last_block_ok (after_bit len st rest h) (rest ++ [0x80]) h n full) as (md' & E & Eo);
      [done|done|rewrite length_bit; lia|cbn [buf after_bit]; rewrite length_app, length_bit; lia|exact Est|exact Hst|exact Hf|apply Forall_app; split; [done|by repeat constructor]|].
    exists md'. split_and!; [exact Hsp|exact E|]. rewrite Eo. rewrite length_bit. cbn [md_length after_bit]. rewrite Hlen.
    assert (pad_message (full ++ rest) = full ++ (rest ++ [0x80]) ++ replicate (56 - S (length rest)) 0 ++ be64 (8 * Z.of_nat (length (full ++ rest)))) as Ep.
    { rewrite (pad_short full rest n) by (done || lia). rewrite <- !app_assoc. cbn [app]. by replace (56 - S (length rest))%nat with (55 - length rest)%nat by lia. }
    rewrite <- Ep. symmetry. apply SHA256_digest. rewrite Ep, !length_app, length_replicate. change (length (be64 _)) with 8%nat. cbn [length]. lia.
  - destruct (spill_long len st full rest h n Est Hst Hf Hrb Hh) as (md & Hsp & El & Ec & Eb & Es & Ew); [lia|]. exists md.
    destruct (last_block_ok md [] (buf md) (S n) (full ++ rest ++ 0x80 :: replicate (63 - length rest) 0)) as (md' & E & Eo);
      [done|exact Ec|cbn; lia|exact Eb|exact Es|exact Ew|rewrite !length_app; cbn [length]; rewrite length_replicate; lia|constructor|].
    exists md'. split_and!; [exact Hsp|exact E|]. rewrite Eo. cbn [length app Nat.sub]. rewrite El, Hlen.
    assert (pad_message (full ++ rest) = (full ++ rest ++ 0x80 :: replicate (63 - length rest) 0) ++ replicate 56 0 ++ be64 (8 * Z.of_nat (length (full ++ rest)))) as Ep.
    { rewrite (pad_long full rest n) by (done || lia). by rewrite <- !app_assoc. }
    rewrite <- Ep. symmetry. apply SHA256_digest. rewrite Ep, !length_app. cbn [length]. rewrite !length_replicate. change (length (be64 _)) with 8%nat. lia.
Qed.


Lemma done_ok md n full rest : hashed md n full rest -> Forall is_byte rest -> 8 * Z.of_nat (length (full ++ rest)) < 2 ^ 64 ->
  exists md', sha256_done md = Ret (CRYPT_OK, md', SHA256 (full ++ rest)).
Proof.
  intros [H1 H2 H3 H4 H5 H6 H7 H8] Hrb Hlen.
  assert (exists x h, buf md = rest ++ x :: h /\ S (length h) = (64 - length rest)%nat) as (x & h & Eb & Hh).
  { destruct (drop (length rest) (buf md)) as [|x h] eqn:E; apply (f_equal length) in E as E'; rewrite length_drop in E'; cbn in E'; [lia|].
    exists x, h. split; [|lia]. rewrite <- E, <- H4 at 1. symmetry. apply take_drop. }
  destruct (padded_ok _ (state md) full rest h n H6 H7 H1 Hrb H2 Hh eq_refl) as (md1 & md2 & E1 & E2 & Eo).
  exists md2. unfold sha256_done. rewrite H3, (proj2 (Z.leb_gt _ _)), H8, total_length by (done || lia). rewrite Eb, arr_set_app by done.
  rewrite ret_bind. assert (to_uint (Z.of_nat (length rest) + 1) = Z.of_nat (length (rest ++ [0x80]))) as ->.
  { unfold to_uint. rewrite length_bit, Z.mod_small by lia. lia. }
  replace (rest ++ 0x80 :: h) with ((rest ++ [0x80]) ++ h) by by rewrite <- app_assoc.
  unfold after_bit in E1. rewrite E1, ret_bind, E2, ret_bind, Eo. reflexivity.
Qed.

(** ** The whole hash *)

Fixpoint process_all (md : sha256_state) (chunks : list (list Z)) : comp sha256_state :=
  match chunks with
  | [] => Ret md
  | c :: chunks => let* (_, md) := sha256_process md c (Z.of_nat (length c)) in process_all md chunks
  end.
(** What a caller that feeds [chunks] finds in [out]. *)
Definition sha256_of (junk : sha256_state) (chunks : list (list Z)) : comp (Z * list Z) :=
  let* md := process_all (sha256_init junk) chunks in
  let* (rc, _, out) := sha256_done md in
  Ret (rc, out).

Lemma process_ok md n full rest inp : hashed md n full rest -> Forall is_byte rest -> Forall is_byte inp ->
  exists md' n' full' rest', sha256_process md inp (Z.of_nat (length inp)) = Ret (CRYPT_OK, md')
    /\ hashed md' n' full' rest' /\ full' ++ rest' = full ++ rest ++ inp.
Proof.
  intros Hh Hr Hi. destruct (process_loop_ok (length inp) md n full rest inp [] Hh Hr Hi) as (md' & n' & full' & rest' & E & H & Eq); [done|].
  exists md', n', full', rest'. split_and!; [|done|done]. unfold sha256_process. pose proof (h_curlen _ _ _ _ Hh). pose proof (h_rest _ _ _ _ Hh).
  rewrite (proj2 (Z.ltb_ge _ _)), Nat2Z.id by lia. by rewrite app_nil_r in E.
Qed.

Lemma process_all_ok chunks : forall md n full rest, hashed md n full rest -> Forall is_byte (full ++ rest) -> Forall (Forall is_byte) chunks ->
  exists md' n' full' rest', process_all md chunks = Ret md' /\ hashed md' n' full' rest' /\ full' ++ rest' = full ++ rest ++ mjoin chunks.
Proof.
  induction chunks as [|c chunks IH]; intros md n full rest Hh Hb Hc; [exists md, n, full, rest; cbn; by rewrite app_nil_r|].
  apply Forall_cons in Hc as [Hc Hcs]. apply Forall_app in Hb as [Hf Hr]. cbn [process_all].
  destruct (process_ok md n full rest c Hh Hr Hc) as (md1 & n1 & full1 & rest1 & -> & Hh1 & E1). rewrite ret_bind.
  destruct (IH md1 n1 full1 rest1 Hh1) as (md2 & n2 & full2 & rest2 & -> & Hh2 & E2); [rewrite E1, !Forall_app; done|done|].
  exists md2, n2, full2, rest2. split_and!; [done|done|]. rewrite E2. cbn [mjoin list_join]. rewrite !app_assoc. f_equal. by rewrite E1, app_assoc.
Qed.

Lemma sha256_correct junk chunks :
  length (buf junk) = 64%nat -> Forall (Forall is_byte) chunks -> 8 * Z.of_nat (length (mjoin chunks)) < 2 ^ 64 ->
  sha256_of junk chunks = Ret (CRYPT_OK, SHA256 (mjoin chunks)).
Proof.
  intros Hj Hc Hl. destruct (process_all_ok chunks _ 0 [] [] (hashed_init junk Hj)) as (md & n & full & rest & E & Hh & Eq); [constructor|done|].
  cbn [app] in Eq. assert (Forall is_byte (full ++ rest)) as [_ Hr]%Forall_app by (rewrite Eq; by apply Forall_join).
  destruct (done_ok md n full rest Hh Hr) as [md' Ed]; [by rewrite Eq|]. unfold sha256_of. rewrite E, ret_bind, Ed, ret_bind, Eq. reflexivity.
Qed.

(** C18: the hash is SHA-256 as FIPS 180-4 defines it.  For every message of
    fewer than 2^64 bits, given in pieces of any lengths, [sha256_init],
    [sha256_process] for each piece and [sha256_done] stay inside the buffer,
    succeed, and write the 32 bytes that padding, schedule and rounds of the
    standard give for the whole message. *)
Theorem sha256_is_fips180 junk chunks :
  length (buf junk) = 64%nat -> Forall (Forall is_byte) chunks -> 8 * Z.of_nat (length (mjoin chunks)) < 2 ^ 64 ->
  sha256_of junk chunks = Ret (CRYPT_OK, SHA256 (mjoin chunks)).
Proof. apply sha256_correct. Qed.

Definition junk_state : sha256_state := {| md_length := 7; state := []; curlen := 9; buf := replicate 64 5 |}.
Lemma sha256_is_fips180_witness :
  sha256_of junk_state [[97]; []; [98; 99]] = Ret (CRYPT_OK, SHA256 [97; 98; 99]).
Proof.
  apply (sha256_is_fips180 junk_state [[97]; []; [98; 99]]); [done| |vm_compute; reflexivity].
  repeat constructor; by vm_compute.
Defined.
(** A message of two blocks, of 56 bytes, and in pieces over a block. *)
Example sha256_two_blocks :
  sha256_of junk_state [replicate 60 97; replicate 5 98; replicate 70 99] = Ret (CRYPT_OK, SHA256 (replicate 60 97 ++ replicate 5 98 ++ replicate 70 99)).
Proof. by vm_compute. Qed.
