(* ===== verification/Der.v ===== *)
(** * ASN.1 items and their lengths (libtomcrypt, src/pk/asn1/der)

    Decoding of the items that keys and signatures are made of: a sequence is
    read into a list of items that says what is expected, and every item is
    advanced over by the length that its decoded value would be encoded in, not
    by the length that was read.  Numbers are those of a library with the
    interface [Bignum]. *)

From S2P Require Import Prelude AesTables Aes.

Local Open Scope Z_scope.

Definition CRYPT_INVALID_PACKET : Z := 7.

(** ** The mathematics descriptor

    What libtomcrypt asks of the library of numbers that was installed as
    [ltc_mp]. *)

Definition be_value (l : list Z) : Z := fold_left (fun v b => 256 * v + b) l 0.

Class Bignum := {
  mp_int : Type;
  mp_val : mp_int -> Z;
  mp_read_unsigned_bin : list Z -> mp_int;
  mp_unsigned_bin_size : mp_int -> Z;
  mp_count_bits : mp_int -> Z;
  mp_cnt_lsb : mp_int -> Z;
  mp_to_unsigned_bin : mp_int -> list Z;
  mp_cmp : mp_int -> mp_int -> comparison;
  mp_cmp_d : mp_int -> Z -> comparison;
  mp_2expt : Z -> mp_int;
  mp_sub : mp_int -> mp_int -> mp_int;
  (** The result, or an error code. *)
  mp_exptmod : mp_int -> mp_int -> mp_int -> mp_int + Z;

  mp_read_val l : Forall is_byte l -> mp_val (mp_read_unsigned_bin l) = be_value l;
  mp_count_bits_val n : 0 <= mp_val n -> mp_count_bits n = if mp_val n =? 0 then 0 else Z.log2 (mp_val n) + 1;
  mp_size_val n : 0 <= mp_val n -> mp_unsigned_bin_size n = (mp_count_bits n + 7) / 8;
  mp_to_val n : 0 <= mp_val n -> Forall is_byte (mp_to_unsigned_bin n) /\ be_value (mp_to_unsigned_bin n) = mp_val n
    /\ Z.of_nat (length (mp_to_unsigned_bin n)) = mp_unsigned_bin_size n;
  mp_cmp_val a b : mp_cmp a b = (mp_val a ?= mp_val b);
  mp_cmp_d_val a d : 0 <= d < 256 -> mp_cmp_d a d = (mp_val a ?= d);
  mp_2expt_val k : 0 <= k -> mp_val (mp_2expt k) = 2 ^ k;
  mp_sub_val a b : mp_val (mp_sub a b) = mp_val a - mp_val b;
  mp_exptmod_val b e n : 0 <= mp_val b -> 0 < mp_val e -> 1 < mp_val n -> Z.odd (mp_val n) = true ->
    exists r, mp_exptmod b e n = inl r /\ mp_val r = mp_val b ^ mp_val e mod mp_val n
}.

(** ** Lengths *)

(** [while (y--) len = (len << 8) | in[x++];] *)
Fixpoint read_len (y : nat) (inp : list Z) (x len : Z) : comp (Z * Z) :=
  match y with
  | O => Ret (len, x)
  | S y => let* b := arr_get inp x in read_len y inp (x + 1) (Z.lor (to_ulong (Z.shiftl len 8)) b)
  end.

Definition der_length_octet_string (noctets : Z) : Z + Z :=
  if noctets <? 128 then inl (2 + noctets)
  else if noctets <? 256 then inl (3 + noctets)
  else if noctets <? 65536 then inl (4 + noctets)
  else if noctets <? 16777216 then inl (5 + noctets)
  else inr CRYPT_INVALID_ARG.

Definition der_length_bit_string (nbits : Z) : Z + Z :=
  let nbytes := Z.shiftr nbits 3 + (if Z.land nbits 7 =? 0 then 0 else 1) + 1 in
  if nbytes <? 128 then inl (2 + nbytes)
  else if nbytes <? 256 then inl (3 + nbytes)
  else if nbytes <? 65536 then inl (4 + nbytes)
  else inr CRYPT_INVALID_ARG.

(** The bits of the low 32 bits of a word. *)
Fixpoint bits_loop (fuel : nat) (x c : Z) : Z :=
  match fuel with
  | O => c
  | S fuel => if x =? 0 then c else bits_loop fuel (Z.shiftr x 1) (c + 1)
  end.
Definition der_object_identifier_bits (x : Z) : Z := bits_loop 32 (Z.land x 0xFFFFFFFF) 0.

Fixpoint oid_length_loop (words : list Z) (z wordbuf : Z) : Z :=
  let t := der_object_identifier_bits wordbuf in
  let z := z + t / 7 + (if t mod 7 =? 0 then 0 else 1) + (if wordbuf =? 0 then 1 else 0) in
  match words with
  | [] => z
  | w :: words => oid_length_loop words z w
  end.
Definition der_length_object_identifier (words : list Z) : Z + Z :=
  match words with
  | w0 :: w1 :: rest =>
      if (3 <? w0) || ((w0 <? 2) && (39 <? w1)) then inr CRYPT_INVALID_ARG
      else
        let z := oid_length_loop rest 0 (to_ulong (w0 * 40 + w1)) in
        if z <? 128 then inl (z + 2)
        else if z <? 256 then inl (z + 3)
        else if z <? 65536 then inl (z + 4)
        else inr CRYPT_INVALID_ARG
  | _ => inr CRYPT_INVALID_ARG
  end.

Section der.
Context `{Bignum}.

(** How many bytes the loop [while (z) { ++len; z >>= 8; }] counts. *)
Fixpoint length_bytes (fuel : nat) (z len : Z) : Z :=
  match fuel with
  | O => len
  | S fuel => if z =? 0 then len else length_bytes fuel (Z.shiftr z 8) (len + 1)
  end.
Definition der_length_integer (num : mp_int) : Z :=
  let z :=
    match mp_cmp_d num 0 with
    | Lt =>
        let z := mp_count_bits num in
        let z := z + (8 - Z.land z 7) in
        let z := if (mp_cnt_lsb num + 1 =? mp_count_bits num) && (Z.land (mp_count_bits num) 7 =? 0) then z - 1 else z in
        Z.shiftr z 3
    | c =>
        let leading_zero := if (Z.land (mp_count_bits num) 7 =? 0) || bool_decide (c = Eq) then 1 else 0 in
        leading_zero + mp_unsigned_bin_size num
    end in
  let len := z + 1 in
  let len := if z <? 128 then len else length_bytes 8 z len in
  len + 1.

(** An entry of an [ltc_asn1_list]: before decoding the size is the capacity,
    or the items of a sequence are those expected; afterwards they are what was
    found. *)
Inductive asn1 :=
  | ASN1_INTEGER (num : mp_int)
  | ASN1_BIT_STRING (size : Z) (bits : list Z)
  | ASN1_OCTET_STRING (size : Z) (octets : list Z)
  | ASN1_NULL
  | ASN1_OBJECT_IDENTIFIER (size : Z) (words : list Z)
  | ASN1_SEQUENCE (items : list asn1).

(** The header of a sequence by the length of its content. *)
Definition sequence_header (y : Z) : Z + Z :=
  if y <? 128 then inl (y + 2)
  else if y <? 256 then inl (y + 3)
  else if y <? 65536 then inl (y + 4)
  else if y <? 16777216 then inl (y + 5)
  else inr CRYPT_INVALID_ARG.
Fixpoint der_length (item : asn1) : Z + Z :=
  match item with
  | ASN1_INTEGER num => inl (der_length_integer num)
  | ASN1_BIT_STRING size _ => der_length_bit_string size
  | ASN1_OCTET_STRING size _ => der_length_octet_string size
  | ASN1_NULL => inl 2
  | ASN1_OBJECT_IDENTIFIER size words => der_length_object_identifier (take (Z.to_nat size) words)
  | ASN1_SEQUENCE items =>
      let fix lengths (items : list asn1) (y : Z) : Z + Z :=
        match items with
        | [] => sequence_header y
        | item :: items => match der_length item with inl x => lengths items (y + x) | inr err => inr err end
        end in
      lengths items 0
  end.
Definition der_length_sequence (items : list asn1) : Z + Z := der_length (ASN1_SEQUENCE items).

(** ** Items

    Each gives what is stored or an error code.  [inp] is the memory from the
    item on. *)

Definition der_decode_octet_string (inp : list Z) (inlen outlen : Z) : comp (list Z + Z) :=
  if inlen <? 2 then Ret (inr CRYPT_INVALID_PACKET) else
  let* c := arr_get inp 0 in
  if negb (Z.land c 0x1F =? 0x04) then Ret (inr CRYPT_INVALID_PACKET) else
  let* l := arr_get inp 1 in
  let* r :=
    if negb (Z.land l 0x80 =? 0) then
      let y := Z.land l 0x7F in
      if (y =? 0) || (3 <? y) || (inlen <? 1 + y) then Ret None
      else let* r := read_len (Z.to_nat y) inp 2 0 in Ret (Some r)
    else Ret (Some (Z.land l 0x7F, 2)) in
  match r with
  | None => Ret (inr CRYPT_INVALID_PACKET)
  | Some (len, x) =>
      if outlen <? len then Ret (inr CRYPT_BUFFER_OVERFLOW)
      else if inlen <? len + x then Ret (inr CRYPT_INVALID_PACKET)
      else let* octets := arr_slice inp x len in Ret (inl octets)
  end.

(** [t] collects seven bits a byte; [words] has room for [outlen]. *)
Fixpoint oid_loop (len : nat) (inp : list Z) (x t : Z) (words : list Z) (outlen : Z) : comp (list Z + Z) :=
  match len with
  | O => Ret (inl words)
  | S len =>
      let* b := arr_get inp x in
      let t := Z.lor (to_ulong (Z.shiftl t 7)) (Z.land b 0x7F) in
      if Z.land b 0x80 =? 0 then
        if outlen <=? Z.of_nat (length words) then Ret (inr CRYPT_BUFFER_OVERFLOW)
        else if (length words =? 0)%nat then oid_loop len inp (x + 1) 0 [t / 40; t mod 40] outlen
        else oid_loop len inp (x + 1) 0 (words ++ [t]) outlen
      else oid_loop len inp (x + 1) t words outlen
  end.
Definition der_decode_object_identifier (inp : list Z) (inlen outlen : Z) : comp (list Z + Z) :=
  if inlen <? 3 then Ret (inr CRYPT_INVALID_PACKET) else
  if outlen <? 2 then Ret (inr CRYPT_BUFFER_OVERFLOW) else
  let* c := arr_get inp 0 in
  if negb (Z.land c 0x1F =? 0x06) then Ret (inr CRYPT_INVALID_PACKET) else
  let* l := arr_get inp 1 in
  let* r :=
    if l <? 128 then Ret (Some (l, 2))
    else if (l <? 0x81) || (0x82 <? l) then Ret None
    else let* r := read_len (Z.to_nat (Z.land l 0x7F)) inp 2 0 in Ret (Some r) in
  match r with
  | None => Ret (inr CRYPT_INVALID_PACKET)
  | Some (len, x) =>
      if (len <? 1) || (inlen <? len + x) then Ret (inr CRYPT_INVALID_PACKET)
      else oid_loop (Z.to_nat len) inp x 0 [] outlen
  end.

(** One bit per element. *)
Fixpoint bit_loop (n : nat) (inp : list Z) (x y : Z) : comp (list Z) :=
  match n with
  | O => Ret []
  | S n =>
      let* b := arr_get inp x in
      let bit := if Z.land b (Z.shiftl 1 (7 - Z.land y 7)) =? 0 then 0 else 1 in
      let x := if Z.land y 7 =? 7 then x + 1 else x in
      let* bits := bit_loop n inp x (y + 1) in
      Ret (bit :: bits)
  end.
Definition der_decode_bit_string (inp : list Z) (inlen outlen : Z) : comp (list Z + Z) :=
  if inlen <? 4 then Ret (inr CRYPT_INVALID_ARG) else
  let* c := arr_get inp 0 in
  if negb (Z.land c 0x1F =? 0x03) then Ret (inr CRYPT_INVALID_PACKET) else
  let* l := arr_get inp 1 in
  let* r :=
    if negb (Z.land l 0x80 =? 0) then
      let y := Z.land l 0x7F in
      if (y =? 0) || (2 <? y) then Ret None
      else let* r := read_len (Z.to_nat y) inp 2 0 in Ret (Some r)
    else Ret (Some (Z.land l 0x7F, 2)) in
  match r with
  | None => Ret (inr CRYPT_INVALID_PACKET)
  | Some (dlen, x) =>
      if (dlen =? 0) || (inlen <? dlen + x) then Ret (inr CRYPT_INVALID_PACKET) else
      let* pad := arr_get inp x in
      let blen := to_ulong (Z.shiftl (dlen - 1) 3 - Z.land pad 7) in
      if outlen <? blen then Ret (inr CRYPT_BUFFER_OVERFLOW)
      else let* bits := bit_loop (Z.to_nat blen) inp (x + 1) 0 in Ret (inl bits)
  end.

(** The number, from the length on; a first byte with its high bit set says
    that it is negative. *)
Definition integer_value (inp : list Z) (x y : Z) : comp (mp_int + Z) :=
  let* l := arr_slice inp x y in
  let num := mp_read_unsigned_bin l in
  let* b := arr_get inp x in
  Ret (inl (if negb (Z.land b 0x80 =? 0) then mp_sub num (mp_2expt (mp_count_bits num)) else num)).
Definition der_decode_integer (inp : list Z) (inlen : Z) : comp (mp_int + Z) :=
  if inlen <? 3 then Ret (inr CRYPT_INVALID_PACKET) else
  let* c := arr_get inp 0 in
  if negb (Z.land c 0x1F =? 0x02) then Ret (inr CRYPT_INVALID_PACKET) else
  let* z := arr_get inp 1 in
  if Z.land z 0x80 =? 0 then
    if inlen <? 2 + z then Ret (inr CRYPT_INVALID_PACKET) else integer_value inp 2 z
  else
    let z := Z.land z 0x7F in
    if (inlen <? 2 + z) || (4 <? z) || (z =? 0) then Ret (inr CRYPT_INVALID_PACKET) else
    let* (y, x) := read_len (Z.to_nat z) inp 2 0 in
    if inlen <? x + y then Ret (inr CRYPT_INVALID_PACKET) else integer_value inp x y.

(** ** Sequences *)

(** The start and the size of the content. *)
Definition sequence_start (inp : list Z) (inlen : Z) : comp (option (Z * Z)) :=
  if inlen <? 2 then Ret None else
  let* c := arr_get inp 0 in
  if negb (c =? 0x30) && negb (c =? 0x31) then Ret None else
  let* l := arr_get inp 1 in
  let* r :=
    if l <? 128 then Ret (Some (l, 2))
    else if (l <? 0x81) || (0x83 <? l) then Ret None
    else
      let y := Z.land l 0x7F in
      if inlen <? 2 + y then Ret None else let* r := read_len (Z.to_nat y) inp 2 0 in Ret (Some r) in
  match r with
  | None => Ret None
  | Some (blksize, x) => if inlen <? x + blksize then Ret None else Ret (Some (x, blksize))
  end.

(** What is decoded and how far it reaches, as its encoding would. *)
Definition with_length (r : asn1 + Z) : (asn1 * Z) + Z :=
  match r with
  | inl item => match der_length item with inl z => inl (item, z) | inr err => inr err end
  | inr err => inr err
  end.

Fixpoint der_decode_item (item : asn1) (inp : list Z) (inlen : Z) {struct item} : comp ((asn1 * Z) + Z) :=
  match item with
  | ASN1_INTEGER _ =>
      let* r := der_decode_integer inp inlen in
      Ret (with_length (match r with inl n => inl (ASN1_INTEGER n) | inr err => inr err end))
  | ASN1_BIT_STRING size _ =>
      let* r := der_decode_bit_string inp inlen size in
      Ret (with_length (match r with inl l => inl (ASN1_BIT_STRING (Z.of_nat (length l)) l) | inr err => inr err end))
  | ASN1_OCTET_STRING size _ =>
      let* r := der_decode_octet_string inp inlen size in
      Ret (with_length (match r with inl l => inl (ASN1_OCTET_STRING (Z.of_nat (length l)) l) | inr err => inr err end))
  | ASN1_NULL =>
      if inlen <? 2 then Ret (inr CRYPT_INVALID_PACKET) else
      let* a := arr_get inp 0 in
      if negb (a =? 0x05) then Ret (inr CRYPT_INVALID_PACKET) else
      let* b := arr_get inp 1 in
      if negb (b =? 0x00) then Ret (inr CRYPT_INVALID_PACKET) else Ret (inl (ASN1_NULL, 2))
  | ASN1_OBJECT_IDENTIFIER size _ =>
      let* r := der_decode_object_identifier inp inlen size in
      Ret (with_length (match r with inl l => inl (ASN1_OBJECT_IDENTIFIER (Z.of_nat (length l)) l) | inr err => inr err end))
  | ASN1_SEQUENCE items =>
      let fix loop (items : list asn1) (inp : list Z) (x inlen : Z) {struct items} : comp (list asn1 + Z) :=
        match items with
        | [] => Ret (inl [])
        | item :: items =>
            let* r := der_decode_item item (drop (Z.to_nat x) inp) inlen in
            match r with
            | inr err => Ret (inr err)
            | inl (item, z) =>
                let* r := loop items inp (x + z) (to_ulong (inlen - z)) in
                Ret (match r with inl items => inl (item :: items) | inr err => inr err end)
            end
        end in
      let* c := arr_get inp 0 in
      if negb (Z.land c 0x3F =? 0x30) then Ret (inr CRYPT_INVALID_PACKET) else
      let* s := sequence_start inp inlen in
      match s with
      | None => Ret (inr CRYPT_INVALID_PACKET)
      | Some (x, blksize) =>
          let* r := loop items inp x blksize in
          Ret (with_length (match r with inl items => inl (ASN1_SEQUENCE items) | inr err => inr err end))
      end
  end.

(** The loop over the items, and a sequence at the top. *)
Fixpoint der_decode_items (items : list asn1) (inp : list Z) (x inlen : Z) {struct items} : comp (list asn1 + Z) :=
  match items with
  | [] => Ret (inl [])
  | item :: items =>
      let* r := der_decode_item item (drop (Z.to_nat x) inp) inlen in
      match r with
      | inr err => Ret (inr err)
      | inl (item, z) =>
          let* r := der_decode_items items inp (x + z) (to_ulong (inlen - z)) in
          Ret (match r with inl items => inl (item :: items) | inr err => inr err end)
      end
  end.
Definition der_decode_sequence (inp : list Z) (inlen : Z) (items : list asn1) : comp (list asn1 + Z) :=
  let* s := sequence_start inp inlen in
  match s with
  | None => Ret (inr CRYPT_INVALID_PACKET)
  | Some (x, blksize) => der_decode_items items inp x blksize
  end.

Lemma decode_sequence_item items inp inlen :
  der_decode_item (ASN1_SEQUENCE items) inp inlen =
    (let* c := arr_get inp 0 in
     if negb (Z.land c 0x3F =? 0x30) then Ret (inr CRYPT_INVALID_PACKET) else
     let* r := der_decode_sequence inp inlen items in
     Ret (with_length (match r with inl items => inl (ASN1_SEQUENCE items) | inr err => inr err end))).
Proof.
  cbn [der_decode_item]. destruct (arr_get inp 0) as [c|]; [|done]. cbn [mbind comp_bind]. destruct (negb _); [done|].
  unfold der_decode_sequence. destruct (sequence_start inp inlen) as [[[x b]|]|]; done.
Qed.
End der.

(** ** Big-endian bytes *)

Fixpoint be_bytes (n : nat) (v : Z) : list Z :=
  match n with
  | O => []
  | S n => be_bytes n (v / 256) ++ [v mod 256]
  end.

Lemma be_value_snoc l b : be_value (l ++ [b]) = 256 * be_value l + b.
Proof. unfold be_value. by rewrite fold_left_app. Qed.
Lemma be_value_app l k : be_value (l ++ k) = be_value l * 256 ^ Z.of_nat (length k) + be_value k.
Proof.
  induction k as [|b k IH] using rev_ind; [rewrite app_nil_r; cbn; lia|]. rewrite app_assoc, !be_value_snoc, IH, length_app. cbn [length].
  rewrite Nat2Z.inj_add, Z.pow_add_r by lia. change (256 ^ Z.of_nat 1) with 256. lia.
Qed.
Lemma be_value_bound l : Forall is_byte l -> 0 <= be_value l < 256 ^ Z.of_nat (length l).
Proof.
  induction l as [|b l IH] using rev_ind; intros Hl; [by vm_compute|]. apply Forall_app in Hl as [Hl Hb]. apply Forall_cons in Hb as [Hb _]. specialize (IH Hl).
  rewrite be_value_snoc, length_app. cbn [length]. rewrite Nat2Z.inj_add, Z.pow_add_r by lia. change (256 ^ Z.of_nat 1) with 256. unfold is_byte in Hb. lia.
Qed.
Lemma length_be_bytes n v : length (be_bytes n v) = n.
Proof. revert v. induction n as [|n IH]; intros v; cbn [be_bytes]; [done|]. rewrite length_app, IH. cbn. lia. Qed.
Lemma be_bytes_bytes n v : Forall is_byte (be_bytes n v).
Proof.
  revert v. induction n as [|n IH]; intros v; cbn [be_bytes]; [constructor|]. apply Forall_app. split; [done|]. constructor; [|constructor].
  apply Z.mod_pos_bound. lia.
Qed.
Lemma be_value_bytes n v : 0 <= v < 256 ^ Z.of_nat n -> be_value (be_bytes n v) = v.
Proof.
  revert v. induction n as [|n IH]; intros v Hv; cbn [be_bytes]; [cbn in *; lia|]. rewrite be_value_snoc, IH.
  - rewrite (Z.div_mod v 256) at 3 by lia. lia.
  - rewrite Nat2Z.inj_succ, Z.pow_succ_r in Hv by lia. split; [apply Z.div_pos; lia|]. apply Z.div_lt_upper_bound; lia.
Qed.
Lemma be_bytes_value l : Forall is_byte l -> be_bytes (length l) (be_value l) = l.
Proof.
  induction l as [|b l IH] using rev_ind; intros Hl; [done|]. apply Forall_app in Hl as [Hl Hb]. apply Forall_cons in Hb as [Hb _]. rewrite length_app, Nat.add_1_r.
  cbn [be_bytes]. rewrite be_value_snoc. unfold is_byte in Hb. replace (256 * be_value l + b) with (b + be_value l * 256) by lia.
  rewrite Z.div_add, Z.mod_add, Z.div_small, Z.mod_small, Z.add_0_l by lia. by rewrite IH.
Qed.
Lemma be_value_inj l k : Forall is_byte l -> Forall is_byte k -> length l = length k -> be_value l = be_value k -> l = k.
Proof. intros Hl Hk E Ev. by rewrite <- (be_bytes_value l Hl), <- (be_bytes_value k Hk), E, Ev. Qed.
Lemma be_bytes_app n m v w : 0 <= w < 256 ^ Z.of_nat m -> 0 <= v < 256 ^ Z.of_nat n ->
  be_bytes (n + m) (v * 256 ^ Z.of_nat m + w) = be_bytes n v ++ be_bytes m w.
Proof.
  intros Hw Hv. apply be_value_inj; [apply be_bytes_bytes|apply Forall_app; split; apply be_bytes_bytes|by rewrite length_app, !length_be_bytes|].
  rewrite be_value_app, length_be_bytes, !be_value_bytes; [done|done|done|]. rewrite Nat2Z.inj_add, Z.pow_add_r by lia. nia.
Qed.
Lemma be_value_zeros n l : be_value (replicate n 0 ++ l) = be_value l.
Proof.
  rewrite be_value_app. assert (be_value (replicate n 0) = 0) as ->; [|lia]. induction n as [|n IH]; [done|].
  rewrite replicate_S_end, be_value_snoc, IH. lia.
Qed.

(** ** Encodings

    What DER writes for the items that keys and signatures are made of. *)

Definition enc_len (n : nat) : list Z :=
  let z := Z.of_nat n in
  if z <? 128 then [z] else if z <? 256 then [0x81; z] else [0x82; z / 256; z mod 256].
Definition enc (tag : Z) (body : list Z) : list Z := tag :: enc_len (length body) ++ body.

(** The bytes of a number, the first of which is below 128. *)
Definition bit_count (v : Z) : Z := if v =? 0 then 0 else Z.log2 v + 1.
Definition int_size (v : Z) : nat := Z.to_nat (bit_count v / 8 + 1).
Definition enc_int (v : Z) : list Z := enc 0x02 (be_bytes (int_size v) v).

Lemma low_bits l : 0 <= l < 128 -> Z.land l 0x80 = 0 /\ Z.land l 0x7F = l.
Proof.
  intros Hl. assert (forallb (fun l => (Z.land l 0x80 =? 0) && (Z.land l 0x7F =? l)) (seqZ 0 128) = true) as H by by vm_compute.
  rewrite forallb_forall in H. specialize (H l). rewrite <- list_elem_of_In, elem_of_seqZ in H. specialize (H ltac:(lia)). apply andb_prop in H as [?%Z.eqb_eq ?%Z.eqb_eq]. done.
Qed.
Lemma high_bit b : 0 <= b < 256 -> (Z.land b 0x80 =? 0) = (b <? 128).
Proof.
  intros Hb. assert (forallb (fun b => Bool.eqb (Z.land b 0x80 =? 0) (b <? 128)) (seqZ 0 256) = true) as H by by vm_compute.
  rewrite forallb_forall in H. specialize (H b). rewrite <- list_elem_of_In, elem_of_seqZ in H. specialize (H ltac:(lia)). by apply eqb_prop in H.
Qed.

Lemma lor_shift a b : 0 <= a -> 0 <= b < 256 -> Z.lor (Z.shiftl a 8) b = a * 256 + b.
Proof.
  intros Ha Hb. rewrite (lor_add _ _ 8); [by rewrite Z.shiftl_mul_pow2|lia| |done].
  rewrite Z.land_ones, Z.shiftl_mul_pow2 by lia. apply Z.mod_mul. lia.
Qed.

(** The length is read back, one byte or more. *)
Lemma read_len_1 inp x b : arr_get inp x = Ret b -> 0 <= b < 256 -> read_len 1 inp x 0 = Ret (b, x + 1).
Proof. intros E Hb. cbn [read_len]. rewrite E, ret_bind. change (to_ulong (Z.shiftl 0 8)) with 0. by rewrite Z.lor_0_l. Qed.
Lemma read_len_2 inp x a b : arr_get inp x = Ret a -> arr_get inp (x + 1) = Ret b -> 0 <= a < 256 -> 0 <= b < 256 ->
  read_len 2 inp x 0 = Ret (a * 256 + b, x + 2).
Proof.
  intros Ea Eb Ha Hb. cbn [read_len]. rewrite Ea, ret_bind, Eb, ret_bind. change (to_ulong (Z.shiftl 0 8)) with 0. rewrite Z.lor_0_l.
  rewrite to_ulong_id by (rewrite Z.shiftl_mul_pow2 by lia; lia). rewrite lor_shift by lia. do 2 f_equal. lia.
Qed.

(** How a length is written. *)
Inductive len_form (n : nat) : list Z -> Prop :=
  | short_form : Z.of_nat n < 128 -> len_form n [Z.of_nat n]
  | long_form_1 : 128 <= Z.of_nat n < 256 -> len_form n [0x81; Z.of_nat n]
  | long_form_2 a b : 256 <= Z.of_nat n < 65536 -> Z.of_nat n = a * 256 + b -> 0 <= a < 256 -> 0 <= b < 256 -> len_form n [0x82; a; b].
Lemma enc_len_form n : Z.of_nat n < 65536 -> len_form n (enc_len n).
Proof.
  intros Hn. unfold enc_len. destruct (Z.ltb_spec (Z.of_nat n) 128); [by constructor|]. destruct (Z.ltb_spec (Z.of_nat n) 256); [constructor; lia|].
  constructor; [lia|..]; Z.div_mod_to_equations; lia.
Qed.

Lemma length_enc_len n : Z.of_nat (length (enc_len n)) = if Z.of_nat n <? 128 then 1 else if Z.of_nat n <? 256 then 2 else 3.
Proof. unfold enc_len. by destruct (Z.of_nat n <? 128), (Z.of_nat n <? 256). Qed.
Lemma length_enc tag body : Z.of_nat (length (enc tag body)) = 1 + Z.of_nat (length (enc_len (length body))) + Z.of_nat (length body).
Proof. unfold enc. cbn [length]. rewrite length_app. lia. Qed.

(** The content lies behind the header. *)
Lemma content_at tag body rest : drop (S (length (enc_len (length body)))) (enc tag body ++ rest) = body ++ rest.
Proof. unfold enc. cbn [app drop]. rewrite <- app_assoc. apply drop_app_length. Qed.
Lemma slice_content tag body rest :
  arr_slice (enc tag body ++ rest) (1 + Z.of_nat (length (enc_len (length body)))) (Z.of_nat (length body)) = Ret body.
Proof.
  replace (enc tag body ++ rest) with ((tag :: enc_len (length body)) ++ body ++ rest) by (unfold enc; cbn [app]; by rewrite <- app_assoc).
  apply arr_slice_app; [cbn [length]; lia|done].
Qed.

Section items.
Context `{Bignum}.

(** What the readers of lengths find behind the tag of an item. *)
Inductive header (tag : Z) (body rest : list Z) : list Z -> Z -> Prop :=
  | header_short : Z.of_nat (length body) < 128 -> header tag body rest (tag :: Z.of_nat (length body) :: body ++ rest) 2
  | header_1 : 128 <= Z.of_nat (length body) < 256 -> header tag body rest (tag :: 0x81 :: Z.of_nat (length body) :: body ++ rest) 3
  | header_2 a b : 256 <= Z.of_nat (length body) < 65536 -> Z.of_nat (length body) = a * 256 + b -> 0 <= a < 256 -> 0 <= b < 256 ->
      header tag body rest (tag :: 0x82 :: a :: b :: body ++ rest) 4.
Lemma enc_header tag body rest : Z.of_nat (length body) < 65536 ->
  header tag body rest (enc tag body ++ rest) (Z.of_nat (length (enc tag body)) - Z.of_nat (length body)).
Proof using.
  intros Hb. rewrite length_enc. unfold enc. destruct (enc_len_form (length body) Hb) as [Hl|Hl|a b Hl E Ha Hc]; cbn [length app];
    match goal with |- header _ _ _ _ ?z => first [replace z with 2 by lia; by apply header_short | replace z with 3 by lia; by apply header_1 | replace z with 4 by lia; by apply header_2] end.
Qed.

Lemma get_0 (a : Z) l : arr_get (a :: l) 0 = Ret a. Proof using. done. Qed.
Lemma get_1 (a b : Z) l : arr_get (a :: b :: l) 1 = Ret b. Proof using. done. Qed.
Lemma get_2 (a b c : Z) l : arr_get (a :: b :: c :: l) 2 = Ret c. Proof using. done. Qed.
Lemma get_3 (a b c d : Z) l : arr_get (a :: b :: c :: d :: l) 3 = Ret d. Proof using. done. Qed.

(** An encoded item in memory: its header takes [x] bytes. *)
Lemma enc_memory tag body rest : Z.of_nat (length body) < 65536 ->
  exists x, Z.of_nat (length (enc tag body)) = x + Z.of_nat (length body) /\ header tag body rest (enc tag body ++ rest) x
    /\ arr_slice (enc tag body ++ rest) x (Z.of_nat (length body)) = Ret body /\ drop (Z.to_nat x) (enc tag body ++ rest) = body ++ rest /\ 2 <= x <= 4.
Proof using.
  intros Hb. pose proof (enc_header tag body rest Hb) as Hh. pose proof (slice_content tag body rest) as Hs. pose proof (length_enc tag body) as Hl.
  pose proof (content_at tag body rest) as Hd. pose proof (length_enc_len (length body)).
  exists (1 + Z.of_nat (length (enc_len (length body)))). split_and!; [lia| |done| |repeat case_match; lia..].
  - by replace (1 + Z.of_nat (length (enc_len (length body)))) with (Z.of_nat (length (enc tag body)) - Z.of_nat (length body)) by lia.
  - rewrite <- Hd. f_equal. lia.
Qed.

Lemma decode_octet_ok body rest inlen outlen : Z.of_nat (length body) < 65536 ->
  Z.of_nat (length (enc 0x04 body)) <= inlen -> Z.of_nat (length body) <= outlen ->
  der_decode_octet_string (enc 0x04 body ++ rest) inlen outlen = Ret (inl body).
Proof using.
  intros Hb Hi Ho. destruct (enc_memory 4 body rest Hb) as (x & Ex & Hh & Hs & _ & _). rewrite Ex in Hi.
  set (m := enc 4 body ++ rest) in *. clearbody m. unfold der_decode_octet_string.
  assert (forall r, r = Some (Z.of_nat (length body), x) -> match r with
    | None => Ret (inr CRYPT_INVALID_PACKET)
    | Some (len, x) =>
        if outlen <? len then Ret (inr CRYPT_BUFFER_OVERFLOW)
        else if inlen <? len + x then Ret (inr CRYPT_INVALID_PACKET)
        else let* octets := arr_slice m x len in Ret (inl octets)
    end = Ret (inl body)) as Hend.
  { intros r ->. rewrite !(proj2 (Z.ltb_ge _ _)) by lia. by rewrite Hs, ret_bind. }
  destruct Hh as [Hn|Hn|a b Hn E Ha Hc]; rewrite (proj2 (Z.ltb_ge inlen 2)) by lia; rewrite get_0, ret_bind, get_1, ret_bind.
  - destruct (low_bits (Z.of_nat (length body))) as [E1 E2]; [lia|]. rewrite E1, E2. cbn iota. change (negb (Z.land 4 31 =? 4)) with false. change (negb (0 =? 0)) with false. cbn iota. rewrite ret_bind. exact (Hend _ eq_refl).
  - change (negb (Z.land 4 31 =? 4)) with false. change (negb (Z.land 0x81 0x80 =? 0)) with true. change (Z.land 0x81 0x7F) with 1. cbn iota. cbn zeta.
    change ((1 =? 0) || (3 <? 1)) with false. cbn [orb]. rewrite (proj2 (Z.ltb_ge _ _)) by lia. 
    rewrite (read_len_1 _ _ (Z.of_nat (length body))) by (done || lia). rewrite !ret_bind. exact (Hend _ eq_refl).
  - change (negb (Z.land 4 31 =? 4)) with false. change (negb (Z.land 0x82 0x80 =? 0)) with true. change (Z.land 0x82 0x7F) with 2. cbn iota. cbn zeta.
    change ((2 =? 0) || (3 <? 2)) with false. cbn [orb]. rewrite (proj2 (Z.ltb_ge _ _)) by lia.
    rewrite (read_len_2 _ _ a b) by (done || lia). rewrite !ret_bind, <- E. exact (Hend _ eq_refl).
Qed.

Lemma sequence_start_ok body rest inlen : Z.of_nat (length body) < 65536 -> Z.of_nat (length (enc 0x30 body)) <= inlen ->
  exists x, sequence_start (enc 0x30 body ++ rest) inlen = Ret (Some (x, Z.of_nat (length body))) /\ 2 <= x <= 4
    /\ drop (Z.to_nat x) (enc 0x30 body ++ rest) = body ++ rest.
Proof using.
  intros Hb Hi. destruct (enc_memory 0x30 body rest Hb) as (x & Ex & Hh & _ & Hd & Hx). rewrite Ex in Hi. exists x. split; [|done]. clear Hd.
  set (m := enc 0x30 body ++ rest) in *. clearbody m. unfold sequence_start.
  assert (forall r, r = Some (Z.of_nat (length body), x) -> match r with
    | None => Ret None
    | Some (blksize, x) => if inlen <? x + blksize then Ret None else Ret (Some (x, blksize))
    end = Ret (Some (x, Z.of_nat (length body)))) as Hend.
  { intros r ->. by rewrite !(proj2 (Z.ltb_ge _ _)) by lia. }
  destruct Hh as [Hn|Hn|a b Hn E Ha Hc]; rewrite (proj2 (Z.ltb_ge inlen 2)) by lia; rewrite get_0, ret_bind, get_1, ret_bind;
    change (negb (0x30 =? 0x30) && negb (0x30 =? 0x31)) with false; cbn iota.
  - rewrite (proj2 (Z.ltb_lt _ _)) by lia. rewrite ret_bind. exact (Hend _ eq_refl).
  - change (0x81 <? 128) with false. change ((0x81 <? 0x81) || (0x83 <? 0x81)) with false. change (Z.land 0x81 0x7F) with 1. cbn iota zeta.
    rewrite (proj2 (Z.ltb_ge _ _)) by lia. rewrite (read_len_1 _ _ (Z.of_nat (length body))) by (done || lia). rewrite !ret_bind. exact (Hend _ eq_refl).
  - change (0x82 <? 128) with false. change ((0x82 <? 0x81) || (0x83 <? 0x82)) with false. change (Z.land 0x82 0x7F) with 2. cbn iota zeta.
    rewrite (proj2 (Z.ltb_ge _ _)) by lia. rewrite (read_len_2 _ _ a b) by (done || lia). rewrite !ret_bind, <- E. exact (Hend _ eq_refl).
Qed.

Lemma integer_value_ok m x body b0 body' : arr_slice m x (Z.of_nat (length body)) = Ret body -> 0 <= x -> body = b0 :: body' ->
  Forall is_byte body -> b0 < 128 -> exists num, integer_value m x (Z.of_nat (length body)) = Ret (inl num) /\ mp_val num = be_value body.
Proof using.
  intros Hs Hx Eb Hbytes H0. unfold integer_value. rewrite Hs, ret_bind.
  assert (arr_get m x = Ret b0) as ->.
  { unfold arr_slice in Hs. destruct (_ && _ && _); [|done]. injection Hs as Hs. apply arr_get_Some; [done|].
    assert (take (Z.to_nat (Z.of_nat (length body))) (drop (Z.to_nat x) m) !! 0%nat = Some b0) as H1 by by rewrite Hs, Eb.
    rewrite lookup_take in H1. case_decide; [|done]. by rewrite lookup_drop, Nat.add_0_r in H1. }
  rewrite ret_bind. eexists. split; [reflexivity|]. rewrite high_bit by (rewrite Eb in Hbytes; apply Forall_cons in Hbytes as [Hb _]; exact Hb).
  rewrite (proj2 (Z.ltb_lt _ _)) by done. cbn [negb]. by apply mp_read_val.
Qed.

Lemma decode_integer_ok body rest inlen b0 body' : body = b0 :: body' -> b0 < 128 -> Forall is_byte body -> Z.of_nat (length body) < 65536 ->
  Z.of_nat (length (enc 0x02 body)) <= inlen ->
  exists num, der_decode_integer (enc 0x02 body ++ rest) inlen = Ret (inl num) /\ mp_val num = be_value body.
Proof using.
  intros Eb H0 Hbytes Hb Hi. destruct (enc_memory 0x02 body rest Hb) as (x & Ex & Hh & Hs & _ & Hx). rewrite Ex in Hi.
  assert (0 < length body)%nat as Hpos by (rewrite Eb; cbn; lia).
  set (m := enc 0x02 body ++ rest) in *. clearbody m. destruct (integer_value_ok m x body b0 body' Hs) as (num & En & Hv); [lia|done..|]. exists num. split; [|done].
  unfold der_decode_integer.
  destruct Hh as [Hn|Hn|a b Hn E Ha Hc]; rewrite (proj2 (Z.ltb_ge inlen 3)) by lia; rewrite get_0, ret_bind, get_1, ret_bind;
    change (negb (Z.land 2 0x1F =? 2)) with false; cbn iota.
  - destruct (low_bits (Z.of_nat (length body))) as [E1 E2]; [lia|]. rewrite E1. change (0 =? 0) with true. cbn iota. by rewrite (proj2 (Z.ltb_ge _ _)) by lia.
  - change (Z.land 0x81 0x80 =? 0) with false. change (Z.land 0x81 0x7F) with 1. cbn iota zeta. change ((4 <? 1) || (1 =? 0)) with false.
    rewrite (proj2 (Z.ltb_ge inlen _)) by lia. change (false || (4 <? 1) || (1 =? 0)) with false. cbn iota.
    rewrite (read_len_1 _ _ (Z.of_nat (length body))) by (done || lia). rewrite ret_bind. change (2 + 1) with 3. by rewrite (proj2 (Z.ltb_ge _ _)) by lia.
  - change (Z.land 0x82 0x80 =? 0) with false. change (Z.land 0x82 0x7F) with 2. cbn iota zeta.
    rewrite (proj2 (Z.ltb_ge inlen _)) by lia. change (false || (4 <? 2) || (2 =? 0)) with false. cbn iota.
    rewrite (read_len_2 _ _ a b) by (done || lia). rewrite ret_bind, <- E. change (2 + 2) with 4. by rewrite (proj2 (Z.ltb_ge _ _)) by lia.
Qed.

(** *** Integers *)

Lemma be_bytes_cons n v : be_bytes (S n) v = (v / 256 ^ Z.of_nat n) mod 256 :: be_bytes n v.
Proof using.
  revert v. induction n as [|n IH]; intros v; [cbn; by rewrite Z.div_1_r|]. change (be_bytes (S (S n)) v) with (be_bytes (S n) (v / 256) ++ [v mod 256]).
  rewrite IH. change (be_bytes (S n) v) with (be_bytes n (v / 256) ++ [v mod 256]). cbn [app]. f_equal. rewrite Z.div_div by lia. do 2 f_equal.
  rewrite Nat2Z.inj_succ, Z.pow_succ_r by lia. done.
Qed.

Lemma bit_count_bound v : 0 <= v -> 0 <= bit_count v /\ v < 2 ^ bit_count v.
Proof using.
  intros Hv. unfold bit_count. destruct (Z.eqb_spec v 0) as [->|Hn]; [by vm_compute|]. pose proof (Z.log2_nonneg v). pose proof (Z.log2_spec v ltac:(lia)). lia.
Qed.
Lemma int_size_pos v : 0 <= v -> exists k, int_size v = S k /\ Z.of_nat k = bit_count v / 8 /\ v < 128 * 256 ^ Z.of_nat k.
Proof using.
  intros Hv. destruct (bit_count_bound v Hv) as [H0 H1]. exists (Z.to_nat (bit_count v / 8)). unfold int_size.
  assert (0 <= bit_count v / 8) as Hd by (apply Z.div_pos; lia). split_and!; [lia|lia|]. rewrite Z2Nat.id by done.
  change 128 with (2 ^ 7). change 256 with (2 ^ 8). rewrite <- Z.pow_mul_r, <- Z.pow_add_r by lia.
  apply Z.lt_le_trans with (2 ^ bit_count v); [done|]. apply Z.pow_le_mono_r; [lia|]. Z.div_mod_to_equations. lia.
Qed.
Lemma int_bytes v : 0 <= v -> exists b0 l, be_bytes (int_size v) v = b0 :: l /\ b0 < 128 /\ be_value (be_bytes (int_size v) v) = v.
Proof using.
  intros Hv. destruct (int_size_pos v Hv) as (k & -> & Hk & Hb). rewrite be_bytes_cons. eexists _, _. split; [reflexivity|].
  assert (0 < 256 ^ Z.of_nat k) as Hp by (apply Z.pow_pos_nonneg; lia). split.
  - rewrite Z.mod_small; [apply Z.div_lt_upper_bound; lia|]. split; [apply Z.div_pos; lia|]. apply Z.div_lt_upper_bound; lia.
  - rewrite <- be_bytes_cons. apply be_value_bytes. rewrite Nat2Z.inj_succ, Z.pow_succ_r by lia. lia.
Qed.

Lemma der_length_enc num v : mp_val num = v -> 0 <= v -> Z.of_nat (int_size v) < 65536 -> der_length_integer num = Z.of_nat (length (enc_int v)).
Proof using.
  intros Ev Hv Hs. unfold der_length_integer, enc_int. rewrite length_enc, length_be_bytes, length_enc_len.
  rewrite mp_cmp_d_val, mp_size_val, mp_count_bits_val, Ev by (lia || by rewrite Ev). fold (bit_count v).
  destruct (bit_count_bound v Hv) as [H0 _].
  assert (match (v ?= 0) with
    | Lt => Z.shiftr (let z := bit_count v + (8 - Z.land (bit_count v) 7) in
        if (mp_cnt_lsb num + 1 =? bit_count v) && (Z.land (bit_count v) 7 =? 0) then z - 1 else z) 3
    | c => (if (Z.land (bit_count v) 7 =? 0) || bool_decide (c = Eq) then 1 else 0) + (bit_count v + 7) / 8
    end = Z.of_nat (int_size v)) as Ez.
  { unfold int_size. rewrite land_7, Z2Nat.id by (pose proof (Z.div_pos (bit_count v) 8 H0); lia).
    destruct (Z.compare_spec v 0) as [Hv0|?|?]; [rewrite Hv0; by vm_compute|lia|]. rewrite bool_decide_false, orb_false_r by done.
    destruct (Z.eqb_spec (bit_count v mod 8) 0); Z.div_mod_to_equations; lia. }
  cbv zeta in Ez |- *. rewrite Ez. destruct (Z.ltb_spec (Z.of_nat (int_size v)) 128) as [H1|H1]; [lia|].
  assert (forall f z l, 0 < z < 256 -> length_bytes (S (S f)) z l = l + 1) as L1.
  { intros f z l Hz. cbn [length_bytes]. rewrite (proj2 (Z.eqb_neq z 0)) by lia. replace (Z.shiftr z 8) with 0; [done|]. rewrite Z.shiftr_div_pow2 by lia. rewrite Z.div_small; lia. }
  destruct (Z.ltb_spec (Z.of_nat (int_size v)) 256) as [H2|H2]; [rewrite L1 by lia; lia|].
  assert (forall f z l, z <> 0 -> length_bytes (S f) z l = length_bytes f (Z.shiftr z 8) (l + 1)) as L2.
  { intros f z l Hz. cbn [length_bytes]. by rewrite (proj2 (Z.eqb_neq z 0)). }
  rewrite (L2 7%nat) by lia.
  rewrite (L1 5%nat); [lia|]. rewrite Z.shiftr_div_pow2 by lia. change (2 ^ 8) with 256. Z.div_mod_to_equations; lia.
Qed.

Lemma decode_int_item v rest inlen num0 : 0 <= v -> Z.of_nat (int_size v) < 65536 -> Z.of_nat (length (enc_int v)) <= inlen ->
  exists num, der_decode_item (ASN1_INTEGER num0) (enc_int v ++ rest) inlen = Ret (inl (ASN1_INTEGER num, Z.of_nat (length (enc_int v)))) /\ mp_val num = v.
Proof using.
  intros Hv Hs Hi. destruct (int_bytes v Hv) as (b0 & l & Eb & Hb0 & Hval).
  destruct (decode_integer_ok (be_bytes (int_size v) v) rest inlen b0 l Eb Hb0 (be_bytes_bytes _ _)) as (num & E & Ev); [by rewrite length_be_bytes|done|].
  exists num. rewrite Ev, Hval. split; [|done]. cbn [der_decode_item]. unfold enc_int at 1. rewrite E, ret_bind. cbn [with_length der_length].
  by rewrite (der_length_enc num v) by (done || by rewrite Ev, Hval).
Qed.

Lemma drop_next {A} (m : list A) x l rest : 0 <= x -> drop (Z.to_nat x) m = l ++ rest -> drop (Z.to_nat (x + Z.of_nat (length l))) m = rest.
Proof using. intros Hx E. rewrite Z2Nat.inj_add, Nat2Z.id by lia. rewrite <- drop_drop, E. apply drop_app_length. Qed.

(** A sequence of two integers. *)
Definition enc_pair (n e : Z) : list Z := enc 0x30 (enc_int n ++ enc_int e).
Lemma decode_int_pair n e rest inlen num0 num1 : 0 <= n -> 0 <= e -> Z.of_nat (int_size n) < 65536 -> Z.of_nat (int_size e) < 65536 ->
  Z.of_nat (length (enc_int n ++ enc_int e)) < 65536 -> Z.of_nat (length (enc_pair n e)) <= inlen ->
  exists a b, der_decode_sequence (enc_pair n e ++ rest) inlen [ASN1_INTEGER num0; ASN1_INTEGER num1] = Ret (inl [ASN1_INTEGER a; ASN1_INTEGER b])
    /\ mp_val a = n /\ mp_val b = e.
Proof using.
  intros Hn He Hsn Hse Hl Hi. unfold enc_pair in *. destruct (sequence_start_ok (enc_int n ++ enc_int e) rest inlen Hl Hi) as (x & E & Hx & Hd).
  rewrite <- app_assoc in Hd. rewrite length_app in Hl.
  destruct (decode_int_item n (enc_int e ++ rest) (Z.of_nat (length (enc_int n ++ enc_int e))) num0 Hn Hsn) as (a & Ea & Eva); [rewrite length_app; lia|].
  destruct (decode_int_item e rest (Z.of_nat (length (enc_int e))) num1 He Hse) as (b & Ebb & Evb); [lia|].
  exists a, b. split; [|done]. unfold der_decode_sequence. rewrite E, ret_bind. cbn [der_decode_items].
  rewrite Hd, Ea, ret_bind. rewrite (drop_next _ x (enc_int n) (enc_int e ++ rest)) by (done || lia).
  rewrite length_app, to_ulong_id by lia. replace (Z.of_nat (length (enc_int n) + length (enc_int e)) - Z.of_nat (length (enc_int n))) with (Z.of_nat (length (enc_int e))) by lia.
  rewrite Ebb. done.
Qed.

(** *** Bit strings *)

Definition bits8 (b : Z) : list Z := (fun i => if Z.land b (Z.shiftl 1 (7 - i)) =? 0 then 0 else 1) <$> [0; 1; 2; 3; 4; 5; 6; 7].
Definition bits_of (l : list Z) : list Z := mjoin (bits8 <$> l).

Lemma length_bits_of l : length (bits_of l) = (8 * length l)%nat.
Proof using.
  induction l as [|b l IH]; [done|]. change (bits_of (b :: l)) with (bits8 b ++ bits_of l). rewrite length_app, IH.
  change (length (bits8 b)) with 8%nat. cbn [length]. lia.
Qed.

Lemma bit_loop_byte n inp x i b : arr_get inp x = Ret b ->
  bit_loop (8 + n) inp x (8 * i) = let* l := bit_loop n inp (x + 1) (8 * (i + 1)) in Ret (bits8 b ++ l).
Proof using.
  intros E. assert (forall k, 0 <= k < 8 -> Z.land (8 * i + k) 7 = k) as Hk.
  { intros k Hk. rewrite land_7. replace (8 * i + k) with (k + i * 8) by lia. rewrite Z.mod_add, Z.mod_small by lia. done. }
  assert (forall k m, 0 <= k < 7 -> bit_loop (S m) inp x (8 * i + k) =
    let* l := bit_loop m inp x (8 * i + (k + 1)) in Ret ((if Z.land b (Z.shiftl 1 (7 - k)) =? 0 then 0 else 1) :: l)) as Hstep.
  { intros k m Hkm. cbn [bit_loop]. rewrite E, ret_bind, Hk by lia. rewrite (proj2 (Z.eqb_neq k 7)) by lia. by rewrite Z.add_assoc. }
  assert (bit_loop (S n) inp x (8 * i + 7) = let* l := bit_loop n inp (x + 1) (8 * (i + 1)) in Ret ((if Z.land b (Z.shiftl 1 (7 - 7)) =? 0 then 0 else 1) :: l)) as Hlast.
  { cbn [bit_loop]. rewrite E, ret_bind, Hk by lia. change (7 =? 7) with true. cbn iota. by replace (8 * i + 7 + 1) with (8 * (i + 1)) by lia. }
  rewrite <- (Z.add_0_r (8 * i)). change (8 + n)%nat with (S (S (S (S (S (S (S (S n)))))))).
  rewrite (Hstep 0), (Hstep 1), (Hstep 2), (Hstep 3), (Hstep 4), (Hstep 5), (Hstep 6) by lia. change (6 + 1) with 7. rewrite Hlast, !comp_bind_assoc.
  destruct (bit_loop n inp (x + 1) (8 * (i + 1))); done.
Qed.
Lemma bit_loop_ok l : forall inp x i, 0 <= x -> drop (Z.to_nat x) inp = l ++ drop (Z.to_nat x + length l) inp -> (Z.to_nat x + length l <= length inp)%nat ->
  bit_loop (8 * length l) inp x (8 * i) = Ret (bits_of l).
Proof using.
  induction l as [|b l IH]; intros inp x i Hx Hd Hl; [done|]. cbn [length] in *. replace (8 * S (length l))%nat with (8 + 8 * length l)%nat by lia.
  assert (inp !! Z.to_nat x = Some b) as Hb by by rewrite <- (Nat.add_0_r (Z.to_nat x)), <- lookup_drop, Hd.
  rewrite (bit_loop_byte _ inp x i b) by by apply arr_get_Some. rewrite IH; [done|lia| |lia].
  replace (Z.to_nat (x + 1)) with (S (Z.to_nat x)) by lia. rewrite (drop_S _ _ _ Hb) in Hd. cbn [app] in Hd. injection Hd as Hd.
  by replace (S (Z.to_nat x) + length l)%nat with (Z.to_nat x + S (length l))%nat by lia.
Qed.

Lemma decode_bits_ok bytes rest inlen outlen : Z.of_nat (length bytes) < 65535 -> (2 <= length bytes)%nat ->
  Z.of_nat (length (enc 0x03 (0 :: bytes))) <= inlen -> 8 * Z.of_nat (length bytes) <= outlen ->
  der_decode_bit_string (enc 0x03 (0 :: bytes) ++ rest) inlen outlen = Ret (inl (bits_of bytes)).
Proof using.
  intros Hb H2 Hi Ho. destruct (enc_memory 0x03 (0 :: bytes) rest) as (x & Ex & Hh & _ & Hd & Hx); [cbn [length]; lia|]. rewrite Ex in Hi.
  set (m := enc 0x03 (0 :: bytes) ++ rest) in *. assert (Z.of_nat (length m) = x + (1 + Z.of_nat (length bytes)) + Z.of_nat (length rest)) as Hm.
  { unfold m. rewrite length_app, Nat2Z.inj_add, Ex. cbn [length]. lia. }
  clearbody m. cbn [length] in *.
  assert (forall r, r = Some (Z.of_nat (S (length bytes)), x) -> match r with
    | None => Ret (inr CRYPT_INVALID_PACKET)
    | Some (dlen, x) =>
        if (dlen =? 0) || (inlen <? dlen + x) then Ret (inr CRYPT_INVALID_PACKET) else
        let* pad := arr_get m x in
        let blen := to_ulong (Z.shiftl (dlen - 1) 3 - Z.land pad 7) in
        if outlen <? blen then Ret (inr CRYPT_BUFFER_OVERFLOW)
        else let* bits := bit_loop (Z.to_nat blen) m (x + 1) 0 in Ret (inl bits)
    end = Ret (inl (bits_of bytes))) as Hend.
  { intros r ->. rewrite (proj2 (Z.eqb_neq _ _)), (proj2 (Z.ltb_ge _ _)) by lia. cbn [orb].
    assert (m !! Z.to_nat x = Some 0) as H0 by by rewrite <- (Nat.add_0_r (Z.to_nat x)), <- lookup_drop, Hd.
    rewrite (arr_get_Some m x 0) by (done || lia). rewrite ret_bind. change (Z.land 0 7) with 0. rewrite Z.shiftl_mul_pow2 by lia. change (2 ^ 3) with 8.
    replace ((Z.of_nat (S (length bytes)) - 1) * 8 - 0) with (8 * Z.of_nat (length bytes)) by lia. rewrite to_ulong_id by lia. cbv zeta.
    rewrite (proj2 (Z.ltb_ge _ _)) by lia. replace (Z.to_nat (8 * Z.of_nat (length bytes))) with (8 * length bytes)%nat by lia.
    pose proof (bit_loop_ok bytes m (x + 1) 0) as Hbits. change (8 * 0) with 0 in Hbits. rewrite Hbits; [done|lia| |lia]. rewrite (drop_S _ _ _ H0) in Hd. cbn [app] in Hd. injection Hd as Hd.
    replace (Z.to_nat (x + 1)) with (S (Z.to_nat x)) by lia. rewrite Hd. f_equal. rewrite <- drop_drop, Hd. symmetry. apply drop_app_length. }
  unfold der_decode_bit_string.
  destruct Hh as [Hn|Hn|a b Hn E Ha Hc]; rewrite (proj2 (Z.ltb_ge inlen 4)) by lia; rewrite get_0, ret_bind, get_1, ret_bind;
    change (negb (Z.land 3 0x1F =? 3)) with false; cbn iota; cbn [length] in *.
  - destruct (low_bits (Z.of_nat (S (length bytes)))) as [E1 E2]; [lia|]. rewrite E1, E2. change (negb (0 =? 0)) with false. cbn iota. rewrite ret_bind. exact (Hend _ eq_refl).
  - change (negb (Z.land 0x81 0x80 =? 0)) with true. change (Z.land 0x81 0x7F) with 1. cbn iota zeta. change ((1 =? 0) || (2 <? 1)) with false. cbn iota.
    rewrite (read_len_1 _ _ (Z.of_nat (S (length bytes)))) by (done || lia). rewrite !ret_bind. exact (Hend _ eq_refl).
  - change (negb (Z.land 0x82 0x80 =? 0)) with true. change (Z.land 0x82 0x7F) with 2. cbn iota zeta. change ((2 =? 0) || (2 <? 2)) with false. cbn iota.
    rewrite (read_len_2 _ _ a b) by (done || lia). rewrite !ret_bind, <- E. exact (Hend _ eq_refl).
Qed.

Lemma der_length_bits bytes : Z.of_nat (length bytes) < 65535 ->
  der_length_bit_string (8 * Z.of_nat (length bytes)) = inl (Z.of_nat (length (enc 0x03 (0 :: bytes)))).
Proof using.
  intros Hb. unfold der_length_bit_string. rewrite length_enc, length_enc_len, land_7, Z.shiftr_div_pow2 by lia. change (2 ^ 3) with 8. cbn [length].
  rewrite (Z.mul_comm 8), Z.div_mul, Z.mod_mul by lia. change (0 =? 0) with true. cbn iota zeta.
  replace (Z.of_nat (length bytes) + 0 + 1) with (Z.of_nat (S (length bytes))) by lia.
  destruct (Z.ltb_spec (Z.of_nat (S (length bytes))) 128); [f_equal; lia|]. destruct (Z.ltb_spec (Z.of_nat (S (length bytes))) 256); [f_equal; lia|].
  rewrite (proj2 (Z.ltb_lt _ _)) by lia. f_equal; lia.
Qed.

(** *** Algorithm identifiers

    A sequence of an object identifier and NULL: those of SHA-256 and of RSA
    keys. *)

Definition sha256_oid : list Z := [2; 16; 840; 1; 101; 3; 4; 2; 1].
Definition sha256_algorithm : list Z := [0x30; 0x0d; 0x06; 0x09; 0x60; 0x86; 0x48; 0x01; 0x65; 0x03; 0x04; 0x02; 0x01; 0x05; 0x00].
Definition rsa_oid : list Z := [1; 2; 840; 113549; 1; 1; 1].
Definition rsa_algorithm : list Z := [0x30; 0x0d; 0x06; 0x09; 0x2a; 0x86; 0x48; 0x86; 0xf7; 0x0d; 0x01; 0x01; 0x01; 0x05; 0x00].
Definition expected_algorithm : asn1 := ASN1_SEQUENCE [ASN1_OBJECT_IDENTIFIER 16 []; ASN1_NULL].
Definition algorithm (oid : list Z) : asn1 := ASN1_SEQUENCE [ASN1_OBJECT_IDENTIFIER (Z.of_nat (length oid)) oid; ASN1_NULL].

Lemma decode_algorithm (alg oid rest : list Z) inlen : (alg, oid) = (sha256_algorithm, sha256_oid) \/ (alg, oid) = (rsa_algorithm, rsa_oid) ->
  15 <= inlen -> der_decode_item expected_algorithm (alg ++ rest) inlen = Ret (inl (algorithm oid, 15)).
Proof using.
  intros Ho Hi. unfold expected_algorithm. rewrite decode_sequence_item. unfold der_decode_sequence, sequence_start.
  destruct Ho as [[= -> ->]|[= -> ->]]; cbn [app sha256_algorithm rsa_algorithm]; rewrite !get_0, !ret_bind, (proj2 (Z.ltb_ge inlen 2)), !get_1 by lia;
    rewrite !ret_bind; change (13 <? 128) with true; cbn iota; rewrite ret_bind; rewrite (proj2 (Z.ltb_ge inlen (2 + 13))) by lia; vm_compute; reflexivity.
Qed.

Lemma der_length_octets l : Z.of_nat (length l) < 65536 -> der_length_octet_string (Z.of_nat (length l)) = inl (Z.of_nat (length (enc 0x04 l))).
Proof using.
  intros Hl. unfold der_length_octet_string. rewrite length_enc, length_enc_len.
  destruct (Z.ltb_spec (Z.of_nat (length l)) 128); [f_equal; lia|]. destruct (Z.ltb_spec (Z.of_nat (length l)) 256); [f_equal; lia|].
  rewrite (proj2 (Z.ltb_lt _ _)) by lia. f_equal; lia.
Qed.

(** A sequence of an algorithm and one item more. *)
Definition enc_with_algorithm (alg tlv : list Z) : list Z := enc 0x30 (alg ++ tlv).
Lemma decode_with_algorithm alg oid tlv rest inlen item item' : (alg, oid) = (sha256_algorithm, sha256_oid) \/ (alg, oid) = (rsa_algorithm, rsa_oid) ->
  Z.of_nat (length (alg ++ tlv)) < 65536 -> Z.of_nat (length (enc_with_algorithm alg tlv)) <= inlen ->
  der_decode_item item (tlv ++ rest) (Z.of_nat (length tlv)) = Ret (inl (item', Z.of_nat (length tlv))) ->
  der_decode_sequence (enc_with_algorithm alg tlv ++ rest) inlen [expected_algorithm; item] = Ret (inl [algorithm oid; item']).
Proof using.
  intros Ho Hl Hi Hitem. destruct (sequence_start_ok (alg ++ tlv) rest inlen Hl Hi) as (x & E & Hx & Hd). rewrite <- app_assoc in Hd.
  assert (Z.of_nat (length alg) = 15) as Ha by (by destruct Ho as [[= -> _]|[= -> _]]). rewrite length_app in Hl.
  unfold der_decode_sequence, enc_with_algorithm. rewrite E, ret_bind. cbn [der_decode_items]. rewrite Hd, (decode_algorithm alg oid) by (done || rewrite length_app; lia).
  rewrite ret_bind. pose proof (drop_next _ x alg (tlv ++ rest) ltac:(lia) Hd) as Hd'. rewrite Ha in Hd'. rewrite Hd'.
  rewrite to_ulong_id by (rewrite length_app; lia). replace (Z.of_nat (length (alg ++ tlv)) - 15) with (Z.of_nat (length tlv)) by (rewrite length_app; lia).
  rewrite Hitem, !ret_bind. done.
Qed.

(** What is signed: the algorithm and the hash. *)
Definition digest_info (hash : list Z) : list Z := enc_with_algorithm sha256_algorithm (enc 0x04 hash).
Lemma decode_digest_info hash rest inlen size : Z.of_nat (length hash) < 65000 -> Z.of_nat (length hash) <= size ->
  Z.of_nat (length (digest_info hash)) <= inlen ->
  der_decode_sequence (digest_info hash ++ rest) inlen [expected_algorithm; ASN1_OCTET_STRING size []] =
    Ret (inl [algorithm sha256_oid; ASN1_OCTET_STRING (Z.of_nat (length hash)) hash]).
Proof using.
  intros Hl Hs Hi. pose proof (length_enc 0x04 hash) as He. pose proof (length_enc_len (length hash)) as He'.
  apply (decode_with_algorithm sha256_algorithm); [by left| |done|].
  - rewrite length_app. change (length sha256_algorithm) with 15%nat. repeat case_match; lia.
  - cbn [der_decode_item]. rewrite decode_octet_ok by lia. rewrite ret_bind. cbn [with_length der_length]. by rewrite der_length_octets by lia.
Qed.

(** A key with its algorithm, as OpenSSL writes it. *)
Definition subject_key (bytes : list Z) : list Z := enc_with_algorithm rsa_algorithm (enc 0x03 (0 :: bytes)).
Lemma decode_subject_key bytes rest inlen size : (2 <= length bytes)%nat -> Z.of_nat (length bytes) < 65000 -> 8 * Z.of_nat (length bytes) <= size ->
  Z.of_nat (length (subject_key bytes)) <= inlen ->
  der_decode_sequence (subject_key bytes ++ rest) inlen [expected_algorithm; ASN1_BIT_STRING size []] =
    Ret (inl [algorithm rsa_oid; ASN1_BIT_STRING (8 * Z.of_nat (length bytes)) (bits_of bytes)]).
Proof using.
  intros H2 Hl Hs Hi. pose proof (length_enc 0x03 (0 :: bytes)) as He. pose proof (length_enc_len (length (0 :: bytes))) as He'. cbn [length] in He, He'.
  apply (decode_with_algorithm rsa_algorithm); [by right| |done|].
  - rewrite length_app. change (length rsa_algorithm) with 15%nat. repeat case_match; lia.
  - cbn [der_decode_item]. rewrite decode_bits_ok by lia. rewrite ret_bind. cbn [with_length der_length]. rewrite length_bits_of.
    replace (Z.of_nat (8 * length bytes)) with (8 * Z.of_nat (length bytes)) by lia. by rewrite der_length_bits by lia.
Qed.
End items.

(** ** The laws hold of the integers *)

Definition Z_size (n : Z) : Z := (bit_count n + 7) / 8.
Lemma Z_size_fits n : 0 <= n -> 0 <= Z_size n /\ n < 256 ^ Z_size n.
Proof.
  intros Hn. destruct (bit_count_bound n Hn) as [H0 H1]. unfold Z_size. assert (0 <= (bit_count n + 7) / 8) as Hd by (apply Z.div_pos; lia). split; [done|].
  change 256 with (2 ^ 8). rewrite <- Z.pow_mul_r by lia. eapply Z.lt_le_trans; [exact H1|]. apply Z.pow_le_mono_r; [lia|]. Z.div_mod_to_equations; lia.
Qed.

Definition Z_bignum : Bignum.
Proof.
  refine {|
    mp_int := Z; mp_val := fun n => n; mp_read_unsigned_bin := be_value; mp_unsigned_bin_size := Z_size; mp_count_bits := bit_count;
    mp_cnt_lsb := fun n => Z.log2 (Z.land n (- n)); mp_to_unsigned_bin := fun n => be_bytes (Z.to_nat (Z_size n)) n; mp_cmp := Z.compare;
    mp_cmp_d := Z.compare; mp_2expt := fun k => 2 ^ k; mp_sub := Z.sub; mp_exptmod := fun b e n => inl (b ^ e mod n)
  |}; try done.
  - intros n Hn. destruct (Z_size_fits n Hn) as [H0 H1]. split_and!; [apply be_bytes_bytes|apply be_value_bytes; by rewrite Z2Nat.id|rewrite length_be_bytes; lia].
  - intros b e n _ _ _ _. by exists (b ^ e mod n).
Defined.
