(* ===== verification/Rsa.v ===== *)
(** * RSA keys and signatures (libtomcrypt, src/pk)

    PKCS #1 v1.5 as the verification of commands uses it: the public operation,
    removing the padding, reading the DER form of what was signed, and the import
    of a public key. *)

From S2P Require Import Prelude AesTables Aes AesInverse Der.

Local Open Scope Z_scope.

Definition CRYPT_MEM : Z := 13.
Definition CRYPT_PK_INVALID_TYPE : Z := 18.
Definition CRYPT_PK_INVALID_SIZE : Z := 22.
Definition LTC_LTC_PKCS_1_EMSA : Z := 1.
Definition LTC_LTC_PKCS_1_EME : Z := 2.
Definition MAX_RSA_SIZE : Z := 4096.

Section rsa.
Context `{Bignum}.

Inductive key_type := PK_PUBLIC | PK_PRIVATE.
Record rsa_key := {
  type : key_type;
  e : mp_int; d : mp_int; N : mp_int; p : mp_int; q : mp_int; qP : mp_int; dP : mp_int; dQ : mp_int
}.

(** ** The public operation *)

(** [rsa_exptmod] with PK_PUBLIC: the bytes written to [out], which has room
    for [outlen]. *)
Definition rsa_exptmod (inp : list Z) (inlen outlen : Z) (key : rsa_key) : comp (list Z + Z) :=
  let* b := arr_slice inp 0 inlen in
  let tmp := mp_read_unsigned_bin b in
  match mp_cmp (N key) tmp with
  | Lt => Ret (inr CRYPT_PK_INVALID_SIZE)
  | _ =>
      match mp_exptmod tmp (e key) (N key) with
      | inr err => Ret (inr err)
      | inl tmp =>
          let x := mp_unsigned_bin_size (N key) in
          if outlen <? x then Ret (inr CRYPT_BUFFER_OVERFLOW)
          else if mp_unsigned_bin_size (N key) <? mp_unsigned_bin_size tmp then Ret (inr CRYPT_ERROR)
          else
            let* out := arr_write (replicate (Z.to_nat x) 0) (x - mp_unsigned_bin_size tmp) (mp_to_unsigned_bin tmp) in
            Ret (inl out)
      end
  end.

(** ** PKCS #1 v1.5 padding *)

(** [for (; i < stop; i++) if (over(msg[i])) break;] *)
Fixpoint scan (over : Z -> bool) (fuel : nat) (msg : list Z) (i stop : Z) : comp Z :=
  match fuel with
  | O => Ret i
  | S fuel =>
      if stop <=? i then Ret i
      else let* b := arr_get msg i in if over b then Ret i else scan over fuel msg (i + 1) stop
  end.

Definition modulus_length (modulus_bitlen : Z) : Z :=
  Z.shiftr modulus_bitlen 3 + (if Z.land modulus_bitlen 7 =? 0 then 0 else 1).

(** Where the padding ends, or an error. *)
Definition padding_end (msg : list Z) (block_type modulus_len : Z) : comp (option Z) :=
  if block_type =? LTC_LTC_PKCS_1_EME then
    let* i := scan (fun b => b =? 0x00) (Z.to_nat modulus_len) msg 2 modulus_len in
    let ps_len := i - 2 in
    if (modulus_len <=? i + 1) || (ps_len <? 8) then Ret None else Ret (Some ps_len)
  else
    let* i := scan (fun b => negb (b =? 0xFF)) (Z.to_nat modulus_len) msg 2 (modulus_len - 1) in
    let* b := arr_get msg i in
    if negb (b =? 0) then Ret None else Ret (Some (i - 2)).

(** What is stored in [out], which has room for [outlen]; an error leaves
    [is_valid] at 0. *)
Definition pkcs_1_v1_5_decode (msg : list Z) (msglen block_type modulus_bitlen outlen : Z) : comp (list Z + Z) :=
  let modulus_len := modulus_length modulus_bitlen in
  if (modulus_len <? msglen) || (modulus_len <? 11) then Ret (inr CRYPT_PK_INVALID_SIZE) else
  let* b0 := arr_get msg 0 in
  if negb (b0 =? 0x00) then Ret (inr CRYPT_INVALID_PACKET) else
  let* b1 := arr_get msg 1 in
  if negb (b1 =? block_type) then Ret (inr CRYPT_INVALID_PACKET) else
  let* r := padding_end msg block_type modulus_len in
  match r with
  | None => Ret (inr CRYPT_INVALID_PACKET)
  | Some ps_len =>
      let n := to_ulong (msglen - (2 + ps_len + 1)) in
      if outlen <? n then Ret (inr CRYPT_BUFFER_OVERFLOW)
      else let* out := arr_slice msg (2 + ps_len + 1) n in Ret (inl out)
  end.

(** ** Signatures *)

(** [rsa_verify_hash_ex] with LTC_LTC_PKCS_1_V1_5: the return code and [stat].
    [oid] is that of the hash; [junk] is what the allocated buffer holds. *)
Definition rsa_verify_hash_ex (junk sig : list Z) (siglen : Z) (hash : list Z) (hashlen : Z) (oid : list Z) (key : rsa_key)
    : comp (Z * bool) :=
  let modulus_bitlen := mp_count_bits (N key) in
  let modulus_bytelen := mp_unsigned_bin_size (N key) in
  if negb (modulus_bytelen =? siglen) then Ret (CRYPT_INVALID_PACKET, false) else
  let* r := rsa_exptmod sig siglen siglen key in
  match r with
  | inr err => Ret (err, false)
  | inl tmpbuf =>
      let x := Z.of_nat (length tmpbuf) in
      if negb (x =? siglen) then Ret (CRYPT_INVALID_PACKET, false) else
      if (length oid =? 0)%nat then Ret (CRYPT_INVALID_ARG, false) else
      let outlen := modulus_length modulus_bitlen - 3 in
      if outlen <? 0 then Ret (CRYPT_MEM, false) else
      let* r := pkcs_1_v1_5_decode tmpbuf x LTC_LTC_PKCS_1_EMSA modulus_bitlen outlen in
      match r with
      | inr err => Ret (err, false)
      | inl out =>
          let mem := out ++ drop (length out) (take (Z.to_nat outlen) junk) in
          let* r := der_decode_sequence mem (Z.of_nat (length out))
            [ASN1_SEQUENCE [ASN1_OBJECT_IDENTIFIER 16 []; ASN1_NULL]; ASN1_OCTET_STRING siglen []] in
          match r with
          | inr err => Ret (err, false)
          | inl [ASN1_SEQUENCE [ASN1_OBJECT_IDENTIFIER size words; _]; ASN1_OCTET_STRING n octets] =>
              Ret (CRYPT_OK, (size =? Z.of_nat (length oid)) && bool_decide (take (length oid) words = oid)
                             && (n =? hashlen) && bool_decide (take (Z.to_nat hashlen) octets = hash))
          | inl _ => Ret (CRYPT_OK, false)
          end
      end
  end.

(** ** Keys *)

(** Eight bits make a byte. *)
Fixpoint pack_bits (bits : list Z) (y z : Z) : list Z :=
  match bits with
  | [] => []
  | b :: bits =>
      let y := Z.lor (Z.shiftl y 1) b in
      if z + 1 =? 8 then y :: pack_bits bits 0 0 else pack_bits bits y (z + 1)
  end.

Definition zero_int : mp_int := mp_read_unsigned_bin [].
Definition some_integer : asn1 := ASN1_INTEGER zero_int.
Definition public_key (n e : mp_int) : rsa_key :=
  {| type := PK_PUBLIC; e := e; d := zero_int; N := n; p := zero_int; q := zero_int; qP := zero_int; dP := zero_int; dQ := zero_int |}.

(** A sequence of two integers is a public key. *)
Definition import_pair (inp : list Z) (inlen : Z) : comp (rsa_key + Z) :=
  let* r := der_decode_sequence inp inlen [some_integer; some_integer] in
  Ret (match r with
       | inl [ASN1_INTEGER n; ASN1_INTEGER e] => inl (public_key n e)
       | inl _ => inr CRYPT_INVALID_PACKET
       | inr err => inr err
       end).

Definition import_private (inp : list Z) (inlen : Z) : comp (rsa_key + Z) :=
  let* r := der_decode_sequence inp inlen (replicate 9 some_integer) in
  Ret (match r with
       | inl [ASN1_INTEGER zero; ASN1_INTEGER n; ASN1_INTEGER e; ASN1_INTEGER d; ASN1_INTEGER p; ASN1_INTEGER q; ASN1_INTEGER dP; ASN1_INTEGER dQ; ASN1_INTEGER qP] =>
           inl {| type := PK_PRIVATE; e := e; d := d; N := n; p := p; q := q; qP := qP; dP := dP; dQ := dQ |}
       | inl _ => inr CRYPT_INVALID_PACKET
       | inr err => inr err
       end).

Definition rsa_import (inp : list Z) (inlen : Z) : comp (rsa_key + Z) :=
  let* r := der_decode_sequence inp inlen
    [ASN1_SEQUENCE [ASN1_OBJECT_IDENTIFIER 16 []; ASN1_NULL]; ASN1_BIT_STRING (MAX_RSA_SIZE * 8) []] in
  match r with
  | inl [_; ASN1_BIT_STRING size bits] =>
      let bytes := pack_bits bits 0 0 in
      let tmpbuf := bytes ++ drop (length bytes) (bits ++ replicate (Z.to_nat (MAX_RSA_SIZE * 8) - length bits) 0) in
      import_pair tmpbuf (Z.of_nat (length bytes))
  | inl _ => Ret (inr CRYPT_INVALID_PACKET)
  | inr _ =>
      let* r := der_decode_sequence inp inlen [some_integer] in
      match r with
      | inl [ASN1_INTEGER n] =>
          match mp_cmp_d n 0 with
          | Eq => import_private inp inlen
          | _ => match mp_cmp_d n 1 with
                 | Eq => Ret (inr CRYPT_PK_INVALID_TYPE)
                 | _ => import_pair inp inlen
                 end
          end
      | inl _ => Ret (inr CRYPT_INVALID_PACKET)
      | inr err => Ret (inr err)
      end
  end.
End rsa.

(** ** Verification *)

Section facts.
Context `{Bignum}.

Lemma modulus_length_bits b : 0 <= b -> modulus_length b = (b + 7) / 8.
Proof using.
  intros Hb. unfold modulus_length. rewrite land_7, Z.shiftr_div_pow2 by lia. change (2 ^ 3) with 8. destruct (Z.eqb_spec (b mod 8) 0); Z.div_mod_to_equations; lia.
Qed.
Lemma size_nonneg n : 0 <= mp_val n -> 0 <= mp_unsigned_bin_size n.
Proof using. intros Hn. destruct (mp_to_val n Hn) as (_ & _ & <-). lia. Qed.
Lemma size_length n : 0 <= mp_val n -> modulus_length (mp_count_bits n) = mp_unsigned_bin_size n.
Proof using.
  intros Hn. rewrite mp_size_val by done. apply modulus_length_bits. rewrite mp_count_bits_val by done. case_match; [done|].
  pose proof (Z.log2_nonneg (mp_val n)). lia.
Qed.
(** A smaller number has no more bytes. *)
Lemma size_mono a b : 0 <= mp_val a <= mp_val b -> mp_unsigned_bin_size a <= mp_unsigned_bin_size b.
Proof using.
  intros Hab. rewrite !mp_size_val, !mp_count_bits_val by lia. apply Z.div_le_mono; [lia|].
  destruct (Z.eqb_spec (mp_val a) 0), (Z.eqb_spec (mp_val b) 0); try lia.
  - pose proof (Z.log2_nonneg (mp_val b)). lia.
  - pose proof (Z.log2_le_mono (mp_val a) (mp_val b)). lia.
Qed.

Lemma to_bin_be n : 0 <= mp_val n -> forall L, mp_unsigned_bin_size n <= Z.of_nat L ->
  replicate (Z.to_nat (Z.of_nat L - mp_unsigned_bin_size n)) 0 ++ mp_to_unsigned_bin n = be_bytes L (mp_val n).
Proof using.
  intros Hn L HL. destruct (mp_to_val n Hn) as (Hb & Hv & Hl). pose proof (size_nonneg n Hn).
  apply be_value_inj; [apply Forall_app; split; [by apply Forall_replicate|done]|apply be_bytes_bytes|rewrite length_app, length_replicate, length_be_bytes; lia|].
  pose proof (be_value_bound _ Hb) as Hbd. rewrite Hv in Hbd. rewrite be_value_zeros, Hv, be_value_bytes; [done|]. split; [lia|].
  eapply Z.lt_le_trans; [apply Hbd|]. apply Z.pow_le_mono_r; lia.
Qed.

(** The public operation on as many bytes as the modulus has. *)
Lemma exptmod_ok key sig mem (L : nat) : 1 < mp_val (N key) -> Z.odd (mp_val (N key)) = true -> 0 < mp_val (e key) ->
  mp_unsigned_bin_size (N key) = Z.of_nat L -> Forall is_byte sig -> length sig = L -> be_value sig <= mp_val (N key) ->
  rsa_exptmod (sig ++ mem) (Z.of_nat L) (Z.of_nat L) key = Ret (inl (be_bytes L (be_value sig ^ mp_val (e key) mod mp_val (N key)))).
Proof using.
  intros HN Hodd He HL Hs Hl Hle. unfold rsa_exptmod. rewrite <- Hl. rewrite (arr_slice_app [] sig mem 0) by done. rewrite ret_bind, mp_cmp_val, mp_read_val by done.
  pose proof (be_value_bound sig Hs) as Hb. destruct (mp_exptmod_val (mp_read_unsigned_bin sig) (e key) (N key)) as (r & Er & Hr); [rewrite mp_read_val by done; lia|done..|].
  rewrite mp_read_val in Hr by done. pose proof (Z.mod_pos_bound (be_value sig ^ mp_val (e key)) (mp_val (N key)) ltac:(lia)) as Hm. rewrite <- Hr in *.
  assert (mp_unsigned_bin_size r <= mp_unsigned_bin_size (N key)) as Hsz by (apply size_mono; lia). pose proof (size_nonneg r ltac:(lia)).
  destruct (Z.compare_spec (mp_val (N key)) (be_value sig)) as [|Hlt|]; [|lia|];
    rewrite Er, (proj2 (Z.ltb_ge _ _)), (proj2 (Z.ltb_ge _ _)), HL, <- Hl by lia; rewrite Nat2Z.id;
    (assert (replicate (length sig) 0 = replicate (Z.to_nat (Z.of_nat (length sig) - mp_unsigned_bin_size r)) 0 ++ replicate (Z.to_nat (mp_unsigned_bin_size r)) 0) as ->
       by (rewrite <- replicate_add; f_equal; lia));
    (destruct (mp_to_val r) as (_ & _ & Hlen); [lia|]);
    (rewrite arr_write_hole by (rewrite length_replicate; lia)); rewrite ret_bind, drop_ge, app_nil_r by (rewrite length_replicate; lia);
    (rewrite to_bin_be by lia); done.
Qed.

(** A padded message. *)
Definition padded (k : nat) (D : list Z) : list Z := 0 :: 1 :: replicate k 0xFF ++ 0 :: D.

Lemma padded_end k D x : x = Z.of_nat k -> padded k D !! Z.to_nat (2 + x) = Some 0.
Proof using.
  intros ->. replace (Z.to_nat (2 + Z.of_nat k)) with (S (S k)) by lia. change (padded k D !! S (S k)) with ((replicate k 0xFF ++ 0 :: D) !! k).
  rewrite lookup_app_r by (by rewrite length_replicate). by rewrite length_replicate, Nat.sub_diag.
Qed.
Lemma padded_ff k D j : (j < k)%nat -> padded k D !! Z.to_nat (2 + Z.of_nat j) = Some 0xFF.
Proof using.
  intros Hj. replace (Z.to_nat (2 + Z.of_nat j)) with (S (S j)) by lia. change (padded k D !! S (S j)) with ((replicate k 0xFF ++ 0 :: D) !! j).
  rewrite lookup_app_l by (rewrite length_replicate; lia). by apply lookup_replicate.
Qed.

Lemma scan_ff k D f stop : (k < f)%nat -> 2 + Z.of_nat k <= stop ->
  scan (fun b => negb (b =? 0xFF)) f (padded k D) 2 stop = Ret (2 + Z.of_nat k).
Proof using.
  intros Hf Hstop. assert (forall j, (j <= k)%nat -> forall f, (k - j < f)%nat -> scan (fun b => negb (b =? 0xFF)) f (padded k D) (2 + Z.of_nat j) stop = Ret (2 + Z.of_nat k)) as Hj;
    [|apply (Hj 0%nat); lia].
  intros j Hj. remember (k - j)%nat as m eqn:Em. revert j Hj Em. induction m as [|m IH]; intros j Hj Em f' Hf'; (destruct f' as [|f']; [lia|]); cbn [scan].
  - assert (j = k) as -> by lia. destruct (Z.leb_spec stop (2 + Z.of_nat k)); [done|].
    by rewrite (arr_get_Some (padded k D) (2 + Z.of_nat k) 0) by (lia || by apply padded_end).
  - rewrite (proj2 (Z.leb_gt _ _)) by lia. rewrite (arr_get_Some (padded k D) (2 + Z.of_nat j) 0xFF); [|lia|].
    + rewrite ret_bind. change (negb (255 =? 255)) with false. cbn iota. replace (2 + Z.of_nat j + 1) with (2 + Z.of_nat (S j)) by lia. apply IH; lia.
    + apply padded_ff. lia.
Qed.

Lemma decode_padded k D bits outlen : modulus_length bits = Z.of_nat (length (padded k D)) -> (11 <= length (padded k D))%nat -> Z.of_nat (length (padded k D)) < 2 ^ 62 ->
  Z.of_nat (length D) <= outlen ->
  pkcs_1_v1_5_decode (padded k D) (Z.of_nat (length (padded k D))) LTC_LTC_PKCS_1_EMSA bits outlen = Ret (inl D).
Proof using.
  intros Hm H11 Hbig Ho. assert (length (padded k D) = (3 + k + length D)%nat) as Hl by (unfold padded; cbn [length]; rewrite length_app, length_replicate; cbn [length]; lia).
  unfold pkcs_1_v1_5_decode. rewrite Hm, !(proj2 (Z.ltb_ge _ _)) by lia. cbn [orb]. change (arr_get (padded k D) 0) with (@Ret Z 0). rewrite ret_bind.
  change (negb (0 =? 0)) with false. cbn iota. change (arr_get (padded k D) 1) with (@Ret Z 1). rewrite ret_bind. change (negb (1 =? LTC_LTC_PKCS_1_EMSA)) with false. cbn iota.
  unfold padding_end. change (LTC_LTC_PKCS_1_EMSA =? LTC_LTC_PKCS_1_EME) with false. cbn iota. rewrite scan_ff by lia. rewrite ret_bind.
  rewrite (arr_get_Some (padded k D) (2 + Z.of_nat k) 0); [|lia|].
  - rewrite ret_bind. change (negb (0 =? 0)) with false. cbn iota. rewrite ret_bind. cbn zeta. rewrite Hl.
    replace (Z.of_nat (3 + k + length D) - (2 + (2 + Z.of_nat k - 2) + 1)) with (Z.of_nat (length D)) by lia. rewrite to_ulong_id, (proj2 (Z.ltb_ge _ _)) by lia.
    replace (padded k D) with ((0 :: 1 :: replicate k 0xFF ++ [0]) ++ D ++ []) by (unfold padded; cbn [app]; by rewrite <- app_assoc, app_nil_r).
    rewrite arr_slice_app; [done| |done]. cbn [length]. rewrite length_app, length_replicate. cbn [length]. lia.
  - by apply padded_end.
Qed.

(** *** What is accepted *)

Lemma scan_sound f msg i stop r : scan (fun b => negb (b =? 0xFF)) f msg i stop = Ret r -> 0 <= i ->
  i <= r /\ forall j, i <= j < r -> msg !! Z.to_nat j = Some 0xFF.
Proof using.
  revert i. induction f as [|f IH]; intros i E Hi; cbn [scan] in E; [injection E as <-; split; [lia|intros; lia]|].
  destruct (stop <=? i); [injection E as <-; split; [lia|intros; lia]|]. unfold arr_get in E. rewrite (proj2 (Z.leb_le 0 i)) in E by done.
  destruct (msg !! Z.to_nat i) as [b|] eqn:Eb; [|done]. cbn [comp_of_option mbind comp_bind] in E. destruct (Z.eqb_spec b 0xFF) as [->|Hb]; cbn [negb] in E.
  - destruct (IH _ E ltac:(lia)) as [Hr Hj]. split; [lia|]. intros j Hij. destruct (decide (j = i)) as [->|]; [done|]. apply Hj. lia.
  - injection E as <-. split; [lia|intros; lia].
Qed.

Lemma padded_split msg (k : nat) : msg !! 0%nat = Some 0 -> msg !! 1%nat = Some 1 ->
  (forall j, 2 <= j < 2 + Z.of_nat k -> msg !! Z.to_nat j = Some 0xFF) -> msg !! S (S k) = Some 0 ->
  msg = padded k (drop (3 + k) msg).
Proof using.
  intros H0 H1 Hj Hk. destruct msg as [|b0 [|b1 msg]]; [done..|]. injection H0 as ->. injection H1 as ->. unfold padded. cbn [Nat.add drop]. do 2 f_equal.
  change (msg !! k = Some 0) in Hk. rewrite <- (take_drop_middle msg k 0 Hk) at 1. f_equal.
  apply list_eq. intros j. destruct (decide (j < k)%nat) as [Hlt|Hge].
  - rewrite lookup_take, decide_True by done. specialize (Hj (Z.of_nat (S (S j))) ltac:(lia)). rewrite Nat2Z.id in Hj. change (msg !! j = Some 0xFF) in Hj. rewrite Hj.
    symmetry. by apply lookup_replicate.
  - rewrite lookup_take, decide_False by done. symmetry. apply lookup_ge_None. rewrite length_replicate. lia.
Qed.

Lemma arr_get_inv {A} (l : list A) i x : arr_get l i = Ret x -> 0 <= i /\ l !! Z.to_nat i = Some x.
Proof using. unfold arr_get. destruct (Z.leb_spec 0 i); [|done]. destruct (l !! Z.to_nat i); [|done]. by intros [= ->]. Qed.

Lemma decode_sound msg bits outlen D : pkcs_1_v1_5_decode msg (Z.of_nat (length msg)) LTC_LTC_PKCS_1_EMSA bits outlen = Ret (inl D) -> Z.of_nat (length msg) < 2 ^ 62 ->
  exists k, msg = padded k D.
Proof using.
  unfold pkcs_1_v1_5_decode. intros E Hbig. destruct (_ || _); [done|].
  destruct (arr_get msg 0) as [b0|] eqn:E0; [|done]. cbn [mbind comp_bind] in E. apply arr_get_inv in E0 as [_ E0]. destruct (Z.eqb_spec b0 0) as [->|]; [|done]. cbn [negb] in E.
  destruct (arr_get msg 1) as [b1|] eqn:E1; [|done]. cbn [mbind comp_bind] in E. apply arr_get_inv in E1 as [_ E1]. destruct (Z.eqb_spec b1 LTC_LTC_PKCS_1_EMSA) as [->|]; [|done]. cbn [negb] in E.
  unfold padding_end in E. change (LTC_LTC_PKCS_1_EMSA =? LTC_LTC_PKCS_1_EME) with false in E. cbn iota in E.
  destruct (scan _ _ _ _ _) as [i|] eqn:Es; [|done]. destruct (scan_sound _ _ _ _ _ Es ltac:(lia)) as [Hi Hj]. cbn [mbind comp_bind] in E.
  destruct (arr_get msg i) as [b|] eqn:Eb; [|done]. cbn [mbind comp_bind] in E. apply arr_get_inv in Eb as [_ Eb].
  destruct (Z.eqb_spec b 0) as [->|]; [|done]. cbn [negb] in E. rewrite ret_bind in E. pose proof (lookup_lt_Some _ _ _ Eb) as Hlt.
  set (k := Z.to_nat (i - 2)). assert (i = 2 + Z.of_nat k) as Ei by lia.
  assert (msg = padded k (drop (3 + k) msg)) as Em.
  { apply padded_split; [done|done|intros j Hjk; apply Hj; lia|]. by replace (S (S k)) with (Z.to_nat i) by lia. }
  replace (Z.of_nat (length msg) - (2 + (i - 2) + 1)) with (Z.of_nat (length (drop (3 + k) msg))) in E by (rewrite length_drop; lia).
  rewrite to_ulong_id in E by (rewrite length_drop; lia). destruct (outlen <? _); [done|]. unfold arr_slice in E.
  destruct (_ && _ && _); [|done]. cbn [mbind comp_bind] in E. injection E as <-. exists k. rewrite Em at 1. f_equal.
  replace (Z.to_nat (2 + (i - 2) + 1)) with (3 + k)%nat by lia. by rewrite Nat2Z.id, firstn_all.
Qed.

(** The digest that the decoded items show. *)
Definition shows_digest (oid hash : list Z) (items : list asn1) : Prop :=
  exists size words null n octets, items = [ASN1_SEQUENCE [ASN1_OBJECT_IDENTIFIER size words; null]; ASN1_OCTET_STRING n octets]
    /\ size = Z.of_nat (length oid) /\ take (length oid) words = oid /\ n = Z.of_nat (length hash) /\ take (length hash) octets = hash.

(** The verdict depends on the padded message alone. *)
Lemma verify_message key sig hash oid junk (L : nat) : 0 <= mp_val (N key) -> mp_unsigned_bin_size (N key) = Z.of_nat L -> (11 <= L)%nat -> Z.of_nat L < 2 ^ 62 -> oid <> [] ->
  forall em, rsa_exptmod sig (Z.of_nat L) (Z.of_nat L) key = Ret (inl em) -> length em = L ->
  rsa_verify_hash_ex junk sig (Z.of_nat L) hash (Z.of_nat (length hash)) oid key = Ret (CRYPT_OK, true) <->
  exists k D items, em = padded k D
    /\ der_decode_sequence (D ++ drop (length D) (take (L - 3) junk)) (Z.of_nat (length D)) [expected_algorithm; ASN1_OCTET_STRING (Z.of_nat L) []] = Ret (inl items)
    /\ shows_digest oid hash items.
Proof using.
  intros HN HL H11 Hbig Hoid em Eem Hem. unfold rsa_verify_hash_ex. rewrite HL, Z.eqb_refl. cbn [negb]. rewrite Eem, ret_bind, Hem, Z.eqb_refl. cbn [negb].
  destruct (length oid =? 0)%nat eqn:Eo; [apply Nat.eqb_eq in Eo; by destruct oid|]. rewrite size_length, HL, (proj2 (Z.ltb_ge _ _)) by (done || lia).
  replace (Z.to_nat (Z.of_nat L - 3)) with (L - 3)%nat by lia. rewrite <- Hem. split.
  - intros E. destruct (pkcs_1_v1_5_decode _ _ _ _ _) as [[D|err]|] eqn:Ed; [| |done]; cbn [mbind comp_bind] in E.
    2: { exfalso. injection E as _ E. done. }
    destruct (decode_sound em _ _ D Ed ltac:(lia)) as [k Ek]. destruct (der_decode_sequence _ _ _) as [[items|err]|] eqn:Ei; [| |done]; cbn [mbind comp_bind] in E.
    2: { exfalso. injection E as _ E. done. }
    exists k, D, items. split_and!; [done|exact Ei|].
    destruct items as [|[| | | | |[|[| | | |size words|] [|null []]]] [|[| |n octets| | |] []]]; try done. injection E as E.
    apply andb_prop in E as [E E4%bool_decide_eq_true]. apply andb_prop in E as [E E3%Z.eqb_eq]. apply andb_prop in E as [E1%Z.eqb_eq E2%bool_decide_eq_true].
    rewrite Nat2Z.id in E4. by exists size, words, null, n, octets.
  - intros (k & D & items & -> & Ei & (size & words & null & n & octets & -> & -> & E2 & -> & E4)).
    assert (length (padded k D) = (3 + k + length D)%nat) as Hl by (unfold padded; cbn [length]; rewrite length_app, length_replicate; cbn [length]; lia).
    rewrite decode_padded by (rewrite ?size_length, ?HL by done; lia). rewrite ret_bind. unfold expected_algorithm in Ei. rewrite Ei, ret_bind.
    rewrite !Z.eqb_refl, Nat2Z.id, !bool_decide_true by done. done.
Qed.

(** *** Genuine signatures *)

Lemma size_bounds n L : 0 <= mp_val n -> (0 < L)%nat -> mp_unsigned_bin_size n = Z.of_nat L -> 256 ^ (Z.of_nat L - 1) <= mp_val n < 256 ^ Z.of_nat L.
Proof using.
  intros Hn HL E. rewrite mp_size_val, mp_count_bits_val in E by done. destruct (Z.eqb_spec (mp_val n) 0) as [E0|E0]; [change ((0 + 7) / 8) with 0 in E; lia|].
  pose proof (Z.log2_spec (mp_val n) ltac:(lia)) as [H1 H2]. pose proof (Z.log2_nonneg (mp_val n)). change 256 with (2 ^ 8). rewrite <- !Z.pow_mul_r by lia. split.
  - eapply Z.le_trans; [|exact H1]. apply Z.pow_le_mono_r; Z.div_mod_to_equations; lia.
  - eapply Z.lt_le_trans; [exact H2|]. apply Z.pow_le_mono_r; Z.div_mod_to_equations; lia.
Qed.

Lemma size_of_range n (L : nat) : (0 < L)%nat -> 256 ^ (Z.of_nat L - 1) <= mp_val n < 256 ^ Z.of_nat L -> mp_unsigned_bin_size n = Z.of_nat L.
Proof using.
  intros HL Hn. assert (0 < 256 ^ (Z.of_nat L - 1)) as Hp by (apply Z.pow_pos_nonneg; lia). rewrite mp_size_val, mp_count_bits_val, (proj2 (Z.eqb_neq (mp_val n) 0)) by lia.
  assert (0 < mp_val n) as Hpos by lia. change 256 with (2 ^ 8) in Hn. rewrite <- !Z.pow_mul_r in Hn by lia. destruct Hn as [H1 H2].
  apply Z.log2_le_pow2 in H1; [|lia]. apply Z.log2_lt_pow2 in H2; [|lia]. Z.div_mod_to_equations; lia.
Qed.

Lemma length_digest_info hash : length hash = 32%nat -> length (digest_info hash) = 51%nat.
Proof using. intros Hh. unfold digest_info, enc_with_algorithm, enc. cbn [length]. rewrite !length_app. cbn [length]. rewrite !length_app, Hh. done. Qed.
Lemma digest_info_bytes hash : length hash = 32%nat -> Forall is_byte hash -> Forall is_byte (digest_info hash).
Proof using.
  intros Hl Hh. unfold digest_info, enc_with_algorithm, enc. rewrite length_app. cbn [length]. rewrite length_app, Hl. cbn [app].
  change (enc_len _) with [49] at 1. change (enc_len 32) with [32]. cbn [app sha256_algorithm]. repeat (constructor; [by vm_compute|]). done.
Qed.
Lemma padded_bytes k D : Forall is_byte D -> Forall is_byte (padded k D).
Proof using.
  intros HD. unfold padded. constructor; [by vm_compute|]. constructor; [by vm_compute|]. apply Forall_app. split; [by apply Forall_replicate|]. by constructor; [vm_compute|].
Qed.
Lemma length_padded k D : length (padded k D) = (3 + k + length D)%nat.
Proof using. unfold padded. cbn [length]. rewrite length_app, length_replicate. cbn [length]. lia. Qed.

(** A message with the digest, padded in any way and followed by anything. *)
Lemma verify_digest key sig hash junk (L k : nat) garbage : 0 <= mp_val (N key) -> mp_unsigned_bin_size (N key) = Z.of_nat L -> (11 <= L)%nat -> Z.of_nat L < 2 ^ 62 ->
  length hash = 32%nat -> L = (3 + k + (51 + length garbage))%nat ->
  rsa_exptmod sig (Z.of_nat L) (Z.of_nat L) key = Ret (inl (padded k (digest_info hash ++ garbage))) ->
  rsa_verify_hash_ex junk sig (Z.of_nat L) hash 32 sha256_oid key = Ret (CRYPT_OK, true).
Proof using.
  intros HN HL H11 Hbig Hh El Eem. change 32 with (Z.of_nat 32). rewrite <- Hh. pose proof (length_digest_info hash Hh) as Hd.
  apply (verify_message key sig hash sha256_oid junk L HN HL H11 Hbig ltac:(done) _ Eem); [rewrite length_padded, length_app; lia|].
  exists k, (digest_info hash ++ garbage). eexists. split; [done|]. rewrite <- app_assoc. rewrite decode_digest_info by (rewrite ?length_app; lia). split; [reflexivity|].
  eexists _, _, _, _, _. split; [reflexivity|]. rewrite Hh. split_and!; [done|done|done|by apply firstn_all2; lia].
Qed.

(** *** Keys *)

Definition packed (bits : list Z) : Z := fold_left (fun y b => Z.lor (Z.shiftl y 1) b) bits 0.
Lemma pack_byte b l : is_byte b -> pack_bits (bits8 b ++ l) 0 0 = b :: pack_bits l 0 0.
Proof using.
  intros Hb. transitivity (packed (bits8 b) :: pack_bits l 0 0); [reflexivity|]. f_equal.
  by apply Z.eqb_eq, (all_bytes (fun b => packed (bits8 b) =? b)); [vm_compute|].
Qed.
Lemma pack_bits_of l : Forall is_byte l -> pack_bits (bits_of l) 0 0 = l.
Proof using. induction 1 as [|b l Hb _ IH]; [done|]. change (bits_of (b :: l)) with (bits8 b ++ bits_of l). by rewrite pack_byte, IH. Qed.

Lemma enc_len_bytes n : Z.of_nat n < 65536 -> Forall is_byte (enc_len n).
Proof using.
  intros Hn. unfold enc_len, is_byte. repeat case_match; repeat constructor; try lia; try (by vm_compute); try (apply Z.mod_pos_bound; lia);
    [apply Z.div_pos; lia|apply Z.div_lt_upper_bound; lia].
Qed.
Lemma enc_bytes tag body : is_byte tag -> Z.of_nat (length body) < 65536 -> Forall is_byte body -> Forall is_byte (enc tag body).
Proof using. intros Ht Hl Hb. unfold enc. constructor; [done|]. apply Forall_app. split; [by apply enc_len_bytes|done]. Qed.
Lemma pair_bytes n e : Z.of_nat (length (enc_pair n e)) < 65000 -> Forall is_byte (enc_pair n e).
Proof using.
  unfold enc_pair. rewrite length_enc, length_app. intros Hl. apply enc_bytes; [by vm_compute|rewrite length_app; lia|].
  unfold enc_int in *. rewrite !Nat2Z.inj_add, !length_enc in Hl. apply Forall_app. split; apply enc_bytes; (by vm_compute) || (by apply be_bytes_bytes) || lia.
Qed.

Lemma subject_key_bytes n e : Z.of_nat (length (enc_pair n e)) < 65000 -> Forall is_byte (subject_key (enc_pair n e)).
Proof using.
  intros Hl. assert (Z.of_nat (length (enc 0x03 (0 :: enc_pair n e))) < 65500) as H3 by (rewrite length_enc, length_enc_len; cbn [length]; repeat case_match; lia).
  unfold subject_key, enc_with_algorithm. apply enc_bytes; [by vm_compute|rewrite length_app; change (length rsa_algorithm) with 15%nat; lia|].
  apply Forall_app. split; [by repeat constructor; vm_compute|]. apply enc_bytes; [by vm_compute|cbn [length]; lia|]. constructor; [by vm_compute|by apply pair_bytes].
Qed.

(** The DER form of a public key is imported as this key. *)
Lemma import_subject_key n ex rest inlen : 0 <= n -> 0 <= ex -> Z.of_nat (length (enc_pair n ex)) <= 4096 ->
  Z.of_nat (length (subject_key (enc_pair n ex))) <= inlen ->
  exists key, rsa_import (subject_key (enc_pair n ex) ++ rest) inlen = Ret (inl key) /\ type key = PK_PUBLIC /\ mp_val (N key) = n /\ mp_val (e key) = ex.
Proof using.
  intros Hn He Hl Hi. pose proof (pair_bytes n ex ltac:(lia)) as Hb. assert (2 <= length (enc_pair n ex))%nat as H2.
  { unfold enc_pair. pose proof (length_enc 0x30 (enc_int n ++ enc_int ex)) as E. rewrite length_enc_len in E. repeat case_match; lia. }
  unfold rsa_import. change (ASN1_SEQUENCE [ASN1_OBJECT_IDENTIFIER 16 []; ASN1_NULL]) with expected_algorithm.
  rewrite decode_subject_key by (unfold MAX_RSA_SIZE; lia). rewrite ret_bind, pack_bits_of by done. unfold import_pair, some_integer.
  assert (Z.of_nat (length (enc_int n ++ enc_int ex)) < 4096) as Hp.
  { unfold enc_pair in Hl. rewrite length_enc in Hl. lia. }
  rewrite length_app in Hp. unfold enc_int in Hp at 1 2. rewrite !Nat2Z.inj_add, !length_enc, !length_be_bytes in Hp.
  destruct (decode_int_pair n ex (drop (length (enc_pair n ex)) (bits_of (enc_pair n ex) ++ replicate (Z.to_nat (MAX_RSA_SIZE * 8) - length (bits_of (enc_pair n ex))) 0))
    (Z.of_nat (length (enc_pair n ex))) zero_int zero_int Hn He) as (a & b & -> & Ea & Eb); [lia|lia| |lia|].
  - unfold enc_pair in Hl. rewrite length_enc in Hl. lia.
  - rewrite ret_bind. by exists (public_key a b).
Qed.

(** *** Forged signatures *)

Lemma cube_floor X : 1 <= X -> exists s, 0 <= s /\ s * s * s < X <= (s + 1) * (s + 1) * (s + 1).
Proof using.
  intros HX. pattern X. apply (Zlt_lower_bound_ind _ 1); [|done]. clear X HX. intros X IH HX. destruct (decide (X = 1)) as [->|Hn]; [exists 0; lia|].
  destruct (IH (X - 1)) as (s & Hs & H1); [lia|]. destruct (decide (X <= (s + 1) * (s + 1) * (s + 1))); [exists s; lia|]. exists (s + 1). split; [lia|]. split; [lia|]. nia.
Qed.

(** The cube just above a number with [L - 54] bytes of zeros differs in these
    only. *)
Lemma cube_above (L : nat) P : (160 <= L)%nat -> 1 <= P < 2 * 256 ^ 52 -> exists c g, 0 <= c /\ 0 <= g < 256 ^ (Z.of_nat L - 54) /\ c * c * c = P * 256 ^ (Z.of_nat L - 54) + g.
Proof using.
  intros HL HP. set (B := 256 ^ (Z.of_nat L - 54)). assert (0 < B) as HB by (apply Z.pow_pos_nonneg; lia).
  destruct (cube_floor (P * B)) as (s & Hs & H1 & H2); [nia|]. exists (s + 1), ((s + 1) * (s + 1) * (s + 1) - P * B). split; [lia|]. split; [|lia]. split; [lia|].
  set (t := (8 * Z.of_nat L - 15) / 3 + 1). assert (8 * Z.of_nat L - 15 < 3 * t) as Ht by (unfold t; Z.div_mod_to_equations; lia).
  assert (2 * t + 2 <= 8 * (Z.of_nat L - 54)) as Ht2 by (unfold t; Z.div_mod_to_equations; lia).
  assert (0 <= t) as Ht0 by lia. set (T := 2 ^ t). assert (0 < T) as HT by (apply Z.pow_pos_nonneg; lia).
  assert (P * B < T * T * T) as HPT.
  { assert (T * T * T = 2 ^ (3 * t)) as -> by (unfold T; rewrite <- !Z.pow_add_r by lia; f_equal; lia).
    apply Z.lt_le_trans with (2 * 256 ^ 52 * B); [nia|]. unfold B. change 256 with (2 ^ 8). rewrite <- !Z.pow_mul_r by lia.
    change (2 * 2 ^ (8 * 52)) with (2 ^ 417). rewrite <- Z.pow_add_r by lia. apply Z.pow_le_mono_r; lia. }
  assert (s < T) as HsT.
  { apply Z.nle_gt. intros Hge. assert (T * T <= s * s) by (apply Z.mul_le_mono_nonneg; lia). assert (T * T * T <= s * s * s) by (apply Z.mul_le_mono_nonneg; nia). lia. }
  assert (4 * (T * T) <= B) as HTB.
  { unfold B. change 256 with (2 ^ 8). rewrite <- Z.pow_mul_r by lia. change 4 with (2 ^ 2). unfold T. rewrite <- !Z.pow_add_r by lia. apply Z.pow_le_mono_r; lia. }
  nia.
Qed.

Lemma forge (L : nat) hash : (160 <= L)%nat -> Z.of_nat L < 2 ^ 62 -> length hash = 32%nat -> Forall is_byte hash ->
  exists sig, length sig = L /\ Forall is_byte sig /\ forall key junk mem, mp_val (e key) = 3 -> Z.odd (mp_val (N key)) = true -> 0 <= mp_val (N key) ->
    mp_unsigned_bin_size (N key) = Z.of_nat L -> rsa_verify_hash_ex junk (sig ++ mem) (Z.of_nat L) hash 32 sha256_oid key = Ret (CRYPT_OK, true).
Proof using.
  intros HL Hbig Hh Hb. pose proof (length_digest_info hash Hh) as Hd. pose proof (digest_info_bytes hash Hh Hb) as Hdb.
  pose proof (padded_bytes 0 _ Hdb) as Hpb. set (P := be_value (padded 0 (digest_info hash))).
  assert (length (padded 0 (digest_info hash)) = 54%nat) as Hp by (rewrite length_padded; lia).
  assert (1 <= P < 2 * 256 ^ 52) as HP.
  { unfold P, padded. cbn [replicate app]. change (0 :: 1 :: 0 :: digest_info hash) with ([0; 1; 0] ++ digest_info hash). rewrite be_value_app, Hd.
    pose proof (be_value_bound _ Hdb) as Hbd. rewrite Hd in Hbd. change (be_value [0; 1; 0]) with 256. change (Z.of_nat 51) with 51 in *. lia. }
  destruct (cube_above L P HL HP) as (c & g & Hc & Hg & E). set (B := 256 ^ (Z.of_nat L - 54)) in *.
  assert (256 ^ (Z.of_nat L - 1) = 256 ^ 53 * B) as EN by (unfold B; rewrite <- Z.pow_add_r by lia; f_equal; lia).
  assert (c * c * c < 256 ^ (Z.of_nat L - 1)) as Hlt by (rewrite EN, E; nia).
  assert (c <= c * c * c) as Hcc by nia.
  assert (256 ^ (Z.of_nat L - 1) < 256 ^ Z.of_nat L) as HLL by (apply Z.pow_lt_mono_r; lia).
  exists (be_bytes L c). split_and!; [apply length_be_bytes|apply be_bytes_bytes|]. intros key junk mem He Hodd HN Hsz.
  destruct (size_bounds (N key) L HN ltac:(lia) Hsz) as [Hlo Hhi]. assert (1 < 256 ^ (Z.of_nat L - 1)) by (apply Z.pow_gt_1; lia).
  assert (be_value (be_bytes L c) = c) as Ec by (apply be_value_bytes; lia).
  pose proof (exptmod_ok key (be_bytes L c) mem L ltac:(lia) Hodd ltac:(lia) Hsz (be_bytes_bytes _ _) (length_be_bytes _ _) ltac:(lia)) as Ex. rewrite Ec, He in Ex.
  replace (c ^ 3) with (c * c * c) in Ex by lia. rewrite Z.mod_small in Ex by lia.
  apply (verify_digest key _ hash junk L 0 (be_bytes (L - 54) g)); [done|done|lia|done|done|rewrite length_be_bytes; lia|]. rewrite Ex. do 2 f_equal.
  rewrite E. replace (padded 0 (digest_info hash ++ be_bytes (L - 54) g)) with (padded 0 (digest_info hash) ++ be_bytes (L - 54) g) by done.
  assert (B = 256 ^ Z.of_nat (L - 54)) as EB by (unfold B; f_equal; lia). rewrite EB in Hg |- *.
  replace (be_bytes L) with (be_bytes (54 + (L - 54))) by (f_equal; lia). rewrite be_bytes_app; [|done|change (Z.of_nat 54) with 54; lia].
  f_equal. unfold P. rewrite <- Hp. by apply be_bytes_value.
Qed.
End facts.
