(* ===== verification/Cbc.v ===== *)
(** * Block ciphers and the CBC mode (libtomcrypt)

    The table of registered ciphers (src/misc/crypt) and the chaining of blocks
    (src/modes/cbc), over any block cipher: a descriptor with the laws of the
    class [BlockCipher].  AES (Aes.v) is an instance.  No descriptor of the
    program has accelerators, and the bytewise build of the loops is the one
    translated.  The table is an array of 32 entries, [None] for a null name;
    the IV of a context is its array of 128 bytes. *)

From S2P Require Import Prelude AesTables Aes AesInverse AesSpec.

Local Open Scope Z_scope.

Definition CRYPT_INVALID_CIPHER : Z := 10.
Definition TAB_SIZE : Z := 32.
Definition MAXBLOCKSIZE : Z := 128.

Section cbc.
(** The union [symmetric_key]. *)
Context {symmetric_key : Type}.

Record ltc_cipher_descriptor := {
  name : string;
  ID : Z;
  min_key_length : Z;
  max_key_length : Z;
  block_length : Z;
  default_rounds : Z;
  setup : list Z -> Z -> Z -> symmetric_key -> Z * symmetric_key;
  ecb_encrypt : list Z -> symmetric_key -> Z * list Z;
  ecb_decrypt : list Z -> symmetric_key -> Z * list Z
}.

Definition table : Type := list (option ltc_cipher_descriptor).

(** ** The table *)

Definition cipher_table0 : table := replicate (Z.to_nat TAB_SIZE) None.

(** The first entry that [p] holds of, as a loop over the table finds it. *)
Fixpoint find_from (p : option ltc_cipher_descriptor -> bool) (x : Z) (t : table) : option Z :=
  match t with
  | [] => None
  | d :: t => if p d then Some x else find_from p (x + 1) t
  end.
Definition has (p : ltc_cipher_descriptor -> bool) (d : option ltc_cipher_descriptor) : bool :=
  match d with Some d => p d | None => false end.

Definition register_cipher (t : table) (cipher : ltc_cipher_descriptor) : Z * table :=
  match find_from (has (fun d => ID d =? ID cipher)) 0 t with
  | Some x => (x, t)
  | None =>
      match find_from (fun d => match d with None => true | _ => false end) 0 t with
      | Some x => (x, <[Z.to_nat x := Some cipher]> t)
      | None => (-1, t)
      end
  end.

Definition find_cipher (t : table) (n : string) : Z :=
  match find_from (has (fun d => String.eqb (name d) n)) 0 t with Some x => x | None => -1 end.

Definition get_cipher (t : table) (idx : Z) : option ltc_cipher_descriptor :=
  if (idx <? 0) || (TAB_SIZE <=? idx) then None else t !! Z.to_nat idx ≫= id.
Definition cipher_is_valid (t : table) (idx : Z) : Z :=
  match get_cipher t idx with Some _ => CRYPT_OK | None => CRYPT_INVALID_CIPHER end.

(** ** The mode *)

Record symmetric_CBC := { cipher : Z; blocklen : Z; IV : list Z; key : symmetric_key }.

Definition set_IV (cbc : symmetric_CBC) (b : list Z) : symmetric_CBC :=
  {| cipher := cipher cbc; blocklen := blocklen cbc; IV := b ++ drop (length b) (IV cbc); key := key cbc |}.

(** [n] bytes behind a pointer. *)
Definition block_of (p : list Z) (n : Z) : comp (list Z) :=
  if n <=? Z.of_nat (length p) then Ret (take (Z.to_nat n) p) else Err OutOfBounds.

Definition with_key (cbc : symmetric_CBC) (k : symmetric_key) : symmetric_CBC :=
  {| cipher := cipher cbc; blocklen := blocklen cbc; IV := IV cbc; key := k |}.

Definition cbc_start (t : table) (idx : Z) (iv k : list Z) (keylen num_rounds : Z) (cbc : symmetric_CBC)
    : comp (Z * symmetric_CBC) :=
  match get_cipher t idx with
  | None => Ret (CRYPT_INVALID_CIPHER, cbc)
  | Some d =>
      let (err, sk) := setup d k keylen num_rounds (key cbc) in
      let cbc := with_key cbc sk in
      if negb (err =? CRYPT_OK) then Ret (err, cbc)
      else
        let* b := block_of iv (block_length d) in
        Ret (CRYPT_OK, set_IV {| cipher := idx; blocklen := block_length d; IV := IV cbc; key := key cbc |} b)
  end.

Definition xor_bytes (a b : list Z) : list Z := zip_with Z.lxor a b.

(** The checks before the loops. *)
Definition cbc_check (t : table) (len : Z) (cbc : symmetric_CBC) : Z :=
  if negb (cipher_is_valid t (cipher cbc) =? CRYPT_OK) then CRYPT_INVALID_CIPHER
  else if (blocklen cbc <? 1) || (MAXBLOCKSIZE <? blocklen cbc) then CRYPT_INVALID_ARG
  else if negb (len mod blocklen cbc =? 0) then CRYPT_INVALID_ARG
  else CRYPT_OK.

(** The loop runs while [len] is not zero; [n] bounds the number of blocks. *)
Fixpoint encrypt_loop (n : nat) (d : ltc_cipher_descriptor) (pt : list Z) (len : Z) (cbc : symmetric_CBC)
    : comp (Z * list Z * symmetric_CBC) :=
  if len =? 0 then Ret (CRYPT_OK, [], cbc)
  else
    match n with
    | O => Err OutOfFuel
    | S n =>
        let* b := block_of pt (blocklen cbc) in
        let cbc := set_IV cbc (xor_bytes (take (Z.to_nat (blocklen cbc)) (IV cbc)) b) in
        let (err, ct) := ecb_encrypt d (take (Z.to_nat (blocklen cbc)) (IV cbc)) (key cbc) in
        if negb (err =? CRYPT_OK) then Ret (err, [], cbc)
        else
          let cbc := set_IV cbc ct in
          let* (err, rest, cbc) := encrypt_loop n d (drop (Z.to_nat (blocklen cbc)) pt) (len - blocklen cbc) cbc in
          Ret (err, ct ++ rest, cbc)
    end.

(** The result, what is written to [ct], and the context. *)
Definition cbc_encrypt (t : table) (pt : list Z) (len : Z) (cbc : symmetric_CBC) : comp (Z * list Z * symmetric_CBC) :=
  let err := cbc_check t len cbc in
  if negb (err =? CRYPT_OK) then Ret (err, [], cbc)
  else
    match get_cipher t (cipher cbc) with
    | Some d => encrypt_loop (Z.to_nat len) d pt len cbc
    | None => Ret (CRYPT_INVALID_CIPHER, [], cbc)
    end.

(** [tmp] has 16 bytes. *)
Fixpoint decrypt_loop (n : nat) (d : ltc_cipher_descriptor) (ct : list Z) (len : Z) (cbc : symmetric_CBC)
    : comp (Z * list Z * symmetric_CBC) :=
  if len =? 0 then Ret (CRYPT_OK, [], cbc)
  else
    match n with
    | O => Err OutOfFuel
    | S n =>
        let* b := block_of ct (blocklen cbc) in
        if 16 <? blocklen cbc then Err OutOfBounds
        else
          let (err, tmp) := ecb_decrypt d b (key cbc) in
          if negb (err =? CRYPT_OK) then Ret (err, [], cbc)
          else
            let pt := xor_bytes tmp (take (Z.to_nat (blocklen cbc)) (IV cbc)) in
            let cbc := set_IV cbc b in
            let* (err, rest, cbc) := decrypt_loop n d (drop (Z.to_nat (blocklen cbc)) ct) (len - blocklen cbc) cbc in
            Ret (err, pt ++ rest, cbc)
    end.

Definition cbc_decrypt (t : table) (ct : list Z) (len : Z) (cbc : symmetric_CBC) : comp (Z * list Z * symmetric_CBC) :=
  let err := cbc_check t len cbc in
  if negb (err =? CRYPT_OK) then Ret (err, [], cbc)
  else
    match get_cipher t (cipher cbc) with
    | Some d => decrypt_loop (Z.to_nat len) d ct len cbc
    | None => Ret (CRYPT_INVALID_CIPHER, [], cbc)
    end.

(** What is written to the buffer, and the length set. *)
Definition cbc_getiv (len : Z) (cbc : symmetric_CBC) : Z * list Z * Z :=
  if len <? blocklen cbc then (CRYPT_BUFFER_OVERFLOW, [], blocklen cbc)
  else (CRYPT_OK, take (Z.to_nat (blocklen cbc)) (IV cbc), blocklen cbc).
Definition cbc_setiv (iv : list Z) (len : Z) (cbc : symmetric_CBC) : comp (Z * symmetric_CBC) :=
  if negb (len =? blocklen cbc) then Ret (CRYPT_INVALID_ARG, cbc)
  else let* b := block_of iv len in Ret (CRYPT_OK, set_IV cbc b).

(** ** Ciphers *)

(** What the mode relies on: a cipher [block_enc] of which the descriptor
    computes both directions, under the keys that its setup schedules. *)
Class BlockCipher (d : ltc_cipher_descriptor) := {
  raw_key : list Z -> Prop;
  object : symmetric_key -> Prop;
  key_of : list Z -> symmetric_key -> Prop;
  block_enc : list Z -> list Z -> list Z;
  bc_length : 0 < block_length d <= 16;
  bc_setup : forall k o, raw_key k -> object o ->
    exists sk, setup d k (Z.of_nat (length k)) 0 o = (CRYPT_OK, sk) /\ key_of k sk;
  bc_encrypt : forall b k sk, key_of k sk -> Z.of_nat (length b) = block_length d -> Forall is_byte b ->
    ecb_encrypt d b sk = (CRYPT_OK, block_enc k b) /\
    Z.of_nat (length (block_enc k b)) = block_length d /\ Forall is_byte (block_enc k b);
  bc_decrypt : forall b k sk, key_of k sk -> Z.of_nat (length b) = block_length d -> Forall is_byte b ->
    ecb_decrypt d (block_enc k b) sk = (CRYPT_OK, b)
}.

(** The mode as it is defined: every block is the cipher of the sum of the
    plaintext and the block before. *)
Fixpoint chain (n bl : nat) (enc : list Z -> list Z) (iv pt : list Z) : list Z :=
  match n with
  | O => []
  | S n => let c := enc (xor_bytes iv (take bl pt)) in c ++ chain n bl enc c (drop bl pt)
  end.

Section modes.
Context (d : ltc_cipher_descriptor) `{!BlockCipher d} (k : list Z).
Abbreviation bl := (Z.to_nat (block_length d)).
Definition block (b : list Z) : Prop := length b = bl /\ Forall is_byte b.

(** A context under the key [k] that stands at the block [iv]. *)
Record ready (cbc : symmetric_CBC) (iv : list Z) : Prop := {
  rd_blocklen : blocklen cbc = block_length d;
  rd_size : length (IV cbc) = 128%nat;
  rd_iv : take bl (IV cbc) = iv;
  rd_block : block iv;
  rd_key : key_of k (key cbc)
}.

Lemma set_IV_ready cbc iv b : ready cbc iv -> block b -> ready (set_IV cbc b) b.
Proof.
  intros [H1 H2 H3 H4 H5] [Hl Hb]. pose proof bc_length. constructor; [done| | |done|done].
  - cbn. rewrite length_app, length_drop. lia.
  - cbn. by rewrite take_app_length_eq by lia.
Qed.

Lemma xor_bytes_block a b : block a -> block b -> block (xor_bytes a b).
Proof.
  intros [La Ha] [Lb Hb]. split; [unfold xor_bytes; rewrite length_zip_with; lia|]. clear La Lb.
  revert b Hb. induction Ha as [|x a Hx _ IH]; intros [|y b] Hb; try constructor.
  - apply Forall_cons in Hb as [Hy _]. rewrite <- (byte_land x), <- (byte_land y) by done.
    assert (Z.lxor (Z.land x 255) (Z.land y 255) = Z.land (Z.lxor x y) 255) as ->.
    { apply Z.bits_inj'; intros j _. rewrite Z.lxor_spec, !Z.land_spec, Z.lxor_spec. by destruct (Z.testbit x j), (Z.testbit y j), (Z.testbit 255 j). }
    unfold is_byte. change 255 with (Z.ones 8). rewrite Z.land_ones by lia. apply Z.mod_pos_bound. lia.
  - apply IH. by apply Forall_cons in Hb as [_ Hb].
Qed.
Lemma xor_bytes_cancel a b : length a = length b -> xor_bytes (xor_bytes a b) a = b.
Proof.
  revert b. induction a as [|x a IH]; intros [|y b] Hl; try done. cbn in *. f_equal; [|apply IH; lia]. xor_ac.
Qed.

Lemma encrypt_block b sk : key_of k sk -> block b -> ecb_encrypt d b sk = (CRYPT_OK, block_enc k b) /\ block (block_enc k b).
Proof.
  intros Hk [Hl Hb]. pose proof bc_length. destruct (bc_encrypt b k sk Hk) as (E & Hl' & Hb'); [lia|done|]. split; [done|]. split; [lia|done].
Qed.

(** Whole blocks. *)
Definition whole (n : nat) (l : list Z) : Prop := length l = (n * bl)%nat /\ Forall is_byte l.

Lemma whole_next n l : whole (S n) l -> block (take bl l) /\ whole n (drop bl l).
Proof.
  intros [Hl Hb]. rewrite <- (take_drop bl l) in Hb. apply Forall_app in Hb as [H1 H2].
  split; split; [rewrite length_take; lia|done|rewrite length_drop; lia|done].
Qed.

Lemma block_of_ok l n : (bl <= length l)%nat -> n = block_length d -> block_of l n = Ret (take bl l).
Proof. intros Hl ->. pose proof bc_length. unfold block_of. by rewrite (proj2 (Z.leb_le _ _)) by lia. Qed.

(** The loop of encryption computes the chain, for any bound on the blocks. *)
Lemma encrypt_loop_chain m n pt cbc iv :
  ready cbc iv -> whole n pt -> (n <= m)%nat ->
  exists cbc' iv', encrypt_loop m d pt (Z.of_nat (length pt)) cbc = Ret (CRYPT_OK, chain n bl (block_enc k) iv pt, cbc') /\
    ready cbc' iv' /\ cipher cbc' = cipher cbc.
Proof.
  pose proof bc_length as Hbl. revert m pt cbc iv. induction n as [|n IH]; intros m pt cbc iv Hr Hw Hn.
  - destruct Hw as [Hl _]. destruct pt; [|cbn in Hl; lia]. exists cbc, iv. by destruct m.
  - destruct m as [|m]; [lia|]. destruct (whole_next n pt Hw) as [Hb Hw']. pose proof Hw as [Hl _].
    cbn [encrypt_loop]. rewrite (proj2 (Z.eqb_neq _ _)) by nia. pose proof Hr as [R1 R2 R3 R4 R5].
    rewrite block_of_ok by (done || nia). cbn [mbind comp_bind]. rewrite R1, R3.
    pose proof (set_IV_ready cbc iv _ Hr (xor_bytes_block _ _ R4 Hb)) as [S1 S2 S3 S4 S5].
    destruct (encrypt_block (xor_bytes iv (take bl pt)) _ S5 S4) as [E Hc].
    rewrite S1, S3, E. cbn [negb Z.eqb CRYPT_OK].
    pose proof (set_IV_ready _ _ _ (Build_ready _ _ S1 S2 S3 S4 S5) Hc) as Hr'. rewrite (rd_blocklen _ _ Hr').
    replace (Z.of_nat (length pt) - block_length d) with (Z.of_nat (length (drop bl pt))) by (rewrite length_drop; nia).
    destruct (IH m _ _ _ Hr' Hw') as (cbc' & iv' & E' & Hr'' & Hc'); [lia|]. rewrite E'. cbn [mbind comp_bind]. by exists cbc', iv'.
Qed.

Lemma chain_whole n iv pt sk : key_of k sk -> block iv -> whole n pt -> whole n (chain n bl (block_enc k) iv pt).
Proof.
  intros Hk. revert iv pt. induction n as [|n IH]; intros iv pt Hiv Hw; [by split|]. destruct (whole_next n pt Hw) as [Hb Hw'].
  destruct (encrypt_block _ sk Hk (xor_bytes_block _ _ Hiv Hb)) as [_ [Hl Hc]]. cbn [chain].
  destruct (IH _ _ (conj Hl Hc) Hw') as [Hl' Hc']. split; [rewrite length_app, Hl, Hl'; lia|by apply Forall_app].
Qed.

(** The loop of decryption undoes the chain. *)
Lemma decrypt_loop_chain m n pt cbc iv :
  ready cbc iv -> whole n pt -> (n <= m)%nat ->
  let ct := chain n bl (block_enc k) iv pt in
  exists cbc' iv', decrypt_loop m d ct (Z.of_nat (length ct)) cbc = Ret (CRYPT_OK, pt, cbc') /\ ready cbc' iv' /\ cipher cbc' = cipher cbc.
Proof.
  pose proof bc_length as Hbl. revert m pt cbc iv. induction n as [|n IH]; intros m pt cbc iv Hr Hw Hn ct.
  - destruct Hw as [Hl _]. destruct pt; [|cbn in Hl; lia]. exists cbc, iv. by destruct m.
  - destruct m as [|m]; [lia|]. destruct (whole_next n pt Hw) as [Hb Hw']. pose proof Hr as [R1 R2 R3 R4 R5].
    destruct (chain_whole _ _ _ _ R5 R4 Hw) as [Hl _]. fold ct in Hl.
    cbn [decrypt_loop]. rewrite (proj2 (Z.eqb_neq _ _)) by nia. rewrite block_of_ok by (done || nia). cbn [mbind comp_bind].
    rewrite R1, (proj2 (Z.ltb_ge _ _)) by lia.
    pose proof (xor_bytes_block _ _ R4 Hb) as [Hlx Hx]. destruct (encrypt_block _ _ R5 (conj Hlx Hx)) as [_ Hc].
    set (c := block_enc k (xor_bytes iv (take bl pt))) in *. destruct Hc as [Hlc Hc].
    assert (take bl ct = c /\ drop bl ct = chain n bl (block_enc k) c (drop bl pt)) as [-> Ed].
    { unfold ct. cbn [chain]. fold c. by rewrite take_app_length_eq, drop_app_length_eq by lia. }
    unfold c at 1. rewrite (bc_decrypt _ _ _ R5) by (done || lia). cbn [negb Z.eqb CRYPT_OK]. rewrite R3.
    pose proof (set_IV_ready cbc iv c Hr (conj Hlc Hc)) as Hr'. destruct (IH m _ _ _ Hr' Hw') as (cbc' & iv' & E' & Hr'' & Hc'); [lia|].
    rewrite (rd_blocklen _ _ Hr'), Ed.
    destruct (chain_whole n c _ _ R5 (conj Hlc Hc) Hw') as [Hl' _].
    replace (Z.of_nat (length ct) - block_length d) with (Z.of_nat (length (chain n bl (block_enc k) c (drop bl pt)))) by nia.
    rewrite E'. cbn [mbind comp_bind]. rewrite xor_bytes_cancel, take_drop by (destruct R4, Hb; lia). by exists cbc', iv'.
Qed.

(** Starting gives a context at the initialisation vector. *)
Lemma start_ready t idx iv o :
  get_cipher t idx = Some d -> raw_key k -> object (key o) -> length (IV o) = 128%nat -> block iv ->
  exists c, cbc_start t idx iv k (Z.of_nat (length k)) 0 o = Ret (CRYPT_OK, c) /\ ready c iv /\ cipher c = idx.
Proof.
  intros Ht Hk Ho Hl [Hiv Hb]. pose proof bc_length. unfold cbc_start. rewrite Ht.
  destruct (bc_setup k (key o)) as (sk & E & Hsk); [done..|]. rewrite E. cbn [negb Z.eqb CRYPT_OK].
  rewrite block_of_ok by (done || lia). cbn [mbind comp_bind]. rewrite take_ge by lia. eexists. split; [reflexivity|]. split; [|done].
  constructor; [done| | |done|done]; cbn.
  - rewrite length_app, length_drop. lia.
  - by apply take_app_length_eq.
Qed.

Lemma check_ready t c iv len :
  get_cipher t (cipher c) = Some d -> ready c iv -> len mod block_length d = 0 -> cbc_check t len c = CRYPT_OK.
Proof.
  intros Ht Hr Hl. pose proof bc_length. unfold cbc_check, cipher_is_valid. rewrite Ht, (rd_blocklen _ _ Hr), Hl. cbn [negb Z.eqb CRYPT_OK].
  rewrite (proj2 (Z.ltb_ge _ _)), (proj2 (Z.ltb_ge _ _)); unfold MAXBLOCKSIZE; [done|lia..].
Qed.

(** Whole blocks are encrypted to their chain, and decrypted from it. *)
Lemma modes_ok t n pt c iv :
  get_cipher t (cipher c) = Some d -> ready c iv -> whole n pt ->
  let ct := chain n bl (block_enc k) iv pt in
  (exists c' iv', cbc_encrypt t pt (Z.of_nat (length pt)) c = Ret (CRYPT_OK, ct, c') /\ ready c' iv' /\ cipher c' = cipher c) /\
  (exists c' iv', cbc_decrypt t ct (Z.of_nat (length ct)) c = Ret (CRYPT_OK, pt, c') /\ ready c' iv' /\ cipher c' = cipher c).
Proof.
  intros Ht Hr Hw ct. pose proof bc_length. destruct (chain_whole n iv pt _ (rd_key _ _ Hr) (rd_block _ _ Hr) Hw) as [Hl _]. fold ct in Hl.
  pose proof Hw as [Hlp _]. unfold cbc_encrypt, cbc_decrypt.
  assert (forall l : list Z, length l = (n * bl)%nat -> Z.of_nat (length l) mod block_length d = 0) as Hm.
  { intros l ->. replace (Z.of_nat (n * bl)) with (Z.of_nat n * block_length d) by nia. by apply Z.mod_mul; lia. }
  rewrite !(check_ready t c iv) by (done || by apply Hm). rewrite Ht. cbn [negb Z.eqb CRYPT_OK]. rewrite !Nat2Z.id.
  split; [apply encrypt_loop_chain|apply decrypt_loop_chain]; (done || nia).
Qed.
End modes.
End cbc.
Arguments ltc_cipher_descriptor : clear implicits.
Arguments symmetric_CBC : clear implicits.

(** ** AES as a block cipher *)

Definition aes_desc : ltc_cipher_descriptor rijndael_key :=
  {| name := "aes"; ID := 6; min_key_length := 16; max_key_length := 32; block_length := 16; default_rounds := 10;
     setup := SETUP; ecb_encrypt := fun b k => (CRYPT_OK, ECB_ENC b k); ecb_decrypt := fun b k => (CRYPT_OK, ECB_DEC b k) |}.

Definition is_aes_key (k : list Z) : Prop := key_size (Z.of_nat (length k)) /\ Forall is_byte k.

#[export] Instance aes_block_cipher : BlockCipher aes_desc.
Proof.
  apply (@Build_BlockCipher rijndael_key aes_desc is_aes_key is_key_object
    (fun k sk => key_size (Z.of_nat (length k)) /\ schedules k sk) AES).
  - cbn. lia.
  - intros k o [Hn Hk] Ho. destruct (setup_schedules k 0 o) as (sk & E & Hs); [done..|by left|]. by exists sk.
  - intros b k sk [Hn Hs] Hl Hb. change (Z.of_nat (length b) = 16) in Hl. cbn [ecb_encrypt ecb_decrypt block_length aes_desc]. destruct (schedules_encrypt k sk b Hn Hs) as (E & [H1 H2] & _); [split; [lia|done]|].
    rewrite E. split_and!; [done|lia|done].
  - intros b k sk [Hn Hs] Hl Hb. change (Z.of_nat (length b) = 16) in Hl. cbn [ecb_encrypt ecb_decrypt block_length aes_desc]. destruct (schedules_encrypt k sk b Hn Hs) as (_ & _ & E); [split; [lia|done]|]. by rewrite E.
Defined.

(** The program's table: AES is registered at the start (app.c). *)
Definition registered : Z * table := register_cipher cipher_table0 aes_desc.

Lemma registered_found : registered.1 = 0 /\ find_cipher registered.2 "aes" = 0 /\ get_cipher registered.2 0 = Some aes_desc.
Proof. done. Qed.
