(* ===== verification/Cipher.v ===== *)
(** * Payload encryption (cipher/source)

    [mqttpayloadcipher.c] and [aescbc.c].  AES in CBC mode enters as a
    parameter with the law [cbc_law], which PayloadAes.v proves of the modelled
    library.  A byte buffer is the list of the bytes that may be read behind the
    pointer, which can be more than the length passed along with it. *)

From Stdlib Require Import Ascii.
From S2P Require Import Prelude CString StringUtils Base64.

Local Open Scope Z_scope.

(** ** Little-endian fields *)
Fixpoint le_bytes (n : nat) (z : Z) : list Z :=
  match n with
  | O => []
  | S n => z mod 256 :: le_bytes n (z / 256)
  end.

Fixpoint le_value (l : list Z) : Z :=
  match l with
  | [] => 0
  | b :: l => b + 256 * le_value l
  end.

Lemma le_value_bytes n z : le_value (le_bytes n z) = z mod 256 ^ Z.of_nat n.
Proof.
  revert z. induction n as [|n IH]; intros z; cbn [le_bytes le_value]; [by rewrite Z.mod_1_r|].
  rewrite IH, Nat2Z.inj_succ, Z.pow_succ_r by lia. rewrite Z.rem_mul_r by lia. lia.
Qed.

Lemma length_le_bytes n z : length (le_bytes n z) = n.
Proof. revert z. induction n as [|n IH]; intros z; cbn; [done|]. by rewrite IH. Qed.

(** ** The payload header: [unsigned short] twice, [unsigned int] twice *)
Definition ENCRYPT_CBC : Z := 1.
Definition ENCRYPT_CBC_VERSION : Z := 1.

Record mqtt_encrypted_payload_header := {
  encryptMethod : Z;
  version : Z;
  contentSize : Z;
  reserved : Z
}.

Definition header_bytes (h : mqtt_encrypted_payload_header) : list Z :=
  le_bytes 2 (encryptMethod h) ++ le_bytes 2 (version h) ++ le_bytes 4 (contentSize h) ++ le_bytes 4 (reserved h).

Definition header_of_bytes (l : list Z) : mqtt_encrypted_payload_header :=
  {| encryptMethod := le_value (take 2 l); version := le_value (take 2 (drop 2 l));
     contentSize := le_value (take 4 (drop 4 l)); reserved := le_value (take 4 (drop 8 l)) |}.

Definition PAYLOAD_HEADER_SIZE : Z := 12.
Definition CBC_EX_DATA_SIZE : Z := 16.

(** Reading [n] bytes behind a pointer. *)
Definition read_bytes (mem : list Z) (n : Z) : comp (list Z) :=
  if n <=? Z.of_nat (length mem) then Ret (take (Z.to_nat n) mem) else Err OutOfBounds.

(** [strlen] of a buffer: the bytes before the first zero. *)
Fixpoint bytes_strlen (mem : list Z) : comp Z :=
  match mem with
  | [] => Err OutOfBounds
  | b :: mem => if b =? 0 then Ret 0 else let* n := bytes_strlen mem in Ret (n + 1)
  end.

(** [generate_random_iv]: [rand seed i] is the i-th value of [rand()] after
    [srand(seed)]; the seed is the time in seconds. *)
Definition generate_random_iv (rand : Z -> nat -> Z) (now : Z) (len : nat) : list Z :=
  (fun i => rand now i mod 256) <$> seq 0 len.

Section cipher.
(** [find_cipher("aes")] found it, and what CBC mode computes from key, IV and
    data: [None] when the library reports an error. *)
Variable aes_registered : bool.
Variable cbc_encrypt cbc_decrypt : list Z -> list Z -> list Z -> option (list Z).
Variable cbc_key : list Z.

(** The result code and, on success, the output buffer. *)
Definition aes_cbc_encrypt (inp : list Z) (len : Z) (iv key : list Z) : comp (Z * option (list Z)) :=
  if negb aes_registered then Ret (FAILURE, None)
  else
    let outlen := to_ulong (Z.quot (to_int (len + 15)) 16 * 16) in
    let* data := read_bytes inp outlen in
    match cbc_encrypt key iv data with
    | None => Ret (FAILURE, None)
    | Some out => Ret (SUCCESS, Some out)
    end.

(** The output and the length reported for it. *)
Definition aes_cbc_decrypt (inp : list Z) (len : Z) (iv key : list Z) : comp (Z * option (list Z * Z)) :=
  if negb aes_registered then Ret (FAILURE, None)
  else
    let* data := read_bytes inp len in
    match cbc_decrypt key iv data with
    | None => Ret (FAILURE, None)
    | Some out => let* outlen := bytes_strlen out in Ret (SUCCESS, Some (out, outlen))
    end.

Definition mqtt_payload_encrypt (rand : Z -> nat -> Z) (now : Z) (content : list Z) (len : Z)
    : comp (Z * option (list Z * mqtt_encrypted_payload_header)) :=
  let iv := generate_random_iv rand now 16 in
  let* (rc, out) := aes_cbc_encrypt content len iv cbc_key in
  match out with
  | Some encryptContent =>
      let header := {| encryptMethod := ENCRYPT_CBC; version := ENCRYPT_CBC_VERSION;
                       contentSize := to_uint len; reserved := 0 |} in
      Ret (SUCCESS, Some (header_bytes header ++ iv ++ encryptContent, header))
  | None => Ret (rc, None)
  end.

Definition mqtt_payload_decrypt (payload : list Z) (len : Z)
    : comp (Z * option (list Z * Z * mqtt_encrypted_payload_header)) :=
  if len <=? PAYLOAD_HEADER_SIZE + CBC_EX_DATA_SIZE then Ret (FAILURE, None)
  else
    let* hb := read_bytes payload PAYLOAD_HEADER_SIZE in
    let header := header_of_bytes hb in
    if negb (encryptMethod header =? ENCRYPT_CBC) then Ret (FAILURE, None)
    else
      let rest := drop (Z.to_nat PAYLOAD_HEADER_SIZE) payload in
      let* iv := read_bytes rest CBC_EX_DATA_SIZE in
      let* (rc, out) := aes_cbc_decrypt (drop (Z.to_nat CBC_EX_DATA_SIZE) rest)
                          (len - PAYLOAD_HEADER_SIZE - CBC_EX_DATA_SIZE) iv cbc_key in
      Ret (rc, match out with Some (c, n) => Some (c, n, header) | None => None end).
End cipher.

Definition chars (s : string) : list Z := char_val <$> String.list_ascii_of_string s.

(** ** Facts *)

Lemma header_roundtrip h rest :
  0 <= encryptMethod h < 65536 -> 0 <= version h < 65536 ->
  0 <= contentSize h < 4294967296 -> 0 <= reserved h < 4294967296 ->
  header_of_bytes (header_bytes h ++ rest) = h.
Proof.
  intros H1 H2 H3 H4. unfold header_of_bytes, header_bytes. rewrite <- !app_assoc.
  assert (forall n z l, take n (le_bytes n z ++ l) = le_bytes n z) as Ht
    by (intros; apply take_app_length_eq; by rewrite length_le_bytes).
  assert (forall n m z l, drop (n + m) (le_bytes n z ++ l) = drop m l) as Hd.
  { intros n m z l. rewrite drop_app_ge by (rewrite length_le_bytes; lia). f_equal. rewrite length_le_bytes. lia. }
  change (drop 2 ?l) with (drop (2 + 0) l). change (drop 4 ?l) with (drop (2 + (2 + 0)) l).
  change (drop 8 ?l) with (drop (2 + (2 + (4 + 0))) l). rewrite !Hd, !drop_0, !Ht, !le_value_bytes.
  destruct h; cbn in *. change (256 ^ Z.of_nat 2) with 65536. change (256 ^ Z.of_nat 4) with 4294967296.
  by rewrite !Z.mod_small by done.
Qed.

Lemma length_header_bytes h : length (header_bytes h) = 12%nat.
Proof. unfold header_bytes. by rewrite !length_app, !length_le_bytes. Qed.

Lemma length_iv rand now n : length (generate_random_iv rand now n) = n.
Proof. unfold generate_random_iv. by rewrite length_fmap, length_seq. Qed.

Lemma iv_bytes rand now n : Forall is_byte (generate_random_iv rand now n).
Proof. apply Forall_fmap, Forall_true. intros i. apply Z.mod_pos_bound. lia. Qed.

(** The length rounded up to whole blocks. *)
Definition blocks (n : Z) : Z := (n + 15) / 16 * 16.

Lemma blocks_bounds n : 0 <= n -> n <= blocks n <= n + 15 /\ blocks n mod 16 = 0.
Proof. unfold blocks. intros Hn. split; Z.div_mod_to_equations; lia. Qed.

Lemma outlen_eq n : 0 <= n -> n + 15 <= INT_MAX -> to_ulong (Z.quot (to_int (n + 15)) 16 * 16) = blocks n.
Proof.
  unfold blocks, INT_MAX. intros H0 H1. rewrite to_int_id by (unfold is_int, INT_MIN, INT_MAX; lia).
  rewrite Z.quot_div_nonneg by lia. rewrite to_ulong_id; [done|]. Z.div_mod_to_equations; lia.
Qed.

Lemma bytes_strlen_app m rest :
  Forall (fun b => b <> 0) m -> bytes_strlen (m ++ 0 :: rest) = Ret (Z.of_nat (length m)).
Proof.
  induction 1 as [|b m Hb _ IH]; [done|]. cbn [app bytes_strlen length].
  rewrite (proj2 (Z.eqb_neq _ _) Hb), IH. cbn [mbind comp_bind]. f_equal. lia.
Qed.

Lemma bytes_strlen_unterminated m : Forall (fun b => b <> 0) m -> bytes_strlen m = Err OutOfBounds.
Proof.
  induction 1 as [|b m Hb _ IH]; [done|]. cbn [bytes_strlen]. by rewrite (proj2 (Z.eqb_neq _ _) Hb), IH.
Qed.

Section cipher_facts.
Variable cbc_encrypt cbc_decrypt : list Z -> list Z -> list Z -> option (list Z).
Variable cbc_key : list Z.
(** CBC on whole blocks of bytes, under the program's key: it succeeds, keeps
    the length, and decryption with the same IV inverts it. *)
Definition cbc_law : Prop := forall iv d,
  length iv = 16%nat -> Forall is_byte iv -> Forall is_byte d -> Z.of_nat (length d) mod 16 = 0 ->
  exists c, cbc_encrypt cbc_key iv d = Some c /\ length c = length d /\ cbc_decrypt cbc_key iv c = Some d.
Hypothesis Hlaw : cbc_law.
Notation encrypt := (mqtt_payload_encrypt true cbc_encrypt cbc_key).
Notation decrypt := (mqtt_payload_decrypt true cbc_decrypt cbc_key).

(** Encrypting [n] bytes takes the whole blocks from memory, and decrypting
    gives all of them back, up to the scan for the terminator. *)
Lemma encrypt_decrypt_blocks rand now mem n :
  Forall is_byte mem -> 0 <= n -> n + 15 <= INT_MAX -> blocks n <= Z.of_nat (length mem) ->
  exists payload header, encrypt rand now mem n = Ret (SUCCESS, Some (payload, header))
    /\ Z.of_nat (length payload) = 28 + blocks n
    /\ header = {| encryptMethod := 1; version := 1; contentSize := n; reserved := 0 |}
    /\ (0 < blocks n -> decrypt payload (Z.of_nat (length payload)) =
          let out := take (Z.to_nat (blocks n)) mem in
          let* k := bytes_strlen out in Ret (SUCCESS, Some (out, k, header))).
Proof using Hlaw.
  intros Hmem H0 H1 Hm. unfold mqtt_payload_encrypt, aes_cbc_encrypt. cbn [negb].
  rewrite outlen_eq by done. unfold read_bytes at 1. rewrite (proj2 (Z.leb_le _ _)) by done.
  cbn [mbind comp_bind]. set (iv := generate_random_iv rand now 16).
  destruct (blocks_bounds n H0) as [Hb1 Hb2]. set (d := take (Z.to_nat (blocks n)) mem).
  assert (length d = Z.to_nat (blocks n)) as Hd by (unfold d; rewrite length_take; lia).
  destruct (Hlaw iv d) as (c & -> & Hc & Hdec);
    [apply length_iv|apply iv_bytes|by apply Forall_take|by rewrite Hd, Z2Nat.id by lia|]. cbn [mbind comp_bind].
  assert (to_uint n = n) as -> by (unfold to_uint, INT_MAX in *; by rewrite Z.mod_small by lia).
  set (h := Build_mqtt_encrypted_payload_header _ _ _ _).
  pose proof (length_header_bytes h) as Hh. pose proof (length_iv rand now 16) as Hiv. fold iv in Hiv.
  eexists _, h. split; [reflexivity|]. split; [rewrite !length_app, Hh, Hiv, Hc, Hd; lia|]. split; [done|].
  intros Hpos. unfold mqtt_payload_decrypt, PAYLOAD_HEADER_SIZE, CBC_EX_DATA_SIZE, aes_cbc_decrypt, read_bytes.
  rewrite !length_app, !length_drop, !length_app, Hh, Hiv, Hc, Hd.
  change (12 + 16) with 28. change (Z.to_nat 12) with 12%nat. change (Z.to_nat 16) with 16%nat.
  rewrite (drop_app_length_eq (header_bytes h)), (take_app_length_eq (header_bytes h)) by done.
  rewrite (take_app_length_eq iv), (drop_app_length_eq iv) by done.
  rewrite (proj2 (Z.leb_gt _ 28)), (proj2 (Z.leb_le 12 _)), (proj2 (Z.leb_le 16 _)) by lia. cbn [mbind comp_bind].
  assert (header_of_bytes (header_bytes h) = h) as ->.
  { rewrite <- (app_nil_r (header_bytes h)). apply header_roundtrip; unfold h, ENCRYPT_CBC, ENCRYPT_CBC_VERSION, INT_MAX in *; cbn; lia. }
  change (negb (encryptMethod h =? ENCRYPT_CBC)) with false. cbn iota. rewrite (proj2 (Z.leb_le _ _)) by lia.
  cbn [mbind comp_bind]. rewrite take_ge by lia. rewrite Hdec. cbn zeta. by destruct (bytes_strlen d).
Qed.

(** A message whose length is not a multiple of 16 and behind whose
    terminator enough bytes are readable comes back from encryption and
    decryption unchanged, with its length in the clear header. *)
Lemma payload_roundtrip_law rand now m tail :
  let n := Z.of_nat (length m) in
  Forall (fun b => b <> 0) m -> Forall is_byte (m ++ 0 :: tail) -> n mod 16 <> 0 -> n + 15 <= INT_MAX ->
  blocks n <= Z.of_nat (length (m ++ 0 :: tail)) ->
  exists payload header out, mqtt_payload_encrypt true cbc_encrypt cbc_key rand now (m ++ 0 :: tail) n = Ret (SUCCESS, Some (payload, header))
    /\ contentSize header = n /\ Z.of_nat (length payload) = 28 + blocks n
    /\ mqtt_payload_decrypt true cbc_decrypt cbc_key payload (Z.of_nat (length payload)) = Ret (SUCCESS, Some (out, n, header))
    /\ take (length m) out = m.
Proof using Hlaw.
  intros n Hm Hbs Hn Hmax Hb.
  destruct (encrypt_decrypt_blocks rand now (m ++ 0 :: tail) n) as (payload & header & He & Hl & -> & Hd); [done|lia|done..|].
  destruct (blocks_bounds n) as [Hb1 Hb2]; [lia|].
  assert (n < blocks n) as Hlt by (assert (n <> blocks n) by congruence; lia).
  eexists payload, _, _. split; [exact He|]. split; [done|]. split; [done|].
  rewrite Hd by lia. cbn zeta. rewrite take_app_ge by lia.
  replace (Z.to_nat (blocks n) - length m)%nat with (S (Z.to_nat (blocks n) - length m - 1)) by lia.
  cbn [take]. rewrite bytes_strlen_app by done. cbn [mbind comp_bind]. split; [done|].
  by apply take_app_length_eq.
Qed.

(** In a buffer of exactly [strlen + 1] bytes, the cipher reads past the
    end of the message unless its length is 0 or 15 modulo 16; and when the
    length is a positive multiple of 16 the receiver's [strlen] runs past the
    end of the decrypted buffer. *)
Theorem payload_buffer_faults rand now m :
  let n := Z.of_nat (length m) in
  Forall (fun b => b <> 0) m -> Forall is_byte m -> n + 15 <= INT_MAX ->
  (n mod 16 <> 0 -> n mod 16 <> 15 -> mqtt_payload_encrypt true cbc_encrypt cbc_key rand now (m ++ [0]) n = Err OutOfBounds)
  /\ (n mod 16 = 0 -> 0 < n ->
      exists payload header, mqtt_payload_encrypt true cbc_encrypt cbc_key rand now (m ++ [0]) n = Ret (SUCCESS, Some (payload, header))
        /\ mqtt_payload_decrypt true cbc_decrypt cbc_key payload (Z.of_nat (length payload)) = Err OutOfBounds).
Proof using Hlaw.
  intros n Hm Hbs Hmax. split.
  - intros H1 H2. unfold mqtt_payload_encrypt, aes_cbc_encrypt. cbn [negb]. rewrite outlen_eq by lia.
    unfold read_bytes. rewrite (proj2 (Z.leb_gt _ _)); [done|]. rewrite length_app. cbn [length].
    unfold blocks. fold n. replace (Z.of_nat (length m + 1)) with (n + 1) by lia. Z.div_mod_to_equations; lia.
  - intros H1 H2. assert (blocks n = n) as Eb by (unfold blocks; Z.div_mod_to_equations; lia).
    destruct (encrypt_decrypt_blocks rand now (m ++ [0]) n) as (payload & header & He & Hl & -> & Hd);
      [apply Forall_app; split; [done|by repeat constructor]|lia|done|rewrite Eb, length_app; cbn [length]; lia|].
    eexists _, _. split; [exact He|]. rewrite Hd by lia. cbn zeta. rewrite Eb.
    rewrite take_app_length_eq by (unfold n; lia). by rewrite bytes_strlen_unterminated.
Qed.
End cipher_facts.

(** The identity is a cipher that satisfies the law. *)
Definition demo_cbc (key iv d : list Z) : option (list Z) := Some d.

Lemma demo_cbc_law : cbc_law demo_cbc demo_cbc [].
Proof. intros iv d _ _ _ _. by exists d. Qed.

Lemma payload_buffer_faults_witness :
  mqtt_payload_encrypt true demo_cbc [] (fun _ i => Z.of_nat i) 7 ([104; 105] ++ [0]) 2 = Err OutOfBounds.
Proof.
  apply (payload_buffer_faults demo_cbc demo_cbc [] demo_cbc_law (fun _ i => Z.of_nat i) 7 [104; 105]);
    [repeat constructor; lia|by repeat constructor|by vm_compute|by vm_compute|by vm_compute].
Defined.

(** ** Base64 of bytes *)

Lemma decode_encode l r :
  Forall is_byte l -> Z.of_nat (length l) * 4 < Base64.ULONG - 64 -> (length l <= length r)%nat ->
  Base64.base64_decrypt (Base64.encode l) (Z.of_nat (length (Base64.encode l))) r =
    Ret (Base64.BASE64_OK, l ++ drop (length l) r, Z.of_nat (length l)).
Proof.
  intros Hl Hn Hr. unfold Base64.base64_decrypt. rewrite Nat2Z.id. pose proof (Base64.length_encode l) as Hle.
  pose proof (Base64.decrypt_loop_ok l [] [] (take (length l) r) (drop (length l) r) Hl) as E.
  cbn [app] in E. rewrite take_drop in E. apply E; [done|rewrite length_take; lia|..];
    unfold Base64.ULONG in *; cbn [length]; Z.div_mod_to_equations; lia.
Qed.
