(* ===== verification/Signature.v ===== *)
(** * Signatures of commands (cipher/source/rsaverifysig.c)

    Base64, the file with the public key, SHA-256 and RSA put together, and what
    the result says of a signature.  Left out: the check of rsa_import that a
    mathematics descriptor is set (the class [Bignum] is one), and what the
    printf of the hash as a string (rsaverifysig.c:99) reads behind its 32
    bytes, which have no terminator. *)

From Stdlib Require Import Ascii Zpow_facts.
From S2P Require Import Prelude CString StringUtils Base64 FileSys AesTables Aes AesInverse Sha256 Der Rsa Cipher.

Local Open Scope Z_scope.

Section signature.
Context `{Bignum}.
(** What fresh memory holds: that of [malloc], of the hash state, and of the
    buffer for the message under the padding. *)
Variable malloc : nat -> list Z.
Variable junk_md : sha256_state.
Variable junk : list Z.
(** Whether [find_hash] finds the hash. *)
Variable sha256_registered : bool.

Definition read_public_key (s : fs) (keyFilePath : string) : Z * option string * string :=
  if negb (file_exists s keyFilePath) then
    (FAILURE, None, "Key file " +:+ keyFilePath +:+ " doesn't exist")
  else
    let '(keyBase64, readSize) := read_file_string s keyFilePath in
    if readSize <=? 0 then (FAILURE, keyBase64, "Read size is 0: " +:+ keyFilePath)
    else (SUCCESS, keyBase64, EmptyString).

(** The return code, the [stat] output when it is written, and the message. *)
Definition rsa_verify_signature (inp : list Z) (sigbase64 keybase64 : list Z) : comp (Z * option bool * string) :=
  let* (rc, pubKeyBuffer, pubKeyBufferLen) :=
    Base64.base64_decrypt keybase64 (Z.of_nat (length keybase64)) (replicate (Z.to_nat 5120) 0) in
  if negb (rc =? Base64.BASE64_OK) then Ret (FAILURE, None, "base64_decrypt public key failed") else
  let* r := rsa_import pubKeyBuffer pubKeyBufferLen in
  match r with
  | inr rc => Ret (FAILURE, None, "rsa_import pubic key failed: " +:+ fmt_d rc)
  | inl pubKey =>
      let* (rc, sig, siglen) := Base64.base64_decrypt sigbase64 (Z.of_nat (length sigbase64)) (malloc (length sigbase64)) in
      if negb (rc =? Base64.BASE64_OK) then Ret (FAILURE, None, "base64_decrypt failed")
      else if negb sha256_registered then Ret (FAILURE, None, "find sha256 hash index failed")
      else
        let* (_, hashResult) := sha256_of junk_md [inp] in
        let* (rc, stat) := rsa_verify_hash_ex junk sig siglen hashResult 32 sha256_oid pubKey in
        if negb (rc =? CRYPT_OK) then Ret (FAILURE, Some stat, "Verify error " +:+ fmt_d rc)
        else Ret (SUCCESS, Some stat, EmptyString)
  end.

Definition rsa_verify_cmd_signature (s : fs) (keystring : option string) (keyfile : string)
    (inp : list Z) (sigbase64 : list Z) : comp (Z * option bool * string) :=
  let '(rc, keyBase64, errmsg) :=
    match keystring with
    | Some k => (SUCCESS, Some k, EmptyString)
    | None => read_public_key s keyfile
    end in
  if negb (rc =? SUCCESS) then Ret (FAILURE, None, errmsg)
  else match keyBase64 with
       | None => Err NullDeref
       | Some k => rsa_verify_signature inp sigbase64 (chars k)
       end.
End signature.

(** ** Facts *)

Lemma SHA256_bytes m : Forall is_byte (SHA256 m).
Proof.
  unfold SHA256. cbv zeta. apply Forall_join, Forall_fmap, Forall_true. intros w. repeat constructor; apply byte_range.
Qed.

(** An odd modulus of [L] bytes with its exponent, whose DER form is small
    enough to be imported. *)
Record rsa_public (n ex : Z) (L : nat) : Prop := {
  p_odd : Z.odd n = true;
  p_exponent : 0 < ex;
  p_length : (11 <= L <= 4096)%nat;
  p_range : 256 ^ (Z.of_nat L - 1) <= n < 256 ^ Z.of_nat L;
  p_der : Z.of_nat (length (enc_pair n ex)) <= 4096
}.
(** The key as it is written in the file. *)
Definition key_string (n ex : Z) (k : string) : Prop := chars k = Base64.encode (subject_key (enc_pair n ex)).

Lemma public_modulus n ex L : rsa_public n ex L -> 1 < n.
Proof. intros [_ _ HL Hn _]. pose proof (Z.pow_gt_1 256 (Z.of_nat L - 1) ltac:(lia)). lia. Qed.

(** The signature of a text with the private exponent [dx]. *)
Definition message_number (L : nat) (inp : list Z) : Z := be_value (padded (L - 54) (digest_info (SHA256 inp))).
Definition sign (n dx : Z) (L : nat) (inp : list Z) : list Z := be_bytes L (message_number L inp ^ dx mod n).

Lemma message_bytes L inp : (54 <= L)%nat -> be_bytes L (message_number L inp) = padded (L - 54) (digest_info (SHA256 inp)).
Proof.
  intros HL. pose proof (length_padded (L - 54) (digest_info (SHA256 inp))) as Hp. rewrite (length_digest_info _ (length_SHA256 inp)) in Hp.
  replace L with (length (padded (L - 54) (digest_info (SHA256 inp)))) at 1 by lia. apply be_bytes_value, padded_bytes, digest_info_bytes; [apply length_SHA256|apply SHA256_bytes].
Qed.

Section facts.
Context `{Bignum}.
(** What is accepted is what the library accepts. *)
Lemma verdict_of (r : comp (Z * bool)) :
  (let* (rc, stat) := r in
   if negb (rc =? CRYPT_OK) then Ret (FAILURE, Some stat, "Verify error " +:+ fmt_d rc) else Ret (SUCCESS, Some stat, EmptyString))
  = Ret (SUCCESS, Some true, EmptyString) <-> r = Ret (CRYPT_OK, true).
Proof using.
  split; [|by intros ->]. destruct r as [[rc stat]|]; [|done]. rewrite ret_bind. destruct (Z.eqb_spec rc CRYPT_OK) as [->|]; cbn [negb]; [by intros [= ->]|done].
Qed.

(** The number under the padding is raised to the exponent. *)
Lemma cmd_exptmod n ex L key sig mem : rsa_public n ex L -> mp_val (N key) = n -> mp_val (e key) = ex -> mp_unsigned_bin_size (N key) = Z.of_nat L ->
  Forall is_byte sig -> length sig = L -> be_value sig <= n ->
  rsa_exptmod (sig ++ mem) (Z.of_nat L) (Z.of_nat L) key = Ret (inl (be_bytes L (be_value sig ^ ex mod n))).
Proof using.
  intros Hk En Ee Hsz Hs Hl Hle. pose proof (public_modulus n ex L Hk). destruct Hk. rewrite <- En, <- Ee in *. by apply exptmod_ok.
Qed.

Variable malloc : nat -> list Z.
Variable junk_md : sha256_state.
Variable junk : list Z.
Hypothesis Hmalloc : forall n, length (malloc n) = n.
Hypothesis Hmd : length (buf junk_md) = 64%nat.

(** For a Base64 key of at most 5120 bytes and a Base64 signature, the verdict
    is the library's on exactly the decoded signature, the SHA-256 of the text
    and the decoded key. *)
Lemma rsa_verify_decodes inp sig key :
  Forall is_byte inp -> 8 * Z.of_nat (length inp) < 2 ^ 64 -> Forall is_byte sig -> Forall is_byte key ->
  Z.of_nat (length key) <= 5120 -> Z.of_nat (length sig) < INT_MAX ->
  rsa_verify_signature malloc junk_md junk true inp (Base64.encode sig) (Base64.encode key) =
    let* r := rsa_import (key ++ replicate (5120 - length key) 0) (Z.of_nat (length key)) in
    match r with
    | inr e => Ret (FAILURE, None, "rsa_import pubic key failed: " +:+ fmt_d e)
    | inl k =>
        let* (rc, stat) := rsa_verify_hash_ex junk (sig ++ drop (length sig) (malloc (length (Base64.encode sig)))) (Z.of_nat (length sig)) (SHA256 inp) 32 sha256_oid k in
        if negb (rc =? CRYPT_OK) then Ret (FAILURE, Some stat, "Verify error " +:+ fmt_d rc)
        else Ret (SUCCESS, Some stat, EmptyString)
    end.
Proof using Hmalloc Hmd.
  unfold INT_MAX. intros Hin Hil Hs Hk Hkl Hsl. unfold rsa_verify_signature. rewrite (decode_encode key); [|done|unfold Base64.ULONG; lia|rewrite length_replicate; lia].
  rewrite ret_bind. change (negb (Base64.BASE64_OK =? Base64.BASE64_OK)) with false. cbn iota. rewrite drop_replicate.
  change (Z.to_nat 5120) with 5120%nat. destruct (rsa_import _ _) as [[k|e]|]; [|done..]. rewrite !ret_bind.
  assert (length sig <= length (Base64.encode sig))%nat as Hle by (pose proof (Base64.length_encode sig); Z.div_mod_to_equations; lia).
  rewrite decode_encode; [|done|unfold Base64.ULONG; lia|by rewrite Hmalloc]. rewrite ret_bind. change (negb (Base64.BASE64_OK =? Base64.BASE64_OK)) with false.
  cbn iota. assert (sha256_of junk_md [inp] = Ret (CRYPT_OK, SHA256 inp)) as ->; [|by rewrite ret_bind].
  rewrite sha256_correct; cbn [mjoin list_join]; rewrite ?app_nil_r; [done|done|by constructor|done].
Qed.

(** The library is asked with this key, the decoded signature and the hash. *)
Lemma cmd_signature_asks n ex L k s file inp sig : rsa_public n ex L -> key_string n ex k ->
  Forall is_byte inp -> 8 * Z.of_nat (length inp) < 2 ^ 64 -> Forall is_byte sig -> length sig = L ->
  exists key mem, mp_val (N key) = n /\ mp_val (e key) = ex /\ mp_unsigned_bin_size (N key) = Z.of_nat L /\
    rsa_verify_cmd_signature malloc junk_md junk true s (Some k) file inp (Base64.encode sig) =
      let* (rc, stat) := rsa_verify_hash_ex junk (sig ++ mem) (Z.of_nat L) (SHA256 inp) 32 sha256_oid key in
      if negb (rc =? CRYPT_OK) then Ret (FAILURE, Some stat, "Verify error " +:+ fmt_d rc)
      else Ret (SUCCESS, Some stat, EmptyString).
Proof using Hmalloc Hmd.
  intros Hk Ek Hin Hil Hs Hl. pose proof (public_modulus n ex L Hk). destruct Hk as [_ He HL Hn Hd].
  pose proof (length_enc 0x03 (0 :: enc_pair n ex)) as E1. rewrite length_enc_len in E1. cbn [length] in E1.
  assert (Z.of_nat (length (subject_key (enc_pair n ex))) <= 5120) as Hsk.
  { unfold subject_key, enc_with_algorithm. rewrite length_enc, length_enc_len, length_app. change (length rsa_algorithm) with 15%nat. repeat case_match; lia. }
  unfold rsa_verify_cmd_signature. change (negb (SUCCESS =? SUCCESS)) with false. cbn iota. rewrite Ek, rsa_verify_decodes; try done.
  - destruct (import_subject_key n ex (replicate (5120 - length (subject_key (enc_pair n ex))) 0) (Z.of_nat (length (subject_key (enc_pair n ex)))))
      as (key & -> & _ & En & Ee); [lia|lia|done|lia|]. rewrite ret_bind, Hl. exists key. eexists. split_and!; [done|done| |reflexivity].
    apply size_of_range; [lia|by rewrite En].
  - apply subject_key_bytes. lia.
  - unfold INT_MAX. lia.
Qed.

(** C20: what a valid signature is.  For a key in the form in which it is stored
    and a signature below the modulus, the verdict on the command is "valid" in
    exactly these cases: the signature raised to the public exponent is, in the
    bytes of the modulus, 0, 1, any number of 0xFF, 0 and bytes at the head of
    which the DER reader finds the identifier of SHA-256 and the SHA-256 of the
    text. *)
Theorem signature_verdict n ex L k s file inp sig : rsa_public n ex L -> key_string n ex k ->
  Forall is_byte inp -> 8 * Z.of_nat (length inp) < 2 ^ 64 -> Forall is_byte sig -> length sig = L -> be_value sig <= n ->
  rsa_verify_cmd_signature malloc junk_md junk true s (Some k) file inp (Base64.encode sig) = Ret (SUCCESS, Some true, EmptyString) <->
  exists pad D items, be_bytes L (be_value sig ^ ex mod n) = padded pad D
    /\ der_decode_sequence (D ++ drop (length D) (take (L - 3) junk)) (Z.of_nat (length D)) [expected_algorithm; ASN1_OCTET_STRING (Z.of_nat L) []] = Ret (inl items)
    /\ shows_digest sha256_oid (SHA256 inp) items.
Proof using Hmalloc Hmd.
  intros Hk Ek Hin Hil Hs Hl Hle. destruct (cmd_signature_asks n ex L k s file inp sig Hk Ek Hin Hil Hs Hl) as (key & mem & En & Ee & Hsz & ->).
  rewrite verdict_of. pose proof (public_modulus n ex L Hk). pose proof (p_length _ _ _ Hk).
  change 32 with (Z.of_nat 32). rewrite <- (length_SHA256 inp). apply verify_message; try done; try lia; [by apply cmd_exptmod|by rewrite length_be_bytes].
Qed.

(** C19: what was signed is accepted.  For an RSA key pair of at least 62 bytes,
    the PKCS #1 v1.5 signature of a text with the private exponent is found valid
    for this text with the public key. *)
Theorem signed_is_valid n ex dx L k s file inp : rsa_public n ex L -> key_string n ex k -> (62 <= L)%nat -> 0 <= dx ->
  Forall is_byte inp -> 8 * Z.of_nat (length inp) < 2 ^ 64 ->
  message_number L inp ^ (dx * ex) mod n = message_number L inp ->
  rsa_verify_cmd_signature malloc junk_md junk true s (Some k) file inp (Base64.encode (sign n dx L inp)) = Ret (SUCCESS, Some true, EmptyString).
Proof using Hmalloc Hmd.
  intros Hk Ek HL Hd Hin Hil Hpair. pose proof (public_modulus n ex L Hk) as Hn. pose proof (Z.mod_pos_bound (message_number L inp ^ dx) n ltac:(lia)) as Hm.
  assert (be_value (sign n dx L inp) = message_number L inp ^ dx mod n) as Ev by (apply be_value_bytes; destruct (p_range _ _ _ Hk) as [_ Hhi]; exact (conj (proj1 Hm) (Z.lt_trans _ _ _ (proj2 Hm) Hhi))).
  destruct (cmd_signature_asks n ex L k s file inp (sign n dx L inp) Hk Ek Hin Hil (be_bytes_bytes _ _) (length_be_bytes _ _)) as (key & mem & En & Ee & Hsz & ->).
  apply verdict_of, (verify_digest key _ (SHA256 inp) junk L (L - 54) []); [lia|done|lia|destruct (p_length _ _ _ Hk); lia|apply length_SHA256|cbn [length]; lia|].
  rewrite (cmd_exptmod n ex L) by (done || apply be_bytes_bytes || apply length_be_bytes || lia).
  rewrite Ev, app_nil_r, <- message_bytes by lia. do 3 f_equal. rewrite <- Hpair at 2. pose proof (p_exponent _ _ _ Hk). rewrite Z.pow_mul_r by lia.
  symmetry. apply Zpower_mod. lia.
Qed.

(** C21: signatures can be forged.  For every text and every length of modulus
    from 160 bytes there is one string that is accepted as the signature of the
    text with every key of this length with exponent 3: nobody's private exponent
    is needed. *)
Theorem forged_signature_valid L inp : (160 <= L <= 4096)%nat -> Forall is_byte inp -> 8 * Z.of_nat (length inp) < 2 ^ 64 ->
  exists sigbase64, forall n k s file, rsa_public n 3 L -> key_string n 3 k ->
    rsa_verify_cmd_signature malloc junk_md junk true s (Some k) file inp sigbase64 = Ret (SUCCESS, Some true, EmptyString).
Proof using Hmalloc Hmd.
  intros HL Hin Hil. destruct (forge L (SHA256 inp)) as (sig & Hl & Hb & Hf); [lia|lia|apply length_SHA256|apply SHA256_bytes|].
  exists (Base64.encode sig). intros n k s file Hk Ek. pose proof (public_modulus n 3 L Hk).
  destruct (cmd_signature_asks n 3 L k s file inp sig Hk Ek Hin Hil Hb Hl) as (key & mem & En & Ee & Hsz & ->).
  apply verdict_of, Hf; [done|rewrite En; apply Hk|lia|done].
Qed.
End facts.

(** ** On keys

    The modulus [demo_n] is one for which cubing twice gives the message number
    back; [demo_N] is a product of two primes. *)

#[local] Existing Instance Z_bignum.
Definition demo_n : Z := 87307465119979908939258007862105651638052339446986227404038206707549524652458628370059633067538055640838016294697802602634231678556992216272572435633815.
Definition demo_d : Z := 3.
Definition demo_N : Z := 19518170018115136188779867022730409363438603608023630270614977382767973691337156679771621697077521091479033739695929518935494400374736381262983500134560718057584225875758338703670692405850368441221035823062528463955584096647524197698131663432444827019823491059102904647031112985825916322534878446286539340123079948209327855891140616608084847144691792560808232672828208364959694899914687.
Definition demo_string (n : Z) : string :=
  String.string_of_list_ascii ((fun b => Ascii.ascii_of_N (Z.to_N b)) <$> Base64.encode (subject_key (enc_pair n 3))).
Definition demo_malloc (n : nat) : list Z := replicate n 205.
Definition demo_md : sha256_state := {| md_length := 7; state := []; curlen := 9; buf := replicate 64 5 |}.
Definition demo_fs : fs := {| files := ∅; dirs := ∅; mtimes := ∅ |}.
Lemma demo_key : rsa_public demo_n 3 64.
Proof. split; [reflexivity|reflexivity|lia|split; by vm_compute|by vm_compute]. Qed.
Lemma demo_key_160 : rsa_public demo_N 3 160.
Proof. split; [reflexivity|reflexivity|lia|split; by vm_compute|by vm_compute]. Qed.
Lemma demo_pair : message_number 64 [103] ^ (demo_d * 3) mod demo_n = message_number 64 [103].
Proof. by vm_compute. Qed.

Lemma signed_is_valid_witness :
  rsa_verify_cmd_signature demo_malloc demo_md [1; 2] true demo_fs (Some (demo_string demo_n)) "" [103] (Base64.encode (sign demo_n demo_d 64 [103]))
    = Ret (SUCCESS, Some true, "").
Proof.
  apply (signed_is_valid demo_malloc demo_md [1; 2] (fun n => length_replicate n 205) eq_refl demo_n 3 demo_d 64 (demo_string demo_n) demo_fs "" [103] demo_key);
    [by vm_compute|lia|done|by repeat constructor; vm_compute|done|exact demo_pair].
Defined.
(** The forged string exists and works with a key whose private
    exponent was thrown away. *)
Lemma forged_signature_valid_witness : exists sigbase64,
  rsa_verify_cmd_signature demo_malloc demo_md [1; 2] true demo_fs (Some (demo_string demo_N)) "" [103] sigbase64 = Ret (SUCCESS, Some true, "").
Proof.
  destruct (forged_signature_valid demo_malloc demo_md [1; 2] (fun n => length_replicate n 205) eq_refl 160 [103] ltac:(lia) ltac:(by repeat constructor; vm_compute) ltac:(done)) as [sig Hsig].
  exists sig. apply (Hsig demo_N); [exact demo_key_160|by vm_compute].
Defined.
(** A number that is no padded message is refused. *)
Lemma signature_verdict_witness :
  rsa_verify_cmd_signature demo_malloc demo_md [1; 2] true demo_fs (Some (demo_string demo_n)) "" [103] (Base64.encode (replicate 64 0))
    <> Ret (SUCCESS, Some true, "").
Proof.
  pose proof (signature_verdict demo_malloc demo_md [1; 2] (fun n => length_replicate n 205) eq_refl demo_n 3 64 (demo_string demo_n) demo_fs "" [103] (replicate 64 0) demo_key) as Hv.
  intros E. apply Hv in E.
  - destruct E as (pad & D & items & E & _).
    assert (be_bytes 64 (be_value (replicate 64 0) ^ 3 mod demo_n) = replicate 64 0) as E0 by (vm_compute; reflexivity). rewrite E0 in E. discriminate E.
  - vm_compute. reflexivity.
  - repeat constructor; by vm_compute.
  - done.
  - repeat constructor; by vm_compute.
  - done.
  - by vm_compute.
Defined.
