(* ===== verification/PayloadAes.v ===== *)
(** * The payload under AES (cipher/source/aescbc.c)

    Cipher.v says what the hub relies on from the cipher ([cbc_law]).  Here the
    cipher is the one the program links: [find_cipher] in the table in which
    app.c registered AES, [cbc_start] and the CBC mode of Cbc.v, with the key of
    secdef.h.  [junk] is the context on the stack before it is initialised; the
    library's loops read [d] and write a new buffer. *)

From S2P Require Import Prelude AesTables Aes AesInverse AesSpec Cbc Cipher.

Local Open Scope Z_scope.

(** secdef.h *)
Definition CBC_ENCRYPT_KEY : list Z := replicate 16 0.

(** The result and the context. *)
Definition init_cbc_key (t : table) (iv key : list Z) (cbc : symmetric_CBC rijndael_key)
    : comp (Z * symmetric_CBC rijndael_key) :=
  let cipher_idx := find_cipher t "aes" in
  if cipher_idx <? 0 then Ret (FAILURE, cbc)
  else
    let* (err, cbc) := cbc_start t cipher_idx iv key (Z.of_nat (length key)) 0 cbc in
    Ret (if err =? CRYPT_OK then SUCCESS else FAILURE, cbc).

Section aes.
Variable junk : symmetric_CBC rijndael_key.

(** One call of the library: the context for key and IV, then the mode. *)
Definition aes_mode (run : list Z -> Z -> symmetric_CBC rijndael_key -> comp (Z * list Z * symmetric_CBC rijndael_key))
    (key iv d : list Z) : option (list Z) :=
  match init_cbc_key registered.2 iv key junk with
  | Ret (rc, cbc) =>
      if negb (rc =? SUCCESS) then None
      else
        match run d (Z.of_nat (length d)) cbc with
        | Ret (err, out, _) => if err =? CRYPT_OK then Some out else None
        | Err _ => None
        end
  | Err _ => None
  end.
Definition aes_encrypt := aes_mode (Cbc.cbc_encrypt registered.2).
Definition aes_decrypt := aes_mode (Cbc.cbc_decrypt registered.2).

(** A context in memory: whatever it holds, its arrays have their sizes. *)
Definition is_context (c : symmetric_CBC rijndael_key) : Prop := is_key_object (key c) /\ length (IV c) = 128%nat.
Hypothesis Hjunk : is_context junk.

Lemma default_key : is_aes_key CBC_ENCRYPT_KEY.
Proof. split; [by left|by repeat constructor]. Qed.

Lemma init_ready k iv :
  is_aes_key k -> length iv = 16%nat -> Forall is_byte iv ->
  exists c, init_cbc_key registered.2 iv k junk = Ret (SUCCESS, c) /\ ready aes_desc k c iv /\ cipher c = 0.
Proof using Hjunk.
  intros Hk Hl Hiv. destruct registered_found as (_ & Hf & Hg), Hjunk as [Ho Hi]. unfold init_cbc_key. rewrite Hf.
  change (0 <? 0) with false. cbn iota.
  destruct (start_ready aes_desc k registered.2 0 iv junk) as (c & -> & Hr & Hc); [done..|]. by exists c.
Qed.

(** The ciphertext, by the standards. *)
Definition aes_cbc (k iv pt : list Z) : list Z := chain (length pt / 16) 16 (AES k) iv pt.

Lemma mode_ok k iv d :
  is_aes_key k -> length iv = 16%nat -> Forall is_byte iv -> Forall is_byte d -> Z.of_nat (length d) mod 16 = 0 ->
  aes_encrypt k iv d = Some (aes_cbc k iv d) /\ length (aes_cbc k iv d) = length d /\ aes_decrypt k iv (aes_cbc k iv d) = Some d.
Proof using Hjunk.
  intros Hk Hl Hiv Hd Hn. destruct (init_ready k iv Hk Hl Hiv) as (c & E & Hr & Hc). destruct registered_found as (_ & _ & Hg).
  assert (length d = length d / 16 * 16)%nat as Hw.
  { change 16 with (Z.of_nat 16) in Hn. rewrite <- Nat2Z.inj_mod in Hn. pose proof (Nat.div_mod_eq (length d) 16). lia. }
  rewrite <- Hc in Hg.
  destruct (modes_ok aes_desc k registered.2 (length d / 16) d c iv Hg Hr) as [(c1 & iv1 & E1 & _) (c2 & iv2 & E2 & _)]; [done|].
  destruct (chain_whole aes_desc k (length d / 16) iv d _ (rd_key _ _ _ _ Hr) (rd_block _ _ _ _ Hr)) as [Hlc _]; [done|].
  change (length (aes_cbc k iv d) = (length d / 16 * 16)%nat) in Hlc.
  unfold aes_encrypt, aes_decrypt, aes_mode. rewrite E. change (negb (SUCCESS =? SUCCESS)) with false. cbn iota.
  split_and!; [by rewrite E1|lia|]. 
  change (chain (length d / 16) (Z.to_nat (block_length aes_desc)) (block_enc k) iv d) with (aes_cbc k iv d) in E2. by rewrite E2.
Qed.
End aes.

(** Two calls, with whatever contexts, keep the law the payload relies on. *)
Lemma aes_law junk junk' k : is_context junk -> is_context junk' -> is_aes_key k -> cbc_law (aes_encrypt junk) (aes_decrypt junk') k.
Proof.
  intros Hj Hj' Hk iv d Hl Hiv Hd Hn. destruct (mode_ok junk Hj k iv d) as (E1 & E2 & _); [done..|].
  destruct (mode_ok junk' Hj' k iv d) as (_ & _ & E3); [done..|]. by exists (aes_cbc k iv d).
Qed.

(** C16: with the program's cipher and key, a message whose length is not a
    multiple of 16 and behind whose terminator enough bytes are readable becomes
    the header, the initialisation vector and the blocks that AES in CBC mode
    gives by FIPS-197; decryption gives the message back, and the memory of
    the two contexts before the calls does not matter. *)
Theorem payload_roundtrip junk junk' rand now m tail :
  let n := Z.of_nat (length m) in
  is_context junk -> is_context junk' ->
  Forall (fun b => b <> 0) m -> Forall is_byte (m ++ 0 :: tail) -> n mod 16 <> 0 -> n + 15 <= INT_MAX ->
  blocks n <= Z.of_nat (length (m ++ 0 :: tail)) ->
  let iv := generate_random_iv rand now 16 in
  let header := {| encryptMethod := 1; version := 1; contentSize := n; reserved := 0 |} in
  let payload := header_bytes header ++ iv ++ aes_cbc CBC_ENCRYPT_KEY iv (take (Z.to_nat (blocks n)) (m ++ 0 :: tail)) in
  exists out,
    mqtt_payload_encrypt true (aes_encrypt junk) CBC_ENCRYPT_KEY rand now (m ++ 0 :: tail) n = Ret (SUCCESS, Some (payload, header))
    /\ mqtt_payload_decrypt true (aes_decrypt junk') CBC_ENCRYPT_KEY payload (Z.of_nat (length payload)) = Ret (SUCCESS, Some (out, n, header))
    /\ take (length m) out = m.
Proof.
  intros n Hj Hj' Hm Hbs Hn Hmax Hb iv header payload.
  destruct (payload_roundtrip_law (aes_encrypt junk) (aes_decrypt junk') CBC_ENCRYPT_KEY (aes_law junk junk' _ Hj Hj' default_key)
    rand now m tail) as (p & h & out & E1 & _ & _ & E2 & E3); [done..|].
  enough (p = payload /\ h = header) as [-> ->] by by exists out.
  pose proof E1 as E. unfold mqtt_payload_encrypt, aes_cbc_encrypt in E. cbn [negb] in E. fold n in E. rewrite outlen_eq in E by (done || lia).
  unfold read_bytes at 1 in E. rewrite (proj2 (Z.leb_le _ _)) in E by done. cbn [mbind comp_bind] in E.
  destruct (blocks_bounds n) as [Hb1 Hb2]; [lia|].
  destruct (mode_ok junk Hj CBC_ENCRYPT_KEY iv (take (Z.to_nat (blocks n)) (m ++ 0 :: tail))) as (Em & _);
    [apply default_key|apply length_iv|apply iv_bytes|by apply Forall_take|rewrite length_take, Nat.min_l by lia; by rewrite Z2Nat.id by lia|].
  fold iv in E. rewrite Em in E. cbn [mbind comp_bind] in E.
  assert (to_uint n = n) as Eu by (unfold to_uint, INT_MAX in *; by rewrite Z.mod_small by lia). rewrite Eu in E. by injection E as <- <-.
Qed.

Definition fresh_context : symmetric_CBC rijndael_key :=
  {| cipher := 77; blocklen := 1; IV := replicate 128 5; key := {| eK := replicate 60 3; dK := replicate 60 9; Nr := 1 |} |}.

Lemma fresh_is_context : is_context fresh_context.
Proof. split; [|done]. split; [apply words_list; by vm_compute|done]. Qed.

Lemma payload_roundtrip_witness :
  exists payload header out,
    mqtt_payload_encrypt true (aes_encrypt fresh_context) CBC_ENCRYPT_KEY (fun _ i => Z.of_nat i) 7 ([104; 105] ++ 0 :: replicate 13 9) 2
      = Ret (SUCCESS, Some (payload, header))
    /\ contentSize header = 2
    /\ mqtt_payload_decrypt true (aes_decrypt fresh_context) CBC_ENCRYPT_KEY payload (Z.of_nat (length payload)) = Ret (SUCCESS, Some (out, 2, header))
    /\ take 2 out = [104; 105].
Proof.
  destruct (payload_roundtrip fresh_context fresh_context (fun _ i => Z.of_nat i) 7 [104; 105] (replicate 13 9) fresh_is_context fresh_is_context)
    as (out & E1 & E2 & E3); [repeat constructor; lia|repeat constructor; discriminate|by vm_compute|by vm_compute|by vm_compute|].
  eexists _, _, out. split; [exact E1|]. split; [reflexivity|]. by split.
Defined.
