(* ===== verification/Utf8.v ===== *)
(** * UTF-8 validation (mqtt-c/source/utf-8.c)

    The client library checks client ids, names and topics before it sends
    them.  The table of valid ranges holds signed characters; a byte is read
    only within the array it is in, so that a fault is a read behind it. *)

From Stdlib Require Import Ascii.
From S2P Require Import Prelude CString Unicode.

Local Open Scope Z_scope.

(** A byte as a [char], which is signed. *)
Definition schar (z : Z) : Z := if z <? 128 then z else z - 256.

Definition valid_ranges : list (list (Z * Z)) :=
  [ [(0x00, 0x7F)];
    [(0xC2, 0xDF); (0x80, 0xBF)];
    [(0xE0, 0xE0); (0xA0, 0xBF); (0x80, 0xBF)];
    [(0xE1, 0xEC); (0x80, 0xBF); (0x80, 0xBF)];
    [(0xED, 0xED); (0x80, 0x9F); (0x80, 0xBF)];
    [(0xEE, 0xEF); (0x80, 0xBF); (0x80, 0xBF)];
    [(0xF0, 0xF0); (0x90, 0xBF); (0x80, 0xBF); (0x80, 0xBF)];
    [(0xF1, 0xF3); (0x80, 0xBF); (0x80, 0xBF); (0x80, 0xBF)];
    [(0xF4, 0xF4); (0x80, 0x8F); (0x80, 0xBF); (0x80, 0xBF)] ].

(** The inner loop: every byte of the character in the ranges of the row. *)
Fixpoint check_row (data : list Z) (j : Z) (row : list (Z * Z)) : comp bool :=
  match row with
  | [] => Ret true
  | (lower, upper) :: row =>
      let* d := arr_get data j in
      if (schar d <? schar lower) || (schar upper <? schar d) then Ret false
      else check_row data (j + 1) row
  end.

Fixpoint check_rows (data : list Z) (charlen : Z) (rows : list (list (Z * Z))) : comp bool :=
  match rows with
  | [] => Ret false
  | row :: rows =>
      if Z.of_nat (length row) =? charlen then
        let* good := check_row data 0 row in
        if (good : bool) then Ret true else check_rows data charlen rows
      else check_rows data charlen rows
  end.

(** The number of bytes of the character, by its first byte. *)
Definition char_len (b : Z) : Z :=
  if Z.land b 128 =? 0 then 1
  else if Z.land b 0xF0 =? 0xF0 then 4
  else if Z.land b 0xE0 =? 0xE0 then 3
  else 2.

(** The length of the character at the start of [data], or NULL. *)
Definition UTF8_char_validate (len : Z) (data : list Z) : comp (option Z) :=
  let* b := arr_get data 0 in
  let charlen := char_len b in
  if len <? charlen then Ret None
  else
    let* good := check_rows data charlen valid_ranges in
    Ret (if (good : bool) then Some charlen else None).

(** [curdata] is an offset into [data]. *)
Fixpoint validate_loop (fuel : nat) (len : Z) (data : list Z) (curdata : Z) : comp bool :=
  match fuel with
  | O => Err OutOfFuel
  | S fuel =>
      let* n := UTF8_char_validate len (drop (Z.to_nat curdata) data) in
      match n with
      | None => Ret false
      | Some n => if curdata + n <? len then validate_loop fuel len data (curdata + n) else Ret true
      end
  end.

Definition UTF8_validate (len : Z) (data : list Z) : comp bool :=
  if len =? 0 then Ret true else validate_loop (Z.to_nat len) len data 0.

Definition UTF8_validateString (s : string) : comp bool :=
  UTF8_validate (to_int (strlen s)) (bytes_of s ++ [0]).

(** ** One character *)

(** The text starts with bytes in the ranges of the row. *)
Fixpoint row_matches (row : list (Z * Z)) (l : list Z) : bool :=
  match row, l with
  | [], _ => true
  | (lower, upper) :: row, d :: l => (lower <=? d) && (d <=? upper) && row_matches row l
  | _, [] => false
  end.

(** A row either compares ASCII or bytes from 128 on. *)
Definition range_ok (r : Z * Z) : bool :=
  ((0 <=? r.1) && (r.2 <? 128)) || ((128 <=? r.1) && (r.2 <? 256)).
Definition high_range (r : Z * Z) : bool := (128 <=? r.1) && (r.2 <? 256).

Lemma schar_compare lower upper d :
  is_byte d -> range_ok (lower, upper) = true -> lower <= upper ->
  (schar d <? schar lower) || (schar upper <? schar d) = negb ((lower <=? d) && (d <=? upper)).
Proof.
  unfold is_byte, range_ok, schar. cbn [fst snd]. intros Hd Hr Hlu.
  destruct (Z.ltb_spec d 128), (Z.ltb_spec lower 128), (Z.ltb_spec upper 128); lia.
Qed.

(** Behind the text comes its terminator, which no later range accepts. *)
Lemma check_row_high pre l row :
  Forall is_byte l -> Forall (fun r => high_range r = true /\ r.1 <= r.2) row ->
  check_row (pre ++ l ++ [0]) (Z.of_nat (length pre)) row = Ret (row_matches row l).
Proof.
  intros Hl Hrow. revert pre l Hl. induction Hrow as [|[lower upper] row [Hr Hlu] Hrow IH]; intros pre l Hl; [by destruct l|].
  cbn in Hr, Hlu. cbn [check_row]. destruct Hl as [|d l Hd Hl]; cbn [app].
  - rewrite arr_get_app by done. cbn [mbind comp_bind row_matches].
    rewrite schar_compare; [|by unfold is_byte|unfold range_ok, high_range in *; cbn in *; lia|done].
    rewrite (proj2 (Z.leb_gt lower 0)) by (unfold high_range in Hr; cbn in Hr; lia). done.
  - rewrite arr_get_app by done. cbn [mbind comp_bind row_matches].
    rewrite schar_compare; [|done|unfold range_ok, high_range in *; cbn in *; lia|done].
    destruct ((lower <=? d) && (d <=? upper)); cbn [negb andb]; [|done].
    specialize (IH (pre ++ [d]) l Hl). rewrite <- app_assoc in IH. cbn [app] in IH. rewrite <- IH. f_equal.
    rewrite length_app. cbn. lia.
Qed.

Lemma check_row_matches b l row :
  is_byte b -> Forall is_byte l -> row ∈ valid_ranges ->
  check_row (b :: l ++ [0]) 0 row = Ret (row_matches row (b :: l)).
Proof.
  intros Hb Hl Hrow.
  assert (exists lower upper row', row = (lower, upper) :: row' /\ range_ok (lower, upper) = true /\ lower <= upper
            /\ Forall (fun r => high_range r = true /\ r.1 <= r.2) row') as (lower & upper & row' & -> & Hr & Hlu & Hh).
  { unfold valid_ranges in Hrow. rewrite !elem_of_cons in Hrow.
    destruct_or! Hrow; (try by apply elem_of_nil in Hrow); subst row; do 3 eexists; (split; [reflexivity|]);
      (split; [done|]); (split; [lia|]); repeat constructor; cbn; lia. }
  cbn [check_row row_matches]. change (arr_get (b :: l ++ [0]) 0) with (Ret b). cbn [mbind comp_bind].
  rewrite schar_compare by done. destruct ((lower <=? b) && (b <=? upper)); cbn [negb andb]; [|done].
  exact (check_row_high [b] l row' Hl Hh).
Qed.

Lemma char_len_ranges b :
  is_byte b -> char_len b = if b <? 128 then 1 else if b <? 224 then 2 else if b <? 240 then 3 else 4.
Proof.
  intros Hb.
  assert (Forall (fun b => char_len b = if b <? 128 then 1 else if b <? 224 then 2 else if b <? 240 then 3 else 4)
            (seqZ 0 256)) as Hall by (by repeat constructor).
  rewrite Forall_forall in Hall. apply Hall, elem_of_seqZ. unfold is_byte in Hb. lia.
Qed.

Definition some_row (n : Z) (l : list Z) (rows : list (list (Z * Z))) : bool :=
  existsb (fun row => (Z.of_nat (length row) =? n) && row_matches row l) rows.

Lemma check_rows_some b l n rows :
  is_byte b -> Forall is_byte l -> rows ⊆ valid_ranges ->
  check_rows (b :: l ++ [0]) n rows = Ret (some_row n (b :: l) rows).
Proof.
  intros Hb Hl. induction rows as [|row rows IH]; intros Hin; [done|]. cbn [check_rows some_row existsb].
  assert (row ∈ valid_ranges) as Hrow by (apply Hin; left).
  assert (rows ⊆ valid_ranges) as Hrows by (intros r Hr; apply Hin; by right).
  destruct (Z.of_nat (length row) =? n); cbn [andb orb]; [|by apply IH].
  rewrite check_row_matches by done. cbn [mbind comp_bind].
  destruct (row_matches row (b :: l)); cbn [orb]; [done|by apply IH].
Qed.

(** ** Rows of the table against code points *)

Lemma row_matches_cons lower upper row b l :
  row_matches ((lower, upper) :: row) (b :: l) = true <-> lower <= b <= upper /\ row_matches row l = true.
Proof. cbn. rewrite !andb_true_iff, !Z.leb_le. tauto. Qed.

Lemma row_matches_more lower upper row l :
  row_matches ((lower, upper) :: row) l = true ->
  exists b l', l = b :: l' /\ lower <= b <= upper /\ row_matches row l' = true.
Proof. destruct l as [|b l]; [done|]. intros H%row_matches_cons. by exists b, l. Qed.

Ltac row_steps H :=
  repeat (apply row_matches_more in H; let b := fresh "b" in let l := fresh "l" in let Hr := fresh "Hr" in
          destruct H as (b & l & -> & Hr & H)).

(** The arithmetic of a form: the tests on the code point, then the quotients. *)
Ltac utf8_form :=
  unfold utf8_bytes, scalar_value; split; [lia|];
  repeat match goal with |- context [Z.ltb ?x ?y] => destruct (Z.ltb_spec x y); [try lia|try lia] end;
  repeat f_equal; Z.div_mod_to_equations; lia.

Lemma utf8_form1 b : 0 <= b <= 127 -> scalar_value b /\ utf8_bytes b = [b].
Proof. intros. utf8_form. Qed.

Lemma utf8_form2 b c : 194 <= b <= 223 -> 128 <= c <= 191 ->
  let cp := (b - 192) * 64 + (c - 128) in scalar_value cp /\ utf8_bytes cp = [b; c].
Proof. intros. utf8_form. Qed.

Lemma utf8_form3 b c d :
  (b = 224 /\ 160 <= c \/ 225 <= b <= 236 \/ b = 237 /\ c <= 159 \/ 238 <= b <= 239) ->
  128 <= c <= 191 -> 128 <= d <= 191 ->
  let cp := (b - 224) * 4096 + (c - 128) * 64 + (d - 128) in scalar_value cp /\ utf8_bytes cp = [b; c; d].
Proof. intros. utf8_form. Qed.

Lemma utf8_form4 b c d e :
  (b = 240 /\ 144 <= c \/ 241 <= b <= 243 \/ b = 244 /\ c <= 143) ->
  128 <= c <= 191 -> 128 <= d <= 191 -> 128 <= e <= 191 ->
  let cp := (b - 240) * 262144 + (c - 128) * 4096 + (d - 128) * 64 + (e - 128) in
  scalar_value cp /\ utf8_bytes cp = [b; c; d; e].
Proof. intros. utf8_form. Qed.

Lemma row_is_form row l :
  row ∈ valid_ranges -> row_matches row l = true ->
  exists cp l', scalar_value cp /\ l = utf8_bytes cp ++ l'.
Proof.
  unfold valid_ranges. intros Hrow Hm. rewrite !elem_of_cons in Hrow.
  destruct_or! Hrow; (try by apply elem_of_nil in Hrow); subst row; row_steps Hm;
    [ destruct (utf8_form1 b ltac:(lia)) as [? E]
    | destruct (utf8_form2 b b0 ltac:(lia) ltac:(lia)) as [? E]
    | destruct (utf8_form3 b b0 b1 ltac:(lia) ltac:(lia) ltac:(lia)) as [? E] ..
    | destruct (utf8_form4 b b0 b1 b2 ltac:(lia) ltac:(lia) ltac:(lia) ltac:(lia)) as [? E]
    | destruct (utf8_form4 b b0 b1 b2 ltac:(lia) ltac:(lia) ltac:(lia) ltac:(lia)) as [? E]
    | destruct (utf8_form4 b b0 b1 b2 ltac:(lia) ltac:(lia) ltac:(lia) ltac:(lia)) as [? E] ];
    (eexists _, _; split; [eassumption|]; by rewrite E).
Qed.

(** The bytes of a form, in the terms of the table. *)
Lemma form_bytes cp :
  scalar_value cp ->
  (exists b, utf8_bytes cp = [b] /\ 0 <= b <= 127) \/
  (exists b c, utf8_bytes cp = [b; c] /\ 194 <= b <= 223 /\ 128 <= c <= 191) \/
  (exists b c d, utf8_bytes cp = [b; c; d] /\
     (b = 224 /\ 160 <= c \/ 225 <= b <= 236 \/ b = 237 /\ c <= 159 \/ 238 <= b <= 239) /\
     128 <= c <= 191 /\ 128 <= d <= 191) \/
  (exists b c d e, utf8_bytes cp = [b; c; d; e] /\
     (b = 240 /\ 144 <= c \/ 241 <= b <= 243 \/ b = 244 /\ c <= 143) /\
     128 <= c <= 191 /\ 128 <= d <= 191 /\ 128 <= e <= 191).
Proof.
  unfold scalar_value, utf8_bytes. intros Hcp.
  destruct (Z.ltb_spec cp 128); [left|destruct (Z.ltb_spec cp 2048); [right; left|
    destruct (Z.ltb_spec cp 65536); [do 2 right; left|do 3 right]]];
    repeat eexists; try (Z.div_mod_to_equations; lia).
Qed.

(** The [k]-th row accepts a text. *)
Lemma some_row_nth k row n l :
  valid_ranges !! k = Some row -> Z.of_nat (length row) = n -> row_matches row l = true ->
  some_row n l valid_ranges = true.
Proof.
  intros Hk Hn Hm. apply existsb_exists. exists row. split; [by eapply list_elem_of_In, list_elem_of_lookup_2|].
  by rewrite Hm, andb_true_r, Z.eqb_eq.
Qed.

Ltac row k := apply (some_row_nth k _ _ _ eq_refl eq_refl); cbn [app row_matches]; lia.

Lemma form_has_row cp l :
  scalar_value cp -> some_row (Z.of_nat (length (utf8_bytes cp))) (utf8_bytes cp ++ l) valid_ranges = true.
Proof.
  intros [(b & -> & Hb)|[(b & c & -> & Hb)|[(b & c & d & -> & Hb & ?)|(b & c & d & e & -> & Hb & ?)]]]%form_bytes.
  - row 0%nat.
  - row 1%nat.
  - destruct Hb as [Hb|[Hb|[Hb|Hb]]]; [row 2%nat|row 3%nat|row 4%nat|row 5%nat].
  - destruct Hb as [Hb|[Hb|Hb]]; [row 6%nat|row 7%nat|row 8%nat].
Qed.

Lemma length_form cp :
  scalar_value cp -> exists b l, utf8_bytes cp = b :: l /\ is_byte b /\ Z.of_nat (length (utf8_bytes cp)) = char_len b.
Proof.
  intros Hcp. destruct (utf8_bytes_cons cp) as (b & l & E). exists b, l. rewrite E.
  pose proof (utf8_bytes_byte cp Hcp) as Hb. rewrite E in Hb. apply Forall_cons in Hb as [Hb _]. split_and!; [done|done|].
  rewrite char_len_ranges by done.
  destruct (form_bytes cp Hcp) as [(? & E' & ?)|[(? & ? & E' & ?)|[(? & ? & ? & E' & ?)|(? & ? & ? & ? & E' & ?)]]];
    rewrite E' in E; injection E as -> <-; cbn [length];
    repeat match goal with |- context [Z.ltb ?x ?y] => destruct (Z.ltb_spec x y); try lia end.
Qed.

(** One character: its length if the text starts with the form of a code
    point, whatever limit of at least the text's length is given. *)
Lemma char_validate_form len b l :
  is_byte b -> Forall is_byte l -> Z.of_nat (length (b :: l)) <= len ->
  exists r, UTF8_char_validate len (b :: l ++ [0]) = Ret r /\
    match r with
    | Some n => exists cp l', scalar_value cp /\ b :: l = utf8_bytes cp ++ l' /\ n = Z.of_nat (length (utf8_bytes cp))
    | None => ~ exists cp l', scalar_value cp /\ b :: l = utf8_bytes cp ++ l'
    end.
Proof.
  intros Hb Hl Hlen. unfold UTF8_char_validate.
  change (arr_get (b :: l ++ [0]) 0) with (Ret b). cbn [mbind comp_bind].
  assert (forall cp l', scalar_value cp -> b :: l = utf8_bytes cp ++ l' ->
            char_len b = Z.of_nat (length (utf8_bytes cp))) as Hcl.
  { intros cp l' Hcp E. destruct (length_form cp Hcp) as (b' & l0 & E' & _ & ->). rewrite E' in E. by injection E as -> _. }
  destruct (Z.ltb_spec len (char_len b)) as [Hlt|Hge].
  - eexists. split; [done|]. intros (cp & l' & Hcp & E). pose proof (Hcl cp l' Hcp E).
    rewrite E, length_app in Hlen. lia.
  - rewrite check_rows_some by done. cbn [mbind comp_bind]. eexists. split; [done|].
    destruct (some_row (char_len b) (b :: l) valid_ranges) eqn:Hsome.
    + apply existsb_exists in Hsome as (row & Hrow & [_ Hm]%andb_true_iff).
      destruct (row_is_form row (b :: l)) as (cp & l' & Hcp & E); [by apply list_elem_of_In|done|].
      exists cp, l'. split_and!; [done..|]. by apply (Hcl cp l').
    + intros (cp & l' & Hcp & E). rewrite (Hcl cp l' Hcp E), E in Hsome. by rewrite form_has_row in Hsome.
Qed.

(** ** The whole text *)

Lemma utf8_bytes_inj cp cp' l l' :
  scalar_value cp -> scalar_value cp' -> utf8_bytes cp ++ l = utf8_bytes cp' ++ l' -> l = l'.
Proof.
  intros Hcp Hcp' E. destruct (length_form cp Hcp) as (b & k & Eb & _ & Hn), (length_form cp' Hcp') as (b' & k' & Eb' & _ & Hn').
  assert (b = b') as <- by (rewrite Eb, Eb' in E; by injection E).
  apply (app_inj_1 (utf8_bytes cp) (utf8_bytes cp') l l'); [lia|done].
Qed.

Lemma validate_loop_spec fuel pre l :
  Forall is_byte l -> l <> [] -> (length l <= fuel)%nat ->
  exists b, validate_loop fuel (Z.of_nat (length (pre ++ l))) (pre ++ l ++ [0]) (Z.of_nat (length pre)) = Ret b /\
    (b = true <-> utf8_text l).
Proof.
  revert pre l. induction fuel as [|fuel IH]; intros pre l Hl Hne Hfuel; [destruct l; [done|cbn in Hfuel; lia]|].
  cbn [validate_loop]. rewrite Nat2Z.id, drop_app_length. destruct Hl as [|b l Hb Hl]; [done|]. cbn [app].
  edestruct (char_validate_form (Z.of_nat (length (pre ++ b :: l))) b l) as ([n|] & -> & Hr);
    [done|done|rewrite length_app; lia|..]; cbn [mbind comp_bind].
  - destruct Hr as (cp & l' & Hcp & E & ->). rewrite E.
    assert (utf8_text (utf8_bytes cp ++ l') <-> utf8_text l') as Hiff.
    { rewrite utf8_text_cons by (by rewrite <- E). split; [|by intros; exists cp, l'].
      intros (cp' & l0 & Hcp' & E' & Ht). by rewrite (utf8_bytes_inj cp cp' l' l0). }
    assert (Forall is_byte l') as Hl'.
    { assert (Forall is_byte (b :: l)) as H by (by constructor). rewrite E in H. by apply Forall_app in H as [_ ?]. }
    destruct (Z.ltb_spec (Z.of_nat (length pre) + Z.of_nat (length (utf8_bytes cp)))
                (Z.of_nat (length (pre ++ utf8_bytes cp ++ l')))) as [Hlt|Hge].
    + assert (l' <> []) as Hne' by (intros ->; rewrite app_nil_r, length_app in Hlt; lia).
      destruct (IH (pre ++ utf8_bytes cp) l') as (r & Hr & Hrl); [done|done|..].
      { destruct (utf8_bytes_cons cp) as (x & k & Ek). assert (length (b :: l) = length (utf8_bytes cp ++ l')) as HL by (by rewrite E).
        rewrite Ek in HL. cbn in HL, Hfuel. rewrite length_app in HL. lia. }
      exists r. split; [|by rewrite Hiff]. rewrite <- Hr, <- !app_assoc.
      assert (b :: l ++ [0] = utf8_bytes cp ++ l' ++ [0]) as -> by (by rewrite app_assoc, <- E).
      by rewrite (length_app pre (utf8_bytes cp)), Nat2Z.inj_add.
    + exists true. split; [done|]. rewrite Hiff. rewrite !length_app in Hge.
      destruct l'; [|cbn in Hge; lia]. by split; [intros _; apply utf8_text_nil|].
  - exists false. split; [done|]. split; [done|]. rewrite utf8_text_cons by done.
    intros (cp & l' & Hcp & E & _). destruct Hr. by exists cp, l'.
Qed.

(** C33: UTF8_validateString accepts exactly the sequences of forms of Unicode
    code points, surrogates, overlong forms and values above 0x10FFFF
    excluded, and never reads behind the string's terminator. *)
Theorem validate_string_iff s :
  strlen s <= INT_MAX ->
  exists b, UTF8_validateString s = Ret b /\ (b = true <-> utf8_text (bytes_of s)).
Proof.
  intros Hs. unfold UTF8_validateString, UTF8_validate.
  rewrite to_int_id by (pose proof (strlen_nonneg s); unfold is_int, INT_MIN; lia).
  destruct (Z.eqb_spec (strlen s) 0) as [H0|H0].
  - exists true. split; [done|]. rewrite <- length_bytes_of in H0. destruct (bytes_of s); [|cbn in H0; lia].
    by split; [intros _; apply utf8_text_nil|].
  - rewrite <- length_bytes_of in H0 |- *. rewrite Nat2Z.id.
    apply (validate_loop_spec _ []); [apply bytes_of_byte| |done]. by intros E; rewrite E in H0.
Qed.

Lemma validate_string_iff_witness :
  strlen (bytes [0x41; 0xC3; 0xA9; 0xED; 0xA0; 0x80]) <= INT_MAX /\
  UTF8_validateString (bytes [0x41; 0xC3; 0xA9; 0xED; 0xA0; 0x80]) = Ret false /\
  exists b, UTF8_validateString (bytes [0x41; 0xC3; 0xA9; 0xED; 0xA0; 0x80]) = Ret b /\
    (b = true <-> utf8_text (bytes_of (bytes [0x41; 0xC3; 0xA9; 0xED; 0xA0; 0x80]))).
Proof.
  split; [vm_compute; discriminate|split; [reflexivity|]].
  apply (validate_string_iff (bytes [0x41; 0xC3; 0xA9; 0xED; 0xA0; 0x80])). vm_compute. discriminate.
Defined.

(** The limit [UTF8_char_validate] gets is the length of the whole text, not of
    what is left of it: on a buffer without a terminator a text that ends
    inside a character is read behind its end. *)
Example validate_reads_behind : UTF8_validate 2 [0x41; 0xC3] = Err OutOfBounds.
Proof. reflexivity. Qed.
