(* ===== verification/MqttPacket.v ===== *)
(** * MQTT packets (mqtt-c/source: MQTTPacket.c, MQTTPacketOut.c)

    Building and reading the packets of MQTT 3.1 and 3.1.1.  A [char *] into a
    packet is an offset in its buffer, and every access is checked against the
    buffer.  A function that sends returns the buffers it hands to
    Socket_putdatas, the fixed header first. *)

From Stdlib Require Import Ascii.
From S2P Require Import Prelude CString Unicode.

Local Open Scope Z_scope.

(** ** The header byte: a union of the byte and its bit fields *)

Definition CONNECT : Z := 1.
Definition CONNACK : Z := 2.
Definition PUBLISH : Z := 3.
Definition PUBACK : Z := 4.
Definition PUBREC : Z := 5.
Definition PUBREL : Z := 6.
Definition PUBCOMP : Z := 7.
Definition SUBSCRIBE : Z := 8.
Definition SUBACK : Z := 9.
Definition UNSUBSCRIBE : Z := 10.
Definition UNSUBACK : Z := 11.
Definition PINGREQ : Z := 12.
Definition PINGRESP : Z := 13.
Definition DISCONNECT : Z := 14.

Definition hdr_retain (byte : Z) : Z := byte mod 2.
Definition hdr_qos (byte : Z) : Z := byte / 2 mod 4.
Definition hdr_dup (byte : Z) : Z := byte / 8 mod 2.
Definition hdr_type (byte : Z) : Z := byte / 16 mod 16.

(** The byte after an assignment to all fields, each cut to its width. *)
Definition header_bits (type dup qos retain : Z) : Z :=
  retain mod 2 + 2 * (qos mod 4) + 8 * (dup mod 2) + 16 * (type mod 16).

(** A value stored in a [char], as the byte of the buffer. *)
Definition to_byte (z : Z) : Z := z mod 256.

(** What [malloc] returns: memory of any contents. *)
Definition malloc (junk n : Z) : list Z := replicate (Z.to_nat n) junk.

(** ** Reading a buffer *)

Definition readInt (data : list Z) (cur : Z) : comp (Z * Z) :=
  let* a := arr_get data cur in
  let* b := arr_get data (cur + 1) in
  Ret (256 * a + b, cur + 2).

(** The string, the new position and [*len], which an early exit leaves alone. *)
Definition readUTFlen (data : list Z) (cur enddata len : Z) : comp (option string * Z * Z) :=
  if 1 <? enddata - cur then
    let* (len, cur) := readInt data cur in
    if cur + len <=? enddata then
      let* s := arr_slice data cur len in
      Ret (Some (bytes s), cur + len, len)
    else Ret (None, cur, len)
  else Ret (None, cur, len).

Definition readUTF (data : list Z) (cur enddata : Z) : comp (option string * Z) :=
  let* (r, _) := readUTFlen data cur enddata 0 in Ret r.

Definition readChar (data : list Z) (cur : Z) : comp (Z * Z) :=
  let* c := arr_get data cur in Ret (c, cur + 1).

(** ** Writing a buffer *)

Definition writeChar (buf : list Z) (ptr c : Z) : comp (list Z * Z) :=
  let* buf := arr_set buf ptr (to_byte c) in Ret (buf, ptr + 1).

Definition writeInt (buf : list Z) (ptr anInt : Z) : comp (list Z * Z) :=
  let* buf := arr_set buf ptr (to_byte (Z.quot anInt 256)) in
  let* buf := arr_set buf (ptr + 1) (to_byte (Z.rem anInt 256)) in
  Ret (buf, ptr + 2).

Definition writeUTF (buf : list Z) (ptr : Z) (s : string) : comp (list Z * Z) :=
  let len := strlen s in
  let* (buf, ptr) := writeInt buf ptr (to_int len) in
  let* buf := arr_write buf ptr (bytes_of s) in
  Ret (buf, ptr + len).

Definition writeData (buf : list Z) (ptr : Z) (data : list Z) (datalen : Z) : comp (list Z * Z) :=
  let* (buf, ptr) := writeInt buf ptr datalen in
  let* d := arr_slice data 0 datalen in
  let* buf := arr_write buf ptr d in
  Ret (buf, ptr + datalen).

(** ** The remaining length *)

(** [off] is the offset of [&buf[1]]; a [size_t] has at most ten digits. *)
Fixpoint encode_loop (fuel : nat) (buf : list Z) (off rc length : Z) : comp (list Z * Z) :=
  match fuel with
  | O => Err OutOfFuel
  | S fuel =>
      let d := length mod 128 in
      let length := length / 128 in
      let d := if 0 <? length then Z.lor d 0x80 else d in
      let* buf := arr_set buf (off + rc) d in
      let rc := rc + 1 in
      if 0 <? length then encode_loop fuel buf off rc length else Ret (buf, rc)
  end.

Definition MQTTPacket_encode (buf : list Z) (off length : Z) : comp (list Z * Z) :=
  encode_loop 10 buf off 0 length.

(** ** Sending *)

Section packets.
Context (junk : Z).

(** The part MQTTPacket_send and MQTTPacket_sends share: header and length. *)
Definition fixed_header (header total : Z) : comp (list Z) :=
  let* buf := arr_set (malloc junk 10) 0 (to_byte header) in
  let* (buf, n) := MQTTPacket_encode buf 1 total in
  arr_slice buf 0 (1 + n).

(** [buffer] with [count] 0 or 1. *)
Definition MQTTPacket_send (header : Z) (buffer : option (list Z)) (buflen : Z) : comp (list (list Z)) :=
  let* buf0 := fixed_header header buflen in
  match buffer with
  | None => Ret [buf0]
  | Some buffer => let* b := arr_slice buffer 0 buflen in Ret [buf0; b]
  end.

(** The buffers with their lengths, as writev gathers them. *)
Fixpoint gather (buffers : list (list Z * Z)) : comp (list (list Z)) :=
  match buffers with
  | [] => Ret []
  | (b, len) :: buffers =>
      let* b := arr_slice b 0 len in
      let* bs := gather buffers in
      Ret (b :: bs)
  end.

Definition MQTTPacket_sends (header : Z) (buffers : list (list Z * Z)) : comp (list (list Z)) :=
  let total := to_ulong (foldr (fun b n => b.2 + n) 0 buffers) in
  let* buf0 := fixed_header header total in
  let* bs := gather buffers in
  Ret (buf0 :: bs).

Definition MQTTPacket_send_disconnect : comp (list (list Z)) :=
  MQTTPacket_send (header_bits DISCONNECT 0 0 0) None 0.

Definition MQTTPacket_send_pingreq : comp (list (list Z)) :=
  MQTTPacket_send (header_bits PINGREQ 0 0 0) None 0.

Definition MQTTPacket_send_ack (type msgid dup : Z) : comp (list (list Z)) :=
  let header := header_bits type dup (if type =? PUBREL then 1 else 0) 0 in
  let* (buf, _) := writeInt (malloc junk 2) 0 msgid in
  MQTTPacket_send header (Some buf) 2.

Definition MQTTPacket_send_puback (msgid : Z) := MQTTPacket_send_ack PUBACK msgid 0.
Definition MQTTPacket_send_pubrec (msgid : Z) := MQTTPacket_send_ack PUBREC msgid 0.
Definition MQTTPacket_send_pubrel (msgid dup : Z) := MQTTPacket_send_ack PUBREL msgid dup.
Definition MQTTPacket_send_pubcomp (msgid : Z) := MQTTPacket_send_ack PUBCOMP msgid 0.

(** A publication: [payload] is the memory its pointer leads to, of which
    [payloadlen] bytes belong to it. *)
Record Publish := {
  pub_header : Z;
  topic : string;
  topiclen : Z;
  msgId : Z;
  payload : list Z;
  payloadlen : Z
}.

Definition MQTTPacket_send_publish (pack : Publish) (dup qos retained : Z) : comp (list (list Z)) :=
  let header := header_bits PUBLISH dup qos retained in
  let len1 := strlen (topic pack) in
  let paylen := to_ulong (payloadlen pack) in
  if 0 <? qos then
    let* (buf, _) := writeInt (malloc junk 2) 0 (msgId pack) in
    let* (topiclen, _) := writeInt (malloc junk 2) 0 (to_int len1) in
    MQTTPacket_sends header [(topiclen, 2); (bytes_of (topic pack), len1); (buf, 2); (payload pack, paylen)]
  else
    let* (topiclen, _) := writeInt (malloc junk 2) 0 (to_int len1) in
    MQTTPacket_sends header [(topiclen, 2); (bytes_of (topic pack), len1); (payload pack, paylen)].

(** *** CONNECT, SUBSCRIBE and UNSUBSCRIBE *)

Record willMessages := {
  will_topic : string;
  will_payload : list Z;
  will_payloadlen : Z;
  will_retained : Z;
  will_qos : Z
}.

(** What [MQTTPacket_send_connect] reads of [Clients]. *)
Record connect_params := {
  clientID : string;
  cleansession : Z;
  keepAliveInterval : Z;
  will : option willMessages;
  username : option string;
  password : option (list Z);
  passwordlen : Z
}.

Definition flag (b : bool) : Z := if b then 1 else 0.

Definition connect_flags (c : connect_params) : Z :=
  2 * (cleansession c mod 2) +
  match will c with
  | Some w => 4 + 8 * (will_qos w mod 4) + 32 * (will_retained w mod 2)
  | None => 0
  end +
  128 * flag (bool_decide (is_Some (username c))) + 64 * flag (bool_decide (is_Some (password c))).

Definition connect_len (c : connect_params) (MQTTVersion : Z) : Z :=
  (if MQTTVersion =? 3 then 12 else 10) + strlen (clientID c) + 2 +
  match will c with Some w => strlen (will_topic w) + 2 + will_payloadlen w + 2 | None => 0 end +
  match username c with Some u => strlen u + 2 | None => 0 end +
  match password c with Some _ => passwordlen c + 2 | None => 0 end.

(** [None] is the exit for a version that is neither 3 nor 4. *)
Definition MQTTPacket_send_connect (client : connect_params) (MQTTVersion : Z) : comp (option (list (list Z))) :=
  let len := to_int (connect_len client MQTTVersion) in
  let buf := malloc junk len in
  if negb ((MQTTVersion =? 3) || (MQTTVersion =? 4)) then Ret None
  else
    let* (buf, ptr) :=
      (if MQTTVersion =? 3 then
         let* (buf, ptr) := writeUTF buf 0 "MQIsdp" in writeChar buf ptr 3
       else
         let* (buf, ptr) := writeUTF buf 0 "MQTT" in writeChar buf ptr 4) in
    let* (buf, ptr) := writeChar buf ptr (connect_flags client) in
    let* (buf, ptr) := writeInt buf ptr (keepAliveInterval client) in
    let* (buf, ptr) := writeUTF buf ptr (clientID client) in
    let* (buf, ptr) :=
      match will client with
      | Some w =>
          let* (buf, ptr) := writeUTF buf ptr (will_topic w) in
          writeData buf ptr (will_payload w) (will_payloadlen w)
      | None => Ret (buf, ptr)
      end in
    let* (buf, ptr) :=
      match username client with Some u => writeUTF buf ptr u | None => Ret (buf, ptr) end in
    let* (buf, ptr) :=
      match password client with
      | Some p => writeData buf ptr p (passwordlen client)
      | None => Ret (buf, ptr)
      end in
    let* bufs := MQTTPacket_send (header_bits CONNECT 0 0 0) (Some buf) len in
    Ret (Some bufs).

(** The loop over the topics; [qoss] runs along, and reading past its end
    follows a null element. *)
Fixpoint subscribe_loop (buf : list Z) (ptr : Z) (topics : list string) (qoss : list Z) : comp (list Z * Z) :=
  match topics with
  | [] => Ret (buf, ptr)
  | t :: topics =>
      let* (buf, ptr) := writeUTF buf ptr t in
      match qoss with
      | [] => Err NullDeref
      | q :: qoss =>
          let* (buf, ptr) := writeChar buf ptr q in
          subscribe_loop buf ptr topics qoss
      end
  end.

Definition topics_len (topics : list string) : Z := foldr (fun t n => strlen t + n) 0 topics.

Definition MQTTPacket_send_subscribe (topics : list string) (qoss : list Z) (msgid dup : Z) : comp (list (list Z)) :=
  let datalen := to_int (2 + Z.of_nat (length topics) * 3 + topics_len topics) in
  let* (data, ptr) := writeInt (malloc junk datalen) 0 msgid in
  let* (data, _) := subscribe_loop data ptr topics qoss in
  MQTTPacket_send (header_bits SUBSCRIBE dup 1 0) (Some data) datalen.

Fixpoint unsubscribe_loop (buf : list Z) (ptr : Z) (topics : list string) : comp (list Z * Z) :=
  match topics with
  | [] => Ret (buf, ptr)
  | t :: topics =>
      let* (buf, ptr) := writeUTF buf ptr t in
      unsubscribe_loop buf ptr topics
  end.

Definition MQTTPacket_send_unsubscribe (topics : list string) (msgid dup : Z) : comp (list (list Z)) :=
  let datalen := to_int (2 + Z.of_nat (length topics) * 2 + topics_len topics) in
  let* (data, ptr) := writeInt (malloc junk datalen) 0 msgid in
  let* (data, _) := unsubscribe_loop data ptr topics in
  MQTTPacket_send (header_bits UNSUBSCRIBE dup 1 0) (Some data) datalen.
End packets.

(** ** Reading packets *)

Definition MQTTPacket_publish (aHeader : Z) (data : list Z) (datalen : Z) : comp (option Publish) :=
  let* (r, len) := readUTFlen data 0 datalen 0 in
  match r with
  | (None, _) => Ret None
  | (Some t, curdata) =>
      let* (id, curdata) := (if 0 <? hdr_qos aHeader then readInt data curdata else Ret (0, curdata)) in
      Ret (Some {| pub_header := aHeader; topic := t; topiclen := len; msgId := id;
                   payload := drop (Z.to_nat curdata) data; payloadlen := to_int (datalen - curdata) |})
  end.

(** The loop over the granted QoS values; every round reads one byte. *)
Fixpoint suback_loop (fuel : nat) (data : list Z) (cur datalen : Z) (qoss : list Z) : comp (list Z) :=
  match fuel with
  | O => Err OutOfFuel
  | S fuel =>
      if cur <? datalen then
        let* (c, cur) := readChar data cur in
        suback_loop fuel data cur datalen (qoss ++ [c])
      else Ret qoss
  end.

Inductive packet :=
  | HeaderOnly (header : Z)
  | Connack (header flags rc : Z)
  | Published (p : Publish)
  | Ack (header msgid : Z)
  | Suback (header msgid : Z) (qoss : list Z).

Definition MQTTPacket_header_only (aHeader : Z) (data : list Z) (datalen : Z) : comp (option packet) :=
  Ret (Some (HeaderOnly aHeader)).

Definition MQTTPacket_connack (aHeader : Z) (data : list Z) (datalen : Z) : comp (option packet) :=
  let* (flags, cur) := readChar data 0 in
  let* (rc, _) := readChar data cur in
  Ret (Some (Connack aHeader flags rc)).

Definition MQTTPacket_ack (aHeader : Z) (data : list Z) (datalen : Z) : comp (option packet) :=
  let* (id, _) := readInt data 0 in Ret (Some (Ack aHeader id)).

Definition MQTTPacket_suback (aHeader : Z) (data : list Z) (datalen : Z) : comp (option packet) :=
  let* (id, cur) := readInt data 0 in
  let* qoss := suback_loop (S (Z.to_nat datalen)) data cur datalen [] in
  Ret (Some (Suback aHeader id qoss)).

Definition publish_packet (aHeader : Z) (data : list Z) (datalen : Z) : comp (option packet) :=
  let* p := MQTTPacket_publish aHeader data datalen in
  Ret (match p with Some p => Some (Published p) | None => None end).

(** The table of functions that build packets, by packet type. *)
Definition new_packets (ptype : Z) : option (Z -> list Z -> Z -> comp (option packet)) :=
  if ptype =? CONNACK then Some MQTTPacket_connack
  else if ptype =? PUBLISH then Some publish_packet
  else if (ptype =? PUBACK) || (ptype =? PUBREC) || (ptype =? PUBREL) || (ptype =? PUBCOMP) || (ptype =? UNSUBACK)
       then Some MQTTPacket_ack
  else if ptype =? SUBACK then Some MQTTPacket_suback
  else if (ptype =? PINGREQ) || (ptype =? PINGRESP) || (ptype =? DISCONNECT) then Some MQTTPacket_header_only
  else None.

(** ** The header byte *)

Lemma header_bits_fields type dup qos retain :
  let b := header_bits type dup qos retain in
  is_byte b /\ hdr_type b = type mod 16 /\ hdr_dup b = dup mod 2 /\ hdr_qos b = qos mod 4 /\ hdr_retain b = retain mod 2.
Proof.
  unfold header_bits, hdr_type, hdr_dup, hdr_qos, hdr_retain, is_byte. cbn zeta.
  pose proof (Z.mod_pos_bound retain 2). pose proof (Z.mod_pos_bound dup 2).
  pose proof (Z.mod_pos_bound qos 4). pose proof (Z.mod_pos_bound type 16).
  set (r := retain mod 2) in *. set (d := dup mod 2) in *. set (q := qos mod 4) in *. set (t := type mod 16) in *.
  clearbody r d q t. split_and!; Z.div_mod_to_equations; lia.
Qed.

Lemma to_byte_id z : is_byte z -> to_byte z = z.
Proof. unfold is_byte, to_byte. intros ?. by rewrite Z.mod_small. Qed.

Lemma to_byte_range z : is_byte (to_byte z).
Proof. apply Z.mod_pos_bound. lia. Qed.

(** ** The remaining length *)

(** Base 128, least digit first, the top bit set on all digits but the last. *)
Fixpoint length_digits_n (k : nat) (n : Z) : list Z :=
  match k with
  | O => []
  | S k => if n <? 128 then [n] else (128 + n mod 128) :: length_digits_n k (n / 128)
  end.
Definition length_digits (n : Z) : list Z := length_digits_n 10 n.

Lemma length_digits_n_length k n :
  0 <= n < 128 ^ Z.of_nat k -> (k <> 0)%nat -> (1 <= length (length_digits_n k n) <= k)%nat.
Proof.
  revert n. induction k as [|k IH]; intros n Hn Hk; [done|]. cbn [length_digits_n].
  destruct (Z.ltb_spec n 128); [cbn; lia|]. cbn [length].
  destruct k as [|k]; [lia|]. destruct (IH (n / 128)); [|lia..].
  rewrite Nat2Z.inj_succ, Z.pow_succ_r in Hn by lia. split; [apply Z.div_pos; lia|]. apply Z.div_lt_upper_bound; lia.
Qed.

(** More fuel than digits changes nothing. *)
Lemma length_digits_n_more k k' n :
  0 <= n < 128 ^ Z.of_nat k -> (k <= k')%nat -> (k <> 0)%nat -> length_digits_n k' n = length_digits_n k n.
Proof.
  revert k' n. induction k as [|k IH]; intros k' n Hn Hk Hk0; [done|]. destruct k' as [|k']; [lia|].
  cbn [length_digits_n]. destruct (Z.ltb_spec n 128); [done|]. f_equal.
  rewrite Nat2Z.inj_succ, Z.pow_succ_r in Hn by lia.
  destruct k as [|k]; [lia|]. apply IH; [|lia..]. split; [apply Z.div_pos; lia|]. apply Z.div_lt_upper_bound; lia.
Qed.

Lemma length_digits_length k n :
  0 <= n < 128 ^ Z.of_nat k -> (0 < k <= 10)%nat -> (1 <= length (length_digits n) <= k)%nat.
Proof.
  intros Hn Hk. unfold length_digits. rewrite (length_digits_n_more k) by (done || lia).
  apply length_digits_n_length; [done|lia].
Qed.

Lemma length_digits_byte k n : 0 <= n -> Forall is_byte (length_digits_n k n).
Proof.
  revert n. induction k as [|k IH]; intros n Hn; cbn [length_digits_n]; [constructor|].
  unfold is_byte. destruct (Z.ltb_spec n 128); constructor; [lia|constructor|pose proof (Z.mod_pos_bound n 128); lia|].
  apply IH. apply Z.div_pos; lia.
Qed.

Lemma lor_128 d : 0 <= d < 128 -> Z.lor d 128 = 128 + d.
Proof.
  intros Hd. assert (Forall (fun d => Z.lor d 128 = 128 + d) (seqZ 0 128)) as H by (by repeat constructor).
  rewrite Forall_forall in H. apply H, elem_of_seqZ. lia.
Qed.

Lemma encode_loop_ok fuel w h off rc n :
  0 <= n -> off + rc = Z.of_nat (length w) -> (length (length_digits_n fuel n) <= length h)%nat ->
  0 <= n < 128 ^ Z.of_nat fuel -> (fuel <> 0)%nat ->
  let l := length_digits_n fuel n in
  encode_loop fuel (w ++ h) off rc n = Ret ((w ++ l) ++ drop (length l) h, rc + Z.of_nat (length l)).
Proof.
  cbn zeta. revert w h rc n. induction fuel as [|fuel IH]; intros w h rc n Hn Hw Hh Hf Hf0; [done|].
  cbn [encode_loop]. cbn [length_digits_n] in Hh |- *.
  assert ((0 <? n / 128) = negb (n <? 128)) as Eq.
  { destruct (Z.ltb_spec n 128); [rewrite Z.div_small by lia; done|]. cbn. apply Z.ltb_lt, Z.div_str_pos. lia. }
  rewrite Eq. destruct (Z.ltb_spec n 128); cbn [negb length] in *.
  - destruct h as [|x h]; [cbn in Hh; lia|]. rewrite arr_set_app by lia. cbn [mbind comp_bind drop].
    rewrite Z.mod_small by lia. by rewrite <- app_assoc.
  - destruct h as [|x h]; [cbn in Hh; lia|]. rewrite arr_set_app by lia. cbn [mbind comp_bind drop length] in *.
    rewrite lor_128 by (apply Z.mod_pos_bound; lia). rewrite Nat2Z.inj_succ, Z.pow_succ_r in Hf by lia.
    replace (w ++ 128 + n mod 128 :: h) with ((w ++ [128 + n mod 128]) ++ h) by (by rewrite <- app_assoc).
    destruct fuel as [|fuel]; [lia|]. rewrite IH; [| |rewrite length_app; cbn; lia|lia| |lia].
    + rewrite <- !app_assoc. cbn [app]. do 2 f_equal. lia.
    + apply Z.div_pos; lia.
    + split; [apply Z.div_pos; lia|]. apply Z.div_lt_upper_bound; lia.
Qed.

(** The ten bytes allocated for header and length are enough below 2^63. *)
Lemma fixed_header_ok junk header total :
  0 <= total < 9223372036854775808 -> fixed_header junk header total = Ret (to_byte header :: length_digits total).
Proof.
  intros Ht. unfold fixed_header, MQTTPacket_encode. change (malloc junk 10) with ([] ++ junk :: replicate 9 junk).
  rewrite arr_set_app by done. cbn [mbind comp_bind app].
  pose proof (length_digits_length 9 total ltac:(cbn; lia) ltac:(lia)) as Hl.
  pose proof (encode_loop_ok 10 [to_byte header] (replicate 9 junk) 1 0 total) as E. fold (length_digits total) in E.
  cbn zeta in E. cbn [app] in E. rewrite E; [|lia|done|rewrite length_replicate; lia|cbn; lia|done].
  cbn [mbind comp_bind]. rewrite Z.add_0_l.
  pose proof (arr_slice_app [] (to_byte header :: length_digits total) (drop (length (length_digits total)) (replicate 9 junk))) as S.
  cbn [app] in S. apply S; [done|]. cbn [length]. lia.
Qed.

Lemma fixed_header_overflow junk header :
  fixed_header junk header 9223372036854775808 = Err OutOfBounds.
Proof. reflexivity. Qed.

(** ** Writing into a buffer *)

Definition int_bytes (n : Z) : list Z := [to_byte (Z.quot n 256); to_byte (Z.rem n 256)].
Definition utf_bytes (s : string) : list Z := int_bytes (to_int (strlen s)) ++ bytes_of s.
Definition data_bytes (d : list Z) (len : Z) : list Z := int_bytes len ++ take (Z.to_nat len) d.

(** [w] has been written, and there is room for [n] bytes more. *)
Definition filled (buf : list Z) (ptr : Z) (w : list Z) (n : Z) : Prop :=
  ptr = Z.of_nat (length w) /\ exists h, buf = w ++ h /\ n = Z.of_nat (length h).

Lemma filled_malloc junk n : 0 <= n -> filled (malloc junk n) 0 [] n.
Proof.
  intros Hn. split; [done|]. exists (malloc junk n). split; [done|]. unfold malloc. rewrite length_replicate. lia.
Qed.

Lemma filled_done buf ptr w : filled buf ptr w 0 -> buf = w.
Proof. intros (_ & [|x h] & -> & H); [by rewrite app_nil_r|cbn in H; lia]. Qed.

Lemma filled_eq buf ptr w n n' : filled buf ptr w n -> n = n' -> filled buf ptr w n'.
Proof. by intros ? <-. Qed.

Lemma filled_write buf ptr w n src :
  filled buf ptr w n -> Z.of_nat (length src) <= n ->
  exists buf', arr_write buf ptr src = Ret buf' /\
    filled buf' (ptr + Z.of_nat (length src)) (w ++ src) (n - Z.of_nat (length src)).
Proof.
  intros (-> & h & -> & ->) Hn. rewrite arr_write_hole by lia. eexists. split; [done|].
  split; [rewrite length_app; lia|]. exists (drop (length src) h). split; [by rewrite <- app_assoc|].
  rewrite length_drop. lia.
Qed.

Lemma filled_char buf ptr w n c :
  filled buf ptr w n -> 1 <= n ->
  exists buf', writeChar buf ptr c = Ret (buf', ptr + 1) /\ filled buf' (ptr + 1) (w ++ [to_byte c]) (n - 1).
Proof.
  intros (-> & [|x h] & -> & ->) Hn; [cbn in Hn; lia|]. unfold writeChar. rewrite arr_set_app by done.
  eexists. split; [done|]. split; [rewrite length_app; cbn; lia|]. exists h. split; [by rewrite <- app_assoc|].
  cbn [length]. lia.
Qed.

Lemma filled_int buf ptr w n v :
  filled buf ptr w n -> 2 <= n ->
  exists buf', writeInt buf ptr v = Ret (buf', ptr + 2) /\ filled buf' (ptr + 2) (w ++ int_bytes v) (n - 2).
Proof.
  intros (-> & [|x [|y h]] & -> & ->) Hn; [cbn in Hn; lia..|]. unfold writeInt. rewrite arr_set_app by done.
  cbn [mbind comp_bind]. rewrite (cons_middle (to_byte (Z.quot v 256)) w), app_assoc, arr_set_app by (rewrite length_app; cbn; lia).
  eexists. split; [done|]. split; [rewrite length_app; cbn; lia|]. exists h. split; [by rewrite <- !app_assoc|].
  cbn [length]. lia.
Qed.

Lemma filled_utf buf ptr w n s :
  filled buf ptr w n -> 2 + strlen s <= n ->
  exists buf', writeUTF buf ptr s = Ret (buf', ptr + 2 + strlen s) /\
    filled buf' (ptr + 2 + strlen s) (w ++ utf_bytes s) (n - 2 - strlen s).
Proof.
  intros H Hn. unfold writeUTF. pose proof (strlen_nonneg s) as Hs.
  destruct (filled_int buf ptr w n (to_int (strlen s)) H) as (b1 & -> & F1); [lia|]. cbn [mbind comp_bind].
  destruct (filled_write b1 _ _ _ (bytes_of s) F1) as (b2 & -> & F2); rewrite length_bytes_of in *; [lia|].
  cbn [mbind comp_bind]. exists b2. split; [done|]. unfold utf_bytes. by rewrite app_assoc.
Qed.

Lemma filled_data buf ptr w n d len :
  filled buf ptr w n -> 0 <= len <= Z.of_nat (length d) -> 2 + len <= n ->
  exists buf', writeData buf ptr d len = Ret (buf', ptr + 2 + len) /\
    filled buf' (ptr + 2 + len) (w ++ data_bytes d len) (n - 2 - len).
Proof.
  intros H Hl Hn. unfold writeData.
  destruct (filled_int buf ptr w n len H) as (b1 & -> & F1); [lia|]. cbn [mbind comp_bind].
  assert (arr_slice d 0 len = Ret (take (Z.to_nat len) d)) as ->.
  { unfold arr_slice. by rewrite !(proj2 (Z.leb_le _ _)) by lia. }
  cbn [mbind comp_bind].
  assert (Z.of_nat (length (take (Z.to_nat len) d)) = len) as E by (rewrite length_take; lia).
  destruct (filled_write b1 _ _ _ (take (Z.to_nat len) d) F1) as (b2 & -> & F2); rewrite E in *; [lia|].
  cbn [mbind comp_bind]. exists b2. split; [done|]. unfold data_bytes. by rewrite app_assoc.
Qed.

Lemma length_utf_bytes s : Z.of_nat (length (utf_bytes s)) = 2 + strlen s.
Proof. unfold utf_bytes. rewrite length_app, Nat2Z.inj_add, length_bytes_of. done. Qed.

Lemma send_buffer junk header w :
  Z.of_nat (length w) <= INT_MAX ->
  MQTTPacket_send junk header (Some w) (Z.of_nat (length w)) = Ret [to_byte header :: length_digits (Z.of_nat (length w)); w].
Proof.
  intros Hw. unfold MQTTPacket_send. rewrite fixed_header_ok by (unfold INT_MAX in Hw; lia). cbn [mbind comp_bind].
  by rewrite arr_slice_all.
Qed.

(** ** CONNECT, SUBSCRIBE, UNSUBSCRIBE

    The bytes that the packets have, against which the code is measured. *)

Definition opt_bytes {A} (g : A -> list Z) (o : option A) : list Z :=
  match o with Some a => g a | None => [] end.

Definition will_bytes (c : connect_params) : list Z :=
  opt_bytes (fun w => utf_bytes (will_topic w) ++ data_bytes (will_payload w) (will_payloadlen w)) (will c).
Definition password_bytes (c : connect_params) : list Z :=
  opt_bytes (fun p => data_bytes p (passwordlen c)) (password c).

Definition connect_body (c : connect_params) (ver : Z) : list Z :=
  utf_bytes (if ver =? 3 then "MQIsdp"%string else "MQTT"%string) ++ [ver; connect_flags c] ++
  int_bytes (keepAliveInterval c) ++ utf_bytes (clientID c) ++
  will_bytes c ++ opt_bytes utf_bytes (username c) ++ password_bytes c.

(** The lengths stored beside the data are within it. *)
Definition connect_ok (c : connect_params) : Prop :=
  (forall w, will c = Some w -> 0 <= will_payloadlen w <= Z.of_nat (length (will_payload w))) /\
  (forall p, password c = Some p -> 0 <= passwordlen c <= Z.of_nat (length p)).

Lemma connect_flags_byte c : is_byte (connect_flags c).
Proof.
  unfold connect_flags, is_byte, flag. pose proof (Z.mod_pos_bound (cleansession c) 2).
  repeat case_bool_decide; destruct (will c) as [w|];
    try pose proof (Z.mod_pos_bound (will_qos w) 4); try pose proof (Z.mod_pos_bound (will_retained w) 2); lia.
Qed.

(** What an optional field adds. *)
Lemma filled_opt {A} (o : option A) (g : A -> list Z -> Z -> comp (list Z * Z)) (bs : A -> list Z) buf ptr w n :
  filled buf ptr w n -> Z.of_nat (length (opt_bytes bs o)) <= n ->
  (forall a, o = Some a -> exists buf' ptr', g a buf ptr = Ret (buf', ptr') /\
     filled buf' ptr' (w ++ bs a) (n - Z.of_nat (length (bs a)))) ->
  exists buf' ptr', match o with Some a => g a buf ptr | None => Ret (buf, ptr) end = Ret (buf', ptr') /\
    filled buf' ptr' (w ++ opt_bytes bs o) (n - Z.of_nat (length (opt_bytes bs o))).
Proof.
  intros H Hn Hg. destruct o as [a|]; cbn [opt_bytes] in *; [by apply Hg|].
  exists buf, ptr. split; [done|]. by rewrite app_nil_r, Z.sub_0_r.
Qed.

Lemma length_data_bytes d len :
  0 <= len <= Z.of_nat (length d) -> Z.of_nat (length (data_bytes d len)) = 2 + len.
Proof. intros H. unfold data_bytes. rewrite length_app, length_take. cbn [length int_bytes]. lia. Qed.

Lemma strlen_MQIsdp : strlen "MQIsdp" = 6. Proof. done. Qed.
Lemma strlen_MQTT : strlen "MQTT" = 4. Proof. done. Qed.

Lemma connect_len_body c ver :
  connect_ok c -> ver = 3 \/ ver = 4 -> Z.of_nat (length (connect_body c ver)) = connect_len c ver.
Proof.
  intros [Hw Hp] Hv. unfold connect_body, will_bytes, password_bytes, connect_len. rewrite !length_app, !Nat2Z.inj_add, !length_utf_bytes.
  destruct (will c) as [w|], (username c) as [u|], (password c) as [p|]; cbn [opt_bytes length int_bytes];
    rewrite ?length_app, ?Nat2Z.inj_add, ?length_utf_bytes, ?length_data_bytes by auto;
    destruct Hv as [-> | ->]; cbn [Z.eqb Pos.eqb]; rewrite ?strlen_MQIsdp, ?strlen_MQTT; lia.
Qed.

(** The protocol name and version. *)
Lemma filled_protocol buf n ver :
  filled buf 0 [] n -> ver = 3 \/ ver = 4 -> 9 <= n ->
  let w := utf_bytes (if ver =? 3 then "MQIsdp"%string else "MQTT"%string) ++ [ver] in
  exists buf', (if ver =? 3 then let* (buf, ptr) := writeUTF buf 0 "MQIsdp" in writeChar buf ptr 3
                else let* (buf, ptr) := writeUTF buf 0 "MQTT" in writeChar buf ptr 4)
               = Ret (buf', Z.of_nat (length w)) /\
    filled buf' (Z.of_nat (length w)) w (n - Z.of_nat (length w)).
Proof.
  intros H Hv Hn.
  destruct Hv as [-> | ->]; cbn [Z.eqb Pos.eqb].
  all: edestruct filled_utf as (b & -> & F); [exact H|rewrite ?strlen_MQIsdp, ?strlen_MQTT; lia|].
  all: cbn [mbind comp_bind].
  all: edestruct filled_char as (b' & E & F'); [exact F|rewrite ?strlen_MQIsdp, ?strlen_MQTT; lia|]; rewrite E.
  all: exists b'; split; [done|eapply filled_eq; [exact F'|]]; rewrite ?strlen_MQIsdp, ?strlen_MQTT; cbn; lia.
Qed.

Lemma filled_will c buf ptr w n :
  filled buf ptr w n -> connect_ok c -> Z.of_nat (length (will_bytes c)) <= n ->
  exists buf' ptr', match will c with
    | Some w => let* (buf, ptr) := writeUTF buf ptr (will_topic w) in
                writeData buf ptr (will_payload w) (will_payloadlen w)
    | None => Ret (buf, ptr)
    end = Ret (buf', ptr') /\ filled buf' ptr' (w ++ will_bytes c) (n - Z.of_nat (length (will_bytes c))).
Proof.
  intros H [Hw _] Hn. unfold will_bytes in *.
  apply (filled_opt (will c) (fun w buf ptr => let* (buf, ptr) := writeUTF buf ptr (will_topic w) in
           writeData buf ptr (will_payload w) (will_payloadlen w))); [done..|].
  intros m Em. specialize (Hw m Em). rewrite Em in Hn. cbn [opt_bytes] in Hn.
  rewrite length_app, Nat2Z.inj_add, length_utf_bytes, length_data_bytes in Hn |- * by done.
  destruct (filled_utf _ _ _ _ (will_topic m) H) as (d1 & -> & G1); [lia|]. cbn [mbind comp_bind].
  destruct (filled_data _ _ _ _ (will_payload m) _ G1 Hw) as (d2 & -> & G2); [lia|]. do 2 eexists. split; [done|].
  rewrite <- app_assoc in G2. eapply filled_eq; [exact G2|lia].
Qed.

Lemma filled_opt_utf (o : option string) buf ptr w n :
  filled buf ptr w n -> Z.of_nat (length (opt_bytes utf_bytes o)) <= n ->
  exists buf' ptr', match o with Some u => writeUTF buf ptr u | None => Ret (buf, ptr) end = Ret (buf', ptr') /\
    filled buf' ptr' (w ++ opt_bytes utf_bytes o) (n - Z.of_nat (length (opt_bytes utf_bytes o))).
Proof.
  intros H Hn. apply (filled_opt o (fun u buf ptr => writeUTF buf ptr u)); [done..|].
  intros u ->. cbn [opt_bytes] in Hn. rewrite length_utf_bytes in Hn |- *.
  destruct (filled_utf _ _ _ _ u H) as (d1 & E1 & G1); [lia|]. do 2 eexists. split; [exact E1|].
  eapply filled_eq; [exact G1|lia].
Qed.

Lemma filled_password c buf ptr w n :
  filled buf ptr w n -> connect_ok c -> Z.of_nat (length (password_bytes c)) <= n ->
  exists buf' ptr', match password c with
    | Some p => writeData buf ptr p (passwordlen c)
    | None => Ret (buf, ptr)
    end = Ret (buf', ptr') /\ filled buf' ptr' (w ++ password_bytes c) (n - Z.of_nat (length (password_bytes c))).
Proof.
  intros H [_ Hp] Hn. unfold password_bytes in *.
  apply (filled_opt (password c) (fun p buf ptr => writeData buf ptr p (passwordlen c))); [done..|].
  intros p Ep. specialize (Hp p Ep). rewrite Ep in Hn. cbn [opt_bytes] in Hn. rewrite length_data_bytes in Hn |- * by done.
  destruct (filled_data _ _ _ _ p _ H Hp) as (d1 & E1 & G1); [lia|]. do 2 eexists. split; [exact E1|].
  eapply filled_eq; [exact G1|lia].
Qed.

(** MQTTPacket_send_connect fills the buffer it allocates exactly, whatever
    fields the connection has: no byte is written behind it and none is left
    uninitialised.  The fields come in the order of the MQTT specification. *)
Theorem send_connect_exact junk c ver :
  connect_ok c -> ver = 3 \/ ver = 4 -> connect_len c ver <= INT_MAX ->
  MQTTPacket_send_connect junk c ver =
    Ret (Some [16 :: length_digits (connect_len c ver); connect_body c ver]).
Proof.
  intros Hc Hv Hl. pose proof (connect_len_body c ver Hc Hv) as Hlen. pose proof Hc as [Hw Hp].
  unfold MQTTPacket_send_connect. rewrite to_int_id by (unfold is_int, INT_MIN; lia).
  assert (negb ((ver =? 3) || (ver =? 4)) = false) as -> by (by destruct Hv as [-> | ->]).
  assert (filled (malloc junk (connect_len c ver)) 0 [] (connect_len c ver)) as H by (apply filled_malloc; lia).
  revert H. generalize (malloc junk (connect_len c ver)). intros buf H. rewrite <- Hlen in H, Hl |- *.
  remember (Z.of_nat (length (connect_body c ver))) as n eqn:Hn. unfold connect_body in Hn.
  rewrite !length_app, !Nat2Z.inj_add, !length_utf_bytes in Hn.
  pose proof (strlen_nonneg (clientID c)).
  assert (4 <= strlen (if ver =? 3 then "MQIsdp"%string else "MQTT"%string)) by (by destruct Hv as [-> | ->]).
  cbn [length int_bytes] in Hn.
  edestruct filled_protocol as (b1 & -> & F1); [exact H|done|lia|]. cbn [mbind comp_bind]. cbn zeta in F1.
  rewrite length_app, Nat2Z.inj_add, length_utf_bytes in F1. cbn [length] in F1.
  rewrite length_app, Nat2Z.inj_add, length_utf_bytes. cbn [length].
  edestruct filled_char as (b2 & -> & F2); [exact F1|lia|]. cbn [mbind comp_bind].
  edestruct filled_int as (b3 & -> & F3); [exact F2|lia|]. cbn [mbind comp_bind].
  edestruct filled_utf as (b4 & -> & F4); [exact F3|lia|]. cbn [mbind comp_bind].
  edestruct (filled_will c) as (b5 & p5 & -> & F5); [exact F4|done|lia|]. cbn [mbind comp_bind].
  edestruct (filled_opt_utf (username c)) as (b6 & p6 & -> & F6); [exact F5|lia|]. cbn [mbind comp_bind].
  edestruct (filled_password c) as (b7 & p7 & -> & F7); [exact F6|done|lia|].
  cbn [mbind comp_bind]. eapply filled_eq in F7 as ->%filled_done; [|lia].
  rewrite <- !app_assoc, to_byte_id by apply connect_flags_byte.
  assert (n = Z.of_nat (length (connect_body c ver))) as -> by (by rewrite connect_len_body).
  rewrite send_buffer by done. done.
Qed.

Lemma topics_len_cons t topics : topics_len (t :: topics) = strlen t + topics_len topics.
Proof. done. Qed.

Lemma topics_len_nonneg topics : 0 <= topics_len topics.
Proof. induction topics as [|t topics IH]; [done|]. rewrite topics_len_cons. pose proof (strlen_nonneg t). lia. Qed.

Lemma send_filled junk header buf ptr w m n :
  filled buf ptr w m -> is_byte header -> m = 0 -> n = Z.of_nat (length w) -> n <= INT_MAX ->
  MQTTPacket_send junk header (Some buf) n = Ret [header :: length_digits (Z.of_nat (length w)); w].
Proof.
  intros F Hh -> -> Hn. apply filled_done in F as ->. rewrite send_buffer by done. by rewrite to_byte_id.
Qed.

Definition topic_bytes (topics : list string) (qoss : list Z) : list Z :=
  mjoin (zip_with (fun t q => utf_bytes t ++ [to_byte q]) topics qoss).

Lemma subscribe_loop_ok buf ptr w n topics qoss :
  filled buf ptr w n -> (length topics <= length qoss)%nat ->
  Z.of_nat (length topics) * 3 + topics_len topics <= n ->
  exists buf' ptr', subscribe_loop buf ptr topics qoss = Ret (buf', ptr') /\
    filled buf' ptr' (w ++ topic_bytes topics qoss) (n - (Z.of_nat (length topics) * 3 + topics_len topics)).
Proof.
  revert buf ptr w n qoss. induction topics as [|t topics IH]; intros buf ptr w n qoss H Hq Hn.
  - exists buf, ptr. split; [done|]. cbn. by rewrite app_nil_r, Z.sub_0_r.
  - destruct qoss as [|q qoss]; [cbn in Hq; lia|]. cbn [length] in Hn, Hq. rewrite topics_len_cons in *. cbn [subscribe_loop].
    pose proof (topics_len_nonneg topics).
    destruct (filled_utf _ _ _ _ t H) as (b1 & -> & F1); [lia|]. cbn [mbind comp_bind].
    destruct (filled_char _ _ _ _ q F1) as (b2 & -> & F2); [lia|]. cbn [mbind comp_bind].
    destruct (IH _ _ _ _ qoss F2) as (b3 & p3 & -> & F3); [lia..|]. do 2 eexists. split; [done|].
    rewrite <- !app_assoc in F3. unfold topic_bytes. cbn [zip_with mjoin list_join]. rewrite <- app_assoc.
    eapply filled_eq; [exact F3|]. cbn [length]. lia.
Qed.

Lemma unsubscribe_loop_ok buf ptr w n topics :
  filled buf ptr w n -> Z.of_nat (length topics) * 2 + topics_len topics <= n ->
  exists buf' ptr', unsubscribe_loop buf ptr topics = Ret (buf', ptr') /\
    filled buf' ptr' (w ++ mjoin (utf_bytes <$> topics)) (n - (Z.of_nat (length topics) * 2 + topics_len topics)).
Proof.
  revert buf ptr w n. induction topics as [|t topics IH]; intros buf ptr w n H Hn.
  - exists buf, ptr. split; [done|]. cbn. by rewrite app_nil_r, Z.sub_0_r.
  - cbn [length] in Hn. rewrite topics_len_cons in *. cbn [unsubscribe_loop].
    pose proof (topics_len_nonneg topics).
    destruct (filled_utf _ _ _ _ t H) as (b1 & -> & F1); [lia|]. cbn [mbind comp_bind].
    destruct (IH _ _ _ _ F1) as (b3 & p3 & -> & F3); [lia..|]. do 2 eexists. split; [done|].
    cbn [fmap list_fmap mjoin list_join]. rewrite <- app_assoc in F3.
    eapply filled_eq; [exact F3|]. cbn [length]. lia.
Qed.

Lemma length_topic_bytes topics qoss :
  (length topics <= length qoss)%nat ->
  Z.of_nat (length (topic_bytes topics qoss)) = Z.of_nat (length topics) * 3 + topics_len topics.
Proof.
  revert qoss. induction topics as [|t topics IH]; intros qoss Hq; [done|].
  destruct qoss as [|q qoss]; [cbn in Hq; lia|]. cbn [length] in *.
  change (topic_bytes (t :: topics) (q :: qoss)) with ((utf_bytes t ++ [to_byte q]) ++ topic_bytes topics qoss).
  rewrite !length_app, !Nat2Z.inj_add, length_utf_bytes, topics_len_cons, IH by lia. cbn [length]. lia.
Qed.

Lemma length_unsubscribe_bytes topics :
  Z.of_nat (length (mjoin (utf_bytes <$> topics))) = Z.of_nat (length topics) * 2 + topics_len topics.
Proof.
  induction topics as [|t topics IH]; [done|].
  change (mjoin (utf_bytes <$> t :: topics)) with (utf_bytes t ++ mjoin (utf_bytes <$> topics)).
  rewrite length_app, Nat2Z.inj_add, length_utf_bytes, topics_len_cons, IH. cbn [length]. lia.
Qed.

(** SUBSCRIBE and UNSUBSCRIBE fill their allocated buffers exactly with the
    message id and, topic by topic, the length-prefixed name (and its QoS). *)
Theorem send_subscribe_exact junk topics qoss msgid dup :
  (length topics <= length qoss)%nat -> 2 + Z.of_nat (length topics) * 3 + topics_len topics <= INT_MAX ->
  let sub := int_bytes msgid ++ topic_bytes topics qoss in
  let unsub := int_bytes msgid ++ mjoin (utf_bytes <$> topics) in
  MQTTPacket_send_subscribe junk topics qoss msgid dup =
    Ret [header_bits SUBSCRIBE dup 1 0 :: length_digits (Z.of_nat (length sub)); sub]
  /\ MQTTPacket_send_unsubscribe junk topics msgid dup =
    Ret [header_bits UNSUBSCRIBE dup 1 0 :: length_digits (Z.of_nat (length unsub)); unsub].
Proof.
  intros Hq Hl. cbn zeta. pose proof (topics_len_nonneg topics).
  unfold MQTTPacket_send_subscribe, MQTTPacket_send_unsubscribe.
  rewrite !to_int_id by (unfold is_int, INT_MIN; lia). split.
  - edestruct filled_int as (b1 & -> & F1); [apply filled_malloc| |]; [lia..|]. cbn [mbind comp_bind].
    edestruct subscribe_loop_ok as (b2 & p2 & -> & F2); [exact F1|done|lia|]. cbn [mbind comp_bind].
    apply (send_filled _ _ _ _ _ _ _ F2); [apply header_bits_fields|lia| |lia].
    rewrite length_app, Nat2Z.inj_add, length_topic_bytes by done. cbn [app length int_bytes]. lia.
  - edestruct filled_int as (b1 & -> & F1); [apply filled_malloc| |]; [lia..|]. cbn [mbind comp_bind].
    edestruct unsubscribe_loop_ok as (b2 & p2 & -> & F2); [exact F1|lia|]. cbn [mbind comp_bind].
    apply (send_filled _ _ _ _ _ _ _ F2); [apply header_bits_fields|lia| |lia].
    rewrite length_app, Nat2Z.inj_add, length_unsubscribe_bytes. cbn [app length int_bytes]. lia.
Qed.

(** ** Acknowledgements and publications *)

Lemma int_bytes_byte v : Forall is_byte (int_bytes v).
Proof. repeat constructor; apply to_byte_range. Qed.

Lemma int_bytes_small v : 0 <= v < 65536 -> int_bytes v = [v / 256; v mod 256].
Proof.
  intros Hv. unfold int_bytes. rewrite Z.quot_div_nonneg, Z.rem_mod_nonneg by lia.
  rewrite !to_byte_id; [done| |]; unfold is_byte; Z.div_mod_to_equations; lia.
Qed.

Lemma writeInt_fresh junk v : writeInt (malloc junk 2) 0 v = Ret (int_bytes v, 2).
Proof.
  destruct (filled_int _ 0 [] _ v (filled_malloc junk 2 ltac:(lia))) as (b & -> & F); [lia|].
  by rewrite (filled_done _ _ _ F).
Qed.

Lemma send_ack_ok junk type msgid dup :
  MQTTPacket_send_ack junk type msgid dup =
    Ret [[header_bits type dup (if type =? PUBREL then 1 else 0) 0; 2]; int_bytes msgid].
Proof.
  unfold MQTTPacket_send_ack. rewrite writeInt_fresh. cbn [mbind comp_bind].
  unfold MQTTPacket_send. rewrite fixed_header_ok by lia. cbn [mbind comp_bind].
  rewrite to_byte_id by apply header_bits_fields. done.
Qed.

(** The variable header and payload of a PUBLISH packet. *)
Definition publish_body (p : Publish) (qos : Z) : list Z :=
  utf_bytes (topic p) ++ (if 0 <? qos then int_bytes (msgId p) else []) ++ take (Z.to_nat (payloadlen p)) (payload p).

(** A publication that can be sent: its lengths are those of its data. *)
Definition publish_ok (p : Publish) : Prop :=
  strlen (topic p) < 65536 /\ 0 <= msgId p < 65536 /\
  0 <= payloadlen p <= Z.of_nat (length (payload p)) /\ payloadlen p + 65540 <= INT_MAX.

Lemma arr_slice_take {A} (l : list A) n :
  0 <= n <= Z.of_nat (length l) -> arr_slice l 0 n = Ret (take (Z.to_nat n) l).
Proof. intros H. unfold arr_slice. by rewrite !(proj2 (Z.leb_le _ _)) by lia. Qed.

Lemma length_publish_body p qos :
  publish_ok p -> Z.of_nat (length (publish_body p qos)) = 2 + strlen (topic p) + (if 0 <? qos then 2 else 0) + payloadlen p.
Proof.
  intros (_ & _ & Hl & _). unfold publish_body. rewrite !length_app, !Nat2Z.inj_add, length_utf_bytes, length_take.
  destruct (0 <? qos); cbn [length int_bytes]; lia.
Qed.

Lemma send_publish_ok junk p dup qos retained :
  publish_ok p ->
  exists bufs, MQTTPacket_send_publish junk p dup qos retained = Ret bufs /\ (length bufs <= 5)%nat /\
    mjoin bufs = header_bits PUBLISH dup qos retained :: length_digits (Z.of_nat (length (publish_body p qos)))
                 ++ publish_body p qos.
Proof.
  intros Hp. pose proof (length_publish_body p qos Hp) as Hlen. destruct Hp as (Ht & Hi & Hl & Hm).
  unfold INT_MAX in Hm. pose proof (strlen_nonneg (topic p)).
  unfold MQTTPacket_send_publish. rewrite !writeInt_fresh, (to_ulong_id (payloadlen p)) by lia.
  assert (forall v, arr_slice (int_bytes v) 0 2 = Ret (int_bytes v)) as Hint by (intros v; exact (arr_slice_all (int_bytes v))).
  assert (arr_slice (bytes_of (topic p)) 0 (strlen (topic p)) = Ret (bytes_of (topic p))) as Htop
    by (rewrite <- length_bytes_of; apply arr_slice_all).
  unfold publish_body in Hlen |- *. destruct (0 <? qos); cbn [mbind comp_bind]; unfold MQTTPacket_sends; cbn [foldr snd];
    rewrite to_ulong_id, fixed_header_ok by lia; cbn [mbind comp_bind gather];
    rewrite !Hint, Htop, arr_slice_take by done; cbn [mbind comp_bind]; eexists; (split; [reflexivity|]); (split; [cbn; lia|]);
    rewrite Hlen, to_byte_id by apply header_bits_fields; cbn [mjoin list_join app];
    rewrite app_nil_r; unfold utf_bytes; rewrite <- ?app_assoc; do 3 f_equal; lia.
Qed.

(** [x] at position [|pre|] of a buffer. *)
Lemma readInt_app pre v k :
  0 <= v < 65536 -> readInt (pre ++ int_bytes v ++ k) (Z.of_nat (length pre)) = Ret (v, Z.of_nat (length pre) + 2).
Proof.
  intros Hv. rewrite int_bytes_small by done. unfold readInt. cbn [app].
  rewrite (arr_get_app pre _ _ (Z.of_nat (length pre))) by done. cbn [mbind comp_bind].
  rewrite (cons_middle (v / 256) pre), app_assoc, arr_get_app by (rewrite length_app; cbn; lia). cbn [mbind comp_bind].
  do 2 f_equal. Z.div_mod_to_equations; lia.
Qed.

Lemma readUTFlen_utf s k enddata len :
  strlen s < 65536 -> 2 + strlen s <= enddata ->
  readUTFlen (utf_bytes s ++ k) 0 enddata len = Ret (Some s, 2 + strlen s, strlen s).
Proof.
  intros Hs He. pose proof (strlen_nonneg s). unfold readUTFlen. rewrite (proj2 (Z.ltb_lt _ _)) by lia.
  unfold utf_bytes. rewrite to_int_id by (unfold is_int, INT_MIN, INT_MAX; lia). rewrite <- app_assoc.
  assert (readInt (int_bytes (strlen s) ++ bytes_of s ++ k) 0 = Ret (strlen s, 2)) as ->
    by (apply (readInt_app []); lia).
  cbn [mbind comp_bind]. rewrite (proj2 (Z.leb_le _ _)) by lia.
  rewrite arr_slice_app by (done || by rewrite length_bytes_of). cbn [mbind comp_bind]. by rewrite bytes_bytes_of.
Qed.

Lemma publish_reads h p qos tail :
  publish_ok p -> hdr_qos h = qos ->
  let n := Z.of_nat (length (publish_body p qos)) in
  MQTTPacket_publish h (publish_body p qos ++ tail) n =
    Ret (Some {| pub_header := h; topic := topic p; topiclen := strlen (topic p);
                 msgId := if 0 <? qos then msgId p else 0;
                 payload := take (Z.to_nat (payloadlen p)) (payload p) ++ tail; payloadlen := payloadlen p |}).
Proof.
  intros Hp Hq. cbn zeta. pose proof (length_publish_body p qos Hp) as Hlen. destruct Hp as (Ht & Hi & Hl & Hm).
  unfold MQTTPacket_publish. rewrite Hlen. unfold publish_body. pose proof (strlen_nonneg (topic p)).
  rewrite <- app_assoc, readUTFlen_utf by (destruct (0 <? qos); lia). cbn [mbind comp_bind]. rewrite Hq, <- app_assoc.
  pose proof (length_utf_bytes (topic p)) as Hu. unfold INT_MAX in Hm.
  destruct (0 <? qos); cbn [app].
  - rewrite <- Hu, readInt_app by done. cbn [mbind comp_bind].
    rewrite (app_assoc (utf_bytes _)), drop_app_length_eq by (rewrite length_app; cbn [length int_bytes]; lia).
    rewrite to_int_id by (unfold is_int, INT_MIN, INT_MAX; lia). do 3 f_equal. lia.
  - cbn [mbind comp_bind]. rewrite drop_app_length_eq by lia.
    rewrite to_int_id by (unfold is_int, INT_MIN, INT_MAX; lia). do 3 f_equal. lia.
Qed.

(** The length-prefixed string at the start of a buffer: it is read if the
    buffer holds all of it, and nothing faults if not. *)
Lemma readUTFlen_cases data :
  Forall is_byte data ->
  (exists s rest, data = utf_bytes s ++ rest /\ strlen s < 65536) \/
  (exists cur len, readUTFlen data 0 (Z.of_nat (length data)) 0 = Ret (None, cur, len)).
Proof.
  intros Hd. destruct data as [|a [|b d]]; [right; by do 2 eexists..|].
  apply Forall_cons in Hd as [Ha [Hb Hd]%Forall_cons]. unfold is_byte in Ha, Hb.
  destruct (Z.leb_spec (256 * a + b) (Z.of_nat (length d))) as [Hle|Hgt].
  - left. exists (bytes (take (Z.to_nat (256 * a + b)) d)), (drop (Z.to_nat (256 * a + b)) d).
    assert (strlen (bytes (take (Z.to_nat (256 * a + b)) d)) = 256 * a + b) as Hs.
    { rewrite <- length_bytes_of, bytes_of_bytes by (by apply Forall_take). rewrite length_take. lia. }
    split; [|rewrite Hs; lia]. unfold utf_bytes. rewrite Hs, to_int_id by (unfold is_int, INT_MIN, INT_MAX; lia).
    rewrite int_bytes_small, bytes_of_bytes by (lia || by apply Forall_take). cbn [app]. rewrite take_drop.
    f_equal; [|f_equal]; Z.div_mod_to_equations; lia.
  - right. unfold readUTFlen. rewrite (proj2 (Z.ltb_lt _ _)) by (cbn [length]; lia).
    change (readInt (a :: b :: d) 0) with (Ret (256 * a + b, 2)). cbn [mbind comp_bind].
    rewrite (proj2 (Z.leb_gt _ _)) by (cbn [length]; lia). by do 2 eexists.
Qed.

(** C38: a PUBLISH packet with a QoS above 0 that ends less than two bytes after
    its topic is read past its end: MQTTPacket_publish takes the message id
    without a check of the length.  No other packet is read out of bounds. *)
Theorem publish_overread h data :
  Forall is_byte data -> Z.of_nat (length data) <= INT_MAX ->
  (MQTTPacket_publish h data (Z.of_nat (length data)) = Err OutOfBounds <->
     0 < hdr_qos h /\ exists t rest, data = utf_bytes t ++ rest /\ strlen t < 65536 /\ (length rest < 2)%nat) /\
  (forall f, MQTTPacket_publish h data (Z.of_nat (length data)) = Err f -> f = OutOfBounds).
Proof.
  intros Hd Hn. destruct (readUTFlen_cases data Hd) as [(s & rest & -> & Hs)|(cur & len & E)].
  - unfold MQTTPacket_publish. pose proof (length_utf_bytes s) as Hu. pose proof (strlen_nonneg s).
    rewrite readUTFlen_utf by (rewrite ?length_app; lia). cbn [mbind comp_bind].
    destruct (Z.ltb_spec 0 (hdr_qos h)) as [Hq|Hq]; [|cbn; split; [|done]; split; [done|lia]].
    assert ((exists t rest0, utf_bytes s ++ rest = utf_bytes t ++ rest0 /\ strlen t < 65536 /\ (length rest0 < 2)%nat)
            <-> (length rest < 2)%nat) as ->.
    { split; [|intros; by exists s, rest]. intros (t & r & E & Ht & Hr).
      pose proof (readUTFlen_utf s rest 65538 0 Hs ltac:(lia)) as R. rewrite E, readUTFlen_utf in R by lia.
      injection R as -> _ _. by apply app_inv_head in E as <-. }
    unfold readInt. rewrite <- Hu. destruct rest as [|a [|b rest]].
    + rewrite app_nil_r, (arr_get_fault _ (Z.of_nat _)) by lia. cbn [mbind comp_bind length].
      split; [|intros f Ef; congruence]. by split; [split; [|lia]|].
    + rewrite (arr_get_app _ a [] (Z.of_nat _)) by done. cbn [mbind comp_bind].
      rewrite arr_get_fault by (rewrite length_app; cbn; lia). cbn [mbind comp_bind length].
      split; [|intros f Ef; congruence]. by split; [split; [|lia]|].
    + rewrite (arr_get_app _ a (b :: rest) (Z.of_nat _)) by done. cbn [mbind comp_bind].
      rewrite (cons_middle a), app_assoc, arr_get_app by (rewrite length_app; cbn; lia). cbn [mbind comp_bind length].
      split; [|done]. split; [done|]. intros [_ ?]. lia.
  - unfold MQTTPacket_publish. rewrite E. cbn [mbind comp_bind]. split; [|done]. split; [done|].
    intros [_ (t & r & -> & Ht & Hr)]. rewrite readUTFlen_utf in E; [done|done|]. rewrite length_app, Nat2Z.inj_add, length_utf_bytes. lia.
Qed.

(** ** Concrete packets *)

Definition demo_connect : connect_params :=
  {| clientID := "hub"; cleansession := 1; keepAliveInterval := 60;
     will := Some {| will_topic := "w"; will_payload := [1; 2; 3]; will_payloadlen := 2; will_retained := 1; will_qos := 1 |};
     username := Some "me"%string; password := Some [7; 8]; passwordlen := 2 |}.

Lemma send_connect_exact_witness :
  connect_ok demo_connect /\
  MQTTPacket_send_connect 0 demo_connect 4 = Ret (Some [16 :: length_digits 30; connect_body demo_connect 4]).
Proof.
  assert (connect_ok demo_connect) as Hok by (split; intros ? [= <-]; cbn; lia).
  split; [exact Hok|]. apply (send_connect_exact 0 demo_connect 4); [exact Hok|by right|by vm_compute].
Defined.

Lemma send_subscribe_exact_witness :
  MQTTPacket_send_subscribe 0 ["a/b"; "c"]%string [1; 2] 10 0 =
    Ret [[130; 12]; [0; 10; 0; 3; 97; 47; 98; 1; 0; 1; 99; 2]].
Proof.
  destruct (send_subscribe_exact 0 ["a/b"; "c"]%string [1; 2] 10 0) as [E _]; [cbn; lia|by vm_compute|exact E].
Defined.

(** QoS 1, topic "ab", and nothing behind it. *)
Lemma publish_overread_witness : MQTTPacket_publish 50 [0; 2; 97; 98] 4 = Err OutOfBounds.
Proof.
  apply (publish_overread 50 [0; 2; 97; 98]); [repeat constructor; lia|by vm_compute|].
  split; [by vm_compute|]. exists "ab"%string, []. split; [reflexivity|]. split; [by vm_compute|cbn; lia].
Defined.
