(* ===== verification/MqttSocket.v ===== *)
(** * Packets on a socket (mqtt-c/source: SocketBuffer.c, Socket.c, MQTTPacket.c)

    The sockets do not block: a read may find nothing, or a part of a packet,
    and a write may be cut short.  The socket buffers keep what was read of a
    packet until the rest arrives, and what is left to write of one.

    [wire] is what the peer's bytes do at the reads: they arrive in pieces,
    with reads in between that find nothing. *)

From S2P Require Import Prelude CString Unicode MqttPacket.

Local Open Scope Z_scope.

Definition TCPSOCKET_COMPLETE : Z := 0.
Definition SOCKET_ERROR : Z := -1.
Definition TCPSOCKET_INTERRUPTED : Z := -22.
Definition BAD_MQTT_PACKET : Z := -4.

Inductive arrival :=
  | Arrived (l : list Z)
  | WouldBlock
  | PeerClosed
  | RecvError.

Abbreviation wire := (list arrival).

Inductive recvd := Got (l : list Z) | Again | Closed | Failed.

(** [recv] of at most [n] bytes. *)
Fixpoint recv (n : Z) (w : wire) : recvd * wire :=
  match w with
  | [] => (Again, [])
  | Arrived [] :: w => recv n w
  | Arrived l :: w =>
      let rest := drop (Z.to_nat n) l in
      (Got (take (Z.to_nat n) l), if bool_decide (rest = []) then w else Arrived rest :: w)
  | WouldBlock :: w => (Again, w)
  | PeerClosed :: _ => (Closed, w)
  | RecvError :: w => (Failed, w)
  end.

(** ** SocketBuffer.c *)

Record socket_queue := {
  q_socket : Z;
  q_index : Z;
  q_headerlen : Z;
  q_fixed_header : list Z;
  q_buflen : Z;
  q_datalen : Z;
  q_buf : list Z
}.

(** A packet of which [pw_bytes] of [pw_total] bytes are written. *)
Record pending_writes := { pw_total : Z; pw_bytes : Z; pw_iovecs : list (list Z) }.

(** The lists [queues] and [writes] are only searched by socket and hold at
    most one element for a socket: maps. *)
Record sockbufs := {
  def_queue : socket_queue;
  queues : gmap Z socket_queue;
  writes : gmap Z pending_writes
}.

Definition set_def (s : sockbufs) (q : socket_queue) : sockbufs :=
  {| def_queue := q; queues := queues s; writes := writes s |}.
Definition set_queue (s : sockbufs) (socket : Z) (q : socket_queue) : sockbufs :=
  {| def_queue := def_queue s; queues := <[socket := q]> (queues s); writes := writes s |}.
Definition set_writes (s : sockbufs) (ws : gmap Z pending_writes) : sockbufs :=
  {| def_queue := def_queue s; queues := queues s; writes := ws |}.

Definition with_pos (q : socket_queue) (socket index headerlen datalen : Z) : socket_queue :=
  {| q_socket := socket; q_index := index; q_headerlen := headerlen; q_fixed_header := q_fixed_header q;
     q_buflen := q_buflen q; q_datalen := datalen; q_buf := q_buf q |}.
Definition with_buf (q : socket_queue) (buflen : Z) (buf : list Z) : socket_queue :=
  {| q_socket := q_socket q; q_index := q_index q; q_headerlen := q_headerlen q; q_fixed_header := q_fixed_header q;
     q_buflen := buflen; q_datalen := q_datalen q; q_buf := buf |}.
Definition with_char (q : socket_queue) (fixed_header : list Z) : socket_queue :=
  {| q_socket := q_socket q; q_index := q_index q + 1; q_headerlen := q_index q + 1; q_fixed_header := fixed_header;
     q_buflen := q_buflen q; q_datalen := q_datalen q; q_buf := q_buf q |}.

Section sockets.
(** What uninitialised memory holds. *)
Context (junk : Z).

(** The fields that are not assigned: [headerlen] and the contents of the
    arrays.  [buflen] is assigned 1000 and then 0. *)
Definition SocketBuffer_newDefQ : socket_queue :=
  {| q_socket := 0; q_index := 0; q_headerlen := junk; q_fixed_header := malloc junk 5;
     q_buflen := 0; q_datalen := 0; q_buf := malloc junk 1000 |}.

Definition SocketBuffer_initialize : sockbufs := {| def_queue := SocketBuffer_newDefQ; queues := ∅; writes := ∅ |}.

Definition SocketBuffer_cleanup (s : sockbufs) (socket : Z) : sockbufs :=
  let d := def_queue s in
  {| def_queue := if q_socket d =? socket then with_pos d 0 0 0 0 else d; queues := delete socket (queues s);
     writes := delete socket (writes s) |}.

Definition realloc (buf : list Z) (n : Z) : list Z :=
  take (Z.to_nat n) buf ++ replicate (Z.to_nat n - length buf) junk.

(** The queue's buffer, made large enough. *)
Definition grow (q : socket_queue) (bytes : Z) : comp socket_queue :=
  if q_buflen q <? bytes then
    let* buf :=
      (if 0 <? q_datalen q then
         let* d := arr_slice (q_buf q) 0 (q_datalen q) in
         arr_write (malloc junk bytes) 0 d
       else Ret (realloc (q_buf q) bytes)) in
    Ret (with_buf q bytes buf)
  else Ret q.

(** The buffer, [*actual_len], and the state. *)
Definition SocketBuffer_getQueuedData (s : sockbufs) (socket bytes : Z) : comp (list Z * Z * sockbufs) :=
  match queues s !! socket with
  | Some q =>
      let actual_len := q_datalen q in
      let* q := grow q bytes in
      Ret (q_buf q, actual_len, set_queue s socket q)
  | None =>
      let* q := grow (def_queue s) bytes in
      Ret (q_buf q, 0, set_def s q)
  end.

(** The completion code, the character if there is one, and the state. *)
Definition SocketBuffer_getQueuedChar (s : sockbufs) (socket : Z) : comp (Z * Z * sockbufs) :=
  match queues s !! socket with
  | Some q =>
      if q_index q <? q_headerlen q then
        let* c := arr_get (q_fixed_header q) (q_index q) in
        Ret (TCPSOCKET_COMPLETE, c, set_queue s socket (with_pos q (q_socket q) (q_index q + 1) (q_headerlen q) (q_datalen q)))
      else if 4 <? q_index q then Ret (SOCKET_ERROR, 0, s)
      else Ret (TCPSOCKET_INTERRUPTED, 0, s)
  | None => Ret (TCPSOCKET_INTERRUPTED, 0, s)
  end.

Definition SocketBuffer_interrupted (s : sockbufs) (socket actual_len : Z) : sockbufs :=
  match queues s !! socket with
  | Some q => set_queue s socket (with_pos q (q_socket q) 0 (q_headerlen q) actual_len)
  | None =>
      let q := def_queue s in
      {| def_queue := SocketBuffer_newDefQ;
         queues := <[socket := with_pos q socket 0 (q_headerlen q) actual_len]> (queues s); writes := writes s |}
  end.

(** The buffer of the completed operation becomes the default one. *)
Definition SocketBuffer_complete (s : sockbufs) (socket : Z) : sockbufs :=
  match queues s !! socket with
  | Some q => {| def_queue := with_pos q 0 0 0 0; queues := delete socket (queues s); writes := writes s |}
  | None => set_def s (with_pos (def_queue s) 0 0 0 0)
  end.

Definition queue_char (q : socket_queue) (c : Z) : comp socket_queue :=
  if 4 <? q_index q then Ret q
  else let* h := arr_set (q_fixed_header q) (q_index q) c in Ret (with_char q h).

Definition SocketBuffer_queueChar (s : sockbufs) (socket c : Z) : comp sockbufs :=
  match queues s !! socket with
  | Some q => let* q := queue_char q c in Ret (set_queue s socket q)
  | None =>
      let d := def_queue s in
      if q_socket d =? 0 then
        let* q := queue_char (with_pos d socket 0 (q_headerlen d) 0) c in Ret (set_def s q)
      else if negb (q_socket d =? socket) then Ret s
      else let* q := queue_char d c in Ret (set_def s q)
  end.

(** ** Socket.c: reading *)

Definition Socket_getch (s : sockbufs) (w : wire) (socket : Z) : comp (Z * Z * sockbufs * wire) :=
  let* (rc, c, s) := SocketBuffer_getQueuedChar s socket in
  if negb (rc =? TCPSOCKET_INTERRUPTED) then Ret (rc, c, s, w)
  else
    let (r, w) := recv 1 w in
    match r with
    | Again => Ret (TCPSOCKET_INTERRUPTED, c, SocketBuffer_interrupted s socket 0, w)
    | Failed | Closed => Ret (SOCKET_ERROR, c, s, w)
    | Got l =>
        let* c := arr_get l 0 in
        let* s := SocketBuffer_queueChar s socket c in
        Ret (TCPSOCKET_COMPLETE, c, s, w)
    end.

(** The bytes received are written into the buffer of the socket's queue. *)
Definition store_data (s : sockbufs) (socket off : Z) (l : list Z) : comp sockbufs :=
  match queues s !! socket with
  | Some q => let* buf := arr_write (q_buf q) off l in Ret (set_queue s socket (with_buf q (q_buflen q) buf))
  | None =>
      let q := def_queue s in
      let* buf := arr_write (q_buf q) off l in Ret (set_def s (with_buf q (q_buflen q) buf))
  end.

Definition data_buf (s : sockbufs) (socket : Z) : list Z :=
  match queues s !! socket with
  | Some q => q_buf q
  | None => q_buf (def_queue s)
  end.

(** The buffer or NULL, [*actual_len], and the state. *)
Definition Socket_getdata (s : sockbufs) (w : wire) (socket bytes actual_len : Z)
  : comp (option (list Z) * Z * sockbufs * wire) :=
  if bytes =? 0 then
    let s := SocketBuffer_complete s socket in
    Ret (Some (q_buf (def_queue s)), actual_len, s, w)
  else
    let* (_, actual_len, s) := SocketBuffer_getQueuedData s socket bytes in
    let (r, w) := recv (to_int (bytes - actual_len)) w in
    let* (ok, actual_len, s) :=
      match r with
      | Failed | Closed => Ret (false, actual_len, s)
      | Again => Ret (true, actual_len, s)
      | Got l =>
          let* s := store_data s socket actual_len l in
          Ret (true, actual_len + Z.of_nat (length l), s)
      end in
    if negb ok then Ret (None, actual_len, s, w)
    else
      let buf := data_buf s socket in
      let s := if actual_len =? bytes then SocketBuffer_complete s socket
               else SocketBuffer_interrupted s socket actual_len in
      Ret (Some buf, actual_len, s, w).

(** ** MQTTPacket.c: reading a packet *)

Definition MAX_NO_OF_REMAINING_LENGTH_BYTES : Z := 4.

Fixpoint decode_loop (fuel : nat) (s : sockbufs) (w : wire) (socket len multiplier value : Z)
  : comp (Z * Z * sockbufs * wire) :=
  match fuel with
  | O => Err OutOfFuel
  | S fuel =>
      let len := len + 1 in
      if MAX_NO_OF_REMAINING_LENGTH_BYTES <? len then Ret (SOCKET_ERROR, value, s, w)
      else
        let* (rc, c, s, w) := Socket_getch s w socket in
        if negb (rc =? TCPSOCKET_COMPLETE) then Ret (rc, value, s, w)
        else
          let value := value + Z.land c 127 * multiplier in
          let multiplier := multiplier * 128 in
          if negb (Z.land c 128 =? 0) then decode_loop fuel s w socket len multiplier value
          else Ret (rc, value, s, w)
  end.

(** At most four bytes are read, and a fifth round ends the loop. *)
Definition MQTTPacket_decode (s : sockbufs) (w : wire) (socket : Z) : comp (Z * Z * sockbufs * wire) :=
  decode_loop 5 s w socket 0 1 0.

(** What the factory makes of a complete packet; [put_rc] is the result of
    storing a QoS 2 publication. *)
Definition build_packet (put_rc header : Z) (data : list Z) (remaining_length : Z) : comp (option packet * Z) :=
  match new_packets (hdr_type header) with
  | None => Ret (None, TCPSOCKET_COMPLETE)
  | Some f =>
      let* pack := f header data remaining_length in
      Ret (pack, match pack with
                 | None => BAD_MQTT_PACKET
                 | Some _ =>
                     if (hdr_type header =? PUBLISH) && (hdr_qos header =? 2) then put_rc else TCPSOCKET_COMPLETE
                 end)
  end.

(** The packet or NULL, [*error], and the state. *)
Definition MQTTPacket_Factory (put_rc : Z) (s : sockbufs) (w : wire) (socket : Z)
  : comp (option packet * Z * sockbufs * wire) :=
  let* (error, header, s, w) := Socket_getch s w socket in
  if negb (error =? TCPSOCKET_COMPLETE) then Ret (None, error, s, w)
  else
    let* (error, remaining_length, s, w) := MQTTPacket_decode s w socket in
    if negb (error =? TCPSOCKET_COMPLETE) then Ret (None, error, s, w)
    else
      let* (data, actual_len, s, w) := Socket_getdata s w socket remaining_length 0 in
      match data with
      | None => Ret (None, SOCKET_ERROR, s, w)
      | Some data =>
          if negb (actual_len =? remaining_length) then Ret (None, TCPSOCKET_INTERRUPTED, s, w)
          else
            let* (pack, error) := build_packet put_rc header data remaining_length in
            Ret (pack, error, s, w)
      end.

(** The client calls the factory again when the socket is ready, until the
    packet is there. *)
Fixpoint receive (fuel : nat) (put_rc : Z) (s : sockbufs) (w : wire) (socket : Z)
  : comp (option packet * Z * sockbufs * wire) :=
  match fuel with
  | O => Err OutOfFuel
  | S fuel =>
      let* (pack, error, s, w) := MQTTPacket_Factory put_rc s w socket in
      if error =? TCPSOCKET_INTERRUPTED then receive fuel put_rc s w socket
      else Ret (pack, error, s, w)
  end.

(** ** Socket.c: writing *)

(** What the kernel does with a write: it has room for [n] bytes, for none, or
    the connection is broken. *)
Inductive written := Wrote (n : nat) | WriteBlocks | WriteFails.

(** The result, [*bytes], and what goes out. *)
Definition Socket_writev (iovecs : list (list Z)) (a : written) : Z * Z * list Z :=
  match a with
  | WriteFails => (SOCKET_ERROR, 0, [])
  | WriteBlocks => (TCPSOCKET_INTERRUPTED, 0, [])
  | Wrote n => let out := take n (mjoin iovecs) in (Z.of_nat (length out), Z.of_nat (length out), out)
  end.

Record sockets := { bufs : sockbufs; write_pending : list Z }.

Definition Socket_noPendingWrites (s : sockets) (socket : Z) : bool := bool_decide (socket ∉ write_pending s).

Definition SocketBuffer_pendingWrite (s : sockbufs) (socket : Z) (iovecs : list (list Z)) (total bytes : Z) : sockbufs :=
  set_writes s (<[socket := {| pw_total := total; pw_bytes := bytes; pw_iovecs := iovecs |}]> (writes s)).

Definition SocketBuffer_getWrite (s : sockbufs) (socket : Z) : option pending_writes := writes s !! socket.

Definition SocketBuffer_writeComplete (s : sockbufs) (socket : Z) : bool * sockbufs :=
  (bool_decide (is_Some (writes s !! socket)), set_writes s (delete socket (writes s))).

(** The arrays of buffers have five elements. *)
Definition Socket_putdatas (s : sockets) (socket : Z) (iovecs : list (list Z)) (a : written) : comp (Z * list Z * sockets) :=
  if negb (Socket_noPendingWrites s socket) then Ret (SOCKET_ERROR, [], s)
  else if 5 <? Z.of_nat (length iovecs) then Err OutOfBounds
  else
    let total := Z.of_nat (length (mjoin iovecs)) in
    let '(rc, bytes, out) := Socket_writev iovecs a in
    if rc =? SOCKET_ERROR then Ret (rc, out, s)
    else if bytes =? total then Ret (TCPSOCKET_COMPLETE, out, s)
    else Ret (TCPSOCKET_INTERRUPTED, out,
              {| bufs := SocketBuffer_pendingWrite (bufs s) socket iovecs total bytes;
                 write_pending := write_pending s ++ [socket] |}).

(** The buffers a continued write has left; the loop ends behind a buffer it
    takes a part of. *)
Fixpoint remaining_iovecs (bytes curbuflen : Z) (iovecs : list (list Z)) : list (list Z) :=
  match iovecs with
  | [] => []
  | v :: iovecs =>
      let len := Z.of_nat (length v) in
      if bytes <=? curbuflen then v :: remaining_iovecs bytes (curbuflen + len) iovecs
      else if bytes <? curbuflen + len then [drop (Z.to_nat (bytes - curbuflen)) v]
      else remaining_iovecs bytes (curbuflen + len) iovecs
  end.

(** 0 for incomplete, 1 for complete, -1 for an error. *)
Definition Socket_continueWrite (s : sockbufs) (socket : Z) (a : written) : comp (Z * list Z * sockbufs) :=
  match SocketBuffer_getWrite s socket with
  | None => Err NullDeref
  | Some pw =>
      let '(rc, bytes, out) := Socket_writev (remaining_iovecs (pw_bytes pw) 0 (pw_iovecs pw)) a in
      if rc =? SOCKET_ERROR then Ret (SOCKET_ERROR, out, s)
      else
        let pw := {| pw_total := pw_total pw; pw_bytes := pw_bytes pw + bytes; pw_iovecs := pw_iovecs pw |} in
        Ret (if pw_bytes pw =? pw_total pw then 1 else 0, out, set_writes s (<[socket := pw]> (writes s)))
  end.

(** The body of the loop of Socket_continueWrites, for a socket of
    [write_pending] that select found writable. *)
Definition continueWrites_body (s : sockets) (socket : Z) (a : written) : comp (Z * list Z * sockets) :=
  let* (rc, out, b) := Socket_continueWrite (bufs s) socket a in
  if rc =? 0 then Ret (rc, out, {| bufs := b; write_pending := write_pending s |})
  else
    let (_, b) := SocketBuffer_writeComplete b socket in
    Ret (rc, out, {| bufs := b; write_pending := filter (fun x => x <> socket) (write_pending s) |}).
End sockets.

(** ** Reading one packet, however its bytes arrive *)

Fixpoint stream (w : wire) : list Z :=
  match w with
  | [] => []
  | Arrived l :: w => l ++ stream w
  | _ :: w => stream w
  end.

(** Bytes and pauses: the connection neither ends nor breaks. *)
Definition steady (w : wire) : Prop :=
  Forall (fun a => match a with Arrived _ | WouldBlock => True | _ => False end) w.

(** There is a byte to read, as select has reported. *)
Definition readable (w : wire) : Prop := exists b l w', w = Arrived (b :: l) :: w'.

Lemma recv_steady n w :
  steady w -> 0 < n ->
  (exists l w', recv n w = (Got l, w') /\ steady w' /\ stream w = l ++ stream w' /\ (0 < length l)%nat /\
     Z.of_nat (length l) <= n /\ (length w' <= length w)%nat /\
     (Z.of_nat (length l) < n -> (length w' < length w)%nat)) \/
  (exists w', recv n w = (Again, w') /\ steady w' /\ stream w = stream w' /\
     (stream w <> [] -> (length w' < length w)%nat) /\ ~ readable w).
Proof.
  intros Hw Hn. induction Hw as [|a w Ha Hw IH].
  { right. exists []. split_and!; [done|constructor|done|done|by intros (? & ? & ? & ?)]. }
  destruct a as [[|b l]| | |]; [| |right; exists w|done..].
  - destruct IH as [(l & w' & E & ? & ? & ? & ? & ? & ?)|(w' & E & ? & ? & H & ?)].
    + left. exists l, w'. cbn [recv length stream app]. rewrite E. split_and!; try done; lia.
    + right. exists w'. cbn [recv length stream app]. rewrite E. split_and!; [done..| |by intros (? & ? & ? & ?)].
      intros Hs. specialize (H Hs). lia.
  - left. cbn [recv stream]. set (t := b :: l). exists (take (Z.to_nat n) t). eexists. split; [done|].
    assert (0 < length (take (Z.to_nat n) t))%nat as Ht by (rewrite length_take; unfold t; cbn [length]; lia).
    pose proof (take_drop (Z.to_nat n) t) as E. case_bool_decide as Hd.
    + rewrite Hd, app_nil_r in E. split_and!; [done|by rewrite E|done|rewrite length_take; lia|cbn; lia|cbn; lia].
    + split_and!; [by constructor|cbn [stream]; by rewrite app_assoc, E|done|rewrite length_take; lia|cbn; lia|].
      intros Hl. rewrite length_take in Hl. destruct Hd. apply nil_length_inv. rewrite length_drop. lia.
  - cbn [recv length stream]. split_and!; [done..|intros _; lia|by intros (? & ? & ? & ?)].
Qed.

Definition queue_ok (q : socket_queue) : Prop :=
  length (q_fixed_header q) = 5%nat /\ 0 <= q_datalen q <= q_buflen q /\ q_buflen q <= Z.of_nat (length (q_buf q)).

(** A default queue that no socket is using. *)
Definition def_free (q : socket_queue) : Prop := q_socket q = 0 /\ q_datalen q = 0 /\ queue_ok q.

(** Nothing but the queue of [socket] differs. *)
Definition same_rest (socket : Z) (s s' : sockbufs) : Prop :=
  delete socket (queues s') = delete socket (queues s) /\ writes s' = writes s.

Ltac fields := cbn [queues def_queue writes set_queue set_def with_pos with_buf with_char
                     q_socket q_index q_headerlen q_fixed_header q_buflen q_datalen q_buf].

Section reading.
Context (junk socket : Z) (head body : list Z).

(** The socket is [i] bytes into the header of a packet, of which [k] bytes of
    the header and [m] of the body are in the buffers. *)
Inductive reading (i k m : nat) (s : sockbufs) : Prop :=
  | reading_queued q :
      queues s !! socket = Some q -> q_index q = Z.of_nat i -> q_headerlen q = Z.of_nat k ->
      take k (q_fixed_header q) = take k head -> (i <= k)%nat -> (1 <= k <= length head)%nat ->
      q_datalen q = Z.of_nat m -> take m (q_buf q) = take m body -> (m <> 0 -> k = length head)%nat ->
      queue_ok q -> def_free (def_queue s) -> reading i k m s
  | reading_fresh :
      queues s !! socket = None -> k = i -> m = 0%nat -> (i <= length head)%nat ->
      (i = 0%nat -> q_socket (def_queue s) = 0) ->
      (i <> 0%nat -> q_socket (def_queue s) = socket /\ q_index (def_queue s) = Z.of_nat i /\
                     q_headerlen (def_queue s) = Z.of_nat i) ->
      take i (q_fixed_header (def_queue s)) = take i head -> q_datalen (def_queue s) = 0 ->
      queue_ok (def_queue s) -> reading i k m s.

(** Between two packets. *)
Definition idle (s : sockbufs) : Prop := queues s !! socket = None /\ def_free (def_queue s).

Lemma idle_reading s : idle s <-> queues s !! socket = None /\ reading 0 0 0 s.
Proof.
  split.
  - intros (H & Hs & Hd & Hq). split; [done|]. apply reading_fresh; try done. lia.
  - intros [H [q Hq|? ? ? ? Hs ? ? ? ?]]; [congruence|]. split; [done|]. split_and!; [by apply Hs|done|done].
Qed.

Lemma same_rest_refl s : same_rest socket s s.
Proof. done. Qed.

Lemma same_rest_trans s s' s'' : same_rest socket s s' -> same_rest socket s' s'' -> same_rest socket s s''.
Proof. intros [H1 H2] [H3 H4]. split; congruence. Qed.

Lemma same_rest_set_queue s q : same_rest socket s (set_queue s socket q).
Proof. split; [cbn; by rewrite delete_insert_eq|done]. Qed.

Lemma same_rest_set_def s q : same_rest socket s (set_def s q).
Proof. done. Qed.

Lemma newDefQ_free : def_free (SocketBuffer_newDefQ junk).
Proof. done. Qed.

Lemma queue_char_ok q i c :
  queue_ok q -> q_index q = Z.of_nat i -> (i < 5)%nat -> take i (q_fixed_header q) = take i head -> head !! i = Some c ->
  exists h, queue_char q c = Ret (with_char q h) /\ length h = 5%nat /\ take (S i) h = take (S i) head.
Proof.
  intros (Hl & _) Hi Hi5 Ht Hc. unfold queue_char. rewrite Hi, (proj2 (Z.ltb_ge _ _)) by lia.
  assert (take (S i) head = take i head ++ [c]) as Eh by (by apply take_S_r).
  assert (i < length (q_fixed_header q))%nat as Hlt by lia.
  rewrite <- (take_drop i (q_fixed_header q)). destruct (drop i (q_fixed_header q)) as [|x k] eqn:Ed.
  { assert (length (drop i (q_fixed_header q)) = 0)%nat as El by (by rewrite Ed). rewrite length_drop in El. lia. }
  assert (length (take i (q_fixed_header q)) = i) as Elt by (rewrite length_take; lia).
  rewrite arr_set_app by lia. cbn [mbind comp_bind]. exists (take i (q_fixed_header q) ++ c :: k). split; [done|].
  assert (length (take i (q_fixed_header q) ++ x :: k) = 5%nat) as E5 by (by rewrite <- Ed, take_drop).
  rewrite length_app in E5 |- *. cbn [length] in *. split; [lia|].
  rewrite Eh, <- Ht, cons_middle, app_assoc. apply take_app_length_eq. rewrite length_app. cbn. lia.
Qed.

Lemma with_char_ok q h : queue_ok q -> length h = 5%nat -> queue_ok (with_char q h).
Proof. by intros (_ & H) Hh. Qed.

Lemma with_pos_ok q sock index headerlen datalen :
  queue_ok q -> 0 <= datalen <= q_buflen q -> queue_ok (with_pos q sock index headerlen datalen).
Proof. by intros (H & _ & H') Hd. Qed.

(** What reading one byte of the header does: the byte comes from the queue or
    from the wire, or it is not there yet. *)
Definition getch_spec (s : sockbufs) (w : wire) (i k m : nat) (c : Z) (tl : list Z) : Prop :=
  exists s' w', steady w' /\ same_rest socket s s' /\
  ((exists k', Socket_getch junk s w socket = Ret (TCPSOCKET_COMPLETE, c, s', w') /\ reading (S i) k' m s' /\
      stream w' = drop k' head ++ tl /\ (k <= k')%nat /\ (length w' <= length w)%nat) \/
   (exists c', Socket_getch junk s w socket = Ret (TCPSOCKET_INTERRUPTED, c', s', w') /\ reading 0 k m s' /\
      stream w' = drop k head ++ tl /\ (k <> 0)%nat /\ (length w' < length w)%nat)).

(** The next byte of the header, at the front of the wire, or a pause. *)
Lemma recv_header w k c tl :
  head !! k = Some c -> steady w -> stream w = drop k head ++ tl ->
  (exists w', recv 1 w = (Got [c], w') /\ steady w' /\ stream w' = drop (S k) head ++ tl /\ (length w' <= length w)%nat) \/
  (exists w', recv 1 w = (Again, w') /\ steady w' /\ stream w' = drop k head ++ tl /\ (length w' < length w)%nat /\ ~ readable w).
Proof.
  intros Hc Hw Hstr. pose proof (drop_S _ _ _ Hc) as Ed.
  destruct (recv_steady 1 w Hw ltac:(lia)) as [(l & w' & -> & Hw' & Hs' & Hl0 & Hl1 & Hlen & _)|(w' & -> & Hw' & Hs' & Hlen & Hnr)].
  - left. destruct l as [|x [|y l]]; [cbn in Hl0; lia| |cbn in Hl1; lia].
    rewrite Hstr, Ed in Hs'. cbn [app] in Hs'. injection Hs' as <- Hs'. exists w'. by split_and!.
  - right. exists w'. split_and!; [done|done|congruence| |done]. apply Hlen. by rewrite Hstr, Ed.
Qed.

Lemma getch_queued s w i k m c tl q :
  queues s !! socket = Some q -> (length head <= 5)%nat -> head !! i = Some c ->
  reading i k m s -> steady w -> stream w = drop k head ++ tl -> getch_spec s w i k m c tl.
Proof.
  intros Hq0 Hhl Hc Hr Hw Hstr. pose proof (lookup_lt_Some _ _ _ Hc) as Hilen.
  unfold getch_spec, Socket_getch, SocketBuffer_getQueuedChar.
  destruct Hr as [q' Hq Hi Hk Hfix Hik Hkh Hdl Hbuf Hmk Hqok Hdef|]; [|congruence]. rewrite Hq, Hi, Hk.
  assert (0 <= 0 <= q_buflen q' /\ 0 <= q_datalen q' <= q_buflen q') as [Hb0 Hbd] by (destruct Hqok as (_ & ? & _); lia).
  destruct (Z.ltb_spec (Z.of_nat i) (Z.of_nat k)) as [Hlt|Hge].
  - assert (q_fixed_header q' !! i = Some c) as Hget.
    { rewrite <- (lookup_take_lt _ k), Hfix, lookup_take_lt by lia. done. }
    rewrite (arr_get_Some _ _ c) by (lia || by rewrite Nat2Z.id). cbn [mbind comp_bind].
    eexists _, w. split; [done|]. split; [apply same_rest_set_queue|]. left. exists k. split; [done|].
    split; [|split_and!; [done|lia|lia]].
    eapply reading_queued; [fields; by rewrite lookup_insert_eq|..]; fields; [lia|done|done|lia|done|done|done|done| |done].
    by apply with_pos_ok.
  - assert (i = k) as -> by lia. rewrite (proj2 (Z.ltb_ge 4 _)) by lia. cbn [mbind comp_bind].
    destruct (recv_header w k c tl Hc Hw Hstr) as [(w' & -> & Hw' & Hs' & Hlen)|(w' & -> & Hw' & Hs' & Hlen & _)].
    + change (arr_get [c] 0) with (Ret c). cbn [mbind comp_bind]. unfold SocketBuffer_queueChar. rewrite Hq.
      destruct (queue_char_ok q' k c Hqok Hi ltac:(lia) Hfix Hc) as (h & -> & Hh & Hth). cbn [mbind comp_bind].
      eexists _, w'. split; [done|]. split; [apply same_rest_set_queue|]. left. exists (S k). split; [done|].
      split; [|split_and!; [done|lia|lia]].
      eapply reading_queued; [fields; by rewrite lookup_insert_eq|..]; fields; [lia|lia|done|lia|lia|done|done|lia| |done].
      by apply with_char_ok.
    + assert (m = 0%nat) as -> by lia. eexists _, w'. split; [done|]. unfold SocketBuffer_interrupted. rewrite Hq.
      split; [apply same_rest_set_queue|]. right. eexists. split; [done|]. split; [|split_and!; [done|lia|done]].
      eapply reading_queued; [fields; by rewrite lookup_insert_eq|..]; fields; [done|done|done|lia|lia|done|done|lia| |done].
      by apply with_pos_ok.
Qed.

(** Without a queue the byte goes to the default queue, which becomes the
    socket's own if the next byte is not there. *)
Lemma getch_fresh s w i k m c tl :
  queues s !! socket = None -> socket <> 0 -> (length head <= 5)%nat -> head !! i = Some c ->
  reading i k m s -> steady w -> stream w = drop k head ++ tl -> (k = 0%nat -> readable w) -> getch_spec s w i k m c tl.
Proof.
  intros Hq0 Hsock Hhl Hc Hr Hw Hstr Hready. pose proof (lookup_lt_Some _ _ _ Hc) as Hilen.
  unfold getch_spec, Socket_getch, SocketBuffer_getQueuedChar.
  destruct Hr as [|Hq -> -> Hih Hs0 Hs1 Hfix Hdl Hqok]; [congruence|]. rewrite Hq. cbn [mbind comp_bind].
  assert (0 <= 0 <= q_buflen (def_queue s)) as Hb0 by (destruct Hqok as (_ & ? & _); lia).
  destruct (recv_header w i c tl Hc Hw Hstr) as [(w' & -> & Hw' & Hs' & Hlen)|(w' & -> & Hw' & Hs' & Hlen & Hnr)].
  - change (arr_get [c] 0) with (Ret c). cbn [mbind comp_bind]. unfold SocketBuffer_queueChar. rewrite Hq.
    destruct (decide (i = 0%nat)) as [->|Hi0].
    + rewrite Hs0 by done. change (0 =? 0) with true. cbn iota.
      destruct (queue_char_ok (with_pos (def_queue s) socket 0 (q_headerlen (def_queue s)) 0) 0 c) as (h & -> & Hh & Hth);
        [by apply with_pos_ok|done|lia|done|done|]. cbn [mbind comp_bind].
      eexists _, w'. split; [done|]. split; [apply same_rest_set_def|]. left. exists 1%nat. split; [done|].
      split; [|split_and!; [done|lia|lia]].
      apply reading_fresh; fields; [done|done|done|lia|lia|done|done|done|].
      apply with_char_ok; [|done]. by apply with_pos_ok.
    + destruct (Hs1 Hi0) as (Hsk & Hix & Hhx). rewrite Hsk.
      rewrite (proj2 (Z.eqb_neq socket 0)), (Z.eqb_refl socket) by done. cbn [negb].
      destruct (queue_char_ok (def_queue s) i c Hqok Hix ltac:(lia) Hfix Hc) as (h & -> & Hh & Hth). cbn [mbind comp_bind].
      eexists _, w'. split; [done|]. split; [apply same_rest_set_def|]. left. exists (S i). split; [done|].
      split; [|split_and!; [done|lia|lia]].
      apply reading_fresh; fields; [done|done|done|lia|lia| |done|done|by apply with_char_ok].
      intros _. split_and!; [done|lia|lia].
  - assert (i <> 0%nat) as Hi0 by (intros ->; by apply Hnr, Hready).
    destruct (Hs1 Hi0) as (Hsk & Hix & Hhx).
    exists (SocketBuffer_interrupted junk s socket 0), w'. split; [done|]. unfold SocketBuffer_interrupted. rewrite Hq.
    split; [split; [by fields; rewrite delete_insert_eq|done]|]. right. eexists. split; [done|].
    split; [|split_and!; [done|lia|done]].
    eapply reading_queued; [fields; by rewrite lookup_insert_eq|..]; fields; [done|done|done|lia|lia|done|done|lia| |done].
    by apply with_pos_ok.
Qed.

Lemma getch_ok s w i k m c tl :
  socket <> 0 -> (length head <= 5)%nat -> head !! i = Some c ->
  reading i k m s -> steady w -> stream w = drop k head ++ tl -> (k = 0%nat -> readable w) -> getch_spec s w i k m c tl.
Proof.
  intros. destruct (queues s !! socket) eqn:Hq; [by eapply getch_queued|by apply getch_fresh].
Qed.

Lemma land_128 c : is_byte c -> (Z.land c 128 =? 0) = (c <? 128).
Proof.
  intros Hc. assert (Forall (fun c => (Z.land c 128 =? 0) = (c <? 128)) (seqZ 0 256)) as H by (by repeat constructor).
  rewrite Forall_forall in H. apply H, elem_of_seqZ. unfold is_byte in Hc. lia.
Qed.

Definition decode_spec (fuel : nat) (s : sockbufs) (w : wire) (m : nat) (len multiplier value n : Z) (tl : list Z) : Prop :=
  exists s' w', steady w' /\ same_rest socket s s' /\
  ((decode_loop junk fuel s w socket len multiplier value = Ret (TCPSOCKET_COMPLETE, value + n * multiplier, s', w') /\
      reading (length head) (length head) m s' /\ stream w' = tl /\ (length w' <= length w)%nat) \/
   (exists k v, decode_loop junk fuel s w socket len multiplier value = Ret (TCPSOCKET_INTERRUPTED, v, s', w') /\
      reading 0 k m s' /\ stream w' = drop k head ++ tl /\ (k <> 0)%nat /\ (length w' < length w)%nat)).

Lemma reading_le i k m s : reading i k m s -> (i <= k <= length head)%nat.
Proof. intros [q ? ? ? ? ? ? ? ? ? ? ?|? ? ? ? ? ? ? ? ?]; lia. Qed.

Lemma decode_ok fuel s w i k m tl len multiplier value kk n :
  socket <> 0 -> (length head <= 5)%nat -> drop i head = length_digits_n kk n -> 0 <= n < 128 ^ Z.of_nat kk -> kk <> 0%nat ->
  i <> 0%nat -> Z.of_nat i = len + 1 -> reading i k m s -> steady w -> stream w = drop k head ++ tl ->
  (length head - i < fuel)%nat -> decode_spec fuel s w m len multiplier value n tl.
Proof.
  intros Hsock Hhl. revert s w i k len multiplier value kk n. induction fuel as [|fuel IH];
    intros s w i k len multiplier value kk n Hd Hn Hkk Hi Hlen Hr Hw Hs Hf; [lia|].
  destruct kk as [|kk]; [done|]. cbn [length_digits_n] in Hd. pose proof (reading_le _ _ _ _ Hr) as Hik.
  assert (exists c ds, drop i head = c :: ds /\ is_byte c /\ (c < 128 -> c = n /\ ds = []) /\
            (128 <= c -> Z.land c 127 = n mod 128 /\ ds = length_digits_n kk (n / 128) /\ 128 <= n)) as (c & ds & Ed & Hcb & Hlo & Hhi).
  { rewrite Hd. destruct (Z.ltb_spec n 128); do 2 eexists; (split; [done|]); unfold is_byte.
    - split_and!; [lia|lia|done|lia].
    - pose proof (Z.mod_pos_bound n 128). split_and!; [lia|lia|lia|]. intros _. rewrite land_127. split_and!; [|done|done].
      Z.div_mod_to_equations; lia. }
  assert (head !! i = Some c) as Hc by (rewrite <- (Nat.add_0_r i), <- lookup_drop, Ed; done).
  assert (drop (S i) head = ds) as Eds.
  { replace (S i) with (i + 1)%nat by lia. rewrite <- drop_drop, Ed. done. }
  pose proof (lookup_lt_Some _ _ _ Hc) as Hilen. unfold decode_spec. cbn [decode_loop].
  unfold MAX_NO_OF_REMAINING_LENGTH_BYTES. rewrite (proj2 (Z.ltb_ge 4 _)) by lia.
  destruct (getch_ok s w i k m c tl) as (s1 & w1 & Hw1 & Hsr & [(k1 & -> & Hr1 & Hs1 & Hk1 & Hl1)|(c' & -> & Hr1 & Hs1 & Hk0 & Hl1)]);
    [done..|lia| |]; cbn [mbind comp_bind].
  - change (TCPSOCKET_COMPLETE =? TCPSOCKET_COMPLETE) with true. cbn [negb]. rewrite land_128 by done.
    destruct (Z.ltb_spec c 128) as [Hc128|Hc128]; cbn [negb].
    + destruct (Hlo Hc128) as [-> ->]. exists s1, w1. split; [done|]. split; [done|]. left.
      assert (length head = S i) as Ehl by (apply (f_equal length) in Ed; rewrite length_drop in Ed; cbn in Ed; lia).
      pose proof (reading_le _ _ _ _ Hr1). assert (k1 = S i) as -> by lia. rewrite Ehl, land_127, Z.mod_small by lia.
      split_and!; [done|done|by rewrite Hs1, Eds|done].
    + destruct (Hhi Hc128) as (Hm & Hds & Hn128).
      rewrite Nat2Z.inj_succ, Z.pow_succ_r in Hn by lia.
      assert (0 <= n / 128 < 128 ^ Z.of_nat kk) as Hn' by (split; [apply Z.div_pos; lia|apply Z.div_lt_upper_bound; lia]).
      assert (kk <> 0%nat) as Hkk' by (intros ->; cbn in Hn'; pose proof (Z.div_str_pos n 128); lia).
      destruct (IH s1 w1 (S i) k1 (len + 1) (multiplier * 128) (value + Z.land c 127 * multiplier) kk (n / 128))
        as (s2 & w2 & Hw2 & Hsr2 & H); [by rewrite Eds|done|done|lia|lia|done|done|done|lia|].
      exists s2, w2. split; [done|]. split; [by eapply same_rest_trans|].
      destruct H as [(E & Hr2 & Hs2 & Hl2)|(k2 & v & E & Hr2 & Hs2 & Hk2 & Hl2)].
      * left. rewrite E, Hm. split_and!; [|done|done|lia]. do 4 f_equal.
        pose proof (Z_div_mod_eq_full n 128) as Hdm. rewrite Hdm at 3. ring.
      * right. exists k2, v. split_and!; [exact E|done|done|done|lia].
  - exists s1, w1. split; [done|]. split; [done|]. right. exists k. eexists. by split_and!.
Qed.

(** The queue the next bytes of the socket go to. *)
Definition cur (s : sockbufs) : socket_queue :=
  match queues s !! socket with Some q => q | None => def_queue s end.
Definition put (s : sockbufs) (q : socket_queue) : sockbufs :=
  match queues s !! socket with Some _ => set_queue s socket q | None => set_def s q end.

Lemma cur_put s q : cur (put s q) = q.
Proof.
  unfold cur, put. destruct (queues s !! socket) eqn:E; fields; [by rewrite lookup_insert_eq|by rewrite E].
Qed.

Lemma put_put s q q' : put (put s q) q' = put s q'.
Proof.
  unfold put. destruct (queues s !! socket) eqn:E; fields; [|by rewrite E].
  rewrite lookup_insert_eq. unfold set_queue. fields. by rewrite insert_insert_eq.
Qed.

Lemma same_rest_put s q : same_rest socket s (put s q).
Proof. unfold put. destruct (queues s !! socket); [apply same_rest_set_queue|apply same_rest_set_def]. Qed.

(** What the buffers hold of the packet once its header is read. *)
Definition holds (q : socket_queue) (m : nat) : Prop :=
  queue_ok q /\ q_headerlen q = Z.of_nat (length head) /\ take (length head) (q_fixed_header q) = head /\
  q_datalen q = Z.of_nat m /\ take m (q_buf q) = take m body.

Lemma reading_holds m s :
  head <> [] -> reading (length head) (length head) m s ->
  holds (cur s) m /\ (queues s !! socket <> None -> def_free (def_queue s)) /\ (queues s !! socket = None -> m = 0%nat).
Proof.
  intros Hh Hr. unfold cur, holds. assert (take (length head) head = head) as Et by (by apply take_ge).
  destruct Hr as [q -> Hi Hk Hfix Hik Hkh Hdl Hbuf Hmk Hqok Hdef| -> _ -> _ _ Hs1 Hfix Hdl Hqok].
  - rewrite Hfix. split_and!; done.
  - rewrite Hfix. destruct Hs1 as (_ & _ & Hx); [by destruct head|]. split_and!; try done.
Qed.

Lemma grow_ok q m bytes :
  holds q m -> Z.of_nat m <= bytes ->
  exists q', grow junk q bytes = Ret q' /\ holds q' m /\ bytes <= q_buflen q' /\ q_socket q' = q_socket q.
Proof.
  intros ((Hf & Hd & Hb) & Hhl & Hfix & Hdl & Hbuf) Hm. unfold grow.
  destruct (Z.ltb_spec (q_buflen q) bytes) as [Hlt|Hge]; [|exists q; unfold holds, queue_ok; split_and!; (done || lia)].
  rewrite Hdl in *. destruct (Z.ltb_spec 0 (Z.of_nat m)) as [H0|H0].
  - rewrite arr_slice_take, Nat2Z.id by lia. cbn [mbind comp_bind].
    change (malloc junk bytes) with ([] ++ malloc junk bytes).
    rewrite arr_write_hole; [|done|unfold malloc; rewrite length_take, length_replicate; lia].
    cbn [mbind comp_bind app]. eexists. split; [done|]. unfold holds, queue_ok. fields. unfold malloc.
    rewrite length_app, length_drop, length_replicate, length_take. split_and!; try done; [lia..|].
    rewrite take_app_length_eq; [done|]. rewrite length_take. lia.
  - cbn [mbind comp_bind]. eexists. split; [done|]. assert (m = 0%nat) as -> by lia. unfold holds, queue_ok. fields.
    unfold realloc. rewrite length_app, length_take, length_replicate. split_and!; try done; lia.
Qed.

(** Bytes of the body received behind the first [m]. *)
Lemma write_body_ok q m l tl :
  holds q m -> drop m body = l ++ tl -> (m <= length body)%nat -> Z.of_nat (length body) <= q_buflen q ->
  exists buf, arr_write (q_buf q) (Z.of_nat m) l = Ret buf /\
    length buf = length (q_buf q) /\ take (m + length l) buf = take (m + length l) body.
Proof.
  intros ((Hf & Hd & Hb) & Hhl & Hfix & Hdl & Hbuf) Hl Hm Hlen.
  assert (length body = m + length l + length tl)%nat as Hbl.
  { apply (f_equal length) in Hl. rewrite length_drop, length_app in Hl. lia. }
  assert (length (take m (q_buf q)) = m) as Htm by (rewrite length_take; lia).
  replace (arr_write (q_buf q)) with (arr_write (take m (q_buf q) ++ drop m (q_buf q))) by (by rewrite take_drop).
  rewrite arr_write_hole; [|by rewrite Htm|rewrite length_drop; lia].
  eexists. split; [done|]. rewrite !length_app, !length_drop, Htm. split; [lia|].
  rewrite app_assoc, take_app_length_eq by (rewrite length_app, Htm; lia).
  rewrite Hbuf. replace body with (take m body ++ l ++ tl) at 2 by (by rewrite <- Hl, take_drop).
  rewrite app_assoc, take_app_length_eq; [done|].
  rewrite length_app, length_take. lia.
Qed.

Lemma complete_idle s :
  queue_ok (cur s) -> idle (SocketBuffer_complete s socket) /\ same_rest socket s (SocketBuffer_complete s socket) /\
    q_buf (def_queue (SocketBuffer_complete s socket)) = q_buf (cur s).
Proof.
  unfold cur, SocketBuffer_complete, idle, def_free. intros Hq. pose proof Hq as (_ & Hd & _).
  destruct (queues s !! socket) eqn:E; fields.
  - split; [split; [by rewrite lookup_delete_eq|]|].
    + split_and!; [done|done|]. apply with_pos_ok; [done|lia].
    + split; [split; [by fields; rewrite delete_delete_eq|done]|done].
  - split; [split; [done|]|done]. split_and!; [done|done|]. apply with_pos_ok; [done|lia].
Qed.

Lemma interrupted_reading s q m0 m :
  head <> [] -> holds q m0 -> take m (q_buf q) = take m body -> Z.of_nat m <= q_buflen q ->
  (queues s !! socket <> None -> def_free (def_queue s)) ->
  let s' := SocketBuffer_interrupted junk (put s q) socket (Z.of_nat m) in
  reading 0 (length head) m s' /\ same_rest socket s s'.
Proof.
  intros Hh (Hqok & Hhl & Hfix & _ & _) Hm Hmb Hdef. cbn zeta.
  assert (1 <= length head)%nat by (destruct head; [done|cbn; lia]).
  assert (take (length head) head = head) as Et by (by apply take_ge).
  unfold SocketBuffer_interrupted, put. destruct (queues s !! socket) eqn:E; fields.
  - rewrite lookup_insert_eq. split; [|split; [fields; by rewrite !delete_insert_eq|done]].
    eapply reading_queued; [fields; by rewrite lookup_insert_eq|..]; fields;
      [done|done|by rewrite Et|lia|lia|done|done|done| |by apply Hdef].
    apply with_pos_ok; [done|lia].
  - rewrite E. split; [|split; [fields; by rewrite delete_insert_eq|done]].
    eapply reading_queued; [fields; by rewrite lookup_insert_eq|..]; fields;
      [done|done|by rewrite Et|lia|lia|done|done|done| |done].
    apply with_pos_ok; [done|lia].
Qed.

Lemma getQueuedData_put s m bytes q :
  holds (cur s) m -> (queues s !! socket = None -> m = 0%nat) -> grow junk (cur s) bytes = Ret q ->
  SocketBuffer_getQueuedData junk s socket bytes = Ret (q_buf q, Z.of_nat m, put s q).
Proof.
  intros (_ & _ & _ & Hdl & _) H0 Hg. unfold SocketBuffer_getQueuedData, cur, put in *.
  destruct (queues s !! socket) eqn:E; rewrite Hg; cbn [mbind comp_bind]; [by rewrite Hdl|by rewrite H0].
Qed.

Lemma store_data_put s q off l :
  store_data (put s q) socket off l =
    (let* buf := arr_write (q_buf q) off l in Ret (put s (with_buf q (q_buflen q) buf))).
Proof.
  unfold store_data, put. destruct (queues s !! socket) eqn:E; fields.
  - rewrite lookup_insert_eq. destruct (arr_write _ _ _); [|done]. cbn. unfold set_queue. fields. by rewrite insert_insert_eq.
  - by rewrite E.
Qed.

Lemma data_buf_cur s : data_buf s socket = q_buf (cur s).
Proof. unfold data_buf, cur. by destruct (queues s !! socket). Qed.

Lemma holds_with_buf q m (l buf : list Z) :
  holds q m -> length buf = length (q_buf q) -> take (m + length l) buf = take (m + length l) body ->
  holds (with_buf q (q_buflen q) buf) m.
Proof.
  intros ((Hf & Hd & Hb) & Hhl & Hfix & Hdl & Hbuf) Hl Ht. unfold holds, queue_ok. fields. rewrite Hl.
  assert (take m buf = take m body) as E; [|by split_and!; try (done || lia)].
  apply (f_equal (take m)) in Ht. rewrite !take_take in Ht.
  by replace (m `min` (m + length l))%nat with m in Ht by lia.
Qed.

(** The outcome of a read of the body: all of it, or a longer part. *)
Definition getdata_result (s : sockbufs) (w : wire) (tl : list Z) (r : comp (option (list Z) * Z * sockbufs * wire)) : Prop :=
  exists s' w' data, steady w' /\ same_rest socket s s' /\
  ((exists tail, r = Ret (Some data, Z.of_nat (length body), s', w') /\ data = body ++ tail /\ idle s' /\ stream w' = tl) \/
   (exists m, r = Ret (Some data, Z.of_nat m, s', w') /\ (m < length body)%nat /\ reading 0 (length head) m s' /\
      stream w' = drop m body ++ tl /\ (length w' < length w)%nat)).

Lemma body_received s w w' q m l tl tl' :
  head <> [] -> holds q m -> (queues s !! socket <> None -> def_free (def_queue s)) ->
  Z.of_nat (length body) <= q_buflen q -> (m <= length body)%nat -> drop m body = l ++ tl' -> stream w' = tl' ++ tl ->
  steady w' -> (Z.of_nat (length l) < Z.of_nat (length body) - Z.of_nat m -> (length w' < length w)%nat) ->
  getdata_result s w tl
    (let* s := store_data (put s q) socket (Z.of_nat m) l in
     let n := Z.of_nat m + Z.of_nat (length l) in
     Ret (Some (data_buf s socket), n,
          if n =? Z.of_nat (length body) then SocketBuffer_complete s socket else SocketBuffer_interrupted junk s socket n, w')).
Proof.
  intros Hh Hq Hdef Hbuf Hm Hd Hs Hw Hlt.
  destruct (write_body_ok q m l tl' Hq Hd Hm Hbuf) as (buf & Ew & Hbl' & Ht).
  assert (length body = m + length l + length tl')%nat as Hbl.
  { apply (f_equal length) in Hd. rewrite length_drop, length_app in Hd. lia. }
  pose proof (holds_with_buf q m l buf Hq Hbl' Ht) as Hq'. rewrite store_data_put, Ew. cbn [mbind comp_bind]. cbn zeta.
  rewrite data_buf_cur, cur_put. fields. rewrite <- Nat2Z.inj_add. set (q2 := with_buf q (q_buflen q) buf) in *.
  destruct (Z.eqb_spec (Z.of_nat (m + length l)) (Z.of_nat (length body))) as [He|Hne].
  - destruct (complete_idle (put s q2)) as (Hi & Hsr & _); [rewrite cur_put; apply Hq'|].
    assert (tl' = []) as -> by (destruct tl'; [done|cbn in Hbl; lia]).
    do 3 eexists. split; [exact Hw|]. split; [eapply same_rest_trans; [apply same_rest_put|exact Hsr]|].
    left. exists (drop (length body) buf). split; [by rewrite He|]. split_and!; [|done|done].
    rewrite (take_ge body), (Nat2Z.inj _ _ He) in Ht by lia. by rewrite <- Ht at 1; rewrite take_drop.
  - destruct (interrupted_reading s q2 m (m + length l)) as (Hr & Hsr); [done|done|done|unfold q2; fields; lia|done|].
    do 3 eexists. split; [exact Hw|]. split; [exact Hsr|]. right. exists (m + length l)%nat.
    split; [done|]. split_and!; [lia|done| |apply Hlt; lia].
    by rewrite <- drop_drop, Hd, drop_app_length.
Qed.

Lemma getdata_ok s w m tl :
  head <> [] -> Z.of_nat (length body) <= INT_MAX -> (m < length body \/ body = [])%nat ->
  reading (length head) (length head) m s -> steady w -> stream w = drop m body ++ tl ->
  getdata_result s w tl (Socket_getdata junk s w socket (Z.of_nat (length body)) 0).
Proof.
  intros Hh Hbl Hm Hr Hw Hs. destruct (reading_holds m s Hh Hr) as (Hq & Hdef & H0). pose proof Hq as (Hqok & _).
  unfold Socket_getdata. destruct (Z.eqb_spec (Z.of_nat (length body)) 0) as [Hz|Hz].
  - destruct (complete_idle s Hqok) as (Hi & Hsr & _). assert (body = []) as Eb by (destruct body; [done|cbn in Hz; lia]).
    do 3 eexists. split; [exact Hw|]. split; [exact Hsr|]. left. eexists. rewrite Eb in Hs |- *.
    split; [done|]. split; [done|]. split; [done|]. by rewrite drop_nil in Hs.
  - assert (m < length body)%nat as Hmb by (destruct Hm as [?|E]; [done|by rewrite E in Hz]).
    destruct (grow_ok (cur s) m (Z.of_nat (length body)) Hq ltac:(lia)) as (q & Hg & Hq' & Hbuf & _).
    rewrite (getQueuedData_put s m _ q Hq H0 Hg). cbn [mbind comp_bind].
    rewrite to_int_id by (unfold is_int, INT_MIN; lia).
    destruct (recv_steady (Z.of_nat (length body) - Z.of_nat m) w Hw ltac:(lia))
      as [(l & w' & -> & Hw' & Hs' & Hl0 & Hl1 & Hlen & Hlt)|(w' & -> & Hw' & Hs' & Hlen & Hnr)].
    + assert (exists tl', drop m body = l ++ tl' /\ stream w' = tl' ++ tl) as (tl' & Hd & Hs'').
      { rewrite Hs in Hs'. exists (drop (length l) (drop m body)).
        assert (length l <= length (drop m body))%nat as Hll by (rewrite length_drop; lia).
        pose proof (f_equal (take (length l)) Hs') as Ht. rewrite take_app_le, take_app_length in Ht by done.
        pose proof (f_equal (drop (length l)) Hs') as Hd. rewrite drop_app_le, drop_app_length in Hd by done.
        split; [|done]. by rewrite <- Ht at 1; rewrite take_drop. }
      pose proof (body_received s w w' q m l tl tl' Hh Hq' Hdef Hbuf ltac:(lia) Hd Hs'' Hw' Hlt) as H.
      destruct (store_data _ _ _ _); cbn [mbind comp_bind negb] in *; exact H.
    + cbn [mbind comp_bind negb]. rewrite data_buf_cur, cur_put, (proj2 (Z.eqb_neq _ _)) by lia.
      destruct (interrupted_reading s q m m) as (Hr' & Hsr'); [done|done|apply Hq'|lia|done|].
      do 3 eexists. split; [exact Hw'|]. split; [exact Hsr'|]. right. exists m. split; [done|].
      split_and!; [lia|done|congruence|]. apply Hlen. rewrite Hs. intros [E _]%app_nil.
      apply (f_equal length) in E. rewrite length_drop in E. cbn in E. lia.
Qed.
End reading.

(** *** The factory *)

Section factory.
Context (junk socket put_rc h : Z) (body : list Z).
Context (Hsock : socket <> 0) (Hbody : Z.of_nat (length body) < 268435456).

Definition frame_head : list Z := h :: length_digits (Z.of_nat (length body)).
Definition frame : list Z := frame_head ++ body.

Definition deliver (tail : list Z) (s : sockbufs) (w : wire) : comp (option packet * Z * sockbufs * wire) :=
  let* (pack, error) := build_packet put_rc h (body ++ tail) (Z.of_nat (length body)) in Ret (pack, error, s, w).

Lemma frame_head_length : (length frame_head <= 5)%nat.
Proof.
  unfold frame_head. cbn [length]. pose proof (length_digits_length 4 (Z.of_nat (length body)) ltac:(cbn; lia) ltac:(lia)). lia.
Qed.

(** The factory is called with [k] bytes of the header and [m] of the body in
    the buffers; it delivers the packet or keeps more of it. *)
Lemma factory_ok s w k m tl :
  reading socket frame_head body 0 k m s -> (m < length body \/ body = [])%nat -> (m <> 0 -> k = length frame_head)%nat ->
  steady w -> stream w = drop k frame_head ++ drop m body ++ tl -> (k = 0%nat -> readable w) ->
  exists s' w', steady w' /\ same_rest socket s s' /\
  ((exists tail, MQTTPacket_Factory junk put_rc s w socket = deliver tail s' w' /\ idle socket s' /\ stream w' = tl) \/
   (exists k' m', MQTTPacket_Factory junk put_rc s w socket = Ret (None, TCPSOCKET_INTERRUPTED, s', w') /\
      reading socket frame_head body 0 k' m' s' /\ (m' < length body \/ body = [])%nat /\
      (m' <> 0 -> k' = length frame_head)%nat /\ (k' <> 0)%nat /\
      stream w' = drop k' frame_head ++ drop m' body ++ tl /\ (length w' < length w)%nat)).
Proof.
  intros Hr Hm Hmk Hw Hs Hready. pose proof frame_head_length as Hl. unfold MQTTPacket_Factory.
  destruct (getch_ok junk socket frame_head body s w 0 k m h (drop m body ++ tl)) as (s1 & w1 & Hw1 & Hsr1 & [(k1 & -> & Hr1 & Hs1 & Hk1 & Hl1)|(c & -> & Hr1 & Hs1 & Hk0 & Hl1)]);
    [done..| |]; cbn [mbind comp_bind].
  2:{ exists s1, w1. split; [done|]. split; [done|]. right. exists k, m. by split_and!. }
  change (TCPSOCKET_COMPLETE =? TCPSOCKET_COMPLETE) with true. cbn [negb].
  edestruct (decode_ok junk socket frame_head body 5 s1 w1 1 k1 m (drop m body ++ tl) 0 1 0 10 (Z.of_nat (length body)))
    as (s2 & w2 & Hw2 & Hsr2 & [(E & Hr2 & Hs2 & Hl2)|(k2 & v & E & Hr2 & Hs2 & Hk2 & Hl2)]);
    [done|done|done|cbn; lia|done|done|done|done|done|done|lia| |];
    unfold MQTTPacket_decode; rewrite E; cbn [mbind comp_bind].
  2:{ exists s2, w2. split; [done|]. split; [by eapply same_rest_trans|]. right. exists k2, m. split_and!; try done; [|lia].
      intros Hm0. destruct Hr2 as [? ? ? ? ? ? ? ? ? Hmk2 ? ?|]; [auto|lia]. }
  change (TCPSOCKET_COMPLETE =? TCPSOCKET_COMPLETE) with true. cbn [negb]. rewrite Z.mul_1_r, Z.add_0_l.
  destruct (getdata_ok junk socket frame_head body s2 w2 m tl) as (s3 & w3 & data & Hw3 & Hsr3 & H);
    [by unfold frame_head|unfold INT_MAX; lia|done|done|done|done|].
  exists s3, w3. split; [done|]. split; [exact (same_rest_trans _ _ _ _ Hsr1 (same_rest_trans _ _ _ _ Hsr2 Hsr3))|].
  destruct H as [(tail & -> & -> & Hi & Hs3)|(m' & -> & Hm' & Hr3 & Hs3 & Hl3)]; cbn [mbind comp_bind].
  - left. exists tail. rewrite Z.eqb_refl. by cbn [negb].
  - right. rewrite (proj2 (Z.eqb_neq _ _)) by lia. cbn [negb]. exists (length frame_head), m'.
    rewrite drop_all. split_and!; try done; [by left|lia].
Qed.

Lemma frame_receive_ok fuel s w k m tl :
  reading socket frame_head body 0 k m s -> (m < length body \/ body = [])%nat -> (m <> 0 -> k = length frame_head)%nat ->
  steady w -> stream w = drop k frame_head ++ drop m body ++ tl -> (k = 0%nat -> readable w) -> (length w < fuel)%nat ->
  (forall tail p e, build_packet put_rc h (body ++ tail) (Z.of_nat (length body)) = Ret (p, e) -> e <> TCPSOCKET_INTERRUPTED) ->
  exists tail s' w', receive junk fuel put_rc s w socket = deliver tail s' w' /\
    steady w' /\ same_rest socket s s' /\ idle socket s' /\ stream w' = tl.
Proof.
  intros Hr Hm Hmk Hw Hs Hready Hf Herr. revert s w k m Hr Hm Hmk Hw Hs Hready Hf.
  induction fuel as [|fuel IH]; intros s w k m Hr Hm Hmk Hw Hs Hready Hf; [lia|]. cbn [receive].
  destruct (factory_ok s w k m tl Hr Hm Hmk Hw Hs Hready) as (s1 & w1 & Hw1 & Hsr1 & [(tail & -> & Hi & Hs1)|(k' & m' & -> & Hr1 & Hm1 & Hmk1 & Hk1 & Hs1 & Hl1)]).
  - exists tail, s1, w1. split; [|by split_and!]. unfold deliver.
    destruct (build_packet put_rc h (body ++ tail) (Z.of_nat (length body))) as [[p e]|f] eqn:E; cbn [mbind comp_bind]; [|done].
    by rewrite (proj2 (Z.eqb_neq _ _)) by (by eapply Herr).
  - cbn [mbind comp_bind]. rewrite Z.eqb_refl.
    destruct (IH s1 w1 k' m') as (tail & s2 & w2 & -> & Hw2 & Hsr2 & Hi2 & Hs2); [done..|lia|].
    exists tail, s2, w2. split_and!; try done. by eapply same_rest_trans.
Qed.
End factory.

(** ** Writing packets, however the kernel takes them *)

(** What is left to write of a packet that was cut short. *)
Definition unsent (s : sockets) (socket : Z) : list Z :=
  match writes (bufs s) !! socket with
  | Some pw => drop (Z.to_nat (pw_bytes pw)) (mjoin (pw_iovecs pw))
  | None => []
  end.

(** The two records of pending writes agree. *)
Definition writes_ok (s : sockets) (socket : Z) : Prop :=
  match writes (bufs s) !! socket with
  | Some pw => socket ∈ write_pending s /\ pw_total pw = Z.of_nat (length (mjoin (pw_iovecs pw))) /\
               0 <= pw_bytes pw < pw_total pw
  | None => socket ∉ write_pending s
  end.

Lemma remaining_all bytes c iovecs : bytes <= c -> remaining_iovecs bytes c iovecs = iovecs.
Proof.
  revert c. induction iovecs as [|v iovecs IH]; intros c Hc; [done|]. cbn [remaining_iovecs].
  rewrite (proj2 (Z.leb_le _ _)) by done. f_equal. apply IH. lia.
Qed.

(** A continued write offers the next bytes, in order. *)
Lemma remaining_prefix bytes c iovecs :
  c <= bytes -> exists t, drop (Z.to_nat (bytes - c)) (mjoin iovecs) = mjoin (remaining_iovecs bytes c iovecs) ++ t.
Proof.
  revert c. induction iovecs as [|v iovecs IH]; intros c Hc; [exists []; cbn; by rewrite drop_nil|].
  change (mjoin (v :: iovecs)) with (v ++ mjoin iovecs). cbn [remaining_iovecs].
  destruct (Z.leb_spec bytes c).
  - exists []. replace bytes with c by lia. rewrite Z.sub_diag, app_nil_r, remaining_all by lia. done.
  - destruct (Z.ltb_spec bytes (c + Z.of_nat (length v))).
    + exists (mjoin iovecs). rewrite drop_app_le by lia.
      change (mjoin [drop (Z.to_nat (bytes - c)) v]) with (drop (Z.to_nat (bytes - c)) v ++ []). by rewrite app_nil_r.
    + destruct (IH (c + Z.of_nat (length v))) as [t Ht]; [lia|]. exists t. rewrite <- Ht, drop_app_ge by lia. f_equal. lia.
Qed.

Lemma writev_ok iovecs a rc bytes out :
  a <> WriteFails -> Socket_writev iovecs a = (rc, bytes, out) ->
  rc <> SOCKET_ERROR /\ bytes = Z.of_nat (length out) /\ exists t, mjoin iovecs = out ++ t.
Proof.
  unfold Socket_writev, SOCKET_ERROR, TCPSOCKET_INTERRUPTED.
  destruct a as [n| |]; [intros _ [= <- <- <-]|intros _ [= <- <- <-]|done].
  - split_and!; [lia|done|]. exists (drop n (mjoin iovecs)). by rewrite take_drop.
  - split_and!; [done|done|]. by exists (mjoin iovecs).
Qed.

(** A packet is taken as a whole, or refused while another is unfinished. *)
Lemma putdatas_ok s socket iovecs a :
  writes_ok s socket -> (length iovecs <= 5)%nat -> a <> WriteFails ->
  exists rc out s', Socket_putdatas s socket iovecs a = Ret (rc, out, s') /\ writes_ok s' socket /\
  ((rc = SOCKET_ERROR /\ out = [] /\ s' = s /\ writes (bufs s) !! socket <> None) \/
   (rc <> SOCKET_ERROR /\ unsent s socket = [] /\ out ++ unsent s' socket = mjoin iovecs)).
Proof.
  intros Hok Hl Ha. unfold Socket_putdatas, Socket_noPendingWrites.
  unfold writes_ok in Hok. destruct (writes (bufs s) !! socket) as [pw|] eqn:Ew.
  - destruct Hok as (Hin & Ht & Hb). rewrite bool_decide_eq_false_2 by tauto. cbn [negb].
    do 3 eexists. split; [done|]. unfold writes_ok. rewrite Ew. split; [done|]. left. split_and!; done.
  - rewrite bool_decide_eq_true_2 by done. cbn [negb]. rewrite (proj2 (Z.ltb_ge 5 _)) by lia.
    destruct (Socket_writev iovecs a) as [[rc bytes] out] eqn:Ev.
    destruct (writev_ok _ _ _ _ _ Ha Ev) as (Hrc & -> & t & Et).
    rewrite (proj2 (Z.eqb_neq _ _)) by done. rewrite Et.
    assert (unsent s socket = []) as Hu by (unfold unsent; by rewrite Ew).
    destruct (Z.eqb_spec (Z.of_nat (length out)) (Z.of_nat (length (out ++ t)))) as [He|Hne]; do 3 eexists; (split; [done|]).
    + unfold writes_ok. rewrite Ew. split; [done|]. right. rewrite Hu, app_nil_r. rewrite length_app in He.
      destruct t; [|cbn in He; lia]. by rewrite app_nil_r.
    + unfold writes_ok, unsent. cbn [bufs writes SocketBuffer_pendingWrite set_writes write_pending].
      rewrite lookup_insert_eq. cbn [pw_total pw_bytes pw_iovecs]. rewrite Et, Nat2Z.id, drop_app_length, length_app in *.
      split; [|right; by split_and!]. split_and!; [set_solver|done|lia|lia].
Qed.

(** A continued write sends the next bytes and ends when all are sent. *)
Lemma continue_ok s socket a :
  writes_ok s socket -> socket ∈ write_pending s -> a <> WriteFails ->
  exists rc out s', continueWrites_body s socket a = Ret (rc, out, s') /\ writes_ok s' socket /\
    out ++ unsent s' socket = unsent s socket.
Proof.
  intros Hok Hin Ha. unfold writes_ok in Hok.
  destruct (writes (bufs s) !! socket) as [pw|] eqn:Ew; [|done]. destruct Hok as (_ & Ht & Hb).
  unfold continueWrites_body, Socket_continueWrite, SocketBuffer_getWrite. rewrite Ew.
  destruct (remaining_prefix (pw_bytes pw) 0 (pw_iovecs pw)) as [t Et]; [lia|]. rewrite Z.sub_0_r in Et.
  destruct (Socket_writev _ a) as [[rc bytes] out] eqn:Ev.
  destruct (writev_ok _ _ _ _ _ Ha Ev) as (Hrc & -> & t' & Et'). rewrite Et', <- app_assoc in Et.
  rewrite (proj2 (Z.eqb_neq _ _)) by done. cbn [mbind comp_bind pw_bytes pw_total pw_iovecs].
  assert (length out + length (t' ++ t) = length (mjoin (pw_iovecs pw)) - Z.to_nat (pw_bytes pw))%nat as Hlen
    by (rewrite <- length_drop, Et, !length_app; lia).
  assert (unsent s socket = out ++ t' ++ t) as Hu by (unfold unsent; by rewrite Ew).
  destruct (Z.eqb_spec (pw_bytes pw + Z.of_nat (length out)) (pw_total pw)) as [He|Hne]; do 3 eexists; (split; [done|]); rewrite Hu.
  - unfold writes_ok, unsent. cbn [bufs writes write_pending SocketBuffer_writeComplete set_writes]. rewrite lookup_delete_eq.
    split; [rewrite list_elem_of_filter; tauto|]. destruct (t' ++ t); [done|cbn [length] in Hlen; lia].
  - unfold writes_ok, unsent. cbn [bufs writes write_pending set_writes]. rewrite lookup_insert_eq.
    cbn [pw_bytes pw_total pw_iovecs]. split; [split_and!; [done|done|lia|lia]|]. f_equal.
    rewrite Z2Nat.inj_add, Nat2Z.id, <- drop_drop, Et, drop_app_length by lia. done.
Qed.

(** ** From one end of a connection to the other *)

Record send := { snd_pub : Publish; snd_dup : Z; snd_qos : Z; snd_retained : Z }.

Definition snd_header (d : send) : Z := header_bits PUBLISH (snd_dup d) (snd_qos d) (snd_retained d).
Definition snd_body (d : send) : list Z := publish_body (snd_pub d) (snd_qos d).
Definition snd_frame (d : send) : list Z := frame (snd_header d) (snd_body d).

Definition send_ok (d : send) : Prop :=
  publish_ok (snd_pub d) /\ 0 <= snd_qos d < 3 /\ Z.of_nat (length (snd_body d)) < 268435456.

(** What the client does to a socket: it publishes, or it continues a write
    when select finds the socket writable. *)
Inductive write_op :=
  | Send (d : send) (a : written)
  | Continue (a : written).

Definition write_op_ok (o : write_op) : Prop :=
  match o with
  | Send d a => send_ok d /\ a <> WriteFails
  | Continue a => a <> WriteFails
  end.

(** The bytes written, the publications accepted, and the state. *)
Fixpoint write_run (junk socket : Z) (ops : list write_op) (s : sockets) : comp (list Z * list send * sockets) :=
  match ops with
  | [] => Ret ([], [], s)
  | Send d a :: ops =>
      let* iovecs := MQTTPacket_send_publish junk (snd_pub d) (snd_dup d) (snd_qos d) (snd_retained d) in
      let* (rc, out, s) := Socket_putdatas s socket iovecs a in
      let* (out', accepted, s) := write_run junk socket ops s in
      Ret (out ++ out', if rc =? SOCKET_ERROR then accepted else d :: accepted, s)
  | Continue a :: ops =>
      if Socket_noPendingWrites s socket then write_run junk socket ops s
      else
        let* (_, out, s) := continueWrites_body s socket a in
        let* (out', accepted, s) := write_run junk socket ops s in
        Ret (out ++ out', accepted, s)
  end.

(** [select] returns when there is something to read. *)
Fixpoint wait_readable (w : wire) : wire :=
  match w with
  | Arrived [] :: w | WouldBlock :: w => wait_readable w
  | _ => w
  end.

Fixpoint receive_all (junk : Z) (n : nat) (put_rc : Z) (s : sockbufs) (w : wire) (socket : Z)
  : comp (list (option packet) * sockbufs * wire) :=
  match n with
  | O => Ret ([], s, w)
  | S n =>
      let w := wait_readable w in
      let* (pack, _, s, w) := receive junk (S (length w)) put_rc s w socket in
      let* (packs, s, w) := receive_all junk n put_rc s w socket in
      Ret (pack :: packs, s, w)
  end.

(** The publication that arrives is the one sent. *)
Definition received (d : send) (o : option packet) : Prop :=
  exists p, o = Some (Published p) /\ pub_header p = snd_header d /\
    topic p = topic (snd_pub d) /\ topiclen p = strlen (topic (snd_pub d)) /\
    msgId p = (if 0 <? snd_qos d then msgId (snd_pub d) else 0) /\
    payloadlen p = payloadlen (snd_pub d) /\
    take (Z.to_nat (payloadlen p)) (payload p) = take (Z.to_nat (payloadlen (snd_pub d))) (payload (snd_pub d)).

Lemma wait_readable_ok w :
  steady w -> stream w <> [] -> readable (wait_readable w) /\ steady (wait_readable w) /\ stream (wait_readable w) = stream w.
Proof.
  intros Hw Hs. induction Hw as [|a w Ha Hw IH]; [done|].
  destruct a as [[|b l]| | |]; cbn [wait_readable stream app] in *; [auto| |auto|done..].
  split_and!; [by do 3 eexists|by constructor|done].
Qed.

Lemma build_publish put_rc d tail :
  send_ok d ->
  exists o e, build_packet put_rc (snd_header d) (snd_body d ++ tail) (Z.of_nat (length (snd_body d))) = Ret (o, e) /\
    received d o /\ (e = TCPSOCKET_COMPLETE \/ e = put_rc).
Proof.
  intros (Hp & Hq & Hl). unfold build_packet.
  destruct (header_bits_fields PUBLISH (snd_dup d) (snd_qos d) (snd_retained d)) as (_ & Ht & _ & Hqos & _).
  fold (snd_header d) in *. rewrite Ht. change (new_packets (PUBLISH mod 16)) with (Some publish_packet). cbn iota.
  unfold publish_packet, snd_body. rewrite Z.mod_small in Hqos by lia.
  rewrite (publish_reads (snd_header d) (snd_pub d) (snd_qos d) tail) by done. cbn [mbind comp_bind].
  do 2 eexists. split; [done|]. split; [|destruct (_ && _); auto].
  eexists. split; [done|]. cbn [pub_header topic topiclen msgId payloadlen payload]. split_and!; try done.
  destruct Hp as (_ & _ & Hpl & _). apply take_app_length_eq. rewrite length_take. lia.
Qed.

Lemma receive_all_ok junk put_rc socket ds s w tl :
  Forall send_ok ds -> socket <> 0 -> put_rc <> TCPSOCKET_INTERRUPTED -> idle socket s ->
  steady w -> stream w = mjoin (snd_frame <$> ds) ++ tl ->
  exists ps s' w', receive_all junk (length ds) put_rc s w socket = Ret (ps, s', w') /\
    Forall2 received ds ps /\ idle socket s' /\ stream w' = tl.
Proof.
  intros Hds Hsock Hput. revert s w. induction Hds as [|d ds Hd Hds IH]; intros s w Hi Hw Hs.
  - exists [], s, w. by split_and!.
  - change (mjoin (snd_frame <$> d :: ds)) with (snd_frame d ++ mjoin (snd_frame <$> ds)) in Hs. rewrite <- app_assoc in Hs.
    destruct (wait_readable_ok w Hw) as (Hr & Hw1 & Hs1); [by rewrite Hs|]. rewrite Hs in Hs1.
    cbn [length receive_all]. pose proof Hd as (_ & _ & Hl).
    destruct (frame_receive_ok junk socket put_rc (snd_header d) (snd_body d) Hsock Hl (S (length (wait_readable w))) s
                (wait_readable w) 0 0 (mjoin (snd_frame <$> ds) ++ tl)) as (tail & s' & w' & -> & Hw' & _ & Hi' & Hs').
    + by apply idle_reading.
    + destruct (snd_body d); [by right|left; cbn; lia].
    + done.
    + done.
    + rewrite Hs1. unfold snd_frame, frame. by rewrite <- app_assoc, drop_0.
    + done.
    + lia.
    + intros tail p e E. destruct (build_publish put_rc d tail Hd) as (o' & e' & E' & _ & He). rewrite E' in E.
      injection E as _ <-. by destruct He as [-> | ->].
    + unfold deliver. destruct (build_publish put_rc d tail Hd) as (o & e & -> & Ho & _). cbn [mbind comp_bind].
      destruct (IH s' w' Hi' Hw' Hs') as (ps & s2 & w2 & -> & Hps & Hi2 & Hs2). cbn [mbind comp_bind].
      exists (o :: ps), s2, w2. split_and!; [done|by constructor|done|done].
Qed.

Lemma putdatas_send junk s socket d a :
  writes_ok s socket -> send_ok d -> a <> WriteFails ->
  exists rc out s',
    (let* iovecs := MQTTPacket_send_publish junk (snd_pub d) (snd_dup d) (snd_qos d) (snd_retained d) in
     Socket_putdatas s socket iovecs a) = Ret (rc, out, s') /\ writes_ok s' socket /\
    unsent s socket ++ (if rc =? SOCKET_ERROR then [] else snd_frame d) = out ++ unsent s' socket.
Proof.
  intros Hok (Hp & _ & _) Ha.
  destruct (send_publish_ok junk (snd_pub d) (snd_dup d) (snd_qos d) (snd_retained d) Hp) as (b & -> & Hb & Em).
  cbn [mbind comp_bind].
  destruct (putdatas_ok s socket b a Hok Hb Ha) as (rc & out & s' & -> & Hok' & H). do 3 eexists. split; [done|]. split; [done|].
  destruct H as [(-> & -> & -> & _)|(Hrc & Hu & Ho)].
  - by rewrite Z.eqb_refl, app_nil_r.
  - rewrite (proj2 (Z.eqb_neq _ _)), Hu, Ho, Em by done. done.
Qed.

(** The bytes written and those still to write are the accepted packets, one
    behind the other. *)
Lemma write_run_ok junk socket ops s :
  Forall write_op_ok ops -> writes_ok s socket ->
  exists out accepted s', write_run junk socket ops s = Ret (out, accepted, s') /\ writes_ok s' socket /\
    Forall send_ok accepted /\ unsent s socket ++ mjoin (snd_frame <$> accepted) = out ++ unsent s' socket.
Proof.
  intros Hops. revert s. induction Hops as [|o ops Ho Hops IH]; intros s Hok.
  - exists [], [], s. split_and!; [done|done|constructor|]. cbn. by rewrite app_nil_r.
  - destruct o as [d a|a]; cbn [write_run]; cbn [write_op_ok] in Ho.
    + destruct Ho as [Hd Ha].
      destruct (putdatas_send junk s socket d a Hok Hd Ha) as (rc & out & s1 & E & Hok1 & Hu).
      destruct (IH s1 Hok1) as (out' & acc & s2 & E2 & Hok2 & Hacc & Hu2).
      destruct (MQTTPacket_send_publish _ _ _ _ _) as [b|f]; [|done]. cbn [mbind comp_bind] in *. rewrite E.
      cbn [mbind comp_bind]. rewrite E2. cbn [mbind comp_bind]. do 3 eexists. split; [done|]. split; [done|].
      rewrite <- app_assoc, <- Hu2, app_assoc, <- Hu. destruct (rc =? SOCKET_ERROR).
      * by rewrite app_nil_r.
      * split; [by constructor|]. change (mjoin (snd_frame <$> d :: acc)) with (snd_frame d ++ mjoin (snd_frame <$> acc)).
        by rewrite <- app_assoc.
    + unfold Socket_noPendingWrites. case_bool_decide as Hin; [by apply IH|].
      destruct (continue_ok s socket a Hok) as (rc & out & s1 & -> & Hok1 & Hu); [by destruct (decide (socket ∈ write_pending s))|done|].
      cbn [mbind comp_bind]. destruct (IH s1 Hok1) as (out' & acc & s2 & -> & Hok2 & Hacc & Hu2). cbn [mbind comp_bind].
      do 3 eexists. split; [done|]. split_and!; [done|done|]. by rewrite <- app_assoc, <- Hu2, app_assoc, Hu.
Qed.

(** C11: publications written to a socket, with whatever the kernel takes of
    each write, and read at the other end, in whatever pieces they arrive,
    come out as they went in: the same topics, payloads, flags and message ids,
    each once and in order. *)
Theorem publications_cross junk junk' socket socket' put_rc ops s r w :
  Forall write_op_ok ops -> writes_ok s socket -> unsent s socket = [] ->
  idle socket' r -> socket' <> 0 -> put_rc <> TCPSOCKET_INTERRUPTED -> steady w ->
  exists out accepted s', write_run junk socket ops s = Ret (out, accepted, s') /\
    (unsent s' socket = [] -> stream w = out ->
     exists packs r' w', receive_all junk' (length accepted) put_rc r w socket' = Ret (packs, r', w') /\
       Forall2 received accepted packs /\ idle socket' r' /\ stream w' = []).
Proof.
  intros Hops Hok Hu Hi Hsock Hput Hw.
  destruct (write_run_ok junk socket ops s Hops Hok) as (out & acc & s' & -> & Hok' & Hacc & E).
  do 3 eexists. split; [done|]. intros Hu' <-. rewrite Hu, Hu', app_nil_r in E. cbn [app] in E.
  apply receive_all_ok; try done. by rewrite E, app_nil_r.
Qed.

(** ** An uninitialised header length

    A default queue made after an interruption has no [headerlen] assigned.  If
    a read finds nothing before the first byte of a packet, the queue goes to
    the socket as it is, and the next call reads a header that was never
    received. *)
Lemma stale_header_read junk socket :
  0 < junk ->
  let s := SocketBuffer_initialize junk in
  exists s', Socket_getch junk s [WouldBlock] socket = Ret (TCPSOCKET_INTERRUPTED, 0, s', []) /\
    exists s'', forall w, Socket_getch junk s' w socket = Ret (TCPSOCKET_COMPLETE, junk, s'', w).
Proof.
  intros Hj. cbn zeta. exists (SocketBuffer_interrupted junk (SocketBuffer_initialize junk) socket 0). split; [done|].
  eexists. intros w. unfold Socket_getch, SocketBuffer_getQueuedChar, SocketBuffer_interrupted, SocketBuffer_initialize.
  fields. rewrite lookup_empty. fields. rewrite lookup_insert_eq. fields. cbn [SocketBuffer_newDefQ q_headerlen].
  rewrite (proj2 (Z.ltb_lt 0 junk)) by done. done.
Qed.

Definition demo_send : send :=
  {| snd_pub := {| pub_header := 0; topic := "a"; topiclen := 1; msgId := 7; payload := [104; 105]; payloadlen := 2 |};
     snd_dup := 0; snd_qos := 1; snd_retained := 0 |}.
Definition demo_sockets : sockets := {| bufs := SocketBuffer_initialize 0; write_pending := [] |}.
Definition demo_ops : list write_op := [Send demo_send (Wrote 3); Send demo_send WriteBlocks; Continue (Wrote 1); Continue (Wrote 9); Continue (Wrote 9); Continue (Wrote 9)].
Definition demo_wire : wire := [Arrived [50]; WouldBlock; Arrived [7; 0; 1; 97; 0]; WouldBlock; Arrived [7; 104; 105]].

Lemma publications_cross_witness :
  exists packs r' w', receive_all 9 1 0 (SocketBuffer_initialize 0) demo_wire 5 = Ret (packs, r', w') /\
    Forall2 received [demo_send] packs.
Proof.
  destruct (publications_cross 0 9 5 5 0 demo_ops demo_sockets (SocketBuffer_initialize 0) demo_wire)
    as (out & acc & s' & E & H).
  - assert (send_ok demo_send) by (unfold send_ok, publish_ok; split_and!; vm_compute; congruence).
    unfold demo_ops. repeat (apply Forall_cons_2; [first [by split|done]|]). apply Forall_nil_2.
  - exact (not_elem_of_nil 5).
  - done.
  - split_and!; try done; vm_compute; congruence.
  - done.
  - done.
  - repeat constructor.
  - assert (write_run 0 5 demo_ops demo_sockets = Ret ([50; 7; 0; 1; 97; 0; 7; 104; 105], [demo_send],
      {| bufs := set_writes (SocketBuffer_initialize 0) ∅; write_pending := [] |})) as E' by (vm_compute; reflexivity).
    rewrite E' in E. injection E as <- <- <-.
    destruct (H eq_refl eq_refl) as (packs & r' & w' & Hr & Hf & _). exists packs, r', w'. split; [exact Hr|exact Hf].
Defined.
