(* ===== verification/LinkedList.v ===== *)
(** * The linked list of the MQTT client (mqtt-c/source/LinkedList.c)

    The same kind of store of nodes as in DList.v, with a cursor [current] in
    the list, which searches start from and removals must not leave dangling.
    A content is what [void *content] points to; the callback of a search is
    applied to the content sought. *)

From S2P Require Import Prelude DList.

Local Open Scope Z_scope.

Section linked_list.
Context {V : Type} `{EqDecision V}.
Implicit Types (m : mem V).

Record List := { first : ptr; last : ptr; current : ptr; count : Z; size : Z }.

Definition ListZero : List := {| first := None; last := None; current := None; count := 0; size := 0 |}.
Definition ListInitialize : List := ListZero.

Definition with_first (l : List) (p : ptr) : List :=
  {| first := p; last := last l; current := current l; count := count l; size := size l |}.
Definition with_last (l : List) (p : ptr) : List :=
  {| first := first l; last := p; current := current l; count := count l; size := size l |}.
Definition with_current (l : List) (p : ptr) : List :=
  {| first := first l; last := last l; current := p; count := count l; size := size l |}.
Definition with_count (l : List) (n : Z) : List :=
  {| first := first l; last := last l; current := current l; count := n; size := size l |}.
Definition with_size (l : List) (n : Z) : List :=
  {| first := first l; last := last l; current := current l; count := count l; size := n |}.

Definition set_val (v : V) (nd : list_node_t V) : list_node_t V := {| prev := prev nd; next := next nd; val := v |}.

Definition free_content m (v : V) : mem V := {| nodes := nodes m; freed := freed m ++ [v] |}.

(** ** Adding *)

Definition ListAppendNoMalloc m (aList : List) (content : V) (newel : ptr) (sz : Z) : comp (mem V * List) :=
  let* m := store m newel (set_val content) in
  let* m := store m newel (set_next None) in
  let* m := store m newel (set_prev (last aList)) in
  let* (m, aList) :=
    match first aList with
    | None => Ret (m, with_first aList newel)
    | Some _ => let* m := store m (last aList) (set_next newel) in Ret (m, aList)
    end in
  let aList := with_last aList newel in
  Ret (m, with_size (with_count aList (to_int (count aList + 1))) (to_ulong (size aList + sz))).

Definition ListAppend m (aList : List) (content : V) (sz : Z) : comp (mem V * List) :=
  let (m, newel) := list_node_new m content in ListAppendNoMalloc m aList content newel sz.

Definition ListInsert m (aList : List) (content : V) (sz : Z) (index : ptr) : comp (mem V * List) :=
  let (m, newel) := list_node_new m content in
  match index with
  | None => ListAppendNoMalloc m aList content newel sz
  | Some _ =>
      let* m := store m newel (set_val content) in
      let* m := store m newel (set_next index) in
      let* nd := load m index in
      let* m := store m newel (set_prev (prev nd)) in
      let* m := store m index (set_prev newel) in
      let* nd := load m newel in
      let* (m, aList) :=
        match prev nd with
        | Some _ => let* m := store m (prev nd) (set_next newel) in Ret (m, aList)
        | None => Ret (m, with_first aList newel)
        end in
      Ret (m, with_size (with_count aList (to_int (count aList + 1))) (to_ulong (size aList + sz)))
  end.

(** ** Walking and finding *)

Definition ListNextElement m (aList : List) (pos : ptr) : comp ptr :=
  match pos with
  | None => Ret (first aList)
  | Some _ => let* nd := load m pos in Ret (next nd)
  end.

Definition ListPrevElement m (aList : List) (pos : ptr) : comp ptr :=
  match pos with
  | None => Ret (last aList)
  | Some _ => let* nd := load m pos in Ret (prev nd)
  end.

(** The comparison with [content]: of the pointers without a callback. *)
Definition matches (callback : option (V -> V -> bool)) (content v : V) : bool :=
  match callback with
  | None => bool_decide (v = content)
  | Some f => f v content
  end.

Fixpoint find_loop (fuel : nat) m (aList : List) (hit : V -> bool) (pos : ptr) : comp ptr :=
  match fuel with
  | O => Err OutOfFuel
  | S fuel =>
      let* pos := ListNextElement m aList pos in
      match pos with
      | None => Ret None
      | Some _ =>
          let* nd := load m pos in
          if hit (val nd) then Ret pos else find_loop fuel m aList hit pos
      end
  end.

(** The element, and the list with its cursor moved. *)
Definition ListFindItem (fuel : nat) m (aList : List) (content : V) (callback : option (V -> V -> bool)) : comp (ptr * List) :=
  let hit := matches callback content in
  let* here :=
    match current aList with
    | None => Ret false
    | Some _ => let* nd := load m (current aList) in Ret (hit (val nd))
    end in
  if (here : bool) then Ret (current aList, aList)
  else
    let* rc := find_loop fuel m aList hit None in
    Ret (rc, match rc with Some _ => with_current aList rc | None => aList end).

Definition ListFind (fuel : nat) m (aList : List) (content : V) : comp (ptr * List) :=
  ListFindItem fuel m aList content None.

(** ** Removing *)

Definition ListUnlink (fuel : nat) m (aList : List) (content : V) (callback : option (V -> V -> bool)) (freeContent : bool)
  : comp (bool * mem V * List) :=
  let saved := current aList in
  let* (rc, aList) := ListFindItem fuel m aList content callback in
  match rc with
  | None => Ret (false, m, aList)
  | Some _ =>
      let cur := current aList in
      let* nd := load m cur in
      let* (m, aList) :=
        match prev nd with
        | None => Ret (m, with_first aList (next nd))
        | Some _ => let* m := store m (prev nd) (set_next (next nd)) in Ret (m, aList)
        end in
      let* nd := load m cur in
      let* (m, aList) :=
        match next nd with
        | None => Ret (m, with_last aList (prev nd))
        | Some _ => let* m := store m (next nd) (set_prev (prev nd)) in Ret (m, aList)
        end in
      let* nd := load m cur in
      let m := if freeContent then free_content m (val nd) else m in
      let* m := free_node m cur in
      let aList := with_current aList (if bool_decide (saved = cur) then next nd else saved) in
      Ret (true, m, with_count aList (to_int (count aList - 1)))
  end.

Definition ListDetach (fuel : nat) m (aList : List) (content : V) := ListUnlink fuel m aList content None false.
Definition ListRemove (fuel : nat) m (aList : List) (content : V) := ListUnlink fuel m aList content None true.
Definition ListDetachItem (fuel : nat) m (aList : List) (content : V) (callback : option (V -> V -> bool)) :=
  ListUnlink fuel m aList content callback false.
Definition ListRemoveItem (fuel : nat) m (aList : List) (content : V) (callback : option (V -> V -> bool)) :=
  ListUnlink fuel m aList content callback true.

Definition ListDetachHead m (aList : List) : comp (option V * mem V * List) :=
  if 0 <? count aList then
    let fst := first aList in
    let* nd := load m fst in
    let aList := if bool_decide (current aList = fst) then with_current aList (next nd) else aList in
    let aList := if bool_decide (last aList = fst) then with_last aList None else aList in
    let aList := with_first aList (next nd) in
    let* m := match first aList with
              | Some _ => store m (first aList) (set_prev None)
              | None => Ret m
              end in
    let* m := free_node m fst in
    Ret (Some (val nd), m, with_count aList (to_int (count aList - 1)))
  else Ret (None, m, aList).

Definition ListRemoveHead m (aList : List) : comp (mem V * List) :=
  let* (content, m, aList) := ListDetachHead m aList in
  Ret (match content with Some v => free_content m v | None => m end, aList).

Definition ListPopTail m (aList : List) : comp (option V * mem V * List) :=
  if 0 <? count aList then
    let lst := last aList in
    let* nd := load m lst in
    let aList := if bool_decide (current aList = lst) then with_current aList (prev nd) else aList in
    let aList := if bool_decide (first aList = lst) then with_first aList None else aList in
    let aList := with_last aList (prev nd) in
    let* m := match last aList with
              | Some _ => store m (last aList) (set_next None)
              | None => Ret m
              end in
    let* m := free_node m lst in
    Ret (Some (val nd), m, with_count aList (to_int (count aList - 1)))
  else Ret (None, m, aList).

Fixpoint empty_loop (fuel : nat) m (fst : ptr) : comp (mem V) :=
  match fst with
  | None => Ret m
  | Some _ =>
      match fuel with
      | O => Err OutOfFuel
      | S fuel =>
          let* nd := load m fst in
          let m := free_content m (val nd) in
          let* m := free_node m fst in
          empty_loop fuel m (next nd)
      end
  end.

Definition ListEmpty (fuel : nat) m (aList : List) : comp (mem V * List) :=
  let* m := empty_loop fuel m (first aList) in
  Ret (m, {| first := None; last := None; current := None; count := 0; size := 0 |}).

(** ** Representation: a sequence with a cursor that never dangles *)

Record mqlist m (l : List) (xs : list (loc * V)) : Prop := {
  ml_linked : linked (nodes m) None xs None;
  ml_nodup : NoDup xs.*1;
  ml_first : first l = first_or xs None;
  ml_last : last l = last_or None xs;
  ml_count : count l = Z.of_nat (length xs);
  ml_current : forall c, current l = Some c -> c ∈ xs.*1
}.
End linked_list.

Section linked_list_facts.
Context {V : Type} `{EqDecision V}.
Implicit Types (m : mem V) (xs ys zs : list (loc * V)) (n : loc) (v : V) (hit : V -> bool).

(** *** Finding *)

Lemma next_element m l ys zs : mqlist m l (ys ++ zs) -> ListNextElement m l (last_or None ys) = Ret (first_or zs None).
Proof.
  intros [Hk _ Hf _ _ _]. destruct ys as [|[t w] ys _] using rev_ind; [by unfold ListNextElement; cbn; rewrite Hf|].
  rewrite last_or_app. cbn [last_or ListNextElement]. rewrite <- app_assoc in Hk. cbn [app] in Hk.
  by rewrite (load_Some _ _ _ (linked_lookup _ _ _ _ _ _ _ Hk)).
Qed.

Lemma find_loop_ok fuel m l hit ys zs :
  mqlist m l (ys ++ zs) -> (length zs < fuel)%nat ->
  find_loop fuel m l hit (last_or None ys) = Ret (fst <$> List.find (fun x => hit x.2) zs).
Proof.
  revert ys zs. induction fuel as [|fuel IH]; intros ys zs Hl Hf; [lia|]. cbn [find_loop].
  rewrite (next_element m l ys zs Hl). cbn [mbind comp_bind]. destruct zs as [|[n v] zs]; [done|].
  cbn [first_or List.find snd length] in *. pose proof (ml_linked _ _ _ Hl) as Hk.
  rewrite (load_Some _ _ _ (linked_lookup _ _ _ _ _ _ _ Hk)). cbn [mbind comp_bind val].
  destruct (hit v); [done|]. specialize (IH (ys ++ [(n, v)]) zs). rewrite last_or_app in IH. cbn [last_or] in IH.
  apply IH; [|lia]. by rewrite <- app_assoc.
Qed.

(** What a search promises: an element that matches, the one under the cursor
    if that matches and else the first, or none. *)
Definition find_result (l : List) xs hit (r : ptr * List) : Prop :=
  (exists l1 n v l2, xs = l1 ++ (n, v) :: l2 /\ hit v = true /\ r = (Some n, with_current l (Some n)) /\
     (current l = Some n \/ Forall (fun x => hit x.2 = false) l1)) \/
  (Forall (fun x => hit x.2 = false) xs /\ r = (None, l)).

Lemma find_split hit xs :
  match List.find (fun x => hit x.2) xs with
  | Some (n, v) => exists l1 l2, xs = l1 ++ (n, v) :: l2 /\ hit v = true /\ Forall (fun x => hit x.2 = false) l1
  | None => Forall (fun x => hit x.2 = false) xs
  end.
Proof.
  induction xs as [|[n v] xs IH]; [constructor|]. cbn [List.find snd]. destruct (hit v) eqn:Hv.
  - exists [], xs. by split_and!.
  - destruct (List.find _ xs) as [[n' v']|]; [|by constructor].
    destruct IH as (l1 & l2 & -> & ? & ?). exists ((n, v) :: l1), l2. split_and!; [done|done|by constructor].
Qed.

Lemma find_item_ok fuel m l xs content callback :
  mqlist m l xs -> (length xs < fuel)%nat ->
  exists r, ListFindItem fuel m l content callback = Ret r /\ find_result l xs (matches callback content) r.
Proof.
  intros Hl Hf. unfold ListFindItem. set (hit := matches callback content).
  assert (exists r, (let* rc := find_loop fuel m l hit None in
            Ret (rc, match rc with Some _ => with_current l rc | None => l end)) = Ret r /\
          find_result l xs hit r) as Hscan.
  { rewrite (find_loop_ok fuel m l hit [] xs Hl Hf : find_loop fuel m l hit None = _). cbn [mbind comp_bind]. pose proof (find_split hit xs) as Hs.
    destruct (List.find _ xs) as [[n v]|]; eexists; (split; [done|]); [left|by right].
    destruct Hs as (l1 & l2 & -> & Hv & Hb). exists l1, n, v, l2. split_and!; try done. by right. }
  destruct (current l) as [c|] eqn:Ec; [|exact Hscan].
  pose proof (ml_current _ _ _ Hl c Ec) as Hin. apply list_elem_of_fmap in Hin as ([n v] & Hcn & Hin). cbn in Hcn. subst n.
  apply list_elem_of_split in Hin as (l1 & l2 & ->).
  rewrite (load_Some _ _ _ (linked_lookup _ _ _ _ _ _ _ (ml_linked _ _ _ Hl))). cbn [mbind comp_bind val].
  destruct (hit v) eqn:Hv; [|exact Hscan]. eexists. split; [done|]. left. exists l1, c, v, l2.
  split_and!; [done|done| |by left]. destruct l. cbn in Ec. by subst.
Qed.

(** *** Removing *)

Lemma opt_store_next {B} m (p q : ptr) (a b : B) :
  (forall x, p = Some x -> is_Some (nodes m !! x)) ->
  (match p with None => Ret (m, b) | Some _ => let* m := store m p (set_next q) in Ret (m, a) end) =
  Ret ({| nodes := relink_next (nodes m) p q; freed := freed m |}, match p with Some _ => a | None => b end).
Proof. intros Hp. destruct p as [x|]; [|by destruct m]. by rewrite store_alter by auto. Qed.

Lemma opt_store_prev {B} m (q p : ptr) (a b : B) :
  (forall x, q = Some x -> is_Some (nodes m !! x)) ->
  (match q with None => Ret (m, b) | Some _ => let* m := store m q (set_prev p) in Ret (m, a) end) =
  Ret ({| nodes := relink_prev (nodes m) q p; freed := freed m |}, match q with Some _ => a | None => b end).
Proof. intros Hq. destruct q as [x|]; [|by destruct m]. by rewrite store_alter by auto. Qed.

(** The two neighbours are linked to each other and the ends follow. *)
Definition without l (l1 l2 : list (loc * V)) : List :=
  let l := match last_or None l1 with Some _ => l | None => with_first l (first_or l2 None) end in
  match first_or l2 None with Some _ => l | None => with_last l (last_or None l1) end.

Lemma without_fields l (l1 l2 : list (loc * V)) n v :
  first l = first_or (l1 ++ (n, v) :: l2) None -> last l = last_or None (l1 ++ (n, v) :: l2) ->
  first (without l l1 l2) = first_or (l1 ++ l2) None /\ last (without l l1 l2) = last_or None (l1 ++ l2) /\
  count (without l l1 l2) = count l /\ current (without l l1 l2) = current l.
Proof.
  intros Hf Hl. unfold without. rewrite first_or_app in *. rewrite last_or_app in *.
  destruct l1 as [|[a x] l1 _] using rev_ind; destruct l2 as [|[b y] l2]; cbn in *;
    rewrite ?last_or_app, ?first_or_app in *; cbn in *; auto.
Qed.

(** What a removal promises. *)
Definition unlink_result (l : List) xs hit (freeContent : bool) m (r : bool * mem V * List) : Prop :=
  (exists l1 n v l2 m' l', xs = l1 ++ (n, v) :: l2 /\ hit v = true /\
     (current l = Some n \/ Forall (fun x => hit x.2 = false) l1) /\ r = (true, m', l') /\ mqlist m' l' (l1 ++ l2) /\
     nodes m' !! n = None /\ freed m' = freed m ++ (if freeContent then [v] else []) /\
     current l' = (if bool_decide (current l = Some n) then first_or l2 None else current l)) \/
  (Forall (fun x => hit x.2 = false) xs /\ r = (false, m, l)).

Lemma unlink_eq m l (l1 : list (loc * V)) n v l2 saved (freeContent : bool) :
  linked (nodes m) None (l1 ++ (n, v) :: l2) None -> NoDup (l1 ++ (n, v) :: l2).*1 ->
  (let* nd := load m (Some n) in
   let* (m, l) :=
     match prev nd with
     | None => Ret (m, with_first l (next nd))
     | Some _ => let* m := store m (prev nd) (set_next (next nd)) in Ret (m, l)
     end in
   let* nd := load m (Some n) in
   let* (m, l) :=
     match next nd with
     | None => Ret (m, with_last l (prev nd))
     | Some _ => let* m := store m (next nd) (set_prev (prev nd)) in Ret (m, l)
     end in
   let* nd := load m (Some n) in
   let m := if freeContent then free_content m (val nd) else m in
   let* m := free_node m (Some n) in
   let l := with_current l (if bool_decide (saved = Some n) then next nd else saved) in
   Ret (true, m, with_count l (to_int (count l - 1)))) =
  let l' := with_current (without l l1 l2) (if bool_decide (saved = Some n) then first_or l2 None else saved) in
  Ret (true, {| nodes := delete n (unlinked (nodes m) l1 l2); freed := freed m ++ (if freeContent then [v] else []) |},
       with_count l' (to_int (count l' - 1))).
Proof.
  intros Hk Hnd. pose proof (linked_lookup _ _ _ _ _ _ _ Hk) as Hn.
  pose proof (unlinked_lookup (nodes m) _ _ _ _ Hnd) as Hu.
  destruct (neighbours_fresh _ _ _ _ Hnd) as [Hn1 Hn2].
  assert (forall x, last_or None l1 = Some x \/ first_or l2 None = Some x -> is_Some (nodes m !! x)) as Hs.
  { intros x Hx. eapply linked_elem_Some; [done|]. rewrite fmap_app.
    destruct Hx as [Hx%last_or_None_elem|Hx%first_or_None_elem]; set_solver. }
  rewrite (load_Some _ _ _ Hn). cbn [mbind comp_bind prev next val].
  rewrite opt_store_next by (intros; apply Hs; auto). cbn [mbind comp_bind].
  rewrite (load_Some _ n {| prev := last_or None l1; next := first_or l2 None; val := v |})
    by (simpl; by rewrite relink_next_lookup_ne).
  cbn [mbind comp_bind prev next val].
  rewrite opt_store_prev by (intros; apply relink_next_is_Some, Hs; auto).
  cbn [mbind comp_bind nodes freed]. fold (unlinked (nodes m) l1 l2). fold (without l l1 l2).
  rewrite (load_Some _ n {| prev := last_or None l1; next := first_or l2 None; val := v |})
    by (simpl; by rewrite Hu).
  cbn [mbind comp_bind prev next val]. unfold free_content. destruct freeContent; cbn [free_node nodes freed];
    rewrite Hu, Hn; cbn [mbind comp_bind]; [done|by rewrite app_nil_r].
Qed.

Lemma mqlist_unlink_ok fuel m l xs content callback freeContent :
  mqlist m l xs -> (length xs < fuel)%nat -> Z.of_nat (length xs) <= INT_MAX ->
  exists r, ListUnlink fuel m l content callback freeContent = Ret r /\
    unlink_result l xs (matches callback content) freeContent m r.
Proof.
  intros Hl Hf Hmax. unfold ListUnlink, unlink_result.
  destruct (find_item_ok fuel m l xs content callback Hl Hf) as (r & -> & [(l1 & n & v & l2 & -> & Hv & -> & Hwhich)|[Hb ->]]);
    cbn [mbind comp_bind]; [|eexists; split; [done|by right]].
  destruct Hl as [Hk Hnd Hfi Hla Hc Hcu]. cbn [with_current current].
  rewrite (unlink_eq m _ l1 n v l2 (current l) freeContent Hk Hnd). cbn zeta. eexists. split; [done|]. left.
  set (cur' := if bool_decide (current l = Some n) then first_or l2 None else current l).
  destruct (without_fields (with_current l (Some n)) l1 l2 n v Hfi Hla) as (E1 & E2 & E3 & _).
  exists l1, n, v, l2. do 2 eexists. split; [done|]. split; [done|]. split; [done|]. split; [done|].
  split; [|split_and!; [apply lookup_delete_eq|done|done]].
  constructor; cbn [nodes with_count with_current first last count current].
  - by eapply linked_remove.
  - rewrite fmap_app in *. apply NoDup_app in Hnd as (? & Hdis & [? ?]%NoDup_cons).
    apply NoDup_app. split_and!; [done| |done]. intros x Hx Hx'. eapply Hdis; set_solver.
  - exact E1.
  - exact E2.
  - rewrite E3. cbn [with_current count]. rewrite Hc, !length_app in *. cbn [length] in *.
    rewrite to_int_id by (unfold is_int, INT_MIN; lia). lia.
  - intros c Hcc. rewrite fmap_app. unfold cur' in Hcc. case_bool_decide as Hd.
    + apply first_or_None_elem in Hcc. set_solver.
    + specialize (Hcu c Hcc). rewrite fmap_app in Hcu. cbn in Hcu.
      assert (c <> n) by (intros ->; congruence). set_solver.
Qed.

(** *** Adding *)

Lemma fresh_node m v :
  let (m', p) := list_node_new m v in
  exists n, p = Some n /\ nodes m !! n = None /\ freed m' = freed m /\
    nodes m' = <[n := {| prev := None; next := None; val := v |}]> (nodes m).
Proof.
  unfold list_node_new. eexists. split; [done|]. split_and!; [|done|done].
  apply not_elem_of_dom, is_fresh.
Qed.

Lemma store_fresh (ns : gmap loc (list_node_t V)) fr n nd g :
  store {| nodes := <[n := nd]> ns; freed := fr |} (Some n) g = Ret {| nodes := <[n := g nd]> ns; freed := fr |}.
Proof. cbn. by rewrite lookup_insert_eq, insert_insert_eq. Qed.

Lemma linked_fresh (ns : gmap loc (list_node_t V)) p xs q n : linked ns p xs q -> ns !! n = None -> n ∉ xs.*1.
Proof. intros Hk Hn Hin. destruct (linked_elem_Some _ _ _ _ _ Hk Hin) as [? ?]. congruence. Qed.

(** A new element behind the last one. *)
Lemma linked_snoc (ns : gmap loc (list_node_t V)) xs n v :
  NoDup xs.*1 -> linked ns None xs None -> ns !! n = None ->
  linked (relink_next (<[n := {| prev := last_or None xs; next := None; val := v |}]> ns) (last_or None xs) (Some n))
    None (xs ++ [(n, v)]) None.
Proof.
  intros Hnd Hk Hn. pose proof (linked_fresh _ _ _ _ _ Hk Hn) as Hni. apply linked_app. cbn [linked first_or]. split.
  - eapply linked_relink_next; [done|]. by apply linked_insert_ne.
  - split; [|done]. rewrite relink_next_lookup_ne, lookup_insert_eq; [done|]. by intros Hin%last_or_None_elem.
Qed.

Lemma append_ok m l xs v sz :
  mqlist m l xs -> Z.of_nat (length xs) < INT_MAX ->
  exists n m' l', ListAppend m l v sz = Ret (m', l') /\ nodes m !! n = None /\ mqlist m' l' (xs ++ [(n, v)]) /\
    freed m' = freed m /\ current l' = current l.
Proof.
  intros [Hk Hnd Hfi Hla Hc Hcu] Hmax. unfold ListAppend. pose proof (fresh_node m v) as Hfr.
  destruct (list_node_new m v) as [[ns1 fr1] p]. destruct Hfr as (n & -> & Hn & Hfm & Hm1). cbn in Hm1, Hfm. subst.
  pose proof (linked_fresh _ _ _ _ _ Hk Hn) as Hni. exists n. unfold ListAppendNoMalloc.
  do 3 (rewrite store_fresh; cbn [mbind comp_bind]). cbn [set_prev set_next set_val prev next val].
  set (m1 := {| nodes := <[n := _]> (nodes m); freed := freed m |}).
  assert (match first l with
          | None => Ret (m1, with_first l (Some n))
          | Some _ => let* m := store m1 (last l) (set_next (Some n)) in Ret (m, l)
          end = Ret ({| nodes := relink_next (nodes m1) (last_or None xs) (Some n); freed := freed m |},
                     match xs with [] => with_first l (Some n) | _ => l end)) as ->.
  { rewrite Hfi, Hla. destruct xs as [|[t w] ys _] using rev_ind; [done|].
    rewrite first_or_app, last_or_app. cbn [first_or last_or relink_next].
    rewrite store_alter; [by destruct ys as [|[??]?]|]. unfold m1. cbn [nodes].
    rewrite lookup_insert_ne by (rewrite fmap_app in Hni; set_solver).
    rewrite (linked_lookup _ _ _ _ _ _ _ Hk). eauto. }
  cbn [mbind comp_bind]. do 2 eexists. split; [done|]. split; [done|]. split; [|split; [done|by destruct xs]].
  constructor; cbn [nodes first last count current with_size with_count with_last].
  - unfold m1. cbn [nodes]. rewrite Hla. by apply linked_snoc.
  - rewrite fmap_app. apply NoDup_app. split_and!; [done| |apply NoDup_singleton]. cbn. set_solver.
  - destruct xs as [|[t w] xs]; [done|]. by rewrite Hfi.
  - by rewrite last_or_app.
  - rewrite length_app. cbn [length]. assert (count (match xs with [] => with_first l (Some n) | _ => l end) = count l) as -> by (by destruct xs).
    rewrite Hc, to_int_id by (unfold is_int, INT_MIN; lia). lia.
  - intros c Hcc. rewrite fmap_app. assert (current l = Some c) as Hcl by (by destruct xs). specialize (Hcu c Hcl). set_solver.
Qed.

(** A new element before an element of the list. *)
Lemma linked_insert_before (ns : gmap loc (list_node_t V)) (l1 : list (loc * V)) n v i w l2 :
  NoDup (l1 ++ (i, w) :: l2).*1 -> linked ns None (l1 ++ (i, w) :: l2) None -> ns !! n = None ->
  linked (relink_next (<[i := {| prev := Some n; next := first_or l2 None; val := w |}]>
                       (<[n := {| prev := last_or None l1; next := Some i; val := v |}]> ns)) (last_or None l1) (Some n))
    None (l1 ++ (n, v) :: (i, w) :: l2) None.
Proof.
  intros Hnd Hk Hn. pose proof (linked_fresh _ _ _ _ _ Hk Hn) as Hni.
  rewrite fmap_app in Hnd, Hni. cbn in Hnd, Hni. apply NoDup_app in Hnd as (Hnd1 & Hdis & [Hi2 Hnd2]%NoDup_cons).
  apply linked_app in Hk as [Hk1 [Hi Hk2]]. cbn [first_or] in *.
  assert (n <> i /\ n ∉ l1.*1 /\ n ∉ l2.*1) as (Hne & Hn1 & Hn2) by set_solver.
  assert (i ∉ l1.*1) as Hi1 by (intros Hin; apply (Hdis i Hin); left).
  apply linked_app. cbn [first_or]. split.
  - eapply linked_relink_next; [done|]. by do 2 (apply linked_insert_ne; [done|]).
  - cbn [linked first_or]. split_and!.
    + rewrite relink_next_lookup_ne, lookup_insert_ne, lookup_insert_eq; [done|done|]. by intros ?%last_or_None_elem.
    + rewrite relink_next_lookup_ne, lookup_insert_eq; [done|]. by intros ?%last_or_None_elem.
    + apply linked_relink_next_ne; [|by do 2 (apply linked_insert_ne; [done|])].
      intros x Hx%last_or_None_elem Hx2. apply (Hdis x Hx). by right.
Qed.

Lemma mqlist_insert_ok m l (l1 : list (loc * V)) i w l2 v sz :
  mqlist m l (l1 ++ (i, w) :: l2) -> Z.of_nat (length (l1 ++ (i, w) :: l2)) < INT_MAX ->
  exists n m' l', ListInsert m l v sz (Some i) = Ret (m', l') /\ nodes m !! n = None /\
    mqlist m' l' (l1 ++ (n, v) :: (i, w) :: l2) /\ freed m' = freed m /\ current l' = current l.
Proof.
  intros [Hk Hnd Hfi Hla Hc Hcu] Hmax. unfold ListInsert. pose proof (fresh_node m v) as Hfr.
  destruct (list_node_new m v) as [[ns1 fr1] p]. destruct Hfr as (n & -> & Hn & Hfm & Hm1). cbn in Hm1, Hfm. subst.
  pose proof (linked_fresh _ _ _ _ _ Hk Hn) as Hni. pose proof (linked_lookup _ _ _ _ _ _ _ Hk) as Hi.
  assert (n <> i) as Hne by (rewrite fmap_app in Hni; set_solver). exists n.
  do 2 (rewrite store_fresh; cbn [mbind comp_bind set_val set_next prev next val]).
  rewrite (load_Some _ i _) by (cbn; rewrite lookup_insert_ne by done; exact Hi). cbn [mbind comp_bind prev].
  rewrite store_fresh. cbn [mbind comp_bind set_prev prev next val].
  rewrite (store_Some _ i {| prev := last_or None l1; next := first_or l2 None; val := w |})
    by (cbn; by rewrite lookup_insert_ne by done).
  cbn [mbind comp_bind set_prev prev next val nodes freed].
  rewrite (load_Some _ n {| prev := last_or None l1; next := Some i; val := v |})
    by (cbn; by rewrite lookup_insert_ne, lookup_insert_eq by done).
  cbn [mbind comp_bind prev].
  rewrite opt_store_next; cycle 1.
  { intros x Hx%last_or_None_elem. cbn [nodes]. destruct (decide (x = i)) as [->|]; [rewrite lookup_insert_eq; eauto|].
    destruct (decide (x = n)) as [->|]; [rewrite lookup_insert_ne, lookup_insert_eq by done; eauto|].
    rewrite !lookup_insert_ne by done. apply (linked_elem_Some _ _ _ _ _ Hk). rewrite fmap_app. set_solver. }
  cbn [mbind comp_bind nodes freed]. do 2 eexists. split; [done|]. split; [done|].
  split; [|split; [done|by destruct (last_or None l1)]].
  constructor; cbn [nodes first last count current with_size with_count].
  - by apply linked_insert_before.
  - rewrite fmap_app in *. cbn in *. apply NoDup_app in Hnd as (? & Hdis & Hnd2).
    apply NoDup_app. split_and!; [done| |apply NoDup_cons; split; [set_solver|done]].
    intros x Hx [->|Hx']%elem_of_cons; [set_solver|by apply (Hdis x)].
  - rewrite first_or_app in *. destruct l1 as [|[a x] l1 _] using rev_ind; [done|]. rewrite last_or_app. cbn [last_or].
    rewrite Hfi, !first_or_app. by destruct l1 as [|[??]?].
  - rewrite last_or_app in *. cbn [last_or] in *. by destruct (last_or None l1).
  - rewrite length_app in *. cbn [length] in *.
    assert (count (match last_or None l1 with Some _ => l | None => with_first l (Some n) end) = count l) as -> by (by destruct (last_or None l1)).
    rewrite Hc, to_int_id by (unfold is_int, INT_MIN; lia). lia.
  - intros c Hcc. assert (current l = Some c) as Hcl by (by destruct (last_or None l1)). specialize (Hcu c Hcl).
    rewrite fmap_app in *. cbn in *. set_solver.
Qed.

(** *** The ends *)

Lemma detach_head_ok m l n v xs :
  mqlist m l ((n, v) :: xs) -> Z.of_nat (length xs) < INT_MAX ->
  exists m' l', ListDetachHead m l = Ret (Some v, m', l') /\ mqlist m' l' xs /\ nodes m' !! n = None /\ freed m' = freed m.
Proof.
  intros [Hk Hnd Hfi Hla Hc Hcu] Hmax. unfold ListDetachHead. cbn [length] in Hc. rewrite Hc, (proj2 (Z.ltb_lt _ _)) by lia.
  cbn [first_or] in Hfi. rewrite Hfi. pose proof (linked_lookup _ _ [] _ _ _ _ Hk) as Hn. cbn [last_or] in Hn.
  rewrite (load_Some _ _ _ Hn). cbn [mbind comp_bind next val]. cbn [linked] in Hk. destruct Hk as [_ Hk].
  cbn [fmap list_fmap fst] in Hnd. apply NoDup_cons in Hnd as [Hni Hnd].
  set (l2 := with_first _ (first_or xs None)). assert (first l2 = first_or xs None) as Hf2 by done. rewrite Hf2.
  assert (match first_or xs None with Some _ => store m (first_or xs None) (set_prev None) | None => Ret m end =
    Ret {| nodes := relink_prev (nodes m) (first_or xs None) None; freed := freed m |}) as ->.
  { destruct xs as [|[t w] xs]; [by destruct m|]. cbn [first_or relink_prev]. rewrite store_alter; [done|].
    destruct Hk as [Ht _]. eauto. }
  cbn [mbind comp_bind free_node nodes freed].
  rewrite relink_prev_lookup_ne, Hn by (by intros ?%first_or_None_elem). cbn [mbind comp_bind].
  do 2 eexists. split; [done|]. split; [|split; [apply lookup_delete_eq|done]].
  assert (last l2 = last_or None xs) as Hl2.
  { assert (last l2 = if bool_decide (last l = Some n) then None else last l) as -> by
      (unfold l2; cbn [last with_first]; by destruct (bool_decide (current l = Some n)); cbn [last with_current]; case_bool_decide).
    rewrite Hla. destruct xs as [|[t w] xs]; [by rewrite bool_decide_eq_true_2|].
    change (last_or None ((n, v) :: (t, w) :: xs)) with (last_or None ((t, w) :: xs)).
    rewrite bool_decide_eq_false_2; [done|]. by intros Hin%last_or_None_elem. }
  constructor; cbn [nodes first last count current with_count].
  - apply linked_delete_ne; [done|]. by eapply linked_relink_prev.
  - done.
  - done.
  - done.
  - assert (count l2 = count l) as -> by (unfold l2; cbn [count with_first]; repeat case_bool_decide; done).
    rewrite Hc, to_int_id by (unfold is_int, INT_MIN; lia). lia.
  - intros c Hcc. unfold l2 in Hcc. cbn [current with_first] in Hcc.
    assert ((if bool_decide (current l = Some n) then first_or xs None else current l) = Some c) as Hcc'
      by (destruct (bool_decide (current l = Some n)), (bool_decide (last _ = Some n)); done).
    case_bool_decide as Hd; [by apply first_or_None_elem|].
    specialize (Hcu c Hcc'). cbn in Hcu. assert (c <> n) by (intros ->; congruence). set_solver.
Qed.

Lemma mqlist_empty_ok fuel m p xs :
  linked (nodes m) p xs None -> NoDup xs.*1 -> (length xs <= fuel)%nat ->
  exists m', empty_loop fuel m (first_or xs None) = Ret m' /\ freed m' = freed m ++ xs.*2 /\
    (forall n, nodes m' !! n = (if bool_decide (n ∈ xs.*1) then None else nodes m !! n)).
Proof.
  revert m p xs. induction fuel as [|fuel IH]; intros m p xs Hk Hnd Hf;
    (destruct xs as [|[n v] xs]; [exists m; split_and!; [done|by rewrite app_nil_r|intros n; by rewrite bool_decide_eq_false_2 by set_solver]|]);
    cbn [length] in Hf; [lia|].
  destruct Hk as [Hn Hk]. cbn [fmap list_fmap fst] in Hnd. apply NoDup_cons in Hnd as [Hni Hnd].
  cbn [empty_loop first_or]. rewrite (load_Some _ _ _ Hn). cbn [mbind comp_bind val next free_content free_node nodes freed].
  rewrite Hn. cbn [mbind comp_bind].
  destruct (IH {| nodes := delete n (nodes m); freed := freed m ++ [v] |} (Some n) xs) as (m' & -> & Hfr & Hm');
    [by apply linked_delete_ne|done|lia|].
  exists m'. split; [done|]. split; [rewrite Hfr; cbn; by rewrite <- app_assoc|]. intros k. rewrite Hm'. cbn [nodes].
  destruct (decide (k = n)) as [->|Hkn].
  - rewrite bool_decide_eq_false_2, bool_decide_eq_true_2, lookup_delete_eq by set_solver. done.
  - rewrite lookup_delete_ne by done. do 2 case_bool_decide; set_solver.
Qed.
End linked_list_facts.

(** Removing by content takes exactly one matching element out of the list
    (the one under the cursor if it matches, else the first), frees its content
    when asked to and its node, and leaves the cursor on an element of the list
    or on nothing; without a match nothing changes. *)
Theorem unlink_refines {V} `{EqDecision V} fuel (m : mem V) l xs content callback freeContent :
  mqlist m l xs -> (length xs < fuel)%nat -> Z.of_nat (length xs) <= INT_MAX ->
  exists r, ListUnlink fuel m l content callback freeContent = Ret r /\
    unlink_result l xs (matches callback content) freeContent m r.
Proof. apply mqlist_unlink_ok. Qed.

Definition demo_mqlist : List :=
  {| first := Some 1%positive; last := Some 2%positive; current := Some 1%positive; count := 2; size := 8 |}.

Lemma unlink_refines_witness :
  mqlist demo_mem demo_mqlist demo_seq /\
  exists m' l', ListRemove 3 demo_mem demo_mqlist 10 = Ret (true, m', l') /\ mqlist m' l' [(2%positive, 20)] /\
    freed m' = [10] /\ current l' = Some 2%positive.
Proof.
  assert (mqlist demo_mem demo_mqlist demo_seq) as Hd.
  { destruct demo_dlist as [H1 H2 H3 H4 H5]. constructor; [exact H1|exact H2|done|done|done|].
    intros c [= <-]. cbn. left. }
  split; [exact Hd|]. unfold ListRemove.
  destruct (unlink_refines 3 demo_mem demo_mqlist demo_seq 10 None true Hd) as (r & E & H); [cbn; lia|by vm_compute|].
  rewrite E. destruct H as [(l1 & n & v & l2 & m' & l' & Hxs & Hv & Hw & -> & Hl & _ & Hf & Hc)|[Hb _]].
  - apply bool_decide_eq_true in Hv as ->. destruct l1 as [|x l1].
    + injection Hxs as <- <-. exists m', l'. split; [done|]. split; [exact Hl|]. split; [exact Hf|]. exact Hc.
    + destruct l1 as [|y l1]; [injection Hxs as _ _ E2|injection Hxs as _ _ E2]; [discriminate E2|].
      exfalso. by destruct l1.
  - exfalso. apply Forall_inv in Hb. by apply bool_decide_eq_false in Hb.
Defined.
