(* ===== verification/MqttProtocol.v ===== *)
(** * The protocol exchanges (mqtt-c/source/MQTTProtocolClient.c)

    One client and the library's state.  The message lists are the sequences
    LinkedList.v represents; the stored publications are objects with reference
    counts in a store, so that a publication used after its release is a fault.
    A handler returns its completion code, what it sends and what it gives to
    the application; the completion codes of the sockets are arguments. *)

From S2P Require Import Prelude CString MqttPacket MqttSocket.

Local Open Scope Z_scope.

Abbreviation loc := positive.

Definition MAX_MSG_ID : Z := 65535.

(** ** State *)

Record Publications := {
  p_topic : string;
  p_topiclen : Z;
  p_payload : list Z;
  p_payloadlen : Z;
  refcount : Z
}.

Record Messages := {
  qos : Z;
  retain : Z;
  msgid : Z;
  publish : loc;
  lastTouch : Z;
  nextMessageType : Z
}.

Record pstate := {
  msgID : Z;
  inboundMsgs : list Messages;
  outboundMsgs : list Messages;
  connected : Z;
  good : Z;
  ping_outstanding : Z;
  keepAliveInterval : Z;
  retryInterval : Z;
  lastSent : Z;
  lastReceived : Z;
  publications : gmap loc Publications;
  pending_writes : list loc;
  msgs_received : Z;
  msgs_sent : Z
}.

Definition with_msgID (s : pstate) (x : Z) : pstate :=
  {| msgID := x; inboundMsgs := inboundMsgs s; outboundMsgs := outboundMsgs s; connected := connected s; good := good s;
     ping_outstanding := ping_outstanding s; keepAliveInterval := keepAliveInterval s; retryInterval := retryInterval s;
     lastSent := lastSent s; lastReceived := lastReceived s; publications := publications s;
     pending_writes := pending_writes s; msgs_received := msgs_received s; msgs_sent := msgs_sent s |}.
Definition with_inbound (s : pstate) (x : list Messages) : pstate :=
  {| msgID := msgID s; inboundMsgs := x; outboundMsgs := outboundMsgs s; connected := connected s; good := good s;
     ping_outstanding := ping_outstanding s; keepAliveInterval := keepAliveInterval s; retryInterval := retryInterval s;
     lastSent := lastSent s; lastReceived := lastReceived s; publications := publications s;
     pending_writes := pending_writes s; msgs_received := msgs_received s; msgs_sent := msgs_sent s |}.
Definition with_outbound (s : pstate) (x : list Messages) : pstate :=
  {| msgID := msgID s; inboundMsgs := inboundMsgs s; outboundMsgs := x; connected := connected s; good := good s;
     ping_outstanding := ping_outstanding s; keepAliveInterval := keepAliveInterval s; retryInterval := retryInterval s;
     lastSent := lastSent s; lastReceived := lastReceived s; publications := publications s;
     pending_writes := pending_writes s; msgs_received := msgs_received s; msgs_sent := msgs_sent s |}.
Definition with_pubs (s : pstate) (x : gmap loc Publications) (w : list loc) : pstate :=
  {| msgID := msgID s; inboundMsgs := inboundMsgs s; outboundMsgs := outboundMsgs s; connected := connected s; good := good s;
     ping_outstanding := ping_outstanding s; keepAliveInterval := keepAliveInterval s; retryInterval := retryInterval s;
     lastSent := lastSent s; lastReceived := lastReceived s; publications := x;
     pending_writes := w; msgs_received := msgs_received s; msgs_sent := msgs_sent s |}.
Definition with_net (s : pstate) (g ping sent : Z) : pstate :=
  {| msgID := msgID s; inboundMsgs := inboundMsgs s; outboundMsgs := outboundMsgs s; connected := connected s; good := g;
     ping_outstanding := ping; keepAliveInterval := keepAliveInterval s; retryInterval := retryInterval s;
     lastSent := sent; lastReceived := lastReceived s; publications := publications s;
     pending_writes := pending_writes s; msgs_received := msgs_received s; msgs_sent := msgs_sent s |}.
Definition with_counts (s : pstate) (r t : Z) : pstate :=
  {| msgID := msgID s; inboundMsgs := inboundMsgs s; outboundMsgs := outboundMsgs s; connected := connected s; good := good s;
     ping_outstanding := ping_outstanding s; keepAliveInterval := keepAliveInterval s; retryInterval := retryInterval s;
     lastSent := lastSent s; lastReceived := lastReceived s; publications := publications s;
     pending_writes := pending_writes s; msgs_received := r; msgs_sent := t |}.

(** What goes to the socket, and the request to close the session. *)
Inductive event :=
  | SentPublish (msgid dup qos retain : Z) (topic : string) (payload : list Z)
  | SentAck (type msgid dup : Z)
  | SentPing
  | CloseSession.

(** What the application is given. *)
Record delivery := { d_msgid : Z; d_qos : Z; d_retain : Z; d_topic : string; d_payload : list Z }.

(** ** Message lists *)

(** ListFindItem with messageIDCompare. *)
Definition messageIDCompare (m : Messages) (id : Z) : bool := msgid m =? id.
Definition find_msg (id : Z) (l : list Messages) : option Messages := List.find (fun m => messageIDCompare m id) l.

(** ListRemove of the element found, and an assignment to its fields. *)
Fixpoint remove_msg (id : Z) (l : list Messages) : list Messages :=
  match l with
  | [] => []
  | m :: l => if messageIDCompare m id then l else m :: remove_msg id l
  end.
Fixpoint update_msg (id : Z) (g : Messages -> Messages) (l : list Messages) : list Messages :=
  match l with
  | [] => []
  | m :: l => if messageIDCompare m id then g m :: l else m :: update_msg id g l
  end.

Definition touch (now : Z) (next : Z) (m : Messages) : Messages :=
  {| qos := qos m; retain := retain m; msgid := msgid m; publish := publish m; lastTouch := now; nextMessageType := next |}.

(** ** Message ids *)

Definition next_id (id : Z) : Z := if id =? MAX_MSG_ID then 1 else id + 1.

Fixpoint assign_loop (fuel : nat) (used : Z -> bool) (start msgid : Z) : comp Z :=
  match fuel with
  | O => Err OutOfFuel
  | S fuel =>
      if used msgid then
        let msgid := next_id msgid in
        if msgid =? start then Ret 0 else assign_loop fuel used start msgid
      else Ret msgid
  end.

Definition MQTTProtocol_assignMsgId (fuel : nat) (client : pstate) : comp (Z * pstate) :=
  let start_msgid := msgID client in
  let used id := bool_decide (is_Some (find_msg id (outboundMsgs client))) in
  let* id := assign_loop fuel used start_msgid (next_id start_msgid) in
  Ret (id, if negb (id =? 0) then with_msgID client id else client).

(** ** Stored publications *)

Definition MQTTProtocol_storePublication (s : pstate) (p : Publish) : comp (loc * pstate) :=
  let* data := arr_slice (payload p) 0 (payloadlen p) in
  let l := fresh (dom (publications s)) in
  Ret (l, with_pubs s (<[l := {| p_topic := topic p; p_topiclen := topiclen p; p_payload := data;
                                p_payloadlen := payloadlen p; refcount := 1 |}]> (publications s)) (pending_writes s)).

Definition load_pub (s : pstate) (l : loc) : comp Publications := comp_of_option UseAfterFree (publications s !! l).

Definition MQTTProtocol_removePublication (s : pstate) (l : loc) : comp pstate :=
  let* p := load_pub s l in
  let n := refcount p - 1 in
  Ret (with_pubs s (if n =? 0 then delete l (publications s)
                    else <[l := {| p_topic := p_topic p; p_topiclen := p_topiclen p; p_payload := p_payload p;
                                   p_payloadlen := p_payloadlen p; refcount := n |}]> (publications s))
         (pending_writes s)).

(** ** Publishing *)

Section protocol.
(** What an unassigned field holds. *)
Context (junk : Z).

(** The stored message is kept until the write is finished. *)
Definition MQTTProtocol_storeQoS0 (s : pstate) (p : Publish) : comp pstate :=
  let* (l, s) := MQTTProtocol_storePublication s p in
  Ret (with_pubs s (publications s) (pending_writes s ++ [l])).

Definition MQTTProtocol_startPublishCommon (s : pstate) (p : Publish) (q retained rc : Z) : comp (Z * list event * pstate) :=
  let* data := arr_slice (payload p) 0 (payloadlen p) in
  let* s := (if (q =? 0) && (rc =? TCPSOCKET_INTERRUPTED) then MQTTProtocol_storeQoS0 s p else Ret s) in
  Ret (rc, [SentPublish (msgId p) 0 q retained (topic p) data], s).

(** [mm] is [*mm]: NULL, or a message whose publication is shared. *)
Definition MQTTProtocol_createMessage (s : pstate) (p : Publish) (mm : option Messages) (q retained now : Z)
  : comp (Messages * pstate) :=
  let* (l, s) :=
    match mm with
    | None => MQTTProtocol_storePublication s p
    | Some m =>
        let* pub := load_pub s (publish m) in
        Ret (publish m, with_pubs s (<[publish m := {| p_topic := p_topic pub; p_topiclen := p_topiclen pub;
               p_payload := p_payload pub; p_payloadlen := p_payloadlen pub; refcount := refcount pub + 1 |}]> (publications s))
               (pending_writes s))
    end in
  Ret ({| qos := q; retain := retained; msgid := msgId p; publish := l; lastTouch := now;
          nextMessageType := if q =? 2 then PUBREC else junk |}, s).

Definition MQTTProtocol_startPublish (s : pstate) (p : Publish) (q retained : Z) (mm : option Messages) (now rc : Z)
  : comp (Z * list event * pstate) :=
  if 0 <? q then
    let* (m, s) := MQTTProtocol_createMessage s p mm q retained now in
    let s := with_outbound s (outboundMsgs s ++ [m]) in
    let* pub := load_pub s (publish m) in
    let p := {| pub_header := pub_header p; topic := p_topic pub; topiclen := topiclen p; msgId := msgId p;
                payload := p_payload pub; payloadlen := payloadlen p |} in
    MQTTProtocol_startPublishCommon s p q retained rc
  else MQTTProtocol_startPublishCommon s p q retained rc.

(** ** Handling packets *)

Definition deliver_publish (p : Publish) : comp delivery :=
  let* data := arr_slice (payload p) 0 (payloadlen p) in
  Ret {| d_msgid := msgId p; d_qos := hdr_qos (pub_header p); d_retain := hdr_retain (pub_header p);
         d_topic := topic p; d_payload := data |}.

(** [idle] is Socket_noPendingWrites, [rc] the result of the send. *)
Definition MQTTProtocol_handlePublishes (s : pstate) (p : Publish) (idle : bool) (now rc : Z)
  : comp (Z * list event * list delivery * pstate) :=
  let q := hdr_qos (pub_header p) in
  if q =? 0 then
    let* d := deliver_publish p in Ret (TCPSOCKET_COMPLETE, [], [d], s)
  else if negb idle then Ret (SOCKET_ERROR, [], [], s)
  else if q =? 1 then
    let* d := deliver_publish p in Ret (rc, [SentAck PUBACK (msgId p) 0], [d], s)
  else if q =? 2 then
    let* (l, s) := MQTTProtocol_storePublication s p in
    let m := {| qos := q; retain := hdr_retain (pub_header p); msgid := msgId p; publish := l;
                lastTouch := junk; nextMessageType := PUBREL |} in
    let* s :=
      match find_msg (msgid m) (inboundMsgs s) with
      | Some msg =>
          let* s := MQTTProtocol_removePublication s (publish msg) in
          Ret (with_inbound s (update_msg (msgid m) (fun _ => m) (inboundMsgs s)))
      | None => Ret (with_inbound s (inboundMsgs s ++ [m]))
      end in
    Ret (rc, [SentAck PUBREC (msgId p) 0], [], s)
  else Ret (TCPSOCKET_COMPLETE, [], [], s).

(** [per] is the result of removing the message from the persistent store. *)
Definition MQTTProtocol_handlePubacks (s : pstate) (id per : Z) : comp (Z * pstate) :=
  match find_msg id (outboundMsgs s) with
  | None => Ret (TCPSOCKET_COMPLETE, s)
  | Some m =>
      if negb (qos m =? 1) then Ret (TCPSOCKET_COMPLETE, s)
      else
        let* s := MQTTProtocol_removePublication s (publish m) in
        Ret (per, with_outbound s (remove_msg id (outboundMsgs s)))
  end.

Definition MQTTProtocol_handlePubrecs (s : pstate) (id now rc : Z) : comp (Z * list event * pstate) :=
  match find_msg id (outboundMsgs s) with
  | None => Ret (TCPSOCKET_COMPLETE, [], s)
  | Some m =>
      if negb (qos m =? 2) then Ret (TCPSOCKET_COMPLETE, [], s)
      else if negb (nextMessageType m =? PUBREC) then Ret (TCPSOCKET_COMPLETE, [], s)
      else Ret (rc, [SentAck PUBREL id 0], with_outbound s (update_msg id (touch now PUBCOMP) (outboundMsgs s)))
  end.

Definition MQTTProtocol_handlePubrels (s : pstate) (id dup : Z) (idle : bool) (rc per : Z)
  : comp (Z * list event * list delivery * pstate) :=
  match find_msg id (inboundMsgs s) with
  | None =>
      if dup =? 0 then Ret (TCPSOCKET_COMPLETE, [], [], s)
      else if negb idle then Ret (SOCKET_ERROR, [], [], s)
      else Ret (rc, [SentAck PUBCOMP id 0], [], s)
  | Some m =>
      if negb (qos m =? 2) then Ret (TCPSOCKET_COMPLETE, [], [], s)
      else if negb (nextMessageType m =? PUBREL) then Ret (TCPSOCKET_COMPLETE, [], [], s)
      else if negb idle then Ret (SOCKET_ERROR, [], [], s)
      else
        let* pub := load_pub s (publish m) in
        let d := {| d_msgid := msgid m; d_qos := qos m; d_retain := retain m; d_topic := p_topic pub;
                    d_payload := p_payload pub |} in
        let s := with_pubs s (delete (publish m) (publications s)) (pending_writes s) in
        let s := with_inbound s (remove_msg id (inboundMsgs s)) in
        Ret (rc + per, [SentAck PUBCOMP id 0], [d], with_counts s (msgs_received s + 1) (msgs_sent s))
  end.

Definition MQTTProtocol_handlePubcomps (s : pstate) (id per : Z) : comp (Z * pstate) :=
  match find_msg id (outboundMsgs s) with
  | None => Ret (TCPSOCKET_COMPLETE, s)
  | Some m =>
      if negb (qos m =? 2) then Ret (TCPSOCKET_COMPLETE, s)
      else if negb (nextMessageType m =? PUBCOMP) then Ret (TCPSOCKET_COMPLETE, s)
      else
        let* s := MQTTProtocol_removePublication s (publish m) in
        let s := with_outbound s (remove_msg id (outboundMsgs s)) in
        Ret (per, with_counts s (msgs_received s) (msgs_sent s + 1))
  end.

Definition MQTTProtocol_handlePingresps (s : pstate) : Z * pstate :=
  (TCPSOCKET_COMPLETE, with_net s (good s) 0 (lastSent s)).

(** ** Time *)

(** The body of the loop over the clients. *)
Definition MQTTProtocol_keepalive (now : Z) (s : pstate) (idle : bool) (rc : Z) : list event * pstate :=
  if negb (connected s =? 0) && (0 <? keepAliveInterval s) &&
     ((keepAliveInterval s <=? now - lastSent s) || (keepAliveInterval s <=? now - lastReceived s)) then
    if ping_outstanding s =? 0 then
      if idle then
        if negb (rc =? TCPSOCKET_COMPLETE) then ([SentPing; CloseSession], s)
        else ([SentPing], with_net s (good s) 1 now)
      else ([], s)
    else ([CloseSession], s)
  else ([], s).

(** One message of the retry loop: what it sends, the message, and whether the
    session is given up. *)
Definition retry_message (s : pstate) (m : Messages) (rc touched : Z)
  : comp (list event * Messages * bool) :=
  if (qos m =? 1) || ((qos m =? 2) && (nextMessageType m =? PUBREC)) then
    let* pub := load_pub s (publish m) in
    let e := SentPublish (msgid m) 1 (qos m) (retain m) (p_topic pub) (p_payload pub) in
    if rc =? SOCKET_ERROR then Ret ([e; CloseSession], m, true)
    else Ret ([e], touch touched (nextMessageType m) m, false)
  else if negb (qos m =? 0) && (nextMessageType m =? PUBCOMP) then
    let e := SentAck PUBREL (msgid m) 0 in
    if negb (rc =? TCPSOCKET_COMPLETE) then Ret ([e; CloseSession], m, true)
    else Ret ([e], touch touched (nextMessageType m) m, false)
  else Ret ([], m, false).

(** The loop over the outbound messages.  An answer is: are there no pending
    writes, the result of the send, and the time after it. *)
Fixpoint retries_loop (now : Z) (regardless : bool) (s : pstate) (answers : list (bool * Z * Z)) (todo : list Messages)
  {struct todo} : comp (list event * list Messages * bool) :=
  match todo with
  | [] => Ret ([], [], false)
  | m :: rest =>
      match answers with
      | [] => Ret ([], todo, false)
      | (idle, rc, touched) :: answers =>
          if negb (connected s =? 0) && negb (good s =? 0) && idle then
            let* (es, m, closed) :=
              (if regardless || (Z.max (retryInterval s) 10 <? now - lastTouch m)
               then retry_message s m rc touched else Ret ([], m, false)) in
            if (closed : bool) then Ret (es, m :: rest, true)
            else
              let* (es', rest, closed) := retries_loop now regardless s answers rest in
              Ret (es ++ es', m :: rest, closed)
          else Ret ([], todo, false)
      end
  end.

Definition MQTTProtocol_retries (now : Z) (regardless : bool) (s : pstate) (answers : list (bool * Z * Z))
  : comp (list event * pstate) :=
  if negb regardless && (retryInterval s <=? 0) then Ret ([], s)
  else
    let* (es, out, closed) := retries_loop now regardless s answers (outboundMsgs s) in
    let s := with_outbound s out in
    Ret (es, if (closed : bool) then with_net s 0 (ping_outstanding s) (lastSent s) else s).

(** The body of the loop over the clients. *)
Definition MQTTProtocol_retry (now : Z) (doRetry regardless : bool) (s : pstate) (idle : bool) (answers : list (bool * Z * Z))
  : comp (list event * pstate) :=
  if connected s =? 0 then Ret ([], s)
  else if good s =? 0 then Ret ([CloseSession], s)
  else if negb idle then Ret ([], s)
  else if doRetry then MQTTProtocol_retries now regardless s answers
  else Ret ([], s).

(** ** Emptying a list *)

Fixpoint empty_loop (s : pstate) (l : list Messages) : comp pstate :=
  match l with
  | [] => Ret s
  | m :: l => let* s := MQTTProtocol_removePublication s (publish m) in empty_loop s l
  end.

(** The publications of finished writes are released (MQTTAsync.c). *)
Fixpoint pending_loop (s : pstate) (l : list loc) : comp pstate :=
  match l with
  | [] => Ret s
  | p :: l => let* s := MQTTProtocol_removePublication s p in pending_loop s l
  end.
Definition MQTTProtocol_checkPendingWrites (s : pstate) (idle : bool) : comp pstate :=
  if idle then let* s := pending_loop s (pending_writes s) in Ret (with_pubs s (publications s) []) else Ret s.

Definition MQTTProtocol_emptyInbound (s : pstate) : comp pstate :=
  let* s := empty_loop s (inboundMsgs s) in Ret (with_inbound s []).
Definition MQTTProtocol_emptyOutbound (s : pstate) : comp pstate :=
  let* s := empty_loop s (outboundMsgs s) in Ret (with_outbound s []).

(** ** One thing that happens to a client *)

Inductive pop :=
  | Start (p : Publish) (q retained now rc : Z)
  | OnPublish (p : Publish) (idle : bool) (now rc : Z)
  | OnPuback (id per : Z)
  | OnPubrec (id now rc : Z)
  | OnPubrel (id dup : Z) (idle : bool) (rc per : Z)
  | OnPubcomp (id per : Z)
  | OnPingresp
  | Keepalive (now : Z) (idle : bool) (rc : Z)
  | Retry (now : Z) (doRetry regardless idle : bool) (answers : list (bool * Z * Z))
  | WritesDone (idle : bool)
  | CleanSession.

Definition run_pop (s : pstate) (o : pop) : comp (list event * list delivery * pstate) :=
  match o with
  | Start p q retained now rc =>
      let* (_, es, s) := MQTTProtocol_startPublish s p q retained None now rc in Ret (es, [], s)
  | OnPublish p idle now rc =>
      let* (_, es, ds, s) := MQTTProtocol_handlePublishes s p idle now rc in Ret (es, ds, s)
  | OnPuback id per => let* (_, s) := MQTTProtocol_handlePubacks s id per in Ret ([], [], s)
  | OnPubrec id now rc => let* (_, es, s) := MQTTProtocol_handlePubrecs s id now rc in Ret (es, [], s)
  | OnPubrel id dup idle rc per =>
      let* (_, es, ds, s) := MQTTProtocol_handlePubrels s id dup idle rc per in Ret (es, ds, s)
  | OnPubcomp id per => let* (_, s) := MQTTProtocol_handlePubcomps s id per in Ret ([], [], s)
  | OnPingresp => Ret ([], [], (MQTTProtocol_handlePingresps s).2)
  | Keepalive now idle rc => let (es, s) := MQTTProtocol_keepalive now s idle rc in Ret (es, [], s)
  | Retry now doRetry regardless idle answers =>
      let* (es, s) := MQTTProtocol_retry now doRetry regardless s idle answers in Ret (es, [], s)
  | WritesDone idle => let* s := MQTTProtocol_checkPendingWrites s idle in Ret ([], [], s)
  | CleanSession =>
      let* s := MQTTProtocol_emptyInbound s in
      let* s := MQTTProtocol_emptyOutbound s in Ret ([], [], s)
  end.
End protocol.

(** ** The state invariant

    Message ids are unique in each list, and the stored publications are
    exactly those that a message or a pending write refers to, each once: none
    is released early, twice or never. *)

Record store_inv (pubs : gmap loc Publications) (refs : list loc) : Prop := {
  si_nodup : NoDup refs;
  si_dom : forall l, is_Some (pubs !! l) <-> l ∈ refs;
  si_count : forall l p, pubs !! l = Some p -> refcount p = 1
}.

Definition refs (s : pstate) : list loc :=
  (publish <$> inboundMsgs s) ++ (publish <$> outboundMsgs s) ++ pending_writes s.

Definition in_ok (m : Messages) : Prop := qos m = 2 /\ nextMessageType m = PUBREL.
Definition out_ok (m : Messages) : Prop := qos m = 1 \/ qos m = 2 /\ (nextMessageType m = PUBREC \/ nextMessageType m = PUBCOMP).

Record protocol_inv (s : pstate) : Prop := {
  pi_store : store_inv (publications s) (refs s);
  pi_in_ids : NoDup (msgid <$> inboundMsgs s);
  pi_out_ids : NoDup (msgid <$> outboundMsgs s);
  pi_in : Forall in_ok (inboundMsgs s);
  pi_out : Forall out_ok (outboundMsgs s)
}.

Lemma store_inv_perm pubs R R' : R ≡ₚ R' -> store_inv pubs R -> store_inv pubs R'.
Proof. intros Hp [H1 H2 H3]. constructor; [by rewrite <- Hp|intros l; by rewrite H2, Hp|done]. Qed.

Lemma store_add pubs R l p : store_inv pubs R -> pubs !! l = None -> refcount p = 1 -> store_inv (<[l := p]> pubs) (l :: R).
Proof.
  intros [H1 H2 H3] Hl Hp. assert (l ∉ R) as Hn by (rewrite <- H2, Hl; by intros [? ?]). constructor.
  - by apply NoDup_cons.
  - intros k. rewrite elem_of_cons, <- H2, lookup_insert. case_decide; subst; [split; [by left|eauto]|].
    split; [by right|]. by intros [->|?].
  - intros k q. rewrite lookup_insert. case_decide; [by intros [= <-]|]. apply H3.
Qed.

Lemma store_del pubs R l : store_inv pubs (l :: R) -> store_inv (delete l pubs) R.
Proof.
  intros [[Hn H1]%NoDup_cons H2 H3]. constructor; [done| |].
  - intros k. rewrite lookup_delete. case_decide as Hk.
    + subst. split; [by intros [? ?]|done].
    + rewrite H2, elem_of_cons. naive_solver.
  - intros k q. rewrite lookup_delete. case_decide; [done|]. apply H3.
Qed.

Lemma store_lookup pubs R l : store_inv pubs R -> l ∈ R -> exists p, pubs !! l = Some p /\ refcount p = 1.
Proof. intros [_ H2 H3] Hl. apply H2 in Hl as [p Hp]. exists p. split; [done|by eapply H3]. Qed.

(** *** The lists *)

Lemma find_msg_split id l m :
  find_msg id l = Some m ->
  exists l1 l2, l = l1 ++ m :: l2 /\ msgid m = id /\ remove_msg id l = l1 ++ l2 /\
    (forall g, update_msg id g l = l1 ++ g m :: l2).
Proof.
  unfold find_msg, messageIDCompare. induction l as [|x l IH]; [done|]. cbn [List.find remove_msg update_msg]. unfold messageIDCompare.
  destruct (Z.eqb_spec (msgid x) id) as [Hx|Hx].
  - intros [= ->]. exists [], l. by split_and!.
  - intros Hf. destruct (IH Hf) as (l1 & l2 & -> & Hm & Hr & Hu). exists (x :: l1), l2.
    split_and!; [done|done|by rewrite Hr|intros g; by rewrite Hu].
Qed.

Lemma find_msg_None id l : find_msg id l = None <-> id ∉ (msgid <$> l).
Proof.
  unfold find_msg, messageIDCompare. induction l as [|x l IH]; [split; [intros _; apply not_elem_of_nil|done]|].
  cbn [List.find fmap list_fmap]. rewrite not_elem_of_cons, <- IH. destruct (Z.eqb_spec (msgid x) id); [split; [done|]|]; naive_solver.
Qed.

Lemma find_msg_middle id l1 m l2 :
  NoDup (msgid <$> l1 ++ m :: l2) -> find_msg id (l1 ++ m :: l2) = if msgid m =? id then Some m else find_msg id (l1 ++ l2).
Proof.
  unfold find_msg, messageIDCompare. induction l1 as [|x l1 IH]; intros Hnd; cbn [app List.find fmap list_fmap] in *.
  - done.
  - apply NoDup_cons in Hnd as [Hx Hnd]. rewrite IH by done. destruct (Z.eqb_spec (msgid x) id), (Z.eqb_spec (msgid m) id); try done.
    exfalso. apply Hx. rewrite fmap_app. cbn. set_solver.
Qed.

(** Removing a message releases exactly its publication. *)
Lemma removePublication_ok s l R :
  store_inv (publications s) (l :: R) ->
  MQTTProtocol_removePublication s l = Ret (with_pubs s (delete l (publications s)) (pending_writes s)).
Proof.
  intros Hs. destruct (store_lookup _ _ l Hs) as (p & Hp & Hc); [left|].
  unfold MQTTProtocol_removePublication, load_pub. rewrite Hp. cbn [mbind comp_bind comp_of_option]. by rewrite Hc.
Qed.

Lemma storePublication_ok s p R :
  store_inv (publications s) R -> 0 <= payloadlen p <= Z.of_nat (length (payload p)) ->
  exists l pub, MQTTProtocol_storePublication s p = Ret (l, with_pubs s (<[l := pub]> (publications s)) (pending_writes s)) /\
    publications s !! l = None /\ store_inv (<[l := pub]> (publications s)) (l :: R) /\
    p_topic pub = topic p /\ p_payload pub = take (Z.to_nat (payloadlen p)) (payload p).
Proof.
  intros Hs Hp. unfold MQTTProtocol_storePublication. rewrite arr_slice_take by done. cbn [mbind comp_bind].
  assert (publications s !! fresh (dom (publications s)) = None) as Hl by (apply not_elem_of_dom, is_fresh).
  do 2 eexists. split; [done|]. split; [done|]. split; [by apply store_add|done].
Qed.

Lemma refs_fields s s' :
  inboundMsgs s' = inboundMsgs s -> outboundMsgs s' = outboundMsgs s -> pending_writes s' = pending_writes s -> refs s' = refs s.
Proof. unfold refs. by intros -> -> ->. Qed.

Lemma inv_same s s' :
  protocol_inv s -> inboundMsgs s' = inboundMsgs s -> outboundMsgs s' = outboundMsgs s ->
  pending_writes s' = pending_writes s -> publications s' = publications s -> protocol_inv s'.
Proof.
  intros [H1 H2 H3 H4 H5] Hi Ho Hw Hp. constructor; rewrite ?Hi, ?Ho; try done.
  by rewrite (refs_fields s s'), Hp.
Qed.

(** A new message in a list, with its publication. *)
Lemma inv_add_out s l pub m :
  protocol_inv s -> store_inv (<[l := pub]> (publications s)) (l :: refs s) -> publish m = l ->
  find_msg (msgid m) (outboundMsgs s) = None -> out_ok m ->
  protocol_inv (with_outbound (with_pubs s (<[l := pub]> (publications s)) (pending_writes s)) (outboundMsgs s ++ [m])).
Proof.
  intros [H1 H2 H3 H4 H5] Hs Hl Hf Hm. constructor; cbn; try done.
  - eapply store_inv_perm; [|exact Hs]. unfold refs. cbn. rewrite fmap_app. cbn. rewrite Hl. solve_Permutation.
  - rewrite fmap_app. apply NoDup_app. split_and!; [done| |apply NoDup_singleton].
    apply find_msg_None in Hf. cbn. set_solver.
  - apply Forall_app. by split; [|constructor].
Qed.

Lemma inv_add_in s l pub m :
  protocol_inv s -> store_inv (<[l := pub]> (publications s)) (l :: refs s) -> publish m = l ->
  find_msg (msgid m) (inboundMsgs s) = None -> in_ok m ->
  protocol_inv (with_inbound (with_pubs s (<[l := pub]> (publications s)) (pending_writes s)) (inboundMsgs s ++ [m])).
Proof.
  intros [H1 H2 H3 H4 H5] Hs Hl Hf Hm. constructor; cbn; try done.
  - eapply store_inv_perm; [|exact Hs]. unfold refs. cbn. rewrite fmap_app. cbn. rewrite Hl. solve_Permutation.
  - rewrite fmap_app. apply NoDup_app. split_and!; [done| |apply NoDup_singleton].
    apply find_msg_None in Hf. cbn. set_solver.
  - apply Forall_app. by split; [|constructor].
Qed.

(** A message taken out, with its publication. *)
Lemma inv_remove_out s id m :
  protocol_inv s -> find_msg id (outboundMsgs s) = Some m ->
  MQTTProtocol_removePublication s (publish m) =
    Ret (with_pubs s (delete (publish m) (publications s)) (pending_writes s)) /\
  protocol_inv (with_outbound (with_pubs s (delete (publish m) (publications s)) (pending_writes s)) (remove_msg id (outboundMsgs s))).
Proof.
  intros [H1 H2 H3 H4 H5] Hf. destruct (find_msg_split _ _ _ Hf) as (l1 & l2 & E & Hid & -> & _).
  assert (store_inv (publications s) (publish m :: (publish <$> inboundMsgs s) ++ (publish <$> l1 ++ l2) ++ pending_writes s)) as Hs.
  { eapply store_inv_perm; [|exact H1]. unfold refs. rewrite E, !fmap_app. cbn. solve_Permutation. }
  split; [by eapply removePublication_ok|]. rewrite E in H3, H5.
  constructor; cbn; try done.
  - by eapply store_del.
  - rewrite fmap_app in *. cbn in H3. apply NoDup_app in H3 as (? & Hd & [? ?]%NoDup_cons). apply NoDup_app.
    split_and!; [done| |done]. intros x Hx Hx'. apply (Hd x Hx). by right.
  - rewrite Forall_app, Forall_cons in H5. rewrite Forall_app. tauto.
Qed.

Lemma inv_remove_in s id m :
  protocol_inv s -> find_msg id (inboundMsgs s) = Some m ->
  MQTTProtocol_removePublication s (publish m) =
    Ret (with_pubs s (delete (publish m) (publications s)) (pending_writes s)) /\
  protocol_inv (with_inbound (with_pubs s (delete (publish m) (publications s)) (pending_writes s)) (remove_msg id (inboundMsgs s))).
Proof.
  intros [H1 H2 H3 H4 H5] Hf. destruct (find_msg_split _ _ _ Hf) as (l1 & l2 & E & Hid & -> & _).
  assert (store_inv (publications s) (publish m :: (publish <$> l1 ++ l2) ++ (publish <$> outboundMsgs s) ++ pending_writes s)) as Hs.
  { eapply store_inv_perm; [|exact H1]. unfold refs. rewrite E, !fmap_app. cbn. solve_Permutation. }
  split; [by eapply removePublication_ok|]. rewrite E in H2, H4.
  constructor; cbn; try done.
  - by eapply store_del.
  - rewrite fmap_app in *. cbn in H2. apply NoDup_app in H2 as (? & Hd & [? ?]%NoDup_cons). apply NoDup_app.
    split_and!; [done| |done]. intros x Hx Hx'. apply (Hd x Hx). by right.
  - rewrite Forall_app, Forall_cons in H4. rewrite Forall_app. tauto.
Qed.

Lemma inv_replace_out s out :
  protocol_inv s -> publish <$> out = publish <$> outboundMsgs s -> msgid <$> out = msgid <$> outboundMsgs s ->
  Forall out_ok out -> protocol_inv (with_outbound s out).
Proof.
  intros [H1 H2 H3 H4 H5] Hp Hm Ho. constructor; cbn; [|done|by rewrite Hm|done|done]. unfold refs. cbn. by rewrite Hp.
Qed.

(** A resent message differs in its time only. *)
Definition retouched (m m' : Messages) : Prop := exists t, m' = touch t (nextMessageType m) m.

Lemma retouched_same m : retouched m m.
Proof. exists (lastTouch m). by destruct m. Qed.

Lemma retouched_fields l l' :
  Forall2 retouched l l' ->
  publish <$> l' = publish <$> l /\ msgid <$> l' = msgid <$> l /\ (Forall out_ok l -> Forall out_ok l').
Proof.
  induction 1 as [|m m' l l' [t ->] Hl (IH1 & IH2 & IH3)]; [done|]. cbn. rewrite IH1, IH2. split_and!; [done|done|].
  intros [Hm Hl']%Forall_cons. constructor; [done|by apply IH3].
Qed.

Lemma inv_retouched s out : protocol_inv s -> Forall2 retouched (outboundMsgs s) out -> protocol_inv (with_outbound s out).
Proof.
  intros Hs (H1 & H2 & H3)%retouched_fields. apply inv_replace_out; [done..|]. apply H3, Hs.
Qed.

Lemma inv_live s m : protocol_inv s -> m ∈ inboundMsgs s ++ outboundMsgs s -> exists pub, load_pub s (publish m) = Ret pub.
Proof.
  intros Hs Hm. destruct (store_lookup (publications s) (refs s) (publish m)) as (p & Hp & _); [apply Hs| |].
  - unfold refs. rewrite app_assoc, <- fmap_app. apply elem_of_app. left. by apply list_elem_of_fmap_2.
  - exists p. unfold load_pub. by rewrite Hp.
Qed.

(** *** Every operation is safe and keeps the invariant *)

Lemma find_msg_elem id l m : find_msg id l = Some m -> m ∈ l /\ msgid m = id.
Proof. intros (l1 & l2 & -> & ? & _)%find_msg_split. split; [set_solver|done]. Qed.

Definition payload_ok (p : Publish) : Prop := 0 <= payloadlen p <= Z.of_nat (length (payload p)).

Lemma startPublish_inv junk s p q retained now rc :
  protocol_inv s -> payload_ok p -> 0 <= q <= 2 -> (0 < q -> find_msg (msgId p) (outboundMsgs s) = None) ->
  exists r es s', MQTTProtocol_startPublish junk s p q retained None now rc = Ret (r, es, s') /\ protocol_inv s'.
Proof.
  intros Hs Hp Hq Hf. unfold MQTTProtocol_startPublish.
  destruct (storePublication_ok s p (refs s)) as (l & pub & E & Hl & Hst & Ht & Hd); [apply Hs|done|].
  destruct (Z.ltb_spec 0 q) as [Hq0|Hq0].
  - unfold MQTTProtocol_createMessage. rewrite E. cbn [mbind comp_bind]. unfold load_pub. cbn [publications publish with_outbound with_pubs].
    rewrite lookup_insert_eq. cbn [comp_of_option mbind comp_bind]. unfold MQTTProtocol_startPublishCommon. cbn [payload payloadlen msgId topic].
    rewrite arr_slice_take by (rewrite Hd, length_take; unfold payload_ok in Hp; lia). cbn [mbind comp_bind].
    rewrite (proj2 (Z.eqb_neq q 0)) by lia. cbn [andb mbind comp_bind]. do 3 eexists. split; [done|].
    eapply (inv_add_out s l pub); [done|done|done|by apply Hf|]. unfold out_ok. cbn. destruct (Z.eqb_spec q 2); [right; auto|left; lia].
  - unfold MQTTProtocol_startPublishCommon. rewrite arr_slice_take by done. cbn [mbind comp_bind].
    destruct ((q =? 0) && (rc =? TCPSOCKET_INTERRUPTED)); cbn [mbind comp_bind]; [|by do 3 eexists].
    unfold MQTTProtocol_storeQoS0. rewrite E. cbn [mbind comp_bind]. do 3 eexists. split; [done|].
    destruct Hs as [H1 H2 H3 H4 H5]. constructor; cbn; try done.
    eapply store_inv_perm; [|exact Hst]. unfold refs. cbn. solve_Permutation.
Qed.

Lemma handlePublishes_inv junk s p idle now rc :
  protocol_inv s -> payload_ok p ->
  exists r es ds s', MQTTProtocol_handlePublishes junk s p idle now rc = Ret (r, es, ds, s') /\ protocol_inv s'.
Proof.
  intros Hs Hp. unfold MQTTProtocol_handlePublishes, deliver_publish. rewrite arr_slice_take by done. cbn [mbind comp_bind].
  destruct (_ =? 0); [by do 4 eexists|]. destruct idle; cbn [negb]; [|by do 4 eexists].
  destruct (_ =? 1); [by do 4 eexists|]. destruct (Z.eqb_spec (hdr_qos (pub_header p)) 2) as [Hq2|]; [|by do 4 eexists].
  destruct (storePublication_ok s p (refs s)) as (l & pub & -> & Hl & Hst & Ht & Hd); [apply Hs|done|].
  cbn [mbind comp_bind msgid inboundMsgs with_pubs]. rewrite Hq2.
  set (m := {| qos := 2; retain := _; msgid := msgId p; publish := l; lastTouch := junk; nextMessageType := PUBREL |}).
  destruct (find_msg (msgId p) (inboundMsgs s)) as [msg|] eqn:Hf.
  - destruct (find_msg_split _ _ _ Hf) as (l1 & l2 & E & Hid & _ & Hu).
    destruct Hs as [H1 H2 H3 H4 H5].
    assert (store_inv (<[l := pub]> (publications s))
              (publish msg :: (publish <$> l1 ++ m :: l2) ++ (publish <$> outboundMsgs s) ++ pending_writes s)) as Hs'.
    { eapply store_inv_perm; [|exact Hst]. unfold refs. rewrite E, !fmap_app. cbn. solve_Permutation. }
    rewrite (removePublication_ok (with_pubs s (<[l := pub]> (publications s)) (pending_writes s)) _ _ Hs').
    cbn [mbind comp_bind publications pending_writes with_pubs inboundMsgs]. rewrite Hu. do 4 eexists. split; [done|].
    rewrite E in H2, H4. constructor; cbn; try done.
    + by eapply store_del.
    + rewrite fmap_app in *. cbn in *. by rewrite <- Hid.
    + rewrite Forall_app, Forall_cons in *. destruct H4 as (? & ? & ?). by split_and!.
  - cbn [mbind comp_bind]. do 4 eexists. split; [done|]. by eapply (inv_add_in s l pub).
Qed.

Lemma handlePubacks_inv s id per :
  protocol_inv s -> exists r s', MQTTProtocol_handlePubacks s id per = Ret (r, s') /\ protocol_inv s'.
Proof.
  intros Hs. unfold MQTTProtocol_handlePubacks. destruct (find_msg id (outboundMsgs s)) as [m|] eqn:Hf; [|by do 2 eexists].
  destruct (negb _); [by do 2 eexists|]. destruct (inv_remove_out s id m Hs Hf) as [-> Hs'].
  cbn [mbind comp_bind]. by do 2 eexists.
Qed.

Lemma handlePubcomps_inv s id per :
  protocol_inv s -> exists r s', MQTTProtocol_handlePubcomps s id per = Ret (r, s') /\ protocol_inv s'.
Proof.
  intros Hs. unfold MQTTProtocol_handlePubcomps. destruct (find_msg id (outboundMsgs s)) as [m|] eqn:Hf; [|by do 2 eexists].
  do 2 (destruct (negb _); [by do 2 eexists|]). destruct (inv_remove_out s id m Hs Hf) as [-> Hs'].
  cbn [mbind comp_bind]. do 2 eexists. split; [done|]. by eapply inv_same.
Qed.

Lemma handlePubrecs_inv s id now rc :
  protocol_inv s -> exists r es s', MQTTProtocol_handlePubrecs s id now rc = Ret (r, es, s') /\ protocol_inv s'.
Proof.
  intros Hs. unfold MQTTProtocol_handlePubrecs. destruct (find_msg id (outboundMsgs s)) as [m|] eqn:Hf; [|by do 3 eexists].
  destruct (Z.eqb_spec (qos m) 2) as [Hq|]; cbn [negb]; [|by do 3 eexists].
  destruct (negb _); [by do 3 eexists|]. do 3 eexists. split; [done|].
  destruct (find_msg_split _ _ _ Hf) as (l1 & l2 & E & Hid & _ & ->). pose proof (pi_out _ Hs) as Ho. rewrite E in Ho.
  apply inv_replace_out; [done|by rewrite E, !fmap_app..|].
  rewrite Forall_app, Forall_cons in *. destruct Ho as (? & ? & ?). split_and!; [done| |done]. right. by split; [|right].
Qed.

Lemma handlePubrels_inv s id dup idle rc per :
  protocol_inv s -> exists r es ds s', MQTTProtocol_handlePubrels s id dup idle rc per = Ret (r, es, ds, s') /\ protocol_inv s'.
Proof.
  intros Hs. unfold MQTTProtocol_handlePubrels. destruct (find_msg id (inboundMsgs s)) as [m|] eqn:Hf.
  - do 3 (destruct (negb _); [by do 4 eexists|]).
    destruct (inv_live s m Hs) as [pub ->]; [destruct (find_msg_elem _ _ _ Hf); set_solver|]. cbn [mbind comp_bind].
    do 4 eexists. split; [done|]. eapply inv_same; [by apply (inv_remove_in s id m Hs Hf)|done..].
  - destruct (dup =? 0); [by do 4 eexists|]. destruct idle; by do 4 eexists.
Qed.

Lemma keepalive_inv now s idle rc : protocol_inv s -> protocol_inv (MQTTProtocol_keepalive now s idle rc).2.
Proof.
  intros Hs. unfold MQTTProtocol_keepalive. repeat match goal with |- context [if ?b then _ else _] => destruct b end;
    by try (eapply inv_same; [exact Hs|..]).
Qed.

Lemma retry_message_ok s m rc t pub :
  load_pub s (publish m) = Ret pub ->
  exists es m' closed, retry_message s m rc t = Ret (es, m', closed) /\ retouched m m'.
Proof.
  intros Hl. unfold retry_message. rewrite Hl. cbn [mbind comp_bind].
  repeat case_match; do 3 eexists; (split; [done|]); first [apply retouched_same | by eexists].
Qed.

Lemma retries_loop_ok now regardless s answers todo :
  (forall m, m ∈ todo -> exists pub, load_pub s (publish m) = Ret pub) ->
  exists es out closed, retries_loop now regardless s answers todo = Ret (es, out, closed) /\ Forall2 retouched todo out.
Proof.
  assert (forall l, Forall2 retouched l l) as Hrefl by (induction l; constructor; [apply retouched_same|done]).
  revert answers. induction todo as [|m todo IH]; intros answers Hl; [do 3 eexists; split; [done|apply Hrefl]|].
  cbn [retries_loop]. destruct answers as [|[[idle rc] t] answers]; [do 3 eexists; split; [done|apply Hrefl]|].
  destruct (_ && idle); [|do 3 eexists; split; [done|apply Hrefl]]. destruct (Hl m) as [pub Hpub]; [set_solver|].
  destruct (retry_message_ok s m rc t pub Hpub) as (es & m' & closed & Hm & Hr).
  destruct (IH answers) as (es' & out & closed' & Ho & Hout); [set_solver|]. rewrite Hm, Ho.
  destruct (regardless || _); cbn [mbind comp_bind]; [destruct closed|]; cbn [mbind comp_bind]; do 3 eexists;
    (split; [done|]); constructor; by try apply retouched_same.
Qed.

Lemma retry_inv now doRetry regardless s idle answers :
  protocol_inv s -> exists es s', MQTTProtocol_retry now doRetry regardless s idle answers = Ret (es, s') /\ protocol_inv s'.
Proof.
  intros Hs. unfold MQTTProtocol_retry, MQTTProtocol_retries.
  destruct (_ =? 0); [by do 2 eexists|]. destruct (_ =? 0); [by do 2 eexists|]. destruct idle; cbn [negb]; [|by do 2 eexists].
  destruct doRetry; [|by do 2 eexists]. destruct (_ && _); [by do 2 eexists|].
  destruct (retries_loop_ok now regardless s answers (outboundMsgs s)) as (es & out & closed & -> & Hr).
  { intros m Hm. apply inv_live; [done|set_solver]. }
  cbn [mbind comp_bind]. do 2 eexists. split; [done|]. pose proof (inv_retouched s out Hs Hr).
  destruct closed; [by eapply inv_same|done].
Qed.

Lemma empty_loop_ok s l R :
  store_inv (publications s) ((publish <$> l) ++ R) ->
  exists pubs, empty_loop s l = Ret (with_pubs s pubs (pending_writes s)) /\ store_inv pubs R.
Proof.
  revert s. induction l as [|m l IH]; intros s Hs; cbn in Hs.
  - exists (publications s). split; [by destruct s|done].
  - cbn [empty_loop]. rewrite (removePublication_ok s _ _ Hs). cbn [mbind comp_bind].
    apply store_del in Hs. by destruct (IH (with_pubs s (delete (publish m) (publications s)) (pending_writes s)) Hs) as (pubs & -> & ?); eauto.
Qed.

Lemma pending_loop_ok s l R :
  store_inv (publications s) (l ++ R) ->
  exists pubs, pending_loop s l = Ret (with_pubs s pubs (pending_writes s)) /\ store_inv pubs R.
Proof.
  revert s. induction l as [|p l IH]; intros s Hs; cbn in Hs.
  - exists (publications s). split; [by destruct s|done].
  - cbn [pending_loop]. rewrite (removePublication_ok s _ _ Hs). cbn [mbind comp_bind].
    apply store_del in Hs. by destruct (IH (with_pubs s (delete p (publications s)) (pending_writes s)) Hs) as (pubs & -> & ?); eauto.
Qed.

Lemma checkPendingWrites_inv s idle :
  protocol_inv s ->
  exists s', MQTTProtocol_checkPendingWrites s idle = Ret s' /\ protocol_inv s' /\
    inboundMsgs s' = inboundMsgs s /\ outboundMsgs s' = outboundMsgs s /\ (idle = true -> pending_writes s' = []).
Proof.
  intros Hs. unfold MQTTProtocol_checkPendingWrites. destruct idle; [|by exists s].
  destruct Hs as [H1 H2 H3 H4 H5].
  destruct (pending_loop_ok s (pending_writes s) ((publish <$> inboundMsgs s) ++ (publish <$> outboundMsgs s))) as (pubs & -> & Hp).
  { eapply store_inv_perm; [|exact H1]. unfold refs. solve_Permutation. }
  cbn [mbind comp_bind]. eexists. split; [done|]. split_and!; try done. constructor; cbn; try done.
  eapply store_inv_perm; [|exact Hp]. unfold refs. cbn. by rewrite app_nil_r.
Qed.

Lemma emptyInbound_inv s :
  protocol_inv s ->
  exists s', MQTTProtocol_emptyInbound s = Ret s' /\ protocol_inv s' /\ inboundMsgs s' = [] /\ outboundMsgs s' = outboundMsgs s.
Proof.
  intros [H1 H2 H3 H4 H5]. unfold MQTTProtocol_emptyInbound.
  destruct (empty_loop_ok s (inboundMsgs s) _ H1) as (pubs & -> & Hp).
  cbn [mbind comp_bind]. eexists. split; [done|]. split_and!; try done. constructor; cbn; try done. constructor.
Qed.

Lemma emptyOutbound_inv s :
  protocol_inv s ->
  exists s', MQTTProtocol_emptyOutbound s = Ret s' /\ protocol_inv s' /\ outboundMsgs s' = [] /\ inboundMsgs s' = inboundMsgs s.
Proof.
  intros [H1 H2 H3 H4 H5]. unfold MQTTProtocol_emptyOutbound.
  destruct (empty_loop_ok s (outboundMsgs s) ((publish <$> inboundMsgs s) ++ pending_writes s)) as (pubs & -> & Hp).
  { eapply store_inv_perm; [|exact H1]. unfold refs. solve_Permutation. }
  cbn [mbind comp_bind]. eexists. split; [done|]. split_and!; try done. constructor; cbn; try done. constructor.
Qed.

(** Conditions on the calls: a payload is as long as its length says, and a
    publication that is kept has an id no message kept has.  The second one
    holds of ids by MQTTProtocol_assignMsgId (MQTTClient.c).
    MQTTAsync_assignMsgId (MQTTAsync.c:2608-2642) looks at the commands and
    responses of the client and not at [outboundMsgs], and does not see to
    it. *)
Definition pop_ok (s : pstate) (o : pop) : Prop :=
  match o with
  | Start p q _ _ _ => payload_ok p /\ 0 <= q <= 2 /\ (0 < q -> find_msg (msgId p) (outboundMsgs s) = None)
  | OnPublish p _ _ _ => payload_ok p
  | _ => True
  end.

Lemma run_pop_inv junk s o :
  protocol_inv s -> pop_ok s o -> exists es ds s', run_pop junk s o = Ret (es, ds, s') /\ protocol_inv s'.
Proof.
  intros Hs Ho. destruct o; cbn [run_pop pop_ok] in *.
  - destruct Ho as (? & ? & ?). destruct (startPublish_inv junk s p q retained now rc) as (? & ? & ? & -> & ?); [done..|].
    by do 3 eexists.
  - destruct (handlePublishes_inv junk s p idle now rc) as (? & ? & ? & ? & -> & ?); [done..|]. by do 3 eexists.
  - destruct (handlePubacks_inv s id per Hs) as (? & ? & -> & ?). by do 3 eexists.
  - destruct (handlePubrecs_inv s id now rc Hs) as (? & ? & ? & -> & ?). by do 3 eexists.
  - destruct (handlePubrels_inv s id dup idle rc per Hs) as (? & ? & ? & ? & -> & ?). by do 3 eexists.
  - destruct (handlePubcomps_inv s id per Hs) as (? & ? & -> & ?). by do 3 eexists.
  - do 3 eexists. split; [done|]. by eapply inv_same.
  - pose proof (keepalive_inv now s idle rc Hs). destruct (MQTTProtocol_keepalive now s idle rc). by do 3 eexists.
  - destruct (retry_inv now doRetry regardless s idle answers Hs) as (? & ? & -> & ?). by do 3 eexists.
  - destruct (checkPendingWrites_inv s idle Hs) as (? & -> & ? & _). by do 3 eexists.
  - destruct (emptyInbound_inv s Hs) as (s1 & -> & Hs1 & _). cbn [mbind comp_bind].
    destruct (emptyOutbound_inv s1 Hs1) as (s2 & -> & ? & _). by do 3 eexists.
Qed.

Fixpoint run_pops (junk : Z) (s : pstate) (os : list pop) : comp (list event * list delivery * pstate) :=
  match os with
  | [] => Ret ([], [], s)
  | o :: os =>
      let* (es, ds, s) := run_pop junk s o in
      let* (es', ds', s) := run_pops junk s os in Ret (es ++ es', ds ++ ds', s)
  end.

Fixpoint pops_ok (junk : Z) (s : pstate) (os : list pop) : Prop :=
  match os with
  | [] => True
  | o :: os => pop_ok s o /\ forall es ds s', run_pop junk s o = Ret (es, ds, s') -> pops_ok junk s' os
  end.

Lemma run_pops_inv junk s os :
  protocol_inv s -> pops_ok junk s os -> exists es ds s', run_pops junk s os = Ret (es, ds, s') /\ protocol_inv s'.
Proof.
  revert s. induction os as [|o os IH]; intros s Hs Ho; [by do 3 eexists|]. destruct Ho as [Ho Hos].
  destruct (run_pop_inv junk s o Hs Ho) as (es & ds & s1 & E & Hs1). cbn [run_pops].
  destruct (IH s1 Hs1 (Hos _ _ _ E)) as (es' & ds' & s2 & E' & Hs2). rewrite E. cbn [mbind comp_bind]. rewrite E'.
  by do 3 eexists.
Qed.

Lemma store_inv_nil pubs : store_inv pubs [] -> pubs = ∅.
Proof.
  intros [_ H _]. apply map_empty. intros k. destruct (pubs !! k) as [p|] eqn:E; [|done].
  assert (k ∈ []) as Hl by (apply H; by rewrite E). by apply not_elem_of_nil in Hl.
Qed.

Definition client0 : pstate :=
  {| msgID := 0; inboundMsgs := []; outboundMsgs := []; connected := 1; good := 1; ping_outstanding := 0;
     keepAliveInterval := 60; retryInterval := 20; lastSent := 0; lastReceived := 0; publications := ∅;
     pending_writes := []; msgs_received := 0; msgs_sent := 0 |}.

Lemma client0_inv : protocol_inv client0.
Proof.
  constructor; [|constructor..]. unfold refs. cbn. constructor; [constructor| |by intros k p ?].
  intros k. cbn. rewrite lookup_empty. split; [by intros [? ?]|by intros ?%not_elem_of_nil].
Qed.

(** C13: whatever happens to a client - publishing at any quality of service,
    acknowledgements in any order (of unknown ids too), publications arriving
    again, resending, write completions, a clean session - no stored publication
    is used after its release or released twice, the invariant (unique message
    ids, stored publications in one-to-one correspondence with the messages and
    pending writes that refer to them) is kept, and emptying the lists when the
    writes are done leaves no publication behind. *)
Theorem protocol_safe junk s os :
  protocol_inv s -> pops_ok junk s os ->
  exists es ds s', run_pops junk s os = Ret (es, ds, s') /\ protocol_inv s' /\
    exists s'', run_pops junk s' [CleanSession; WritesDone true] = Ret ([], [], s'') /\ publications s'' = ∅.
Proof.
  intros Hs Ho. destruct (run_pops_inv junk s os Hs Ho) as (es & ds & s' & E & Hs'). exists es, ds, s'. split_and!; [done|done|].
  cbn [run_pops run_pop].
  destruct (emptyInbound_inv s' Hs') as (s1 & -> & Hs1 & Hi1 & _). cbn [mbind comp_bind].
  destruct (emptyOutbound_inv s1 Hs1) as (s2 & -> & Hs2 & Ho2 & Hi2). cbn [mbind comp_bind].
  destruct (checkPendingWrites_inv s2 true Hs2) as (s3 & -> & Hs3 & Hi3 & Ho3 & Hw3). cbn [mbind comp_bind]. exists s3.
  split; [done|]. apply store_inv_nil. pose proof (pi_store _ Hs3) as Hst. unfold refs in Hst.
  by rewrite Hi3, Hi2, Hi1, Ho3, Ho2, Hw3 in Hst.
Qed.

Definition pub_ex (id q : Z) : Publish :=
  {| pub_header := 48 + Z.shiftl q 1; topic := "t"; topiclen := 1; msgId := id; payload := [1; 2; 3]; payloadlen := 3 |}.
Definition pops_ex : list pop :=
  [Start (pub_ex 1 2) 2 0 5 TCPSOCKET_COMPLETE; OnPublish (pub_ex 7 2) true 6 TCPSOCKET_COMPLETE; OnPubrec 1 7 TCPSOCKET_COMPLETE;
   OnPublish (pub_ex 7 2) true 8 TCPSOCKET_COMPLETE; OnPubrel 7 0 true TCPSOCKET_COMPLETE 0; OnPubcomp 9 0;
   Start (pub_ex 0 0) 0 0 9 TCPSOCKET_INTERRUPTED; OnPubcomp 1 0].

Lemma protocol_safe_witness :
  protocol_inv client0 /\ pops_ok 0 client0 pops_ex /\
  exists es ds s', run_pops 0 client0 pops_ex = Ret (es, ds, s') /\ protocol_inv s' /\
    exists s'', run_pops 0 s' [CleanSession; WritesDone true] = Ret ([], [], s'') /\ publications s'' = ∅.
Proof.
  assert (pops_ok 0 client0 pops_ex) as Ho.
  { repeat (split; [vm_compute; intuition congruence|]; intros es ds s' E; vm_compute in E; injection E as <- <- <-). exact I. }
  split; [apply client0_inv|]. split; [exact Ho|].
  apply (protocol_safe 0 client0 pops_ex client0_inv Ho).
Defined.

(** ** Message ids, in a circle of 1..65535 *)

Definition ring (start k : Z) : Z := (start - 1 + k) mod MAX_MSG_ID + 1.

Lemma ring_range start k : 1 <= ring start k <= MAX_MSG_ID.
Proof. unfold ring, MAX_MSG_ID. pose proof (Z.mod_pos_bound (start - 1 + k) 65535). lia. Qed.

Lemma ring_next start k : next_id (ring start k) = ring start (k + 1).
Proof.
  unfold next_id, ring, MAX_MSG_ID. rewrite Z.add_assoc, (Z.add_mod (start - 1 + k) 1) by lia.
  pose proof (Z.mod_pos_bound (start - 1 + k) 65535). set (x := (start - 1 + k) mod 65535) in *.
  change (1 mod 65535) with 1. destruct (Z.eqb_spec (x + 1) 65535) as [Hx|Hx].
  - by rewrite Hx.
  - rewrite (Z.mod_small (x + 1)); lia.
Qed.

Lemma ring_start start k : 1 <= start <= MAX_MSG_ID -> 1 <= k <= MAX_MSG_ID -> ring start k = start <-> k = MAX_MSG_ID.
Proof.
  unfold ring, MAX_MSG_ID. intros Hs Hk. split.
  - intros H. destruct (Z.eq_dec k 65535) as [|Hn]; [done|]. exfalso.
    destruct (Z_lt_dec (start - 1 + k) 65535).
    + rewrite Z.mod_small in H; lia.
    + rewrite <- (Z.mod_unique (start - 1 + k) 65535 1 (start - 1 + k - 65535)) in H; lia.
  - intros ->. rewrite <- (Z.mod_unique (start - 1 + 65535) 65535 1 (start - 1)); lia.
Qed.

Lemma ring_onto start id :
  1 <= start <= MAX_MSG_ID -> 1 <= id <= MAX_MSG_ID -> id <> start -> exists k, 1 <= k < MAX_MSG_ID /\ ring start k = id.
Proof.
  unfold ring, MAX_MSG_ID. intros Hs Hi Hn. destruct (Z_lt_dec start id).
  - exists (id - start). rewrite Z.mod_small; lia.
  - exists (id - start + 65535). split; [lia|]. rewrite <- (Z.mod_unique _ 65535 1 (id - 1)); lia.
Qed.

Lemma assign_loop_spec fuel used start k :
  1 <= start <= MAX_MSG_ID -> 1 <= k < MAX_MSG_ID -> MAX_MSG_ID - k <= Z.of_nat fuel ->
  exists id, assign_loop fuel used start (ring start k) = Ret id /\
    ((exists j, k <= j < MAX_MSG_ID /\ id = ring start j /\ used id = false /\
        forall i, k <= i < j -> used (ring start i) = true) \/
     id = 0 /\ forall i, k <= i < MAX_MSG_ID -> used (ring start i) = true).
Proof.
  intros Hs. revert k. induction fuel as [|fuel IH]; intros k Hk Hf; [lia|]. cbn [assign_loop].
  destruct (used (ring start k)) eqn:Hu.
  2:{ eexists. split; [done|]. left. exists k. split_and!; [lia|lia|done|done|lia]. }
  rewrite ring_next. destruct (Z.eqb_spec (ring start (k + 1)) start) as [He|He].
  - apply ring_start in He; [|done|lia]. exists 0. split; [done|]. right. split; [done|].
    intros i Hi. by replace i with k by lia.
  - assert (k + 1 <> MAX_MSG_ID) by (intros H; apply He, ring_start; [done|lia|done]).
    destruct (IH (k + 1)) as (id & -> & Hid); [lia|lia|]. exists id. split; [done|].
    destruct Hid as [(j & Hj & -> & Hju & Hall)|[-> Hall]]; [left; exists j|right]; split_and!; try done; try lia;
      intros i Hi; (destruct (Z.eq_dec i k) as [->|]; [done|apply Hall; lia]).
Qed.

Lemma all_ids_taken start (ids : list Z) :
  (forall id, 1 <= id <= MAX_MSG_ID -> id <> start -> id ∈ ids) -> MAX_MSG_ID - 1 <= Z.of_nat (length ids).
Proof.
  intros H. assert (length (seqZ 1 MAX_MSG_ID) <= length (start :: ids))%nat as Hlen.
  { apply submseteq_length, NoDup_submseteq; [apply NoDup_seqZ|]. intros id Hid%elem_of_seqZ.
    destruct (Z.eq_dec id start) as [->|]; [left|right; apply H; lia]. }
  rewrite length_seqZ in Hlen. cbn [length] in Hlen. unfold MAX_MSG_ID in *. lia.
Qed.

(** C24: choosing a message id always ends, within 65535 rounds: it gives the
    first id after the last one given, going round 1..65535, that no message
    waiting for an acknowledgement has, and remembers it, or gives 0 and
    remembers nothing, which happens only when every id but the last one given
    is taken - so never below 65534 messages in flight. *)
Theorem assign_id_spec fuel client :
  1 <= msgID client <= MAX_MSG_ID -> MAX_MSG_ID <= Z.of_nat fuel ->
  exists id client', MQTTProtocol_assignMsgId fuel client = Ret (id, client') /\
    ((exists k, 1 <= k < MAX_MSG_ID /\ id = ring (msgID client) k /\ find_msg id (outboundMsgs client) = None /\
        client' = with_msgID client id /\
        forall i, 1 <= i < k -> ring (msgID client) i ∈ (msgid <$> outboundMsgs client)) \/
     id = 0 /\ client' = client /\ MAX_MSG_ID - 1 <= Z.of_nat (length (outboundMsgs client)) /\
        forall id', 1 <= id' <= MAX_MSG_ID -> id' <> msgID client -> id' ∈ (msgid <$> outboundMsgs client)).
Proof.
  intros Hs Hf. set (used id := bool_decide (is_Some (find_msg id (outboundMsgs client)))).
  assert (forall id, used id = true -> id ∈ (msgid <$> outboundMsgs client)) as Hused.
  { intros id (m & Hm)%bool_decide_eq_true. destruct (find_msg_elem _ _ _ Hm) as [? <-]. by apply list_elem_of_fmap_2. }
  destruct (assign_loop_spec fuel used (msgID client) 1) as (id & E & Hid); [done|unfold MAX_MSG_ID; lia|unfold MAX_MSG_ID in *; lia|].
  unfold MQTTProtocol_assignMsgId. replace (next_id (msgID client)) with (ring (msgID client) 1).
  2:{ rewrite <- (ring_next _ 0). unfold ring, MAX_MSG_ID in *. rewrite Z.mod_small by lia. f_equal. lia. }
  fold used. rewrite E. cbn [mbind comp_bind]. do 2 eexists. split; [done|].
  destruct Hid as [(j & Hj & -> & Hju & Hall)|[-> Hall]]; [left|right].
  - exists j. split_and!; [lia|lia|done| | |intros i Hi; by apply Hused, Hall].
    + apply bool_decide_eq_false in Hju. by destruct (find_msg _ _); [destruct Hju|].
    + pose proof (ring_range (msgID client) j). by rewrite (proj2 (Z.eqb_neq _ 0)) by lia.
  - assert (forall id', 1 <= id' <= MAX_MSG_ID -> id' <> msgID client -> id' ∈ (msgid <$> outboundMsgs client)) as Ht.
    { intros id' Hi Hn. destruct (ring_onto (msgID client) id') as (k & Hk & <-); [done..|]. by apply Hused, Hall. }
    split_and!; [done|done| |done]. apply all_ids_taken in Ht. by rewrite length_fmap in Ht.
Qed.

Definition msg_ex (id q next : Z) : Messages := {| qos := q; retain := 0; msgid := id; publish := 1%positive; lastTouch := 0; nextMessageType := next |}.
Definition wrapping : pstate := with_outbound (with_msgID client0 MAX_MSG_ID) [msg_ex 1 1 0; msg_ex 2 2 PUBREC].

Lemma assign_id_spec_witness :
  MQTTProtocol_assignMsgId 3 wrapping = Ret (3, with_msgID wrapping 3) /\
  exists id client', MQTTProtocol_assignMsgId (Z.to_nat MAX_MSG_ID) wrapping = Ret (id, client') /\
    ((exists k, 1 <= k < MAX_MSG_ID /\ id = ring (msgID wrapping) k /\ find_msg id (outboundMsgs wrapping) = None /\
        client' = with_msgID wrapping id /\
        forall i, 1 <= i < k -> ring (msgID wrapping) i ∈ (msgid <$> outboundMsgs wrapping)) \/
     id = 0 /\ client' = wrapping /\ MAX_MSG_ID - 1 <= Z.of_nat (length (outboundMsgs wrapping)) /\
        forall id', 1 <= id' <= MAX_MSG_ID -> id' <> msgID wrapping -> id' ∈ (msgid <$> outboundMsgs wrapping)).
Proof.
  split; [reflexivity|]. apply assign_id_spec; unfold MAX_MSG_ID; cbn [msgID wrapping with_outbound with_msgID]; unfold MAX_MSG_ID; lia.
Defined.
