(* ===== verification/MqttExchange.v ===== *)
(** * The quality of service 2 exchange between two ends

    The operations of MqttProtocol.v at both ends of a connection: the packets
    each end sends travel in order, each end takes them when it likes, any send
    may report anything, and the connection may be lost with whatever it
    carries, at any moment and any number of times. *)

From S2P Require Import Prelude CString MqttPacket MqttSocket MqttProtocol.

Local Open Scope Z_scope.

(** ** The system *)

(** What was published, or given to the application, under an id. *)
Abbreviation content := (string * list Z)%type.

Record system := {
  sender : pstate;
  receiver : pstate;
  forth : list event;
  back : list event;
  published : list (Z * content);
  delivered : list (Z * content)
}.

(** One thing that happens; the arguments are what the clock, the sockets and
    the persistent store answer. *)
Inductive move :=
  | Offer (topic : string) (payload : list Z) (retained now rc : Z)
  | Forth (idle : bool) (now rc per : Z)
  | Back (now rc per : Z)
  | Resend (now : Z) (doRetry regardless idle : bool) (answers : list (bool * Z * Z))
  | Lose.

Definition is_packet (e : event) : bool := match e with CloseSession => false | _ => true end.

(** The handler a packet is given to (MQTTAsync_cycle and the handle table). *)
Definition arrived (id dup q ret : Z) (t : string) (d : list Z) : Publish :=
  {| pub_header := header_bits PUBLISH dup q ret; topic := t; topiclen := strlen t; msgId := id;
     payload := d; payloadlen := Z.of_nat (length d) |}.

Definition handler (e : event) (idle : bool) (now rc per : Z) : option pop :=
  match e with
  | SentPublish id dup q ret t d => Some (OnPublish (arrived id dup q ret t d) idle now rc)
  | SentAck type id dup =>
      if type =? PUBACK then Some (OnPuback id per)
      else if type =? PUBREC then Some (OnPubrec id now rc)
      else if type =? PUBREL then Some (OnPubrel id dup idle rc per)
      else if type =? PUBCOMP then Some (OnPubcomp id per)
      else None
  | _ => None
  end.

Definition given (d : delivery) : Z * content := (d_msgid d, (d_topic d, d_payload d)).

Section system.
Context (junk : Z).

(** A message is offered under an id of MQTTProtocol_assignMsgId, as
    MQTTClient.c does it.  The client of the hub takes its ids from
    MQTTAsync_assignMsgId (MQTTAsync.c:2608-2642, [MQTTAsync_assignMsgId] of
    MqttAsync.v), which does not look at [outboundMsgs]. *)
Definition offer (s : pstate) (t : string) (d : list Z) (retained now rc : Z)
  : comp (list event * list (Z * content) * pstate) :=
  let* (id, s) := MQTTProtocol_assignMsgId (Z.to_nat MAX_MSG_ID) s in
  if id =? 0 then Ret ([], [], s)
  else
    let* (es, _, s) := run_pop junk s (Start (arrived id 0 2 retained t d) 2 retained now rc) in
    Ret (es, [(id, (t, d))], s).

Definition handle (s : pstate) (e : event) (idle : bool) (now rc per : Z) : comp (list event * list delivery * pstate) :=
  match handler e idle now rc per with Some o => run_pop junk s o | None => Ret ([], [], s) end.

Definition sys_step (x : system) (m : move) : comp system :=
  match m with
  | Offer t d retained now rc =>
      let* (es, c, s) := offer (sender x) t d retained now rc in
      Ret {| sender := s; receiver := receiver x; forth := forth x ++ List.filter is_packet es; back := back x;
             published := published x ++ c; delivered := delivered x |}
  | Forth idle now rc per =>
      match forth x with
      | [] => Ret x
      | e :: rest =>
          let* (es, ds, r) := handle (receiver x) e idle now rc per in
          Ret {| sender := sender x; receiver := r; forth := rest; back := back x ++ List.filter is_packet es;
                 published := published x; delivered := delivered x ++ (given <$> ds) |}
      end
  | Back now rc per =>
      match back x with
      | [] => Ret x
      | e :: rest =>
          let* (es, _, s) := handle (sender x) e true now rc per in
          Ret {| sender := s; receiver := receiver x; forth := forth x ++ List.filter is_packet es; back := rest;
                 published := published x; delivered := delivered x |}
      end
  | Resend now doRetry regardless idle answers =>
      let* (es, _, s) := run_pop junk (sender x) (Retry now doRetry regardless idle answers) in
      Ret {| sender := s; receiver := receiver x; forth := forth x ++ List.filter is_packet es; back := back x;
             published := published x; delivered := delivered x |}
  | Lose =>
      Ret {| sender := sender x; receiver := receiver x; forth := []; back := [];
             published := published x; delivered := delivered x |}
  end.

Fixpoint sys_run (x : system) (ms : list move) : comp system :=
  match ms with
  | [] => Ret x
  | m :: ms => let* x := sys_step x m in sys_run x ms
  end.
End system.

(** ** One id: the abstract exchange

    [o] is what the sender keeps (with the packet it waits for), [n] what the
    receiver keeps, [f] the PUBLISH ([Some]) and PUBREL ([None]) packets on
    their way, [b] the PUBREC ([false]) and PUBCOMP ([true]) packets on their
    way back, [u] what is published and not given to the application. *)

Abbreviation rels := (Forall (eq (@None content))).
Abbreviation pubs c := (Forall (eq (Some c))).
Abbreviation recs := (Forall (eq false)).

Inductive exchange : option (content * Z) -> option content -> list (option content) -> list bool -> list content -> Prop :=
  | ex_idle f : rels f -> exchange None None f [] []
  | ex_offered c f1 f2 : rels f1 -> pubs c f2 -> exchange (Some (c, PUBREC)) None (f1 ++ f2) [] [c]
  | ex_stored c f b : pubs c f -> recs b -> exchange (Some (c, PUBREC)) (Some c) f b [c]
  | ex_releasing c f1 f2 b : pubs c f1 -> rels f2 -> recs b -> exchange (Some (c, PUBCOMP)) (Some c) (f1 ++ f2) b [c]
  | ex_released c f b b' : rels f -> recs b -> b' = [] \/ b' = [true] -> exchange (Some (c, PUBCOMP)) None f (b ++ b') [].

#[local] Hint Constructors exchange Forall : core.

Lemma ex_publish c n f b u :
  exchange None n f b u -> exchange (Some (c, PUBREC)) n (f ++ [Some c]) b [c] /\ u = [].
Proof. inversion 1; subst. split; [apply ex_offered|]; auto. Qed.

(** A packet of the sender that the receiver does not act on. *)
Lemma ex_drop x o n f b u : exchange o n (x :: f) b u -> exchange o n f b u.
Proof.
  inversion 1 as [? Hr|c f1 f2 H1 H2|c ? ? H1 H2|c f1 f2 ? H1 H2 H3|c ? b1 b2 H1 H2 H3]; subst.
  - apply Forall_cons in Hr as [? ?]. auto.
  - destruct f1 as [|y f1]; simplify_eq/=.
    + subst. apply Forall_cons in H2 as [? ?]. apply (ex_offered c []); auto.
    + apply Forall_cons in H1 as [? ?]. auto.
  - apply Forall_cons in H1 as [? ?]. auto.
  - destruct f1 as [|y f1]; simplify_eq/=.
    + subst. apply Forall_cons in H2 as [? ?]. apply (ex_releasing c []); auto.
    + apply Forall_cons in H1 as [? ?]. auto.
  - apply Forall_cons in H1 as [? ?]. auto.
Qed.

Lemma ex_forth_publish c o n f b u : exchange o n (Some c :: f) b u -> exchange o (Some c) f (b ++ [false]) u.
Proof.
  assert (forall l, recs l -> recs (l ++ [false])) as Happ by (intros; apply Forall_app; auto).
  inversion 1 as [? Hr|c' f1 f2 H1 H2|c' ? ? H1 H2|c' f1 f2 ? H1 H2 H3|c' ? b1 b2 H1 H2 H3]; subst.
  - by apply Forall_cons in Hr as [? ?].
  - destruct f1 as [|y f1]; simplify_eq/=; [|by apply Forall_cons in H1 as [? ?]].
    subst. apply Forall_cons in H2 as [[= ->] ?]. apply ex_stored; auto.
  - apply Forall_cons in H1 as [[= ->] ?]. auto.
  - destruct f1 as [|y f1]; simplify_eq/=; [subst; by apply Forall_cons in H2 as [? ?]|].
    apply Forall_cons in H1 as [[= ->] ?]. auto.
  - by apply Forall_cons in H1 as [? ?].
Qed.

Lemma ex_forth_pubrel c o f b u : exchange o (Some c) (None :: f) b u -> exchange o None f (b ++ [true]) [] /\ u = [c].
Proof.
  inversion 1 as [| |c' ? ? H1 H2|c' f1 f2 ? H1 H2 H3|]; subst.
  - by apply Forall_cons in H1 as [? ?].
  - destruct f1 as [|y f1]; simplify_eq/=; [|by apply Forall_cons in H1 as [? ?]].
    subst. apply Forall_cons in H2 as [_ ?]. split; [|done]. apply ex_released; auto.
Qed.

Lemma ex_back_pubrec o n f b u :
  exchange o n f (false :: b) u ->
  exists c, o = Some (c, PUBREC) /\ exchange (Some (c, PUBCOMP)) n (f ++ [None]) b u \/
            o = Some (c, PUBCOMP) /\ exchange o n f b u.
Proof.
  inversion 1 as [| |c ? ? H1 H2|c f1 f2 ? H1 H2 H3|c ? b1 b2 H1 H2 H3]; subst; exists c.
  - left. split; [done|]. apply Forall_cons in H2 as [_ ?]. apply ex_releasing; auto.
  - right. split; [done|]. apply Forall_cons in H3 as [_ ?]. auto.
  - right. split; [done|]. destruct b1 as [|y b1]; simplify_eq/=.
    + destruct H3; discriminate.
    + apply Forall_cons in H2 as [_ ?]. auto.
Qed.

Lemma ex_back_pubcomp o n f b u :
  exchange o n f (true :: b) u -> exists c, o = Some (c, PUBCOMP) /\ exchange None n f b u.
Proof.
  inversion 1 as [| |c ? ? H1 H2|c f1 f2 ? H1 H2 H3|c ? b1 b2 H1 H2 H3]; subst; exists c.
  - by apply Forall_cons in H2 as [? ?].
  - by apply Forall_cons in H3 as [? ?].
  - split; [done|]. destruct b1 as [|y b1]; simplify_eq/=; [|by apply Forall_cons in H2 as [? ?]].
    destruct H3 as [? | ?]; simplify_eq. auto.
Qed.

(** What the sender sends again fits the packet it waits for. *)
Definition fitting (o : option (content * Z)) (x : option content) : Prop :=
  exists c, o = Some (c, PUBREC) /\ x = Some c \/ o = Some (c, PUBCOMP) /\ x = None.

Lemma ex_resend o n f b u es : exchange o n f b u -> Forall (fitting o) es -> exchange o n (f ++ es) b u.
Proof.
  assert (forall c, Forall (fitting (Some (c, PUBREC))) es -> pubs c es) as HR.
  { intros c Hc. eapply Forall_impl; [exact Hc|]. intros x [c' [[[= ->] ->]|[[=] _]]]. done. }
  assert (forall c, Forall (fitting (Some (c, PUBCOMP))) es -> rels es) as HC.
  { intros c Hc. eapply Forall_impl; [exact Hc|]. intros x [c' [[[=] _]|[[= ->] ->]]]. done. }
  destruct 1 as [? Hr|c f1 f2 H1 H2|c ? ? H1 H2|c f1 f2 ? H1 H2 H3|c ? b1 b2 H1 H2 H3]; intros Hes.
  - destruct es as [|x es]; [rewrite app_nil_r; auto|]. apply Forall_cons in Hes as [[c [[? _]|[? _]]] _]; done.
  - rewrite <- app_assoc. apply ex_offered; [done|]. apply Forall_app. auto.
  - apply ex_stored; [|done]. apply Forall_app. auto.
  - rewrite <- app_assoc. apply ex_releasing; [done| |done]. apply Forall_app. eauto.
  - apply ex_released; [|done..]. apply Forall_app. eauto.
Qed.

Lemma ex_lose o n f b u : exchange o n f b u -> exchange o n [] [] u.
Proof. destruct 1; [auto|apply (ex_offered _ [])|auto|apply (ex_releasing _ [])|apply (ex_released _ _ [] [])]; auto. Qed.

Lemma ex_pending o n f b u : exchange o n f b u -> u = [] \/ exists c next, u = [c] /\ o = Some (c, next).
Proof. destruct 1; eauto. Qed.

(** ** What a client keeps under an id *)

Definition kept (p : Publications) (m : Messages) : content * Z := ((p_topic p, p_payload p), nextMessageType m).

Definition msg_at (store : gmap loc Publications) (l : list Messages) (id : Z) : option (content * Z) :=
  m ← find_msg id l; p ← store !! publish m; Some (kept p m).

Definition out_at (s : pstate) : Z -> option (content * Z) := msg_at (publications s) (outboundMsgs s).
Definition in_at (s : pstate) (id : Z) : option content := fst <$> msg_at (publications s) (inboundMsgs s) id.

Lemma find_msg_unique l m : NoDup (msgid <$> l) -> m ∈ l -> find_msg (msgid m) l = Some m.
Proof.
  intros Hnd (l1 & l2 & ->)%list_elem_of_split. by rewrite find_msg_middle, Z.eqb_refl.
Qed.

Lemma find_msg_snoc l m id :
  find_msg (msgid m) l = None -> find_msg id (l ++ [m]) = if msgid m =? id then Some m else find_msg id l.
Proof.
  unfold find_msg, messageIDCompare. induction l as [|x l IH]; intros Hf; cbn [app List.find] in *; [done|].
  destruct (Z.eqb_spec (msgid x) (msgid m)) as [|Hn]; [done|]. rewrite IH by done.
  destruct (Z.eqb_spec (msgid x) id), (Z.eqb_spec (msgid m) id); congruence.
Qed.

Lemma find_msg_remove l i m id :
  NoDup (msgid <$> l) -> find_msg i l = Some m -> find_msg id (remove_msg i l) = if i =? id then None else find_msg id l.
Proof.
  intros Hnd Hf. destruct (find_msg_split _ _ _ Hf) as (l1 & l2 & -> & Hm & -> & _).
  rewrite (find_msg_middle _ _ _ _ Hnd), Hm. destruct (Z.eqb_spec i id) as [<-|]; [|done].
  apply find_msg_None. rewrite fmap_app in *. cbn in Hnd. apply NoDup_app in Hnd as (_ & Hd & [Hn _]%NoDup_cons).
  rewrite Hm in *. intros [?|?]%elem_of_app; [|done]. apply (Hd i); [done|left].
Qed.

Lemma find_msg_update l i m g id :
  NoDup (msgid <$> l) -> find_msg i l = Some m -> msgid (g m) = i ->
  find_msg id (update_msg i g l) = if i =? id then Some (g m) else find_msg id l.
Proof.
  intros Hnd Hf Hg. destruct (find_msg_split _ _ _ Hf) as (l1 & l2 & -> & Hm & _ & ->).
  rewrite (find_msg_middle _ _ _ _ Hnd), find_msg_middle; [rewrite Hg, Hm; by destruct (i =? id)|].
  rewrite fmap_app in *. cbn in *. by rewrite Hg, <- Hm.
Qed.

Lemma msg_at_insert store l k p id :
  (forall m, m ∈ l -> publish m <> k) -> msg_at (<[k := p]> store) l id = msg_at store l id.
Proof.
  intros H. unfold msg_at. destruct (find_msg id l) as [m|] eqn:E; [|done]. cbn [mbind option_bind].
  rewrite lookup_insert_ne; [done|]. apply find_msg_elem in E as [? _]. by apply not_eq_sym, H.
Qed.

Lemma msg_at_delete store l k id :
  (forall m, m ∈ l -> publish m <> k) -> msg_at (delete k store) l id = msg_at store l id.
Proof.
  intros H. unfold msg_at. destruct (find_msg id l) as [m|] eqn:E; [|done]. cbn [mbind option_bind].
  rewrite lookup_delete_ne; [done|]. apply find_msg_elem in E as [? _]. by apply not_eq_sym, H.
Qed.

Lemma msg_at_Some store l id x :
  msg_at store l id = Some x -> exists m p, find_msg id l = Some m /\ store !! publish m = Some p /\ x = kept p m.
Proof. unfold msg_at. intros (m & ? & (p & ? & [= <-])%bind_Some)%bind_Some. eauto. Qed.

Lemma msg_at_retouched store l l' id : Forall2 retouched l l' -> msg_at store l' id = msg_at store l id.
Proof.
  unfold msg_at, find_msg, messageIDCompare. induction 1 as [|m m' l l' [t ->] Hl IH]; [done|].
  cbn [List.find]. change (msgid (touch t (nextMessageType m) m)) with (msgid m). by destruct (msgid m =? id).
Qed.

Lemma live_at s id l :
  protocol_inv s -> l = inboundMsgs s \/ l = outboundMsgs s ->
  msg_at (publications s) l id = None -> find_msg id l = None.
Proof.
  intros Hs Hl Hn. destruct (find_msg id l) as [m|] eqn:E; [|done]. exfalso.
  destruct (inv_live s m Hs) as [p Hp]; [apply find_msg_elem in E as [? _]; destruct Hl; set_solver|].
  unfold load_pub in Hp. destruct (publications s !! publish m) eqn:Ep; [|done]. unfold msg_at in Hn. rewrite E in Hn. cbn in Hn.
  by rewrite Ep in Hn.
Qed.

(** A publication is another message's, in the same list, under no id. *)
Lemma publish_distinct s l m i :
  protocol_inv s -> l = inboundMsgs s \/ l = outboundMsgs s -> find_msg i l = Some m ->
  forall m', m' ∈ remove_msg i l -> publish m' <> publish m.
Proof.
  intros Hs Hl Hf m' Hm' He. destruct (find_msg_split _ _ _ Hf) as (l1 & l2 & E & _ & Hr & _). rewrite Hr in Hm'.
  assert (NoDup (publish <$> l)) as Hnd.
  { pose proof (si_nodup _ _ (pi_store _ Hs)) as Hnd. unfold refs in Hnd. apply NoDup_app in Hnd as (Hi & _ & [Ho _]%NoDup_app).
    by destruct Hl as [-> | ->]. }
  rewrite E, fmap_app in Hnd. cbn in Hnd. apply NoDup_app in Hnd as (_ & Hd & [Hn _]%NoDup_cons).
  apply elem_of_app in Hm' as [Hm'|Hm'].
  - apply (Hd (publish m)); [rewrite <- He; by apply list_elem_of_fmap_2|left].
  - apply Hn. rewrite <- He. by apply list_elem_of_fmap_2.
Qed.

Lemma publish_not_fresh s l k :
  protocol_inv s -> l = inboundMsgs s \/ l = outboundMsgs s -> publications s !! k = None -> forall m, m ∈ l -> publish m <> k.
Proof.
  intros Hs Hl Hk m Hm <-. destruct (inv_live s m Hs) as [p Hp]; [destruct Hl; set_solver|].
  unfold load_pub in Hp. by rewrite Hk in Hp.
Qed.

Lemma msg_at_remove s l i m id :
  protocol_inv s -> l = inboundMsgs s \/ l = outboundMsgs s -> find_msg i l = Some m ->
  msg_at (delete (publish m) (publications s)) (remove_msg i l) id = if i =? id then None else msg_at (publications s) l id.
Proof.
  intros Hs Hl Hf. rewrite msg_at_delete by by eapply publish_distinct.
  unfold msg_at. rewrite (find_msg_remove l i m id); [by destruct (i =? id)|destruct Hl as [-> | ->]; apply Hs|done].
Qed.

(** ** The operations, seen through what is kept *)

Definition out2 (s : pstate) : Prop := Forall (fun m => qos m = 2) (outboundMsgs s).

(** Publishing with an id not in use. *)
Lemma start_effect junk s id ret t d now rc :
  protocol_inv s -> out2 s -> find_msg id (outboundMsgs s) = None ->
  exists s', run_pop junk s (Start (arrived id 0 2 ret t d) 2 ret now rc) = Ret ([SentPublish id 0 2 ret t d], [], s') /\
    protocol_inv s' /\ out2 s' /\ msgID s' = msgID s /\
    forall i, out_at s' i = if id =? i then Some ((t, d), PUBREC) else out_at s i.
Proof.
  intros Hs H2 Hf. set (p := arrived id 0 2 ret t d).
  assert (payload_ok p) as Hp by (unfold payload_ok; cbn; lia).
  destruct (storePublication_ok s p (refs s)) as (l & pub & E & Hl & Hst & Ht & Hd); [apply Hs|done|].
  assert (p_payload pub = d) as Hd' by (rewrite Hd; cbn; rewrite Nat2Z.id; apply firstn_all).
  destruct (startPublish_inv junk s p 2 ret now rc) as (r & es & s' & ES & Hs'); [done|done|lia|done|].
  cbn [run_pop]. rewrite ES. cbn [mbind comp_bind]. unfold MQTTProtocol_startPublish, MQTTProtocol_createMessage in ES.
  cbn [Z.ltb Z.compare] in ES. rewrite E in ES. cbn [mbind comp_bind] in ES. unfold load_pub in ES.
  cbn [publications publish with_outbound with_pubs] in ES. rewrite lookup_insert_eq in ES.
  unfold MQTTProtocol_startPublishCommon in ES. cbn [comp_of_option mbind comp_bind payload payloadlen] in ES.
  rewrite arr_slice_take in ES by (rewrite Hd'; exact Hp).
  cbn [mbind comp_bind topic msgId p arrived Z.eqb andb payloadlen] in ES. rewrite Nat2Z.id, Hd', firstn_all, Ht in ES.
  injection ES as <- <- <-. eexists. split; [done|]. split; [done|]. split; [|split; [done|]].
  - apply Forall_app. split; [done|]. constructor; [done|constructor].
  - intros i. unfold out_at. cbn [publications outboundMsgs with_outbound with_pubs]. unfold msg_at.
    rewrite find_msg_snoc by done. cbn [msgid p arrived msgId].
    destruct (Z.eqb_spec id i) as [|Hn].
    + cbn [mbind option_bind publish]. rewrite lookup_insert_eq. cbn. unfold kept. cbn. by rewrite Hd', Ht.
    + apply (msg_at_insert (publications s)). by apply publish_not_fresh with s; [|right|].
Qed.

Lemma pubrec_effect junk s id c now rc :
  protocol_inv s -> out2 s -> out_at s id = Some (c, PUBREC) ->
  exists s', run_pop junk s (OnPubrec id now rc) = Ret ([SentAck PUBREL id 0], [], s') /\
    protocol_inv s' /\ out2 s' /\ msgID s' = msgID s /\
    forall i, out_at s' i = if id =? i then Some (c, PUBCOMP) else out_at s i.
Proof.
  intros Hs H2 Ho. destruct (msg_at_Some _ _ _ _ Ho) as (m & p & Hf & Hp & [= -> Hn]).
  destruct (run_pop_inv junk s (OnPubrec id now rc) Hs I) as (es & ds & s' & E & Hs').
  assert (qos m = 2) as Hq by (apply find_msg_elem in Hf as [Hm _]; by apply (proj1 (Forall_forall _ _) H2)).
  rewrite E. cbn [run_pop] in E. unfold MQTTProtocol_handlePubrecs in E. rewrite Hf, Hq, <- Hn in E. cbn in E. injection E as <- <- <-.
  eexists. split; [done|]. split; [done|].
  destruct (find_msg_split _ _ _ Hf) as (l1 & l2 & El & Hi & _ & Hu). split; [|split; [done|]].
  - unfold out2 in *. cbn. rewrite Hu. rewrite El in H2. by rewrite Forall_app, Forall_cons in *.
  - intros i. unfold out_at, msg_at. cbn [publications outboundMsgs with_outbound].
    rewrite (find_msg_update _ _ m) by (done || apply Hs). destruct (Z.eqb_spec id i) as [|]; [|done].
    cbn [mbind option_bind publish touch]. rewrite Hp. done.
Qed.

Lemma pubrec_again junk s id c now rc :
  out_at s id = Some (c, PUBCOMP) -> run_pop junk s (OnPubrec id now rc) = Ret ([], [], s).
Proof.
  intros Ho. destruct (msg_at_Some _ _ _ _ Ho) as (m & p & Hf & Hp & [= -> Hn]).
  cbn [run_pop]. unfold MQTTProtocol_handlePubrecs. rewrite Hf, <- Hn. by destruct (negb (qos m =? 2)).
Qed.

Lemma pubcomp_effect junk s id c per :
  protocol_inv s -> out2 s -> out_at s id = Some (c, PUBCOMP) ->
  exists s', run_pop junk s (OnPubcomp id per) = Ret ([], [], s') /\
    protocol_inv s' /\ out2 s' /\ msgID s' = msgID s /\
    forall i, out_at s' i = if id =? i then None else out_at s i.
Proof.
  intros Hs H2 Ho. destruct (msg_at_Some _ _ _ _ Ho) as (m & p & Hf & Hp & [= -> Hn]).
  destruct (run_pop_inv junk s (OnPubcomp id per) Hs I) as (es & ds & s' & E & Hs').
  assert (qos m = 2) as Hq by (apply find_msg_elem in Hf as [Hm _]; by apply (proj1 (Forall_forall _ _) H2)).
  rewrite E. cbn [run_pop] in E. unfold MQTTProtocol_handlePubcomps in E. rewrite Hf, Hq, <- Hn in E. cbn in E.
  destruct (inv_remove_out s id m Hs Hf) as [Er _]. rewrite Er in E. cbn in E. injection E as <- <- <-.
  eexists. split; [done|]. split; [done|]. split; [|split; [done|]].
  - destruct (find_msg_split _ _ _ Hf) as (l1 & l2 & El & Hi & Hr & _). unfold out2 in *. cbn. rewrite Hr. rewrite El in H2.
    rewrite Forall_app, Forall_cons in *. tauto.
  - intros i. apply (msg_at_remove s); [done|by right|done].
Qed.

(** The receiver. *)
Lemma publish_effect junk r id dup ret t d now rc :
  protocol_inv r ->
  exists r', run_pop junk r (OnPublish (arrived id dup 2 ret t d) true now rc) = Ret ([SentAck PUBREC id 0], [], r') /\
    protocol_inv r' /\ forall i, in_at r' i = if id =? i then Some (t, d) else in_at r i.
Proof.
  intros Hr. set (p := arrived id dup 2 ret t d). assert (payload_ok p) as Hp by (unfold payload_ok; cbn; lia).
  destruct (storePublication_ok r p (refs r)) as (l & pub & E & Hl & Hst & Ht & Hd); [apply Hr|done|].
  assert (p_payload pub = d) as Hd' by (rewrite Hd; cbn; rewrite Nat2Z.id; apply firstn_all).
  destruct (run_pop_inv junk r (OnPublish p true now rc) Hr Hp) as (es & ds & r' & ER & Hr'). rewrite ER.
  cbn [run_pop] in ER. unfold MQTTProtocol_handlePublishes in ER.
  assert (hdr_qos (pub_header p) = 2) as Hq by (cbn; by destruct (header_bits_fields PUBLISH dup 2 ret) as (_ & _ & _ & -> & _)).
  rewrite Hq, E in ER. cbn [Z.eqb negb mbind comp_bind msgid msgId p arrived inboundMsgs with_pubs Pos.eqb] in ER.
  destruct (find_msg id (inboundMsgs r)) as [m|] eqn:Hf.
  - rewrite (removePublication_ok _ _ ((publish <$> remove_msg id (inboundMsgs r)) ++ l :: (publish <$> outboundMsgs r) ++ pending_writes r)) in ER.
    2:{ cbn [publications with_pubs]. eapply store_inv_perm; [|exact Hst]. unfold refs.
        destruct (find_msg_split _ _ _ Hf) as (l1 & l2 & -> & _ & -> & _). rewrite !fmap_app. cbn. solve_Permutation. }
    cbn in ER. injection ER as <- <- <-. eexists. split; [done|]. split; [done|]. intros i.
    unfold in_at. cbn [publications inboundMsgs with_inbound with_pubs]. unfold msg_at.
    rewrite (find_msg_update _ _ m) by (done || apply Hr). destruct (Z.eqb_spec id i) as [|Hn].
    + cbn [mbind option_bind publish]. rewrite lookup_delete_ne, lookup_insert_eq; [cbn; by rewrite Ht, Hd'|].
      intros Hk. eapply (publish_not_fresh r _ l Hr); [by left|done| |exact Hk]. by eapply find_msg_elem.
    + destruct (find_msg i (inboundMsgs r)) as [m'|] eqn:Hf'; [|done]. cbn [mbind option_bind].
      rewrite lookup_delete_ne, lookup_insert_ne; [done| |].
      * intros Hk. eapply (publish_not_fresh r _ l Hr); [by left|done| |symmetry; exact Hk]. by eapply find_msg_elem.
      * intros Hk. eapply (publish_distinct r _ m id Hr); [by left|done| |symmetry; exact Hk].
        pose proof (find_msg_remove _ id m i (pi_in_ids _ Hr) Hf) as Hrm. rewrite (proj2 (Z.eqb_neq id i) Hn), Hf' in Hrm.
        by eapply find_msg_elem.
  - cbn in ER. injection ER as <- <- <-. eexists. split; [done|]. split; [done|]. intros i.
    unfold in_at. cbn [publications inboundMsgs with_inbound with_pubs]. unfold msg_at.
    rewrite find_msg_snoc by done. cbn [msgid]. destruct (Z.eqb_spec id i) as [|Hn].
    + cbn [mbind option_bind publish]. rewrite lookup_insert_eq. cbn. by rewrite Ht, Hd'.
    + apply (f_equal (fmap fst)), (msg_at_insert (publications r)). by apply publish_not_fresh with r; [|left|].
Qed.

Lemma pubrel_effect junk r id dup c rc per :
  protocol_inv r -> in_at r id = Some c ->
  exists d r', run_pop junk r (OnPubrel id dup true rc per) = Ret ([SentAck PUBCOMP id 0], [d], r') /\ given d = (id, c) /\
    protocol_inv r' /\ forall i, in_at r' i = if id =? i then None else in_at r i.
Proof.
  intros Hr Hi. unfold in_at in Hi. destruct (msg_at _ _ _) as [x|] eqn:Hx; [|done]. injection Hi as <-.
  destruct (msg_at_Some _ _ _ _ Hx) as (m & p & Hf & Hp & ->).
  destruct (run_pop_inv junk r (OnPubrel id dup true rc per) Hr I) as (es & ds & r' & E & Hr').
  assert (in_ok m) as [Hq Hn] by (apply find_msg_elem in Hf as [Hm _]; by apply (proj1 (Forall_forall _ _) (pi_in _ Hr))).
  rewrite E. cbn [run_pop] in E. unfold MQTTProtocol_handlePubrels, load_pub in E. rewrite Hf, Hq, Hn, Hp in E. cbn in E.
  injection E as <- <- <-. do 2 eexists. split; [done|].
  split; [unfold given; cbn; by destruct (find_msg_elem _ _ _ Hf) as [_ <-]|]. split; [done|].
  intros i. unfold in_at. cbn [publications inboundMsgs with_inbound with_pubs with_counts]. rewrite (msg_at_remove r _ id m i Hr) by (by left || done). by destruct (id =? i).
Qed.

Lemma pubrel_unknown junk r id rc per idle :
  protocol_inv r -> in_at r id = None -> run_pop junk r (OnPubrel id 0 idle rc per) = Ret ([], [], r).
Proof.
  intros Hr Hi. unfold in_at in Hi. assert (find_msg id (inboundMsgs r) = None) as Hf.
  { apply (live_at r); [done|by left|]. by destruct (msg_at _ _ _). }
  cbn [run_pop]. unfold MQTTProtocol_handlePubrels. by rewrite Hf.
Qed.

(** With writes pending, the receiver acts on nothing of this exchange. *)
Lemma busy_publish junk r id dup ret t d now rc :
  run_pop junk r (OnPublish (arrived id dup 2 ret t d) false now rc) = Ret ([], [], r).
Proof.
  cbn [run_pop]. unfold MQTTProtocol_handlePublishes. cbn [pub_header arrived].
  by destruct (header_bits_fields PUBLISH dup 2 ret) as (_ & _ & _ & -> & _).
Qed.

Lemma busy_pubrel junk r id rc per : run_pop junk r (OnPubrel id 0 false rc per) = Ret ([], [], r).
Proof.
  cbn [run_pop]. unfold MQTTProtocol_handlePubrels. destruct (find_msg _ _) as [m|]; [|done].
  by destruct (negb (qos m =? 2)), (negb (nextMessageType m =? PUBREL)).
Qed.

(** Resending. *)
Inductive resent (s : pstate) : event -> Prop :=
  | resent_close : resent s CloseSession
  | resent_publish id ret t d : out_at s id = Some ((t, d), PUBREC) -> resent s (SentPublish id 1 2 ret t d)
  | resent_pubrel id c : out_at s id = Some (c, PUBCOMP) -> resent s (SentAck PUBREL id 0).

Lemma retry_message_resent s m rc t es m' closed :
  protocol_inv s -> out2 s -> m ∈ outboundMsgs s -> retry_message s m rc t = Ret (es, m', closed) -> Forall (resent s) es.
Proof.
  intros Hs H2 Hm. assert (qos m = 2) as Hq by by apply (proj1 (Forall_forall _ _) H2).
  destruct (inv_live s m Hs) as [pub Hp]; [set_solver|].
  assert (out_at s (msgid m) = Some (kept pub m)) as Ho.
  { unfold out_at, msg_at. rewrite (find_msg_unique _ m (pi_out_ids _ Hs) Hm). cbn. unfold load_pub in Hp.
    by destruct (publications s !! publish m); simplify_eq/=. }
  unfold retry_message. rewrite Hq, Hp. cbn [mbind comp_bind Z.eqb Pos.eqb orb andb negb].
  destruct (Z.eqb_spec (nextMessageType m) PUBREC) as [Hn|]; [|destruct (Z.eqb_spec (nextMessageType m) PUBCOMP) as [Hn|]].
  - unfold kept in Ho. rewrite Hn in Ho. pose proof (resent_publish _ _ (retain m) _ _ Ho) as He.
    destruct (rc =? SOCKET_ERROR); intros [= <- <- <-]; repeat constructor; done.
  - unfold kept in Ho. rewrite Hn in Ho. pose proof (resent_pubrel _ _ _ Ho) as He.
    destruct (negb _); intros [= <- <- <-]; repeat constructor; done.
  - intros [= <- <- <-]. constructor.
Qed.

Lemma retries_loop_resent now regardless s answers todo es out closed :
  protocol_inv s -> out2 s -> todo ⊆ outboundMsgs s ->
  retries_loop now regardless s answers todo = Ret (es, out, closed) -> Forall (resent s) es.
Proof.
  intros Hs H2. revert answers es out closed. induction todo as [|m todo IH]; intros answers es out closed Ht.
  { intros [= <- <- <-]. constructor. }
  cbn [retries_loop]. destruct answers as [|[[idle rc] t] answers]; [intros [= <- <- <-]; constructor|].
  destruct (_ && idle); [|intros [= <- <- <-]; constructor].
  destruct (regardless || _).
  - destruct (inv_live s m Hs) as [pub Hpub]; [set_solver|].
    destruct (retry_message_ok s m rc t pub Hpub) as (e1 & m1 & [] & Hm & _);
      (pose proof (retry_message_resent s m rc t _ _ _ Hs H2 ltac:(set_solver) Hm) as He; rewrite Hm; cbn [mbind comp_bind]).
    + by intros [= <- <- <-].
    + destruct (retries_loop _ _ _ _ _) as [[[e2 out2'] closed2]|] eqn:E; [|done]. intros [= <- <- <-].
      apply Forall_app. split; [done|]. eapply IH; [set_solver|exact E].
  - cbn [mbind comp_bind]. destruct (retries_loop _ _ _ _ _) as [[[e2 out2'] closed2]|] eqn:E; [|done]. intros [= <- <- <-].
    eapply IH; [set_solver|exact E].
Qed.

Lemma resend_effect junk s now doRetry regardless idle answers :
  protocol_inv s -> out2 s ->
  exists es s', run_pop junk s (Retry now doRetry regardless idle answers) = Ret (es, [], s') /\
    protocol_inv s' /\ out2 s' /\ msgID s' = msgID s /\ (forall i, out_at s' i = out_at s i) /\ Forall (resent s) es.
Proof.
  intros Hs H2. cbn [run_pop]. unfold MQTTProtocol_retry, MQTTProtocol_retries.
  assert (forall es, Forall (resent s) es -> exists es' s', Ret (es, [], s) = Ret (es', @nil delivery, s') /\ protocol_inv s' /\ out2 s' /\
    msgID s' = msgID s /\ (forall i, out_at s' i = out_at s i) /\ Forall (resent s) es') as Hsame by (intros es He; by do 2 eexists).
  destruct (_ =? 0); [apply Hsame; constructor|]. destruct (_ =? 0); [apply Hsame; repeat constructor|].
  destruct idle; cbn [negb]; [|apply Hsame; constructor].
  destruct doRetry; [|apply Hsame; constructor]. destruct (_ && _); [apply Hsame; constructor|].
  destruct (retries_loop_ok now regardless s answers (outboundMsgs s)) as (es & out & closed & E & Hr).
  { intros m Hm. apply inv_live; [done|set_solver]. }
  rewrite E. cbn [mbind comp_bind]. do 2 eexists. split; [done|]. pose proof (inv_retouched s out Hs Hr) as Hs'.
  split; [destruct closed; [by eapply inv_same|done]|].
  assert (Forall (fun m => qos m = 2) out) as H2'.
  { clear -H2 Hr. unfold out2 in H2. induction Hr as [|m m' l l' [t ->] Hl IH]; [constructor|].
    apply Forall_cons in H2 as [? ?]. constructor; [done|by apply IH]. }
  split_and!; [by destruct closed|by destruct closed| |by eapply retries_loop_resent].
  intros i. replace (out_at _ i) with (msg_at (publications s) out i) by by destruct closed. by apply msg_at_retouched.
Qed.

(** ** The system *)

Definition forth_of (i : Z) (e : event) : option (option content) :=
  match e with
  | SentPublish id _ _ _ t d => if id =? i then Some (Some (t, d)) else None
  | SentAck _ id _ => if id =? i then Some None else None
  | _ => None
  end.
Definition back_of (i : Z) (e : event) : option bool :=
  match e with
  | SentAck type id _ => if id =? i then Some (type =? PUBCOMP) else None
  | _ => None
  end.
Abbreviation forth_at i l := (omap (forth_of i) l).
Abbreviation back_at i l := (omap (back_of i) l).

(** What was published or delivered under an id, in order. *)
Definition under (i : Z) (l : list (Z * content)) : list content :=
  omap (fun x : Z * content => if x.1 =? i then Some x.2 else None) l.

Definition forth_ok (e : event) : Prop :=
  match e with
  | SentPublish _ _ q _ _ _ => q = 2
  | SentAck type _ dup => type = PUBREL /\ dup = 0
  | _ => False
  end.
Definition back_ok (e : event) : Prop := exists type id, e = SentAck type id 0 /\ (type = PUBREC \/ type = PUBCOMP).

Record sender_ok (s : pstate) : Prop := {
  so_inv : protocol_inv s;
  so_qos : out2 s;
  so_id : 0 <= msgID s <= MAX_MSG_ID;
  so_first : msgID s = 0 -> outboundMsgs s = []
}.

Record sys_inv (x : system) : Prop := {
  sy_sender : sender_ok (sender x);
  sy_receiver : protocol_inv (receiver x);
  sy_forth : Forall forth_ok (forth x);
  sy_back : Forall back_ok (back x);
  sy_ids : forall i, exists u,
    exchange (out_at (sender x) i) (in_at (receiver x) i) (forth_at i (forth x)) (back_at i (back x)) u /\
    under i (published x) = under i (delivered x) ++ u
}.

(** An id is found that no message has, or none is given. *)
Lemma assign_ok s :
  sender_ok s ->
  exists id s', MQTTProtocol_assignMsgId (Z.to_nat MAX_MSG_ID) s = Ret (id, s') /\
    (id = 0 /\ s' = s \/
     1 <= id <= MAX_MSG_ID /\ find_msg id (outboundMsgs s) = None /\ s' = with_msgID s id).
Proof.
  intros Hs. set (used id := bool_decide (is_Some (find_msg id (outboundMsgs s)))). unfold MQTTProtocol_assignMsgId. fold used.
  destruct (Z.eq_dec (msgID s) 0) as [H0|H0].
  - pose proof (so_first _ Hs H0) as Ho. rewrite H0. change (next_id 0) with 1.
    replace (Z.to_nat MAX_MSG_ID) with (S (Z.to_nat (MAX_MSG_ID - 1))) by (unfold MAX_MSG_ID; lia). cbn [assign_loop].
    assert (used 1 = false) as -> by (unfold used; by rewrite Ho).
    cbn [mbind comp_bind Z.eqb negb]. do 2 eexists. split; [done|]. right. rewrite Ho. unfold MAX_MSG_ID. split_and!; [lia|lia|done|done].
  - pose proof (so_id _ Hs) as Hr. destruct (assign_loop_spec (Z.to_nat MAX_MSG_ID) used (msgID s) 1) as (id & E & Hid);
      [lia|unfold MAX_MSG_ID; lia|unfold MAX_MSG_ID; lia|].
    replace (next_id (msgID s)) with (ring (msgID s) 1).
    2:{ rewrite <- (ring_next _ 0). unfold ring, MAX_MSG_ID in *. rewrite Z.mod_small by lia. f_equal. lia. }
    rewrite E. cbn [mbind comp_bind]. do 2 eexists. split; [done|].
    destruct Hid as [(j & Hj & -> & Hju & Hall)|[-> Hall]]; [right|by left].
    pose proof (ring_range (msgID s) j). split; [done|]. rewrite (proj2 (Z.eqb_neq _ 0)) by lia. split; [|done].
    unfold used in Hju. apply bool_decide_eq_false in Hju. by destruct (find_msg _ _); [destruct Hju|].
Qed.

Lemma offer_effect junk s t d ret now rc :
  sender_ok s ->
  (exists s', offer junk s t d ret now rc = Ret ([], [], s') /\ s' = s) \/
  exists id s', offer junk s t d ret now rc = Ret ([SentPublish id 0 2 ret t d], [(id, (t, d))], s') /\
    sender_ok s' /\ out_at s id = None /\ forall i, out_at s' i = if id =? i then Some ((t, d), PUBREC) else out_at s i.
Proof.
  intros Hs. unfold offer. destruct (assign_ok s Hs) as (id & s1 & -> & [[-> ->]|(Hid & Hf & ->)]); cbn [mbind comp_bind].
  { left. by eexists. }
  right. rewrite (proj2 (Z.eqb_neq id 0)) by lia.
  assert (protocol_inv (with_msgID s id)) as Hs1 by (eapply inv_same; [apply Hs|done..]).
  destruct (start_effect junk (with_msgID s id) id ret t d now rc Hs1 (so_qos _ Hs) Hf) as (s' & -> & Hs' & H2 & Hm & Ho).
  cbn [mbind comp_bind]. do 2 eexists. split; [done|]. split; [|split].
  - constructor; [done|done| |]; rewrite Hm; cbn; [lia|]. intros ->. lia.
  - unfold out_at, msg_at. by rewrite Hf.
  - intros i. by rewrite Ho.
Qed.

Lemma sender_ok_next s s' :
  sender_ok s -> protocol_inv s' -> out2 s' -> msgID s' = msgID s -> (forall i, out_at s i = None -> out_at s' i = None) ->
  sender_ok s'.
Proof.
  intros Hs Hs' H2 Hm Ho. constructor; [done|done|rewrite Hm; apply Hs|]. rewrite Hm. intros H0.
  destruct (outboundMsgs s') as [|m l] eqn:E; [done|]. exfalso.
  assert (find_msg (msgid m) (outboundMsgs s') = None) as Hf.
  { apply (live_at s'); [done|by right|]. apply Ho. unfold out_at, msg_at. by rewrite (so_first _ Hs H0). }
  rewrite E in Hf. unfold find_msg, messageIDCompare in Hf. cbn [List.find] in Hf. by rewrite Z.eqb_refl in Hf.
Qed.

Lemma under_app i l k : under i (l ++ k) = under i l ++ under i k.
Proof. apply omap_app. Qed.

Lemma under_cons i x l : under i (x :: l) = if x.1 =? i then x.2 :: under i l else under i l.
Proof. unfold under. cbn. by destruct (x.1 =? i). Qed.

Lemma sys_offer junk x t d ret now rc :
  sys_inv x -> exists x', sys_step junk x (Offer t d ret now rc) = Ret x' /\ sys_inv x'.
Proof.
  intros [Hs Hr Hf Hb Hi]. cbn [sys_step]. destruct (offer_effect junk (sender x) t d ret now rc Hs)
    as [(s' & -> & ->)|(id & s' & -> & Hs' & Hn & Ho)]; cbn [mbind comp_bind List.filter is_packet]; eexists; (split; [done|]);
    constructor; cbn [sender receiver forth back published delivered]; rewrite ?app_nil_r; try done.
  - apply Forall_app. split; [done|]. by repeat constructor.
  - intros i. destruct (Hi i) as (u & Hx & Hu). rewrite Ho, omap_app, under_app. cbn.
    destruct (Z.eqb_spec id i) as [->|]; [|rewrite !app_nil_r; eauto].
    rewrite Hn in Hx. destruct (ex_publish (t, d) _ _ _ _ Hx) as [Hx' ->]. exists [(t, d)]. by rewrite Hu, app_nil_r.
Qed.

Lemma handler_pubrel id dup idle now rc per : handler (SentAck PUBREL id dup) idle now rc per = Some (OnPubrel id dup idle rc per).
Proof. done. Qed.
Lemma handler_pubrec id dup idle now rc per : handler (SentAck PUBREC id dup) idle now rc per = Some (OnPubrec id now rc).
Proof. done. Qed.
Lemma handler_pubcomp id dup idle now rc per : handler (SentAck PUBCOMP id dup) idle now rc per = Some (OnPubcomp id per).
Proof. done. Qed.

Lemma sys_forth junk x idle now rc per :
  sys_inv x -> exists x', sys_step junk x (Forth idle now rc per) = Ret x' /\ sys_inv x'.
Proof.
  intros Hinv. pose proof Hinv as [Hs Hr Hf Hb Hi]. cbn [sys_step]. destruct (forth x) as [|e rest]; [by eexists|]. clear Hinv.
  apply Forall_cons in Hf as [He Hf].
  assert (forall r', protocol_inv r' -> (forall i, in_at r' i = in_at (receiver x) i) ->
            sys_inv {| sender := sender x; receiver := r'; forth := rest; back := back x ++ []; published := published x;
                       delivered := delivered x ++ [] |}) as Hdrop.
  { intros r' Hr' Hn. constructor; cbn [sender receiver forth back published delivered]; rewrite ?app_nil_r; try done.
    intros i. destruct (Hi i) as (u & Hx & Hu). exists u. rewrite Hn. split; [|done].
    cbn in Hx. destruct (forth_of i e) as [y|]; [by eapply ex_drop|done]. }
  unfold handle. destruct e as [id dup q ret t d|type id dup| |]; cbn [forth_ok] in He; try done.
  - subst q. cbn [handler]. destruct idle.
    2:{ rewrite busy_publish. cbn [mbind comp_bind List.filter fmap list_fmap]. eexists. split; [done|]. by apply Hdrop. }
    destruct (publish_effect junk (receiver x) id dup ret t d now rc Hr) as (r' & -> & Hr' & Hin).
    cbn [mbind comp_bind List.filter is_packet fmap list_fmap]. eexists. split; [done|].
    constructor; cbn [sender receiver forth back published delivered]; rewrite ?app_nil_r; try done.
    + apply Forall_app. split; [done|]. repeat constructor. exists PUBREC, id. auto.
    + intros i. destruct (Hi i) as (u & Hx & Hu). exists u. rewrite Hin, omap_app. cbn in Hx |- *.
      destruct (Z.eqb_spec id i) as [->|]; [|by rewrite app_nil_r]. split; [|done]. by eapply ex_forth_publish.
  - destruct He as [-> ->]. rewrite handler_pubrel. destruct idle.
    2:{ rewrite busy_pubrel. cbn [mbind comp_bind List.filter fmap list_fmap]. eexists. split; [done|]. by apply Hdrop. }
    destruct (in_at (receiver x) id) as [c|] eqn:Hc.
    2:{ rewrite pubrel_unknown by done. cbn [mbind comp_bind List.filter fmap list_fmap]. eexists. split; [done|]. by apply Hdrop. }
    destruct (pubrel_effect junk (receiver x) id 0 c rc per Hr Hc) as (d & r' & -> & Hd & Hr' & Hin).
    cbn [mbind comp_bind List.filter is_packet fmap list_fmap]. rewrite Hd. eexists. split; [done|].
    constructor; cbn [sender receiver forth back published delivered]; try done.
    + apply Forall_app. split; [done|]. repeat constructor. exists PUBCOMP, id. auto.
    + intros i. destruct (Hi i) as (u & Hx & Hu). rewrite Hin, omap_app, under_app. cbn in Hx |- *.
      destruct (Z.eqb_spec id i) as [->|]; [|rewrite !app_nil_r; eauto]. rewrite Hc in Hx.
      destruct (ex_forth_pubrel _ _ _ _ _ Hx) as [Hx' ->]. exists []. by rewrite app_nil_r.
Qed.

Lemma sys_back junk x now rc per :
  sys_inv x -> exists x', sys_step junk x (Back now rc per) = Ret x' /\ sys_inv x'.
Proof.
  intros Hinv. pose proof Hinv as [Hs Hr Hf Hb Hi]. cbn [sys_step]. destruct (back x) as [|e rest]; [by eexists|]. clear Hinv.
  apply Forall_cons in Hb as [(type & id & -> & Ht) Hb]. unfold handle.
  destruct (Hi id) as (u0 & Hx0 & _). cbn in Hx0. rewrite Z.eqb_refl in Hx0. destruct Ht as [-> | ->]; cbn in Hx0.
  - rewrite handler_pubrec.
    destruct (ex_back_pubrec _ _ _ _ _ Hx0) as [c [[Ho _]|[Ho _]]].
    + destruct (pubrec_effect junk (sender x) id c now rc (so_inv _ Hs) (so_qos _ Hs) Ho) as (s' & -> & Hs' & H2 & Hm & Hout).
      cbn [mbind comp_bind List.filter is_packet]. eexists. split; [done|].
      constructor; cbn [sender receiver forth back published delivered]; try done.
      * apply (sender_ok_next (sender x)); [done..|]. intros i. rewrite Hout. by destruct (Z.eqb_spec id i); [subst; rewrite Ho|].
      * apply Forall_app. split; [done|]. by repeat constructor.
      * intros i. destruct (Hi i) as (u & Hx & Hu). rewrite Hout, omap_app. exists u. split; [|done]. cbn in Hx |- *.
        destruct (Z.eqb_spec id i) as [->|]; [|by rewrite app_nil_r].
        destruct (ex_back_pubrec _ _ _ _ _ Hx) as [c' [[Ho' Hx']|[Ho' _]]]; rewrite Ho in Ho'; [congruence|by injection Ho'].
    + rewrite (pubrec_again junk _ _ c) by done. cbn [mbind comp_bind List.filter]. eexists. split; [done|].
      constructor; cbn [sender receiver forth back published delivered]; rewrite ?app_nil_r; try done.
      intros i. destruct (Hi i) as (u & Hx & Hu). exists u. split; [|done]. cbn in Hx.
      destruct (Z.eqb_spec id i) as [->|]; [|done].
      destruct (ex_back_pubrec _ _ _ _ _ Hx) as [c' [[Ho' _]|[_ ?]]]; [|done]. rewrite Ho in Ho'. by injection Ho'.
  - destruct (ex_back_pubcomp _ _ _ _ _ Hx0) as (c & Ho & _). rewrite handler_pubcomp.
    destruct (pubcomp_effect junk (sender x) id c per (so_inv _ Hs) (so_qos _ Hs) Ho) as (s' & -> & Hs' & H2 & Hm & Hout).
    cbn [mbind comp_bind List.filter is_packet]. eexists. split; [done|].
    constructor; cbn [sender receiver forth back published delivered]; rewrite ?app_nil_r; try done.
    + apply (sender_ok_next (sender x)); [done..|]. intros i. rewrite Hout. by destruct (id =? i).
    + intros i. destruct (Hi i) as (u & Hx & Hu). rewrite Hout. exists u. split; [|done]. cbn in Hx.
      destruct (Z.eqb_spec id i) as [->|]; [|done]. by destruct (ex_back_pubcomp _ _ _ _ _ Hx) as (c' & _ & ?).
Qed.

Lemma forth_packets i es : forth_at i (List.filter is_packet es) = forth_at i es.
Proof. induction es as [|e es IH]; [done|]. destruct e; cbn; by rewrite ?IH. Qed.

Lemma resent_fitting s es i :
  Forall (resent s) es -> Forall (fitting (out_at s i)) (forth_at i es) /\ Forall forth_ok (List.filter is_packet es).
Proof.
  induction 1 as [|e es He _ [IH1 IH2]]; [by repeat constructor|]. destruct He as [|id ret t d Ho|id c Ho]; cbn; [done|..].
  - split; [|by constructor]. destruct (Z.eqb_spec id i) as [->|]; [|done]. constructor; [|done]. exists (t, d). auto.
  - split; [|by constructor]. destruct (Z.eqb_spec id i) as [->|]; [|done]. constructor; [|done]. exists c. auto.
Qed.

Lemma sys_resend junk x now doRetry regardless idle answers :
  sys_inv x -> exists x', sys_step junk x (Resend now doRetry regardless idle answers) = Ret x' /\ sys_inv x'.
Proof.
  intros [Hs Hr Hf Hb Hi]. cbn [sys_step].
  destruct (resend_effect junk (sender x) now doRetry regardless idle answers (so_inv _ Hs) (so_qos _ Hs))
    as (es & s' & -> & Hs' & H2 & Hm & Ho & He). cbn [mbind comp_bind]. eexists. split; [done|].
  constructor; cbn [sender receiver forth back published delivered]; try done.
  - apply (sender_ok_next (sender x)); [done..|]. intros i. by rewrite Ho.
  - apply Forall_app. split; [done|]. by apply (resent_fitting (sender x) es 0).
  - intros i. destruct (Hi i) as (u & Hx & Hu). exists u. rewrite Ho, omap_app, forth_packets. split; [|done].
    apply ex_resend; [done|]. by apply resent_fitting.
Qed.

Lemma sys_step_inv junk x m : sys_inv x -> exists x', sys_step junk x m = Ret x' /\ sys_inv x'.
Proof.
  intros Hx. destruct m; [by apply sys_offer|by apply sys_forth|by apply sys_back|by apply sys_resend|].
  destruct Hx as [Hs Hr Hf Hb Hi]. eexists. split; [done|]. constructor; cbn; try done; try constructor.
  intros i. destruct (Hi i) as (u & Hx & Hu). exists u. split; [by eapply ex_lose|done].
Qed.

Lemma sys_run_inv junk x ms : sys_inv x -> exists x', sys_run junk x ms = Ret x' /\ sys_inv x'.
Proof.
  revert x. induction ms as [|m ms IH]; intros x Hx; [by eexists|].
  destruct (sys_step_inv junk x m Hx) as (x' & E & Hx'). cbn [sys_run]. rewrite E. by apply IH.
Qed.

(** The same, in order, under every id. *)
Lemma under_split i c k l : under i k = c :: l -> exists k1 k2, k = k1 ++ (i, c) :: k2 /\ under i k1 = [].
Proof.
  induction k as [|[j d] k IH]; [done|]. unfold under. cbn. destruct (Z.eqb_spec j i) as [->|Hn].
  - intros [= -> _]. by exists [], k.
  - intros H. destruct (IH H) as (k1 & k2 & -> & H1). exists ((j, d) :: k1), k2. split; [done|]. unfold under. cbn.
    by rewrite (proj2 (Z.eqb_neq j i) Hn).
Qed.

Lemma under_perm l k : (forall i, under i l = under i k) -> l ≡ₚ k.
Proof.
  revert k. induction l as [|[i c] l IH]; intros k H.
  - destruct k as [|[i c] k]; [done|]. specialize (H i). unfold under in H. cbn in H. by rewrite Z.eqb_refl in H.
  - pose proof (H i) as Hi. rewrite under_cons in Hi. cbn in Hi. rewrite Z.eqb_refl in Hi. symmetry in Hi.
    destruct (under_split _ _ _ _ Hi) as (k1 & k2 & -> & H1). rewrite (IH (k1 ++ k2)); [by rewrite Permutation_middle|].
    intros j. specialize (H j). rewrite !under_app, !under_cons in *. cbn in H. destruct (Z.eqb_spec i j) as [->|]; [|done].
    rewrite H1 in *. cbn in *. by injection H.
Qed.

(** Two ends that start a session. *)
Definition fresh_client (s : pstate) : Prop :=
  inboundMsgs s = [] /\ outboundMsgs s = [] /\ pending_writes s = [] /\ publications s = ∅ /\ 0 <= msgID s <= MAX_MSG_ID.

Lemma fresh_inv s : fresh_client s -> protocol_inv s /\ sender_ok s.
Proof.
  intros (Hi & Ho & Hw & Hp & Hm). assert (protocol_inv s) as Hs.
  { constructor; unfold refs; rewrite ?Hi, ?Ho, ?Hw, ?Hp; [|constructor..]. constructor; [constructor| |by intros k p ?].
    intros k. cbn. rewrite lookup_empty. split; [by intros [? ?]|by intros ?%not_elem_of_nil]. }
  split; [done|]. constructor; [done|unfold out2; rewrite Ho; constructor|done|done].
Qed.

Definition start_system (s r : pstate) : system :=
  {| sender := s; receiver := r; forth := []; back := []; published := []; delivered := [] |}.

(** C4: publications at quality of service 2 are given to the receiving
    application exactly once.  Whatever is published, in whatever order the two
    ends take their packets, resend, have their sends fail, and lose the
    connection with all it carries: neither end faults, what is delivered under
    an id is, in order, what was published under it, except for at most the last
    publication, which the sender then still keeps to send again; and when the
    sender keeps nothing the delivered publications are the published ones, none
    twice and none missing. *)
Theorem exactly_once junk s r ms :
  fresh_client s -> fresh_client r ->
  exists x, sys_run junk (start_system s r) ms = Ret x /\
    (forall i, exists u, under i (published x) = under i (delivered x) ++ u /\
       (u = [] \/ exists c next, u = [c] /\ out_at (sender x) i = Some (c, next))) /\
    (outboundMsgs (sender x) = [] -> delivered x ≡ₚ published x).
Proof.
  intros Hs Hr. destruct (sys_run_inv junk (start_system s r) ms) as (x & -> & Hx).
  { constructor; cbn; [apply fresh_inv, Hs|apply fresh_inv, Hr|constructor..|]. intros i. exists []. split; [|done].
    destruct Hs as (_ & Ho & _), Hr as (Hi & _). unfold out_at, in_at, msg_at. rewrite Ho, Hi. by repeat constructor. }
  exists x. split; [done|].
  assert (forall i, exists u, under i (published x) = under i (delivered x) ++ u /\
       (u = [] \/ exists c next, u = [c] /\ out_at (sender x) i = Some (c, next))) as Hids.
  { intros i. destruct (sy_ids _ Hx i) as (u & He & Hu). exists u. split; [done|]. by eapply ex_pending. }
  split; [done|]. intros Ho. apply under_perm. intros i. destruct (Hids i) as (u & -> & [->|(c & next & _ & Hn)]).
  - by rewrite app_nil_r.
  - unfold out_at, msg_at in Hn. by rewrite Ho in Hn.
Qed.

(** The sender publishes twice; the connection is lost after the first PUBLISH
    is taken, and again before the PUBREL is. *)
Definition moves_ex : list move :=
  [Offer "a" [1] 0 1 TCPSOCKET_COMPLETE; Forth true 2 TCPSOCKET_COMPLETE 0; Lose;
   Resend 30 true true true [(true, TCPSOCKET_COMPLETE, 30)]; Offer "b" [2; 3] 1 31 TCPSOCKET_INTERRUPTED;
   Forth true 32 TCPSOCKET_COMPLETE 0; Back 33 TCPSOCKET_COMPLETE 0; Lose;
   Resend 60 true true true [(true, TCPSOCKET_COMPLETE, 60); (true, TCPSOCKET_COMPLETE, 60)];
   Forth true 61 TCPSOCKET_COMPLETE 0; Forth true 61 TCPSOCKET_COMPLETE 0; Back 62 TCPSOCKET_COMPLETE 0;
   Back 62 TCPSOCKET_COMPLETE 0; Forth true 63 TCPSOCKET_COMPLETE 0; Back 64 TCPSOCKET_COMPLETE 0].

Lemma exactly_once_witness :
  (exists x, sys_run 0 (start_system client0 client0) moves_ex = Ret x /\
     delivered x = [(1, ("a"%string, [1])); (2, ("b"%string, [2; 3]))]) /\
  exists x, sys_run 0 (start_system client0 client0) moves_ex = Ret x /\
    (forall i, exists u, under i (published x) = under i (delivered x) ++ u /\
       (u = [] \/ exists c next, u = [c] /\ out_at (sender x) i = Some (c, next))) /\
    (outboundMsgs (sender x) = [] -> delivered x ≡ₚ published x).
Proof.
  split; [eexists; split; [vm_compute; reflexivity|reflexivity]|].
  apply (exactly_once 0 client0 client0 moves_ex); repeat split; unfold MAX_MSG_ID; cbn; lia.
Defined.

(** ** A PUBCOMP that is lost *)

Definition no_offer (m : move) : bool := match m with Offer _ _ _ _ _ => false | _ => true end.

(** The receiver is done with the exchange and the sender is not. *)
Record waiting (o : Z -> option (content * Z)) (x : system) : Prop := {
  wa_sender : sender_ok (sender x);
  wa_receiver : protocol_inv (receiver x);
  wa_out : forall i, out_at (sender x) i = o i;
  wa_in : inboundMsgs (receiver x) = [];
  wa_forth : Forall (fun e => exists id, e = SentPing \/ e = SentAck PUBREL id 0) (forth x);
  wa_back : back x = []
}.

Lemma waiting_step junk o x m :
  (forall i y, o i = Some y -> y.2 = PUBCOMP) -> waiting o x -> no_offer m = true ->
  exists x', sys_step junk x m = Ret x' /\ waiting o x' /\ delivered x' = delivered x.
Proof.
  intros Ho Hinv. pose proof Hinv as [Hs Hr Hout Hi Hf Hb]. destruct m as [|idle now rc per|now rc per|now doRetry reg idle ans|]; intros Hm; try done; cbn [sys_step].
  - destruct (forth x) as [|e rest]; [by eexists|]. clear Hinv. apply Forall_cons in Hf as [(id & He) Hf].
    assert (handle junk (receiver x) e idle now rc per = Ret ([], [], receiver x)) as ->.
    { unfold handle. destruct He as [-> | ->]; [done|]. rewrite handler_pubrel. apply pubrel_unknown; [done|].
      unfold in_at, msg_at. by rewrite Hi. }
    cbn [mbind comp_bind List.filter fmap list_fmap]. eexists. split; [done|].
    split; [constructor; cbn; rewrite ?Hb; done|cbn; by rewrite app_nil_r].
  - rewrite Hb. by eexists.
  - destruct (resend_effect junk (sender x) now doRetry reg idle ans (so_inv _ Hs) (so_qos _ Hs))
      as (es & s' & -> & Hs' & H2 & Hid & Ho' & He). cbn [mbind comp_bind]. eexists. split; [done|]. split; [|done].
    constructor; cbn; try done; [apply (sender_ok_next (sender x)); [done..|]; intros i; by rewrite Ho'|intros i; by rewrite Ho'|].
    apply Forall_app. split; [done|]. clear -He Hout Ho. induction He as [|e es He _ IH]; [constructor|].
    destruct He as [|id ret t d H|id c H]; cbn; [done| |by constructor; [exists id; auto|]].
    rewrite Hout in H. apply Ho in H. cbn in H. by exfalso.
  - eexists. split; [done|]. split; [|done]. by constructor; cbn.
Qed.

(** When the PUBCOMP of an exchange is lost with the connection, the
    exchange never ends: the sender resends its PUBREL without the duplicate
    flag, the receiver, which keeps nothing under the id any more, answers an
    unknown PUBREL only when the flag is set, and so, whatever happens next at
    the two ends, the sender keeps the message (and its id) for ever. *)
Theorem lost_pubcomp_never_ends junk x m ms :
  sys_inv x -> outboundMsgs (sender x) = [m] -> nextMessageType m = PUBCOMP -> inboundMsgs (receiver x) = [] ->
  forth x = [] -> back x = [] -> Forall (fun m => no_offer m = true) ms ->
  exists x', sys_run junk x ms = Ret x' /\ is_Some (out_at (sender x') (msgid m)) /\ delivered x' = delivered x.
Proof.
  intros Hx Hm Hn Hi Hf Hb Hms.
  assert (forall i y, out_at (sender x) i = Some y -> y.2 = PUBCOMP) as Ho.
  { intros i y (m' & p & Hf' & _ & ->)%msg_at_Some. apply find_msg_elem in Hf' as [Hin _]. rewrite Hm in Hin.
    apply list_elem_of_singleton in Hin as ->. done. }
  assert (is_Some (out_at (sender x) (msgid m))) as Hsome.
  { destruct (out_at (sender x) (msgid m)) eqn:E; [by eexists|]. exfalso.
    apply (live_at (sender x)) in E; [|apply Hx|by right]. rewrite Hm in E. unfold find_msg, messageIDCompare in E. cbn in E.
    by rewrite Z.eqb_refl in E. }
  assert (waiting (out_at (sender x)) x) as Hw.
  { constructor; [apply Hx|apply Hx|done|done|rewrite Hf; constructor|done]. }
  revert Hw Ho Hsome. generalize (out_at (sender x)) as o. clear Hx Hm Hi Hf Hb. revert x.
  induction Hms as [|mv ms Hmv _ IH]; intros x o Hw Ho Hsome.
  - exists x. split; [done|]. by rewrite (wa_out _ _ Hw).
  - destruct (waiting_step junk o x mv Ho Hw Hmv) as (x1 & E & Hw1 & Hd). cbn [sys_run]. rewrite E. cbn [mbind comp_bind].
    destruct (IH x1 o Hw1 Ho Hsome) as (x' & -> & ? & Hd'). exists x'. split; [done|]. split; [done|]. congruence.
Qed.

Definition moves_lost : list move :=
  [Offer "a" [1] 0 1 TCPSOCKET_COMPLETE; Forth true 2 TCPSOCKET_COMPLETE 0; Back 3 TCPSOCKET_COMPLETE 0;
   Forth true 4 TCPSOCKET_COMPLETE 0; Lose].
Definition moves_again : list move :=
  [Resend 30 true true true [(true, TCPSOCKET_COMPLETE, 30)]; Forth true 31 TCPSOCKET_COMPLETE 0; Back 32 TCPSOCKET_COMPLETE 0].

Lemma lost_pubcomp_never_ends_witness :
  exists x, sys_run 0 (start_system client0 client0) moves_lost = Ret x /\
    exists x', sys_run 0 x moves_again = Ret x' /\ is_Some (out_at (sender x') 1) /\ delivered x' = delivered x.
Proof.
  destruct (sys_run_inv 0 (start_system client0 client0) moves_lost) as (x & E & Hx).
  { constructor; cbn; [apply fresh_inv|apply fresh_inv|constructor..|]; try (repeat split; unfold MAX_MSG_ID; cbn; lia).
    intros i. exists []. split; [|done]. by repeat constructor. }
  exists x. split; [done|]. vm_compute in E. injection E as <-.
  set (m := {| qos := 2; retain := 0; msgid := 1; publish := 1%positive; lastTouch := 3; nextMessageType := PUBCOMP |}).
  apply (lost_pubcomp_never_ends 0 _ m moves_again Hx); try reflexivity. repeat constructor.
Defined.
