(* ===== verification/MqttAsync.v ===== *)
(** * The asynchronous client (mqtt-c/source/MQTTAsync.c)

    One client: the lists [handles] and [bstate->clients] hold one element, so
    that all queued commands are its own and the list of ignored clients of
    MQTTAsync_processCommand comes down to stopping at the first command.  The
    build is the one without OPENSSL, the client is created without
    persistence, as the hub does.  A function is an action: it reads and writes
    the state, may fault, and lists the callbacks it makes, in order; what the
    callbacks do to the library are further actions.  What the clock, the
    sockets and the threads answer are arguments. *)

From S2P Require Import Prelude CString Unicode Utf8 MqttPacket MqttSocket MqttProtocol.

Local Open Scope Z_scope.

Definition MQTTASYNC_SUCCESS : Z := 0.
Definition MQTTASYNC_FAILURE : Z := -1.
Definition MQTTASYNC_DISCONNECTED : Z := -3.
Definition MQTTASYNC_BAD_UTF8_STRING : Z := -5.
Definition MQTTASYNC_NULL_PARAMETER : Z := -6.
Definition MQTTASYNC_BAD_STRUCTURE : Z := -8.
Definition MQTTASYNC_BAD_QOS : Z := -9.
Definition MQTTASYNC_NO_MORE_MSGIDS : Z := -10.
Definition MQTTASYNC_OPERATION_INCOMPLETE : Z := -11.
Definition MQTTASYNC_MAX_BUFFERED_MESSAGES : Z := -12.
Definition MQTTASYNC_SSL_NOT_SUPPORTED : Z := -13.
Definition MQTTASYNC_TRUE : Z := 1.
Definition MQTT_BAD_SUBSCRIBE : Z := 128.
Definition EINPROGRESS : Z := 115.
Definition EWOULDBLOCK : Z := 11.
Definition MQTTVERSION_DEFAULT : Z := 0.
Definition MQTTVERSION_3_1 : Z := 3.
Definition MQTTVERSION_3_1_1 : Z := 4.

(** ** State *)

(** The union [details] of a command. *)
Inductive details :=
  | Sub (topics : list string) (qoss : list Z)
  | Unsub (topics : list string)
  | Pub (destinationName : string) (payload : list Z) (payloadlen qos retained : Z)
  | Dis (internal : bool) (timeout : Z)
  | Conn (currentURI MQTTVersion : Z).

(** [on_success] and [on_failure] are whether the callbacks are set. *)
Record command := {
  type : Z;
  on_success : bool;
  on_failure : bool;
  token : Z;
  start_time : Z;
  det : details
}.

(** [addr] is the object the command is kept in. *)
Record queuedCommand := { addr : loc; cmd : command }.

(** What an action does to its surroundings: a callback of the application, or
    a packet given to the socket. *)
Inductive output :=
  | OnSuccess (who : loc) (type token : Z)
  | OnFailure (who : loc) (type token : Z) (code : option Z)
  | ConnectSuccess
  | ConnectFailure (code : Z)
  | DisconnectSuccess
  | Connected
  | ConnectionLost
  | DeliveryComplete (msgid : Z)
  | MessageArrived (d : delivery)
  | Sent (e : event)
  | OpenSocket (uri : string)
  | SentConnect (version : Z)
  | SentSubscribe (msgid : Z) (topics : list string) (qoss : list Z)
  | SentUnsubscribe (msgid : Z) (topics : list string)
  | SentDisconnect.

(** A string of the client: absent, set, or freed and still pointed to. *)
Inductive owned := NoString | Held (b : list Z) | Freed.

(** What MQTTAsync_create, _setCallbacks and _connect set. *)
Record options := {
  cl : bool;
  ma : bool;
  dc : bool;
  connected_cb : bool;
  createOptions : option (bool * Z);   (* sendWhileDisconnected, maxBufferedMessages *)
  automaticReconnect : bool;
  minRetryInterval : Z;
  maxRetryInterval : Z;
  connectTimeout : Z;
  serverURI : string;
  serverURIs : list string;
  cleansession : bool;
  MQTTVersion : Z;
  username : owned;
  password : owned;
  will : option (string * list Z * Z * Z)
}.

Record MQTTAsyncs := {
  c : pstate;
  opts : options;
  connect_state : Z;
  socket : Z;
  messageQueue : list delivery;
  connect : command;
  disconnect : command;
  pending_write : option loc;
  responses : list queuedCommand;
  shouldBeConnected : bool;
  currentInterval : Z;
  lastConnectionFailedTime : Z;
  retrying : bool;
  reconnectNow : bool;
  commands : list queuedCommand;
  next_addr : loc
}.

(** A zeroed command. *)
Definition no_command : command :=
  {| type := 0; on_success := false; on_failure := false; token := 0; start_time := 0; det := Conn 0 0 |}.

Definition with_c (m : MQTTAsyncs) (x : pstate) : MQTTAsyncs :=
  {| c := x; opts := opts m; connect_state := connect_state m; socket := socket m; messageQueue := messageQueue m;
     connect := connect m; disconnect := disconnect m; pending_write := pending_write m; responses := responses m;
     shouldBeConnected := shouldBeConnected m; currentInterval := currentInterval m;
     lastConnectionFailedTime := lastConnectionFailedTime m; retrying := retrying m; reconnectNow := reconnectNow m;
     commands := commands m; next_addr := next_addr m |}.
Definition with_opts (m : MQTTAsyncs) (x : options) : MQTTAsyncs :=
  {| c := c m; opts := x; connect_state := connect_state m; socket := socket m; messageQueue := messageQueue m;
     connect := connect m; disconnect := disconnect m; pending_write := pending_write m; responses := responses m;
     shouldBeConnected := shouldBeConnected m; currentInterval := currentInterval m;
     lastConnectionFailedTime := lastConnectionFailedTime m; retrying := retrying m; reconnectNow := reconnectNow m;
     commands := commands m; next_addr := next_addr m |}.
(** The connection: [connected] and [good], the state of connecting, the socket. *)
Definition with_conn (m : MQTTAsyncs) (conn gd st sock : Z) : MQTTAsyncs :=
  {| c := {| msgID := msgID (c m); inboundMsgs := inboundMsgs (c m); outboundMsgs := outboundMsgs (c m);
             connected := conn; good := gd; ping_outstanding := ping_outstanding (c m);
             keepAliveInterval := keepAliveInterval (c m); retryInterval := retryInterval (c m);
             lastSent := lastSent (c m); lastReceived := lastReceived (c m); publications := publications (c m);
             pending_writes := pending_writes (c m); msgs_received := msgs_received (c m); msgs_sent := msgs_sent (c m) |};
     opts := opts m; connect_state := st; socket := sock; messageQueue := messageQueue m;
     connect := connect m; disconnect := disconnect m; pending_write := pending_write m; responses := responses m;
     shouldBeConnected := shouldBeConnected m; currentInterval := currentInterval m;
     lastConnectionFailedTime := lastConnectionFailedTime m; retrying := retrying m; reconnectNow := reconnectNow m;
     commands := commands m; next_addr := next_addr m |}.
Definition with_queue (m : MQTTAsyncs) (x : list delivery) : MQTTAsyncs :=
  {| c := c m; opts := opts m; connect_state := connect_state m; socket := socket m; messageQueue := x;
     connect := connect m; disconnect := disconnect m; pending_write := pending_write m; responses := responses m;
     shouldBeConnected := shouldBeConnected m; currentInterval := currentInterval m;
     lastConnectionFailedTime := lastConnectionFailedTime m; retrying := retrying m; reconnectNow := reconnectNow m;
     commands := commands m; next_addr := next_addr m |}.
Definition with_connect (m : MQTTAsyncs) (x y : command) : MQTTAsyncs :=
  {| c := c m; opts := opts m; connect_state := connect_state m; socket := socket m; messageQueue := messageQueue m;
     connect := x; disconnect := y; pending_write := pending_write m; responses := responses m;
     shouldBeConnected := shouldBeConnected m; currentInterval := currentInterval m;
     lastConnectionFailedTime := lastConnectionFailedTime m; retrying := retrying m; reconnectNow := reconnectNow m;
     commands := commands m; next_addr := next_addr m |}.
Definition with_responses (m : MQTTAsyncs) (w : option loc) (x : list queuedCommand) : MQTTAsyncs :=
  {| c := c m; opts := opts m; connect_state := connect_state m; socket := socket m; messageQueue := messageQueue m;
     connect := connect m; disconnect := disconnect m; pending_write := w; responses := x;
     shouldBeConnected := shouldBeConnected m; currentInterval := currentInterval m;
     lastConnectionFailedTime := lastConnectionFailedTime m; retrying := retrying m; reconnectNow := reconnectNow m;
     commands := commands m; next_addr := next_addr m |}.
Definition with_should (m : MQTTAsyncs) (x : bool) : MQTTAsyncs :=
  {| c := c m; opts := opts m; connect_state := connect_state m; socket := socket m; messageQueue := messageQueue m;
     connect := connect m; disconnect := disconnect m; pending_write := pending_write m; responses := responses m;
     shouldBeConnected := x; currentInterval := currentInterval m;
     lastConnectionFailedTime := lastConnectionFailedTime m; retrying := retrying m; reconnectNow := reconnectNow m;
     commands := commands m; next_addr := next_addr m |}.
Definition with_retry (m : MQTTAsyncs) (interval failed : Z) (r now : bool) : MQTTAsyncs :=
  {| c := c m; opts := opts m; connect_state := connect_state m; socket := socket m; messageQueue := messageQueue m;
     connect := connect m; disconnect := disconnect m; pending_write := pending_write m; responses := responses m;
     shouldBeConnected := shouldBeConnected m; currentInterval := interval;
     lastConnectionFailedTime := failed; retrying := r; reconnectNow := now;
     commands := commands m; next_addr := next_addr m |}.
Definition with_commands (m : MQTTAsyncs) (x : list queuedCommand) (n : loc) : MQTTAsyncs :=
  {| c := c m; opts := opts m; connect_state := connect_state m; socket := socket m; messageQueue := messageQueue m;
     connect := connect m; disconnect := disconnect m; pending_write := pending_write m; responses := responses m;
     shouldBeConnected := shouldBeConnected m; currentInterval := currentInterval m;
     lastConnectionFailedTime := lastConnectionFailedTime m; retrying := retrying m; reconnectNow := reconnectNow m;
     commands := x; next_addr := n |}.

(** ** Actions *)

Definition act (A : Type) : Type := MQTTAsyncs -> comp (A * list output * MQTTAsyncs).

#[global] Instance act_ret : MRet act := fun A a m => Ret (a, [], m).
#[global] Instance act_bind : MBind act := fun A B k a m =>
  match a m with
  | Ret (x, o1, m1) =>
      match k x m1 with
      | Ret (y, o2, m2) => Ret (y, o1 ++ o2, m2)
      | Err f => Err f
      end
  | Err f => Err f
  end.

Definition get : act MQTTAsyncs := fun m => Ret (m, [], m).
Definition modify (g : MQTTAsyncs -> MQTTAsyncs) : act unit := fun m => Ret (tt, [], g m).
Definition out (l : list output) : act unit := fun m => Ret (tt, l, m).
Definition lift {A} (x : comp A) : act A := fun m => match x with Ret a => Ret (a, [], m) | Err f => Err f end.
Definition when (b : bool) (a : act unit) : act unit := if b then a else mret tt.

Section async.
(** What an unassigned field holds. *)
Context (junk : Z).

(** What the surroundings answer: the clock in milliseconds and in seconds,
    whether the socket has no pending write, the result and socket of opening a
    connection, the result of a send, of signalling the sending thread, and
    whether the application takes a message. *)
Record answers := {
  now : Z;
  secs : Z;
  idle : bool;
  new_socket : Z * Z;
  send_rc : Z;
  signal : Z;
  accepts : bool
}.

(** *** Commands *)

Definition conn_of (cm : command) : Z * Z := match det cm with Conn u v => (u, v) | _ => (0, 0) end.
Definition with_conn_of (cm : command) (u v : Z) : command :=
  {| type := type cm; on_success := on_success cm; on_failure := on_failure cm; token := token cm;
     start_time := start_time cm; det := Conn u v |}.
Definition started (cm : command) (t : Z) : command :=
  {| type := type cm; on_success := on_success cm; on_failure := on_failure cm; token := token cm;
     start_time := t; det := det cm |}.

Definition MQTTAsync_checkConn (cm : command) (m : MQTTAsyncs) : bool :=
  ((conn_of cm).1 + 1 <? Z.of_nat (length (serverURIs (opts m)))) ||
  (((conn_of cm).2 =? MQTTVERSION_3_1_1) && (MQTTVersion (opts m) =? MQTTVERSION_DEFAULT)).

(** A new command object. *)
Definition new_command (cm : command) : act queuedCommand :=
  let* m := get in
  let* _ := modify (fun m => with_commands m (commands m) (Pos.succ (next_addr m))) in
  mret {| addr := next_addr m; cmd := cm |}.

Definition internal_disconnect (cm : command) : bool :=
  (type cm =? DISCONNECT) && match det cm with Dis i _ => i | _ => false end.

Definition MQTTAsync_addCommand (e : answers) (q : queuedCommand) : act Z :=
  let* m := get in
  let cm := if negb (type (cmd q) =? CONNECT) || (connect_state m =? 0) then started (cmd q) (now e) else cmd q in
  let q := {| addr := addr q; cmd := cm |} in
  let* _ :=
    (if (type cm =? CONNECT) || internal_disconnect cm then
       match commands m with
       | h :: _ =>
           if type (cmd h) =? type cm then mret tt
           else modify (fun m => with_commands m (q :: commands m) (next_addr m))
       | [] => modify (fun m => with_commands m [q] (next_addr m))
       end
     else modify (fun m => with_commands m (commands m ++ [q]) (next_addr m))) in
  mret (signal e).

Definition MQTTAsync_startConnectRetry (e : answers) : act unit :=
  modify (fun m =>
    if automaticReconnect (opts m) && shouldBeConnected m then
      if retrying m then
        with_retry m (Z.min (to_int (currentInterval m * 2)) (maxRetryInterval (opts m))) (now e) true (reconnectNow m)
      else with_retry m (minRetryInterval (opts m)) (now e) true (reconnectNow m)
    else m).

(** The CONNECT command again, with the attempts at a version restarted. *)
Definition restarted (m : MQTTAsyncs) : command :=
  if MQTTVersion (opts m) =? MQTTVERSION_DEFAULT then with_conn_of (connect m) (conn_of (connect m)).1 0 else connect m.

Definition MQTTAsync_reconnect (e : answers) : act Z :=
  let* m := get in
  if automaticReconnect (opts m) then
    if shouldBeConnected m then
      let* _ := modify (fun m =>
        if retrying m then with_retry m (currentInterval m) (lastConnectionFailedTime m) true true
        else with_retry m (minRetryInterval (opts m)) (lastConnectionFailedTime m) true true) in
      mret MQTTASYNC_SUCCESS
    else mret MQTTASYNC_FAILURE
  else
    let* q := new_command (restarted m) in
    let* _ := MQTTAsync_addCommand e q in
    mret MQTTASYNC_SUCCESS.

Definition MQTTAsync_disconnect1 (e : answers) (success failure : bool) (timeout : Z) (internal : bool) : act Z :=
  let* _ := when (negb internal) (modify (fun m => with_should m false)) in
  let* m := get in
  if connected (c m) =? 0 then mret MQTTASYNC_DISCONNECTED
  else
    let* q := new_command {| type := DISCONNECT; on_success := success; on_failure := failure; token := 0;
                             start_time := 0; det := Dis internal timeout |} in
    MQTTAsync_addCommand e q.
Definition MQTTAsync_disconnect_internal (e : answers) (timeout : Z) : act Z :=
  MQTTAsync_disconnect1 e false false timeout true.
Definition MQTTAsync_disconnect (e : answers) (success failure : bool) (timeout : Z) : act Z :=
  MQTTAsync_disconnect1 e success failure timeout false.
Definition MQTTProtocol_closeSession (e : answers) : act unit :=
  let* _ := MQTTAsync_disconnect_internal e 0 in mret tt.

(** *** The handlers of MQTTProtocolClient.c *)

Fixpoint close_sessions (e : answers) (es : list event) : act unit :=
  match es with
  | [] => mret tt
  | CloseSession :: es => let* _ := MQTTProtocol_closeSession e in close_sessions e es
  | x :: es => let* _ := out [Sent x] in close_sessions e es
  end.

Definition Protocol_processPublication (e : answers) (d : delivery) : act unit :=
  let* m := get in
  let* rc :=
    (if bool_decide (messageQueue m = []) && negb (connected (c m) =? 0) && ma (opts m)
     then let* _ := out [MessageArrived d] in mret (accepts e) else mret false) in
  when (negb rc) (modify (fun m => with_queue m (messageQueue m ++ [d]))).

Fixpoint process_publications (e : answers) (ds : list delivery) : act unit :=
  match ds with
  | [] => mret tt
  | d :: ds => let* _ := Protocol_processPublication e d in process_publications e ds
  end.

(** A handler on the protocol part of the client. *)
Definition protocol (e : answers) (o : pop) : act unit :=
  let* m := get in
  let* (es, ds, s) := lift (run_pop junk (c m) o) in
  let* _ := modify (fun m => with_c m s) in
  let* _ := close_sessions e es in
  process_publications e ds.

Definition retry_pop (e : answers) (doRetry regardless : bool) (ans : list (bool * Z * Z)) : act unit :=
  protocol e (Retry (secs e) doRetry regardless (idle e) ans).

(** *** Closing *)

Definition failures (l : list queuedCommand) : list output :=
  omap (fun q => if on_failure (cmd q)
                 then Some (OnFailure (addr q) (type (cmd q)) (token (cmd q)) (Some MQTTASYNC_OPERATION_INCOMPLETE)) else None) l.

Definition MQTTAsync_removeResponsesAndCommands : act unit :=
  let* m := get in
  let* _ := out (failures (responses m)) in
  let* _ := modify (fun m => with_responses m (pending_write m) []) in
  let* _ := out (failures (commands m)) in
  modify (fun m => with_commands m [] (next_addr m)).

Definition MQTTAsync_emptyMessageQueue : act unit := modify (fun m => with_queue m []).

Definition MQTTAsync_cleanSession (e : answers) : act Z :=
  let* _ := protocol e CleanSession in
  let* _ := MQTTAsync_emptyMessageQueue in
  let* _ := modify (fun m => with_c m (with_msgID (c m) 0)) in
  let* _ := MQTTAsync_removeResponsesAndCommands in
  mret 0.

Definition MQTTAsync_closeOnly (e : answers) : act unit :=
  let* _ := modify (fun m => with_c m (with_net (c m) 0 0 (lastSent (c m)))) in
  let* m := get in
  let* _ := when (0 <? socket m)
    (let* _ := protocol e (WritesDone (idle e)) in
     let* _ := when (negb (connected (c m) =? 0) && idle e) (out [SentDisconnect]) in
     modify (fun m => with_conn m (connected (c m)) (good (c m)) (connect_state m) 0)) in
  modify (fun m => with_conn m 0 (good (c m)) 0 (socket m)).

Definition MQTTAsync_closeSession (e : answers) : act unit :=
  let* _ := MQTTAsync_closeOnly e in
  let* m := get in
  when (cleansession (opts m)) (let* _ := MQTTAsync_cleanSession e in mret tt).

Definition MQTTAsync_checkDisconnect (e : answers) (cm : command) : act unit :=
  let* m := get in
  let timeout := match det cm with Dis _ t => t | _ => 0 end in
  when ((Z.of_nat (length (outboundMsgs (c m))) =? 0) || (timeout <=? now e - start_time cm))
    (let was_connected := connected (c m) in
     let* _ := MQTTAsync_closeSession e in
     if internal_disconnect cm then
       let* _ := when (cl (opts m) && negb (was_connected =? 0)) (out [ConnectionLost]) in
       MQTTAsync_startConnectRetry e
     else when (on_success cm) (out [DisconnectSuccess])).

(** *** Connecting *)

Definition URI_TCP : string := "tcp://".
Definition strip_tcp (uri : string) : string :=
  if String.prefix URI_TCP uri then String.substring (String.length URI_TCP) (String.length uri) uri else uri.

(** MQTTPacket_send_connect as the client sees it: the credentials are read,
    and a version that is neither 3.1 nor 3.1.1 sends nothing. *)
Definition read_owned (o : owned) : comp unit := match o with Freed => Err UseAfterFree | _ => Ret tt end.
Definition send_connect (version : Z) (rc : Z) : act Z :=
  let* m := get in
  let* _ := lift (read_owned (username (opts m))) in
  if (version =? MQTTVERSION_3_1) || (version =? MQTTVERSION_3_1_1) then
    let* _ := lift (read_owned (password (opts m))) in
    let* _ := out [SentConnect version] in
    mret rc
  else mret SOCKET_ERROR.

(** MQTTProtocol_connect of MQTTProtocolOut.c. *)
Definition MQTTProtocol_connect (e : answers) (uri : string) (version : Z) : act Z :=
  let* _ := out [OpenSocket uri] in
  let (rc, sock) := new_socket e in
  let* _ := modify (fun m => with_conn m (connected (c m)) 1 (connect_state m) sock) in
  if (rc =? EINPROGRESS) || (rc =? EWOULDBLOCK) then
    let* _ := modify (fun m => with_conn m (connected (c m)) (good (c m)) 1 (socket m)) in mret rc
  else if rc =? 0 then
    let* rc := send_connect version (send_rc e) in
    let* _ := modify (fun m => with_conn m (connected (c m)) (good (c m)) (if rc =? 0 then 3 else 0) (socket m)) in
    mret rc
  else mret rc.

Definition next_attempt (m : MQTTAsyncs) (cm : command) : command :=
  let (u, v) := conn_of cm in
  if MQTTVersion (opts m) =? MQTTVERSION_DEFAULT then
    if v =? MQTTVERSION_3_1 then with_conn_of cm (u + 1) MQTTVERSION_DEFAULT else cm
  else with_conn_of cm (u + 1) v.

Definition nextOrClose (e : answers) (rc : Z) : act unit :=
  let* m := get in
  if MQTTAsync_checkConn (connect m) m then
    let* _ := MQTTAsync_closeOnly e in
    let* m := get in
    let* q := new_command (next_attempt m (connect m)) in
    let* _ := MQTTAsync_addCommand e q in mret tt
  else
    let* _ := MQTTAsync_closeSession e in
    let* m := get in
    let* _ := when (on_failure (connect m)) (out [ConnectFailure rc]) in
    MQTTAsync_startConnectRetry e.

(** [sockopt] is the result of getsockopt and the error it reads. *)
Definition MQTTAsync_connecting (e : answers) (sockopt : Z * Z) : act Z :=
  let* m := get in
  let* rc :=
    (if connect_state m =? 1 then
       let rc := if sockopt.1 =? 0 then sockopt.2 else sockopt.1 in
       if negb (rc =? 0) then mret rc
       else
         let* _ := modify (fun m => with_conn m (connected (c m)) (good (c m)) 3 (socket m)) in
         send_connect (conn_of (connect m)).2 (send_rc e)
     else mret (-1)) in
  let* m := get in
  let* _ := when (negb (rc =? 0) && negb (rc =? TCPSOCKET_INTERRUPTED) && negb (connect_state m =? 2))
              (nextOrClose e MQTTASYNC_FAILURE) in
  mret rc.

(** *** Carrying out commands *)

Definition MQTTASYNC_PERSISTENCE_ERROR : Z := -2.
Definition failed (rc : Z) : bool := (rc =? SOCKET_ERROR) || (rc =? MQTTASYNC_PERSISTENCE_ERROR).

Definition set_connect (cm : command) : act unit := modify (fun m => with_connect m cm (disconnect m)).
Definition set_disconnect (cm : command) : act unit := modify (fun m => with_connect m (connect m) cm).
Definition add_response (q : queuedCommand) : act unit :=
  modify (fun m => with_responses m (pending_write m) (responses m ++ [q])).

(** Which command is carried out: the first one, unless it has to wait. *)
Definition next_command (e : answers) (m : MQTTAsyncs) : option queuedCommand :=
  match commands m with
  | [] => None
  | q :: _ =>
      let t := type (cmd q) in
      if (t =? CONNECT) || (t =? DISCONNECT) || (negb (connected (c m) =? 0) && (connect_state m =? 0) && idle e) then
        if ((t =? PUBLISH) || (t =? SUBSCRIBE) || (t =? UNSUBSCRIBE)) &&
           (MAX_MSG_ID - 1 <=? Z.of_nat (length (outboundMsgs (c m)))) then None
        else Some q
      else None
  end.

Definition process_connect (e : answers) (cm : command) : act (Z * command) :=
  let* m := get in
  if negb (connect_state m =? 0) || negb (connected (c m) =? 0) then mret (0, cm)
  else
    let* uri :=
      (if bool_decide (serverURIs (opts m) = []) then mret (serverURI (opts m))
       else let* u := lift (comp_of_option OutOfBounds (serverURIs (opts m) !! Z.to_nat (conn_of cm).1)) in
            mret (strip_tcp u)) in
    let v := (conn_of cm).2 in
    let cm := with_conn_of cm (conn_of cm).1
      (if MQTTVersion (opts m) =? MQTTVERSION_DEFAULT then
         if v =? 0 then MQTTVERSION_3_1_1 else if v =? MQTTVERSION_3_1_1 then MQTTVERSION_3_1 else v
       else MQTTVersion (opts m)) in
    let* rc := MQTTProtocol_connect e uri (conn_of cm).2 in
    let* m := get in
    mret (if connect_state m =? 0 then SOCKET_ERROR else rc, cm).

Definition publish_of (cm : command) (d : string) (pl : list Z) (len : Z) : Publish :=
  {| pub_header := junk; topic := d; topiclen := junk; msgId := token cm; payload := pl; payloadlen := len |}.

Definition process_publish (e : answers) (q : queuedCommand) : act Z :=
  match det (cmd q) with
  | Pub d pl len qs ret =>
      let rc := send_rc e in
      let* _ := protocol e (Start (publish_of (cmd q) d pl len) qs ret (secs e) rc) in
      let* _ :=
        when (qs =? 0)
          (if rc =? TCPSOCKET_COMPLETE
           then when (on_success (cmd q)) (out [OnSuccess (addr q) (type (cmd q)) (token (cmd q))])
           else modify (fun m => with_responses m (Some (addr q)) (responses m))) in
      mret rc
  | _ => mret 0
  end.

Definition process_disconnect (e : answers) (cm : command) : act unit :=
  let* m := get in
  when (negb (connect_state m =? 0) || negb (connected (c m) =? 0))
    (let* _ := when (negb (connect_state m =? 0))
       (let* _ := modify (fun m => with_conn m (connected (c m)) (good (c m)) (-2) (socket m)) in
        when (on_failure (connect m)) (out [ConnectFailure (-2)])) in
     MQTTAsync_checkDisconnect e cm).

Definition is_qos0 (cm : command) : bool := match det cm with Pub _ _ _ qs _ => qs =? 0 | _ => false end.

(** What becomes of the command that was carried out. *)
Definition settle (e : answers) (q : queuedCommand) (rc : Z) : act unit :=
  let cm := cmd q in
  if (type cm =? CONNECT) && negb (failed rc) then set_connect cm
  else if type cm =? DISCONNECT then set_disconnect cm
  else if (type cm =? PUBLISH) && is_qos0 cm && negb (failed rc) then
    when (rc =? TCPSOCKET_INTERRUPTED) (add_response q)
  else if failed rc then
    let* _ :=
      (if type cm =? CONNECT then
         let* _ := MQTTAsync_disconnect e false false 0 in modify (fun m => with_should m true)
       else let* _ := MQTTAsync_disconnect_internal e 0 in mret tt) in
    let* m := get in
    if (type cm =? CONNECT) && MQTTAsync_checkConn cm m then
      let* _ := MQTTAsync_addCommand e {| addr := addr q; cmd := next_attempt m cm |} in mret tt
    else
      let* _ := when (on_failure cm) (out [OnFailure (addr q) (type cm) (token cm) None]) in
      when (type cm =? CONNECT) (let* _ := set_connect cm in MQTTAsync_startConnectRetry e)
  else add_response q.

Definition MQTTAsync_processCommand (e : answers) : act bool :=
  let* m := get in
  match next_command e m with
  | None => mret false
  | Some q =>
      let* _ := modify (fun m => with_commands m (List.tl (commands m)) (next_addr m)) in
      let t := type (cmd q) in
      let* (rc, cm) :=
        (if t =? CONNECT then process_connect e (cmd q)
         else if t =? SUBSCRIBE then
           let* _ := out (match det (cmd q) with Sub ts qs => [SentSubscribe (token (cmd q)) ts qs] | _ => [] end) in
           mret (send_rc e, cmd q)
         else if t =? UNSUBSCRIBE then
           let* _ := out (match det (cmd q) with Unsub ts => [SentUnsubscribe (token (cmd q)) ts] | _ => [] end) in
           mret (send_rc e, cmd q)
         else if t =? PUBLISH then let* rc := process_publish e q in mret (rc, cmd q)
         else if t =? DISCONNECT then let* _ := process_disconnect e (cmd q) in mret (0, cmd q)
         else mret (0, cmd q)) in
      let* _ := settle e {| addr := addr q; cmd := cm |} rc in
      mret true
  end.

(** A write that was interrupted is complete: [rc] is 1, or -1 for an error. *)
Definition MQTTAsync_writeComplete (e : answers) (rc : Z) : act unit :=
  let* _ := protocol e (WritesDone (idle e)) in
  let* _ := modify (fun m => with_c m (with_net (c m) (good (c m)) (ping_outstanding (c m)) (secs e))) in
  let* m := get in
  match pending_write m with
  | None => mret tt
  | Some w =>
      let* _ :=
        match responses m with
        | [] => mret tt
        | com :: rest =>
            (* com->client->pending_write == m->pending_write: the first response *)
            let* q := lift (comp_of_option UseAfterFree (List.find (fun q => bool_decide (addr q = w)) (responses m))) in
            let* _ :=
              when (type (cmd q) =? PUBLISH)
                (if (rc =? 1) && on_success (cmd q) then out [OnSuccess (addr q) (type (cmd q)) (token (cmd q))]
                 else when ((rc =? -1) && on_failure (cmd q))
                        (out [OnFailure (addr q) (type (cmd q)) (token (cmd q)) (Some rc)])) in
            modify (fun m => with_responses m (pending_write m) rest)
        end in
      modify (fun m => with_responses m None (responses m))
  end.

(** The response timeouts of the loop are disabled in the source; [last] is
    the static variable. *)
Definition MQTTAsync_checkTimeouts (e : answers) (last : Z) : act Z :=
  if secs e - last <? 3 then mret last
  else
    let* m := get in
    let* _ := when (connect_state m =? -2) (MQTTAsync_checkDisconnect e (disconnect m)) in
    let* m := get in
    let* _ :=
      (if negb (connect_state m =? 0) && (connectTimeout (opts m) * 1000 <? now e - start_time (connect m))
       then nextOrClose e MQTTASYNC_FAILURE
       else
         when (automaticReconnect (opts m) && retrying m &&
               (reconnectNow m || (currentInterval m * 1000 <? now e - lastConnectionFailedTime m)))
           (let* q := new_command (restarted m) in
            let* _ := MQTTAsync_addCommand e q in
            modify (fun m => with_retry m (currentInterval m) (lastConnectionFailedTime m) (retrying m) false))) in
    mret (secs e).

(** *** Packets *)

Inductive received :=
  | RConnack (rc : Z)
  | RSuback (msgid : Z) (qoss : list Z)
  | RUnsuback (msgid : Z)
  | RPublish (p : Publish)
  | RPuback (msgid : Z)
  | RPubrec (msgid : Z)
  | RPubrel (msgid dup : Z)
  | RPubcomp (msgid : Z)
  | RPingresp.

Definition MQTTAsync_completeConnection (e : answers) (ans : list (bool * Z * Z)) (connack : Z) : act Z :=
  let* m := get in
  if connect_state m =? 3 then
    if connack =? MQTTASYNC_SUCCESS then
      let* _ := modify (fun m => with_retry m (currentInterval m) (lastConnectionFailedTime m) false (reconnectNow m)) in
      let* _ := modify (fun m => with_conn m 1 1 0 (socket m)) in
      let* m := get in
      let* rc := (if cleansession (opts m) then MQTTAsync_cleanSession e else mret MQTTASYNC_SUCCESS) in
      let* m := get in
      if 0 <? Z.of_nat (length (outboundMsgs (c m))) then
        let* _ := modify (fun m => with_c m (with_outbound (c m) (map (fun x => touch 0 (nextMessageType x) x) (outboundMsgs (c m))))) in
        let* _ := protocol e (Retry 0 true true (idle e) ans) in
        let* m := get in
        mret (if connected (c m) =? 1 then rc else MQTTASYNC_DISCONNECTED)
      else mret rc
    else mret connack
  else mret MQTTASYNC_FAILURE.

(** The completion code of a handler. *)
Definition completion (s : pstate) (o : pop) : comp Z :=
  match o with
  | OnPublish p idle now rc => let* (r, _, _, _) := MQTTProtocol_handlePublishes junk s p idle now rc in Ret r
  | OnPuback id per => let* (r, _) := MQTTProtocol_handlePubacks s id per in Ret r
  | OnPubrec id now rc => let* (r, _, _) := MQTTProtocol_handlePubrecs s id now rc in Ret r
  | OnPubrel id dup idle rc per => let* (r, _, _, _) := MQTTProtocol_handlePubrels s id dup idle rc per in Ret r
  | OnPubcomp id per => let* (r, _) := MQTTProtocol_handlePubcomps s id per in Ret r
  | _ => Ret TCPSOCKET_COMPLETE
  end.
Definition handle (e : answers) (o : pop) : act Z :=
  let* m := get in
  let* rc := lift (completion (c m) o) in
  let* _ := protocol e o in
  mret rc.

Definition find_response (id : Z) (l : list queuedCommand) : option queuedCommand :=
  List.find (fun q => token (cmd q) =? id) l.
Fixpoint detach_response (id : Z) (l : list queuedCommand) : list queuedCommand :=
  match l with
  | [] => []
  | q :: l => if token (cmd q) =? id then l else q :: detach_response id l
  end.

(** The first response with this token is detached and told. *)
Definition respond (id : Z) (tell : queuedCommand -> list output) : act unit :=
  let* m := get in
  match find_response id (responses m) with
  | None => mret tt
  | Some q =>
      let* _ := modify (fun m => with_responses m (pending_write m) (detach_response id (responses m))) in
      out (tell q)
  end.
Definition tell_success (q : queuedCommand) : list output :=
  if on_success (cmd q) then [OnSuccess (addr q) (type (cmd q)) (token (cmd q))] else [].
Definition tell_subscribed (qoss : list Z) (q : queuedCommand) : list output :=
  match qoss with
  | [x] =>
      if x =? MQTT_BAD_SUBSCRIBE then
        if on_failure (cmd q) then [OnFailure (addr q) (type (cmd q)) (token (cmd q)) (Some x)] else []
      else tell_success q
  | _ => tell_success q
  end.

Definition acknowledged (e : answers) (o : pop) (id : Z) : act Z :=
  let* rc := handle e o in
  let* m := get in
  let* _ := when (dc (opts m)) (out [DeliveryComplete id]) in
  let* _ := respond id tell_success in
  mret rc.

(** What MQTTAsync_cycle does with a packet; the others are left to the
    receiving thread. *)
Definition cycle_packet (e : answers) (rc : Z) (pack : received) : act (Z * option received) :=
  match pack with
  | RPublish p => let* rc := handle e (OnPublish p (idle e) (secs e) (send_rc e)) in mret (rc, None)
  | RPuback id => let* rc := acknowledged e (OnPuback id 0) id in mret (rc, None)
  | RPubcomp id => let* rc := acknowledged e (OnPubcomp id 0) id in mret (rc, None)
  | RPubrec id => let* rc := handle e (OnPubrec id (secs e) (send_rc e)) in mret (rc, None)
  | RPubrel id dup => let* rc := handle e (OnPubrel id dup (idle e) (send_rc e) 0) in mret (rc, None)
  | RPingresp => let* rc := handle e OnPingresp in mret (rc, None)
  | _ => mret (rc, Some pack)
  end.

(** [due] is whether the retry interval has passed. *)
Definition MQTTAsync_retry (e : answers) (due : bool) (ans : list (bool * Z * Z)) : act unit :=
  if due then
    let* _ := protocol e (Keepalive (secs e) (idle e) (send_rc e)) in
    retry_pop e true false ans
  else retry_pop e false false ans.

(** [ready] is whether the client's socket is ready; [packet] is what
    MQTTPacket_Factory reads, with its code. *)
Definition MQTTAsync_cycle (e : answers) (ready : bool) (sockopt : Z * Z) (packet : Z * option received) (due : bool)
    (ans : list (bool * Z * Z)) : act (Z * option received) :=
  let* m := get in
  let* (rc, pack) :=
    (if ready && (0 <? socket m) then
       let* (rc, pack) :=
         (if (connect_state m =? 1) || (connect_state m =? 2)
          then let* rc := MQTTAsync_connecting e sockopt in mret (rc, None)
          else mret packet) in
       let* m := get in
       let* _ := when ((connect_state m =? 3) && (rc =? SOCKET_ERROR)) (nextOrClose e MQTTASYNC_FAILURE) in
       match pack with
       | Some p => cycle_packet e rc p
       | None => mret (rc, None)
       end
     else mret (SOCKET_ERROR, None)) in
  let* _ := MQTTAsync_retry e due ans in
  mret (rc, pack).

Definition deliver_queued (e : answers) : act unit :=
  let* m := get in
  match messageQueue m with
  | [] => mret tt
  | d :: rest =>
      let* rc := (if ma (opts m) then let* _ := out [MessageArrived d] in mret (accepts e) else mret true) in
      when rc (modify (fun m => with_queue m rest))
  end.

Definition receive_packet (e : answers) (ans : list (bool * Z * Z)) (pack : received) : act unit :=
  match pack with
  | RConnack k =>
      let* rc := MQTTAsync_completeConnection e ans k in
      if rc =? MQTTASYNC_SUCCESS then
        let* m := get in
        let* _ := when (on_success (connect m)) (out [ConnectSuccess]) in
        when (connected_cb (opts m)) (out [Connected])
      else nextOrClose e rc
  | RSuback id qoss => respond id (tell_subscribed qoss)
  | RUnsuback id => respond id tell_success
  | _ => mret tt
  end.

(** What the receiving thread makes of the socket, the code and the packet
    that MQTTAsync_cycle has left it; a client whose socket was closed in the
    meantime is not found again. *)
Definition dispatch (e : answers) (sock rc : Z) (pack : option received) (ans : list (bool * Z * Z)) : act unit :=
  let* m := get in
  when (negb (sock =? 0) && (socket m =? sock))
    (if rc =? SOCKET_ERROR then
       if connected (c m) =? 1 then let* _ := MQTTAsync_disconnect_internal e 0 in mret tt
       else if negb (connect_state m =? 0) then nextOrClose e rc
       else MQTTAsync_closeOnly e
     else
       let* _ := deliver_queued e in
       match pack with
       | Some p => receive_packet e ans p
       | None => mret tt
       end).

(** One turn of the receiving thread that nothing comes between. *)
Definition receive_turn (e : answers) (ready : bool) (sockopt : Z * Z) (packet : Z * option received) (due : bool)
    (ans : list (bool * Z * Z)) : act unit :=
  let* m0 := get in
  let* (rc, pack) := MQTTAsync_cycle e ready sockopt packet due ans in
  when (ready && (0 <? socket m0)) (dispatch e (socket m0) rc pack ans).

(** *** The interface *)

Definition MQTTAsync_setCallbacks (has_cl has_ma has_dc : bool) : act Z :=
  let* m := get in
  if negb has_ma || negb (connect_state m =? 0) then mret MQTTASYNC_FAILURE
  else
    let o := opts m in
    let* _ := modify (fun m => with_opts m
      {| cl := has_cl; ma := has_ma; dc := has_dc; connected_cb := connected_cb o; createOptions := createOptions o;
         automaticReconnect := automaticReconnect o; minRetryInterval := minRetryInterval o;
         maxRetryInterval := maxRetryInterval o; connectTimeout := connectTimeout o; serverURI := serverURI o;
         serverURIs := serverURIs o; cleansession := cleansession o; MQTTVersion := MQTTVersion o;
         username := username o; password := password o; will := will o |}) in
    mret MQTTASYNC_SUCCESS.

Definition MQTTAsync_setConnected (has : bool) : act Z :=
  let* m := get in
  if negb (connect_state m =? 0) then mret MQTTASYNC_FAILURE
  else
    let o := opts m in
    let* _ := modify (fun m => with_opts m
      {| cl := cl o; ma := ma o; dc := dc o; connected_cb := has; createOptions := createOptions o;
         automaticReconnect := automaticReconnect o; minRetryInterval := minRetryInterval o;
         maxRetryInterval := maxRetryInterval o; connectTimeout := connectTimeout o; serverURI := serverURI o;
         serverURIs := serverURIs o; cleansession := cleansession o; MQTTVersion := MQTTVersion o;
         username := username o; password := password o; will := will o |}) in
    mret MQTTASYNC_SUCCESS.

(** [struct_ok] is the test of the structure's id. *)
Record willOptions := {
  w_struct_ok : bool;
  w_version : Z;
  w_topicName : string;
  w_message : option string;
  w_payload : option (list Z);
  w_qos : Z;
  w_retained : Z
}.
Record connectOptions := {
  o_struct_ok : bool;
  o_version : Z;
  o_will : option willOptions;
  o_ssl : option (bool * Z);
  o_username : option string;
  o_password : option string;
  o_binarypwd : option (list Z);
  o_keepAliveInterval : Z;
  o_cleansession : bool;
  o_MQTTVersion : Z;
  o_automaticReconnect : bool;
  o_minRetryInterval : Z;
  o_maxRetryInterval : Z;
  o_retryInterval : Z;
  o_connectTimeout : Z;
  o_serverURIs : list string;
  o_on_success : bool;
  o_on_failure : bool
}.

(** The checks of MQTTAsync_connect, in their order. *)
Definition check_options (o : connectOptions) : comp Z :=
  if negb (o_struct_ok o) || (o_version o <? 0) || (5 <? o_version o) then Ret MQTTASYNC_BAD_STRUCTURE
  else if match o_will o with
          | Some w => negb (w_struct_ok w) || (negb (w_version w =? 0) && negb (w_version w =? 1))
          | None => false
          end then Ret MQTTASYNC_BAD_STRUCTURE
  else if match o_will o with Some w => (w_qos w <? 0) || (2 <? w_qos w) | None => false end then Ret MQTTASYNC_BAD_QOS
  else if match o_ssl o with
          | Some (ok, v) => negb (o_version o =? 0) && (negb ok || (v <? 0) || (2 <? v))
          | None => false
          end then Ret MQTTASYNC_BAD_STRUCTURE
  else
    let* u := (match o_username o with Some s => UTF8_validateString s | None => Ret true end) in
    if negb u then Ret MQTTASYNC_BAD_UTF8_STRING
    else
      let* p := (match o_password o with Some s => UTF8_validateString s | None => Ret true end) in
      if negb p then Ret MQTTASYNC_BAD_UTF8_STRING else Ret MQTTASYNC_SUCCESS.

Definition will_of (w : willOptions) : string * list Z * Z * Z :=
  (w_topicName w,
   match w_message w, w_payload w with
   | None, None => []
   | Some s, None => bytes_of s
   | None, Some p => if w_version w =? 1 then p else []
   | Some s, Some p => if w_version w =? 1 then p else bytes_of s
   end, w_retained w, w_qos w).

(** A string set before is freed, and is still pointed to unless a new one is
    given. *)
Definition reset_owned (old : owned) (new : option (list Z)) : comp owned :=
  let* _ := read_owned old in
  Ret (match new with Some b => Held b | None => match old with NoString => NoString | _ => Freed end end).

Definition connect_opts (o : options) (n : connectOptions) : comp options :=
  let* u := reset_owned (username o) (bytes_of <$> o_username n) in
  let* p := reset_owned (password o)
              (match o_password n with
               | Some s => Some (bytes_of s)
               | None => if 5 <=? o_version n then o_binarypwd n else None
               end) in
  Ret {| cl := cl o; ma := ma o; dc := dc o; connected_cb := connected_cb o; createOptions := createOptions o;
         automaticReconnect := if 4 <=? o_version n then o_automaticReconnect n else automaticReconnect o;
         minRetryInterval := if 4 <=? o_version n then o_minRetryInterval n else minRetryInterval o;
         maxRetryInterval := if 4 <=? o_version n then o_maxRetryInterval n else maxRetryInterval o;
         connectTimeout := o_connectTimeout n; serverURI := serverURI o;
         serverURIs := if 2 <=? o_version n then o_serverURIs n else [];
         cleansession := o_cleansession n; MQTTVersion := if 3 <=? o_version n then o_MQTTVersion n else 0;
         username := u; password := p; will := will_of <$> o_will n |}.

Definition keepalive_of (s : pstate) (k r : Z) : pstate :=
  {| msgID := msgID s; inboundMsgs := inboundMsgs s; outboundMsgs := outboundMsgs s; connected := connected s; good := good s;
     ping_outstanding := ping_outstanding s; keepAliveInterval := k; retryInterval := r;
     lastSent := lastSent s; lastReceived := lastReceived s; publications := publications s;
     pending_writes := pending_writes s; msgs_received := msgs_received s; msgs_sent := msgs_sent s |}.

(** With SSL options the state is changed before the error is returned. *)
Definition MQTTAsync_connect (e : answers) (n : option connectOptions) : act Z :=
  match n with
  | None => mret MQTTASYNC_NULL_PARAMETER
  | Some n =>
      let* rc := lift (check_options n) in
      if negb (rc =? MQTTASYNC_SUCCESS) then mret rc
      else
        let* m := get in
        let* _ := set_connect {| type := type (connect m); on_success := o_on_success n; on_failure := o_on_failure n;
                                 token := token (connect m); start_time := start_time (connect m); det := det (connect m) |} in
        if negb (o_version n =? 0) && bool_decide (is_Some (o_ssl n)) then
          let o := opts m in
          let* _ := modify (fun m => with_c m (keepalive_of (c m) (o_keepAliveInterval n) (retryInterval (c m)))) in
          let* _ := modify (fun m => with_opts m
            {| cl := cl o; ma := ma o; dc := dc o; connected_cb := connected_cb o; createOptions := createOptions o;
               automaticReconnect := if 4 <=? o_version n then o_automaticReconnect n else automaticReconnect o;
               minRetryInterval := if 4 <=? o_version n then o_minRetryInterval n else minRetryInterval o;
               maxRetryInterval := if 4 <=? o_version n then o_maxRetryInterval n else maxRetryInterval o;
               connectTimeout := o_connectTimeout n; serverURI := serverURI o; serverURIs := serverURIs o;
               cleansession := o_cleansession n; MQTTVersion := if 3 <=? o_version n then o_MQTTVersion n else 0;
               username := username o; password := password o; will := will_of <$> o_will n |}) in
          mret MQTTASYNC_SSL_NOT_SUPPORTED
        else
          let* o := lift (connect_opts (opts m) n) in
          let* _ := modify (fun m => with_opts m o) in
          let* _ := modify (fun m => with_c m (keepalive_of (c m) (o_keepAliveInterval n) (o_retryInterval n))) in
          let* _ := modify (fun m => with_should m true) in
          let* q := new_command {| type := CONNECT; on_success := o_on_success n; on_failure := o_on_failure n;
                                   token := 0; start_time := 0; det := Conn 0 0 |} in
          MQTTAsync_addCommand e q
  end.

(** The loop of MQTTAsync_assignMsgId is the one of MQTTProtocol_assignMsgId. *)
Definition token_used (m : MQTTAsyncs) (id : Z) : bool :=
  bool_decide (is_Some (find_response id (commands m))) || bool_decide (is_Some (find_response id (responses m))).
Definition MQTTAsync_assignMsgId : act Z :=
  let* m := get in
  let start_msgid := msgID (c m) in
  let* id := lift (assign_loop (Z.to_nat MAX_MSG_ID) (token_used m) start_msgid (next_id start_msgid)) in
  let* _ := when (negb (id =? 0)) (modify (fun m => with_c m (with_msgID (c m) id))) in
  mret id.

Definition MQTTAsync_countBufferedMessages (m : MQTTAsyncs) : Z :=
  Z.of_nat (length (filter (fun q => type (cmd q) = PUBLISH) (commands m))).

Fixpoint check_topics (l : list (string * Z)) : comp Z :=
  match l with
  | [] => Ret MQTTASYNC_SUCCESS
  | (t, q) :: l =>
      let* ok := UTF8_validateString t in
      if negb ok then Ret MQTTASYNC_BAD_UTF8_STRING
      else if (q <? 0) || (2 <? q) then Ret MQTTASYNC_BAD_QOS
      else check_topics l
  end.

(** A command with a message id, its callbacks those of the response options. *)
Definition with_id (e : answers) (response : option (bool * bool)) (t : Z) (d : details) : act Z :=
  let* msgid := MQTTAsync_assignMsgId in
  if msgid =? 0 then mret MQTTASYNC_NO_MORE_MSGIDS
  else
    let* q := new_command {| type := t; on_success := match response with Some (s, _) => s | None => false end;
                             on_failure := match response with Some (_, f) => f | None => false end;
                             token := msgid; start_time := 0; det := d |} in
    MQTTAsync_addCommand e q.

Definition MQTTAsync_subscribeMany (e : answers) (topics : list (string * Z)) (response : option (bool * bool)) : act Z :=
  let* m := get in
  if connected (c m) =? 0 then mret MQTTASYNC_DISCONNECTED
  else
    let* rc := lift (check_topics topics) in
    if negb (rc =? MQTTASYNC_SUCCESS) then mret rc
    else with_id e response SUBSCRIBE (Sub topics.*1 topics.*2).
Definition MQTTAsync_subscribe (e : answers) (topic : string) (qos : Z) (response : option (bool * bool)) : act Z :=
  MQTTAsync_subscribeMany e [(topic, qos)] response.

Definition MQTTAsync_unsubscribeMany (e : answers) (topics : list string) (response : option (bool * bool)) : act Z :=
  let* m := get in
  if connected (c m) =? 0 then mret MQTTASYNC_DISCONNECTED
  else
    let* rc := lift (check_topics (map (fun t => (t, 0)) topics)) in
    if negb (rc =? MQTTASYNC_SUCCESS) then mret rc
    else with_id e response UNSUBSCRIBE (Unsub topics).

Definition MQTTAsync_send (e : answers) (destinationName : string) (payloadlen : Z) (payload : list Z) (qos retained : Z)
    (response : option (bool * bool)) : act Z :=
  let* m := get in
  if (connected (c m) =? 0) &&
     match createOptions (opts m) with None => true | Some (swd, _) => negb swd || negb (shouldBeConnected m) end
  then mret MQTTASYNC_DISCONNECTED
  else
    let* ok := lift (UTF8_validateString destinationName) in
    if negb ok then mret MQTTASYNC_BAD_UTF8_STRING
    else if (qos <? 0) || (2 <? qos) then mret MQTTASYNC_BAD_QOS
    else
      let* msgid := (if 0 <? qos then MQTTAsync_assignMsgId else mret 0) in
      if (0 <? qos) && (msgid =? 0) then mret MQTTASYNC_NO_MORE_MSGIDS
      else
        let* m := get in
        if match createOptions (opts m) with
           | Some (_, most) => most <=? MQTTAsync_countBufferedMessages m
           | None => false
           end then mret MQTTASYNC_MAX_BUFFERED_MESSAGES
        else
          let* data := lift (arr_slice payload 0 payloadlen) in
          let* q := new_command {| type := PUBLISH; on_success := match response with Some (s, _) => s | None => false end;
                                   on_failure := match response with Some (_, f) => f | None => false end;
                                   token := msgid; start_time := 0;
                                   det := Pub destinationName data payloadlen qos retained |} in
          MQTTAsync_addCommand e q.

(** [struct_ok]: the id and version of the structure. *)
Definition MQTTAsync_sendMessage (e : answers) (destinationName : string) (struct_ok : bool) (payloadlen : Z) (payload : list Z)
    (qos retained : Z) (response : option (bool * bool)) : act Z :=
  if negb struct_ok then mret MQTTASYNC_BAD_STRUCTURE
  else MQTTAsync_send e destinationName payloadlen payload qos retained response.

Definition MQTTAsync_isConnected (m : MQTTAsyncs) : Z := connected (c m).

(** The list ends with -1. *)
Definition MQTTAsync_getPendingTokens (m : MQTTAsyncs) : option (list Z) :=
  let l := map (fun q => token (cmd q)) (commands m) ++ map msgid (outboundMsgs (c m)) in
  match l with [] => None | _ => Some (l ++ [-1]) end.

Definition MQTTAsync_isComplete (m : MQTTAsyncs) (dt : Z) : Z :=
  if bool_decide (is_Some (find_response dt (commands m))) then MQTTASYNC_SUCCESS
  else if bool_decide (is_Some (find_msg dt (outboundMsgs (c m)))) then MQTTASYNC_SUCCESS
  else MQTTASYNC_TRUE.

(** The client is closed and its commands are told; then it is freed. *)
Definition MQTTAsync_destroy (e : answers) : act unit :=
  let* _ := MQTTAsync_closeSession e in
  let* _ := MQTTAsync_removeResponsesAndCommands in
  MQTTAsync_emptyMessageQueue.
End async.

(** *** Creation *)

Definition MQTTASYNC_BAD_PROTOCOL : Z := -14.

(** The zeroed client structure. *)
Definition new_client : pstate :=
  {| msgID := 0; inboundMsgs := []; outboundMsgs := []; connected := 0; good := 0; ping_outstanding := 0;
     keepAliveInterval := 0; retryInterval := 0; lastSent := 0; lastReceived := 0; publications := empty;
     pending_writes := []; msgs_received := 0; msgs_sent := 0 |}.
Definition new_options (serverURI : string) (create : option (bool * Z)) : options :=
  {| cl := false; ma := false; dc := false; connected_cb := false; createOptions := create; automaticReconnect := false;
     minRetryInterval := 0; maxRetryInterval := 0; connectTimeout := 0; serverURI := serverURI; serverURIs := [];
     cleansession := false; MQTTVersion := 0; username := NoString; password := NoString; will := None |}.

(** [create]: whether the structure is good, sendWhileDisconnected and
    maxBufferedMessages.  The client is one without persistence. *)
Definition MQTTAsync_createWithOptions (serverURI clientId : option string) (create : option (bool * (bool * Z)))
    : comp (Z * option MQTTAsyncs) :=
  match serverURI, clientId with
  | Some uri, Some id =>
      let* ok := UTF8_validateString id in
      if negb ok then Ret (MQTTASYNC_BAD_UTF8_STRING, None)
      else if strstr uri "://" && negb (String.prefix URI_TCP uri) then Ret (MQTTASYNC_BAD_PROTOCOL, None)
      else if match create with Some (good, _) => negb good | None => false end then Ret (MQTTASYNC_BAD_STRUCTURE, None)
      else
        Ret (0, Some {| c := new_client; opts := new_options (strip_tcp uri) (snd <$> create); connect_state := 0; socket := 0;
                        messageQueue := []; connect := no_command; disconnect := no_command; pending_write := None;
                        responses := []; shouldBeConnected := false; currentInterval := 0; lastConnectionFailedTime := 0;
                        retrying := false; reconnectNow := false; commands := []; next_addr := 1%positive |})
  | _, _ => Ret (MQTTASYNC_NULL_PARAMETER, None)
  end.
Definition MQTTAsync_create (serverURI clientId : option string) : comp (Z * option MQTTAsyncs) :=
  MQTTAsync_createWithOptions serverURI clientId None.

(** ** One thing that happens to the client

    A call of the application, a turn of the sending thread, a turn of the
    receiving thread or one of its two critical sections (the mutex is given
    up between MQTTAsync_cycle and the rest, so that other steps can come
    between; a second part may then be handed any code and packet), or the end
    of an interrupted write.  Each is taken as atomic.  That is more than the
    library's mutex gives: MQTTAsync_writeComplete runs before the mutex is
    taken, and connecting, sending and disconnecting hold only that of the
    list of commands. *)
Inductive astep :=
  | AConnect (e : answers) (o : connectOptions)
  | AReconnect (e : answers)
  | ADisconnect (e : answers) (success failure : bool) (timeout : Z)
  | ASubscribe (e : answers) (topics : list (string * Z)) (response : option (bool * bool))
  | AUnsubscribe (e : answers) (topics : list string) (response : option (bool * bool))
  | ASend (e : answers) (destinationName : string) (payloadlen : Z) (payload : list Z) (qos retained : Z)
      (response : option (bool * bool))
  | AProcess (e : answers)
  | ATimeouts (e : answers) (last : Z)
  | AReceive (e : answers) (ready : bool) (sockopt : Z * Z) (packet : Z * option received) (due : bool)
      (ans : list (bool * Z * Z))
  | ACycle (e : answers) (ready : bool) (sockopt : Z * Z) (packet : Z * option received) (due : bool)
      (ans : list (bool * Z * Z))
  | ADispatch (e : answers) (sock rc : Z) (pack : option received) (ans : list (bool * Z * Z))
  | AWriteComplete (e : answers) (rc : Z).

Definition ignore {A} (a : act A) : act unit := let* _ := a in mret tt.

Definition run_astep (junk : Z) (s : astep) : act unit :=
  match s with
  | AConnect e o => ignore (MQTTAsync_connect e (Some o))
  | AReconnect e => ignore (MQTTAsync_reconnect e)
  | ADisconnect e success failure timeout => ignore (MQTTAsync_disconnect e success failure timeout)
  | ASubscribe e topics response => ignore (MQTTAsync_subscribeMany e topics response)
  | AUnsubscribe e topics response => ignore (MQTTAsync_unsubscribeMany e topics response)
  | ASend e d len pl qos ret response => ignore (MQTTAsync_send e d len pl qos ret response)
  | AProcess e => ignore (MQTTAsync_processCommand junk e)
  | ATimeouts e last => ignore (MQTTAsync_checkTimeouts junk e last)
  | AReceive e ready sockopt packet due ans => receive_turn junk e ready sockopt packet due ans
  | ACycle e ready sockopt packet due ans => ignore (MQTTAsync_cycle junk e ready sockopt packet due ans)
  | ADispatch e sock rc pack ans => dispatch junk e sock rc pack ans
  | AWriteComplete e rc => MQTTAsync_writeComplete junk e rc
  end.

Fixpoint arun (junk : Z) (l : list astep) : act unit :=
  match l with
  | [] => mret tt
  | s :: l => let* _ := run_astep junk s in arun junk l
  end.
