(* ===== verification/MqttAsyncLogic.v ===== *)
(** * Reasoning about the actions of the asynchronous client

    Weakest preconditions for the actions of MqttAsync.v, over a ghost state
    that an observer computes from the outputs, and the lemmas on the parts of
    the client that the protocol handlers leave alone. *)

From S2P Require Import Prelude CString Unicode Utf8 MqttPacket MqttSocket MqttProtocol MqttAsync.

Local Open Scope Z_scope.

Section wp.
Context {G : Type} (obs : G -> output -> G).

Definition wp {A} (a : act A) (Q : A -> MQTTAsyncs -> G -> Prop) (m : MQTTAsyncs) (g : G) : Prop :=
  match a m with
  | Ret (x, o, m') => Q x m' (foldl obs g o)
  | Err _ => True
  end.

Lemma wp_ret {A} (x : A) Q m g : wp (mret x) Q m g <-> Q x m g.
Proof. done. Qed.

Lemma wp_bind {A B} (a : act A) (k : A -> act B) Q m g :
  wp (mbind k a) Q m g <-> wp a (fun x => wp (k x) Q) m g.
Proof.
  unfold wp, mbind, act_bind. destruct (a m) as [[[x o] m1]|]; [|done].
  destruct (k x m1) as [[[y o'] m2]|]; [|done]. by rewrite foldl_app.
Qed.

Lemma wp_get Q m g : wp get Q m g <-> Q m m g.
Proof. done. Qed.
Lemma wp_modify h Q m g : wp (modify h) Q m g <-> Q tt (h m) g.
Proof. done. Qed.
Lemma wp_out l Q m g : wp (out l) Q m g <-> Q tt m (foldl obs g l).
Proof. done. Qed.
Lemma wp_lift {A} (x : comp A) Q m g : (forall a, x = Ret a -> Q a m g) -> wp (lift x) Q m g.
Proof. unfold wp, lift. destruct x; [|done]. intros H. by apply H. Qed.
Lemma wp_when b a Q m g : (b = true -> wp a Q m g) -> (b = false -> Q tt m g) -> wp (when b a) Q m g.
Proof. destruct b; cbn; eauto. Qed.
Lemma wp_if {A} (b : bool) (a1 a2 : act A) Q m g :
  (b = true -> wp a1 Q m g) -> (b = false -> wp a2 Q m g) -> wp (if b then a1 else a2) Q m g.
Proof. destruct b; eauto. Qed.

Lemma wp_mono {A} (a : act A) (P Q : A -> MQTTAsyncs -> G -> Prop) m g :
  wp a P m g -> (forall x m' g', P x m' g' -> Q x m' g') -> wp a Q m g.
Proof. unfold wp. destruct (a m) as [[[x o] m']|]; eauto. Qed.
End wp.

(** One step of an action; calls are left to their lemmas. *)
Ltac wp_step :=
  lazymatch goal with
  | |- wp _ (mbind _ _) _ _ _ => apply wp_bind
  | |- wp _ (mret _) _ _ _ => apply wp_ret
  | |- wp _ get _ _ _ => apply wp_get
  | |- wp _ (modify _) _ _ _ => apply wp_modify
  | |- wp _ (out _) _ _ _ => apply wp_out
  | |- wp _ (when _ _) _ _ _ => apply wp_when; intros ?
  | |- wp _ (if _ then _ else _) _ _ _ => apply wp_if; intros ?
  | |- wp _ (let (_, _) := ?p in _) _ _ _ => destruct p
  end.
Ltac wp_steps := repeat wp_step; cbn beta iota in *.
(** A call with a lemma: what the lemma promises is the new hypothesis. *)
Tactic Notation "wp_call" open_constr(L) := eapply wp_mono; [eapply L|cbn beta; intros].

(** ** What the protocol handlers leave alone *)

Lemma bind_Ret {A B} (x : comp A) (k : A -> comp B) b : mbind k x = Ret b -> exists a, x = Ret a /\ k a = Ret b.
Proof. apply comp_bind_ret. Qed.

Lemma storePublication_connected s p l s' : MQTTProtocol_storePublication s p = Ret (l, s') -> connected s' = connected s.
Proof. unfold MQTTProtocol_storePublication. intros (d & _ & [= <- <-])%bind_Ret. done. Qed.

Lemma removePublication_connected s l s' : MQTTProtocol_removePublication s l = Ret s' -> connected s' = connected s.
Proof. unfold MQTTProtocol_removePublication. intros (d & _ & [= <-])%bind_Ret. done. Qed.

Lemma createMessage_connected junk s p q r t m s' :
  MQTTProtocol_createMessage junk s p None q r t = Ret (m, s') -> connected s' = connected s.
Proof.
  unfold MQTTProtocol_createMessage. intros ([l s1] & ?%storePublication_connected & [= <- <-])%bind_Ret. done.
Qed.

Lemma startPublish_connected junk s p q r t rc x es s' :
  MQTTProtocol_startPublish junk s p q r None t rc = Ret (x, es, s') -> connected s' = connected s.
Proof.
  assert (forall s p x es s', MQTTProtocol_startPublishCommon s p q r rc = Ret (x, es, s') -> connected s' = connected s) as Hc.
  { intros ? ? ? ? ? (d & _ & (s1 & H & [= <- <- <-])%bind_Ret)%bind_Ret. destruct (_ && _); [|by injection H as <-].
    unfold MQTTProtocol_storeQoS0 in H. apply bind_Ret in H as ([l s2] & H%storePublication_connected & [= <-]). done. }
  unfold MQTTProtocol_startPublish. destruct (0 <? q); [|apply Hc].
  intros ([m s1] & H%createMessage_connected & (pub & _ & Hs%Hc)%bind_Ret)%bind_Ret. by rewrite Hs.
Qed.

Lemma handlePublishes_connected junk s p i t rc x es ds s' :
  MQTTProtocol_handlePublishes junk s p i t rc = Ret (x, es, ds, s') -> connected s' = connected s.
Proof.
  unfold MQTTProtocol_handlePublishes. destruct (_ =? 0); [by intros (? & _ & [= <- <- <- <-])%bind_Ret|].
  destruct (negb i); [by intros [= <- <- <- <-]|]. destruct (_ =? 1); [by intros (? & _ & [= <- <- <- <-])%bind_Ret|].
  destruct (_ =? 2); [|by intros [= <- <- <- <-]].
  intros ([l s1] & H%storePublication_connected & (s2 & H2 & [= <- <- <- <-])%bind_Ret)%bind_Ret. rewrite <- H. clear H.
  destruct (find_msg _ _); [|by injection H2 as <-].
  apply bind_Ret in H2 as (s3 & H3%removePublication_connected & [= <-]). done.
Qed.

Lemma empty_loop_connected s l s' : empty_loop s l = Ret s' -> connected s' = connected s.
Proof.
  revert s. induction l as [|m l IH]; intros s; [by intros [= <-]|]. cbn [empty_loop].
  intros (s1 & H%removePublication_connected & ->%IH)%bind_Ret. done.
Qed.

Lemma pending_loop_connected s l s' : pending_loop s l = Ret s' -> connected s' = connected s.
Proof.
  revert s. induction l as [|m l IH]; intros s; [by intros [= <-]|]. cbn [pending_loop].
  intros (s1 & H%removePublication_connected & ->%IH)%bind_Ret. done.
Qed.

Lemma run_pop_connected junk s o es ds s' : run_pop junk s o = Ret (es, ds, s') -> connected s' = connected s.
Proof.
  destruct o; cbn [run_pop].
  - intros ([[x e] s1] & H%startPublish_connected & [= <- <- <-])%bind_Ret. done.
  - intros ([[[x e] d] s1] & H%handlePublishes_connected & [= <- <- <-])%bind_Ret. done.
  - intros ([x s1] & H & [= <- <- <-])%bind_Ret. unfold MQTTProtocol_handlePubacks in H. destruct (find_msg _ _); [|by injection H as <- <-].
    destruct (negb _); [by injection H as <- <-|]. apply bind_Ret in H as (s2 & H%removePublication_connected & [= <- <-]). done.
  - intros ([[x e] s1] & H & [= <- <- <-])%bind_Ret. unfold MQTTProtocol_handlePubrecs in H.
    destruct (find_msg _ _); [|by injection H as <- <- <-]. by do 2 (destruct (negb _); [by injection H as <- <- <-|]); injection H as <- <- <-.
  - intros ([[[x e] d] s1] & H & [= <- <- <-])%bind_Ret. unfold MQTTProtocol_handlePubrels in H.
    destruct (find_msg _ _); [do 3 (destruct (negb _); [by injection H as <- <- <- <-|])|].
    + apply bind_Ret in H as (pub & _ & [= <- <- <- <-]). done.
    + destruct (dup =? 0); [by injection H as <- <- <- <-|]. by destruct (negb idle); injection H as <- <- <- <-.
  - intros ([x s1] & H & [= <- <- <-])%bind_Ret. unfold MQTTProtocol_handlePubcomps in H. destruct (find_msg _ _); [|by injection H as <- <-].
    do 2 (destruct (negb _); [by injection H as <- <-|]). apply bind_Ret in H as (s2 & H%removePublication_connected & [= <- <-]). done.
  - by intros [= <- <- <-].
  - destruct (MQTTProtocol_keepalive now s idle rc) as [e s1] eqn:E. intros [= <- <- <-]. unfold MQTTProtocol_keepalive in E.
    repeat (match type of E with context [if ?b then _ else _] => destruct b end); by injection E as <- <-.
  - intros ([e s1] & H & [= <- <- <-])%bind_Ret. unfold MQTTProtocol_retry, MQTTProtocol_retries in H.
    repeat (match type of H with context [if ?b then _ else _] => destruct b end; try by injection H as <- <-).
    apply bind_Ret in H as ([[e' l] []] & _ & [= <- <-]); done.
  - intros (s1 & H & [= <- <- <-])%bind_Ret. unfold MQTTProtocol_checkPendingWrites in H. destruct idle; [|by injection H as <-].
    apply bind_Ret in H as (s2 & H%pending_loop_connected & [= <-]). done.
  - intros (s1 & H1 & (s2 & H2 & [= <- <- <-])%bind_Ret)%bind_Ret. unfold MQTTProtocol_emptyInbound, MQTTProtocol_emptyOutbound in *.
    apply bind_Ret in H1 as (s3 & H3%empty_loop_connected & [= <-]). apply bind_Ret in H2 as (s4 & H4%empty_loop_connected & [= <-]).
    cbn in *. congruence.
Qed.

(** ** The queue of commands *)

(** The command as it is queued, and the queue with it. *)
Definition stamped (e : answers) (m : MQTTAsyncs) (q : queuedCommand) : queuedCommand :=
  {| addr := addr q;
     cmd := if negb (type (cmd q) =? CONNECT) || (connect_state m =? 0) then started (cmd q) (now e) else cmd q |}.
Definition first_in_line (cm : command) : bool := (type cm =? CONNECT) || internal_disconnect cm.
Definition queued (e : answers) (m : MQTTAsyncs) (q : queuedCommand) : list queuedCommand :=
  if first_in_line (cmd q) then
    match commands m with
    | h :: _ => if type (cmd h) =? type (cmd q) then commands m else stamped e m q :: commands m
    | [] => [stamped e m q]
    end
  else commands m ++ [stamped e m q].

Lemma stamped_type e m q : type (cmd (stamped e m q)) = type (cmd q).
Proof. unfold stamped. cbn. by destruct (_ || _). Qed.

Lemma stamped_same e m q :
  addr (stamped e m q) = addr q /\ on_success (cmd (stamped e m q)) = on_success (cmd q) /\
  on_failure (cmd (stamped e m q)) = on_failure (cmd q) /\ token (cmd (stamped e m q)) = token (cmd q) /\
  det (cmd (stamped e m q)) = det (cmd q).
Proof. unfold stamped. cbn. by destruct (_ || _). Qed.

Lemma addCommand_eq e q m :
  MQTTAsync_addCommand e q m = Ret (signal e, [], with_commands m (queued e m q) (next_addr m)).
Proof.
  unfold MQTTAsync_addCommand, queued, first_in_line, stamped, mbind, act_bind, get, modify, mret, act_ret.
  assert (with_commands m (commands m) (next_addr m) = m) as Hm by by destruct m.
  destruct (negb (type (cmd q) =? CONNECT) || (connect_state m =? 0)); unfold internal_disconnect;
    cbn [type det started cmd addr app]; (destruct (_ || _); [|done]);
    (destruct (commands m) as [|h l] eqn:El; [done|]); (destruct (_ =? _); [|by rewrite El]); by rewrite Hm.
Qed.

Lemma wp_addCommand {G} (obs : G -> output -> G) e q Q m g :
  Q (signal e) (with_commands m (queued e m q) (next_addr m)) g -> wp obs (MQTTAsync_addCommand e q) Q m g.
Proof. unfold wp. by rewrite addCommand_eq. Qed.

Lemma wp_new_command {G} (obs : G -> output -> G) cm Q m g :
  Q {| addr := next_addr m; cmd := cm |} (with_commands m (commands m) (Pos.succ (next_addr m))) g ->
  wp obs (new_command cm) Q m g.
Proof. done. Qed.

(** A command that is new is at an end of the queue. *)
Lemma queued_perm e m q l :
  queued e m q = l -> l = commands m \/ l ≡ₚ stamped e m q :: commands m.
Proof.
  unfold queued. destruct (first_in_line (cmd q)).
  - destruct (commands m) as [|h k]; [by intros <-; right|]. destruct (_ =? _); intros <-; [by left|by right].
  - intros <-. right. apply Permutation_app_comm.
Qed.

(** ** Frames *)

Definition internal_dis (q : queuedCommand) : Prop := type (cmd q) = DISCONNECT /\ internal_disconnect (cmd q) = true.

(** What a protocol handler can change: the lists of the protocol, the message
    queue, and a request to close at the head of the commands. *)
Record frame (m m' : MQTTAsyncs) : Prop := {
  fr_connected : connected (c m') = connected (c m);
  fr_state : connect_state m' = connect_state m;
  fr_socket : socket m' = socket m;
  fr_opts : opts m' = opts m;
  fr_connect : connect m' = connect m;
  fr_disconnect : disconnect m' = disconnect m;
  fr_write : pending_write m' = pending_write m;
  fr_responses : responses m' = responses m;
  fr_should : shouldBeConnected m' = shouldBeConnected m;
  fr_interval : currentInterval m' = currentInterval m;
  fr_failed : lastConnectionFailedTime m' = lastConnectionFailedTime m;
  fr_retrying : retrying m' = retrying m;
  fr_now : reconnectNow m' = reconnectNow m;
  fr_next : (next_addr m <= next_addr m')%positive;
  fr_commands : exists l, commands m' = l ++ commands m /\
    Forall (fun q => internal_dis q /\ (next_addr m <= addr q < next_addr m')%positive) l
}.

Lemma frame_refl m : frame m m.
Proof. constructor; try done. by exists []. Qed.

Lemma frame_trans m1 m2 m3 : frame m1 m2 -> frame m2 m3 -> frame m1 m3.
Proof.
  intros [] []. constructor; try congruence; [by etrans|].
  destruct fr_commands0 as (l1 & E1 & H1), fr_commands1 as (l2 & E2 & H2). exists (l2 ++ l1). split; [by rewrite E2, E1, app_assoc|].
  apply Forall_app. split; [eapply Forall_impl; [exact H2|]|eapply Forall_impl; [exact H1|]]; intros q [? ?]; (split; [done|lia]).
Qed.

Section frames.
Context {G : Type} (obs : G -> output -> G).
(** The observer does not look at packets and messages. *)
Hypothesis obs_sent : forall g e, obs g (Sent e) = g.
Hypothesis obs_arrived : forall g d, obs g (MessageArrived d) = g.

Lemma wp_closeSession_request e m g :
  wp obs (MQTTProtocol_closeSession e) (fun _ m' g' => frame m m' /\ g' = g) m g.
Proof.
  unfold MQTTProtocol_closeSession, MQTTAsync_disconnect_internal, MQTTAsync_disconnect1. wp_steps; [done..|split; [apply frame_refl|done]|].
  apply wp_new_command. apply wp_addCommand. wp_steps. split; [|done]. constructor; try done; [cbn; lia|].
  cbn. unfold queued. cbn [first_in_line type cmd]. change (DISCONNECT =? CONNECT) with false. cbn [orb internal_disconnect det].
  match goal with |- exists l, ?lhs = _ /\ Forall ?P l => assert (P (stamped e (with_commands m (commands m) (Pos.succ (next_addr m)))
    {| addr := next_addr m; cmd := {| type := DISCONNECT; on_success := false; on_failure := false; token := 0;
       start_time := 0; det := Dis true 0 |} |})) as Hd by (split; [done|cbn; lia]) end.
  destruct (commands m) as [|h k]; [eexists [_]; split; [reflexivity|by constructor]|]. cbn [cmd type].
  destruct (_ =? DISCONNECT); [by exists []|]. eexists [_]. split; [reflexivity|by constructor].
Qed.

Lemma wp_close_sessions e es m g :
  wp obs (close_sessions e es) (fun _ m' g' => frame m m' /\ g' = g) m g.
Proof.
  revert m g. induction es as [|x es IH]; intros m g; [split; [apply frame_refl|done]|].
  assert (forall x, wp obs (let* _ := out [Sent x] in close_sessions e es) (fun _ m' g' => frame m m' /\ g' = g) m g) as Hsent.
  { intros y. wp_steps. cbn [foldl]. rewrite obs_sent. apply IH. }
  destruct x; cbn [close_sessions]; try apply Hsent. wp_steps. wp_call wp_closeSession_request. destruct H as [H1 ->].
  wp_call IH. destruct H as [H2 ->]. split; [by eapply frame_trans|done].
Qed.

Lemma wp_process_publications e ds m g :
  wp obs (process_publications e ds) (fun _ m' g' => frame m m' /\ g' = g) m g.
Proof.
  revert m g. induction ds as [|d ds IH]; intros m g; [split; [apply frame_refl|done]|]. cbn [process_publications].
  wp_steps. apply (wp_mono _ _ (fun _ m' g' => frame m m' /\ g' = g)).
  - unfold Protocol_processPublication. wp_steps; cbn [foldl]; rewrite ?obs_arrived; (split; [|done]); constructor; try done; by exists [].
  - intros _ m1 g1 [H1 ->]. wp_call IH. destruct H as [H2 ->]. split; [by eapply frame_trans|done].
Qed.

Lemma wp_protocol junk e o m g : wp obs (protocol junk e o) (fun _ m' g' => frame m m' /\ g' = g) m g.
Proof.
  unfold protocol. wp_steps. apply wp_lift. intros [[es ds] s] Hr. wp_steps.
  wp_call wp_close_sessions. destruct H as [H1 ->]. wp_call wp_process_publications. destruct H as [H2 ->].
  split; [|done]. apply (frame_trans m (with_c m s)); [|by apply (frame_trans _ m')]. apply run_pop_connected in Hr. constructor; try done. by exists [].
Qed.

Lemma wp_handle junk e o m g : wp obs (handle junk e o) (fun _ m' g' => frame m m' /\ g' = g) m g.
Proof.
  unfold handle. wp_steps. apply wp_lift. intros rc _. wp_steps. wp_call wp_protocol. by wp_steps.
Qed.
End frames.

(** ** Concrete inputs *)

(** Answers: a connection is opened at once, and every write is complete. *)
Definition answers0 : answers :=
  {| now := 5000; secs := 5; idle := true; new_socket := (0, 7); send_rc := 0; signal := 0; accepts := true |}.
Definition connect_options0 : connectOptions :=
  {| o_struct_ok := true; o_version := 5; o_will := None; o_ssl := None; o_username := None; o_password := None; o_binarypwd := None;
     o_keepAliveInterval := 60; o_cleansession := true; o_MQTTVersion := 0; o_automaticReconnect := true; o_minRetryInterval := 1;
     o_maxRetryInterval := 60; o_retryInterval := 0; o_connectTimeout := 30; o_serverURIs := []; o_on_success := true;
     o_on_failure := true |}.
