(* ===== verification/MqttCalls.v ===== *)
(** * One callback for every request

    A request that the asynchronous client accepts is in its queue of commands,
    then among the commands that wait for a response, and is told to the
    application when it leaves them.  The callbacks made for a command and its
    places in the lists are counted together, over the actions of MqttAsync.v. *)

From S2P Require Import Prelude CString Unicode Utf8 MqttPacket MqttSocket MqttProtocol MqttAsync MqttAsyncLogic.

Local Open Scope Z_scope.

(** ** Counting *)

(** [w] is the command that is followed, if any. *)
Definition tick (w : option loc) (a : loc) (g : nat) : nat := if decide (w = Some a) then S g else g.
Definition told (w : option loc) (g : nat) (o : output) : nat :=
  match o with
  | OnSuccess a _ _ | OnFailure a _ _ _ => tick w a g
  | _ => g
  end.
Definition places (w : option loc) (l : list queuedCommand) : nat := length (filter (fun q => w = Some (addr q)) l).

Lemma places_app w l k : places w (l ++ k) = (places w l + places w k)%nat.
Proof. unfold places. by rewrite filter_app, length_app. Qed.
Lemma places_cons w q l : places w (q :: l) = tick w (addr q) (places w l).
Proof. unfold places, tick. rewrite filter_cons. by destruct (decide _). Qed.
#[export] Instance places_perm w : Proper ((≡ₚ) ==> eq) (places w).
Proof. intros l k H. unfold places. by rewrite H. Qed.
Lemma tick_add w a n k : (tick w a n + k = tick w a (n + k))%nat.
Proof. unfold tick. by destruct (decide _). Qed.
Lemma tick_add_r w a n k : (n + tick w a k = tick w a (n + k))%nat.
Proof. unfold tick. destruct (decide _); lia. Qed.

(** ** The invariant *)

(** A request with both callbacks. *)
Definition tellable (cm : command) : Prop :=
  on_success cm = true /\ on_failure cm = true /\ type cm <> CONNECT /\ type cm <> DISCONNECT.

Definition ledger (x : list queuedCommand) (m : MQTTAsyncs) : list queuedCommand := x ++ commands m ++ responses m.

(** The commands [x] are in hand: out of the lists, and not yet settled. *)
Record balance (w : option loc) (x : list queuedCommand) (m : MQTTAsyncs) (g : nat) : Prop := {
  ba_write : pending_write m = None;
  ba_below : Forall (fun q => (addr q < next_addr m)%positive) (ledger x m);
  ba_tell : Forall (fun q => w = Some (addr q) -> tellable (cmd q)) (ledger x m);
  ba_old : forall a, w = Some a -> (a < next_addr m)%positive;
  ba_count : w <> None -> (g + places w (ledger x m) = 1)%nat
}.

(** The same commands, in other places. *)
Lemma balance_same w x m g x' m' :
  balance w x m g -> pending_write m' = pending_write m -> (next_addr m <= next_addr m')%positive ->
  ledger x' m' ≡ₚ ledger x m -> balance w x' m' g.
Proof.
  intros [] Hw Hn Hp. constructor; [by rewrite Hw| |by rewrite Hp|intros a Ha; specialize (ba_old0 a Ha); lia|by rewrite Hp].
  rewrite Hp. eapply Forall_impl; [exact ba_below0|]. cbn. lia.
Qed.

Lemma balance_ext w x m g m' :
  balance w x m g -> pending_write m' = pending_write m -> next_addr m' = next_addr m ->
  commands m' = commands m -> responses m' = responses m -> balance w x m' g.
Proof. intros H H1 H2 H3 H4. eapply balance_same; [exact H|done|by rewrite H2|by unfold ledger; rewrite H3, H4]. Qed.

(** New commands. *)
Lemma balance_more w x m g x' m' l :
  balance w x m g -> pending_write m' = pending_write m -> (next_addr m <= next_addr m')%positive ->
  ledger x' m' ≡ₚ l ++ ledger x m -> Forall (fun q => next_addr m <= addr q < next_addr m')%positive l -> balance w x' m' g.
Proof.
  intros [] Hw Hn Hp Hl.
  assert (Forall (fun q => w <> Some (addr q)) l) as Hne.
  { eapply Forall_impl; [exact Hl|]. cbn. intros q Hq Ha. specialize (ba_old0 _ Ha). lia. }
  constructor; [by rewrite Hw| | |intros a Ha; specialize (ba_old0 a Ha); lia|].
  - rewrite Hp. apply Forall_app. split; [eapply Forall_impl; [exact Hl|]|eapply Forall_impl; [exact ba_below0|]]; cbn; lia.
  - rewrite Hp. apply Forall_app. split; [|done]. eapply Forall_impl; [exact Hne|]. by cbn; intros q Hq Ha.
  - intros Hne'. rewrite Hp, places_app. rewrite <- (ba_count0 Hne'). assert (places w l = 0%nat) as ->; [|done].
    clear -Hne. unfold places. induction Hne as [|q l Hq _ IH]; [done|]. by rewrite filter_cons_False.
Qed.

(** A command leaves, and is told if it is the one that is followed. *)
Lemma balance_less w x m g x' m' q :
  balance w x m g -> pending_write m' = pending_write m -> next_addr m' = next_addr m ->
  ledger x m ≡ₚ q :: ledger x' m' -> balance w x' m' (tick w (addr q) g).
Proof.
  intros [] Hw Hn Hp. rewrite Hp in ba_below0, ba_tell0, ba_count0. apply Forall_cons in ba_below0 as [_ Hb], ba_tell0 as [_ Ht].
  constructor; [by rewrite Hw|by rewrite Hn|done|by rewrite Hn|]. intros Hne. rewrite <- (ba_count0 Hne), places_cons.
  by rewrite tick_add, tick_add_r.
Qed.

Lemma tick_untellable w q g : (w = Some (addr q) -> tellable (cmd q)) -> ~ tellable (cmd q) -> tick w (addr q) g = g.
Proof. intros H1 H2. unfold tick. destruct (decide _); [|done]. by destruct H2; apply H1. Qed.

Lemma told_success w q g : (w = Some (addr q) -> tellable (cmd q)) -> foldl (told w) g (tell_success q) = tick w (addr q) g.
Proof.
  intros Ht. unfold tell_success, tick. destruct (decide _) as [Hw|Hw].
  - destruct (Ht Hw) as (-> & _). cbn. unfold tick. by rewrite decide_True.
  - destruct (on_success (cmd q)); [|done]. cbn. unfold tick. by rewrite decide_False.
Qed.
Lemma told_failure w q g code :
  (w = Some (addr q) -> tellable (cmd q)) ->
  foldl (told w) g (if on_failure (cmd q) then [OnFailure (addr q) (type (cmd q)) (token (cmd q)) code] else []) = tick w (addr q) g.
Proof.
  intros Ht. unfold tick. destruct (decide _) as [Hw|Hw].
  - destruct (Ht Hw) as (_ & -> & _). cbn. unfold tick. by rewrite decide_True.
  - destruct (on_failure (cmd q)); [|done]. cbn. unfold tick. by rewrite decide_False.
Qed.
Lemma told_subscribed w qoss q g :
  (w = Some (addr q) -> tellable (cmd q)) -> foldl (told w) g (tell_subscribed qoss q) = tick w (addr q) g.
Proof.
  intros Ht. unfold tell_subscribed. destruct qoss as [|x [|]]; [by apply told_success| |by apply told_success].
  destruct (_ =? _); [by apply told_failure|by apply told_success].
Qed.
Lemma told_failures w l g :
  Forall (fun q => w = Some (addr q) -> tellable (cmd q)) l -> foldl (told w) g (failures l) = (g + places w l)%nat.
Proof.
  intros Hl. revert g. induction Hl as [|q l Hq _ IH]; intros g; [unfold places; cbn; lia|].
  assert (failures (q :: l) = (if on_failure (cmd q) then
    [OnFailure (addr q) (type (cmd q)) (token (cmd q)) (Some MQTTASYNC_OPERATION_INCOMPLETE)] else []) ++ failures l) as ->.
  { unfold failures. cbn. by destruct (on_failure (cmd q)). }
  rewrite foldl_app, told_failure by done. by rewrite IH, places_cons, tick_add, tick_add_r.
Qed.

(** ** What keeps the balance *)

Lemma balance_swap w q q' x m g :
  balance w (q :: x) m g -> addr q' = addr q -> (tellable (cmd q) -> tellable (cmd q')) -> balance w (q' :: x) m g.
Proof.
  intros [] Ha Ht. unfold ledger in *. cbn [app] in *. apply Forall_cons in ba_below0 as [Hb Hbs], ba_tell0 as [Hq Hqs].
  constructor; [done|..|done|]; unfold ledger; cbn [app]; rewrite ?Forall_cons, ?Ha; [done|auto|].
  intros Hne. specialize (ba_count0 Hne). by rewrite places_cons in ba_count0 |- *; rewrite Ha.
Qed.

Lemma balance_less_all w x m g x' m' l :
  balance w x m g -> pending_write m' = pending_write m -> next_addr m' = next_addr m ->
  ledger x m ≡ₚ l ++ ledger x' m' -> balance w x' m' (g + places w l).
Proof.
  intros [] Hw Hn Hp. rewrite Hp in ba_below0, ba_tell0, ba_count0. apply Forall_app in ba_below0 as [_ Hb], ba_tell0 as [_ Ht].
  constructor; [by rewrite Hw|by rewrite Hn|done|by rewrite Hn|]. intros Hne. rewrite <- (ba_count0 Hne), places_app. lia.
Qed.

Lemma untellable_in w x m g q :
  balance w x m g -> q ∈ ledger x m -> type (cmd q) = CONNECT \/ type (cmd q) = DISCONNECT -> tick w (addr q) g = g.
Proof.
  intros [] Hq Ht. apply tick_untellable.
  - by apply (proj1 (Forall_forall _ _) ba_tell0).
  - intros (_ & _ & H1 & H2). by destruct Ht.
Qed.

Section keeps.
Context (w : option loc) (x : list queuedCommand).

Definition keeps {A} (a : act A) : Prop :=
  forall m g, balance w x m g -> wp (told w) a (fun _ m' g' => balance w x m' g') m g.

Lemma keeps_ret {A} (a : A) : keeps (mret a).
Proof. by intros m g H. Qed.
Lemma keeps_bind {A B} (a : act A) (k : A -> act B) : keeps a -> (forall v, keeps (k v)) -> keeps (mbind k a).
Proof. intros Ha Hk m g H. apply wp_bind. wp_call Ha; [done|]. by apply Hk. Qed.
Lemma keeps_get : keeps get.
Proof. by intros m g H. Qed.
Lemma keeps_modify f :
  (forall m, pending_write (f m) = pending_write m /\ next_addr (f m) = next_addr m /\ commands (f m) = commands m /\
     responses (f m) = responses m) -> keeps (modify f).
Proof. intros Hf m g H. apply wp_modify. destruct (Hf m) as (? & ? & ? & ?). by eapply balance_ext. Qed.
Lemma keeps_out l : (forall g, foldl (told w) g l = g) -> keeps (out l).
Proof. intros Hl m g H. apply wp_out. by rewrite Hl. Qed.
Lemma keeps_lift {A} (a : comp A) : keeps (lift a).
Proof. intros m g H. by apply wp_lift. Qed.
Lemma keeps_when b a : keeps a -> keeps (when b a).
Proof. intros Ha. destruct b; [done|apply keeps_ret]. Qed.
Lemma keeps_if {A} (b : bool) (a1 a2 : act A) : keeps a1 -> keeps a2 -> keeps (if b then a1 else a2).
Proof. by destruct b. Qed.

Lemma framed m m' g : frame m m' -> balance w x m g -> balance w x m' g.
Proof.
  intros [] H. destruct fr_commands as (l & E & Hl). eapply (balance_more _ _ _ _ _ _ l); [exact H|done|lia| |].
  - unfold ledger. rewrite E, fr_responses. solve_Permutation.
  - eapply Forall_impl; [exact Hl|]. by intros q [_ Hq].
Qed.
Lemma keeps_protocol junk e o : keeps (protocol junk e o).
Proof. intros m g H. wp_call wp_protocol; [done..|]. destruct H0 as [Hf ->]. by eapply framed. Qed.
Lemma keeps_handle junk e o : keeps (handle junk e o).
Proof. intros m g H. wp_call wp_handle; [done..|]. destruct H0 as [Hf ->]. by eapply framed. Qed.
End keeps.

(** A command in hand is queued, or dropped if it is one of the client's own. *)
Lemma wp_queue w x e q m g :
  balance w (q :: x) m g -> wp (told w) (MQTTAsync_addCommand e q) (fun _ m' g' => balance w x m' g') m g.
Proof.
  intros H. apply wp_addCommand.
  assert (balance w (stamped e m q :: x) m g) as Hs.
  { eapply balance_swap; [exact H|by apply stamped_same|]. unfold tellable. destruct (stamped_same e m q) as (_ & -> & -> & _ & _).
    by rewrite stamped_type. }
  unfold queued. destruct (first_in_line (cmd q)) eqn:Ef.
  - assert (balance w x m g) as Hd.
    { rewrite <- (untellable_in _ _ _ _ q H).
      - by eapply (balance_less _ _ _ _ _ _ q H).
      - unfold ledger. set_solver.
      - unfold first_in_line, internal_disconnect in Ef. destruct (Z.eqb_spec (type (cmd q)) CONNECT); [by left|].
        destruct (Z.eqb_spec (type (cmd q)) DISCONNECT); [by right|done]. }
    destruct (commands m) as [|h l] eqn:El.
    + eapply balance_same; [exact Hs|done|done|]. unfold ledger. cbn. rewrite El. solve_Permutation.
    + destruct (_ =? _); [by eapply balance_ext|]. eapply balance_same; [exact Hs|done|done|]. unfold ledger. cbn. rewrite El. solve_Permutation.
  - eapply balance_same; [exact Hs|done|done|]. unfold ledger. cbn. solve_Permutation.
Qed.

Lemma wp_create w x cm m g :
  balance w x m g -> wp (told w) (new_command cm) (fun q m' g' => balance w (q :: x) m' g') m g.
Proof.
  intros H. apply wp_new_command. eapply (balance_more _ _ _ _ _ _ [{| addr := next_addr m; cmd := cm |}]); [exact H|done|cbn; lia|done|].
  constructor; [cbn; lia|done].
Qed.

Section more.
Context (w : option loc) (x : list queuedCommand) (junk : Z).

Lemma keeps_new {A} cm e (k : act A) :
  keeps w x k -> keeps w x (let* q := new_command cm in let* _ := MQTTAsync_addCommand e q in k).
Proof. intros Hk m g H. apply wp_bind. wp_call wp_create; [done|]. apply wp_bind. wp_call wp_queue; [done|]. by apply Hk. Qed.
Lemma keeps_new_last cm e : keeps w x (let* q := new_command cm in MQTTAsync_addCommand e q).
Proof. intros m g H. apply wp_bind. wp_call wp_create; [done|]. by wp_call wp_queue. Qed.
End more.

(** The rest of an action is a goal of its own; calls are found in [keep]. *)
Create HintDb keep.
#[export] Hint Resolve keeps_ret keeps_get keeps_lift keeps_protocol keeps_handle keeps_new_last : keep.
Ltac keeps_step :=
  first
    [ solve [auto 1 with keep]
    | apply keeps_new
    | apply keeps_bind; [|intros ?]
    | apply keeps_when
    | apply keeps_if
    | apply keeps_modify; intros ?; by repeat case_match
    | apply keeps_out; intros ?; done
    | match goal with |- keeps _ _ (match ?x with _ => _ end) => destruct x end ].
Ltac keeps_steps := repeat keeps_step.

Section actions.
Context (w : option loc) (x : list queuedCommand) (junk : Z).

Lemma keeps_startConnectRetry e : keeps w x (MQTTAsync_startConnectRetry e).
Proof. unfold MQTTAsync_startConnectRetry. keeps_steps. Qed.
#[local] Hint Resolve keeps_startConnectRetry : keep.

Lemma keeps_removeResponses : keeps w x MQTTAsync_removeResponsesAndCommands.
Proof.
  intros m g H. unfold MQTTAsync_removeResponsesAndCommands. wp_steps. destruct (H) as [_ _ Ht _ _]. unfold ledger in Ht.
  rewrite !Forall_app in Ht. rewrite !told_failures by apply Ht. rewrite <- Nat.add_assoc, <- places_app.
  eapply balance_less_all; [exact H|done|done|]. unfold ledger. cbn. solve_Permutation.
Qed.
#[local] Hint Resolve keeps_removeResponses : keep.

Lemma keeps_cleanSession e : keeps w x (MQTTAsync_cleanSession junk e).
Proof. unfold MQTTAsync_cleanSession, MQTTAsync_emptyMessageQueue. keeps_steps. Qed.
#[local] Hint Resolve keeps_cleanSession : keep.

Lemma keeps_closeOnly e : keeps w x (MQTTAsync_closeOnly junk e).
Proof. unfold MQTTAsync_closeOnly. keeps_steps. Qed.
#[local] Hint Resolve keeps_closeOnly : keep.

Lemma keeps_closeSession e : keeps w x (MQTTAsync_closeSession junk e).
Proof. unfold MQTTAsync_closeSession. keeps_steps. Qed.
#[local] Hint Resolve keeps_closeSession : keep.

Lemma keeps_checkDisconnect e cm : keeps w x (MQTTAsync_checkDisconnect junk e cm).
Proof. unfold MQTTAsync_checkDisconnect. keeps_steps. Qed.
#[local] Hint Resolve keeps_checkDisconnect : keep.

Lemma keeps_nextOrClose e rc : keeps w x (nextOrClose junk e rc).
Proof. unfold nextOrClose. keeps_steps. Qed.
#[local] Hint Resolve keeps_nextOrClose : keep.

Lemma keeps_send_connect v rc : keeps w x (send_connect v rc).
Proof. unfold send_connect. keeps_steps. Qed.
#[local] Hint Resolve keeps_send_connect : keep.

Lemma keeps_Protocol_connect e uri v : keeps w x (MQTTProtocol_connect e uri v).
Proof. unfold MQTTProtocol_connect. keeps_steps. Qed.
#[local] Hint Resolve keeps_Protocol_connect : keep.

Lemma keeps_connecting e so : keeps w x (MQTTAsync_connecting junk e so).
Proof. unfold MQTTAsync_connecting. keeps_steps. Qed.
#[local] Hint Resolve keeps_connecting : keep.

Lemma keeps_process_connect e cm : keeps w x (process_connect e cm).
Proof. unfold process_connect. keeps_steps. Qed.

Lemma keeps_disconnect1 e su fa t i : keeps w x (MQTTAsync_disconnect1 e su fa t i).
Proof. unfold MQTTAsync_disconnect1. keeps_steps. Qed.
#[local] Hint Resolve keeps_disconnect1 : keep.

Lemma keeps_process_disconnect e cm : keeps w x (process_disconnect junk e cm).
Proof. unfold process_disconnect. keeps_steps. Qed.
#[local] Hint Resolve keeps_process_disconnect : keep.

Lemma keeps_checkTimeouts e last : keeps w x (MQTTAsync_checkTimeouts junk e last).
Proof. unfold MQTTAsync_checkTimeouts. keeps_steps. Qed.

Lemma keeps_completeConnection e ans k : keeps w x (MQTTAsync_completeConnection junk e ans k).
Proof. unfold MQTTAsync_completeConnection. keeps_steps. Qed.
#[local] Hint Resolve keeps_completeConnection : keep.
End actions.
#[export] Hint Resolve keeps_startConnectRetry keeps_removeResponses keeps_cleanSession keeps_closeOnly keeps_closeSession
  keeps_checkDisconnect keeps_nextOrClose keeps_connecting keeps_process_connect keeps_disconnect1 keeps_process_disconnect
  keeps_checkTimeouts keeps_completeConnection : keep.

(** *** Carrying out a command *)

Lemma tell_in_hand w x m g q : balance w (q :: x) m g -> w = Some (addr q) -> tellable (cmd q).
Proof. intros [_ _ Ht _ _]. unfold ledger in Ht. cbn in Ht. by apply Forall_cons in Ht as [Ht _]. Qed.

(** The command in hand is done with. *)
Lemma balance_done w x m g q : balance w (q :: x) m g -> balance w x m (tick w (addr q) g).
Proof. intros H. by eapply (balance_less _ _ _ _ _ _ q H). Qed.
Lemma balance_drop w x m g q :
  balance w (q :: x) m g -> type (cmd q) = CONNECT \/ type (cmd q) = DISCONNECT -> balance w x m g.
Proof.
  intros H Ht. rewrite <- (untellable_in _ _ _ _ q H); [by apply balance_done|unfold ledger; set_solver|done].
Qed.
Lemma balance_respond w x m g q : balance w (q :: x) m g -> balance w x (with_responses m (pending_write m) (responses m ++ [q])) g.
Proof. intros H. eapply balance_same; [exact H|done|done|]. unfold ledger. cbn. solve_Permutation. Qed.

Lemma wp_settle w e q rc m g :
  balance w [q] m g -> (type (cmd q) = PUBLISH -> is_qos0 (cmd q) = true -> failed rc = true) ->
  wp (told w) (settle e q rc) (fun _ m' g' => balance w [] m' g') m g.
Proof.
  intros H Hz. unfold settle, set_connect, set_disconnect, add_response. apply wp_if; intros Hc.
  { apply andb_prop in Hc as [Hc%Z.eqb_eq _]. apply wp_modify. eapply balance_ext; [eapply balance_drop; [exact H|by left]|done..]. }
  apply wp_if; intros Hd.
  { apply Z.eqb_eq in Hd. apply wp_modify. eapply balance_ext; [eapply balance_drop; [exact H|by right]|done..]. }
  apply wp_if; intros Hp.
  { apply andb_prop in Hp as [[Ht%Z.eqb_eq H0]%andb_prop Hf]. by rewrite Hz in Hf. }
  apply wp_if; intros Hf; [|by apply wp_modify, balance_respond].
  apply wp_bind. apply (wp_mono _ _ (fun _ m' g' => balance w [q] m' g')).
  { assert (forall a : act unit, keeps w [q] a -> wp (told w) a (fun _ m' g' => balance w [q] m' g') m g) as Hk by auto. apply Hk.
    unfold MQTTAsync_disconnect, MQTTAsync_disconnect_internal. keeps_steps. }
  clear m g H. intros _ m g H. apply wp_bind, wp_get, wp_if; intros Hn.
  - apply andb_prop in Hn as [Hn%Z.eqb_eq _]. apply wp_bind.
    wp_call (wp_queue w []); [|by apply wp_ret]. eapply balance_swap; [exact H|done|]. by intros (_ & _ & ? & _).
  - apply wp_bind. apply (wp_mono _ _ (fun _ m' g' => balance w [] m' g')).
    + destruct (on_failure (cmd q)) eqn:Eo; cbn [when]; [apply wp_out|apply wp_ret].
      * pose proof (told_failure w q g None (tell_in_hand _ _ _ _ _ H)) as Ht. rewrite Eo in Ht. rewrite Ht. by apply balance_done.
      * pose proof (told_failure w q g None (tell_in_hand _ _ _ _ _ H)) as Ht. rewrite Eo in Ht. cbn in Ht. rewrite Ht. by apply balance_done.
    + clear Hn m g H. intros _ m g H. assert (forall a : act unit, keeps w [] a -> wp (told w) a (fun _ m' g' => balance w [] m' g') m g) as Hk by auto. apply Hk.
      unfold set_connect. keeps_steps.
Qed.

(** Whether the next command is a message of QoS 0 whose write is cut short. *)
Definition whole_write (e : answers) (m : MQTTAsyncs) : Prop :=
  forall q, next_command e m = Some q -> type (cmd q) = PUBLISH -> is_qos0 (cmd q) = true -> send_rc e = TCPSOCKET_COMPLETE.

Lemma wp_publish w junk e q m g :
  balance w [q] m g -> type (cmd q) = PUBLISH -> (is_qos0 (cmd q) = true -> send_rc e = TCPSOCKET_COMPLETE) ->
  wp (told w) (process_publish junk e q)
    (fun rc m' g' => if is_qos0 (cmd q) then rc = TCPSOCKET_COMPLETE /\ balance w [] m' g' else balance w [q] m' g') m g.
Proof.
  intros H Ht Hz. unfold process_publish. unfold is_qos0 in *. destruct (det (cmd q)) as [| |d pl len qs ret| |]; try by apply wp_ret.
  apply wp_bind. wp_call keeps_protocol; [done|]. clear m g H. rename H0 into H, m' into m, g' into g. destruct (qs =? 0); cbn [when].
  - rewrite Hz by done. apply wp_bind. cbn. unfold when. apply (wp_mono _ _ (fun _ m' g' => balance w [] m' g')); [|by intros; apply wp_ret].
    assert (foldl (told w) g (tell_success q) = tick w (addr q) g) as E by (apply told_success; by eapply tell_in_hand).
    unfold tell_success in E. destruct (on_success (cmd q)); [apply wp_out|apply wp_ret; cbn in E]; rewrite E; by apply balance_done.
  - by wp_steps.
Qed.

Lemma process_connect_type e cm m :
  match process_connect e cm m with Ret (_, cm', _, _) => type cm' = type cm | Err _ => True end.
Proof.
  assert (wp (fun (_ : unit) _ => tt) (process_connect e cm) (fun r _ _ => type r.2 = type cm) m tt) as H.
  { unfold process_connect. apply wp_bind, wp_get, wp_if; intros _; [done|]. apply wp_bind.
    apply (wp_mono _ _ (fun _ _ _ => True)); [apply wp_if; intros _; [done|by apply wp_bind, wp_lift]|]. intros uri m1 g1 _.
    apply wp_bind. apply (wp_mono _ _ (fun _ _ _ => True)); [unfold wp; by destruct (MQTTProtocol_connect _ _ _ _) as [[[? ?] ?]|]|].
    intros rc m2 g2 _. by apply wp_bind, wp_get, wp_ret. }
  unfold wp in H. by destruct (process_connect e cm m) as [[[[? ?] ?] ?]|].
Qed.

Lemma wp_processCommand w junk e m g :
  balance w [] m g -> whole_write e m -> wp (told w) (MQTTAsync_processCommand junk e) (fun _ m' g' => balance w [] m' g') m g.
Proof.
  intros H Hz. unfold MQTTAsync_processCommand. apply wp_bind, wp_get. destruct (next_command e m) as [q|] eqn:En; [|done].
  specialize (Hz q En). apply wp_bind, wp_modify.
  assert (balance w [q] (with_commands m (List.tl (commands m)) (next_addr m)) g) as Hq.
  { unfold next_command in En. destruct (commands m) as [|q' l] eqn:El; [done|].
    assert (q' = q) as -> by (destruct (_ || _); [destruct (_ && _)|]; congruence).
    eapply balance_same; [exact H|done|done|]. unfold ledger. cbn. by rewrite El. }
  clear H. generalize dependent (with_commands m (List.tl (commands m)) (next_addr m)). clear m En. intros m H.
  assert (forall rc m g, balance w [q] m g -> type (cmd q) <> PUBLISH ->
    wp (told w) (let* _ := settle e {| addr := addr q; cmd := cmd q |} rc in mret true) (fun _ m' g' => balance w [] m' g') m g) as Hset.
  { intros rc m1 g1 H1 Ht. apply wp_bind. wp_call wp_settle; [by destruct q|done|]. by apply wp_ret. }
  apply wp_bind. apply wp_if; intros Hc; [|apply wp_if; intros Hs; [|apply wp_if; intros Hu; [|apply wp_if; intros Hp; [|apply wp_if; intros Hd]]]].
  - apply Z.eqb_eq in Hc.
    apply (wp_mono _ _ (fun r m' g' => type r.2 = CONNECT /\ balance w [q] m' g')).
    + pose proof (keeps_process_connect w [q] e (cmd q) m g H) as Hk. pose proof (process_connect_type e (cmd q) m) as Ht.
      unfold wp in *. destruct (process_connect _ _ _) as [[[[rc cm] o] m']|]; [|done]. cbn in *. split; [by rewrite Ht|done].
    + intros [rc cm] m' g' [Ht H']. cbn in Ht. apply wp_bind. wp_call wp_settle; [|cbn; by rewrite Ht|by apply wp_ret].
      eapply balance_swap; [exact H'|done|]. by intros (_ & _ & ? & _).
  - apply Z.eqb_eq in Hs. apply wp_bind, wp_out, wp_ret. assert (forall l, l = match det (cmd q) with Sub ts qs => [SentSubscribe (token (cmd q)) ts qs] | _ => [] end -> foldl (told w) g l = g) as Ho by (intros ? ->; by destruct (det (cmd q))).
    rewrite Ho by done. apply Hset; [done|by rewrite Hs].
  - apply Z.eqb_eq in Hu. apply wp_bind, wp_out, wp_ret. assert (forall l, l = match det (cmd q) with Unsub ts => [SentUnsubscribe (token (cmd q)) ts] | _ => [] end -> foldl (told w) g l = g) as Ho by (intros ? ->; by destruct (det (cmd q))).
    rewrite Ho by done. apply Hset; [done|by rewrite Hu].
  - apply Z.eqb_eq in Hp. apply wp_bind. wp_call wp_publish; [done|done|auto|]. apply wp_ret. destruct (is_qos0 (cmd q)) eqn:E0.
    + destruct H0 as [-> H0]. apply wp_bind. unfold settle. cbn [cmd]. rewrite Hp, E0. by apply wp_ret, wp_ret.
    + apply wp_bind. wp_call wp_settle; [by destruct q|cbn; by rewrite E0|]. by apply wp_ret.
  - apply Z.eqb_eq in Hd. apply wp_bind. wp_call keeps_process_disconnect; [done|]. apply wp_ret, Hset; [done|by rewrite Hd].
  - apply wp_ret, Hset; [done|]. by apply Z.eqb_neq in Hp.
Qed.

(** *** Responses and packets *)

Lemma detach_perm id l q : find_response id l = Some q -> l ≡ₚ q :: detach_response id l.
Proof.
  unfold find_response. induction l as [|y l IH]; [done|]. cbn. destruct (_ =? _); [by intros [= ->]|].
  intros H. rewrite (IH H) at 1. constructor.
Qed.

Section packets.
Context (w : option loc) (junk : Z).

Lemma keeps_respond id tell :
  (forall q g, (w = Some (addr q) -> tellable (cmd q)) -> foldl (told w) g (tell q) = tick w (addr q) g) ->
  keeps w [] (respond id tell).
Proof.
  intros Ht m g H. unfold respond. apply wp_bind, wp_get. destruct (find_response id (responses m)) as [q|] eqn:Ef; [|by apply wp_ret].
  apply detach_perm in Ef. wp_steps. rewrite Ht.
  - eapply balance_less; [exact H|done|done|]. unfold ledger. cbn. rewrite Ef at 1. solve_Permutation.
  - destruct H as [_ _ Hl _ _]. apply (proj1 (Forall_forall _ _) Hl). unfold ledger. rewrite Ef. set_solver.
Qed.

Lemma keeps_respond_success id : keeps w [] (respond id tell_success).
Proof. apply keeps_respond, told_success. Qed.
Lemma keeps_respond_subscribed id qoss : keeps w [] (respond id (tell_subscribed qoss)).
Proof. apply keeps_respond, told_subscribed. Qed.
#[local] Hint Resolve keeps_respond_success keeps_respond_subscribed : keep.

Lemma keeps_acknowledged e o id : keeps w [] (acknowledged junk e o id).
Proof. unfold acknowledged. keeps_steps. Qed.
#[local] Hint Resolve keeps_acknowledged : keep.

Lemma keeps_cycle_packet e rc p : keeps w [] (cycle_packet junk e rc p).
Proof. unfold cycle_packet. keeps_steps. Qed.
#[local] Hint Resolve keeps_cycle_packet : keep.

Lemma keeps_retry e due ans : keeps w [] (MQTTAsync_retry junk e due ans).
Proof. unfold MQTTAsync_retry, retry_pop. keeps_steps. Qed.
#[local] Hint Resolve keeps_retry : keep.

Lemma keeps_cycle e ready so packet due ans : keeps w [] (MQTTAsync_cycle junk e ready so packet due ans).
Proof. unfold MQTTAsync_cycle. keeps_steps. Qed.
#[local] Hint Resolve keeps_cycle : keep.

Lemma keeps_receive_packet e ans p : keeps w [] (receive_packet junk e ans p).
Proof. unfold receive_packet. keeps_steps. Qed.
#[local] Hint Resolve keeps_receive_packet : keep.

Lemma keeps_deliver_queued e : keeps w [] (deliver_queued e).
Proof. unfold deliver_queued. keeps_steps. Qed.
#[local] Hint Resolve keeps_deliver_queued : keep.

Lemma keeps_dispatch e sock rc pack ans : keeps w [] (dispatch junk e sock rc pack ans).
Proof. unfold dispatch, MQTTAsync_disconnect_internal. keeps_steps. Qed.
#[local] Hint Resolve keeps_dispatch : keep.
Lemma keeps_receive_turn e ready so packet due ans : keeps w [] (receive_turn junk e ready so packet due ans).
Proof. unfold receive_turn. keeps_steps. Qed.

(** No write is pending, so there is nothing to complete. *)
Lemma keeps_writeComplete e rc : keeps w [] (MQTTAsync_writeComplete junk e rc).
Proof.
  intros m g H. unfold MQTTAsync_writeComplete. apply wp_bind. wp_call keeps_protocol; [done|]. clear m g H. rename H0 into H, m' into m, g' into g.
  apply wp_bind, wp_modify, wp_bind, wp_get.
  cbn [pending_write with_c]. rewrite (ba_write _ _ _ _ H). apply wp_ret. by eapply balance_ext.
Qed.

(** *** The interface *)

Lemma keeps_assignMsgId : keeps w [] MQTTAsync_assignMsgId.
Proof. unfold MQTTAsync_assignMsgId. keeps_steps. Qed.
#[local] Hint Resolve keeps_assignMsgId : keep.
Lemma keeps_with_id e r t d : keeps w [] (with_id e r t d).
Proof. unfold with_id. keeps_steps. Qed.
#[local] Hint Resolve keeps_with_id : keep.
Lemma keeps_subscribeMany e ts r : keeps w [] (MQTTAsync_subscribeMany e ts r).
Proof. unfold MQTTAsync_subscribeMany. keeps_steps. Qed.
Lemma keeps_unsubscribeMany e ts r : keeps w [] (MQTTAsync_unsubscribeMany e ts r).
Proof. unfold MQTTAsync_unsubscribeMany. keeps_steps. Qed.
Lemma keeps_send e d len pl qs ret r : keeps w [] (MQTTAsync_send e d len pl qs ret r).
Proof. unfold MQTTAsync_send. keeps_steps. Qed.
Lemma keeps_connect e o : keeps w [] (MQTTAsync_connect e o).
Proof. unfold MQTTAsync_connect, set_connect. keeps_steps. Qed.
Lemma keeps_reconnect e : keeps w [] (MQTTAsync_reconnect e).
Proof. unfold MQTTAsync_reconnect. keeps_steps. Qed.
Lemma keeps_destroy e : keeps w [] (MQTTAsync_destroy junk e).
Proof. unfold MQTTAsync_destroy, MQTTAsync_emptyMessageQueue. keeps_steps. Qed.
End packets.
#[export] Hint Resolve keeps_subscribeMany keeps_unsubscribeMany keeps_send keeps_connect keeps_reconnect keeps_cycle keeps_dispatch
  keeps_receive_turn keeps_writeComplete : keep.

(** ** A run *)

(** No write of a message of QoS 0 is cut short. *)
Definition whole_step (m : MQTTAsyncs) (s : astep) : Prop := match s with AProcess e => whole_write e m | _ => True end.
Fixpoint whole_run (junk : Z) (m : MQTTAsyncs) (l : list astep) : Prop :=
  match l with
  | [] => True
  | s :: l => whole_step m s /\ match run_astep junk s m with Ret (_, _, m') => whole_run junk m' l | Err _ => True end
  end.

Lemma balance_step w junk s m g :
  balance w [] m g -> whole_step m s -> wp (told w) (run_astep junk s) (fun _ m' g' => balance w [] m' g') m g.
Proof.
  intros H Hs.
  assert (forall A (a : act A), keeps w [] a -> wp (told w) a (fun _ m' g' => balance w [] m' g') m g) as Hk by auto.
  destruct s; cbn [run_astep whole_step] in *; unfold ignore, MQTTAsync_disconnect; try (apply Hk; by keeps_steps).
  apply wp_bind. by wp_call wp_processCommand.
Qed.

Lemma arun_balance w junk l m g :
  balance w [] m g -> whole_run junk m l -> wp (told w) (arun junk l) (fun _ m' g' => balance w [] m' g') m g.
Proof.
  revert m g. induction l as [|s l IH]; intros m g H Hr; [done|]. destruct Hr as [Hs Hr]. cbn [arun].
  apply wp_bind. pose proof (balance_step w junk s m g H Hs) as Hw. unfold wp in Hw |- * at 1.
  destruct (run_astep junk s m) as [[[[] o] m']|]; [|done]. by apply IH.
Qed.

(** A request with both callbacks. *)
Definition request (s : astep) : act Z :=
  match s with
  | ASend e d len pl qs ret _ => MQTTAsync_send e d len pl qs ret (Some (true, true))
  | ASubscribe e ts _ => MQTTAsync_subscribeMany e ts (Some (true, true))
  | AUnsubscribe e ts _ => MQTTAsync_unsubscribeMany e ts (Some (true, true))
  | _ => mret MQTTASYNC_FAILURE
  end.

Lemma balance_fresh m g cm :
  balance None [] m g -> tellable cm ->
  balance (Some (next_addr m)) [{| addr := next_addr m; cmd := cm |}] (with_commands m (commands m) (Pos.succ (next_addr m))) 0.
Proof.
  intros [] Ht. unfold ledger in *. cbn [app] in *.
  assert (Forall (fun q => Some (next_addr m) <> Some (addr q)) (commands m ++ responses m)) as Hne.
  { eapply Forall_impl; [exact ba_below0|]. cbn. intros q Hq [= E]. lia. }
  constructor; unfold ledger; cbn [app with_commands commands responses next_addr pending_write].
  - done.
  - constructor; [cbn; lia|]. eapply Forall_impl; [exact ba_below0|]. cbn. lia.
  - constructor; [done|]. eapply Forall_impl; [exact Hne|]. by cbn; intros q Hq E.
  - intros a [= <-]. lia.
  - intros _. rewrite places_cons. unfold tick. cbn [addr]. rewrite decide_True by done.
    assert (places (Some (next_addr m)) (commands m ++ responses m) = 0%nat) as ->; [|done].
    clear -Hne. unfold places. induction Hne as [|q l Hq _ IH]; [done|]. by rewrite filter_cons_False.
Qed.

Lemma wp_ask e cm m g :
  balance None [] m g -> tellable cm ->
  wp (told (Some (next_addr m))) (let* q := new_command cm in MQTTAsync_addCommand e q)
    (fun _ m' g' => balance (Some (next_addr m)) [] m' g') m 0%nat.
Proof. intros H Ht. apply wp_bind, wp_new_command, wp_queue. by eapply balance_fresh. Qed.

Lemma wp_assign {G} (obs : G -> output -> G) m g n Q :
  balance None [] m n -> (forall id m', balance None [] m' n -> next_addr m' = next_addr m -> Q id m' g) ->
  wp obs MQTTAsync_assignMsgId Q m g.
Proof.
  intros H HQ. unfold MQTTAsync_assignMsgId. apply wp_bind, wp_get, wp_bind, wp_lift. intros id _. wp_steps; apply HQ; try done.
  by eapply balance_ext.
Qed.

Lemma wp_ask_id e t d m g :
  balance None [] m g -> t <> CONNECT -> t <> DISCONNECT ->
  wp (told (Some (next_addr m))) (with_id e (Some (true, true)) t d)
    (fun rc m' g' => rc = MQTTASYNC_SUCCESS -> balance (Some (next_addr m)) [] m' g') m 0%nat.
Proof.
  intros H H1 H2. unfold with_id. apply wp_bind. eapply wp_assign; [exact H|]. intros id m' H' <-. apply wp_if; intros _; [by apply wp_ret|].
  wp_call wp_ask; [done|by split_and!|]. done.
Qed.

Lemma wp_request s m g :
  balance None [] m g ->
  wp (told (Some (next_addr m))) (request s)
    (fun rc m' g' => rc = MQTTASYNC_SUCCESS -> balance (Some (next_addr m)) [] m' g') m 0%nat.
Proof.
  intros H. destruct s as [| | |e ts r|e ts r|e d len pl qs ret r| | | | | |]; cbn [request]; try (by apply wp_ret).
  - unfold MQTTAsync_subscribeMany. apply wp_bind, wp_get, wp_if; intros _; [by apply wp_ret|].
    apply wp_bind, wp_lift. intros rc _. apply wp_if; intros Hrc; [apply wp_ret; by intros ->|]. by apply wp_ask_id with g.
  - unfold MQTTAsync_unsubscribeMany. apply wp_bind, wp_get, wp_if; intros _; [by apply wp_ret|].
    apply wp_bind, wp_lift. intros rc _. apply wp_if; intros Hrc; [apply wp_ret; by intros ->|]. by apply wp_ask_id with g.
  - unfold MQTTAsync_send. apply wp_bind, wp_get, wp_if; intros _; [by apply wp_ret|].
    apply wp_bind, wp_lift. intros ok _. apply wp_if; intros _; [by apply wp_ret|]. apply wp_if; intros _; [by apply wp_ret|].
    apply wp_bind.
    assert (forall (P : Z -> MQTTAsyncs -> nat -> Prop), (forall id m', balance None [] m' g -> next_addr m' = next_addr m -> P id m' 0%nat) ->
      wp (told (Some (next_addr m))) (if 0 <? qs then MQTTAsync_assignMsgId else mret 0) P m 0%nat) as Hid.
    { intros P HP. apply wp_if; intros _; [by eapply wp_assign|by apply wp_ret, HP]. }
    apply Hid. intros id m' H' <-. apply wp_if; intros _; [by apply wp_ret|]. apply wp_bind, wp_get, wp_if; intros _; [by apply wp_ret|].
    apply wp_bind, wp_lift. intros data _. wp_call wp_ask; [done|by split_and!|]. done.
Qed.

Lemma created_balance uri id cr m : MQTTAsync_createWithOptions uri id cr = Ret (0, Some m) -> balance None [] m 0.
Proof.
  unfold MQTTAsync_createWithOptions. destruct uri as [uri|], id as [id|]; [|done..]. intros (ok & _ & H)%bind_Ret.
  destruct (negb ok); [done|]. destruct (_ && _); [done|]. destruct cr as [[[] cr]|]; cbn in H; [|done|]; injection H as <-;
    by constructor.
Qed.

(** A destroyed client has no commands. *)
Lemma destroyed junk e m u o m' : MQTTAsync_destroy junk e m = Ret (u, o, m') -> commands m' = [] /\ responses m' = [].
Proof.
  assert (wp (fun (_ : unit) _ => tt) (MQTTAsync_destroy junk e) (fun _ m' _ => commands m' = [] /\ responses m' = []) m tt) as H.
  { unfold MQTTAsync_destroy. apply wp_bind.
    apply (wp_mono _ _ (fun _ _ _ => True)); [unfold wp; by destruct (MQTTAsync_closeSession _ _ _) as [[[? ?] ?]|]|].
    intros _ m1 g1 _. unfold MQTTAsync_removeResponsesAndCommands, MQTTAsync_emptyMessageQueue. by wp_steps. }
  intros E. unfold wp in H. by rewrite E in H.
Qed.

Definition callbacks_of (a : loc) (outs : list output) : nat := foldl (told (Some a)) 0%nat outs.

(** C6: as long as the socket takes every PUBLISH of QoS 0 whole, a request (a
    message, a subscription or the end of one) that the client accepted is told
    to the application exactly once: after any further such run its callbacks
    and its places among the queued commands and the awaited responses are one
    together, and when the client is destroyed there has been exactly one
    callback.  The client may have been through any such run before.  (A write
    of QoS 0 that is interrupted breaks the count of two requests:
    [interrupted_write_miscounts].) *)
Theorem one_callback junk uri id cr m0 l0 o0 m s o1 m1 l outs m2 e o3 m3 :
  MQTTAsync_createWithOptions uri id cr = Ret (0, Some m0) ->
  whole_run junk m0 l0 -> arun junk l0 m0 = Ret (tt, o0, m) ->
  request s m = Ret (MQTTASYNC_SUCCESS, o1, m1) ->
  whole_run junk m1 l -> arun junk l m1 = Ret (tt, outs, m2) ->
  MQTTAsync_destroy junk e m2 = Ret (tt, o3, m3) ->
  (callbacks_of (next_addr m) (o1 ++ outs) + places (Some (next_addr m)) (commands m2 ++ responses m2) = 1)%nat /\
  callbacks_of (next_addr m) (o1 ++ outs ++ o3) = 1%nat.
Proof.
  intros H%created_balance Hw0 Hr0 Hq Hw Hr Hd. set (a := next_addr m). unfold callbacks_of. rewrite !foldl_app.
  pose proof (arun_balance None junk _ _ _ H Hw0) as H0. unfold wp in H0. rewrite Hr0 in H0.
  pose proof (wp_request s _ _ H0) as H1. unfold wp in H1. rewrite Hq in H1.
  pose proof (arun_balance _ junk _ _ _ (H1 eq_refl) Hw) as H2. unfold wp in H2. rewrite Hr in H2.
  pose proof (keeps_destroy _ junk e _ _ H2) as H3. unfold wp in H3. rewrite Hd in H3.
  split; [by apply H2|]. destruct H3 as [_ _ _ _ Hc]. specialize (Hc ltac:(done)).
  unfold ledger in Hc. destruct (destroyed _ _ _ _ _ _ Hd) as [E1 E2]. rewrite E1, E2 in Hc. unfold places in Hc. cbn in Hc.
  by rewrite Nat.add_0_r in Hc.
Qed.

(** A connected client sends a message of QoS 1. *)
Definition connected0 : list astep :=
  [AConnect answers0 connect_options0; AProcess answers0; AReceive answers0 true (0, 0) (0, Some (RConnack 0)) false []].
Definition message0 : astep := ASend answers0 "t" 1 [65] 1 0 None.
Definition acknowledged0 : list astep := [AProcess answers0; AReceive answers0 true (0, 0) (0, Some (RPuback 1)) false []].

(** A message of QoS 1 waits for its acknowledgement when one of QoS 0 is
    written in two parts: the end of that write takes the first awaited
    response for the one that was being written. *)
Definition interrupted0 : answers :=
  {| now := now answers0; secs := secs answers0; idle := true; new_socket := new_socket answers0;
     send_rc := TCPSOCKET_INTERRUPTED; signal := signal answers0; accepts := accepts answers0 |}.
Definition message_qos0 : astep := ASend answers0 "t" 1 [66] 0 0 None.

Lemma interrupted_write_miscounts :
  exists m0 o0 m1 o1 m2 o2 m3 o3 m4 o4 m5 o5 m6 o6 m7,
    MQTTAsync_createWithOptions (Some "b:1883"%string) (Some "id"%string) None = Ret (0, Some m0) /\
    arun 0 connected0 m0 = Ret (tt, o0, m1) /\
    request message0 m1 = Ret (MQTTASYNC_SUCCESS, o1, m2) /\ arun 0 [AProcess answers0] m2 = Ret (tt, o2, m3) /\
    request message_qos0 m3 = Ret (MQTTASYNC_SUCCESS, o3, m4) /\ arun 0 [AProcess interrupted0] m4 = Ret (tt, o4, m5) /\
    arun 0 [AWriteComplete answers0 1] m5 = Ret (tt, o5, m6) /\ MQTTAsync_destroy 0 answers0 m6 = Ret (tt, o6, m7) /\
    callbacks_of (next_addr m1) (o1 ++ o2 ++ o3 ++ o4 ++ o5 ++ o6) = 0%nat /\
    callbacks_of (next_addr m3) (o3 ++ o4 ++ o5 ++ o6) = 2%nat.
Proof. do 15 eexists. do 8 (split; [vm_compute; reflexivity|]). split; vm_compute; reflexivity. Qed.

Lemma one_callback_witness :
  exists m0 o0 m o1 m1 outs m2 o3 m3,
    MQTTAsync_createWithOptions (Some "b:1883"%string) (Some "id"%string) None = Ret (0, Some m0) /\
    arun 0 connected0 m0 = Ret (tt, o0, m) /\ request message0 m = Ret (MQTTASYNC_SUCCESS, o1, m1) /\
    arun 0 acknowledged0 m1 = Ret (tt, outs, m2) /\ MQTTAsync_destroy 0 answers0 m2 = Ret (tt, o3, m3) /\
    (callbacks_of (next_addr m) (o1 ++ outs) + places (Some (next_addr m)) (commands m2 ++ responses m2) = 1)%nat /\
    callbacks_of (next_addr m) (o1 ++ outs ++ o3) = 1%nat.
Proof.
  do 9 eexists. do 5 (split; [vm_compute; reflexivity|]).
  eapply (one_callback 0 (Some "b:1883"%string) (Some "id"%string) None _ connected0 _ _ message0 _ _ acknowledged0 _ _ answers0);
    [vm_compute; reflexivity|vm_compute; repeat split; by intros ? [= <-]|vm_compute; reflexivity|vm_compute; reflexivity
    |vm_compute; repeat split; by intros ? [= <-]|vm_compute; reflexivity|vm_compute; reflexivity].
Defined.
