(* ===== verification/MqttReconnect.v ===== *)
(** * Automatic reconnection of the asynchronous client

    While the server does not take a connection the client tries again, each
    time after a longer pause, and it is connected when the server is back.
    Total weakest preconditions for the actions of MqttAsync.v: that an action
    of the client returns is part of what is shown.  An attempt can fail in
    connect() itself, in the error that the socket reports when it becomes
    writable, in writing the CONNECT packet, in the answer to it, or by time. *)

From S2P Require Import Prelude CString Unicode Utf8 MqttPacket MqttSocket MqttProtocol MqttAsync MqttAsyncLogic.

Local Open Scope Z_scope.

(** ** Actions that return *)

Definition opens (o : output) : bool := match o with OpenSocket _ => true | _ => false end.
Definition connects (o : output) : bool := match o with ConnectSuccess => true | _ => false end.
Definition count (p : output -> bool) (l : list output) : nat := length (filter (fun o => p o = true) l).

(** How many connections an output opens, and how many it announces. *)
Definition tally (g : nat * nat) (o : output) : nat * nat :=
  match o with
  | OpenSocket _ => (S g.1, g.2)
  | ConnectSuccess => (g.1, S g.2)
  | _ => g
  end.

Definition twp {A} (a : act A) (Q : A -> MQTTAsyncs -> nat * nat -> Prop) (m : MQTTAsyncs) (g : nat * nat) : Prop :=
  match a m with
  | Ret (x, o, m') => Q x m' (foldl tally g o)
  | Err _ => False
  end.

Lemma twp_ret {A} (x : A) Q m g : Q x m g -> twp (mret x) Q m g.
Proof. done. Qed.
Lemma twp_bind {A B} (a : act A) (k : A -> act B) Q m g : twp a (fun x => twp (k x) Q) m g -> twp (mbind k a) Q m g.
Proof.
  unfold twp, mbind, act_bind. destruct (a m) as [[[x o] m1]|]; [|done].
  destruct (k x m1) as [[[y o'] m2]|]; [|done]. by rewrite foldl_app.
Qed.
Lemma twp_get Q m g : Q m m g -> twp get Q m g.
Proof. done. Qed.
Lemma twp_modify h Q m g : Q tt (h m) g -> twp (modify h) Q m g.
Proof. done. Qed.
Lemma twp_out l Q m g : Q tt m (foldl tally g l) -> twp (out l) Q m g.
Proof. done. Qed.
Lemma twp_lift {A} (x : comp A) a Q m g : x = Ret a -> Q a m g -> twp (lift x) Q m g.
Proof. by intros ->. Qed.
Lemma twp_when b a Q m g : (b = true -> twp a Q m g) -> (b = false -> Q tt m g) -> twp (when b a) Q m g.
Proof. destruct b; cbn; eauto. Qed.
Lemma twp_if {A} (b : bool) (a1 a2 : act A) Q m g :
  (b = true -> twp a1 Q m g) -> (b = false -> twp a2 Q m g) -> twp (if b then a1 else a2) Q m g.
Proof. destruct b; eauto. Qed.
Lemma twp_mono {A} (a : act A) (P Q : A -> MQTTAsyncs -> nat * nat -> Prop) m g :
  twp a P m g -> (forall x m' g', P x m' g' -> Q x m' g') -> twp a Q m g.
Proof. unfold twp. destruct (a m) as [[[x o] m']|]; eauto. Qed.

Ltac twp_step :=
  lazymatch goal with
  | |- twp (mbind _ _) _ _ _ => apply twp_bind
  | |- twp (mret _) _ _ _ => apply twp_ret
  | |- twp get _ _ _ => apply twp_get
  | |- twp (modify _) _ _ _ => apply twp_modify
  | |- twp (out _) _ _ _ => apply twp_out
  | |- twp (when _ _) _ _ _ => apply twp_when; intros ?
  | |- twp (if _ then _ else _) _ _ _ => apply twp_if; intros ?
  end.
Ltac twp_steps := repeat twp_step; cbn beta iota in *.
Tactic Notation "twp_call" open_constr(L) := eapply twp_mono; [eapply L|cbn beta; intros].

Lemma tally_counts l g : foldl tally g l = (g.1 + count opens l, g.2 + count connects l)%nat.
Proof.
  revert g. unfold count. induction l as [|o l IH]; intros [a b]; cbn [foldl]; [cbn; f_equal; lia|].
  rewrite IH, !filter_cons. destruct o; cbn [opens connects tally fst snd]; repeat case_decide; try done; cbn [length]; f_equal; lia.
Qed.

(** What an action that returns has made. *)
Lemma twp_returns {A} (a : act A) Q m :
  twp a Q m (0%nat, 0%nat) -> exists x outs m', a m = Ret (x, outs, m') /\ Q x m' (count opens outs, count connects outs).
Proof.
  unfold twp. destruct (a m) as [[[x o] m']|]; [|done]. rewrite tally_counts. cbn [fst snd Nat.add]. intros H. by exists x, o, m'.
Qed.

Lemma failures_tally l g : foldl tally g (failures l) = g.
Proof. revert g. unfold failures. induction l as [|q l IH]; intros g; [done|]. cbn. by destruct (on_failure (cmd q)); cbn; apply IH. Qed.

(** ** A client that is to be connected and is not *)

(** A protocol part with nothing to send, and what its handlers do then. *)
Record idle_protocol (s : pstate) : Prop := {
  ip_connected : connected s = 0;
  ip_in : inboundMsgs s = [];
  ip_out : outboundMsgs s = [];
  ip_writes : pending_writes s = []
}.
Definition housekeeping (o : pop) : Prop :=
  match o with WritesDone _ | CleanSession | Keepalive _ _ _ | Retry _ _ _ _ _ => True | _ => False end.

Lemma run_pop_idle junk s o :
  idle_protocol s -> housekeeping o -> exists s', run_pop junk s o = Ret ([], [], s') /\ idle_protocol s'.
Proof.
  intros [Hc Hi Ho Hw] Hh. destruct o; try done; cbn [run_pop].
  - unfold MQTTProtocol_keepalive. rewrite Hc. by exists s.
  - unfold MQTTProtocol_retry. rewrite Hc. by exists s.
  - unfold MQTTProtocol_checkPendingWrites. destruct idle; [|by exists s]. rewrite Hw. cbn. eexists. by split.
  - unfold MQTTProtocol_emptyInbound. rewrite Hi. cbn [empty_loop mbind comp_bind].
    unfold MQTTProtocol_emptyOutbound. cbn [outboundMsgs with_inbound]. rewrite Ho. cbn. eexists. by split.
Qed.

(** A CONNECT command of the hub: its only server, and one of the versions
    that the library goes through. *)
Definition connect_command (v : Z) (cm : command) : Prop :=
  type cm = CONNECT /\ on_success cm = true /\ det cm = Conn 0 v.
Definition version_state (v : Z) : Prop := v = 0 \/ v = MQTTVERSION_3_1 \/ v = MQTTVERSION_3_1_1.

(** The pause: whether one is on, its length and its beginning. *)
Definition pause (m : MQTTAsyncs) : bool * Z * Z := (retrying m, currentInterval m, lastConnectionFailedTime m).

Section outage.
Context (junk : Z) (o : options).
Hypothesis Hauto : automaticReconnect o = true.
Hypothesis Huris : serverURIs o = [].
Hypothesis Hversion : MQTTVersion o = MQTTVERSION_DEFAULT.
Hypothesis Husername : username o <> Freed.
Hypothesis Hpassword : password o <> Freed.

Record base (m : MQTTAsyncs) : Prop := {
  bs_protocol : idle_protocol (c m);
  bs_opts : opts m = o;
  bs_queue : messageQueue m = [];
  bs_responses : responses m = [];
  bs_write : pending_write m = None;
  bs_should : shouldBeConnected m = true;
  bs_connect : exists v, version_state v /\ connect_command v (connect m);
  bs_commands : commands m = [] \/ exists q v, commands m = [q] /\ version_state v /\ connect_command v (cmd q)
}.

Lemma base_ext m m' :
  base m -> c m' = c m -> opts m' = opts m -> messageQueue m' = messageQueue m -> responses m' = responses m ->
  pending_write m' = pending_write m -> shouldBeConnected m' = shouldBeConnected m -> connect m' = connect m ->
  commands m' = commands m -> base m'.
Proof. intros [] E1 E2 E3 E4 E5 E6 E7 E8. constructor; by rewrite ?E1, ?E2, ?E3, ?E4, ?E5, ?E6, ?E7, ?E8. Qed.

Lemma base_conn m g st sock : base m -> base (with_conn m 0 g st sock).
Proof. intros [[] ? ? ? ? ? ? ?]. by constructor. Qed.

(** Nothing but the protocol part, the socket and the progress of connecting
    changes. *)
Record kept (m m' : MQTTAsyncs) : Prop := {
  kp_base : base m';
  kp_connect : connect m' = connect m;
  kp_commands : commands m' = commands m;
  kp_pause : pause m' = pause m
}.

Lemma kept_refl m : base m -> kept m m.
Proof. done. Qed.
Lemma kept_trans m1 m2 m3 : kept m1 m2 -> kept m2 m3 -> kept m1 m3.
Proof. intros [] []. constructor; congruence || done. Qed.

Lemma twp_protocol e op m g :
  base m -> housekeeping op ->
  twp (protocol junk e op) (fun _ m' g' => kept m m' /\ connect_state m' = connect_state m /\ socket m' = socket m /\ g' = g) m g.
Proof.
  intros Hm Ho. unfold protocol. twp_steps. destruct (run_pop_idle junk (c m) op (bs_protocol _ Hm) Ho) as (s & E & Hs).
  eapply twp_lift; [exact E|]. cbn beta iota. twp_steps. cbn [close_sessions process_publications]. twp_steps.
  split_and!; [|done..]. constructor; [|done..]. destruct Hm. by constructor.
Qed.

Lemma twp_closeOnly e m g :
  base m -> twp (MQTTAsync_closeOnly junk e) (fun _ m' g' => kept m m' /\ connect_state m' = 0 /\ socket m' <= 0 /\ g' = g) m g.
Proof.
  intros Hm. unfold MQTTAsync_closeOnly. twp_step. twp_step. twp_step. twp_step.
  set (m1 := with_c m _). assert (kept m m1) as K1 by (constructor; [destruct Hm as [[] ? ? ? ? ? ? ?]; by constructor|done..]).
  change (connected (c m1)) with (connected (c m)). rewrite (ip_connected _ (bs_protocol _ Hm)). cbn [Z.eqb negb andb].
  twp_step. twp_step; [|].
  - twp_step. twp_call twp_protocol; [apply K1|done|]. destruct H0 as (K2 & _ & _ & ->). cbn [when]. twp_steps.
    split_and!; [|done..]. pose proof (kept_trans _ _ _ K1 K2) as [K E1 E2 E3].
    constructor; [|done..]. rewrite (ip_connected _ (bs_protocol _ K)). by do 2 apply base_conn.
  - twp_steps. split_and!; [|done| |done]; [|by apply Z.ltb_ge in H]. destruct K1. constructor; [|done..]. by apply base_conn.
Qed.

Lemma twp_removeResponses m g :
  base m ->
  twp MQTTAsync_removeResponsesAndCommands
    (fun _ m' g' => base m' /\ connect m' = connect m /\ pause m' = pause m /\ commands m' = [] /\
       connect_state m' = connect_state m /\ socket m' = socket m /\ g' = g) m g.
Proof.
  intros Hm. unfold MQTTAsync_removeResponsesAndCommands. twp_steps. rewrite !failures_tally.
  split_and!; [|done..]. destruct Hm. constructor; cbn; try done. by left.
Qed.

Lemma twp_cleanSession e m g :
  base m ->
  twp (MQTTAsync_cleanSession junk e)
    (fun rc m' g' => rc = 0 /\ base m' /\ connect m' = connect m /\ pause m' = pause m /\ commands m' = [] /\
       connect_state m' = connect_state m /\ socket m' = socket m /\ g' = g) m g.
Proof.
  intros Hm. unfold MQTTAsync_cleanSession, MQTTAsync_emptyMessageQueue. twp_steps. twp_call twp_protocol; [done|done|].
  destruct H as ([Hb E1 E2 E3] & E4 & E5 & ->). twp_steps. eapply twp_mono; [apply twp_removeResponses|].
  - destruct Hb as [[] ? ? ? ? ? ? ?]. by constructor.
  - intros _ m2 g2 (H1 & H2 & H3 & H4 & H5 & H6 & ->). twp_steps. unfold pause in *; split_and!; try done; cbn in *; congruence.
Qed.

Lemma twp_closeSession e m g :
  base m ->
  twp (MQTTAsync_closeSession junk e)
    (fun _ m' g' => base m' /\ connect m' = connect m /\ pause m' = pause m /\
       commands m' = (if cleansession o then [] else commands m) /\ connect_state m' = 0 /\ socket m' <= 0 /\ g' = g) m g.
Proof.
  intros Hm. unfold MQTTAsync_closeSession. twp_step. twp_call twp_closeOnly; [done|].
  destruct H as ([Hb E1 E2 E3] & E4 & E5 & ->). twp_step. twp_step. rewrite (bs_opts _ Hb).
  twp_step; rewrite H.
  - twp_step. twp_call twp_cleanSession; [done|]. destruct H0 as (_ & ? & ? & ? & ? & ? & ? & ->). twp_steps.
    split_and!; congruence || done || lia.
  - by split_and!.
Qed.

(** ** The next attempt, or the next pause *)

Definition later_pause (e : answers) (p : bool * Z * Z) : bool * Z * Z :=
  (true, if p.1.1 then Z.min (to_int (p.1.2 * 2)) (maxRetryInterval o) else minRetryInterval o, now e).

Lemma twp_startConnectRetry e m g :
  base m ->
  twp (MQTTAsync_startConnectRetry e)
    (fun _ m' g' => base m' /\ connect m' = connect m /\ commands m' = commands m /\ pause m' = later_pause e (pause m) /\
       connect_state m' = connect_state m /\ socket m' = socket m /\ g' = g) m g.
Proof.
  intros Hm. unfold MQTTAsync_startConnectRetry. twp_steps. rewrite (bs_opts _ Hm), Hauto, (bs_should _ Hm). cbn [andb].
  unfold later_pause, pause. cbn [fst snd]. rewrite <- (bs_opts _ Hm).
  destruct (retrying m) eqn:E; (split_and!; [by eapply base_ext|done..]).
Qed.

(** A CONNECT command is queued unless one is. *)
Lemma twp_addCommand e q v m g :
  base m -> version_state v -> connect_command v (cmd q) ->
  twp (MQTTAsync_addCommand e q)
    (fun _ m' g' => base m' /\ connect m' = connect m /\ pause m' = pause m /\ connect_state m' = connect_state m /\
       socket m' = socket m /\ g' = g /\ commands m' <> [] /\
       (commands m <> [] -> commands m' = commands m) /\
       (commands m = [] -> connect_state m = 0 ->
          commands m' = [{| addr := addr q; cmd := started (cmd q) (now e) |}])) m g.
Proof.
  intros Hm Hv (Ht & Hs & Hd). unfold MQTTAsync_addCommand. twp_step. twp_step. twp_step.
  set (cm := if negb (type (cmd q) =? CONNECT) || (connect_state m =? 0) then started (cmd q) (now e) else cmd q).
  assert (connect_command v cm) as (Ht' & Hs' & Hd') by (unfold cm; by destruct (_ || _)).
  rewrite Ht'. cbn [Z.eqb CONNECT Pos.eqb orb].
  destruct (bs_commands _ Hm) as [Hc|(q0 & v0 & Hc & _ & (Ht0 & _))]; rewrite Hc.
  - twp_steps. assert (commands (with_commands m [{| addr := addr q; cmd := cm |}] (next_addr m)) <> []) by done.
    split_and!; try done.
    + destruct Hm. constructor; cbn; try done. right. eexists. by exists v.
    + intros _ Hst. cbn. unfold cm. by rewrite Hst, orb_true_r.
  - rewrite Ht0. cbn [Z.eqb CONNECT Pos.eqb]. twp_steps. split_and!; try done; congruence.
Qed.

Lemma next_attempt_ok m cm :
  opts m = o -> connect_command MQTTVERSION_3_1_1 cm -> next_attempt m cm = cm.
Proof.
  intros Ho (_ & _ & Hd). unfold next_attempt, conn_of. rewrite Hd, Ho, Hversion. done.
Qed.

Lemma checkConn_iff m cm v :
  opts m = o -> connect_command v cm -> MQTTAsync_checkConn cm m = (v =? MQTTVERSION_3_1_1).
Proof.
  intros Ho (_ & _ & Hd). unfold MQTTAsync_checkConn, conn_of. rewrite Hd, Ho, Hversion, Huris. cbn [fst snd length].
  change (0 + 1 <? Z.of_nat 0) with false. by rewrite andb_true_r.
Qed.

(** An attempt at version 3.1.1 is followed by one at 3.1, another one by a
    pause. *)
Definition given_up (e : answers) (v : Z) (m m' : MQTTAsyncs) : Prop :=
  base m' /\ connect m' = connect m /\ connect_state m' = 0 /\ socket m' <= 0 /\
  if v =? MQTTVERSION_3_1_1 then
    pause m' = pause m /\ commands m' <> [] /\
    (commands m = [] -> exists q, commands m' = [q] /\ connect_command MQTTVERSION_3_1_1 (cmd q) /\ start_time (cmd q) = now e)
  else pause m' = later_pause e (pause m) /\ (commands m = [] -> commands m' = []).

Lemma twp_nextOrClose e rc v m g :
  base m -> connect_command v (connect m) ->
  twp (nextOrClose junk e rc) (fun _ m' g' => given_up e v m m' /\ g' = g) m g.
Proof.
  unfold given_up. intros Hm Hc. unfold nextOrClose. twp_step. twp_step.
  twp_step; rewrite (checkConn_iff m _ v (bs_opts _ Hm) Hc) in H; rewrite H.
  - apply Z.eqb_eq in H as ->. twp_step. twp_call twp_closeOnly; [done|]. destruct H as ([Hb E1 E2 E3] & E4 & E5 & ->).
    twp_step. twp_step. unfold new_command. twp_step. twp_step. twp_step. twp_step. twp_step. twp_step. twp_step.
    rewrite next_attempt_ok by (apply Hb || by rewrite E1).
    eapply twp_mono; [eapply (twp_addCommand e _ MQTTVERSION_3_1_1)|].
    + by eapply base_ext.
    + right. by right.
    + cbn [cmd]. by rewrite E1.
    + intros y m2 g2 (H1 & H2 & H3 & H4 & H5 & -> & H7 & H8 & H9). twp_steps. cbn in H2, H3, H4, H5, H8, H9.
      unfold pause in *. cbn in H3. split_and!; [done|congruence|congruence|lia|congruence|done| |done].
      intros Hn. specialize (H9 ltac:(congruence) E4). eexists. split; [exact H9|]. cbn. by rewrite E1.
  - twp_step. twp_call twp_closeSession; [done|]. destruct H0 as (Hb & E1 & E2 & E3 & E4 & E5 & ->).
    twp_step. twp_step. twp_step.
    assert (forall g', twp (MQTTAsync_startConnectRetry e) (fun _ m' g2 => (base m' /\ connect m' = connect m /\ connect_state m' = 0 /\
      socket m' <= 0 /\ (pause m' = later_pause e (pause m) /\ (commands m = [] -> commands m' = []))) /\ g2 = g') m' g') as Hr.
    { intros g'. twp_call twp_startConnectRetry; [done|]. destruct H0 as (? & ? & Ec & ? & ? & ? & ->).
      split_and!; [done|congruence|congruence|lia|congruence| |done]. intros Hn. rewrite Ec, E3, Hn. by destruct (cleansession o). }
    twp_step; [|by twp_call Hr]. twp_step. cbn [foldl tally]. by twp_call Hr.
Qed.

(** ** Carrying out the CONNECT command *)

Definition next_version (v : Z) : Z :=
  if v =? 0 then MQTTVERSION_3_1_1 else if v =? MQTTVERSION_3_1_1 then MQTTVERSION_3_1 else v.
Lemma next_version_sent v : version_state v -> (next_version v =? MQTTVERSION_3_1) || (next_version v =? MQTTVERSION_3_1_1) = true.
Proof. by intros [->|[->| ->]]. Qed.
Lemma next_version_state v : version_state v -> version_state (next_version v).
Proof. intros [->|[->| ->]]; cbn; unfold version_state; auto. Qed.

(** connect() on the socket, which does not block, is under way; or the
    attempt has begun in that or in the other way, the CONNECT packet being
    written at once. *)
Definition under_way (e : answers) : bool := ((new_socket e).1 =? EINPROGRESS) || ((new_socket e).1 =? EWOULDBLOCK).
Definition begun (e : answers) : bool := under_way e || (((new_socket e).1 =? 0) && (send_rc e =? 0)).

Lemma twp_send_connect v rc m g Q :
  opts m = o -> (v =? MQTTVERSION_3_1) || (v =? MQTTVERSION_3_1_1) = true -> Q rc m g -> twp (send_connect v rc) Q m g.
Proof.
  intros Ho Hv HQ. unfold send_connect. twp_step. twp_step. twp_step. rewrite Ho.
  apply (twp_lift _ tt); [by destruct (username o)|]. rewrite Hv. twp_step.
  apply (twp_lift _ tt); [by destruct (password o)|]. by twp_steps.
Qed.

Lemma twp_Protocol_connect e uri v m g :
  base m -> connect_state m = 0 -> (v =? MQTTVERSION_3_1) || (v =? MQTTVERSION_3_1_1) = true ->
  twp (MQTTProtocol_connect e uri v)
    (fun rc m' g' => kept m m' /\ connect_state m' = (if begun e then if under_way e then 1 else 3 else 0) /\
       (begun e = true -> failed rc = false /\ socket m' = (new_socket e).2) /\ g' = (S g.1, g.2)) m g.
Proof.
  intros Hm Hs Hv. unfold MQTTProtocol_connect, begun. twp_step. twp_step. destruct (new_socket e) as [rc sock] eqn:En.
  assert (under_way e = (rc =? EINPROGRESS) || (rc =? EWOULDBLOCK)) as Eu by (unfold under_way; by rewrite En).
  assert (connected (c m) = 0) as Hc by apply Hm. cbn [fst snd foldl tally].
  assert (forall g1 st k, kept m (with_conn m 0 g1 st k)) as Hk by (intros; constructor; [by apply base_conn|done..]).
  twp_step. twp_step. rewrite Hc. twp_step; rewrite <- Eu in H; rewrite H; cbn [orb].
  - twp_steps. split_and!; [|done| |done].
    + cbn [connected c with_conn with_net socket]. rewrite ?Hc. eapply kept_trans; [apply Hk|constructor; [|done..]].
      apply base_conn, base_conn, Hm.
    + intros _. split; [|done]. rewrite Eu in H. apply orb_prop in H as [->%Z.eqb_eq| ->%Z.eqb_eq]; done.
  - destruct (rc =? 0) eqn:Er; cbn [andb].
    + twp_step. apply twp_send_connect; [apply Hm|done|]. twp_steps.
      destruct (send_rc e =? 0) eqn:Es; cbn [connect_state with_conn]; (split_and!; [|done| |done]).
      1, 3: cbn [connected c with_conn with_net socket]; constructor; [apply base_conn, base_conn, Hm|done..].
      * apply Z.eqb_eq in Es as ->. done.
      * done.
    + twp_steps. split_and!; [apply Hk|by cbn|done|done].
Qed.

Lemma twp_settle_failed e a cm v m g :
  base m -> connect_state m = 0 -> commands m = [] -> version_state v -> connect_command v cm ->
  twp (settle e {| addr := a; cmd := cm |} SOCKET_ERROR)
    (fun _ m' g' => base m' /\ g' = g /\ connect_state m' = 0 /\
       if v =? MQTTVERSION_3_1_1 then
         pause m' = pause m /\ exists q', commands m' = [q'] /\ connect_command MQTTVERSION_3_1_1 (cmd q') /\ start_time (cmd q') = now e
       else pause m' = later_pause e (pause m) /\ commands m' = []) m g.
Proof.
  intros Hm Hst Hco Hv Hcm. unfold settle. cbn [cmd]. assert (type cm = CONNECT) as -> by apply Hcm.
  change (failed SOCKET_ERROR) with true. cbn [Z.eqb CONNECT DISCONNECT PUBLISH Pos.eqb negb andb]. twp_step. twp_step.
  unfold MQTTAsync_disconnect, MQTTAsync_disconnect1. twp_step. cbn [negb when]. twp_step. twp_step. twp_step.
  change (connected (c (with_should m false))) with (connected (c m)). rewrite (ip_connected _ (bs_protocol _ Hm)). cbn [Z.eqb].
  do 4 twp_step. set (m3 := with_should (with_should m false) true).
  assert (base m3) as Hb3 by (destruct Hm; by constructor). rewrite (checkConn_iff m3 cm _ (bs_opts _ Hb3) Hcm).
  assert (connect_state m3 = 0) as Es3 by done. assert (commands m3 = []) as Ec3 by done. assert (pause m3 = pause m) as Ep3 by done.
  destruct (v =? MQTTVERSION_3_1_1) eqn:Ev.
  - apply Z.eqb_eq in Ev. rewrite Ev in Hcm. rewrite next_attempt_ok by (apply Hb3 || done). twp_step.
    eapply twp_mono; [apply (twp_addCommand e _ MQTTVERSION_3_1_1); [done|by right; right|done]|].
    intros y m4 g4 (H1 & H2 & H3 & H4 & H5 & -> & H7 & H8 & H9). twp_steps. split_and!; [done|done|congruence|congruence|].
    eexists. split; [by apply H9|]. done.
  - twp_step.
    assert (forall g', twp (when true (let* _ := set_connect cm in MQTTAsync_startConnectRetry e))
      (fun _ m4 g4 => base m4 /\ g4 = g' /\ connect_state m4 = 0 /\ pause m4 = later_pause e (pause m) /\ commands m4 = []) m3 g') as Hr.
    { intros g'. cbn [when]. unfold set_connect. twp_step. twp_step. twp_call twp_startConnectRetry.
      - destruct Hb3. constructor; cbn; try done. by exists v.
      - destruct H as (? & ? & Hc & Hp & Hs & ? & ->). rewrite <- Ep3, <- Es3, <- Ec3. by split_and!. }
    twp_step; [twp_step; cbn [foldl tally]|]; (twp_call Hr; destruct H0 as (? & -> & ? & ? & ?); by split_and!).
Qed.

Lemma twp_process e q v m g :
  base m -> commands m = [q] -> version_state v -> connect_command v (cmd q) ->
  twp (MQTTAsync_processCommand junk e)
    (fun _ m' g' => base m' /\
       if connect_state m =? 0 then
         g' = (S g.1, g.2) /\
         if begun e then
           connect_state m' = (if under_way e then 1 else 3) /\ socket m' = (new_socket e).2 /\
           commands m' = [] /\ pause m' = pause m /\ connect_command (next_version v) (connect m') /\
           start_time (connect m') = start_time (cmd q)
         else
           connect_state m' = 0 /\
           if next_version v =? MQTTVERSION_3_1_1 then
             pause m' = pause m /\ exists q', commands m' = [q'] /\ connect_command MQTTVERSION_3_1_1 (cmd q') /\ start_time (cmd q') = now e
           else pause m' = later_pause e (pause m) /\ commands m' = []
       else
         g' = g /\ connect_state m' = connect_state m /\ commands m' = [] /\ pause m' = pause m) m g.
Proof.
  intros Hm Hq Hv Hc. pose proof Hc as (Ht & Hs & Hd). unfold MQTTAsync_processCommand. twp_step. twp_step.
  assert (next_command e m = Some q) as -> by (unfold next_command; by rewrite Hq, Ht).
  twp_step. twp_step. rewrite Hq. cbn [List.tl]. rewrite Ht. cbn [Z.eqb CONNECT Pos.eqb].
  set (m1 := with_commands m [] (next_addr m)).
  assert (base m1) as Hb1 by (destruct Hm; constructor; cbn; try done; by left).
  assert (connected (c m1) = 0) as Hc1 by apply Hm.
  twp_step. unfold process_connect. twp_step. twp_step. rewrite Hc1. cbn [Z.eqb negb orb]. rewrite orb_false_r.
  change (connect_state m1) with (connect_state m). destruct (connect_state m =? 0) eqn:Est; cbn [negb].
  - apply Z.eqb_eq in Est. twp_step. rewrite (bs_opts _ Hb1), Huris. 
    rewrite bool_decide_eq_true_2 by done. twp_step.
    assert ((conn_of (cmd q)).2 = v /\ (conn_of (cmd q)).1 = 0) as [-> ->] by (unfold conn_of; by rewrite Hd).
    rewrite Hversion. cbn [Z.eqb MQTTVERSION_DEFAULT]. fold (next_version v). cbn [conn_of det with_conn_of snd].
    set (cm := with_conn_of (cmd q) 0 (next_version v)).
    assert (connect_command (next_version v) cm) as Hcm by (by split_and!).
    twp_step. twp_call twp_Protocol_connect; [done|done|by apply next_version_sent|].
    destruct H as ([Hb2 E1 E2 E3] & E4 & E5 & ->). twp_step. twp_step. twp_step. rewrite E4.
    destruct (begun e) eqn:Eb.
    + destruct (E5 eq_refl) as [Hf Hk].
      assert (((if under_way e then 1 else 3) =? 0) = false) as -> by (by destruct (under_way e)).
      twp_step. unfold settle. cbn [cmd]. assert (type cm = CONNECT) as -> by done. rewrite Hf. cbn [Z.eqb CONNECT Pos.eqb negb andb].
      unfold set_connect. twp_steps. split; [|split; [done|]].
      * destruct Hb2. constructor; cbn; try done. exists (next_version v). split; [by apply next_version_state|done].
      * split_and!; try done.
    + cbn [Z.eqb]. twp_step. twp_call (twp_settle_failed e (addr q) cm (next_version v)); try done; [by apply next_version_state|].
      destruct H as (? & -> & ? & Hn). twp_steps. split_and!; [done..|].
      assert (pause m' = pause m) as Hp by done. by rewrite Hp in Hn.
  - twp_step. unfold settle. cbn [cmd]. rewrite Ht. cbn [Z.eqb CONNECT Pos.eqb negb andb failed SOCKET_ERROR MQTTASYNC_PERSISTENCE_ERROR orb].
    change (failed 0) with false. cbn [negb andb]. unfold set_connect. twp_steps. split; [|by split_and!].
    destruct Hb1. constructor; cbn; try done. by exists v.
Qed.

(** ** The threads *)

Definition sockopt_error (so : Z * Z) : Z := if so.1 =? 0 then so.2 else so.1.
Definition written (e : answers) (v : Z) : bool :=
  negb (v =? 0) && ((send_rc e =? 0) || (send_rc e =? TCPSOCKET_INTERRUPTED)).

Lemma twp_connecting e so v m g :
  base m -> connect_state m = 1 -> version_state v -> connect_command v (connect m) ->
  twp (MQTTAsync_connecting junk e so)
    (fun rc m' g' => g' = g /\
       if sockopt_error so =? 0 then
         if written e v then kept m m' /\ connect_state m' = 3 /\ socket m' = socket m /\ rc = send_rc e
         else given_up e v m m'
       else if sockopt_error so =? TCPSOCKET_INTERRUPTED then m' = m else given_up e v m m') m g.
Proof.
  intros Hm Hs Hv Hc. unfold MQTTAsync_connecting. twp_step. twp_step. twp_step. rewrite Hs. cbn [Z.eqb Pos.eqb].
  cbv zeta. fold (sockopt_error so). destruct (sockopt_error so =? 0) eqn:Ez; cbn [negb].
  - twp_step. twp_step. assert (connected (c m) = 0) as -> by apply Hm.
    set (m1 := with_conn m 0 _ 3 _). assert (kept m m1) as K by (constructor; [by apply base_conn|done..]).
    assert ((conn_of (connect m)).2 = v) as -> by (unfold conn_of; by destruct Hc as (_ & _ & ->)).
    assert (forall rc, twp (let* m := get in
      let* _ := when (negb (rc =? 0) && negb (rc =? TCPSOCKET_INTERRUPTED) && negb (connect_state m =? 2)) (nextOrClose junk e MQTTASYNC_FAILURE) in mret rc)
      (fun rc' m' g' => g' = g /\ rc' = rc /\ if (rc =? 0) || (rc =? TCPSOCKET_INTERRUPTED) then m' = m1 else given_up e v m1 m') m1 g) as Hr.
    { intros rc. twp_step. twp_step. twp_step. rewrite <- negb_orb. cbn [connect_state m1 with_conn Z.eqb negb]. rewrite andb_true_r.
      twp_step; [apply negb_true_iff in H|apply negb_false_iff in H]; rewrite H; [|by twp_steps].
      twp_call twp_nextOrClose; [apply K|exact Hc|]. destruct H0 as [? ->]. by twp_steps. }
    assert (forall m', given_up e v m1 m' -> given_up e v m m') as Hg by (intros m' Hg; exact Hg).
    unfold written. destruct (Z.eqb_spec v 0) as [->|Hn]; cbn [negb andb].
    + unfold send_connect. twp_step. twp_step. twp_step. rewrite (bs_opts _ (kp_base _ _ K)).
      apply (twp_lift _ tt); [by destruct (username o)|]. cbn [Z.eqb MQTTVERSION_3_1 MQTTVERSION_3_1_1 orb]. twp_step.
      twp_call Hr. destruct H as (-> & _ & H). split; [done|]. by apply Hg.
    + apply twp_send_connect; [apply K|by destruct Hv as [->|[->| ->]]|]. twp_call Hr. destruct H as (-> & -> & H).
      split; [done|]. destruct (_ || _); [by subst|by apply Hg].
  - twp_step. twp_step. twp_step. rewrite Hs, Ez. cbn [negb andb Z.eqb Pos.eqb]. rewrite andb_true_r. twp_step.
    destruct (sockopt_error so =? TCPSOCKET_INTERRUPTED) eqn:Ei; cbn [negb when]; [by twp_steps|].
    twp_call twp_nextOrClose; [done|done|]. destruct H as [? ->]. by twp_steps.
Qed.

(** A client that is going to try, trying, or pausing before it tries. *)
Record striving (m : MQTTAsyncs) : Prop := {
  sv_base : base m;
  sv_state : connect_state m = 0 \/ connect_state m = 1 \/ connect_state m = 3;
  sv_alive : retrying m = true \/ connect_state m <> 0 \/ commands m <> []
}.

Lemma given_up_striving e v m m' : given_up e v m m' -> striving m'.
Proof.
  intros (Hb & _ & Hs & _ & H). split; [done|by left|]. destruct (v =? MQTTVERSION_3_1_1).
  - right. right. apply H.
  - left. by destruct H as [[= -> _ _] _].
Qed.

Lemma kept_striving m m' : striving m -> kept m m' -> connect_state m' = connect_state m -> striving m'.
Proof. intros [] [Hb _ Ec [= Er _ _]] Es. split; [done|by rewrite Es|by rewrite Er, Es, Ec]. Qed.

Definition keeps_striving {A} (a : act A) (m : MQTTAsyncs) : Prop :=
  forall g, twp a (fun _ m' g' => striving m' /\ g'.2 = g.2) m g.

Lemma striving_next e rc m : base m -> keeps_striving (nextOrClose junk e rc) m.
Proof.
  intros Hm g. destruct (bs_connect _ Hm) as (v & _ & Hc). twp_call twp_nextOrClose; [done..|].
  destruct H as [H ->]. split; [by eapply given_up_striving|done].
Qed.

Lemma striving_protocol e op m : striving m -> housekeeping op -> keeps_striving (protocol junk e op) m.
Proof.
  intros Hm Ho g. twp_call twp_protocol; [apply Hm|done|]. destruct H as (K & Hs & _ & ->). split; [by eapply kept_striving|done].
Qed.

Lemma striving_process e m : striving m -> keeps_striving (MQTTAsync_processCommand junk e) m.
Proof.
  intros Hm g. destruct (bs_commands _ (sv_base _ Hm)) as [Hn|(q & v & Hq & Hv & Hc)].
  - unfold MQTTAsync_processCommand. twp_step. twp_step. unfold next_command. rewrite Hn. by twp_steps.
  - twp_call (twp_process e q v); [apply Hm|done..|]. destruct H as [Hb H].
    destruct (Z.eqb_spec (connect_state m) 0) as [_|Hs].
    + destruct H as [-> H]. split; [|done]. destruct (begun e).
      * destruct H as (Hst & _). split; [done|..]; rewrite Hst; destruct (under_way e); auto.
      * destruct H as (Hst & H). split; [done|by left|]. destruct (_ =? MQTTVERSION_3_1_1).
        -- destruct H as (_ & q' & -> & _). auto.
        -- destruct H as ([= -> _ _] & _). auto.
    + destruct H as (-> & Hst & _). split; [|done]. split; [done|rewrite Hst; apply Hm|rewrite Hst; auto].
Qed.

(** The looks at the timeouts. *)
Definition timed_out (e : answers) (m : MQTTAsyncs) : bool :=
  negb (connect_state m =? 0) && (connectTimeout o * 1000 <? now e - start_time (connect m)).
Definition pause_over (e : answers) (m : MQTTAsyncs) : bool :=
  retrying m && (reconnectNow m || (currentInterval m * 1000 <? now e - lastConnectionFailedTime m)).

Lemma twp_checkTimeouts e last v m g :
  base m -> connect_state m <> -2 -> connect_command v (connect m) ->
  twp (MQTTAsync_checkTimeouts junk e last)
    (fun _ m' g' => g' = g /\
       if secs e - last <? 3 then m' = m
       else if timed_out e m then given_up e v m m'
       else if pause_over e m then
         base m' /\ connect m' = connect m /\ pause m' = pause m /\ connect_state m' = connect_state m /\ socket m' = socket m /\
         commands m' <> [] /\
         (commands m = [] -> connect_state m = 0 -> exists q, commands m' = [q] /\ connect_command 0 (cmd q) /\ start_time (cmd q) = now e)
       else m' = m) m g.
Proof.
  intros Hm Hs Hc. unfold MQTTAsync_checkTimeouts. twp_step; rewrite H; [by twp_steps|].
  twp_step. twp_step. twp_step. rewrite (proj2 (Z.eqb_neq _ _) Hs). cbn [when]. twp_step. twp_step. twp_step. twp_step.
  rewrite (bs_opts _ Hm), Hauto. cbn [andb]. fold (timed_out e m) (pause_over e m).
  destruct (timed_out e m); [twp_call twp_nextOrClose; [done..|]; destruct H0 as [? ->]; by twp_steps|].
  destruct (pause_over e m); cbn [when]; [|by twp_steps].
  twp_step. unfold new_command. do 6 twp_step. cbn beta iota.
  assert (connect_command 0 (restarted m)) as Hr.
  { unfold restarted. rewrite (bs_opts _ Hm), Hversion. destruct Hc as (Ht & Ho & Hd). split_and!; [done..|].
    cbn. unfold conn_of. by rewrite Hd. }
  eapply twp_mono; [eapply (twp_addCommand e _ 0)|].
  - by eapply base_ext.
  - by left.
  - exact Hr.
  - intros y m2 g2 (H1 & H2 & H3 & H4 & H5 & -> & H7 & H8 & H9). twp_steps. split; [done|]. split_and!; try done; [by eapply base_ext|].
    intros Hn Hst. eexists. split; [by apply H9|]. done.
Qed.

Lemma striving_timeouts e last m : striving m -> keeps_striving (MQTTAsync_checkTimeouts junk e last) m.
Proof.
  intros [Hb Hs Ha] g. destruct (bs_connect _ Hb) as (v & _ & Hc). twp_call twp_checkTimeouts; [done|lia|done|].
  destruct H as [-> H]. split; [|done]. destruct (_ <? 3); [by subst|]. destruct (timed_out e m); [by eapply given_up_striving|].
  destruct (pause_over e m); [|by subst]. destruct H as (? & _ & _ & Hst & _ & ? & _). split; [done|by rewrite Hst|auto].
Qed.

Lemma striving_connecting e so m :
  striving m -> connect_state m = 1 -> keeps_striving (MQTTAsync_connecting junk e so) m.
Proof.
  intros Hm Hs g. destruct (bs_connect _ (sv_base _ Hm)) as (v & Hv & Hc). twp_call twp_connecting; [apply Hm|done..|].
  destruct H as [-> H]. split; [|done]. destruct (_ =? 0).
  - destruct (written e v); [|by eapply given_up_striving]. destruct H as (K & Hst & _). split; [apply K|auto|rewrite Hst; auto].
  - destruct (_ =? _); [by subst|by eapply given_up_striving].
Qed.

(** A CONNACK that accepts is what the server does not send. *)
Definition no_accept (p : option received) : Prop := p = None \/ exists k, p = Some (RConnack k) /\ k <> MQTTASYNC_SUCCESS.

Lemma striving_retry e due ans m : striving m -> keeps_striving (MQTTAsync_retry junk e due ans) m.
Proof.
  intros Hm g. unfold MQTTAsync_retry, retry_pop. twp_step; [twp_step|]; (twp_call striving_protocol; [done|done|]); [|done].
  destruct H0 as [H1 H2]. twp_call striving_protocol; [done|done|]. destruct H0 as [? E]. split; [done|congruence].
Qed.

Lemma striving_cycle e ready so packet due ans m g :
  striving m -> no_accept packet.2 ->
  twp (MQTTAsync_cycle junk e ready so packet due ans)
    (fun r m' g' => striving m' /\ g'.2 = g.2 /\ no_accept r.2) m g.
Proof.
  intros Hm Hp. unfold MQTTAsync_cycle. twp_step. twp_step. twp_step.
  apply (twp_mono _ (fun r m' g' => striving m' /\ g'.2 = g.2 /\ no_accept r.2)).
  - twp_step; [|by twp_steps; split_and!; [| |left]].
    twp_step. apply (twp_mono _ (fun r m' g' => striving m' /\ g'.2 = g.2 /\ no_accept r.2)).
    + twp_step; [|by twp_steps]. twp_step. twp_call striving_connecting; [done| |].
      * destruct (sv_state _ Hm) as [E|[E|E]]; [by rewrite E in H0|done|by rewrite E in H0].
      * destruct H1. twp_steps. split_and!; [done..|by left].
    + intros [rc pack] m1 g1 (Hm1 & E1 & Hp1). twp_step. twp_step. twp_step.
      apply (twp_mono _ (fun _ m' g' => striving m' /\ g'.2 = g.2)).
      * twp_step; [|done]. twp_call striving_next; [apply Hm1|]. destruct H1 as [? E]. split; [done|congruence].
      * intros _ m2 g2 [Hm2 E2]. cbn [snd] in Hp1. destruct Hp1 as [->|(k & -> & Hk)]; twp_steps; (split_and!; [done..|]); [by left|].
        right. by exists k.
  - intros [rc pack] m1 g1 (Hm1 & E1 & Hp1). twp_step. twp_call striving_retry; [done|]. destruct H as [? E].
    twp_steps. split_and!; [done|congruence|done].
Qed.

Lemma striving_dispatch e sock rc pack ans m :
  striving m -> no_accept pack -> keeps_striving (dispatch junk e sock rc pack ans) m.
Proof.
  intros Hm Hp g. unfold dispatch. twp_step. twp_step. twp_step; [|done].
  pose proof (ip_connected _ (bs_protocol _ (sv_base _ Hm))) as Hc. rewrite Hc. cbn [Z.eqb].
  twp_step; [twp_step; [twp_call striving_next; [apply Hm|done]|]|].
  - twp_call twp_closeOnly; [apply Hm|]. destruct H2 as (K & Hs & _ & ->). split; [|done].
    apply negb_false_iff, Z.eqb_eq in H1. eapply kept_striving; [done..|congruence].
  - unfold deliver_queued. twp_step. twp_step. twp_step. rewrite (bs_queue _ (sv_base _ Hm)). twp_step.
    destruct Hp as [->|(k & -> & Hk)]; [by twp_steps|]. cbn [receive_packet]. twp_step. unfold MQTTAsync_completeConnection.
    twp_step. twp_step. rewrite (proj2 (Z.eqb_neq k _)) by done.
    twp_step; twp_step; [rewrite (proj2 (Z.eqb_neq k _)) by done|]; (twp_call striving_next; [apply Hm|done]).
Qed.

Lemma striving_writeComplete e rc m : striving m -> keeps_striving (MQTTAsync_writeComplete junk e rc) m.
Proof.
  intros Hm g. unfold MQTTAsync_writeComplete. twp_step. twp_call striving_protocol; [done|done|]. destruct H as [[Hb Hs Ha] E].
  twp_step. twp_step. twp_step. twp_step. cbn [pending_write with_c]. rewrite (bs_write _ Hb). twp_steps. split; [|done].
  split; [|done..]. destruct Hb as [[] ? ? ? ? ? ? ?]. by constructor.
Qed.

(** ** An outage: the threads run in any order, and no CONNACK accepts *)

Definition outage_step (s : astep) : Prop :=
  match s with
  | AProcess _ | ATimeouts _ _ | AWriteComplete _ _ => True
  | AReceive _ _ _ packet _ _ | ACycle _ _ _ packet _ _ => no_accept packet.2
  | ADispatch _ _ _ pack _ => no_accept pack
  | _ => False
  end.

Lemma striving_step s m : striving m -> outage_step s -> keeps_striving (run_astep junk s) m.
Proof.
  intros Hm Hs g.
  assert (forall A (a : act A), keeps_striving a m -> twp (ignore a) (fun _ m' g' => striving m' /\ g'.2 = g.2) m g) as Hi.
  { intros A a Ha. unfold ignore. twp_step. twp_call (Ha g). by twp_steps. }
  destruct s; cbn [run_astep outage_step] in *; try done.
  - by apply Hi, striving_process.
  - by apply Hi, striving_timeouts.
  - unfold receive_turn. twp_step. twp_step. twp_step. twp_call striving_cycle; [done..|].
    destruct x as [rc pack]. destruct H as (? & E & ?). twp_step; [|done]. twp_call striving_dispatch; [done..|].
    destruct H2 as [? E']. split; [done|congruence].
  - apply Hi. intros g'. twp_call striving_cycle; [done..|]. by destruct H as (? & ? & _).
  - by apply striving_dispatch.
  - by apply striving_writeComplete.
Qed.

Lemma striving_run l m : striving m -> Forall outage_step l -> keeps_striving (arun junk l) m.
Proof.
  revert m. induction l as [|s l IH]; intros m Hm Hl g; [done|]. apply Forall_cons in Hl as [Hs Hl]. cbn [arun].
  twp_step. twp_call striving_step; [done..|]. destruct H as [H E]. twp_call IH; [done..|]. destruct H0 as [? E']. split; [done|congruence].
Qed.

(** ** The server is back *)

(** A look after every limit has passed, one after the longest pause, the
    attempt - connect() returning at once or under way -, the socket becoming
    writable, and the CONNACK. *)
Definition recovery (last : Z) (e1 e2 e3 e4 e5 : answers) : list astep :=
  [ATimeouts e1 last; ATimeouts e2 (secs e1); AProcess e3;
   AReceive e4 true (0, 0) (TCPSOCKET_INTERRUPTED, None) false [];
   AReceive e5 true (0, 0) (0, Some (RConnack MQTTASYNC_SUCCESS)) false []].

Definition overdue (e : answers) (last : Z) (m : MQTTAsyncs) : Prop :=
  3 <= secs e - last /\ connectTimeout o * 1000 < now e - start_time (connect m) /\
  currentInterval m * 1000 < now e - lastConnectionFailedTime m.
Definition longest_pause (e1 e2 : answers) : Prop :=
  3 <= secs e2 - secs e1 /\ minRetryInterval o * 1000 < now e2 - now e1 /\ maxRetryInterval o * 1000 < now e2 - now e1.
Definition reachable (e3 e4 : answers) : Prop := begun e3 = true /\ 0 < (new_socket e3).2 /\ send_rc e4 = 0.

Lemma look_overdue e1 e2 last m g :
  striving m -> overdue e1 last m -> longest_pause e1 e2 ->
  twp (MQTTAsync_checkTimeouts junk e1 last)
    (fun _ m' g' => g' = g /\ base m' /\ connect_state m' = 0 /\ (commands m' <> [] \/ pause_over e2 m' = true)) m g.
Proof.
  intros [Hb Hs Ha] (Ho1 & Ho2 & Ho3) (Hl1 & Hl2 & Hl3). destruct (bs_connect _ Hb) as (v & _ & Hc).
  twp_call twp_checkTimeouts; [done|lia|done|]. destruct H as [-> H]. split; [done|].
  rewrite (proj2 (Z.ltb_ge _ _)) in H by lia. unfold timed_out in H. rewrite (proj2 (Z.ltb_lt _ (now e1 - start_time _))), andb_true_r in H by lia.
  destruct (Z.eqb_spec (connect_state m) 0) as [Hz|Hz]; cbn [negb] in H.
  - unfold pause_over in H. rewrite (proj2 (Z.ltb_lt _ (now e1 - _))), orb_true_r, andb_true_r in H by lia.
    destruct (retrying m); [|subst; destruct Ha as [?|[?|?]]; auto; done].
    destruct H as (? & _ & _ & Hst & _ & ? & _). split_and!; [done|congruence|auto].
  - destruct H as (? & _ & Hst & _ & H). split_and!; [done..|]. destruct (v =? _); [left; apply H|right].
    destruct H as [Hp _]. unfold pause, later_pause in Hp. cbn [fst snd] in Hp. injection Hp as Hr Hi Ht.
    unfold pause_over. rewrite Hr, Ht. cbn [andb]. apply orb_true_iff. right. apply Z.ltb_lt. rewrite Hi. destruct (retrying m); lia.
Qed.

Lemma look_again e1 e2 m g :
  base m -> connect_state m = 0 -> commands m <> [] \/ pause_over e2 m = true -> longest_pause e1 e2 ->
  twp (MQTTAsync_checkTimeouts junk e2 (secs e1))
    (fun _ m' g' => g' = g /\ base m' /\ connect_state m' = 0 /\ commands m' <> []) m g.
Proof.
  intros Hb Hs Ha (Hl & _). destruct (bs_connect _ Hb) as (v & _ & Hc).
  twp_call twp_checkTimeouts; [done|lia|done|]. destruct H as [-> H]. split; [done|].
  rewrite (proj2 (Z.ltb_ge _ _)) in H by lia. unfold timed_out in H. rewrite Hs in H. cbn [Z.eqb negb andb] in H.
  destruct (pause_over e2 m).
  - destruct H as (? & _ & _ & Hst & _ & ? & _). split_and!; [done|congruence|done].
  - subst. by destruct Ha.
Qed.

(** An attempt that has begun is carried on until the CONNECT packet is out. *)
Definition connecting (v : Z) (m : MQTTAsyncs) : Prop :=
  base m /\ (connect_state m = 1 \/ connect_state m = 3) /\ 0 < socket m /\ version_state v /\ v <> 0 /\ connect_command v (connect m).

Lemma process_begins e m g :
  base m -> connect_state m = 0 -> commands m <> [] -> begun e = true -> 0 < (new_socket e).2 ->
  twp (MQTTAsync_processCommand junk e) (fun _ m' g' => g' = (S g.1, g.2) /\ exists v, connecting v m') m g.
Proof.
  intros Hb Hs Hn He Hk. destruct (bs_commands _ Hb) as [?|(q & v & Hq & Hv & Hc)]; [done|].
  twp_call (twp_process e q v); [done..|]. destruct H as [Hb' H]. rewrite Hs, He in H. cbn [Z.eqb] in H.
  destruct H as (-> & Hst & Hsk & _ & _ & Hc' & _). split; [done|]. exists (next_version v). split; [done|].
  split; [rewrite Hst; destruct (under_way e); auto|]. split; [by rewrite Hsk|]. split; [by apply next_version_state|].
  split; [|done]. by destruct Hv as [->|[->| ->]].
Qed.

Lemma dispatch_nothing e sock rc m g :
  base m -> rc <> SOCKET_ERROR -> twp (dispatch junk e sock rc None []) (fun _ m' g' => m' = m /\ g' = g) m g.
Proof.
  intros Hm Hrc. unfold dispatch, deliver_queued. twp_step. twp_step. twp_step; [|done].
  rewrite (proj2 (Z.eqb_neq _ _) Hrc). twp_steps. rewrite (bs_queue _ Hm). by twp_steps.
Qed.

Lemma retry_kept e m g :
  base m -> twp (MQTTAsync_retry junk e false [])
    (fun _ m' g' => kept m m' /\ connect_state m' = connect_state m /\ socket m' = socket m /\ g' = g) m g.
Proof. intros Hm. unfold MQTTAsync_retry, retry_pop. by twp_call twp_protocol. Qed.

Lemma receive_writable e v m g :
  connecting v m -> send_rc e = 0 ->
  twp (receive_turn junk e true (0, 0) (TCPSOCKET_INTERRUPTED, None) false [])
    (fun _ m' g' => g' = g /\ connecting v m' /\ connect_state m' = 3 /\ pause m' = pause m /\ commands m' = commands m /\
       start_time (connect m') = start_time (connect m)) m g.
Proof.
  intros (Hb & Hs & Hk & Hv & Hn & Hc) Hr. unfold receive_turn. twp_step. twp_step. twp_step.
  apply (twp_mono _ (fun r m' g' => kept m m' /\ connect_state m' = 3 /\ socket m' = socket m /\ g' = g /\
    r.2 = None /\ r.1 <> SOCKET_ERROR)).
  - unfold MQTTAsync_cycle. twp_step. twp_step. twp_step.
    apply (twp_mono _ (fun r m' g' => kept m m' /\ connect_state m' = 3 /\ socket m' = socket m /\ g' = g /\
      r.2 = None /\ r.1 <> SOCKET_ERROR)).
    + rewrite (proj2 (Z.ltb_lt _ _) Hk). cbn [andb]. twp_step.
      apply (twp_mono _ (fun r m' g' => kept m m' /\ connect_state m' = 3 /\ socket m' = socket m /\ g' = g /\
        r.2 = None /\ r.1 <> SOCKET_ERROR)).
      * destruct Hs as [Hs|Hs]; rewrite Hs; cbn [Z.eqb Pos.eqb orb]; [|by twp_steps].
        twp_step. twp_call (twp_connecting e (0, 0) v); [done..|]. destruct H as [-> H]. cbn in H.
        assert (written e v = true) as Hw by (unfold written; by rewrite Hr, (proj2 (Z.eqb_neq _ _) Hn)).
        rewrite Hw in H. destruct H as (? & ? & ? & ->). twp_steps. by rewrite Hr.
      * intros [rc pack] m1 g1 (K & E1 & E2 & -> & E3 & E4). cbn [fst snd] in E3, E4. subst pack. twp_step. twp_step. twp_step.
        rewrite (proj2 (Z.eqb_neq _ _) E4), andb_false_r. cbn [when]. by twp_steps.
    + intros [rc pack] m1 g1 (K & E1 & E2 & -> & E3 & E4). twp_step. twp_call retry_kept; [apply K|].
      destruct H as (K2 & ? & ? & ->). twp_steps. split_and!; [by eapply kept_trans|congruence|congruence|done..].
  - intros [rc pack] m1 g1 ([Kb Kc Kq Kp] & E1 & E2 & -> & E3 & E4). cbn [fst snd] in E3, E4. subst pack. cbn [andb]. twp_step.
    + twp_call dispatch_nothing; [done..|]. destruct H0 as [-> ->]. split_and!; try done; [|congruence].
      split_and!; [done|auto|congruence|done|done|congruence].
    + split_and!; try done; [|congruence]. split_and!; [done|auto|congruence|done|done|congruence].
Qed.

Lemma connack_accepted e m g :
  base m -> connect_state m = 3 ->
  twp (receive_packet junk e [] (RConnack MQTTASYNC_SUCCESS))
    (fun _ m' g' => g' = (g.1, S g.2) /\ connected (c m') = 1 /\ connect_state m' = 0 /\ retrying m' = false) m g.
Proof.
  intros Hm Hs. pose proof (bs_protocol _ Hm) as [Hc Hi Ho Hw]. destruct (bs_connect _ Hm) as (v & _ & _ & Hsuc & _).
  cbn [receive_packet]. twp_step. unfold MQTTAsync_completeConnection. twp_step. twp_step. rewrite Hs. cbn [Z.eqb Pos.eqb MQTTASYNC_SUCCESS].
  do 6 twp_step. cbn beta iota. twp_step.
  apply (twp_mono _ (fun rc m' g' => rc = 0 /\ g' = g /\ connected (c m') = 1 /\ connect_state m' = 0 /\ retrying m' = false /\
    outboundMsgs (c m') = [] /\ connect m' = connect m)).
  - twp_step; [|by twp_steps]. unfold MQTTAsync_cleanSession, protocol. twp_steps.
    eapply (twp_lift _ ([], [], _)).
    + cbn [run_pop]. unfold MQTTProtocol_emptyInbound. cbn [c inboundMsgs with_conn with_retry with_net]. rewrite Hi.
      cbn [empty_loop mbind comp_bind]. unfold MQTTProtocol_emptyOutbound. cbn [outboundMsgs with_inbound with_net]. rewrite Ho.
      cbn [empty_loop mbind comp_bind]. reflexivity.
    + cbn beta iota. twp_steps. cbn [close_sessions process_publications]. unfold MQTTAsync_emptyMessageQueue, MQTTAsync_removeResponsesAndCommands.
      twp_steps. rewrite !failures_tally. by twp_steps.
  - intros rc m1 g1 (-> & -> & H1 & H2 & H3 & H4 & H5). twp_step. twp_step. rewrite H4. cbn [length]. change (0 <? Z.of_nat 0) with false. cbn iota.
    twp_step. change (0 =? MQTTASYNC_SUCCESS) with true. cbn iota. do 3 twp_step. rewrite H5, Hsuc. cbn [when]. twp_step. cbn [foldl tally]. by twp_steps.
Qed.

Lemma receive_accepted e v m g :
  connecting v m -> connect_state m = 3 ->
  twp (receive_turn junk e true (0, 0) (0, Some (RConnack MQTTASYNC_SUCCESS)) false [])
    (fun _ m' g' => g' = (g.1, S g.2) /\ connected (c m') = 1 /\ connect_state m' = 0 /\ retrying m' = false) m g.
Proof.
  intros (Hb & _ & Hk & _) Hs. unfold receive_turn. twp_step. twp_step. twp_step. unfold MQTTAsync_cycle. twp_step. twp_step.
  rewrite (proj2 (Z.ltb_lt _ _) Hk), Hs. cbn [andb orb Z.eqb Pos.eqb]. do 6 twp_step. cbn beta iota. cbn [when Z.eqb SOCKET_ERROR andb].
  rewrite andb_false_r. cbn [when cycle_packet]. twp_steps. twp_call retry_kept; [done|]. destruct H as (K & E1 & E2 & ->). twp_steps. cbn [when].
  unfold dispatch. twp_step. twp_step. rewrite E2, Z.eqb_refl, (proj2 (Z.eqb_neq _ _)) by lia. cbn [negb andb when Z.eqb SOCKET_ERROR].
  unfold deliver_queued. twp_step. twp_step. twp_step. rewrite (bs_queue _ (kp_base _ _ K)). twp_step.
  twp_call connack_accepted; [apply K|congruence|done].
Qed.

(** ** How an attempt fails *)

(** Once the CONNECT packet is out: a CONNACK that refuses, an error when
    reading, or no answer until the time is over. *)
Inductive ending :=
  | Rejected (e : answers) (k : Z)
  | Dropped (e : answers)
  | Silent (e : answers).
(** connect(), or writing CONNECT after it has returned, fails at once; the
    socket reports an error; CONNECT cannot be written; the socket does not
    become writable in time; or it is written. *)
Inductive attempt :=
  | Refused (e : answers)
  | Unreachable (e e1 : answers) (so : Z * Z)
  | Unwritten (e e1 : answers)
  | Unanswered (e e1 : answers)
  | Asked (e e1 : answers) (n : ending).

Definition ending_step (n : ending) (last : Z) : astep :=
  match n with
  | Rejected e k => AReceive e true (0, 0) (0, Some (RConnack k)) false []
  | Dropped e => AReceive e true (0, 0) (SOCKET_ERROR, None) false []
  | Silent e => ATimeouts e last
  end.
Definition attempt_steps (a : attempt) (last : Z) : list astep :=
  match a with
  | Refused e => [AProcess e]
  | Unreachable e e1 so => [AProcess e; AReceive e1 true so (0, None) false []]
  | Unwritten e e1 => [AProcess e; AReceive e1 true (0, 0) (0, None) false []]
  | Unanswered e e1 => [AProcess e; ATimeouts e1 last]
  | Asked e e1 n => [AProcess e; AReceive e1 true (0, 0) (TCPSOCKET_INTERRUPTED, None) false []; ending_step n last]
  end.

(** The turn in which the attempt ends, and the last look at the timeouts. *)
Definition ending_answers (n : ending) : answers := match n with Rejected e _ | Dropped e | Silent e => e end.
Definition until (a : attempt) : answers :=
  match a with Refused e => e | Unreachable _ e1 _ | Unwritten _ e1 | Unanswered _ e1 => e1 | Asked _ _ n => ending_answers n end.
Definition looked (a : attempt) (last : Z) : Z :=
  match a with Unanswered _ e1 => secs e1 | Asked _ _ (Silent e) => secs e | _ => last end.

Definition too_late (e : answers) (start last : Z) : Prop := 3 <= secs e - last /\ connectTimeout o * 1000 < now e - start.
Definition cut_short (rc : Z) : Prop := rc <> 0 /\ rc <> TCPSOCKET_INTERRUPTED.
Definition attempt_fails (a : attempt) (start last : Z) : Prop :=
  match a with
  | Refused e => begun e = false
  | Unreachable e e1 so => under_way e = true /\ 0 < (new_socket e).2 /\ cut_short (sockopt_error so)
  | Unwritten e e1 => under_way e = true /\ 0 < (new_socket e).2 /\ cut_short (send_rc e1)
  | Unanswered e e1 => begun e = true /\ too_late e1 start last
  | Asked e e1 n => begun e = true /\ 0 < (new_socket e).2 /\ send_rc e1 = 0 /\
      match n with Rejected _ k => k <> MQTTASYNC_SUCCESS | Dropped _ => True | Silent e2 => too_late e2 start last end
  end.

(** An attempt at version [v] that has ended at [e]: the next one is queued,
    or a longer pause has begun. *)
Definition ended (e : answers) (v : Z) (p : bool * Z * Z) (m : MQTTAsyncs) : Prop :=
  base m /\ connect_state m = 0 /\
  if v =? MQTTVERSION_3_1_1 then
    pause m = p /\ exists q, commands m = [q] /\ connect_command MQTTVERSION_3_1_1 (cmd q) /\ start_time (cmd q) = now e
  else pause m = later_pause e p /\ commands m = [].

Lemma given_up_ended e v m m' : given_up e v m m' -> commands m = [] -> ended e v (pause m) m'.
Proof.
  intros (Hb & _ & Hs & _ & H) Hn. split; [done|]. split; [done|]. destruct (_ =? _); destruct H as (H1 & H2); [|auto].
  split; [done|]. by apply H2.
Qed.

(** A given-up attempt has closed its socket, so the rest of the turn is
    nothing; what is left of the cycle is its housekeeping. *)
Lemma rest_of_cycle e v sock (rc : Z) m m1 g :
  given_up e v m m1 -> commands m = [] -> 0 < sock ->
  twp (let* _ := MQTTAsync_retry junk e false [] in mret (rc, None : option received)) (fun r m' g' => ended e v (pause m) m' /\ socket m' <> sock /\ g' = g) m1 g.
Proof.
  intros (Hb & Hc & Hs & Hk & H) Hn Hp. twp_step. twp_call retry_kept; [done|]. destruct H0 as ([Kb Kc Kq Kp] & E1 & E2 & ->).
  twp_steps. split; [|split; [lia|done]]. apply given_up_ended; [|done]. split; [done|]. rewrite Kp, Kq. split_and!; [congruence|congruence|lia|done].
Qed.

Lemma receive_fails e v so rc m g :
  connecting v m -> commands m = [] ->
  (connect_state m = 1 /\ (cut_short (sockopt_error so) \/ sockopt_error so = 0 /\ cut_short (send_rc e))) \/
  (connect_state m = 3 /\ rc = SOCKET_ERROR) ->
  twp (receive_turn junk e true so (rc, None) false []) (fun _ m' g' => ended e v (pause m) m' /\ g' = g) m g.
Proof.
  intros (Hb & _ & Hk & Hv & Hn & Hc) Hq Hf. unfold receive_turn. twp_step. twp_step. twp_step.
  apply (twp_mono _ (fun r m' g' => ended e v (pause m) m' /\ socket m' <> socket m /\ g' = g)).
  - unfold MQTTAsync_cycle. twp_step. twp_step. rewrite (proj2 (Z.ltb_lt _ _) Hk). cbn [andb]. twp_step. twp_step.
    destruct Hf as [[Hs Hf]|[Hs ->]]; rewrite Hs; cbn [Z.eqb Pos.eqb orb].
    + twp_step. twp_call (twp_connecting e so v); [done..|]. destruct H as [-> H].
      assert (given_up e v m m') as Hg.
      { unfold cut_short, written in *. destruct Hf as [[H1 H2]|[H1 [H2 H3]]].
        - by rewrite (proj2 (Z.eqb_neq _ _) H1), (proj2 (Z.eqb_neq _ _) H2) in H.
        - rewrite H1, (proj2 (Z.eqb_neq _ _) H2), (proj2 (Z.eqb_neq _ _) H3), andb_false_r in H. done. }
      twp_step. cbn beta iota. do 3 twp_step. assert (connect_state m' = 0) as -> by apply Hg. cbn [Z.eqb andb when]. twp_step. twp_step. cbn beta iota.
      by apply rest_of_cycle with (v := v) (m := m).
    + do 4 twp_step. rewrite Hs. cbn [Z.eqb Pos.eqb SOCKET_ERROR andb when]. twp_call (twp_nextOrClose e MQTTASYNC_FAILURE v); [done..|].
      destruct H as [Hg ->]. twp_step. cbn beta iota. by apply rest_of_cycle with (v := v) (m := m).
  - intros [rc' pack] m1 g1 (He & Hne & ->). twp_step; [|done]. unfold dispatch. twp_step. twp_step.
    rewrite (proj2 (Z.eqb_neq _ _) Hne), andb_false_r. cbn [when]. by twp_steps.
Qed.

Lemma receive_rejected e v k m g :
  connecting v m -> commands m = [] -> connect_state m = 3 -> k <> MQTTASYNC_SUCCESS ->
  twp (receive_turn junk e true (0, 0) (0, Some (RConnack k)) false []) (fun _ m' g' => ended e v (pause m) m' /\ g' = g) m g.
Proof.
  intros (Hb & _ & Hk & Hv & Hn & Hc) Hq Hs Hne. unfold receive_turn. twp_step. twp_step. twp_step. unfold MQTTAsync_cycle. twp_step. twp_step.
  rewrite (proj2 (Z.ltb_lt _ _) Hk), Hs. cbn [andb orb Z.eqb Pos.eqb]. do 6 twp_step. cbn beta iota. cbn [when Z.eqb SOCKET_ERROR andb].
  rewrite andb_false_r. cbn [when cycle_packet]. twp_steps. twp_call retry_kept; [done|].
  destruct H as ([Kb Kc Kq Kp] & E1 & E2 & ->). twp_steps. cbn [when].
  unfold dispatch. twp_step. twp_step. rewrite E2, Z.eqb_refl, (proj2 (Z.eqb_neq _ _)) by lia. cbn [negb andb when Z.eqb SOCKET_ERROR].
  unfold deliver_queued. twp_step. twp_step. twp_step. rewrite (bs_queue _ Kb). twp_step. cbn [receive_packet]. twp_step.
  unfold MQTTAsync_completeConnection. twp_step. twp_step. rewrite E1, Hs. cbn [Z.eqb Pos.eqb]. rewrite (proj2 (Z.eqb_neq _ _) Hne). twp_step.
  rewrite (proj2 (Z.eqb_neq _ _) Hne). twp_call (twp_nextOrClose e k v); [done|by rewrite Kc|]. destruct H as [Hg ->]. split; [|done].
  rewrite <- Kp. apply given_up_ended; [done|congruence].
Qed.

Lemma twp_ignore {A} (a : act A) (Q : MQTTAsyncs -> nat * nat -> Prop) m g :
  twp a (fun _ => Q) m g -> twp (ignore a) (fun _ => Q) m g.
Proof. intros H. unfold ignore. twp_step. twp_call H. by twp_steps. Qed.
Lemma twp_arun_cons s l Q m g : twp (run_astep junk s) (fun _ => twp (arun junk l) Q) m g -> twp (arun junk (s :: l)) Q m g.
Proof. intros H. cbn [arun]. twp_step. by twp_call H. Qed.
Lemma twp_arun_app l k Q m g : twp (arun junk l) (fun _ => twp (arun junk k) Q) m g -> twp (arun junk (l ++ k)) Q m g.
Proof.
  revert m g. induction l as [|s l IH]; intros m g H; [exact H|]. apply twp_arun_cons. unfold twp in H |- * at 1. cbn [arun] in H.
  unfold mbind, act_bind in H. destruct (run_astep junk s m) as [[[u o1] m1]|]; [|done]. destruct u. apply IH. unfold twp.
  destruct (arun junk l m1) as [[[u o2] m2]|]; [|done]. destruct u. by rewrite foldl_app in H.
Qed.
Lemma twp_arun_one s Q m g : twp (run_astep junk s) (fun _ m' g' => Q tt m' g') m g -> twp (arun junk [s]) Q m g.
Proof. intros H. apply twp_arun_cons. by twp_call H. Qed.

Lemma look_too_late e last v m g :
  base m -> connect_state m = 1 \/ connect_state m = 3 -> connect_command v (connect m) -> commands m = [] ->
  too_late e (start_time (connect m)) last ->
  twp (ignore (MQTTAsync_checkTimeouts junk e last)) (fun _ m' g' => ended e v (pause m) m' /\ g' = g) m g.
Proof.
  intros Hb Hs Hc Hq [H1 H2]. apply twp_ignore. twp_call (twp_checkTimeouts e last v); [done|lia|done|].
  destruct H as [-> H]. rewrite (proj2 (Z.ltb_ge _ _)) in H by lia.
  assert (timed_out e m = true) as Ht.
  { unfold timed_out. rewrite (proj2 (Z.eqb_neq _ _)) by lia. by apply Z.ltb_lt. }
  rewrite Ht in H. split; [|done]. by apply given_up_ended.
Qed.

(** The attempts that do not fail at once. *)
Definition pending (e : answers) (v start : Z) (p : bool * Z * Z) (m : MQTTAsyncs) : Prop :=
  base m /\ connect_state m = (if under_way e then 1 else 3) /\ socket m = (new_socket e).2 /\ commands m = [] /\ pause m = p /\
  version_state v /\ v <> 0 /\ connect_command v (connect m) /\ start_time (connect m) = start.

Lemma pending_connecting e v start p m : pending e v start p m -> 0 < (new_socket e).2 -> connecting v m.
Proof.
  intros (Hb & Hs & Hk & _ & _ & Hv & Hn & Hc & _) Hp. split_and!; try done; [|by rewrite Hk].
  rewrite Hs. destruct (under_way e); auto.
Qed.

Lemma begun_under_way e : under_way e = true -> begun e = true.
Proof. unfold begun. by intros ->. Qed.

Lemma process_pending e q v m g :
  base m -> connect_state m = 0 -> commands m = [q] -> version_state v -> connect_command v (cmd q) -> begun e = true ->
  twp (ignore (MQTTAsync_processCommand junk e))
    (fun _ m' g' => pending e (next_version v) (start_time (cmd q)) (pause m) m' /\ g' = (S g.1, g.2)) m g.
Proof.
  intros Hb Hs Hq Hv Hc He. apply twp_ignore. twp_call (twp_process e q v); [done..|]. destruct H as [Hb' H]. rewrite Hs, He in H.
  destruct H as (-> & ? & ? & ? & ? & ? & ?). split; [|done]. split_and!; try done; [by apply next_version_state|].
  by destruct Hv as [->|[->| ->]].
Qed.

Lemma asked_ends e e1 n v start last p m g :
  pending e v start p m -> 0 < (new_socket e).2 -> send_rc e1 = 0 ->
  match n with Rejected _ k => k <> MQTTASYNC_SUCCESS | Dropped _ => True | Silent e2 => too_late e2 start last end ->
  twp (arun junk [AReceive e1 true (0, 0) (TCPSOCKET_INTERRUPTED, None) false []; ending_step n last])
    (fun _ m' g' => ended (ending_answers n) v p m' /\ g' = g) m g.
Proof.
  intros Hp Hk Hr Hn. pose proof Hp as (_ & _ & _ & Hq & <- & _ & _ & _ & Hst). apply twp_arun_cons.
  twp_call receive_writable; [by eapply pending_connecting|done|]. destruct H as (-> & Hc & Hs & Hpa & Hq' & Hst').
  apply twp_arun_one. rewrite <- Hpa. destruct n as [e2 k|e2|e2]; cbn [ending_step run_astep ending_answers].
  - apply receive_rejected; [done|congruence|done|done].
  - apply receive_fails; [done|congruence|by right].
  - apply look_too_late; [apply Hc..|congruence|by rewrite Hst', Hst].
Qed.

Lemma attempt_ended a q v last m g :
  base m -> connect_state m = 0 -> commands m = [q] -> version_state v -> connect_command v (cmd q) ->
  attempt_fails a (start_time (cmd q)) last ->
  twp (arun junk (attempt_steps a last)) (fun _ m' g' => ended (until a) (next_version v) (pause m) m' /\ g' = (S g.1, g.2)) m g.
Proof.
  intros Hb Hs Hq Hv Hc Hf. destruct a as [e|e e1 so|e e1|e e1|e e1 n]; cbn [attempt_steps attempt_fails until] in *; apply twp_arun_cons.
  1: { cbn [run_astep]. apply twp_ignore. twp_call (twp_process e q v); [done..|]. destruct H as [Hb' H]. rewrite Hs, Hf in H.
       destruct H as (-> & Hst & H). cbn [arun]. twp_step. by split. }
  all: twp_call process_pending; [done..|by (apply Hf || apply begun_under_way, Hf)|]; destruct H as [Hp ->];
    pose proof Hp as (Hb' & Hst & Hk & Hq' & <- & Hv' & Hn & Hc' & Hst').
  - destruct Hf as (Hu & Hp0 & Hso). apply twp_arun_one, receive_fails; [by eapply pending_connecting|done|]. rewrite Hu in Hst. auto.
  - destruct Hf as (Hu & Hp0 & Hso). apply twp_arun_one, receive_fails; [by eapply pending_connecting|done|]. rewrite Hu in Hst. auto.
  - destruct Hf as (Hu & Ht). apply twp_arun_one. rewrite <- Hst' in Ht. apply look_too_late; [done| |done..].
    rewrite Hst. destruct (under_way e); auto.
  - destruct Hf as (Hu & Hp0 & Hr & Hn0). by eapply asked_ends.
Qed.

(** ** Rounds: a look after the pause, and the attempts at both versions *)

Record round := { rd_look : answers; rd_first : attempt; rd_second : attempt }.
Definition round_steps (r : round) (last : Z) : list astep :=
  ATimeouts (rd_look r) last :: attempt_steps (rd_first r) (secs (rd_look r)) ++
    attempt_steps (rd_second r) (looked (rd_first r) (secs (rd_look r))).
Definition round_end (r : round) : Z := now (until (rd_second r)).
Definition round_looked (r : round) : Z := looked (rd_second r) (looked (rd_first r) (secs (rd_look r))).
Definition round_fails (r : round) (last i t : Z) : Prop :=
  3 <= secs (rd_look r) - last /\ i * 1000 < now (rd_look r) - t /\
  attempt_fails (rd_first r) (now (rd_look r)) (secs (rd_look r)) /\
  attempt_fails (rd_second r) (now (until (rd_first r))) (looked (rd_first r) (secs (rd_look r))).

Fixpoint rounds_steps (rs : list round) (last : Z) : list astep :=
  match rs with [] => [] | r :: rs => round_steps r last ++ rounds_steps rs (round_looked r) end.
Fixpoint rounds_fail (rs : list round) (last i t : Z) : Prop :=
  match rs with
  | [] => True
  | r :: rs => round_fails r last i t /\ rounds_fail rs (round_looked r) (Z.min (i * 2) (maxRetryInterval o)) (round_end r)
  end.
Fixpoint rounds_end (rs : list round) (t : Z) : Z := match rs with [] => t | r :: rs => rounds_end rs (round_end r) end.

(** A client that pauses [i] seconds from [t]. *)
Definition waiting (m : MQTTAsyncs) (i t : Z) : Prop :=
  base m /\ connect_state m = 0 /\ commands m = [] /\ pause m = (true, i, t).

Lemma waiting_striving m i t : waiting m i t -> striving m.
Proof. intros (Hb & Hs & _ & [= Hr _ _]). split; [done|by left|by left]. Qed.

Lemma round_waits r m last i t g :
  waiting m i t -> round_fails r last i t -> 0 < i < 2 ^ 30 ->
  twp (arun junk (round_steps r last))
    (fun _ m' g' => waiting m' (Z.min (i * 2) (maxRetryInterval o)) (round_end r) /\ g' = (S (S g.1), g.2)) m g.
Proof.
  intros (Hb & Hs & Hq & Hp) (Hl & Hi & Hf1 & Hf2) Hr. destruct (bs_connect _ Hb) as (v & _ & Hc). pose proof Hp as Hp'. injection Hp' as Hre Hin Hla.
  unfold round_steps. apply twp_arun_cons. cbn [run_astep]. apply twp_ignore. twp_call (twp_checkTimeouts (rd_look r) last v); [done|lia|done|].
  destruct H as [-> H]. rewrite (proj2 (Z.ltb_ge _ _)) in H by lia. unfold timed_out in H. rewrite Hs in H. cbn [Z.eqb negb andb] in H.
  assert (pause_over (rd_look r) m = true) as Hov.
  { unfold pause_over. rewrite Hre, Hin, Hla. apply orb_true_iff. right. by apply Z.ltb_lt. }
  rewrite Hov in H. destruct H as (Hb1 & _ & Hp1 & Hs1 & _ & _ & H). destruct (H Hq eq_refl) as (q & Hq1 & Hc1 & Ht1).
  apply twp_arun_app. twp_call (attempt_ended (rd_first r) q 0); [done|done|done|by left|done|by rewrite Ht1|].
  destruct H0 as [(Hb2 & Hs2 & Hp2 & q2 & Hq2 & Hc2 & Ht2) ->].
  twp_call (attempt_ended (rd_second r) q2 MQTTVERSION_3_1_1); [done|done|done|by right; right|done|by rewrite Ht2|].
  destruct H0 as [(Hb3 & Hs3 & Hp3 & Hq3) ->]. split; [|done]. split_and!; [done..|].
  rewrite Hp3, Hp2, Hp1, Hp. unfold later_pause. cbn [fst snd]. rewrite to_int_id; [done|]. unfold is_int, INT_MIN, INT_MAX. lia.
Qed.

Definition longer (i most : Z) (k : nat) : Z := Z.min (i * 2 ^ Z.of_nat k) most.

Lemma longer_S i most k : 0 < i <= most -> longer (Z.min (i * 2) most) most k = longer i most (S k).
Proof.
  intros Hi. unfold longer. rewrite Nat2Z.inj_succ, Z.pow_succ_r by lia.
  assert (0 < 2 ^ Z.of_nat k) by (apply Z.pow_pos_nonneg; lia). nia.
Qed.

Lemma rounds_wait rs m last i t g :
  waiting m i t -> rounds_fail rs last i t -> 0 < i <= maxRetryInterval o -> maxRetryInterval o < 2 ^ 30 ->
  twp (arun junk (rounds_steps rs last))
    (fun _ m' g' => waiting m' (longer i (maxRetryInterval o) (length rs)) (rounds_end rs t) /\ g' = (g.1 + 2 * length rs, g.2)%nat) m g.
Proof.
  revert m last i t g. induction rs as [|r rs IH]; intros m last i t g Hw Hf Hi Hm; cbn [rounds_steps rounds_fail rounds_end length] in *.
  - cbn [arun]. twp_step. split; [|destruct g; cbn; f_equal; lia]. unfold longer. cbn. by rewrite Z.mul_1_r, Z.min_l by lia.
  - destruct Hf as [Hf Hfs]. apply twp_arun_app. twp_call round_waits; [done..|lia|]. destruct H as [Hw' ->].
    twp_call IH; [done|done|lia|done|]. destruct H as [Hw2 ->]. rewrite longer_S in Hw2 by done. split; [done|]. cbn. f_equal. lia.
Qed.

(** C25: a client of the hub that waits for its next attempt makes, at a look
    at the timeouts after the pause, one attempt for each of the two protocol
    versions, in whatever way the attempts fail - connect() or writing CONNECT
    at once, the error of the socket or writing when it becomes writable, a
    CONNACK that refuses, an error when reading, no progress before the connect
    timeout - and however often: the pause, counted from the end of the second
    attempt, doubles every time and stays at the largest interval once it is
    reached.  The only looks in between are those that end an attempt. *)
Theorem retry_backoff rs m last i t :
  waiting m i t -> rounds_fail rs last i t -> 0 < i <= maxRetryInterval o -> maxRetryInterval o < 2 ^ 30 ->
  exists outs m', arun junk (rounds_steps rs last) m = Ret (tt, outs, m') /\
    count opens outs = (2 * length rs)%nat /\ count connects outs = 0%nat /\
    currentInterval m' = Z.min (i * 2 ^ Z.of_nat (length rs)) (maxRetryInterval o) /\
    lastConnectionFailedTime m' = rounds_end rs t /\ retrying m' = true /\ connected (c m') = 0 /\ connect_state m' = 0.
Proof.
  intros Hw Hf Hi Hm. destruct (twp_returns _ _ _ (rounds_wait rs m last i t _ Hw Hf Hi Hm)) as ([] & outs & m' & E & (Hb & Hs & _ & Hp) & [= H1 H2]).
  injection Hp as Hr Hin Ht. exists outs, m'. split_and!; [done|by rewrite H1|done..|apply Hb|done].
Qed.

Lemma recovery_connects last e1 e2 e3 e4 e5 m g :
  striving m -> overdue e1 last m -> longest_pause e1 e2 -> reachable e3 e4 ->
  twp (arun junk (recovery last e1 e2 e3 e4 e5))
    (fun _ m' g' => g' = (S g.1, S g.2) /\ connected (c m') = 1 /\ connect_state m' = 0 /\ retrying m' = false) m g.
Proof.
  intros Hm Ho Hl (He & Hk & Hr). unfold recovery. apply twp_arun_cons. cbn [run_astep]. apply twp_ignore.
  twp_call look_overdue; [done..|]. destruct H as (-> & Hb1 & Hs1 & Ha1). apply twp_arun_cons. cbn [run_astep]. apply twp_ignore.
  twp_call look_again; [done..|]. destruct H as (-> & Hb2 & Hs2 & Ha2). apply twp_arun_cons. cbn [run_astep]. apply twp_ignore.
  twp_call process_begins; [done..|]. destruct H as (-> & v & Hc). apply twp_arun_cons. cbn [run_astep].
  twp_call receive_writable; [done..|]. destruct H as (-> & Hc' & Hs' & _). apply twp_arun_one. cbn [run_astep].
  by twp_call receive_accepted.
Qed.

(** C7: however the server stays away - the threads run in any order, connect()
    fails, is under way or returns, sockets report errors, writes fail, the
    CONNACK refuses or does not come, and the timeouts are looked at whenever
    they are -, a client that is trying to connect never faults, never stops
    trying, and is connected when the server is back: a look after the time
    limits, another after the longest pause, one attempt whose socket becomes
    writable and the CONNACK connect the client and tell the application once. *)
Theorem reconnects l m :
  striving m -> Forall outage_step l ->
  exists outs m', arun junk l m = Ret (tt, outs, m') /\ count connects outs = 0%nat /\ striving m' /\
    forall last e1 e2 e3 e4 e5, overdue e1 last m' -> longest_pause e1 e2 -> reachable e3 e4 ->
    exists outs' m'', arun junk (recovery last e1 e2 e3 e4 e5) m' = Ret (tt, outs', m'') /\
      connected (c m'') = 1 /\ connect_state m'' = 0 /\ retrying m'' = false /\
      count opens outs' = 1%nat /\ count connects outs' = 1%nat.
Proof.
  intros Hm Hl. destruct (twp_returns _ _ _ (striving_run l m Hm Hl _)) as ([] & outs & m' & E & Hm' & Ec).
  exists outs, m'. split_and!; [done..|]. intros last e1 e2 e3 e4 e5 Ho Hp Hr.
  destruct (twp_returns _ _ _ (recovery_connects last e1 e2 e3 e4 e5 m' _ Hm' Ho Hp Hr)) as ([] & outs' & m'' & E' & [= H1 H2] & ? & ? & ?).
  by exists outs', m''.
Qed.
End outage.

(** ** Concrete outages *)

(** The hub's options, and the answers at a second: connect() has the result
    [rc]. *)
Definition hub_connect : connectOptions :=
  {| o_struct_ok := true; o_version := 5; o_will := None; o_ssl := None; o_username := None; o_password := None; o_binarypwd := None;
     o_keepAliveInterval := 10; o_cleansession := false; o_MQTTVersion := 0; o_automaticReconnect := true; o_minRetryInterval := 10;
     o_maxRetryInterval := 60; o_retryInterval := 0; o_connectTimeout := 10; o_serverURIs := []; o_on_success := true;
     o_on_failure := true |}.
Definition at_second (n rc : Z) : answers :=
  {| now := n * 1000; secs := n; idle := true; new_socket := (rc, 7); send_rc := 0; signal := 0; accepts := true |}.
Definition created (uri id : string) (l : list astep) : comp (unit * list output * MQTTAsyncs) :=
  let* (_, m) := MQTTAsync_create (Some uri) (Some id) in
  match m with Some m => arun 0 l m | None => Err NullDeref end.

(** The first attempt of a new client is under way; its socket reports an
    error, so does the next connect(), the first pause begins and the attempt
    after it gets no answer. *)
Definition first_attempt : list astep := [AConnect (at_second 1 0) hub_connect; AProcess (at_second 1 EINPROGRESS)].
Definition outage0 : list astep :=
  [AReceive (at_second 2 0) true (0, 111) (0, None) false []; AProcess (at_second 2 111);
   ATimeouts (at_second 5 0) 0; ATimeouts (at_second 15 0) 5; AProcess (at_second 15 EINPROGRESS)].


Definition hub_client_options : options :=
  {| cl := false; ma := false; dc := false; connected_cb := false; createOptions := None; automaticReconnect := true;
     minRetryInterval := 10; maxRetryInterval := 60; connectTimeout := 10; serverURI := "b:1883"; serverURIs := [];
     cleansession := false; MQTTVersion := 0; username := NoString; password := NoString; will := None |}.
Definition hub_state (s sock start v : Z) (p : bool * Z * Z) : MQTTAsyncs :=
  {| c := with_net (keepalive_of new_client 10 0) 1 0 0;
     opts := hub_client_options; connect_state := s; socket := sock; messageQueue := [];
     connect := {| type := CONNECT; on_success := true; on_failure := true; token := 0; start_time := start; det := Conn 0 v |};
     disconnect := no_command; pending_write := None; responses := []; shouldBeConnected := true; currentInterval := p.1.2;
     lastConnectionFailedTime := p.2; retrying := p.1.1; reconnectNow := false; commands := []; next_addr := 2%positive |}.

Lemma hub_state_base s sock start v p : version_state v -> base hub_client_options (hub_state s sock start v p).
Proof. intros Hv. constructor; try done; [by exists v|by left]. Qed.

Lemma reconnects_witness :
  created "b:1883" "id" first_attempt = Ret (tt, [OpenSocket "b:1883"], hub_state 1 7 1000 4 (false, 0, 0)) /\
  exists outs m', arun 0 outage0 (hub_state 1 7 1000 4 (false, 0, 0)) = Ret (tt, outs, m') /\ connect_state m' = 1 /\
  exists outs' m'', arun 0 (recovery 15 (at_second 40 0) (at_second 101 0) (at_second 101 EINPROGRESS) (at_second 102 0) (at_second 102 0)) m' = Ret (tt, outs', m'')
    /\ connected (c m'') = 1 /\ count connects outs' = 1%nat.
Proof.
  split; [vm_compute; reflexivity|].
  destruct (reconnects 0 hub_client_options eq_refl eq_refl eq_refl ltac:(done) ltac:(done) outage0 (hub_state 1 7 1000 4 (false, 0, 0)))
    as (outs & m' & E & _ & _ & H).
  - split; [apply hub_state_base; by right; right|by right; left|by right; left].
  - repeat constructor.
  - vm_compute in E. injection E as <- <-. eexists _, _. split; [vm_compute; reflexivity|]. split; [reflexivity|].
    destruct (H 15 (at_second 40 0) (at_second 101 0) (at_second 101 EINPROGRESS) (at_second 102 0) (at_second 102 0))
      as (outs' & m'' & E' & ? & _ & _ & _ & ?); [repeat split; by vm_compute..|].
    by exists outs', m''.
Defined.

(** Two rounds: refused, then an error of the socket; refused by the CONNACK,
    then silence. *)
Definition rounds0 : list round :=
  [{| rd_look := at_second 13 0; rd_first := Refused (at_second 13 111);
      rd_second := Unreachable (at_second 13 EINPROGRESS) (at_second 14 0) (0, 111) |};
   {| rd_look := at_second 35 0; rd_first := Asked (at_second 35 EINPROGRESS) (at_second 36 0) (Rejected (at_second 36 0) 3);
      rd_second := Asked (at_second 36 EINPROGRESS) (at_second 37 0) (Silent (at_second 47 0)) |}].

Lemma retry_backoff_witness :
  exists outs m', arun 0 (rounds_steps rounds0 0) (hub_state 0 0 0 3 (true, 10, 2000)) = Ret (tt, outs, m') /\
    count opens outs = 4%nat /\ currentInterval m' = 40 /\ lastConnectionFailedTime m' = 47000.
Proof.
  destruct (retry_backoff 0 hub_client_options eq_refl eq_refl eq_refl ltac:(done) ltac:(done) rounds0 (hub_state 0 0 0 3 (true, 10, 2000)) 0 10 2000)
    as (outs & m' & E & Ho & _ & Hi & Ht & _).
  - split; [apply hub_state_base; by right; left|done].
  - cbn. unfold round_fails, cut_short, too_late. cbn. repeat split; done || lia.
  - cbn. lia.
  - cbn. lia.
  - exists outs, m'. by split_and!.
Defined.

(** ** A connection that takes longer than the next look

    The pause is over as long as an attempt has not failed, so that a look
    during the attempt puts the CONNECT command back, with version 0; when it
    is carried out the attempt under way has that version, and its CONNECT
    packet is not written. *)
Definition sent_connect (o : output) : bool := match o with SentConnect _ => true | _ => false end.

Lemma slow_connection_given_up :
  exists outs m', arun 0
      [ATimeouts (at_second 13 0) 0; AProcess (at_second 13 EINPROGRESS); ATimeouts (at_second 16 0) 13; AProcess (at_second 16 0);
       AReceive (at_second 17 0) true (0, 0) (0, None) false []] (hub_state 0 0 0 3 (true, 10, 2000)) = Ret (tt, outs, m') /\
    count sent_connect outs = 0%nat /\ connect_state m' = 0 /\ pause m' = (true, 20, 17000).
Proof. eexists _, _. split; [vm_compute; reflexivity|]. by split_and!. Qed.
