(* ===== verification/MqttWrapper.v ===== *)
(** * The MQTT client wrapper (hub-app/source/mqttclientwrapper.c)

    The status record, the callbacks the asynchronous MQTT client runs and the
    functions the rest of the hub calls.  The client library is vendored: its
    answers are arguments, and the calls made to it are listed as [action]s.
    Each handler is one step; its critical sections follow each other without
    another handler reading the status in between. *)

From Stdlib Require Import Ascii.
From S2P Require Import Prelude CString StringUtils SendReqParser Cipher PayloadAes.

Local Open Scope Z_scope.

Definition MQTTASYNC_SUCCESS : Z := 0.
Definition MQTTASYNC_FAILURE : Z := -1.
Definition MQTTASYNC_PERSISTENCE_ERROR : Z := -2.
Definition MQTTASYNC_DISCONNECTED : Z := -3.
Definition MQTTASYNC_MAX_MESSAGES_INFLIGHT : Z := -4.
Definition MQTTASYNC_BAD_UTF8_STRING : Z := -5.
Definition MQTTASYNC_NULL_PARAMETER : Z := -6.
Definition MQTTASYNC_BAD_STRUCTURE : Z := -8.
Definition MQTTASYNC_BAD_QOS : Z := -9.
Definition MQTTASYNC_NO_MORE_MSGIDS : Z := -10.
Definition MQTTASYNC_OPERATION_INCOMPLETE : Z := -11.
Definition MQTTASYNC_MAX_BUFFERED_MESSAGES : Z := -12.

Definition MAXQOS : Z := 2.
Definition DEFAULT_SEND_MSG_QOS : Z := QOS0.
Definition DEFAULT_SUBSCRIBE_QOS : Z := MAXQOS.

(** [client] is whether the handle is set; the callbacks are whether they are
    set. *)
Record MQTTClientStatus := {
  client : bool;
  connected : bool;
  hasEverConnected : bool;
  subscribed : bool;
  messageReceivedCallback : bool;
  connectedCallback : bool
}.

Definition mqttClientStatus0 : MQTTClientStatus :=
  {| client := false; connected := false; hasEverConnected := false; subscribed := false;
     messageReceivedCallback := false; connectedCallback := false |}.

Definition set_connected (s : MQTTClientStatus) (b : bool) : MQTTClientStatus :=
  {| client := client s; connected := b; hasEverConnected := hasEverConnected s; subscribed := subscribed s;
     messageReceivedCallback := messageReceivedCallback s; connectedCallback := connectedCallback s |}.
Definition set_subscribed (s : MQTTClientStatus) (b : bool) : MQTTClientStatus :=
  {| client := client s; connected := connected s; hasEverConnected := hasEverConnected s; subscribed := b;
     messageReceivedCallback := messageReceivedCallback s; connectedCallback := connectedCallback s |}.
Definition set_ever_connected (s : MQTTClientStatus) : MQTTClientStatus :=
  {| client := client s; connected := connected s; hasEverConnected := true; subscribed := subscribed s;
     messageReceivedCallback := messageReceivedCallback s; connectedCallback := connectedCallback s |}.
Definition set_client (s : MQTTClientStatus) (b : bool) : MQTTClientStatus :=
  {| client := b; connected := connected s; hasEverConnected := hasEverConnected s; subscribed := subscribed s;
     messageReceivedCallback := messageReceivedCallback s; connectedCallback := connectedCallback s |}.

(** What a handler does to its surroundings, in order. *)
Inductive action :=
  | ConnectedCallback
  | SubscribeMany (topics : list string) (qos : list Z)
  | Connect (will_topic will_message : string) (will_qos : Z)
  | Disconnect
  | Destroy
  | Create (clientId : string)
  | Deliver (topicName : string) (payload : list Z).

(** ** Identity *)
Definition get_client_id (g_ClientId : string) : comp string :=
  if string_is_empty (Some g_ClientId) then
    if string_is_empty (Some get_device_sn) then Ret g_ClientId
    else write_buf 48 ("MQTTCLIENT-" +:+ get_device_sn)
  else Ret g_ClientId.

(** ** Subscribing *)
Definition MQTTClientWrapper_subscribe (rc : Z) : comp (Z * list action) :=
  let* topic1 := write_buf 128 "hub/cmd/ALL" in
  let* topic2 := write_buf 128 ("hub/cmd" +:+ "/" +:+ get_device_sn) in
  Ret (if rc =? MQTTASYNC_SUCCESS then SUCCESS else FAILURE,
       [SubscribeMany [topic1; topic2] [DEFAULT_SUBSCRIBE_QOS; DEFAULT_SUBSCRIBE_QOS]]).

(** ** Callbacks of the client *)

(** [sub_rc] is what the subscribe call will return. *)
Definition on_connect (s : MQTTClientStatus) (sub_rc : Z) : comp (MQTTClientStatus * list action) :=
  if connected s then Ret (s, [])
  else
    let s := set_ever_connected (set_connected s true) in
    let* (_, acts) := MQTTClientWrapper_subscribe sub_rc in
    Ret (s, (if connectedCallback s then [ConnectedCallback] else []) ++ acts).

Definition on_connect_failure (s : MQTTClientStatus) : MQTTClientStatus := set_connected s false.
Definition on_disconnect (s : MQTTClientStatus) : MQTTClientStatus := set_subscribed (set_connected s false) false.
Definition on_disconnect_failure (s : MQTTClientStatus) : MQTTClientStatus := s.
Definition on_connection_lost (s : MQTTClientStatus) : MQTTClientStatus := set_subscribed (set_connected s false) false.
Definition on_message_send (s : MQTTClientStatus) : MQTTClientStatus := s.
Definition on_messasge_send_failure (s : MQTTClientStatus) : MQTTClientStatus := s.
Definition on_subscribe (s : MQTTClientStatus) : MQTTClientStatus := set_subscribed s true.
Definition on_subscribe_failure (s : MQTTClientStatus) : MQTTClientStatus := set_subscribed s false.

(** [payload] is [None] for a null message or a null payload. *)
Definition message_arrived (s : MQTTClientStatus) (topicName : option string) (topicLen : Z)
    (payload : option (list Z)) (payloadlen : Z) : Z * list action :=
  (1, match topicName, payload with
      | Some t, Some p =>
          if messageReceivedCallback s && (0 <? topicLen) && negb (payloadlen =? 0)
          then [Deliver t (take (Z.to_nat payloadlen) p)] else []
      | _, _ => []
      end).

(** ** Functions of the wrapper *)

(** [create_rc] and [handle] are the result of MQTTAsync_create and whether it
    left a handle. *)
Definition MQTTClientWrapper_init (s : MQTTClientStatus) (g_ClientId : string) (create_rc : Z) (handle : bool)
    : comp (MQTTClientStatus * Z * list action) :=
  let acts := if client s then [Destroy] else [] in
  let s := set_client s false in
  let* clientId := get_client_id g_ClientId in
  if string_is_empty (Some clientId) then Ret (s, FAILURE, acts)
  else
    let acts := acts ++ [Create clientId] in
    let s := set_client s handle in
    if negb (create_rc =? MQTTASYNC_SUCCESS) then Ret (s, create_rc, acts)
    else Ret (s, SUCCESS, acts).

Definition MQTTClientWrapper_connect (s : MQTTClientStatus) (connect_rc : Z)
    : comp (MQTTClientStatus * Z * list action) :=
  if negb (client s) then Ret (s, FAILURE, [])
  else
    let* willMessage := write_buf 64 ("{" +:+ String DQUOTE "sn" +:+ String DQUOTE ":" +:+ String DQUOTE get_device_sn
                                        +:+ String DQUOTE "}") in
    let acts := [Connect "hub/offline" willMessage MAXQOS] in
    if connect_rc =? MQTTASYNC_SUCCESS then Ret (s, SUCCESS, acts)
    else Ret (set_connected s false, FAILURE, acts).

Definition MQTTClientWrapper_isConnected (s : MQTTClientStatus) : bool :=
  if negb (client s) then false else connected s.
Definition MQTTClientWrapper_hasEverConnected (s : MQTTClientStatus) : bool := hasEverConnected s.
Definition MQTTClientWrapper_isSubscribed (s : MQTTClientStatus) : bool := subscribed s.

Definition MQTTClientWrapper_setMessageReceivedCallback (s : MQTTClientStatus) (set : bool) : MQTTClientStatus :=
  {| client := client s; connected := connected s; hasEverConnected := hasEverConnected s; subscribed := subscribed s;
     messageReceivedCallback := set; connectedCallback := connectedCallback s |}.
Definition MQTTClientWrapper_setConnectedCallback (s : MQTTClientStatus) (set : bool) : MQTTClientStatus :=
  {| client := client s; connected := connected s; hasEverConnected := hasEverConnected s; subscribed := subscribed s;
     messageReceivedCallback := messageReceivedCallback s; connectedCallback := set |}.

Definition MQTTClientWrapper_disconnect (s : MQTTClientStatus) (rc : Z) : Z * list action :=
  if MQTTClientWrapper_isConnected s then
    (if rc =? MQTTASYNC_SUCCESS then SUCCESS else FAILURE, [Disconnect])
  else (SUCCESS, []).

Definition MQTTClientWrapper_deinit (s : MQTTClientStatus) : MQTTClientStatus * list action :=
  if client s then (set_client s false, [Destroy]) else (s, []).

(** The last branch prints through the error code itself, taken as the
    address of a buffer. *)
Definition MQTTClientWrapper_errorDescription (mqttErrorCode : Z) : comp string :=
  if mqttErrorCode =? MQTTASYNC_SUCCESS then Ret "SUCCESS"
  else if mqttErrorCode =? MQTTASYNC_FAILURE then Ret "FAILURE"
  else if mqttErrorCode =? MQTTASYNC_PERSISTENCE_ERROR then Ret "PERSISTENCE_ERROR"
  else if mqttErrorCode =? MQTTASYNC_DISCONNECTED then Ret "DISCONNECTED"
  else if mqttErrorCode =? MQTTASYNC_MAX_MESSAGES_INFLIGHT then Ret "MAX_MESSAGES_INFLIGHT"
  else if mqttErrorCode =? MQTTASYNC_BAD_UTF8_STRING then Ret "BAD_UTF8_STRING"
  else if mqttErrorCode =? MQTTASYNC_NULL_PARAMETER then Ret "NULL_PARAMETER"
  else if mqttErrorCode =? MQTTASYNC_BAD_STRUCTURE then Ret "BAD_STRUCTURE"
  else if mqttErrorCode =? MQTTASYNC_BAD_QOS then Ret "BAD_QOS"
  else if mqttErrorCode =? MQTTASYNC_NO_MORE_MSGIDS then Ret "NO_MORE_MSGIDS"
  else if mqttErrorCode =? MQTTASYNC_OPERATION_INCOMPLETE then Ret "OPERATION_INCOMPLETE"
  else if mqttErrorCode =? MQTTASYNC_MAX_BUFFERED_MESSAGES then Ret "MAX_BUFFERED_MESSAGES"
  else Err OutOfBounds.

(** ** Sending *)
Record MQTTAsync_message := { m_payload : list Z; m_qos : Z; m_retained : Z }.

Section send.
Variable cbc_encrypt : list Z -> list Z -> list Z -> option (list Z).
Variable cbc_key : list Z.
Variable rand : Z -> nat -> Z.
(** The answer of MQTTAsync_sendMessage. *)
Variable MQTTAsync_sendMessage : string -> MQTTAsync_message -> Z.

(** [mem] is the memory behind [message].  The result code, the call made to
    the library if any, and whether the sent counter is increased. *)
Definition MQTTClientWrapper_sendMessage (now : Z) (topic : string) (mem : list Z) (qos : Z)
    : comp (Z * option (string * MQTTAsync_message) * bool) :=
  let* len := bytes_strlen mem in
  let* (rc, enc) := mqtt_payload_encrypt true cbc_encrypt cbc_key rand now mem len in
  match enc with
  | None => Ret (FAILURE, None, false)
  | Some (encryptedPayload, _) =>
      let pubmsg := {| m_payload := encryptedPayload;
                       m_qos := if (QOS0 <=? qos) && (qos <=? MAXQOS) then qos else DEFAULT_SEND_MSG_QOS;
                       m_retained := 0 |} in
      if MQTTAsync_sendMessage topic pubmsg =? MQTTASYNC_SUCCESS
      then Ret (SUCCESS, Some (topic, pubmsg), true)
      else Ret (FAILURE, Some (topic, pubmsg), false)
  end.
End send.

(** ** The life of the client as steps *)
Inductive event :=
  | EvInit (create_rc : Z) (handle : bool)
  | EvStart (connect_rc : Z)
  | EvConnect (sub_rc : Z)
  | EvConnectFailure
  | EvDisconnect
  | EvConnectionLost
  | EvSubscribe
  | EvSubscribeFailure
  | EvDeinit.

Definition wrapper_step (s : MQTTClientStatus) (e : event) : comp (MQTTClientStatus * list action) :=
  match e with
  | EvInit rc h => let* (s, _, a) := MQTTClientWrapper_init s EmptyString rc h in Ret (s, a)
  | EvStart rc => let* (s, _, a) := MQTTClientWrapper_connect s rc in Ret (s, a)
  | EvConnect rc => on_connect s rc
  | EvConnectFailure => Ret (on_connect_failure s, [])
  | EvDisconnect => Ret (on_disconnect s, [])
  | EvConnectionLost => Ret (on_connection_lost s, [])
  | EvSubscribe => Ret (on_subscribe s, [])
  | EvSubscribeFailure => Ret (on_subscribe_failure s, [])
  | EvDeinit => Ret (MQTTClientWrapper_deinit s)
  end.

Fixpoint wrapper_run (s : MQTTClientStatus) (es : list event) : comp (MQTTClientStatus * list action) :=
  match es with
  | [] => Ret (s, [])
  | e :: es =>
      let* (s, a) := wrapper_step s e in
      let* (s, b) := wrapper_run s es in
      Ret (s, a ++ b)
  end.

(** ** Facts *)

Definition is_subscribe (a : action) : bool := match a with SubscribeMany _ _ => true | _ => false end.
Definition is_callback (a : action) : bool := match a with ConnectedCallback => true | _ => false end.
Definition count (p : action -> bool) (l : list action) : nat := length (filter (fun a => p a = true) l).

Lemma count_app p l k : count p (l ++ k) = (count p l + count p k)%nat.
Proof. unfold count. by rewrite filter_app, length_app. Qed.

(** How often the run goes from not connected to connected. *)
Fixpoint rises (s : MQTTClientStatus) (es : list event) : nat :=
  match es with
  | [] => 0
  | e :: es =>
      match wrapper_step s e with
      | Ret (s', _) => ((if negb (connected s) && connected s' then 1 else 0) + rises s' es)%nat
      | Err _ => 0
      end
  end.

Definition status_ok (s : MQTTClientStatus) : Prop := connected s = true -> hasEverConnected s = true.

Lemma subscribe_eq rc :
  MQTTClientWrapper_subscribe rc =
    Ret (if rc =? MQTTASYNC_SUCCESS then SUCCESS else FAILURE,
         [SubscribeMany ["hub/cmd/ALL"; "hub/cmd/SN0000000001"] [2; 2]]).
Proof. reflexivity. Qed.

Lemma init_eq s rc h :
  MQTTClientWrapper_init s EmptyString rc h =
    Ret (set_client s h, if rc =? MQTTASYNC_SUCCESS then SUCCESS else rc,
         (if client s then [Destroy] else []) ++ [Create "MQTTCLIENT-SN0000000001"]).
Proof.
  unfold MQTTClientWrapper_init. change (get_client_id EmptyString) with (Ret "MQTTCLIENT-SN0000000001").
  cbn [mbind comp_bind]. change (string_is_empty (Some "MQTTCLIENT-SN0000000001")) with false. cbn iota.
  by destruct (rc =? MQTTASYNC_SUCCESS).
Qed.

Lemma connect_eq s rc :
  exists msg, MQTTClientWrapper_connect s rc =
    Ret (if client s then
           if rc =? MQTTASYNC_SUCCESS then (s, SUCCESS, [Connect "hub/offline" msg MAXQOS])
           else (set_connected s false, FAILURE, [Connect "hub/offline" msg MAXQOS])
         else (s, FAILURE, [])).
Proof.
  unfold MQTTClientWrapper_connect. destruct (client s); cbn [negb]; [|by exists EmptyString].
  rewrite write_buf_ok by (by vm_compute). cbn [mbind comp_bind]. eexists. by destruct (rc =? MQTTASYNC_SUCCESS).
Qed.

Lemma wrapper_step_ok s e :
  status_ok s ->
  exists s' acts, wrapper_step s e = Ret (s', acts) /\ status_ok s'
    /\ connectedCallback s' = connectedCallback s
    /\ (hasEverConnected s = true -> hasEverConnected s' = true)
    /\ count is_subscribe acts = (if negb (connected s) && connected s' then 1 else 0)%nat
    /\ count is_callback acts = (if connectedCallback s && negb (connected s) && connected s' then 1 else 0)%nat.
Proof.
  unfold status_ok. intros Hs. destruct s as [cl c h sub mcb ccb]; cbn in Hs.
  destruct e as [rc hd|rc|rc| | | | | |]; cbn [wrapper_step].
  - rewrite init_eq. eexists _, _. split; [reflexivity|]. destruct cl, c, ccb; by split_and!.
  - destruct (connect_eq {| client := cl; connected := c; hasEverConnected := h; subscribed := sub;
      messageReceivedCallback := mcb; connectedCallback := ccb |} rc) as [msg ->]. cbn [client].
    destruct cl, (rc =? MQTTASYNC_SUCCESS); eexists _, _; (split; [reflexivity|]); destruct c, ccb; by split_and!.
  - unfold on_connect. cbn [connected]. destruct c;
      [eexists _, _; split; [reflexivity|]; destruct ccb; by split_and!|].
    rewrite subscribe_eq. cbn. eexists _, _. split; [reflexivity|]. destruct ccb; by split_and!.
  - eexists _, _; split; [reflexivity|]; destruct c, ccb; by split_and!.
  - eexists _, _; split; [reflexivity|]; destruct c, ccb; by split_and!.
  - eexists _, _; split; [reflexivity|]; destruct c, ccb; by split_and!.
  - eexists _, _; split; [reflexivity|]; destruct c, ccb; by split_and!.
  - eexists _, _; split; [reflexivity|]; destruct c, ccb; by split_and!.
  - unfold MQTTClientWrapper_deinit. cbn. destruct cl; eexists _, _; (split; [reflexivity|]);
      destruct c, ccb; by split_and!.
Qed.

(** C26: whatever order the client library runs its callbacks in, no handler
    faults, a connected client has been marked as connected before, and the
    hub subscribes and runs its connected callback exactly once for each time
    the connection comes up. *)
Theorem wrapper_run_invariant (s : MQTTClientStatus) (es : list event) :
  status_ok s ->
  exists s' acts, wrapper_run s es = Ret (s', acts) /\ status_ok s'
    /\ (hasEverConnected s = true -> hasEverConnected s' = true)
    /\ count is_subscribe acts = rises s es
    /\ count is_callback acts = (if connectedCallback s then rises s es else 0)%nat.
Proof.
  revert s. induction es as [|e es IH]; intros s Hs; [exists s, []; by destruct (connectedCallback s)|].
  destruct (wrapper_step_ok s e Hs) as (s1 & a & E & Hs1 & Hcb & Hev & Hsub & Hcount).
  destruct (IH s1 Hs1) as (s' & b & E' & Hs' & Hev' & Hsub' & Hcount').
  cbn [wrapper_run rises]. rewrite E. cbn [mbind comp_bind]. rewrite E'. cbn [mbind comp_bind].
  eexists _, _. split; [done|]. split_and!; [done|auto|by rewrite count_app, Hsub, Hsub'|].
  rewrite count_app, Hcount, Hcount', Hcb. by destruct (connectedCallback s).
Qed.

Lemma wrapper_run_invariant_witness :
  exists s' acts, wrapper_run mqttClientStatus0 [EvInit 0 true; EvStart 0; EvConnect 0; EvConnect 0; EvConnectionLost; EvConnect 0]
      = Ret (s', acts) /\ count is_subscribe acts = 2%nat.
Proof.
  destruct (wrapper_run_invariant mqttClientStatus0
    [EvInit 0 true; EvStart 0; EvConnect 0; EvConnect 0; EvConnectionLost; EvConnect 0] ltac:(done))
    as (s' & acts & E & _ & _ & Hn & _). exists s', acts. split; [exact E|]. exact Hn.
Defined.

(** The error description is defined exactly for the codes between -12
    and 0 other than -7 (a truncated topic name); for any other code it writes
    through the code itself taken as a pointer. *)
Theorem error_description_defined (code : Z) :
  (exists s, MQTTClientWrapper_errorDescription code = Ret s) <-> (-12 <= code <= 0 /\ code <> -7).
Proof.
  unfold MQTTClientWrapper_errorDescription, MQTTASYNC_SUCCESS, MQTTASYNC_FAILURE, MQTTASYNC_PERSISTENCE_ERROR,
    MQTTASYNC_DISCONNECTED, MQTTASYNC_MAX_MESSAGES_INFLIGHT, MQTTASYNC_BAD_UTF8_STRING, MQTTASYNC_NULL_PARAMETER,
    MQTTASYNC_BAD_STRUCTURE, MQTTASYNC_BAD_QOS, MQTTASYNC_NO_MORE_MSGIDS, MQTTASYNC_OPERATION_INCOMPLETE,
    MQTTASYNC_MAX_BUFFERED_MESSAGES.
  repeat (case_match; [split; [lia|intros _; by eexists]|]). split; [by intros [? ?]|lia].
Qed.

(** Tearing the client down does not forget that it was connected: after
    a new client is created it is reported as connected before it has tried
    to connect, and when it does connect the hub neither subscribes nor runs
    its connected callback. *)
Theorem reinit_reports_stale_connection (s : MQTTClientStatus) (rc : Z) :
  client s = true -> connected s = true ->
  exists s' acts, MQTTClientWrapper_init (MQTTClientWrapper_deinit s).1 EmptyString MQTTASYNC_SUCCESS true
      = Ret (s', SUCCESS, acts)
    /\ MQTTClientWrapper_isConnected s' = true /\ on_connect s' rc = Ret (s', []).
Proof.
  intros Hc Hn. unfold MQTTClientWrapper_deinit. rewrite Hc, init_eq. eexists _, _. split; [reflexivity|].
  destruct s; cbn in *; by subst.
Qed.

Lemma reinit_reports_stale_connection_witness :
  exists s' acts, MQTTClientWrapper_init (MQTTClientWrapper_deinit
      (set_connected (set_client mqttClientStatus0 true) true)).1 EmptyString MQTTASYNC_SUCCESS true = Ret (s', SUCCESS, acts)
    /\ MQTTClientWrapper_isConnected s' = true.
Proof.
  destruct (reinit_reports_stale_connection (set_connected (set_client mqttClientStatus0 true) true) 0 eq_refl eq_refl)
    as (s' & acts & E & H & _). by exists s', acts.
Defined.

Section send_facts.
Variable cbc_encrypt cbc_decrypt : list Z -> list Z -> list Z -> option (list Z).
Variable cbc_key : list Z.
Variable rand : Z -> nat -> Z.
Variable MQTTAsync_sendMessage : string -> MQTTAsync_message -> Z.
Notation send := (MQTTClientWrapper_sendMessage cbc_encrypt cbc_key rand MQTTAsync_sendMessage).

(** C30: sending a text of at most [INT_MAX - 15] bytes, behind which the
    memory can be read to the end of its last block of 16 (the cipher reads
    whole blocks), hands exactly one message to the client, not retained, with
    the requested QoS when it is a valid one and 0 otherwise; the result is
    SUCCESS exactly when the client took it, and only then is it counted.  When
    the length of the text is not a multiple of 16, the receiver decrypts the
    payload to the text; for the multiples of 16 nothing of the kind holds
    ([payload_buffer_faults]). *)
Theorem send_message_spec now topic m tail qos :
  cbc_law cbc_encrypt cbc_decrypt cbc_key ->
  let n := Z.of_nat (length m) in
  Forall (fun b => b <> 0) m -> Forall is_byte (m ++ 0 :: tail) -> n + 15 <= INT_MAX ->
  blocks n <= Z.of_nat (length (m ++ 0 :: tail)) ->
  exists msg, MQTTClientWrapper_sendMessage cbc_encrypt cbc_key rand MQTTAsync_sendMessage now topic (m ++ 0 :: tail) qos =
      Ret (if MQTTAsync_sendMessage topic msg =? MQTTASYNC_SUCCESS
           then (SUCCESS, Some (topic, msg), true) else (FAILURE, Some (topic, msg), false))
    /\ 0 <= m_qos msg <= 2 /\ (0 <= qos <= 2 -> m_qos msg = qos) /\ m_retained msg = 0
    /\ (n mod 16 <> 0 -> exists out header,
          mqtt_payload_decrypt true cbc_decrypt cbc_key (m_payload msg) (Z.of_nat (length (m_payload msg)))
            = Ret (SUCCESS, Some (out, n, header)) /\ take (length m) out = m).
Proof.
  intros Hlaw n Hm Hbs Hmax Hb.
  destruct (encrypt_decrypt_blocks cbc_encrypt cbc_decrypt cbc_key Hlaw rand now (m ++ 0 :: tail) n)
    as (payload & header & He & Hl & -> & Hd); [done|lia|done..|].
  unfold MQTTClientWrapper_sendMessage. rewrite bytes_strlen_app by done. cbn [mbind comp_bind]. fold n.
  rewrite He. cbn [mbind comp_bind]. unfold QOS0, MAXQOS, DEFAULT_SEND_MSG_QOS, QOS0.
  exists {| m_payload := payload; m_qos := if (0 <=? qos) && (qos <=? 2) then qos else 0; m_retained := 0 |}.
  split; [by destruct (MQTTAsync_sendMessage _ _ =? MQTTASYNC_SUCCESS)|]. cbn [m_qos m_retained m_payload].
  split; [destruct (Z.leb_spec 0 qos), (Z.leb_spec qos 2); cbn; lia|].
  split; [intros Hq; by rewrite !(proj2 (Z.leb_le _ _)) by lia|]. split; [done|]. intros Hn.
  destruct (blocks_bounds n) as [Hb1 Hb2]; [lia|].
  assert (n < blocks n) as Hlt by (assert (n <> blocks n) by congruence; lia).
  rewrite Hd by lia. cbn zeta. rewrite take_app_ge by lia.
  replace (Z.to_nat (blocks n) - length m)%nat with (S (Z.to_nat (blocks n) - length m - 1)) by lia.
  cbn [take]. rewrite bytes_strlen_app by done. cbn [mbind comp_bind]. eexists _, _. split; [done|].
  by apply take_app_length_eq.
Qed.
End send_facts.

Lemma send_message_spec_witness :
  exists msg, MQTTClientWrapper_sendMessage (aes_encrypt fresh_context) CBC_ENCRYPT_KEY (fun _ i => Z.of_nat i) (fun _ _ => 0) 7 "hub/x"
      ([104; 105] ++ 0 :: replicate 13 9) 7 = Ret (SUCCESS, Some ("hub/x", msg), true)
    /\ 0 <= m_qos msg <= 2.
Proof.
  destruct (send_message_spec (aes_encrypt fresh_context) (aes_decrypt fresh_context) CBC_ENCRYPT_KEY (fun _ i => Z.of_nat i)
    (fun _ _ => 0) 7 "hub/x" [104; 105] (replicate 13 9) 7 (aes_law _ _ _ fresh_is_context fresh_is_context default_key)
    ltac:(repeat constructor; lia) ltac:(repeat constructor; discriminate) ltac:(by vm_compute) ltac:(by vm_compute))
    as (msg & E & Hq & _). by exists msg.
Defined.
