(* ===== verification/MqttLink.v ===== *)
(** * The client library under the wrapper of the hub

    The callbacks that MqttAsync.v makes are the events of MqttWrapper.v.  The
    wrapper keeps a status of its own, which only its callbacks change; here it
    is shown to agree with the state of the library. *)

From S2P Require Import MqttWrapper Prelude CString Unicode Utf8 MqttPacket MqttSocket MqttProtocol MqttAsync MqttAsyncLogic.

Local Open Scope Z_scope.

(** ** What the wrapper's flag becomes *)

Definition flag (b : bool) (o : output) : bool :=
  match o with
  | ConnectSuccess => true
  | ConnectFailure _ | ConnectionLost | DisconnectSuccess => false
  | OnFailure _ t _ _ => if t =? CONNECT then false else b
  | _ => b
  end.

(** ** The invariant of the library *)

(** The commands of the hub have their callbacks. *)
Definition has_callbacks (cm : command) : Prop :=
  (type cm = CONNECT -> on_success cm = true) /\
  (type cm = DISCONNECT -> internal_disconnect cm = false -> on_success cm = true).

Record link0 (m : MQTTAsyncs) : Prop := {
  lk_connected : connected (c m) = 0 \/ connected (c m) = 1;
  lk_state : connect_state m <> 0 -> connected (c m) = 0;
  lk_cl : cl (opts m) = true;
  lk_connecting : connect_state m = 1 \/ connect_state m = 3 -> on_success (connect m) = true;
  lk_responses : Forall (fun q => type (cmd q) <> CONNECT) (responses m);
  lk_commands : Forall (fun q => has_callbacks (cmd q)) (commands m);
  lk_connect : type (connect m) = CONNECT -> on_success (connect m) = true;
  lk_connect' : type (connect m) <> DISCONNECT;
  lk_disconnect : has_callbacks (disconnect m)
}.
Definition link (m : MQTTAsyncs) (b : bool) : Prop := link0 m /\ b = negb (connected (c m) =? 0).
Definition down (m : MQTTAsyncs) : Prop := connected (c m) = 0 /\ connect_state m = 0.

Lemma frame_link0 m m' : frame m m' -> link0 m -> link0 m'.
Proof.
  intros [] []. destruct fr_commands as (l & E & Hl). constructor; rewrite ?fr_connected, ?fr_state, ?fr_opts, ?fr_connect, ?fr_disconnect, ?fr_responses; try done.
  rewrite E. apply Forall_app. split; [|done]. eapply Forall_impl; [exact Hl|]. intros q [[Ht Hi] _].
  split; [by rewrite Ht|by rewrite Hi].
Qed.

Lemma frame_link m m' b : frame m m' -> link m b -> link m' b.
Proof. intros Hf [H1 H2]. split; [by eapply frame_link0|]. by rewrite (fr_connected _ _ Hf). Qed.

Lemma flag_failures l b : foldl flag b (failures l) = true -> b = true.
Proof.
  revert b. induction l as [|q l IH]; intros b; [done|]. unfold failures in *. cbn.
  destruct (on_failure (cmd q)); cbn; [|apply IH]. intros H%IH. by destruct (_ =? CONNECT).
Qed.

Abbreviation wpf := (wp flag).

Lemma wpf_protocol junk e o m b : wpf (protocol junk e o) (fun _ m' b' => frame m m' /\ b' = b) m b.
Proof. by apply wp_protocol. Qed.
Lemma wpf_handle junk e o m b : wpf (handle junk e o) (fun _ m' b' => frame m m' /\ b' = b) m b.
Proof. by apply wp_handle. Qed.


(** The invariant reads these fields. *)
Lemma link0_ext m m' :
  link0 m -> connected (c m') = connected (c m) -> connect_state m' = connect_state m -> cl (opts m') = cl (opts m) ->
  connect m' = connect m -> disconnect m' = disconnect m -> commands m' = commands m -> responses m' = responses m -> link0 m'.
Proof. intros [] E1 E2 E3 E4 E5 E6 E7. constructor; by rewrite ?E1, ?E2, ?E3, ?E4, ?E5, ?E6, ?E7. Qed.

Lemma link_ext m m' b :
  link m b -> connected (c m') = connected (c m) -> connect_state m' = connect_state m -> cl (opts m') = cl (opts m) ->
  connect m' = connect m -> disconnect m' = disconnect m -> commands m' = commands m -> responses m' = responses m -> link m' b.
Proof. intros [H ->] E1 **. split; [by eapply link0_ext|by rewrite E1]. Qed.

(** The connection is given up. *)
Lemma link0_down m g k : link0 m -> link0 (with_conn m 0 g 0 k).
Proof. intros []. constructor; cbn; try done; [by left|lia]. Qed.

(** *** Closing *)

Record closed (m m' : MQTTAsyncs) : Prop := {
  cd_link : link0 m';
  cd_down : down m';
  cd_opts : opts m' = opts m;
  cd_connect : connect m' = connect m
}.

Lemma closed_frame m m' m'' : closed m m' -> frame m' m'' -> closed m m''.
Proof.
  intros [H1 [H2 H2'] H3 H4] Hf. constructor; [by eapply frame_link0| |by rewrite (fr_opts _ _ Hf)|by rewrite (fr_connect _ _ Hf)].
  split; [by rewrite (fr_connected _ _ Hf)|by rewrite (fr_state _ _ Hf)].
Qed.

Lemma wpf_closeOnly junk e m b : link0 m -> wpf (MQTTAsync_closeOnly junk e) (fun _ m' b' => closed m m' /\ b' = b) m b.
Proof.
  intros Hm. unfold MQTTAsync_closeOnly. wp_steps; set (m1 := with_c m _) in *;
    (assert (link0 m1) as Hm1 by (eapply link0_ext; [exact Hm|done..])).
  - wp_call wpf_protocol. destruct H0 as [Hf ->]. apply (frame_link0 _ _ Hf) in Hm1.
    wp_steps; (split; [|done]); (constructor; [|by split|by apply (fr_opts _ _ Hf)|by apply (fr_connect _ _ Hf)]);
      exact (link0_down _ _ 0 Hm1).
  - split; [|done]. constructor; [|by split|done|done]. exact (link0_down _ _ _ Hm1).
Qed.

Lemma wpf_removeResponses m b :
  link0 m ->
  wpf MQTTAsync_removeResponsesAndCommands
    (fun _ m' b' => link0 m' /\ connected (c m') = connected (c m) /\ connect_state m' = connect_state m /\
       opts m' = opts m /\ connect m' = connect m /\ (b' = true -> b = true)) m b.
Proof.
  intros []. unfold MQTTAsync_removeResponsesAndCommands. wp_steps. split_and!; [|done..|by intros ?%flag_failures%flag_failures].
  constructor; cbn; try done.
Qed.

Lemma wpf_cleanSession junk e m b :
  link0 m ->
  wpf (MQTTAsync_cleanSession junk e)
    (fun rc m' b' => rc = 0 /\ link0 m' /\ connected (c m') = connected (c m) /\ connect_state m' = connect_state m /\
       opts m' = opts m /\ connect m' = connect m /\ (b' = true -> b = true)) m b.
Proof.
  intros Hm. unfold MQTTAsync_cleanSession. wp_steps. wp_call wpf_protocol. destruct H as [Hf ->]. unfold MQTTAsync_emptyMessageQueue. wp_steps.
  apply (frame_link0 _ _ Hf) in Hm. destruct Hf. wp_call wpf_removeResponses; [by eapply link0_ext|].
  wp_steps. cbn in H. destruct H as (? & ? & ? & ? & ? & ?). split_and!; [done|done|congruence..|done].
Qed.

Lemma wpf_closeSession junk e m b :
  link0 m -> wpf (MQTTAsync_closeSession junk e) (fun _ m' b' => closed m m' /\ (b' = true -> b = true)) m b.
Proof.
  intros Hm. unfold MQTTAsync_closeSession. wp_steps. wp_call (wpf_closeOnly junk e m b Hm). destruct H as [[H1 [H2 H3] H4 H5] ->]. wp_steps.
  - wp_call wpf_cleanSession; [done|]. wp_steps. destruct H0 as (_ & ? & ? & ? & ? & ? & ?).
    split; [|done]. constructor; [done|split; congruence|congruence|congruence].
  - split; [|done]. by constructor.
Qed.

Lemma wpf_startConnectRetry e m b Q :
  (forall m', connected (c m') = connected (c m) -> connect_state m' = connect_state m -> opts m' = opts m ->
     connect m' = connect m -> disconnect m' = disconnect m -> commands m' = commands m -> responses m' = responses m -> Q tt m' b) ->
  wpf (MQTTAsync_startConnectRetry e) Q m b.
Proof.
  intros HQ. unfold MQTTAsync_startConnectRetry. wp_steps. apply HQ; by destruct (_ && _); [destruct (retrying m)|].
Qed.

(** A closed connection, and the wrapper told. *)
Lemma closed_link m m' : closed m m' -> link m' false.
Proof. intros [H1 [H2 _] _ _]. split; [done|]. by rewrite H2. Qed.

Lemma wpf_checkDisconnect junk e cm m b :
  link m b -> has_callbacks cm -> connected (c m) = 0 \/ type cm = DISCONNECT ->
  wpf (MQTTAsync_checkDisconnect junk e cm) (fun _ m' b' => link m' b' /\ connect m' = connect m) m b.
Proof.
  intros [Hm Hb] [_ Hcm] Ht. unfold MQTTAsync_checkDisconnect. wp_steps; [|done].
  wp_call wpf_closeSession; [done|]. destruct H0 as [Hc Hb'].
  assert (connected (c m) = 0 -> g' = false) as Hdown.
  { intros Hz. rewrite Hz in Hb. cbn in Hb. destruct g'; [|done]. by rewrite Hb' in Hb. }
  pose proof (closed_link _ _ Hc) as Hl. destruct Hc as [_ _ _ Hco]. wp_steps; cbn [foldl flag].
  - apply wpf_startConnectRetry. intros m2 E1 E2 E3 E4 E5 E6 E7. split; [|congruence]. eapply link_ext; [exact Hl|congruence..].
  - apply wpf_startConnectRetry. intros m2 E1 E2 E3 E4 E5 E6 E7. split; [|congruence].
    rewrite Hdown; [eapply link_ext; [exact Hl|congruence..]|]. rewrite (lk_cl _ Hm) in H1. cbn in H1.
    by destruct (Z.eqb_spec (connected (c m)) 0).
  - done.
  - split; [|done]. destruct Ht as [Hz|Ht]; [by rewrite Hdown|]. rewrite Hcm in H1; done.
Qed.

Lemma wpf_addCommand e q m b Q :
  link0 m -> has_callbacks (cmd q) ->
  (forall m', link0 m' -> connected (c m') = connected (c m) -> connect_state m' = connect_state m -> connect m' = connect m ->
     Q (signal e) m' b) ->
  wpf (MQTTAsync_addCommand e q) Q m b.
Proof.
  intros Hm Hq HQ. apply wp_addCommand, HQ; [|done..]. destruct Hm. constructor; cbn; try done.
  assert (has_callbacks (cmd (stamped e m q))) as Hs.
  { unfold has_callbacks, internal_disconnect. rewrite stamped_type. destruct (stamped_same e m q) as (_ & -> & _ & _ & ->). apply Hq. }
  destruct (queued_perm e m q _ eq_refl) as [-> | ->]; [done|]. by constructor.
Qed.

Lemma link0_next m n : link0 m -> link0 (with_commands m (commands m) n).
Proof. intros H. by eapply link0_ext. Qed.

Lemma has_callbacks_next m cm : type cm <> DISCONNECT -> has_callbacks cm -> has_callbacks (next_attempt m cm).
Proof.
  unfold next_attempt, has_callbacks. intros Ht [H1 H2]. destruct (conn_of cm) as [u v].
  destruct (_ =? _); [destruct (_ =? _)|]; cbn; by split.
Qed.
Lemma connect_callbacks m : link0 m -> has_callbacks (connect m).
Proof. intros []. by split. Qed.

(** The next attempt, or the end of the session, from a connection that is
    not up. *)
Lemma wpf_nextOrClose junk e rc m b :
  link m b -> connected (c m) = 0 -> wpf (nextOrClose junk e rc) (fun _ m' b' => link m' b' /\ connected (c m') = 0) m b.
Proof.
  intros [Hm Hb] Hz. rewrite Hz in Hb. cbn in Hb. subst b. unfold nextOrClose. wp_steps.
  - wp_call wpf_closeOnly; [done|]. destruct H0 as [Hc ->]. wp_steps. apply wp_new_command. wp_steps.
    apply wpf_addCommand; [by apply link0_next, Hc|apply has_callbacks_next; [|apply connect_callbacks]; apply Hc|].
    intros m2 E1 E2 E3 E4. wp_steps. destruct Hc as [_ [Hd _] _ _]. cbn in E2. split; [split; [done|]|]; rewrite E2, Hd; done.
  - wp_call wpf_closeSession; [done|]. destruct H0 as [Hc Hb]. assert (g' = false) as -> by (destruct g'; [by discriminate Hb|done]).
    wp_steps; cbn [foldl flag]; apply wpf_startConnectRetry; intros m2 E1 E2 E3 E4 E5 E6 E7;
      (split; [eapply link_ext; [by eapply closed_link|congruence..]|]); destruct Hc as [_ [? _] _ _]; congruence.
Qed.

(** *** Connecting *)

Lemma wpf_send_connect v rc m b Q : (forall rc', rc' = rc \/ rc' = SOCKET_ERROR -> Q rc' m b) -> wpf (send_connect v rc) Q m b.
Proof.
  intros HQ. unfold send_connect. wp_steps. apply wp_lift. intros _ _. wp_steps; [|by auto].
  apply wp_lift. intros _ _. wp_steps. by auto.
Qed.

(** After an attempt only the state of connecting and the socket differ. *)
Record attempted (m m' : MQTTAsyncs) : Prop := {
  at_connected : connected (c m') = connected (c m);
  at_opts : opts m' = opts m;
  at_connect : connect m' = connect m;
  at_disconnect : disconnect m' = disconnect m;
  at_commands : commands m' = commands m;
  at_responses : responses m' = responses m
}.

Lemma wpf_Protocol_connect e uri v m b :
  wpf (MQTTProtocol_connect e uri v) (fun rc m' b' => attempted m m' /\ b' = b /\ (connect_state m' <> 0 -> connect_state m' <> connect_state m -> failed rc = false)) m b.
Proof.
  unfold MQTTProtocol_connect. wp_steps; cbn [connect_state with_conn].
  - split_and!; [done|done|]. intros _ _. apply orb_prop in H as [->%Z.eqb_eq| ->%Z.eqb_eq]; done.
  - apply wpf_send_connect. intros rc' _. wp_steps. split_and!; [done|done|]. cbn. destruct (Z.eqb_spec rc' 0) as [->|]; done.
  - split_and!; done.
Qed.

Lemma wpf_process_connect e cm m b :
  wpf (process_connect e cm)
    (fun r m' b' => attempted m m' /\ b' = b /\ type r.2 = type cm /\ on_success r.2 = on_success cm /\
       (failed r.1 = true -> connected (c m) = 0 /\ connect_state m = 0 /\ connect_state m' = 0) /\
       (connected (c m) <> 0 \/ connect_state m <> 0 -> m' = m)) m b.
Proof.
  unfold process_connect. apply wp_bind, wp_get, wp_if; intros H.
  - by wp_steps.
  - apply orb_false_elim in H as [Hs%negb_false_iff%Z.eqb_eq Hc%negb_false_iff%Z.eqb_eq].
    assert (forall cm' uri v, type cm' = type cm -> on_success cm' = on_success cm ->
      wpf (let* rc := MQTTProtocol_connect e uri v in
           let* m := get in mret (if connect_state m =? 0 then SOCKET_ERROR else rc, cm'))
        (fun r m' b' => attempted m m' /\ b' = b /\ type r.2 = type cm /\ on_success r.2 = on_success cm /\
         (failed r.1 = true -> connected (c m) = 0 /\ connect_state m = 0 /\ connect_state m' = 0) /\
         (connected (c m) <> 0 \/ connect_state m <> 0 -> m' = m)) m b) as HQ.
    { intros cm' uri v Ht Ho. wp_steps. wp_call wpf_Protocol_connect. destruct H as (Ha & -> & Hf). wp_steps. cbn [fst snd].
      split_and!; [done..| |].
      - intros Hr. split_and!; [done|done|]. destruct (Z.eqb_spec (connect_state m') 0) as [|Hn]; [done|]. by rewrite Hf in Hr; [|done|congruence].
      - intros [?|?]; done. }
    apply wp_bind, wp_if; intros _; [apply wp_ret; by apply HQ|].
    apply wp_bind, wp_lift. intros u _. apply wp_ret. by apply HQ.
Qed.

Lemma wpf_disconnect1 e su fa t i m b Q :
  link m b -> (connected (c m) = 0 \/ i = true \/ su = true) ->
  (forall rc m', link m' b -> connected (c m') = connected (c m) -> connect_state m' = connect_state m -> connect m' = connect m ->
     Q rc m' b) ->
  wpf (MQTTAsync_disconnect1 e su fa t i) Q m b.
Proof.
  intros Hl Hs HQ. unfold MQTTAsync_disconnect1.
  assert (forall m1, link m1 b -> connected (c m1) = connected (c m) -> connect_state m1 = connect_state m -> connect m1 = connect m ->
    wpf (let* m := get in
         if connected (c m) =? 0 then mret MQTTASYNC_DISCONNECTED
         else let* q := new_command {| type := DISCONNECT; on_success := su; on_failure := fa; token := 0; start_time := 0;
                                       det := Dis i t |} in MQTTAsync_addCommand e q) Q m1 b) as Hrest.
  { intros m1 [Hm1 Hb1] E1 E2 E3. wp_steps; [by apply HQ|]. apply wp_new_command. apply wpf_addCommand; [by apply link0_next| |].
    - split; [done|]. cbn. intros _ Hi. rewrite E1 in H. destruct Hs as [Hz|[->| ->]]; [by rewrite Hz in H|done..].
    - intros m' Hm' F1 F2 F3. apply HQ; [split; [done|]|..]; cbn in *; congruence. }
  apply wp_bind, wp_when; intros _; [apply wp_modify|]; apply Hrest; try done. by eapply link_ext.
Qed.

(** *** Carrying out commands *)

Lemma link_connect m cm b :
  link m b -> type cm <> DISCONNECT -> (type cm = CONNECT -> on_success cm = true) ->
  (connect_state m = 1 \/ connect_state m = 3 -> on_success cm = true) -> link (with_connect m cm (disconnect m)) b.
Proof. intros [[] Hb] Ht H1 H2. split; [|done]. by constructor. Qed.

Lemma link_response m q w b :
  link m b -> (type (cmd q) =? CONNECT) = false -> link (with_responses m w (responses m ++ [q])) b.
Proof.
  intros [[] Hb] Ht%Z.eqb_neq. split; [|done]. constructor; cbn; try done. apply Forall_app. by repeat constructor.
Qed.

Lemma wpf_settle e q rc m b :
  link m b -> type (cmd q) <> CONNECT -> has_callbacks (cmd q) -> wpf (settle e q rc) (fun _ m' b' => link m' b') m b.
Proof.
  intros Hl Ht Hq. apply Z.eqb_neq in Ht. unfold settle. rewrite Ht. cbn [andb].
  unfold set_disconnect, add_response, MQTTAsync_disconnect_internal. wp_steps; cbn [foldl flag]; rewrite ?Ht;
    try done.
  - destruct Hl as [[] ?]. split; [|done]. by constructor.
  - by apply link_response.
  - apply wpf_disconnect1; [done|auto|]. intros r m' Hl' E1 E2 E3. wp_steps; cbn [foldl flag]; rewrite ?Ht; done.
  - by apply link_response.
Qed.

(** The outcome of an attempt to connect is kept, and the attempt repeated if
    another server or version is left. *)
Lemma wpf_settle_connect e q rc m m' b :
  link m b -> attempted m m' -> type (cmd q) = CONNECT -> on_success (cmd q) = true ->
  (failed rc = true -> connected (c m) = 0 /\ connect_state m = 0 /\ connect_state m' = 0) ->
  (connected (c m) <> 0 \/ connect_state m <> 0 -> m' = m) ->
  wpf (settle e q rc) (fun _ m' b' => link m' b') m' b.
Proof.
  intros [Hm Hb] Ha Ht Hs Hf Hsame. unfold settle, set_connect. rewrite Ht, Z.eqb_refl. cbn [andb].
  assert (type (cmd q) <> DISCONNECT) as Hd by by rewrite Ht.
  change (CONNECT =? DISCONNECT) with false. change (CONNECT =? PUBLISH) with false. cbn [andb].
  destruct (failed rc) eqn:Hrc; cbn [negb].
  - destruct (Hf eq_refl) as (Hc & Hs0 & Hs1).
    assert (link m' b) as Hl.
    { destruct Ha. split; [|by rewrite at_connected0]. eapply link0_ext; [exact Hm|congruence..]. }
    assert (b = false) as -> by (by rewrite Hb, Hc). assert (connected (c m') = 0) as Hc' by (by rewrite (at_connected _ _ Ha)).
    wp_steps. unfold MQTTAsync_disconnect. apply wpf_disconnect1; [done|by left|]. intros r m1 Hl1 E1 E2 E3. wp_steps.
    + apply wpf_addCommand; [eapply link0_ext; [apply Hl1|done..]|apply has_callbacks_next; [done|by split]|].
      intros m2 Hm2 F1 F2 F3. wp_steps. split; [done|]. rewrite F1. cbn. by rewrite E1, Hc'.
    + apply wpf_startConnectRetry. intros m2 F1 F2 F3 F4 F5 F6 F7. cbn [foldl flag].
      eapply link_ext; [apply (link_connect (with_should m1 true) (cmd q)); [by eapply link_ext|done..]|congruence..].
    + by eapply link_ext.
    + apply wpf_startConnectRetry. intros m2 F1 F2 F3 F4 F5 F6 F7.
      eapply link_ext; [apply (link_connect (with_should m1 true) (cmd q)); [by eapply link_ext|done..]|congruence..].
    + by eapply link_ext.
  - wp_steps. destruct Ha. split; [|cbn; by rewrite at_connected0].
    destruct Hm. constructor; cbn; rewrite ?at_connected0, ?at_opts0, ?at_disconnect0, ?at_commands0, ?at_responses0; try done.
    intros Hn. destruct (Z.eq_dec (connected (c m)) 0) as [|Hn']; [done|]. by rewrite Hsame in Hn; auto.
Qed.

Lemma wpf_process_publish junk e q m b :
  link m b -> wpf (process_publish junk e q) (fun _ m' b' => link m' b') m b.
Proof.
  intros Hl. unfold process_publish. destruct (det (cmd q)); wp_steps; try done.
  wp_call wpf_protocol. destruct H as [Hf ->]. apply (frame_link _ _ _ Hf) in Hl. wp_steps; cbn [foldl flag]; try done. by eapply link_ext.
Qed.

Lemma wpf_process_disconnect junk e cm m b :
  link m b -> has_callbacks cm -> type cm = DISCONNECT ->
  wpf (process_disconnect junk e cm) (fun _ m' b' => link m' b') m b.
Proof.
  intros Hl Hcm Ht. unfold process_disconnect.
  assert (forall m b, link m b -> wpf (MQTTAsync_checkDisconnect junk e cm) (fun _ m' b' => link m' b') m b) as Hc.
  { intros m1 b1 Hl1. wp_call wpf_checkDisconnect; [done|done|by right|]. apply H. }
  assert (connect_state m <> 0 -> b = false /\ link (with_conn m (connected (c m)) (good (c m)) (-2) (socket m)) false) as Hn.
  { destruct Hl as [[] Hb]. intros Hs. pose proof (lk_state0 Hs) as Hz. rewrite Hb, Hz. cbn. split; [done|]. split; [|cbn; done].
    constructor; cbn; try done; [by left|by intros [?|?]]. }
  wp_steps; cbn [foldl flag]; try (apply negb_true_iff, Z.eqb_neq in H0; destruct (Hn H0) as [-> Hl']); first [by apply Hc|exact Hl].
Qed.

Lemma wpf_processCommand junk e m b :
  link m b -> wpf (MQTTAsync_processCommand junk e) (fun _ m' b' => link m' b') m b.
Proof.
  intros Hl. unfold MQTTAsync_processCommand. apply wp_bind, wp_get. destruct (next_command e m) as [q|] eqn:En; [|done].
  assert (has_callbacks (cmd q) /\ link (with_commands m (List.tl (commands m)) (next_addr m)) b) as [Hq Hl'].
  { destruct Hl as [[] Hb]. unfold next_command in En. destruct (commands m) as [|q' l]; [done|]. apply Forall_cons in lk_commands0 as [Hq Hql].
    assert (q' = q) as -> by (destruct (_ || _); [destruct (_ && _)|]; congruence). split; [done|]. split; [|done]. by constructor. }
  apply wp_bind, wp_modify. generalize dependent (with_commands m (List.tl (commands m)) (next_addr m)). clear m Hl En. intros m Hl.
  assert (forall rc, type (cmd q) <> CONNECT -> wpf (let* _ := settle e {| addr := addr q; cmd := cmd q |} rc in mret true) (fun _ m' b' => link m' b') m b) as Hset.
  { intros rc Ht. wp_steps. wp_call wpf_settle; [done..|]. by wp_steps. }
  apply wp_bind. destruct (Z.eqb_spec (type (cmd q)) CONNECT) as [Ht|Ht].
  { wp_call wpf_process_connect. destruct x as [rc cm]. destruct H as (Ha & -> & H1 & H2 & H3 & H4). cbn [fst snd] in *.
    wp_steps. wp_call (wpf_settle_connect _ {| addr := addr q; cmd := cm |} _ m _ _ Hl Ha); cbn; [by rewrite H1|rewrite H2; by apply (proj1 Hq)|done|done|]. by wp_steps. }
  do 2 (apply wp_if; intros ?; [wp_steps; destruct (det (cmd q)); cbn [foldl flag]; (wp_call wpf_settle; [done..|]; by wp_steps)|]).
  apply wp_if; intros ?.
  { apply wp_bind. wp_call wpf_process_publish; [done|]. wp_steps. wp_call wpf_settle; [done..|]. by wp_steps. }
  apply wp_if; intros Hd.
  { apply wp_bind. wp_call wpf_process_disconnect; [done|done|by apply Z.eqb_eq|]. wp_steps. wp_call wpf_settle; [done..|]. by wp_steps. }
  apply wp_ret. by apply Hset.
Qed.

(** *** Responses, timeouts, packets *)

Lemma link_fewer m w l b :
  link m b -> (forall q, q ∈ l -> q ∈ responses m) -> link (with_responses m w l) b.
Proof.
  intros [[] Hb] Hl. split; [|done]. constructor; cbn; try done. apply Forall_forall. intros q Hq.
  by apply (proj1 (Forall_forall _ _) lk_responses0), Hl.
Qed.

Lemma wpf_writeComplete junk e rc m b :
  link m b -> wpf (MQTTAsync_writeComplete junk e rc) (fun _ m' b' => link m' b') m b.
Proof.
  intros Hl. unfold MQTTAsync_writeComplete. apply wp_bind. wp_call wpf_protocol. destruct H as [Hf ->].
  apply (frame_link _ _ _ Hf) in Hl. apply wp_bind, wp_modify.
  assert (link (with_c m' (with_net (c m') (good (c m')) (ping_outstanding (c m')) (secs e))) b) as Hl1 by by eapply link_ext.
  revert Hl1. generalize (with_c m' (with_net (c m') (good (c m')) (ping_outstanding (c m')) (secs e))). clear. intros m Hl.
  apply wp_bind, wp_get. destruct (pending_write m) as [w|]; [|done]. apply wp_bind. destruct (responses m) as [|com rest] eqn:Er.
  - wp_steps. apply link_fewer; [done|]. by rewrite Er.
  - apply wp_bind, wp_lift. intros q _.
    wp_steps; cbn [foldl flag]; try (apply Z.eqb_eq in H; rewrite H; change (PUBLISH =? CONNECT) with false; cbn iota);
      (apply link_fewer; [by apply link_fewer; [done|rewrite Er; set_solver]|cbn; by rewrite ?Er]).
Qed.

Lemma wpf_respond id tell m b :
  (forall q b, type (cmd q) <> CONNECT -> foldl flag b (tell q) = b) ->
  link m b -> wpf (respond id tell) (fun _ m' b' => link m' b' /\ connected (c m') = connected (c m)) m b.
Proof.
  intros Ht Hl. unfold respond. apply wp_bind, wp_get. destruct (find_response id (responses m)) as [q|] eqn:Ef; [|done].
  wp_steps. apply List.find_some in Ef as [Hq _]. rewrite Ht.
  - split; [|done]. apply link_fewer; [done|]. intros q'. clear. induction (responses m) as [|x l IH]; [done|].
    cbn. destruct (token (cmd x) =? id); set_solver.
  - destruct Hl as [[] _]. apply (proj1 (Forall_forall _ _) lk_responses0), list_elem_of_In, Hq.
Qed.

Lemma flag_tell_success q b : foldl flag b (tell_success q) = b.
Proof. unfold tell_success. by destruct (on_success (cmd q)). Qed.
Lemma flag_tell_subscribed qoss q b : type (cmd q) <> CONNECT -> foldl flag b (tell_subscribed qoss q) = b.
Proof.
  intros Ht%Z.eqb_neq. unfold tell_subscribed. destruct qoss as [|x [|]]; [apply flag_tell_success| |apply flag_tell_success].
  destruct (x =? MQTT_BAD_SUBSCRIBE); [|apply flag_tell_success]. destruct (on_failure (cmd q)); [|done]. cbn. by rewrite Ht.
Qed.

Lemma wpf_new_connect e cm m b Q :
  link m b -> has_callbacks cm ->
  (forall q m', link m' b -> connected (c m') = connected (c m) -> connect_state m' = connect_state m ->
     connect m' = connect m -> Q q m' b) ->
  wpf (let* q := new_command cm in MQTTAsync_addCommand e q) Q m b.
Proof.
  intros [Hm Hb] Hcm HQ. apply wp_bind, wp_new_command, wpf_addCommand; [by apply link0_next|done|].
  intros m' Hm' E1 E2 E3. apply HQ; try done. split; [done|]. by rewrite E1.
Qed.

Lemma restarted_callbacks m : link0 m -> has_callbacks (restarted m).
Proof.
  intros []. unfold restarted. by destruct (_ =? _).
Qed.

Lemma wpf_checkTimeouts junk e last m b :
  link m b -> wpf (MQTTAsync_checkTimeouts junk e last) (fun _ m' b' => link m' b') m b.
Proof.
  intros Hl. unfold MQTTAsync_checkTimeouts. apply wp_if; intros _; [done|]. apply wp_bind, wp_get, wp_bind.
  apply (wp_mono _ _ (fun _ m' b' => link m' b')).
  { wp_steps; [|done]. apply Z.eqb_eq in H. wp_call wpf_checkDisconnect; [done|apply Hl|left; apply Hl; lia|]. apply H0. }
  clear m b Hl. intros _ m b Hl. apply wp_bind, wp_get, wp_bind, wp_if; intros H.
  - apply andb_prop in H as [H%negb_true_iff%Z.eqb_neq _]. wp_call wpf_nextOrClose; [done|by apply Hl|]. wp_steps. apply H0.
  - apply wp_when; intros _; [|done]. apply wp_bind, wp_new_command, wp_bind.
    apply wpf_addCommand; [by apply link0_next, Hl|by apply restarted_callbacks, Hl|]. intros m' Hm' E1 E2 E3. wp_steps.
    eapply (link_ext m'); [split; [done|]|done..]. rewrite E1. apply Hl.
Qed.

Lemma wpf_connecting junk e so m b :
  link m b -> connected (c m) = 0 ->
  wpf (MQTTAsync_connecting junk e so) (fun _ m' b' => link m' b' /\ connected (c m') = 0) m b.
Proof.
  intros Hl Hz. unfold MQTTAsync_connecting. apply wp_bind, wp_get, wp_bind.
  apply (wp_mono _ _ (fun _ m' b' => link m' b' /\ connected (c m') = 0)).
  - apply wp_if; intros Hs; [|by wp_steps]. apply Z.eqb_eq in Hs. apply wp_if; intros _; [by wp_steps|]. apply wp_bind, wp_modify.
    apply wpf_send_connect. intros rc' _. split; [|done]. destruct Hl as [[] Hb]. split; [|done]. constructor; cbn; try done. intros _. apply lk_connecting0. by left.
  - clear m b Hl Hz. intros rc m b [Hl Hz]. wp_steps; [|done]. by wp_call wpf_nextOrClose.
Qed.

Lemma wpf_completeConnection junk e ans k m b :
  link m b -> connected (c m) = 0 ->
  wpf (MQTTAsync_completeConnection junk e ans k)
    (fun rc m' b' => if rc =? MQTTASYNC_SUCCESS then link0 m' /\ connected (c m') = 1 /\ on_success (connect m') = true
                     else link m' b' /\ connected (c m') = 0) m b.
Proof.
  intros Hl Hz. unfold MQTTAsync_completeConnection. apply wp_bind, wp_get, wp_if; intros Hs; [|by wp_steps]. apply Z.eqb_eq in Hs.
  apply wp_if; intros Hk; [|by wp_steps; rewrite Hk]. apply wp_bind, wp_modify, wp_bind, wp_modify.
  pose proof (lk_connecting _ (proj1 Hl) (or_intror Hs)) as Hcb.
  set (m1 := with_conn _ 1 1 0 _). assert (link0 m1 /\ connected (c m1) = 1 /\ on_success (connect m1) = true) as H1.
  { destruct Hl as [[] _]. split_and!; [|done|done]. constructor; cbn; try done. by right. }
  clearbody m1. clear m Hl Hz Hs Hcb. apply wp_bind, wp_get, wp_bind.
  apply (wp_mono _ _ (fun rc m' b' => rc = MQTTASYNC_SUCCESS /\ link0 m' /\ connected (c m') = 1 /\ on_success (connect m') = true)).
  - apply wp_if; intros _; [|by wp_steps]. destruct H1 as (H1 & H2 & H3). wp_call wpf_cleanSession; [done|].
    destruct H as (? & ? & E1 & ? & ? & E2 & ?). split_and!; [done|done|by rewrite E1|by rewrite E2].
  - clear m1 H1. intros rc m b1 (-> & H1 & H2 & H3). apply wp_bind, wp_get, wp_if; intros _; [|by wp_steps].
    apply wp_bind, wp_modify, wp_bind. wp_call wpf_protocol. destruct H as [Hf ->]. apply wp_bind, wp_get, wp_ret.
    assert (connected (c m') = 1) as E by (by rewrite (fr_connected _ _ Hf)). rewrite E. cbn.
    split_and!; [eapply frame_link0; [exact Hf|by eapply link0_ext]|done|by rewrite (fr_connect _ _ Hf)].
Qed.

(** *** The receiving thread *)

Lemma wpf_cycle_packet junk e rc p m b :
  link m b ->
  wpf (cycle_packet junk e rc p)
    (fun r m' b' => link m' b' /\ connected (c m') = connected (c m) /\ (forall k, r.2 = Some (RConnack k) -> p = RConnack k)) m b.
Proof.
  intros Hl.
  assert (forall o, wpf (let* rc := handle junk e o in mret (rc, None))
    (fun r m' b' => link m' b' /\ connected (c m') = connected (c m) /\ (forall k, r.2 = Some (RConnack k) -> p = RConnack k)) m b) as Hh.
  { intros o. apply wp_bind. wp_call wpf_handle. destruct H as [Hf ->]. apply wp_ret.
    split_and!; [by eapply frame_link|apply (fr_connected _ _ Hf)|done]. }
  assert (forall o id, wpf (let* rc := acknowledged junk e o id in mret (rc, None))
    (fun r m' b' => link m' b' /\ connected (c m') = connected (c m) /\ (forall k, r.2 = Some (RConnack k) -> p = RConnack k)) m b) as Ha.
  { intros o id. apply wp_bind. unfold acknowledged. apply wp_bind. wp_call wpf_handle. destruct H as [Hf ->].
    pose proof (frame_link _ _ _ Hf Hl) as Hl'. apply wp_bind, wp_get, wp_bind.
    apply (wp_mono _ _ (fun _ m2 b2 => m2 = m' /\ b2 = b)); [by wp_steps|]. intros _ ? ? [-> ->].
    apply wp_bind. wp_call wpf_respond; [intros; apply flag_tell_success|done|]. destruct H as [H1 H2]. wp_steps.
    split_and!; [done|by rewrite H2, (fr_connected _ _ Hf)|done]. }
  destruct p; cbn [cycle_packet]; try apply Hh; try apply Ha; apply wp_ret; (split_and!; [done|done|]); by intros ? [= <-].
Qed.

Lemma wpf_retry junk e due ans m b :
  wpf (MQTTAsync_retry junk e due ans) (fun _ m' b' => frame m m' /\ b' = b) m b.
Proof.
  unfold MQTTAsync_retry, retry_pop. apply wp_if; intros _; [|apply wpf_protocol].
  apply wp_bind. wp_call wpf_protocol. destruct H as [H1 ->]. wp_call wpf_protocol. destruct H as [H2 ->].
  split; [by apply (frame_trans _ m')|done].
Qed.

Lemma wpf_cycle junk e ready so packet due ans m b :
  link m b -> (forall k, packet.2 = Some (RConnack k) -> connected (c m) = 0) ->
  wpf (MQTTAsync_cycle junk e ready so packet due ans)
    (fun r m' b' => link m' b' /\ (forall k, r.2 = Some (RConnack k) -> connected (c m') = 0)) m b.
Proof.
  intros Hl Hk. unfold MQTTAsync_cycle. apply wp_bind, wp_get, wp_bind.
  apply (wp_mono _ _ (fun r m' b' => link m' b' /\ (forall k, r.2 = Some (RConnack k) -> connected (c m') = 0))).
  - apply wp_if; intros _; [|by wp_steps]. apply wp_bind.
    apply (wp_mono _ _ (fun r m' b' => link m' b' /\ (forall k, r.2 = Some (RConnack k) -> connected (c m') = 0))).
    + apply wp_if; intros Hs; [|by apply wp_ret]. apply orb_prop in Hs. assert (connected (c m) = 0) as Hz.
      { apply Hl. destruct Hs as [?%Z.eqb_eq|?%Z.eqb_eq]; lia. }
      apply wp_bind. wp_call wpf_connecting; [done..|]. apply wp_ret. by destruct H.
    + clear m b Hl Hk. intros [rc pack] m b [Hl Hk]. cbn [snd] in Hk. apply wp_bind, wp_get, wp_bind.
      apply (wp_mono _ _ (fun _ m' b' => link m' b' /\ (forall k, pack = Some (RConnack k) -> connected (c m') = 0))).
      * apply wp_when; intros Hs; [|done]. apply andb_prop in Hs as [Hs%Z.eqb_eq _].
        wp_call wpf_nextOrClose; [done|apply Hl; lia|]. by destruct H.
      * clear m b Hl Hk. intros _ m b [Hl Hk]. destruct pack as [p|]; [|by apply wp_ret].
        wp_call wpf_cycle_packet; [done|]. destruct H as (H1 & H2 & H3). split; [done|]. intros k Hr. rewrite H2. apply (Hk k). by rewrite (H3 k Hr).
  - clear m b Hl Hk. intros [rc pack] m b [Hl Hk]. apply wp_bind. wp_call wpf_retry. destruct H as [Hf ->]. apply wp_ret.
    split; [by eapply frame_link|]. intros k Hr. rewrite (fr_connected _ _ Hf). by eapply Hk.
Qed.

Lemma wpf_receive_packet junk e ans p m b :
  link m b -> (forall k, p = RConnack k -> connected (c m) = 0) ->
  wpf (receive_packet junk e ans p) (fun _ m' b' => link m' b') m b.
Proof.
  intros Hl Hk. destruct p as [k|id qoss|id|p|id|id|id dup|id|]; cbn [receive_packet]; try done.
  - apply wp_bind. wp_call wpf_completeConnection; [done|by eapply Hk|]. destruct (_ =? MQTTASYNC_SUCCESS).
    + destruct H as (H1 & H2 & H3). apply wp_bind, wp_get. rewrite H3. cbn [when]. wp_steps; cbn [foldl flag]; (split; [done|by rewrite H2]).
    + destruct H as [H1 H2]. wp_call wpf_nextOrClose; [done..|]. apply H.
  - wp_call wpf_respond; [intros; by apply flag_tell_subscribed|done|]. apply H.
  - wp_call wpf_respond; [intros; by apply flag_tell_success|done|]. apply H.
Qed.

Lemma wpf_dispatch junk e sock rc pack ans m b :
  link m b -> (forall k, pack = Some (RConnack k) -> connected (c m) = 0) ->
  wpf (dispatch junk e sock rc pack ans) (fun _ m' b' => link m' b') m b.
Proof.
  intros Hl Hk. unfold dispatch. apply wp_bind, wp_get, wp_when; intros _; [|done].
  apply wp_if; intros _.
  - apply wp_if; intros Hc.
    + apply wp_bind. apply wpf_disconnect1; [done|auto|]. intros. by wp_steps.
    + assert (connected (c m) = 0) as Hz by (apply Z.eqb_neq in Hc; destruct (lk_connected _ (proj1 Hl)); [done|lia]).
      apply wp_if; intros _; [wp_call wpf_nextOrClose; [done..|]; apply H|].
      wp_call wpf_closeOnly; [apply Hl|]. destruct H as [Hd ->]. destruct Hl as [_ Hb]. rewrite Hz in Hb. cbn in Hb. subst. by eapply closed_link.
  - apply wp_bind. apply (wp_mono _ _ (fun _ m2 b2 => link m2 b2 /\ connected (c m2) = connected (c m))).
    + unfold deliver_queued. apply wp_bind, wp_get. destruct (messageQueue m); [by apply wp_ret|]. wp_steps; cbn [foldl flag]; try done;
        (split; [by eapply link_ext|done]).
    + intros _ m2 b2 [Hl2 E]. destruct pack as [p|]; [|by apply wp_ret]. apply wpf_receive_packet; [done|].
      intros k ->. rewrite E. by eapply Hk.
Qed.

Lemma wpf_receive_turn junk e ready so packet due ans m b :
  link m b -> (forall k, packet.2 = Some (RConnack k) -> connected (c m) = 0) ->
  wpf (receive_turn junk e ready so packet due ans) (fun _ m' b' => link m' b') m b.
Proof.
  intros Hl Hk. unfold receive_turn. apply wp_bind, wp_get, wp_bind. wp_call wpf_cycle; [done..|].
  destruct x as [rc pack]. destruct H as [Hl' Hk']. apply wp_when; intros _; [|done]. by apply wpf_dispatch.
Qed.

(** *** The interface *)

Lemma wpf_assignMsgId m b Q :
  link m b ->
  (forall id m', link m' b -> connected (c m') = connected (c m) -> Q id m' b) -> wpf MQTTAsync_assignMsgId Q m b.
Proof.
  intros Hl HQ. unfold MQTTAsync_assignMsgId. apply wp_bind, wp_get, wp_bind, wp_lift. intros id _.
  wp_steps; apply HQ; try done. by eapply link_ext.
Qed.

Lemma wpf_with_id e r t d m b :
  link m b -> t <> CONNECT -> t <> DISCONNECT -> wpf (with_id e r t d) (fun _ m' b' => link m' b') m b.
Proof.
  intros Hl H1 H2. unfold with_id. apply wp_bind, wpf_assignMsgId; [done|]. intros id m' Hl' E. apply wp_if; intros _; [done|].
  apply wpf_new_connect; [done|by split|done].
Qed.

Lemma wpf_subscribeMany e ts r m b : link m b -> wpf (MQTTAsync_subscribeMany e ts r) (fun _ m' b' => link m' b') m b.
Proof.
  intros Hl. unfold MQTTAsync_subscribeMany. apply wp_bind, wp_get, wp_if; intros _; [done|].
  apply wp_bind, wp_lift. intros rc _. apply wp_if; intros _; [done|]. by apply wpf_with_id.
Qed.

Lemma wpf_unsubscribeMany e ts r m b : link m b -> wpf (MQTTAsync_unsubscribeMany e ts r) (fun _ m' b' => link m' b') m b.
Proof.
  intros Hl. unfold MQTTAsync_unsubscribeMany. apply wp_bind, wp_get, wp_if; intros _; [done|].
  apply wp_bind, wp_lift. intros rc _. apply wp_if; intros _; [done|]. by apply wpf_with_id.
Qed.

Lemma wpf_send e d len pl qs ret r m b : link m b -> wpf (MQTTAsync_send e d len pl qs ret r) (fun _ m' b' => link m' b') m b.
Proof.
  intros Hl. unfold MQTTAsync_send. apply wp_bind, wp_get, wp_if; intros _; [done|].
  apply wp_bind, wp_lift. intros ok _. apply wp_if; intros _; [done|]. apply wp_if; intros _; [done|]. apply wp_bind.
  assert (forall id m1, link m1 b -> wpf (if (0 <? qs) && (id =? 0) then mret MQTTASYNC_NO_MORE_MSGIDS else
    let* m := get in
    if match createOptions (opts m) with Some (_, most) => most <=? MQTTAsync_countBufferedMessages m | None => false end
    then mret MQTTASYNC_MAX_BUFFERED_MESSAGES
    else
      let* data := lift (arr_slice pl 0 len) in
      let* q := new_command {| type := PUBLISH; on_success := match r with Some (s, _) => s | None => false end;
                               on_failure := match r with Some (_, f) => f | None => false end;
                               token := id; start_time := 0; det := Pub d data len qs ret |} in
      MQTTAsync_addCommand e q) (fun _ m' b' => link m' b') m1 b) as Hrest.
  { intros id m1 Hl1. apply wp_if; intros _; [done|]. apply wp_bind, wp_get, wp_if; intros _; [done|].
    apply wp_bind, wp_lift. intros data _. apply wpf_new_connect; [done|by split|done]. }
  apply wp_if; intros _; [|by apply wp_ret, Hrest]. apply wpf_assignMsgId; [done|]. intros id m' Hl' _. by apply Hrest.
Qed.

Lemma wpf_connect e o m b :
  link m b -> o_on_success o = true -> wpf (MQTTAsync_connect e (Some o)) (fun _ m' b' => link m' b') m b.
Proof.
  intros Hl Ho. cbn [MQTTAsync_connect]. apply wp_bind, wp_lift. intros rc _. apply wp_if; intros _; [done|].
  apply wp_bind, wp_get, wp_bind, wp_modify.
  match goal with |- wp _ _ _ (with_connect m ?cm _) _ =>
    assert (link (with_connect m cm (disconnect m)) b) as Hl1 by (apply link_connect; [done|cbn; apply Hl|done..]) end.
  revert Hl1. generalize (with_connect m {| type := type (connect m); on_success := o_on_success o; on_failure := o_on_failure o;
    token := token (connect m); start_time := start_time (connect m); det := det (connect m) |} (disconnect m)). intros m1 Hl1.
  assert (cl (opts m) = cl (opts m1)) as Hcl by (by rewrite (lk_cl _ (proj1 Hl)), (lk_cl _ (proj1 Hl1))).
  apply wp_if; intros _.
  - wp_steps. eapply link_ext; [exact Hl1|done|done|cbn; by rewrite Hcl|done..].
  - apply wp_bind, wp_lift. intros os Hos. apply wp_bind, wp_modify, wp_bind, wp_modify, wp_bind, wp_modify.
    assert (cl os = cl (opts m)) as Hos'.
    { unfold connect_opts in Hos. apply bind_Ret in Hos as (u & _ & (p & _ & [= <-])%bind_Ret). done. }
    apply wpf_new_connect; [|by split|done]. eapply link_ext; [exact Hl1|done|done|cbn; congruence|done..].
Qed.

Lemma wpf_reconnect e m b : link m b -> wpf (MQTTAsync_reconnect e) (fun _ m' b' => link m' b') m b.
Proof.
  intros Hl. unfold MQTTAsync_reconnect. apply wp_bind, wp_get, wp_if; intros _.
  - apply wp_if; intros _; [|done]. wp_steps. destruct (retrying m); by eapply link_ext.
  - apply wp_bind, wp_new_command, wp_bind. apply wpf_addCommand; [by apply link0_next, Hl|by apply restarted_callbacks, Hl|].
    intros m' Hm' E1 E2 E3. wp_steps. split; [done|]. rewrite E1. apply Hl.
Qed.

(** ** A run *)

(** The application gives its callbacks, and the broker sends no second
    CONNACK on a connection. *)
Definition proper_step (m : MQTTAsyncs) (s : astep) : Prop :=
  match s with
  | AConnect _ o => o_on_success o = true
  | ADisconnect _ success _ _ => success = true
  | AReceive _ _ _ (_, Some (RConnack _)) _ _ | ACycle _ _ _ (_, Some (RConnack _)) _ _
  | ADispatch _ _ _ (Some (RConnack _)) _ => connected (c m) = 0
  | _ => True
  end.
Fixpoint proper_run (junk : Z) (m : MQTTAsyncs) (l : list astep) : Prop :=
  match l with
  | [] => True
  | s :: l => proper_step m s /\ match run_astep junk s m with Ret (_, _, m') => proper_run junk m' l | Err _ => True end
  end.

Lemma wpf_step junk s m b :
  link m b -> proper_step m s -> wpf (run_astep junk s) (fun _ m' b' => link m' b') m b.
Proof.
  intros Hl Hs.
  assert (forall A (a : act A), wpf a (fun _ m' b' => link m' b') m b -> wpf (ignore a) (fun _ m' b' => link m' b') m b) as Hi.
  { intros A a Ha. unfold ignore. apply wp_bind. wp_call Ha. by apply wp_ret. }
  destruct s; cbn [run_astep proper_step] in *; try apply Hi.
  - by apply wpf_connect.
  - by apply wpf_reconnect.
  - unfold MQTTAsync_disconnect. apply wpf_disconnect1; [done|auto|]. by intros.
  - by apply wpf_subscribeMany.
  - by apply wpf_unsubscribeMany.
  - by apply wpf_send.
  - by apply wpf_processCommand.
  - by apply wpf_checkTimeouts.
  - apply wpf_receive_turn; [done|]. destruct packet as [rc [[]|]]; done.
  - wp_call wpf_cycle; [done|destruct packet as [rc [[]|]]; done|]. apply H.
  - apply wpf_dispatch; [done|]. destruct pack as [[]|]; done.
  - by apply wpf_writeComplete.
Qed.

Lemma arun_link junk l m b :
  link m b -> proper_run junk m l -> wpf (arun junk l) (fun _ m' b' => link m' b') m b.
Proof.
  revert m b. induction l as [|s l IH]; intros m b Hl Hr; [done|]. destruct Hr as [Hs Hr]. cbn [arun].
  apply wp_bind. pose proof (wpf_step junk s m b Hl Hs) as Hw. unfold wp in Hw |- * at 1.
  destruct (run_astep junk s m) as [[[[] o] m']|]; [|done]. by apply IH.
Qed.

(** ** The events of the wrapper *)

(** MQTTClientWrapper_init: the client, with its callbacks. *)
Definition hub_client (end_point clientId : string) : comp (option MQTTAsyncs) :=
  let* (rc, h) := MQTTAsync_create (Some end_point) (Some clientId) in
  match h with
  | Some m =>
      if rc =? MQTTASYNC_SUCCESS then let* (_, _, m) := MQTTAsync_setCallbacks true true false m in Ret (Some m)
      else Ret None
  | None => Ret None
  end.

(** Which callback of the wrapper an output is; [rc] answers its call to
    MQTTAsync_subscribeMany. *)
Definition hub_events (rc : Z) (o : output) : list MqttWrapper.event :=
  match o with
  | ConnectSuccess => [EvConnect rc]
  | ConnectFailure _ => [EvConnectFailure]
  | ConnectionLost => [EvConnectionLost]
  | DisconnectSuccess => [EvDisconnect]
  | OnSuccess _ t _ => if t =? SUBSCRIBE then [EvSubscribe] else []
  | OnFailure _ t _ _ =>
      if t =? CONNECT then [EvConnectFailure] else if t =? SUBSCRIBE then [EvSubscribeFailure] else []
  | _ => []
  end.

Lemma wrapper_run_flag rc outs s :
  exists s' acts, wrapper_run s (flat_map (hub_events rc) outs) = Ret (s', acts)
    /\ MqttWrapper.connected s' = foldl flag (MqttWrapper.connected s) outs.
Proof.
  revert s. induction outs as [|o outs IH]; intros s; [by eexists _, _|]. cbn [flat_map foldl].
  assert (forall s1 a e b, wrapper_step s e = Ret (s1, a) -> MqttWrapper.connected s1 = b ->
    exists s' acts, wrapper_run s ([e] ++ flat_map (hub_events rc) outs) = Ret (s', acts) /\
      MqttWrapper.connected s' = foldl flag b outs) as Hone.
  { intros s1 a e b He <-. destruct (IH s1) as (s' & acts & Hr & Hc). exists s', (a ++ acts). cbn [app wrapper_run].
    rewrite He. cbn [mbind comp_bind]. by rewrite Hr. }
  destruct o; cbn [hub_events flag]; try apply IH.
  - destruct (_ =? SUBSCRIBE); [by eapply Hone|apply IH].
  - destruct (_ =? CONNECT); [by eapply Hone|]. destruct (_ =? SUBSCRIBE); [by eapply Hone|apply IH].
  - destruct (MqttWrapper.connected s) eqn:E.
    + eapply Hone; [cbn [wrapper_step]; unfold on_connect; by rewrite E|done].
    + eapply Hone; [cbn [wrapper_step]; unfold on_connect; rewrite E, subscribe_eq; reflexivity|done].
  - by eapply Hone.
  - by eapply Hone.
  - by eapply Hone.
Qed.

Lemma hub_client_link e id m : hub_client e id = Ret (Some m) -> link m false.
Proof.
  unfold hub_client, MQTTAsync_create, MQTTAsync_createWithOptions. intros H.
  destruct (UTF8_validateString id) as [[]|]; [|done..]. cbn in H. destruct (_ && _); [done|]. injection H as <-.
  split; [|done]. constructor; cbn; try done; [by left|by intros [?|?]..].
Qed.

(** C5: take a client made as MQTTClientWrapper_init makes it and a sequence of
    calls of the application, turns of the sending and the receiving thread,
    timeouts and completed writes in which the application passes the success
    callbacks of connecting and disconnecting, as the wrapper does, and the
    broker sends no CONNACK to a client that is connected.  Then the callbacks
    have left the wrapper's [connected] flag what the client library's own
    state says: the wrapper believes it is connected exactly when the library
    is.  (With such a CONNACK it is not so: [second_connack_disagrees].) *)
Theorem connection_agreement junk end_point clientId m l outs m' s sub_rc :
  hub_client end_point clientId = Ret (Some m) ->
  proper_run junk m l -> arun junk l m = Ret (tt, outs, m') ->
  MqttWrapper.connected s = false ->
  exists s' acts, wrapper_run s (flat_map (hub_events sub_rc) outs) = Ret (s', acts)
    /\ MqttWrapper.connected s' = negb (MqttProtocol.connected (c m') =? 0).
Proof.
  intros Hc%hub_client_link Hp Hr Hs. destruct (wrapper_run_flag sub_rc outs s) as (s' & acts & Hw & Hf).
  exists s', acts. split; [done|]. rewrite Hf, Hs. pose proof (arun_link _ _ _ _ Hc Hp) as Hl. unfold wp in Hl. rewrite Hr in Hl. apply Hl.
Qed.

(** Connected, subscribed, and lost. *)
Definition session0 : list astep :=
  [AConnect answers0 connect_options0; AProcess answers0;
   AReceive answers0 true (0, 0) (0, Some (RConnack 0)) false [];
   ASubscribe answers0 [("hub/cmd/ALL"%string, 2)] (Some (true, true)); AProcess answers0;
   AReceive answers0 true (0, 0) (0, Some (RSuback 1 [2])) false [];
   AReceive answers0 true (0, 0) (-1, None) false []; AProcess answers0].

(** After a second CONNACK, be it one that accepts, the library has given the
    connection up and told nobody. *)
Lemma second_connack_disagrees :
  exists m outs m' s' acts, hub_client "tcp://b:1883" "id" = Ret (Some m)
    /\ arun 0 [AConnect answers0 connect_options0; AProcess answers0;
               AReceive answers0 true (0, 0) (0, Some (RConnack 0)) false [];
               AReceive answers0 true (0, 0) (0, Some (RConnack 0)) false []] m = Ret (tt, outs, m')
    /\ wrapper_run mqttClientStatus0 (flat_map (hub_events 0) outs) = Ret (s', acts)
    /\ MqttWrapper.connected s' = true /\ MqttProtocol.connected (c m') = 0.
Proof.
  eexists _, _, _, _, _. split; [vm_compute; reflexivity|]. split; [vm_compute; reflexivity|].
  split; [vm_compute; reflexivity|]. split; vm_compute; reflexivity.
Qed.

Lemma connection_agreement_witness :
  exists m outs m', hub_client "tcp://b:1883" "id" = Ret (Some m) /\ arun 0 session0 m = Ret (tt, outs, m') /\
    exists s' acts, wrapper_run mqttClientStatus0 (flat_map (hub_events 0) outs) = Ret (s', acts)
      /\ MqttWrapper.connected s' = negb (MqttProtocol.connected (c m') =? 0).
Proof.
  eexists _, _, _. split; [vm_compute; reflexivity|]. split; [vm_compute; reflexivity|].
  eapply (connection_agreement 0 "tcp://b:1883" "id" _ session0); [vm_compute; reflexivity|vm_compute; repeat split|vm_compute; reflexivity|reflexivity].
Defined.
