(* ===== verification/IniParser.v ===== *)
(** * Key-value files (utils/source/ini_parser.c, ini_parser_helper.c)

    The parser's list is the sequence of tags and values that the singly
    linked list of [SList] represents, with [_tag_value_hittest] (equality of
    the tag) as its callback.  A line is the text [fgets] put into the 1024
    byte buffer. *)

From Stdlib Require Import Ascii.
From S2P Require Import Prelude CString StringUtils FileSys.

Local Open Scope Z_scope.

Definition EQUALS : ascii := "="%char.

(** [tag_value]: a pair that was added has both strings. *)
Definition tag_value : Type := string * string.
Definition ini_parser : Type := list tag_value.

Definition new_ini_parser : ini_parser := [].

Definition _tag_value_hittest (node : tag_value) (key : string) : bool := strcmp_eq key node.1.

(** The first blanks of a line and the text after them. *)
Fixpoint skip_blanks (s : string) : nat * string :=
  match s with
  | String c s' => if decide (c = SPACE) then let '(n, r) := skip_blanks s' in (S n, r) else (O, s)
  | EmptyString => (O, EmptyString)
  end.

(** [while( *end == ' ') --end] over the key, whose first character is not a
    blank. *)
Definition trim_key (key : string) : string := string_trim_right key SPACE.

(** The last character dropped when it is [c]. *)
Fixpoint strip_last (s : string) (c : ascii) : string :=
  match s with
  | EmptyString => EmptyString
  | String d EmptyString => if decide (d = c) then EmptyString else s
  | String d s' => String d (strip_last s' c)
  end.

(** With an empty key the scan for its end starts below the first non-blank
    character; [before] is what lies in front of the line in the same buffer,
    nearest first.  It stays inside only when no blank was skipped and the
    line has a neighbour that is not a blank. *)
Definition empty_key (blanks : nat) (before : string) : comp string :=
  match blanks, before with
  | O, String c _ => if decide (c = SPACE) then Err OutOfBounds else Ret EmptyString
  | _, _ => Err OutOfBounds
  end.

Definition parse_line (before line : string) : comp (option tag_value) :=
  let '(blanks, p) := skip_blanks line in
  match p with
  | EmptyString => Ret None
  | String c _ =>
      if decide (c = CR \/ c = LF \/ c = "["%char \/ c = "#"%char) then Ret None
      else match strchr p EQUALS with
           | None => Ret None
           | Some (key, rest) =>
               let* szTag := (if decide (key = EmptyString) then empty_key blanks before else Ret (trim_key key)) in
               let '(_, v) := skip_blanks rest in
               if decide (v = EmptyString) then Ret None
               else
                 let szValue := strip_last (strip_last v LF) CR in
                 if decide (szValue = EmptyString) then Ret None else Ret (Some (szTag, szValue))
           end
  end.

(** [fgets(buf, n + 1, fp)]: at most [n] characters, up to and including a
    line feed. *)
Fixpoint fgets (n : nat) (s : string) : string * string :=
  match n, s with
  | S n, String c s' =>
      if decide (c = LF) then (String c EmptyString, s')
      else let '(a, b) := fgets n s' in (String c a, b)
  | _, _ => (EmptyString, s)
  end.

Fixpoint parse_lines (fuel : nat) (ini : ini_parser) (content : string) : comp ini_parser :=
  match fuel with
  | O => Err OutOfFuel
  | S fuel =>
      match content with
      | EmptyString => Ret ini
      | String _ _ =>
          let '(buf, rest) := fgets 1023 content in
          let* found := parse_line EmptyString (c_str buf) in
          parse_lines fuel (match found with Some kv => ini ++ [kv] | None => ini end) rest
      end
  end.

Definition _parse_file (s : fs) (ini : ini_parser) (file : string) : comp (ini_parser * Z) :=
  match files s !! file with
  | None => Ret ([], -1)
  | Some content =>
      let* ini := parse_lines (S (String.length content)) [] content in
      Ret (ini, Z.of_nat (length ini))
  end.

(** [_parse_text]: only lines that end in a line feed count; [before] is the
    text already passed, nearest character first. *)
Fixpoint str_rev_onto (s acc : string) : string :=
  match s with
  | EmptyString => acc
  | String c s => str_rev_onto s (String c acc)
  end.

Fixpoint parse_text_loop (fuel : nat) (ini : ini_parser) (before text : string) : comp ini_parser :=
  match fuel with
  | O => Err OutOfFuel
  | S fuel =>
      match strchr text LF with
      | None => Ret ini
      | Some (line, rest) =>
          let* found := parse_line before line in
          parse_text_loop fuel (match found with Some kv => ini ++ [kv] | None => ini end)
            (String LF (str_rev_onto line before)) rest
      end
  end.

Definition _parse_text (ini : ini_parser) (text : option string) : comp (ini_parser * Z) :=
  match text with
  | None => Ret (ini, -1)
  | Some text =>
      let* ini := parse_text_loop (S (String.length text)) ini EmptyString text in
      Ret (ini, Z.of_nat (length ini))
  end.

Fixpoint _value (ini : ini_parser) (key : string) : option string :=
  match ini with
  | [] => None
  | (t, v) :: ini => if _tag_value_hittest (t, v) key then Some v else _value ini key
  end.

Fixpoint _set_value (ini : ini_parser) (key value : string) : ini_parser :=
  match ini with
  | [] => [(key, value)]
  | (t, v) :: ini => if _tag_value_hittest (t, v) key then (t, value) :: ini else (t, v) :: _set_value ini key value
  end.

Fixpoint _remove (ini : ini_parser) (key : string) : ini_parser :=
  match ini with
  | [] => []
  | (t, v) :: ini => if _tag_value_hittest (t, v) key then ini else (t, v) :: _remove ini key
  end.

Definition write_keyvalue (kv : tag_value) : string := kv.1 +:+ "=" +:+ kv.2 +:+ String LF EmptyString.

Fixpoint ini_text (ini : ini_parser) : string :=
  match ini with
  | [] => EmptyString
  | kv :: ini => write_keyvalue kv +:+ ini_text ini
  end.

(** [opened]: whether [fopen(file, "w")] succeeded. *)
Definition _save_to_file (s : fs) (ini : ini_parser) (file : string) (opened : bool) : fs * Z :=
  if (0 <? Z.of_nat (length ini)) && opened then (set_file s file (ini_text ini), 0) else (s, -1).

(** ** ini_parser_helper.c *)

Definition create_app_ini_parser (s : fs) (exe : option string) (iniFileName : string) : comp (option ini_parser) :=
  let* (iniPath, rc) := get_local_file_path s exe iniFileName in
  if rc <? 0 then Ret None
  else
    let* (parser, size) := _parse_file s new_ini_parser iniPath in
    if size <=? 0 then Ret None else Ret (Some parser).

Definition get_int_from_ini_file (s : fs) (exe : option string) (iniFileName key : string) (defaultValue : Z) : comp Z :=
  let* parser := create_app_ini_parser s exe iniFileName in
  match parser with
  | None => Ret defaultValue
  | Some parser =>
      let str := _value parser key in
      if string_is_empty str then Ret defaultValue
      else if string_is_number str then Ret (atoi (safe_string str)) else Ret defaultValue
  end.

(** The result code and what [value] holds; [cap] is the size of that buffer,
    [value0] its content before the call. *)
Definition get_string_from_ini_file (s : fs) (exe : option string) (iniFileName key : string)
    (defaultValue : option string) (cap : Z) (value0 : string) : comp (Z * string) :=
  let* value := match defaultValue with Some d => write_buf cap d | None => Ret value0 end in
  let* parser := create_app_ini_parser s exe iniFileName in
  match parser with
  | None => Ret (-1, value)
  | Some parser =>
      let str := _value parser key in
      if string_is_empty str then Ret (-1, value)
      else let* value := write_buf cap (safe_string str) in Ret (0, value)
  end.

Example parse_line_ex1 : parse_line EmptyString ("  key = a b " +:+ String CR (String LF EmptyString)) = Ret (Some ("key", "a b ")).
Proof. reflexivity. Qed.
Example parse_line_ex2 : parse_line EmptyString " =x" = Err OutOfBounds.
Proof. reflexivity. Qed.

(** ** Facts *)

Definition first_ok (s : string) : bool :=
  match s with
  | String c _ => negb (bool_decide (c = SPACE \/ c = CR \/ c = LF \/ c = "["%char \/ c = "#"%char))
  | EmptyString => false
  end.

(** A pair that survives being written and read: the key starts with neither
    a blank, a bracket nor a hash, has no trailing blank, no equals sign; the
    value is not empty, does not start with a blank nor end in a carriage
    return; neither holds a line feed or NUL, and the line fits the buffer. *)
Record pair_ok (kv : tag_value) : Prop := {
  tag_first : first_ok kv.1 = true;
  tag_trim : trim_key kv.1 = kv.1;
  tag_eq : strchr kv.1 EQUALS = None;
  tag_lf : strchr kv.1 LF = None;
  tag_nul : strchr kv.1 NUL = None;
  value_first : exists c v, kv.2 = String c v /\ c <> SPACE;
  value_cr : strip_last kv.2 CR = kv.2;
  value_lf : strchr kv.2 LF = None;
  value_nul : strchr kv.2 NUL = None;
  line_fits : strlen kv.1 + strlen kv.2 + 2 <= 1023
}.

Lemma strchr_app_None s t c : strchr s c = None -> strchr t c = None -> strchr (s +:+ t) c = None.
Proof.
  intros Hs Ht. induction s as [|d s IH]; [done|]. cbn [strchr String.append] in *. case_decide; [done|].
  destruct (strchr s c) as [[? ?]|]; [done|]. by rewrite IH.
Qed.

Lemma fgets_line n l rest :
  strchr l LF = None -> (String.length l < n)%nat ->
  fgets n (l +:+ String LF rest) = (l +:+ String LF EmptyString, rest).
Proof.
  revert n. induction l as [|c l IH]; intros n Hl Hn; destruct n as [|n]; cbn [String.length] in Hn; try lia.
  - cbn. done.
  - cbn [String.append fgets strchr] in *. case_decide; [done|].
    destruct (strchr l LF) as [[? ?]|]; [done|]. by rewrite IH by (done || lia).
Qed.

Lemma strip_last_app s c : strip_last (s +:+ String c EmptyString) c = s.
Proof.
  induction s as [|d s IH]; [cbn; by rewrite decide_True|]. cbn [String.append].
  destruct (s +:+ String c EmptyString) as [|e t] eqn:E; [by destruct s|]. rewrite <- E in *.
  cbn [strip_last]. rewrite E, <- E, IH. done.
Qed.

Lemma c_str_id s : strchr s NUL = None -> c_str s = s.
Proof. unfold c_str. by intros ->. Qed.

Definition line_of (kv : tag_value) : string := kv.1 +:+ "=" +:+ kv.2.

Lemma write_keyvalue_eq kv rest : write_keyvalue kv +:+ rest = line_of kv +:+ String LF rest.
Proof. unfold write_keyvalue, line_of. by rewrite <- !str_app_assoc. Qed.

Lemma line_of_lf kv : pair_ok kv -> strchr (line_of kv) LF = None.
Proof. intros []. unfold line_of. by repeat apply strchr_app_None. Qed.

Lemma line_of_nul kv : pair_ok kv -> strchr (line_of kv +:+ String LF EmptyString) NUL = None.
Proof. intros []. unfold line_of. by repeat apply strchr_app_None. Qed.

Lemma parse_line_written kv :
  pair_ok kv -> parse_line EmptyString (line_of kv +:+ String LF EmptyString) = Ret (Some kv).
Proof.
  destruct kv as [t v]. intros [Hf Htr Heq _ _ (c & v' & Hv & Hc) Hcr _ _ _]. cbn [fst snd] in *. unfold line_of. cbn [fst snd].
  destruct t as [|d t]; [done|]. cbn [first_ok] in Hf. apply negb_true_iff, bool_decide_eq_false in Hf.
  unfold parse_line. cbn [String.append skip_blanks]. rewrite decide_False by naive_solver.
  rewrite decide_False by naive_solver.
  change (String d ((t +:+ "=" +:+ v) +:+ String LF "")) with ((String d t +:+ String EQUALS v) +:+ String LF "").
  rewrite <- str_app_assoc. cbn [String.append]. change (String d (t +:+ ?x)) with (String d t +:+ x).
  rewrite strchr_None_app by done. rewrite decide_False by done. rewrite Htr. cbn [mbind comp_bind].
  assert (skip_blanks (v +:+ String LF "") = (O, v +:+ String LF "")) as ->
    by (rewrite Hv; cbn [String.append skip_blanks]; by rewrite decide_False).
  rewrite decide_False by (by rewrite Hv). rewrite strip_last_app, Hcr. rewrite decide_False by (by rewrite Hv). done.
Qed.

Lemma parse_lines_text fuel acc l :
  Forall pair_ok l -> (String.length (ini_text l) < fuel)%nat -> parse_lines fuel acc (ini_text l) = Ret (acc ++ l).
Proof.
  revert acc l. induction fuel as [|fuel IH]; intros acc l Hl Hf; [lia|].
  destruct l as [|kv l]; [by rewrite app_nil_r|]. apply Forall_cons in Hl as [Hkv Hl].
  cbn [ini_text] in *. rewrite write_keyvalue_eq in *.
  assert (String.length (line_of kv) < 1023)%nat as Hlen.
  { pose proof (line_fits _ Hkv) as Hs. unfold line_of, strlen in *. rewrite !str_length_app. cbn [String.length]. lia. }
  pose proof (fgets_line 1023 (line_of kv) (ini_text l) (line_of_lf kv Hkv) Hlen) as Hg.
  cbn [parse_lines]. destruct (line_of kv +:+ String LF (ini_text l)) as [|c0 s0] eqn:E;
    [by destruct (line_of kv)|]. rewrite Hg.
  rewrite c_str_id by (by apply line_of_nul). rewrite parse_line_written by done. cbn [mbind comp_bind].
  apply (f_equal String.length) in E. rewrite str_length_app in E. cbn [String.length] in E, Hf.
  rewrite IH by (done || lia). by rewrite <- app_assoc.
Qed.

(** Writing a non-empty list of well-formed pairs to a file and parsing
    the file gives the same pairs in the same order, and leaves every other
    file alone. *)
Theorem save_parse_roundtrip (s : fs) (ini ini0 : ini_parser) (file : string) :
  ini <> [] -> Forall pair_ok ini ->
  let '(s', rc) := _save_to_file s ini file true in
  rc = 0 /\ _parse_file s' ini0 file = Ret (ini, Z.of_nat (length ini))
  /\ forall f, f <> file -> files s' !! f = files s !! f.
Proof.
  intros Hne Hok. unfold _save_to_file. rewrite (proj2 (Z.ltb_lt _ _)) by (destruct ini; [done|cbn; lia]). cbn [andb].
  split_and!; [done| |intros f Hf; cbn; by rewrite lookup_insert_ne].
  unfold _parse_file. cbn [files set_file]. rewrite lookup_insert_eq, parse_lines_text by (done || lia). done.
Qed.

Lemma pair_ok_demo : pair_ok ("host", "10.0.0.1").
Proof. constructor; try done. eexists _, _. by split. Qed.

Lemma save_parse_roundtrip_witness :
  let '(s', rc) := _save_to_file {| files := ∅; dirs := ∅; mtimes := ∅ |} [("host", "10.0.0.1")] "a.ini" true in
  rc = 0 /\ _parse_file s' [] "a.ini" = Ret ([("host", "10.0.0.1")], 1).
Proof.
  destruct (save_parse_roundtrip {| files := ∅; dirs := ∅; mtimes := ∅ |} [("host", "10.0.0.1")] [] "a.ini"
    ltac:(done) ltac:(repeat constructor; apply pair_ok_demo)) as (H1 & H2 & _). split; [exact H1|exact H2].
Defined.

Lemma value_set (ini : ini_parser) (k v k' : string) :
  _value (_set_value ini k v) k' = (if decide (k = k') then Some v else _value ini k').
Proof.
  induction ini as [|[t w] ini IH]; cbn; unfold _tag_value_hittest, strcmp_eq in *; cbn [fst].
  - destruct (decide (k = k')) as [->|]; [by rewrite bool_decide_eq_true_2|].
    by rewrite bool_decide_eq_false_2 by auto.
  - destruct (bool_decide_reflect (k = t)) as [->|Hk]; cbn; unfold _tag_value_hittest, strcmp_eq in *; cbn [fst].
    + destruct (bool_decide_reflect (k' = t)) as [->|]; [by rewrite decide_True|by rewrite decide_False by auto].
    + rewrite IH. destruct (bool_decide_reflect (k' = t)) as [->|]; [by rewrite decide_False|done].
Qed.

Lemma set_value_ok (ini : ini_parser) (k v : string) :
  Forall pair_ok ini -> pair_ok (k, v) -> Forall pair_ok (_set_value ini k v) /\ _set_value ini k v <> [].
Proof.
  intros Hl Hkv. induction Hl as [|[t w] ini Hw Hl [IH _]]; cbn; [by split; [constructor|]|].
  unfold _tag_value_hittest, strcmp_eq. cbn [fst].
  destruct (bool_decide_reflect (k = t)) as [->|]; (split; [by constructor|done]).
Qed.

Lemma strip_last_id s c : strchr s c = None -> strip_last s c = s.
Proof.
  induction s as [|d s IH]; [done|]. cbn [strchr strip_last]. case_decide; [done|].
  destruct (strchr s c) as [[? ?]|] eqn:E; [done|]. intros _. destruct s; [done|]. by rewrite IH.
Qed.

(** Setting a key makes it read as that value and leaves every other key
    and the number of the others alone; removing a key takes out its first
    pair only. *)
Theorem ini_set_get (ini : ini_parser) (k v k' : string) :
  _value (_set_value ini k v) k' = (if decide (k = k') then Some v else _value ini k')
  /\ (k <> k' -> _value (_remove ini k) k' = _value ini k')
  /\ length (_set_value ini k v) = (length ini + if _value ini k then 0 else 1)%nat
  /\ (forall t, _value ini t = None -> _remove ini t = ini).
Proof.
  split; [apply value_set|]. unfold _tag_value_hittest, strcmp_eq.
  induction ini as [|[t w] ini (IH2 & IH3 & IH4)]; [done|].
  cbn. unfold _tag_value_hittest, strcmp_eq in *. cbn [fst].
  destruct (bool_decide_reflect (k = t)) as [->|Hk]; cbn; unfold _tag_value_hittest, strcmp_eq in *; cbn [fst].
  - split_and!; [|lia|].
    + intros Hne. by rewrite bool_decide_eq_false_2 by auto.
    + intros t'. case_bool_decide; [done|]. intros Hn. by rewrite IH4.
  - split_and!.
    + intros Hne. by rewrite IH2.
    + rewrite IH3. lia.
    + intros t'. case_bool_decide; [done|]. intros Hn. by rewrite IH4.
Qed.

(** Parsing a line of a file fails exactly when nothing but blanks stands
    before the first equals sign: the scan for the end of the key then leaves
    the buffer.  Every other line is answered without a fault. *)
Theorem parse_line_faults (line : string) :
  (exists f, parse_line EmptyString line = Err f) <-> (exists rest, (skip_blanks line).2 = String EQUALS rest).
Proof.
  unfold parse_line. destruct (skip_blanks line) as [n p]. cbn [snd]. split.
  - intros [f H]. destruct p as [|c p]; [done|]. destruct (decide _); [done|].
    destruct (strchr (String c p) EQUALS) as [[key rest]|] eqn:E; [|done].
    destruct (decide (key = EmptyString)) as [->|Hk].
    + cbn [strchr] in E. destruct (decide (c = EQUALS)) as [->|]; [by eexists|].
      by destruct (strchr p EQUALS) as [[? ?]|].
    + cbn [mbind comp_bind] in H. destruct (skip_blanks rest) as [? v].
      destruct (decide (v = EmptyString)); [done|]. by destruct (decide _).
  - intros [rest ->]. exists OutOfBounds. rewrite decide_False by (by intros [|[|[|]]]).
    cbn [strchr]. rewrite decide_True by done. rewrite decide_True by done. by destruct n.
Qed.
