(* ===== verification/MsgCounter.v ===== *)
(** * Message counters (hub-app/source/msgcounter.c)

    Four counters in memory, each behind its own mutex, and their totals in an
    ini file behind another.  [save_msg_count_to_file] is cut at its critical
    sections: other threads may count messages between any two of them. *)

From Stdlib Require Import Ascii.
From S2P Require Import Prelude CString StringUtils FileSys IniParser.

Local Open Scope Z_scope.

Inductive counter : Set := Sent | OnlineDiscarded | OfflineDiscarded | OfflineSent.

#[global] Instance counter_eq_dec : EqDecision counter.
Proof. solve_decision. Defined.

Record counts := { c_sent : Z; c_online : Z; c_offline : Z; c_offsent : Z }.

Definition get (c : counts) (k : counter) : Z :=
  match k with
  | Sent => c_sent c | OnlineDiscarded => c_online c | OfflineDiscarded => c_offline c | OfflineSent => c_offsent c
  end.

Definition put (c : counts) (k : counter) (v : Z) : counts :=
  match k with
  | Sent => {| c_sent := v; c_online := c_online c; c_offline := c_offline c; c_offsent := c_offsent c |}
  | OnlineDiscarded => {| c_sent := c_sent c; c_online := v; c_offline := c_offline c; c_offsent := c_offsent c |}
  | OfflineDiscarded => {| c_sent := c_sent c; c_online := c_online c; c_offline := v; c_offsent := c_offsent c |}
  | OfflineSent => {| c_sent := c_sent c; c_online := c_online c; c_offline := c_offline c; c_offsent := v |}
  end.

Definition zero_counts : counts := {| c_sent := 0; c_online := 0; c_offline := 0; c_offsent := 0 |}.

Definition key_of (k : counter) : string :=
  match k with
  | Sent => "sentcount" | OnlineDiscarded => "onlinediscardcount"
  | OfflineDiscarded => "offlinediscardcount" | OfflineSent => "offlinesentcount"
  end.

Definition all_counters : list counter := [Sent; OnlineDiscarded; OfflineDiscarded; OfflineSent].

(** The four [increase_*] functions. *)
Definition increase (c : counts) (k : counter) : counts := put c k (to_int (get c k + 1)).
Definition increase_sent_msg_count (c : counts) : counts := increase c Sent.
Definition increase_online_discarded_msg_count (c : counts) : counts := increase c OnlineDiscarded.
Definition increase_offline_discarded_msg_count (c : counts) : counts := increase c OfflineDiscarded.
Definition increase_offline_sent_msg_count (c : counts) : counts := increase c OfflineSent.

Definition get_msg_count_file_path (home : string) : comp string :=
  let* p := write_buf POSIX_PATH_MAX home in
  let* p := write_buf POSIX_PATH_MAX (p +:+ "/") in
  let* p := write_buf POSIX_PATH_MAX (p +:+ "mqttmsghub-data") in
  write_buf POSIX_PATH_MAX (p +:+ "/" +:+ "msgcounter.ini").

(** A key that is missing, empty or not a number counts as zero. *)
Definition read_count (parser : ini_parser) (k : counter) : Z :=
  let str := _value parser (key_of k) in
  if string_is_empty str then 0
  else if string_is_number str then atoi (safe_string str) else 0.

Definition _read_total_msg_count (s : fs) (filePath : string) : comp (Z * counts) :=
  let* (parser, size) := _parse_file s new_ini_parser filePath in
  if size <=? 0 then Ret (FAILURE, zero_counts)
  else Ret (SUCCESS, {| c_sent := read_count parser Sent; c_online := read_count parser OnlineDiscarded;
                        c_offline := read_count parser OfflineDiscarded; c_offsent := read_count parser OfflineSent |}).

Definition set_count (c : counts) (parser : ini_parser) (k : counter) : comp ini_parser :=
  let* str := write_buf 64 (fmt_d (get c k)) in
  Ret (_set_value parser (key_of k) str).

(** The totals are put over what [parser] has read of the file; [opened] is
    whether the file can be opened for writing, which nobody asks. *)
Definition save_parsed (s : fs) (filePath : string) (parser : ini_parser) (c : counts) (opened : bool) : comp (fs * Z) :=
  let* parser := set_count c parser Sent in
  let* parser := set_count c parser OnlineDiscarded in
  let* parser := set_count c parser OfflineDiscarded in
  let* parser := set_count c parser OfflineSent in
  Ret ((_save_to_file s parser filePath opened).1, SUCCESS).
Definition _save_total_msg_count (s : fs) (filePath : string) (c : counts) (opened : bool) : comp (fs * Z) :=
  let* (parser, _) := _parse_file s new_ini_parser filePath in save_parsed s filePath parser c opened.

Definition get_total_msg_count (s : fs) (filePath : string) : comp (Z * counts) := _read_total_msg_count s filePath.
Definition clear_msg_count_file (s : fs) (filePath : string) (opened : bool) : comp fs :=
  let* (s, _) := _save_total_msg_count s filePath zero_counts opened in Ret s.

(** [sentCount += g_sent_msg_count; g_sent_msg_count = 0;] *)
Definition move_count (k : counter) (acc c : counts) : counts * counts :=
  (put acc k (to_int (get acc k + get c k)), put c k 0).

Definition all_zero (c : counts) : bool :=
  (c_sent c =? 0) && (c_online c =? 0) && (c_offline c =? 0) && (c_offsent c =? 0).

(** Without interference: the file system and the counters afterwards. *)
Definition save_msg_count_to_file (s : fs) (filePath : string) (c : counts) (opened : bool) : comp (fs * counts) :=
  if all_zero c then Ret (s, c)
  else
    let* (_, acc) := _read_total_msg_count s filePath in
    let '(acc, c) := move_count Sent acc c in
    let '(acc, c) := move_count OnlineDiscarded acc c in
    let '(acc, c) := move_count OfflineDiscarded acc c in
    let '(acc, c) := move_count OfflineSent acc c in
    let* (s, _) := _save_total_msg_count s filePath acc opened in
    Ret (s, c).

(** ** Threads

    [Saving readable acc todo]: a thread is inside [save_msg_count_to_file],
    holds the mutex of the file, has [acc] in its locals and still has [todo]
    to move; [readable] is whether it could open the file for reading. *)
Inductive phase : Type :=
  | Idle
  | Saving (readable : bool) (acc : counts) (todo : list counter).

Record mstate := { m_counts : counts; m_fs : fs; m_phase : phase }.

(** What a step counts, and whether an fopen failed in it. *)
Inductive label : Type := Counted (k : counter) | Quiet | OpenFailed.

Section threads.
Variable filePath : string.

(** What fopen for reading shows of the disk: a file that cannot be opened is
    as one that is not there. *)
Definition seen (readable : bool) (s : fs) : fs :=
  if readable then s else {| files := delete filePath (files s); dirs := dirs s; mtimes := mtimes s |}.

Definition opening (ok : bool) : label := if ok then Quiet else OpenFailed.

(** A thread may begin to save whatever the counters are: they are tested
    before the mutex is taken. *)
Inductive mstep : mstate -> label -> mstate -> Prop :=
  | m_increase st k :
      mstep st (Counted k) {| m_counts := increase (m_counts st) k; m_fs := m_fs st; m_phase := m_phase st |}
  | m_save_begin st readable rc acc :
      m_phase st = Idle -> _read_total_msg_count (seen readable (m_fs st)) filePath = Ret (rc, acc) ->
      mstep st (opening readable)
        {| m_counts := m_counts st; m_fs := m_fs st; m_phase := Saving readable acc all_counters |}
  | m_save_move st readable acc k todo :
      m_phase st = Saving readable acc (k :: todo) ->
      mstep st Quiet {| m_counts := (move_count k acc (m_counts st)).2; m_fs := m_fs st;
                        m_phase := Saving readable (move_count k acc (m_counts st)).1 todo |}
  | m_save_end st r acc readable opened parser n s' rc :
      m_phase st = Saving r acc [] -> _parse_file (seen readable (m_fs st)) new_ini_parser filePath = Ret (parser, n) ->
      save_parsed (m_fs st) filePath parser acc opened = Ret (s', rc) ->
      mstep st (opening (readable && opened)) {| m_counts := m_counts st; m_fs := s'; m_phase := Idle |}.

Inductive msteps : mstate -> list label -> mstate -> Prop :=
  | msteps_nil st : msteps st [] st
  | msteps_cons st st1 st' lab labs : mstep st lab st1 -> msteps st1 labs st' -> msteps st (lab :: labs) st'.

(** All messages counted so far, wherever the number is kept: a thread that
    could not read the file has not taken the totals in it. *)
Definition total (st : mstate) (file : counts) (k : counter) : Z :=
  get (m_counts st) k +
  match m_phase st with
  | Idle => get file k
  | Saving readable acc _ => get acc k + (if readable then 0 else get file k)
  end.
End threads.

(** ** Facts *)

Lemma get_put c k v k' : get (put c k v) k' = if decide (k = k') then v else get c k'.
Proof. by destruct k, k'. Qed.

Lemma key_of_inj k k' : key_of k = key_of k' -> k = k'.
Proof. by destruct k, k'. Qed.

Lemma count_pair_ok k z : 0 <= z <= INT_MAX -> pair_ok (key_of k, fmt_d z).
Proof.
  intros Hz. pose proof (fmt_d_digits z ltac:(lia)) as Hd.
  assert (is_int z) as Hi by (unfold is_int, INT_MIN; lia). pose proof (fmt_d_int_length z Hi).
  constructor; cbn [fst snd]; try (by destruct k); try (by apply strchr_digits).
  - destruct (fmt_d z) as [|c s] eqn:E; [by apply fmt_d_nonempty in E|]. cbn [str_forall] in Hd.
    apply andb_true_iff in Hd as [Hc _]. eexists _, _. split; [done|]. by apply (isdigit_ne c).
  - apply strip_last_id. by apply strchr_digits.
  - assert (strlen (key_of k) <= 20) by (by destruct k; vm_compute). lia.
Qed.

Lemma read_count_number l k z :
  0 <= z <= INT_MAX -> _value l (key_of k) = Some (fmt_d z) -> read_count l k = z.
Proof.
  intros Hz Hv. unfold read_count. rewrite Hv.
  assert (is_int z) as Hi by (unfold is_int, INT_MIN; lia).
  assert (string_is_empty (Some (fmt_d z)) = false) as ->.
  { apply Z.eqb_neq. pose proof (fmt_d_nonempty z). destruct (fmt_d z); [done|]. rewrite strlen_cons.
    pose proof (strlen_nonneg s). lia. }
  rewrite string_is_number_fmt_d by lia. cbn [safe_string]. by apply atoi_fmt_d.
Qed.

Lemma set_count_ok c l k :
  Forall pair_ok l -> 0 <= get c k <= INT_MAX ->
  exists l', set_count c l k = Ret l' /\ Forall pair_ok l' /\ l' <> []
    /\ read_count l' k = get c k /\ (forall k', k <> k' -> read_count l' k' = read_count l k').
Proof.
  intros Hl Hz. unfold set_count.
  assert (is_int (get c k)) as Hi by (unfold is_int, INT_MIN; lia). pose proof (fmt_d_int_length _ Hi).
  rewrite write_buf_ok by lia. cbn [mbind comp_bind]. eexists. split; [reflexivity|].
  destruct (set_value_ok l (key_of k) (fmt_d (get c k)) Hl (count_pair_ok k _ Hz)) as [Hl' Hne].
  split_and!; [done|done| |].
  - apply read_count_number; [done|]. by rewrite value_set, decide_True.
  - intros k' Hk. unfold read_count. rewrite value_set, decide_False; [done|]. intros E. by apply Hk, key_of_inj.
Qed.

(** The file holds the totals [c]: it is missing and they are zero, or it was
    written by the parser and reads as them. *)
Definition file_holds (s : fs) (filePath : string) (c : counts) : Prop :=
  (files s !! filePath = None /\ c = zero_counts)
  \/ exists l, l <> [] /\ Forall pair_ok l /\ files s !! filePath = Some (ini_text l)
       /\ forall k, read_count l k = get c k.

Lemma counts_ext c c' : (forall k, get c k = get c' k) -> c = c'.
Proof.
  intros H. destruct c, c'. f_equal; [apply (H Sent)|apply (H OnlineDiscarded)|apply (H OfflineDiscarded)|apply (H OfflineSent)].
Qed.

Lemma parse_file_holds s p c :
  file_holds s p c ->
  exists l n, _parse_file s new_ini_parser p = Ret (l, n) /\ Forall pair_ok l
    /\ (forall k, read_count l k = get c k) /\ (n <= 0 -> c = zero_counts).
Proof.
  intros [[Hf ->]|(l & Hne & Hl & Hf & Hc)]; unfold _parse_file; rewrite Hf.
  - exists [], (-1). by split_and!; [..|intros []|].
  - rewrite parse_lines_text by (done || lia). cbn [mbind comp_bind app]. eexists _, _. split; [reflexivity|].
    split_and!; [done|done|]. destruct l; [done|]. cbn [length]. lia.
Qed.

Lemma read_total_ok s p c :
  file_holds s p c -> exists rc, _read_total_msg_count s p = Ret (rc, c).
Proof.
  intros Hf. destruct (parse_file_holds s p c Hf) as (l & n & E & _ & Hc & Hz).
  unfold _read_total_msg_count. rewrite E. cbn [mbind comp_bind]. destruct (Z.leb_spec n 0) as [Hn|Hn].
  - exists FAILURE. by rewrite Hz.
  - exists SUCCESS. do 2 f_equal. apply counts_ext. intros []; apply Hc.
Qed.

Lemma save_parsed_ok s p l c opened :
  Forall pair_ok l -> (forall k, 0 <= get c k <= INT_MAX) ->
  exists s', save_parsed s p l c opened = Ret (s', SUCCESS) /\ if opened then file_holds s' p c else s' = s.
Proof.
  intros Hl Hc. unfold save_parsed.
  destruct (set_count_ok c l Sent Hl (Hc _)) as (l1 & -> & Hl1 & _ & R1 & _). cbn [mbind comp_bind].
  destruct (set_count_ok c l1 OnlineDiscarded Hl1 (Hc _)) as (l2 & -> & Hl2 & _ & R2 & F2). cbn [mbind comp_bind].
  destruct (set_count_ok c l2 OfflineDiscarded Hl2 (Hc _)) as (l3 & -> & Hl3 & _ & R3 & F3). cbn [mbind comp_bind].
  destruct (set_count_ok c l3 OfflineSent Hl3 (Hc _)) as (l4 & -> & Hl4 & Hne & R4 & F4). cbn [mbind comp_bind].
  eexists. split; [reflexivity|]. unfold _save_to_file.
  rewrite (proj2 (Z.ltb_lt _ _)) by (destruct l4; [done|cbn; lia]). destruct opened; [|done].
  right. exists l4. cbn. rewrite lookup_insert_eq.
  split_and!; [done..|]. intros []; rewrite ?F4, ?F3, ?F2 by done; done.
Qed.

Lemma save_total_ok s p c c0 :
  file_holds s p c0 -> (forall k, 0 <= get c k <= INT_MAX) ->
  exists s', _save_total_msg_count s p c true = Ret (s', SUCCESS) /\ file_holds s' p c.
Proof.
  intros Hf Hc. destruct (parse_file_holds s p c0 Hf) as (l & n & E & Hl & _).
  unfold _save_total_msg_count. rewrite E. cbn [mbind comp_bind]. exact (save_parsed_ok s p l c true Hl Hc).
Qed.

(** What is seen of a file that holds [c]. *)
Lemma seen_holds p readable s c :
  file_holds s p c -> file_holds (seen p readable s) p (if readable then c else zero_counts).
Proof. intros Hf. destruct readable; [done|]. left. cbn. by rewrite lookup_delete_eq. Qed.

(** Saving without interference. *)
Lemma save_ok s p c f :
  file_holds s p f -> (forall k, 0 <= get f k /\ 0 <= get c k /\ get f k + get c k <= INT_MAX) ->
  exists s' f', save_msg_count_to_file s p c true = Ret (s', if all_zero c then c else zero_counts)
    /\ file_holds s' p f' /\ (forall k, get f' k = get f k + get c k)
    /\ get_total_msg_count s' p = Ret (match files s' !! p with Some _ => SUCCESS | None => FAILURE end, f').
Proof.
  intros Hf Hb. assert (forall s f, file_holds s p f ->
    get_total_msg_count s p = Ret (match files s !! p with Some _ => SUCCESS | None => FAILURE end, f)) as Hget.
  { clear -s. intros s' f Hf. unfold get_total_msg_count.
    destruct Hf as [[Hn ->]|(l & Hne & Hl & Hs & Hc)]; unfold _read_total_msg_count, _parse_file.
    - by rewrite Hn.
    - rewrite Hs, parse_lines_text by (done || lia). cbn [mbind comp_bind app].
      rewrite (proj2 (Z.leb_gt _ _)) by (destruct l; [done|cbn [length]; lia]).
      do 2 f_equal. apply counts_ext. intros []; apply Hc. }
  unfold save_msg_count_to_file. destruct (all_zero c) eqn:Hz.
  - exists s, f. split_and!; [done|done| |by apply Hget]. intros k.
    unfold all_zero in Hz. rewrite !andb_true_iff, !Z.eqb_eq in Hz. destruct k; cbn; lia.
  - destruct (read_total_ok s p f Hf) as [rc ->]. cbn [mbind comp_bind move_count].
    rewrite !get_put, !decide_False by done.
    match goal with |- context [_save_total_msg_count s p ?a true] => set (acc := a) end.
    assert (forall k, get acc k = get f k + get c k) as Hacc.
    { intros k. unfold acc. rewrite !get_put. specialize (Hb k).
      assert (to_int (get f k + get c k) = get f k + get c k) as E by (apply to_int_id; unfold is_int, INT_MIN; lia).
      repeat case_decide; subst; done || (destruct k; done). }
    destruct (save_total_ok s p acc f Hf) as (s' & -> & Hs'); [intros k; rewrite Hacc; specialize (Hb k); lia|].
    cbn [mbind comp_bind]. exists s', acc. split_and!; [reflexivity|done|done|by apply Hget].
Qed.

(** Saving without interference adds every counter to its total in the
    file and sets it back to zero; with all counters at zero the file is not
    touched. *)
Theorem save_adds_counts s p c f :
  file_holds s p f -> (forall k, 0 <= get f k /\ 0 <= get c k /\ get f k + get c k <= INT_MAX) ->
  exists s' f', save_msg_count_to_file s p c true = Ret (s', if all_zero c then c else zero_counts)
    /\ file_holds s' p f' /\ (forall k, get f' k = get f k + get c k)
    /\ get_total_msg_count s' p = Ret (match files s' !! p with Some _ => SUCCESS | None => FAILURE end, f').
Proof. apply save_ok. Qed.

Section conservation.
Variable filePath : string.

Definition counts_of (k : counter) (lab : label) : Z :=
  match lab with Counted k' => if decide (k' = k) then 1 else 0 | _ => 0 end.
Fixpoint occurrences (k : counter) (labs : list label) : Z :=
  match labs with [] => 0 | lab :: labs => counts_of k lab + occurrences k labs end.

(** The file holds the totals saved so far, nothing is negative, and a thread
    that has read the file has not forgotten what was in it. *)
Definition counts_inv (st : mstate) (file : counts) : Prop :=
  file_holds (m_fs st) filePath file /\ (forall k, 0 <= get (m_counts st) k) /\ (forall k, 0 <= get file k) /\
  match m_phase st with
  | Idle => True
  | Saving readable acc _ => forall k, 0 <= get acc k /\ (readable = true -> get file k <= get acc k)
  end.

(** No thread that could not read the file is at work. *)
Definition file_read (st : mstate) : Prop := match m_phase st with Saving false _ _ => False | _ => True end.

Lemma occurrences_nonneg k labs : 0 <= occurrences k labs.
Proof. induction labs as [|[k'| |] labs IH]; cbn; [done| |lia..]. destruct (decide _); lia. Qed.

Definition conserved (st : mstate) (file : counts) (lab : label) (st' : mstate) : Prop :=
  exists file' lost, counts_inv st' file' /\ (forall k, 0 <= lost k) /\
    (file_read st -> lab <> OpenFailed -> file_read st' /\ forall k, lost k = 0) /\
    forall k, total st' file' k + lost k = total st file k + counts_of k lab.

Lemma increase_conserves st file k0 :
  counts_inv st file -> (forall k, total st file k + counts_of k (Counted k0) <= INT_MAX) ->
  conserved st file (Counted k0) {| m_counts := increase (m_counts st) k0; m_fs := m_fs st; m_phase := m_phase st |}.
Proof.
  unfold conserved, counts_inv, total, file_read, increase. cbn [m_counts m_fs m_phase counts_of]. intros (Hf & Hc & Hp & Ha) Hb.
  assert (to_int (get (m_counts st) k0 + 1) = get (m_counts st) k0 + 1) as ->.
  { apply to_int_id. specialize (Hb k0). rewrite decide_True in Hb by done. specialize (Hc k0). specialize (Hp k0).
    unfold is_int, INT_MIN. destruct (m_phase st) as [|[] acc todo]; [|specialize (Ha k0)..]; lia. }
  exists file, (fun _ => 0). split_and!; [done| |done|done|done|done|]; intros k; rewrite get_put;
    (destruct (decide (k0 = k)) as [->|]; [|try done; lia]); specialize (Hc k); lia.
Qed.

Lemma move_conserves st file r acc k0 todo :
  m_phase st = Saving r acc (k0 :: todo) -> counts_inv st file -> (forall k, total st file k <= INT_MAX) ->
  conserved st file Quiet {| m_counts := (move_count k0 acc (m_counts st)).2; m_fs := m_fs st;
                             m_phase := Saving r (move_count k0 acc (m_counts st)).1 todo |}.
Proof.
  unfold conserved, counts_inv, total, file_read. cbn [m_counts m_fs m_phase counts_of]. intros -> (Hf & Hc & Hp & Ha) Hb.
  cbn [fst snd move_count].
  assert (to_int (get acc k0 + get (m_counts st) k0) = get acc k0 + get (m_counts st) k0) as ->.
  { apply to_int_id. specialize (Hb k0). specialize (Hc k0). specialize (Ha k0). specialize (Hp k0). unfold is_int, INT_MIN. destruct r; lia. }
  exists file, (fun _ => 0). split_and!; try done; intros k; rewrite ?get_put; specialize (Hc k); specialize (Ha k); specialize (Hp k);
    (destruct (decide (k0 = k)) as [->|]; [|try done; lia]); try lia; split; [lia|intros Hr]; destruct Ha as [? Ha]; specialize (Ha Hr); lia.
Qed.

Lemma begin_conserves st file readable rc acc :
  m_phase st = Idle -> _read_total_msg_count (seen filePath readable (m_fs st)) filePath = Ret (rc, acc) -> counts_inv st file ->
  conserved st file (opening readable) {| m_counts := m_counts st; m_fs := m_fs st; m_phase := Saving readable acc all_counters |}.
Proof.
  unfold conserved, counts_inv, total, file_read. cbn [m_counts m_fs m_phase]. intros -> Hr (Hf & Hc & Hp & _).
  destruct (read_total_ok _ _ _ (seen_holds _ readable _ _ Hf)) as [rc' E]. rewrite E in Hr. injection Hr as -> <-.
  exists file, (fun _ => 0). split_and!; [done..| | | |]; destruct readable; cbn [opening counts_of]; try done; intros k; specialize (Hp k); destruct k; cbn in *; lia.
Qed.

Lemma end_conserves st file r acc readable opened parser n s' rc :
  m_phase st = Saving r acc [] -> _parse_file (seen filePath readable (m_fs st)) new_ini_parser filePath = Ret (parser, n) ->
  save_parsed (m_fs st) filePath parser acc opened = Ret (s', rc) ->
  counts_inv st file -> (forall k, total st file k <= INT_MAX) ->
  conserved st file (opening (readable && opened)) {| m_counts := m_counts st; m_fs := s'; m_phase := Idle |}.
Proof.
  unfold conserved, counts_inv, total, file_read. cbn [m_counts m_fs m_phase]. intros -> Hpa Hs (Hf & Hc & Hp & Ha) Hb.
  destruct (parse_file_holds _ _ _ (seen_holds _ readable _ _ Hf)) as (l & n' & E & Hl & _). rewrite E in Hpa. injection Hpa as -> _.
  destruct (save_parsed_ok (m_fs st) filePath parser acc opened Hl) as (s1 & E1 & Hs1).
  { intros k. specialize (Hb k). specialize (Hc k). specialize (Ha k). specialize (Hp k). destruct r; lia. }
  rewrite E1 in Hs. injection Hs as -> _. destruct opened; [|subst s'].
  - exists acc, (fun k => if r then 0 else get file k). split_and!; try done; [intros k; by apply Ha|intros k; by destruct r|by destruct r|].
    intros k. destruct readable, r; cbn [andb opening counts_of]; lia.
  - rewrite andb_false_r. exists file, (fun k => if r then get acc k - get file k else get acc k). split_and!; try done.
    + intros k. destruct (Ha k) as [? Hk]. destruct r; [specialize (Hk eq_refl)|]; lia.
    + intros k. destruct r; cbn [opening counts_of]; lia.
Qed.

Lemma mstep_conserves st lab st' file :
  mstep filePath st lab st' -> counts_inv st file -> (forall k, total st file k + counts_of k lab <= INT_MAX) ->
  conserved st file lab st'.
Proof.
  intros Hst Hi Hb. destruct Hst as [st k0|st readable rc acc Hi0 Hr|st r acc k0 todo Hs|st r acc readable opened parser n s' rc Hs Hp Hr].
  - by apply increase_conserves.
  - by eapply begin_conserves.
  - apply move_conserves; [done..|]. intros k. specialize (Hb k). cbn in Hb. lia.
  - eapply end_conserves; [done..|]. intros k. specialize (Hb k). destruct readable, opened; cbn in Hb; lia.
Qed.

(** C27: however the counting threads interleave with the threads that save
    the counters, and whichever fopen of the file fails, no message is counted
    twice: the totals in the file, in a saving thread and in memory together,
    and what was lost, grow by exactly the number of messages counted; and when
    no fopen fails nothing is lost.  (A failed fopen does lose counts:
    [failed_save_loses_counts].) *)
Theorem counters_conserved st labs st' file :
  msteps filePath st labs st' -> counts_inv st file ->
  (forall k, total st file k + occurrences k labs <= INT_MAX) ->
  exists file' lost, counts_inv st' file' /\ (forall k, 0 <= lost k) /\
    (file_read st -> OpenFailed ∉ labs -> forall k, lost k = 0) /\
    forall k, total st' file' k + lost k = total st file k + occurrences k labs.
Proof.
  intros Hs. revert file. induction Hs as [st|st st1 st' lab labs H1 _ IH]; intros file Hi Hb; cbn [occurrences] in *.
  - exists file, (fun _ => 0). split_and!; try done.
  - destruct (mstep_conserves _ _ _ file H1 Hi) as (f1 & l1 & Hi1 & Hl1 & Hz1 & E1).
    { intros k. specialize (Hb k). pose proof (occurrences_nonneg k labs). lia. }
    destruct (IH f1 Hi1) as (f' & l2 & Hi' & Hl2 & Hz2 & E2).
    { intros k. specialize (Hb k). specialize (E1 k). specialize (Hl1 k). lia. }
    exists f', (fun k => l1 k + l2 k). split_and!; [done| | |].
    + intros k. specialize (Hl1 k). specialize (Hl2 k). lia.
    + intros Hr Hn k. apply not_elem_of_cons in Hn as [Hn1 Hn2]. destruct (Hz1 Hr ltac:(congruence)) as [Hr1 Hz].
      specialize (Hz k). specialize (Hz2 Hr1 Hn2 k). lia.
    + intros k. specialize (E1 k). specialize (E2 k). lia.
Qed.
End conservation.

(** When the file cannot be opened for writing, saving zeroes the counters
    all the same: what they held is in no counter and in no file. *)
Lemma failed_save_loses_counts s p c f :
  file_holds s p f -> (forall k, 0 <= get f k /\ 0 <= get c k /\ get f k + get c k <= INT_MAX) -> all_zero c = false ->
  save_msg_count_to_file s p c false = Ret (s, zero_counts).
Proof.
  intros Hf Hb Hz. unfold save_msg_count_to_file. rewrite Hz. destruct (read_total_ok s p f Hf) as [rc ->]. cbn [mbind comp_bind move_count].
  rewrite !get_put, !decide_False by done.
  match goal with |- context [_save_total_msg_count s p ?a false] => set (acc := a) end.
  destruct (parse_file_holds s p f Hf) as (l & n & E & Hl & _). unfold _save_total_msg_count. rewrite E. cbn [mbind comp_bind].
  destruct (save_parsed_ok s p l acc false Hl) as (s' & -> & ->); [|done].
  intros k. specialize (Hb k). unfold acc. rewrite !get_put.
  assert (to_int (get f k + get c k) = get f k + get c k) as E2 by (apply to_int_id; unfold is_int, INT_MIN; lia).
  repeat case_decide; subst; rewrite ?E2; lia || (destruct k; done).
Qed.

(** A report that reads the totals, is sent, and then clears the file
    loses what was saved in between: those messages are in no counter and in
    no report. *)
Theorem report_race_loses_counts s p c f s1 c1 s2 :
  file_holds s p f -> (forall k, 0 <= get f k /\ 0 <= get c k /\ get f k + get c k <= INT_MAX) ->
  all_zero c = false ->
  save_msg_count_to_file s p c true = Ret (s1, c1) -> clear_msg_count_file s1 p true = Ret s2 ->
  (exists rc, get_total_msg_count s p = Ret (rc, f))
  /\ c1 = zero_counts /\ file_holds s2 p zero_counts.
Proof.
  intros Hf Hb Hz Hs Hc. split; [by apply read_total_ok|].
  assert (exists f1, file_holds s1 p f1 /\ c1 = zero_counts) as (f1 & Hf1 & ->).
  { unfold save_msg_count_to_file in Hs. rewrite Hz in Hs. destruct (read_total_ok s p f Hf) as [rc E].
    rewrite E in Hs. cbn [mbind comp_bind move_count] in Hs. rewrite !get_put, !decide_False in Hs by done.
    match type of Hs with context [_save_total_msg_count s p ?a true] => set (acc := a) in Hs end.
    destruct (save_total_ok s p acc f Hf) as (s' & E' & Hs').
    { intros k. specialize (Hb k). unfold acc. rewrite !get_put.
      assert (to_int (get f k + get c k) = get f k + get c k) as E2 by (apply to_int_id; unfold is_int, INT_MIN; lia).
      repeat case_decide; subst; rewrite ?E2; lia || (destruct k; done). }
    rewrite E' in Hs. injection Hs as <- <-. by exists acc. }
  split; [done|]. unfold clear_msg_count_file in Hc.
  destruct (save_total_ok s1 p zero_counts f1 Hf1) as (s' & E & Hs'); [by intros []|].
  rewrite E in Hc. by injection Hc as <-.
Qed.

(** A fresh start: no file, one message sent. *)
Definition demo_counts : counts := {| c_sent := 1; c_online := 0; c_offline := 0; c_offsent := 0 |}.
Definition demo_fs : fs := {| files := ∅; dirs := ∅; mtimes := ∅ |}.

Lemma demo_holds : file_holds demo_fs "c.ini" zero_counts.
Proof. by left. Qed.

Lemma save_adds_counts_witness :
  exists s' f', save_msg_count_to_file demo_fs "c.ini" demo_counts true = Ret (s', zero_counts) /\ get f' Sent = 1.
Proof.
  destruct (save_adds_counts demo_fs "c.ini" demo_counts zero_counts demo_holds ltac:(by intros [])) as (s' & f' & E & _ & Hg & _).
  exists s', f'. split; [exact E|]. exact (Hg Sent).
Defined.

(** One message is counted while another is being saved. *)
Definition demo_saving (m : Z) (acc : counts) (todo : list counter) : mstate :=
  {| m_counts := put zero_counts Sent m; m_fs := demo_fs; m_phase := Saving true acc todo |}.

Lemma counters_conserved_witness :
  exists file' lost, counts_inv "c.ini" (demo_saving 1 demo_counts [OnlineDiscarded; OfflineDiscarded; OfflineSent]) file' /\
    total (demo_saving 1 demo_counts [OnlineDiscarded; OfflineDiscarded; OfflineSent]) file' Sent + lost Sent = 2 /\ lost Sent = 0.
Proof.
  destruct (counters_conserved "c.ini" {| m_counts := demo_counts; m_fs := demo_fs; m_phase := Idle |} [Quiet; Quiet; Counted Sent]
    (demo_saving 1 demo_counts [OnlineDiscarded; OfflineDiscarded; OfflineSent]) zero_counts) as (f' & lost & Hi & _ & Hl & E).
  - eapply msteps_cons; [eapply (m_save_begin _ _ true); [done|vm_compute; reflexivity]|].
    eapply msteps_cons; [eapply m_save_move; reflexivity|]. eapply msteps_cons; [eapply m_increase|apply msteps_nil].
  - split_and!; [exact demo_holds|by intros []|by intros []|done].
  - by intros [].
  - exists f', lost. split; [exact Hi|]. split; [exact (E Sent)|]. apply Hl; [done|]. rewrite !not_elem_of_cons. split_and!; try done. apply not_elem_of_nil.
Defined.

Lemma report_race_loses_counts_witness : exists s1 s2,
  save_msg_count_to_file demo_fs "c.ini" demo_counts true = Ret (s1, zero_counts)
  /\ clear_msg_count_file s1 "c.ini" true = Ret s2 /\ file_holds s2 "c.ini" zero_counts.
Proof.
  eexists _, _. split; [vm_compute; reflexivity|]. split; [vm_compute; reflexivity|].
  refine (proj2 (proj2 (report_race_loses_counts demo_fs "c.ini" demo_counts zero_counts _ zero_counts _ demo_holds _ _ _ _)));
    [by intros []|done|vm_compute; reflexivity|vm_compute; reflexivity].
Defined.
