(* ===== verification/ThreadPool.v ===== *)
(** * The thread pool (utils/source/threadpool.c, hub-app/source/threadpoolwrapper.c)

    The pool's ring buffer with its indices, the workers as steps of a
    transition system, and the wrapper with its single global pool.  A call
    that waits for a mutex nobody will release never returns: [OutOfFuel]. *)

From S2P Require Import Prelude.

Local Open Scope Z_scope.

Definition MAX_THREADS : Z := 64.
Definition MAX_QUEUE : Z := 65536.
Definition threadpool_invalid : Z := -1.
Definition threadpool_lock_failure : Z := -2.
Definition threadpool_queue_full : Z := -3.
Definition threadpool_shutdown : Z := -4.
Definition threadpool_thread_failure : Z := -5.
Definition immediate_shutdown : Z := 1.
Definition graceful_shutdown : Z := 2.

Section threadpool.
(** A task: the function and its argument. *)
Context {T : Type}.

Record threadpool_t := {
  queue : list (option T);
  queue_size : Z;
  head : Z;
  tail : Z;
  count : Z;
  shutdown : Z;
  started : Z;
  thread_count : Z;
  lock_held : bool
}.

(** [created]: how many of the [pthread_create] calls succeed before one
    fails; memory and the mutex are taken to be available.  When not all are
    created the pool is destroyed again and the result is null. *)
Definition threadpool_create (threads size : Z) (created : nat) : option threadpool_t :=
  if (threads <=? 0) || (MAX_THREADS <? threads) || (size <=? 0) || (MAX_QUEUE <? size) then None
  else if (created <? Z.to_nat threads)%nat then None
  else Some {| queue := replicate (Z.to_nat size) None; queue_size := size; head := 0; tail := 0; count := 0;
               shutdown := 0; started := threads; thread_count := threads; lock_held := false |}.

Definition with_queue (p : threadpool_t) (q : list (option T)) (h t n : Z) : threadpool_t :=
  {| queue := q; queue_size := queue_size p; head := h; tail := t; count := n; shutdown := shutdown p;
     started := started p; thread_count := thread_count p; lock_held := lock_held p |}.
Definition with_shutdown (p : threadpool_t) (s : Z) : threadpool_t :=
  {| queue := queue p; queue_size := queue_size p; head := head p; tail := tail p; count := count p; shutdown := s;
     started := started p; thread_count := thread_count p; lock_held := lock_held p |}.
Definition with_started (p : threadpool_t) (n : Z) : threadpool_t :=
  {| queue := queue p; queue_size := queue_size p; head := head p; tail := tail p; count := count p;
     shutdown := shutdown p; started := n; thread_count := thread_count p; lock_held := lock_held p |}.
Definition with_lock (p : threadpool_t) (b : bool) : threadpool_t :=
  {| queue := queue p; queue_size := queue_size p; head := head p; tail := tail p; count := count p;
     shutdown := shutdown p; started := started p; thread_count := thread_count p; lock_held := b |}.

(** [None] for a null pool or a null function. *)
Definition threadpool_add (pool : option threadpool_t) (task : option T) : comp (option threadpool_t * Z) :=
  match pool, task with
  | Some p, Some f =>
      if lock_held p then Err OutOfFuel
      else
        let next := Z.rem (tail p + 1) (queue_size p) in
        if count p =? queue_size p then Ret (pool, threadpool_queue_full)
        else if negb (shutdown p =? 0) then Ret (pool, threadpool_shutdown)
        else
          let* q := arr_set (queue p) (tail p) (Some f) in
          Ret (Some (with_queue p q (head p) next (count p + 1)), 0)
  | _, _ => Ret (pool, threadpool_invalid)
  end.

(** One turn of the worker's loop, from taking the lock to releasing it. *)
Inductive turn :=
  | Wait
  | Exit (p : threadpool_t)
  | Run (f : T) (p : threadpool_t).

Definition threadpool_thread (p : threadpool_t) : comp turn :=
  if (count p =? 0) && (shutdown p =? 0) then Ret Wait
  else if (shutdown p =? immediate_shutdown) || ((shutdown p =? graceful_shutdown) && (count p =? 0)) then
    Ret (Exit (with_started p (started p - 1)))
  else
    let* f := arr_get (queue p) (head p) in
    match f with
    | Some f => Ret (Run f (with_queue p (queue p) (Z.rem (head p + 1) (queue_size p)) (tail p) (count p - 1)))
    | None => Err NullDeref
    end.

(** The part of [threadpool_destroy] before the joins.  When the pool is
    already shutting down the mutex is kept. *)
Definition threadpool_destroy_begin (p : threadpool_t) (graceful : bool) : comp (threadpool_t * Z) :=
  if lock_held p then Err OutOfFuel
  else if negb (shutdown p =? 0) then Ret (with_lock p true, threadpool_shutdown)
  else Ret (with_shutdown p (if graceful then graceful_shutdown else immediate_shutdown), 0).

(** [threadpool_free]: the pool is released when no worker is left. *)
Definition threadpool_free (pool : option threadpool_t) : option threadpool_t * Z :=
  match pool with
  | None => (None, -1)
  | Some p => if 0 <? started p then (pool, -1) else (None, 0)
  end.

(** ** The pool with its workers *)
Inductive worker : Type :=
  | Idle
  | Busy (f : T)
  | Exited.

(** [accepted] and [run]: the tasks [threadpool_add] took and those that were
    handed to a worker, in order. *)
Record system := { pool : threadpool_t; workers : list worker; accepted : list T; run : list T }.

Inductive pool_step : system -> system -> Prop :=
  | s_add s f p rc :
      threadpool_add (Some (pool s)) (Some f) = Ret (Some p, rc) ->
      pool_step s {| pool := p; workers := workers s;
                     accepted := accepted s ++ (if rc =? 0 then [f] else []); run := run s |}
  | s_run s i f p :
      workers s !! i = Some Idle -> lock_held (pool s) = false -> threadpool_thread (pool s) = Ret (Run f p) ->
      pool_step s {| pool := p; workers := <[i := Busy f]> (workers s); accepted := accepted s; run := run s ++ [f] |}
  | s_done s i f :
      workers s !! i = Some (Busy f) ->
      pool_step s {| pool := pool s; workers := <[i := Idle]> (workers s); accepted := accepted s; run := run s |}
  | s_exit s i p :
      workers s !! i = Some Idle -> lock_held (pool s) = false -> threadpool_thread (pool s) = Ret (Exit p) ->
      pool_step s {| pool := p; workers := <[i := Exited]> (workers s); accepted := accepted s; run := run s |}
  | s_destroy s g p rc :
      threadpool_destroy_begin (pool s) g = Ret (p, rc) ->
      pool_step s {| pool := p; workers := workers s; accepted := accepted s; run := run s |}.

(** ** Representation: the ring buffer holds the sequence [q] *)
Record ring (p : threadpool_t) (q : list T) : Prop := {
  ring_size : 0 < queue_size p <= MAX_QUEUE;
  ring_len : Z.of_nat (length (queue p)) = queue_size p;
  ring_head : 0 <= head p < queue_size p;
  ring_count : count p = Z.of_nat (length q) /\ count p <= queue_size p;
  ring_tail : tail p = (head p + count p) mod queue_size p;
  ring_elems : forall i x, q !! i = Some x ->
    queue p !! Z.to_nat ((head p + Z.of_nat i) mod queue_size p) = Some (Some x)
}.

Lemma ring_create threads size created p :
  threadpool_create threads size created = Some p -> ring p [].
Proof.
  unfold threadpool_create. destruct (_ || _) eqn:E; [done|]. destruct (_ <? _)%nat; [done|].
  rewrite !orb_false_iff, !Z.leb_gt, !Z.ltb_ge in E. intros [= <-]. constructor; cbn; try lia; try done.
  rewrite length_replicate. lia.
Qed.

Lemma mod_plus_inj h a b n : 0 < n -> 0 <= a < n -> 0 <= b < n -> (h + a) mod n = (h + b) mod n -> a = b.
Proof.
  intros Hn Ha Hb H. rewrite (Zplus_mod h a), (Zplus_mod h b) in H.
  rewrite (Z.mod_small a), (Z.mod_small b) in H by lia.
  pose proof (Z.mod_pos_bound h n Hn). set (r := h mod n) in *.
  destruct (Z_lt_ge_dec (r + a) n), (Z_lt_ge_dec (r + b) n).
  - rewrite !Z.mod_small in H by lia. lia.
  - rewrite Z.mod_small in H by lia. rewrite <- (Z.mod_unique_pos (r + b) n 1 (r + b - n)) in H by lia. lia.
  - rewrite <- (Z.mod_unique_pos (r + a) n 1 (r + a - n)) in H by lia. rewrite Z.mod_small in H by lia. lia.
  - rewrite <- (Z.mod_unique_pos (r + a) n 1 (r + a - n)), <- (Z.mod_unique_pos (r + b) n 1 (r + b - n)) in H by lia. lia.
Qed.

Lemma pool_add_ok p q f :
  ring p q -> lock_held p = false ->
  exists p' rc, threadpool_add (Some p) (Some f) = Ret (Some p', rc)
    /\ ring p' (q ++ (if rc =? 0 then [f] else []))
    /\ shutdown p' = shutdown p /\ lock_held p' = false /\ queue_size p' = queue_size p
    /\ rc = (if Z.of_nat (length q) =? queue_size p then threadpool_queue_full
             else if negb (shutdown p =? 0) then threadpool_shutdown else 0).
Proof.
  intros Hr Hl. pose proof Hr as [Hs Hlen Hh [Hc Hle] Ht He]. unfold threadpool_add. rewrite Hl, <- Hc.
  destruct (Z.eqb_spec (count p) (queue_size p)).
  { eexists _, _. split; [reflexivity|]. cbn. by rewrite app_nil_r. }
  destruct (shutdown p =? 0) eqn:Esh; cbn [negb].
  2: { eexists _, _. split; [reflexivity|]. cbn. by rewrite app_nil_r. }
  pose proof (Z.mod_pos_bound (head p + count p) (queue_size p)) as Hb.
  unfold arr_set. rewrite (proj2 (Z.leb_le _ _)), (proj2 (Z.ltb_lt _ _)) by lia. cbn [andb mbind comp_bind].
  eexists _, _. split; [reflexivity|]. split; [|done]. cbn [Z.eqb].
  constructor; cbn [queue queue_size head tail count with_queue].
  - done.
  - by rewrite length_insert.
  - done.
  - rewrite length_app. cbn [length]. lia.
  - rewrite Z.rem_mod_nonneg by lia. rewrite Ht, Zplus_mod_idemp_l. f_equal. lia.
  - intros i x Hi. apply lookup_app_Some in Hi as [Hi|[Hge Hi]].
    + rewrite list_lookup_insert_ne; [by apply He|]. apply lookup_lt_Some in Hi.
      intros E. rewrite Ht in E. apply Z2Nat.inj in E; [|lia|apply Z.mod_pos_bound; lia].
      apply mod_plus_inj in E; lia.
    + destruct (i - length q)%nat as [|n'] eqn:En; [|by destruct n']. injection Hi as ->.
      replace (Z.of_nat i) with (count p) by lia. rewrite <- Ht. apply list_lookup_insert_eq. lia.
Qed.

Lemma take_ok p q :
  ring p q ->
  threadpool_thread p =
    if (count p =? 0) && (shutdown p =? 0) then Ret Wait
    else if (shutdown p =? immediate_shutdown) || ((shutdown p =? graceful_shutdown) && (count p =? 0)) then
      Ret (Exit (with_started p (started p - 1)))
    else match q with
         | [] => threadpool_thread p
         | f :: q' => Ret (Run f (with_queue p (queue p) (Z.rem (head p + 1) (queue_size p)) (tail p) (count p - 1)))
         end.
Proof.
  intros [Hs Hlen Hh [Hc Hle] Ht He]. unfold threadpool_thread. destruct (_ && (shutdown p =? 0)); [done|].
  destruct (_ || _); [done|]. destruct q as [|f q']; [done|].
  specialize (He 0%nat f eq_refl). rewrite Z.add_0_r, Z.mod_small in He by lia.
  by rewrite (arr_get_Some _ _ (Some f)) by (done || lia).
Qed.

Lemma ring_pop p f q :
  ring p (f :: q) -> ring (with_queue p (queue p) (Z.rem (head p + 1) (queue_size p)) (tail p) (count p - 1)) q.
Proof.
  intros [Hs Hlen Hh [Hc Hle] Ht He]. cbn [length] in Hc. rewrite Z.rem_mod_nonneg by lia.
  constructor; cbn [queue queue_size head tail count with_queue]; [done|done|apply Z.mod_pos_bound; lia|lia| |].
  - rewrite Ht, Zplus_mod_idemp_l. f_equal. lia.
  - intros i x Hi. rewrite Zplus_mod_idemp_l. replace (head p + 1 + Z.of_nat i) with (head p + Z.of_nat (S i)) by lia.
    by apply He.
Qed.
End threadpool.
Arguments threadpool_t : clear implicits.
Arguments system : clear implicits.
Arguments worker : clear implicits.

Section fifo.
Context {T : Type}.
Implicit Types (p : threadpool_t T) (q : list T) (s : system T).

Record sys_inv s q : Prop := {
  si_ring : ring (pool s) q;
  si_fifo : accepted s = run s ++ q;
  si_shutdown : shutdown (pool s) = 0 \/ shutdown (pool s) = 1 \/ shutdown (pool s) = 2;
  si_exited : Exited ∈ workers s -> shutdown (pool s) <> 0 /\ (shutdown (pool s) = graceful_shutdown -> q = [])
}.

Lemma exited_insert (l : list (worker T)) i w : w <> Exited -> Exited ∈ <[i:=w]> l -> Exited ∈ l.
Proof.
  intros Hw Hin. apply list_elem_of_lookup in Hin as [j Hj]. destruct (decide (i = j)) as [->|].
  - destruct (decide (j < length l)%nat).
    + rewrite list_lookup_insert_eq in Hj by done. congruence.
    + rewrite list_insert_ge in Hj by lia. by apply list_elem_of_lookup_2 in Hj.
  - rewrite list_lookup_insert_ne in Hj by done. by apply list_elem_of_lookup_2 in Hj.
Qed.

Lemma ring_frame p p' q :
  queue p' = queue p -> queue_size p' = queue_size p -> head p' = head p -> tail p' = tail p ->
  count p' = count p -> ring p q -> ring p' q.
Proof. intros E1 E2 E3 E4 E5 []. constructor; by rewrite ?E1, ?E2, ?E3, ?E4, ?E5. Qed.

Lemma pool_step_inv s s' q : pool_step s s' -> sys_inv s q -> exists q', sys_inv s' q'.
Proof.
  intros Hst [Hr Hf Hs He].
  destruct Hst as [s f p rc Ha|s i f p Hi Hl Ht|s i f Hi|s i p Hi Hl Ht|s g p rc Hd].
  - destruct (lock_held (pool s)) eqn:Hl; [cbn in Ha; by rewrite Hl in Ha|].
    destruct (pool_add_ok (pool s) q f Hr Hl) as (p' & rc' & E & Hr' & Hs' & _ & _ & Hrc).
    rewrite E in Ha. injection Ha as <- <-. exists (q ++ if rc' =? 0 then [f] else []).
    constructor; cbn [pool workers accepted run]; [done|by rewrite Hf, <- app_assoc|by rewrite Hs'|].
    rewrite Hs'. intros Hin. destruct (He Hin) as [H0 Hg]. split; [done|]. intros Hgr.
    rewrite (Hg Hgr) in *. cbn [app].
    assert (rc' <> 0) as Hne; [|by rewrite (proj2 (Z.eqb_neq _ _) Hne)].
    rewrite Hrc. destruct (_ =? queue_size _); [done|]. by rewrite (proj2 (Z.eqb_neq _ _) H0).
  - rewrite (take_ok _ q Hr) in Ht.
    destruct ((count (pool s) =? 0) && (shutdown (pool s) =? 0)) eqn:E0; [done|].
    destruct ((shutdown (pool s) =? immediate_shutdown) || _) eqn:E1; [done|]. destruct q as [|f' q].
    + exfalso. pose proof (ring_count _ _ Hr) as [Hc _]. cbn [length] in Hc. rewrite Hc in E0, E1.
      apply orb_false_iff in E1 as [E1 E2]. rewrite andb_true_r in E2. cbn [andb] in E0.
      apply Z.eqb_neq in E0, E1, E2. unfold immediate_shutdown, graceful_shutdown in *. cbn in E0. lia.
    + injection Ht as -> <-. exists q. constructor; cbn [pool workers accepted run].
      * by apply ring_pop in Hr.
      * by rewrite Hf, <- app_assoc.
      * done.
      * intros Hin. apply exited_insert in Hin; [|done]. destruct (He Hin) as [? Hg]. split; [done|].
        intros Hgr. by specialize (Hg Hgr).
  - exists q. constructor; cbn [pool workers accepted run]; [done..|]. intros Hin.
    apply exited_insert in Hin; [|done]. by apply He.
  - rewrite (take_ok _ q Hr) in Ht.
    destruct ((count (pool s) =? 0) && (shutdown (pool s) =? 0)) eqn:E0; [done|].
    destruct ((shutdown (pool s) =? immediate_shutdown) || _) eqn:E1.
    + injection Ht as <-. exists q. constructor; cbn [pool workers accepted run];
        [by apply (ring_frame (pool s))|done|done|]. intros _. cbn [shutdown with_started].
      unfold immediate_shutdown, graceful_shutdown in *. split.
      * intros E. rewrite E in E1. cbn in E1. discriminate E1.
      * intros E. rewrite E in E1. cbn in E1. apply Z.eqb_eq in E1. pose proof (ring_count _ _ Hr) as [Hc _].
        destruct q; [done|]. cbn [length] in Hc. lia.
    + destruct q as [|f' q]; [|done]. exfalso. pose proof (ring_count _ _ Hr) as [Hc _]. cbn [length] in Hc.
      rewrite Hc in E0, E1. apply orb_false_iff in E1 as [E1 E2]. rewrite andb_true_r in E2. cbn [andb] in E0.
      apply Z.eqb_neq in E0, E1, E2. unfold immediate_shutdown, graceful_shutdown in *. cbn in E0. lia.
  - exists q. unfold threadpool_destroy_begin in Hd. destruct (lock_held (pool s)); [done|].
    destruct (Z.eqb_spec (shutdown (pool s)) 0) as [E|E]; cbn [negb] in Hd; injection Hd as <- _;
      constructor; cbn [pool workers accepted run]; try done.
    + by apply (ring_frame (pool s)).
    + destruct g; cbn; auto.
    + intros Hin. by destruct (He Hin) as [? _].
    + by apply (ring_frame (pool s)).
Qed.

(** C29: for every number of workers and every interleaving of submitting,
    running, finishing and shutting down, the tasks handed to workers are a
    prefix of the accepted ones, in the order they were accepted and each
    once; no more than [queue_size] wait; and once a worker has left after a
    graceful shutdown, every accepted task has been handed out. *)
Theorem pool_fifo (threads size : Z) (created n : nat) (p : threadpool_t T) (s : system T) :
  threadpool_create threads size created = Some p ->
  rtc pool_step {| pool := p; workers := replicate n Idle; accepted := []; run := [] |} s ->
  exists q, accepted s = run s ++ q /\ Z.of_nat (length q) <= queue_size (pool s)
    /\ (Exited ∈ workers s -> shutdown (pool s) = graceful_shutdown -> run s = accepted s).
Proof.
  intros Hc Hs. assert (exists q, sys_inv {| pool := p; workers := replicate n Idle; accepted := []; run := [] |} q) as [q0 H0].
  { exists []. pose proof (ring_create _ _ _ _ Hc). unfold threadpool_create in Hc.
    destruct (_ || _); [done|]. destruct (_ <? _)%nat; [done|]. injection Hc as <-.
    constructor; cbn; [done|done|by left|]. intros Hin. by apply elem_of_replicate in Hin as [? _]. }
  assert (exists q, sys_inv s q) as [q [Hr Hf _ He]].
  { clear Hc. revert q0 H0. induction Hs as [s0|s0 s1 s' H1 _ IH]; intros q0 H0; [by exists q0|].
    destruct (pool_step_inv _ _ _ H1 H0) as [q1 ?]. by apply (IH q1). }
  exists q. split; [done|]. split; [pose proof (ring_count _ _ Hr); lia|].
  intros Hin Hg. destruct (He Hin) as [_ Hq]. by rewrite Hf, (Hq Hg), app_nil_r.
Qed.

(** Destroying a pool that is already shutting down returns
    [threadpool_shutdown] with the mutex still locked: no submission, no
    further destroy returns after it. *)
Theorem second_destroy_locks_pool p g f :
  lock_held p = false -> shutdown p <> 0 ->
  exists p', threadpool_destroy_begin p g = Ret (p', threadpool_shutdown)
    /\ threadpool_add (Some p') (Some f) = Err OutOfFuel
    /\ forall g', threadpool_destroy_begin p' g' = Err OutOfFuel.
Proof.
  intros Hl Hs. unfold threadpool_destroy_begin. rewrite Hl, (proj2 (Z.eqb_neq _ _) Hs). by eexists.
Qed.
End fifo.

(** ** The wrapper *)
Definition THREAD_COUNT : Z := 1.
Definition TASK_QUEUE_COUNT : Z := 2048.

Section wrapper.
Context {T : Type}.

(** [g_threadpool]: null, the live pool, or a pointer to a released one. *)
Inductive pool_ptr :=
  | Null
  | Live (p : threadpool_t T)
  | Dangling.

Definition ThreadPoolWrapper_init (g : pool_ptr) (created : nat) : pool_ptr * Z :=
  match g with
  | Null => match threadpool_create THREAD_COUNT TASK_QUEUE_COUNT created with
            | Some p => (Live p, SUCCESS)
            | None => (Null, FAILURE)
            end
  | _ => (g, SUCCESS)
  end.

Definition ThreadPoolWrapper_isInited (g : pool_ptr) : bool := match g with Null => false | _ => true end.

Definition ThreadPoolWrapper_addTask (g : pool_ptr) (task : option T) (created : nat) : comp (pool_ptr * Z) :=
  let '(g, rc) := if ThreadPoolWrapper_isInited g then (g, SUCCESS) else ThreadPoolWrapper_init g created in
  if rc <? 0 then Ret (g, FAILURE)
  else match g with
       | Null => Ret (g, threadpool_invalid)
       | Dangling => Err UseAfterFree
       | Live p =>
           let* (p, rc) := threadpool_add (Some p) task in
           Ret (match p with Some p => Live p | None => Null end, rc)
       end.

(** [finished]: the pool as it is when the last worker has been joined. *)
Definition ThreadPoolWrapper_deinit (g : pool_ptr) (graceful : bool) (finished : threadpool_t T -> threadpool_t T)
    : comp (pool_ptr * Z) :=
  match g with
  | Null => Ret (g, SUCCESS)
  | Dangling => Err UseAfterFree
  | Live p =>
      let* (p, rc) := threadpool_destroy_begin p graceful in
      if negb (rc =? 0) then Ret (Live p, rc)
      else match threadpool_free (Some (finished p)) with
           | (None, _) => Ret (Dangling, rc)
           | (Some p, _) => Ret (Live p, rc)
           end
  end.

(** A task is accepted by the wrapper from the first use on, with the
    pool created on demand; but the pointer is not reset by
    [ThreadPoolWrapper_deinit], so after a successful shutdown the wrapper
    still reports a pool and the next task is submitted to released memory. *)
Theorem wrapper_lifecycle (f : T) (created : nat) (graceful : bool) (finished : threadpool_t T -> threadpool_t T) :
  (1 <= created)%nat -> (forall p, started (finished p) = 0) ->
  exists p, ThreadPoolWrapper_addTask Null (Some f) created = Ret (Live p, 0)
    /\ ring p [f]
    /\ ThreadPoolWrapper_deinit (Live p) graceful finished = Ret (Dangling, 0)
    /\ ThreadPoolWrapper_isInited Dangling = true
    /\ ThreadPoolWrapper_addTask Dangling (Some f) created = Err UseAfterFree.
Proof.
  intros Hc Hfin. unfold ThreadPoolWrapper_addTask. cbn [ThreadPoolWrapper_isInited ThreadPoolWrapper_init].
  destruct (threadpool_create THREAD_COUNT TASK_QUEUE_COUNT created) as [p0|] eqn:E.
  - pose proof (ring_create _ _ _ _ E) as Hr. unfold threadpool_create in E.
    destruct (_ || _); [done|]. destruct (_ <? _)%nat; [done|].
    assert (lock_held p0 = false /\ shutdown p0 = 0 /\ queue_size p0 = 2048) as (Hl & Hs & Hq) by (by injection E as <-).
    destruct (pool_add_ok p0 [] f Hr Hl) as (p & rc & Ea & Hr' & Hs' & Hl' & _ & Hrc).
    rewrite Hq, Hs in Hrc. cbn in Hrc. subst rc.
    cbn [SUCCESS Z.ltb Z.compare]. rewrite Ea. cbn [mbind comp_bind]. exists p. split; [done|]. split; [exact Hr'|].
    split; [|done]. unfold ThreadPoolWrapper_deinit, threadpool_destroy_begin. rewrite Hl', Hs', Hs.
    cbn [negb Z.eqb mbind comp_bind threadpool_free]. by rewrite Hfin.
  - exfalso. unfold threadpool_create in E. destruct (_ || _) eqn:E0; [by vm_compute in E0|].
    destruct (Nat.ltb_spec created (Z.to_nat THREAD_COUNT)); [|done]. unfold THREAD_COUNT in *. lia.
Qed.
End wrapper.

Definition demo_pool : threadpool_t Z :=
  {| queue := [None; None]; queue_size := 2; head := 0; tail := 0; count := 0; shutdown := 0;
     started := 1; thread_count := 1; lock_held := false |}.

Lemma pool_fifo_witness : exists s : system Z,
  rtc pool_step {| pool := demo_pool; workers := [Idle]; accepted := []; run := [] |} s
  /\ exists q, accepted s = run s ++ q /\ Z.of_nat (length q) <= 2.
Proof.
  set (s := {| pool := with_queue demo_pool [Some 7; None] 0 1 1; workers := [Idle]; accepted := [7]; run := [] |}).
  assert (rtc pool_step {| pool := demo_pool; workers := replicate 1 Idle; accepted := []; run := [] |} s) as H.
  { apply rtc_once. by apply (s_add {| pool := demo_pool; workers := [Idle]; accepted := []; run := [] |} 7 _ 0). }
  exists s. split; [exact H|]. destruct (pool_fifo 1 2 1 1 demo_pool s eq_refl H) as (q & E & Hq & _). by exists q.
Defined.

Lemma second_destroy_locks_pool_witness :
  exists p', threadpool_destroy_begin (with_shutdown demo_pool 2) true = Ret (p', threadpool_shutdown)
    /\ threadpool_add (Some p') (Some 7) = Err OutOfFuel.
Proof.
  destruct (second_destroy_locks_pool (with_shutdown demo_pool 2) true 7 eq_refl ltac:(done)) as (p' & E & H & _).
  by exists p'.
Defined.

Lemma wrapper_lifecycle_witness :
  ThreadPoolWrapper_addTask (@Dangling Z) (Some 7) 1 = Err UseAfterFree.
Proof.
  destruct (wrapper_lifecycle 7 1 true (fun p => with_started p 0) ltac:(lia) ltac:(done)) as (p & _ & _ & _ & _ & E).
  exact E.
Defined.
