(* ===== verification/MsgRecv.v ===== *)
(** * Received commands and the pipe (hub-app/source/msgrevhandler.c, writepipe.c)

    A command that arrives over MQTT is checked, its payload is encoded in
    Base64, and a JSON line is handed to the thread pool, which writes it to a
    FIFO. *)

From Stdlib Require Import Ascii.
From S2P Require Import Prelude CString StringUtils Base64 FileSys SendReqParser Cipher ThreadPool.

Local Open Scope Z_scope.

Definition CMD_TOPIC : string := "hub/cmd".
Definition CMD_ALL_SUB_TOPIC : string := "ALL".

(** ** writepipe.c *)

Section pipe.
(** The system calls act on a world of the operating system's own. *)
Context {W : Type}.
Variable path_exists file_exists : W -> string -> bool.
Variable mkdir mkfifo : W -> string -> W * Z.
Variable open : W -> string -> Z.

(** A failure of [mkdirp] is only logged. *)
Definition get_fifo_file_path (w : W) (home : string) : comp (W * string) :=
  let* p := write_buf POSIX_PATH_MAX home in
  let* p := write_buf POSIX_PATH_MAX (p +:+ "/") in
  let* p := write_buf POSIX_PATH_MAX (p +:+ "mqttmsghub-data") in
  let* w := if path_exists w p then Ret w
            else let* (w, _) := mkdirp mkdir (Z.to_nat POSIX_PATH_MAX) w (Some p) in Ret w in
  let* p := write_buf POSIX_PATH_MAX (p +:+ "/") in
  let* p := write_buf POSIX_PATH_MAX (p +:+ "mqtt_received_fifo") in
  Ret (w, p).

(** The descriptor and the result code. *)
Definition open_write_pipe (w : W) (home : string) (g_pipe_fd : Z) : comp (W * Z * Z) :=
  let* (w, fifoFilePath) := get_fifo_file_path w home in
  let missing := negb (file_exists w fifoFilePath) in
  let '(w, rc) := if missing then mkfifo w fifoFilePath else (w, FAILURE) in
  if missing && (rc <? 0) then Ret (w, g_pipe_fd, rc)
  else
    let fd := open w fifoFilePath in
    Ret (w, fd, if fd <? 0 then fd else SUCCESS).

(** The task: the descriptor afterwards, and what is written to which
    descriptor. *)
Definition write_pipe_thread_fun (w : W) (home : string) (g_pipe_fd : Z) (buffer : string)
    : comp (W * Z * option (Z * string)) :=
  if g_pipe_fd <=? 0 then
    let* (w, fd, rc) := open_write_pipe w home g_pipe_fd in
    Ret (w, fd, if rc <? 0 then None else Some (fd, buffer))
  else Ret (w, g_pipe_fd, Some (g_pipe_fd, buffer)).
End pipe.

Definition close_write_pipe (g_pipe_fd : Z) : option Z * Z :=
  (if 0 <? g_pipe_fd then Some g_pipe_fd else None, SUCCESS).

(** The line is copied and submitted; the result of the submission is not
    looked at. *)
Definition write_pipe_buffer (g : @pool_ptr string) (created : nat) (buffer : string) : comp (@pool_ptr string) :=
  if string_is_empty (Some buffer) then Ret g
  else let* (g, _) := ThreadPoolWrapper_addTask g (Some buffer) created in Ret g.

(** ** msgrevhandler.c *)

(** The text of the bytes before the terminator of a [char] array. *)
Fixpoint text_of (l : list Z) : comp string :=
  match l with
  | [] => Err OutOfBounds
  | z :: l => if z =? 0 then Ret EmptyString else let* s := text_of l in Ret (String (chr z) s)
  end.

(** The address part of the topic: the JSON member for this device, nothing
    for all devices, [None] for anything else. *)
Definition command_target (topicTail : string) : comp (option string) :=
  if string_equals topicTail get_device_sn true then
    let* sub := write_buf 64 (quoted "sn" +:+ ":" +:+ quoted (string_upper_case topicTail) +:+ ",") in
    Ret (Some sub)
  else if string_equals topicTail CMD_ALL_SUB_TOPIC true then Ret (Some EmptyString)
  else Ret None.

Definition pipe_line (topic sub base64payload : string) : string :=
  "{" +:+ quoted "topic" +:+ ":" +:+ quoted topic +:+ "," +:+ sub +:+ quoted "payload" +:+ ":"
    +:+ quoted base64payload +:+ "}".

(** The result, and the line given to [write_pipe_buffer]. *)
Definition msg_received_handler (topic : string) (payload : option (list Z)) (payloadLen : Z)
    : comp (bool * option string) :=
  if negb (strstr topic CMD_TOPIC) then Ret (false, None)
  else match strrchr topic SLASH with
       | None => Ret (false, None)
       | Some (_, splitter) =>
           let* topicTail := write_buf 64 splitter in
           let* target := command_target topicTail in
           match target with
           | None => Ret (false, None)
           | Some deviceSNSubJson =>
               match payload with
               | Some bytes =>
                   if 0 <? payloadLen then
                     let base64size := Base64.calc_base64_encrypted_size payloadLen in
                     let* (_, out) := Base64.base64_encrypt bytes payloadLen (replicate (Z.to_nat base64size) 1) in
                     let* base64payload := text_of out in
                     if string_is_empty (Some base64payload) then Ret (true, None)
                     else
                       let* line := write_buf (base64size + 1 + strlen topic + 256)
                                      (pipe_line topic deviceSNSubJson base64payload) in
                       Ret (true, Some line)
                   else Ret (true, None)
               | None => Ret (true, None)
               end
           end
       end.

Example handler_ex :
  msg_received_handler "hub/cmd/all" (Some [77; 97; 110]) 3 =
    Ret (true, Some ("{" +:+ quoted "topic" +:+ ":" +:+ quoted "hub/cmd/all" +:+ "," +:+ quoted "payload" +:+ ":"
                       +:+ quoted "TWFu" +:+ "}")).
Proof. reflexivity. Qed.

(** ** Facts *)

Lemma en_char_range k : 0 <= k < 64 -> 43 <= Base64.en k <= 122.
Proof.
  intros Hk. destruct (Base64.de_ok k Hk) as (_ & H & _). apply orb_false_iff in H as [H1 H2].
  apply Z.ltb_ge in H1, H2. unfold Base64.BASE64DE_FIRST, Base64.BASE64DE_LAST in *. lia.
Qed.

Lemma encode_chars l : Forall is_byte l -> Forall (fun z => 43 <= z <= 122) (Base64.encode l).
Proof.
  induction l as [| | |a b c l IH] using Base64.list_ind3; intros Hl; repeat (apply Forall_cons in Hl as [? Hl]);
    unfold is_byte, Base64.BASE64_PAD in *; cbn [Base64.encode]; repeat apply Forall_cons_2; try apply Forall_nil_2;
    try (apply en_char_range; Z.div_mod_to_equations; lia); try (unfold Base64.BASE64_PAD; lia). by apply IH.
Qed.

Lemma text_of_app l rest :
  Forall (fun z => 43 <= z <= 122) l ->
  exists s, text_of (l ++ 0 :: rest) = Ret s /\ strlen s = Z.of_nat (length l)
    /\ chars s = l.
Proof.
  induction 1 as [|z l Hz _ (s & E & Hs & Hc)]; [by exists EmptyString|].
  cbn [app text_of]. rewrite (proj2 (Z.eqb_neq z 0)) by lia. rewrite E. cbn [mbind comp_bind].
  eexists. split; [done|]. rewrite strlen_cons, Hs. cbn [length]. split; [lia|].
  cbn. unfold char_val at 1. rewrite uchar_val_chr by lia. rewrite (proj2 (Z.ltb_lt _ _)) by lia. by f_equal.
Qed.

Lemma chars_length s : Z.of_nat (length (chars s)) = strlen s.
Proof.
  unfold chars. rewrite length_fmap. unfold strlen. f_equal.
  induction s as [|c s IH]; [done|]. cbn. by f_equal.
Qed.

Lemma strlen_upper s : strlen (string_upper_case s) = strlen s.
Proof. apply strlen_map. Qed.

(** The two addresses a device listens to. *)
Definition for_us (tail : string) : bool :=
  string_equals tail get_device_sn true || string_equals tail CMD_ALL_SUB_TOPIC true.

Lemma command_target_ok tail : strlen tail < 48 ->
  if for_us tail then exists sub, command_target tail = Ret (Some sub) /\ strlen sub <= 64
  else command_target tail = Ret None.
Proof.
  intros Hl. unfold command_target, for_us. destruct (string_equals tail get_device_sn true); cbn [orb].
  - exists (quoted "sn" +:+ ":" +:+ quoted (string_upper_case tail) +:+ ","). assert (strlen (quoted "sn" +:+ ":" +:+ quoted (string_upper_case tail) +:+ ",") = strlen tail + 8) as E.
    { rewrite !strlen_app, !strlen_quoted, strlen_upper. change (strlen "sn") with 2.
      change (strlen ":") with 1. change (strlen ",") with 1. lia. }
    rewrite write_buf_ok by lia. split; [done|]. lia.
  - destruct (string_equals tail CMD_ALL_SUB_TOPIC true); [|done].
    exists EmptyString. split; [done|]. by vm_compute.
Qed.

Lemma strlen_pipe_line topic sub b64 :
  strlen (pipe_line topic sub b64) = strlen topic + strlen sub + strlen b64 + 25.
Proof.
  unfold pipe_line. rewrite !strlen_app, !strlen_quoted.
  change (strlen "{") with 1. change (strlen "topic") with 5. change (strlen ":") with 1.
  change (strlen ",") with 1. change (strlen "payload") with 7. change (strlen "}") with 1. lia.
Qed.

Lemma strlen_tail topic pre tail : strrchr topic SLASH = Some (pre, tail) -> strlen tail < strlen topic.
Proof.
  intros H. apply strrchr_Some in H as [-> _]. rewrite strlen_app, strlen_cons.
  pose proof (strlen_nonneg pre). lia.
Qed.

(** The encoding of a non-empty payload, as the text of the C buffer. *)
Lemma encoded_text bytes :
  bytes <> [] -> Forall is_byte bytes -> Z.of_nat (length bytes) <= INT_MAX ->
  let n := Z.of_nat (length bytes) in
  exists out b64,
    Base64.base64_encrypt bytes n (replicate (Z.to_nat (Base64.calc_base64_encrypted_size n)) 1)
      = Ret (Base64.BASE64_OK, out)
    /\ text_of out = Ret b64 /\ chars b64 = Base64.encode bytes
    /\ 0 < strlen b64 < Base64.calc_base64_encrypted_size n.
Proof.
  intros Hne Hb Hn n. unfold INT_MAX in Hn.
  pose proof (Base64.length_encode bytes) as Hle. fold n in Hn, Hle.
  destruct (Base64.calc_size_enough n) as [Hc1 Hc2]; [lia|unfold Base64.ULONG; lia|].
  assert (1 <= n) by (unfold n; destruct bytes; [done|cbn [length]; lia]).
  destruct (text_of_app (Base64.encode bytes)
    (drop (S (length (Base64.encode bytes))) (replicate (Z.to_nat (Base64.calc_base64_encrypted_size n)) 1)))
    as (b64 & E1 & E2 & E3); [by apply encode_chars|].
  eexists _, b64. split; [|split; [exact E1|split; [exact E3|]]].
  - apply Base64.encrypt_ok; [done|done|..]; rewrite length_replicate; clearbody n; unfold Base64.ULONG; lia.
  - rewrite E2, Hle. split; [|done]. Z.div_mod_to_equations. lia.
Qed.

(** The topics that are accepted: under the prefix of the commands, and with a
    last part that names this device or all of them. *)
Definition command_for_us (topic : string) : bool :=
  strstr topic CMD_TOPIC && match strrchr topic SLASH with Some (_, tail) => for_us tail | None => false end.

(** C31: a topic whose last part, if it is under the prefix of the commands,
    has fewer than 48 characters is handled without a fault, whatever the
    payload; the message is accepted exactly when the topic contains the
    prefix and its last part names this device or all of them, in any letter
    case; for an accepted message that is not empty the line for the pipe,
    which carries a text that decodes to exactly the payload, fits its buffer;
    and anything else gives the pipe nothing. *)
Theorem msg_received_handler_safe (topic : string) (payload : option (list Z)) (dst : list Z) :
  let bytes := default [] payload in
  (forall pre tail, strstr topic CMD_TOPIC = true -> strrchr topic SLASH = Some (pre, tail) -> strlen tail < 48) ->
  Forall is_byte bytes -> Z.of_nat (length bytes) <= INT_MAX -> length dst = length bytes ->
  exists line, msg_received_handler topic payload (Z.of_nat (length bytes)) = Ret (command_for_us topic, line)
    /\ if command_for_us topic && (0 <? Z.of_nat (length bytes)) then exists sub b64,
         line = Some (pipe_line topic sub b64) /\ strlen sub <= 64
         /\ Base64.base64_decrypt (chars b64) (strlen b64) dst
            = Ret (Base64.BASE64_OK, bytes, Z.of_nat (length bytes))
       else line = None.
Proof.
  intros bytes Hl Hb Hn Hd. unfold msg_received_handler, command_for_us.
  destruct (strstr topic CMD_TOPIC) eqn:Hs; cbn [negb andb]; [|by eexists].
  destruct (strrchr topic SLASH) as [[pre tail]|] eqn:Ht; [|by eexists]. specialize (Hl pre tail eq_refl eq_refl).
  rewrite write_buf_ok by lia. cbn [mbind comp_bind]. pose proof (command_target_ok tail Hl) as Hct.
  destruct (for_us tail); cbn [andb]; [|rewrite Hct; cbn [mbind comp_bind]; by eexists].
  destruct Hct as (sub & -> & Hsub). cbn [mbind comp_bind].
  destruct payload as [l|]; [|by eexists]. cbn in bytes. subst bytes.
  destruct (Z.ltb_spec 0 (Z.of_nat (length l))) as [Hp|_]; [|by eexists].
  assert (l <> []) as Hne by (intros ->; cbn in Hp; lia).
  destruct (encoded_text l Hne Hb Hn) as (out & b64 & -> & E1 & E2 & E3).
  cbn [mbind comp_bind]. rewrite E1. cbn [mbind comp_bind].
  assert (string_is_empty (Some b64) = false) as -> by (destruct b64; [by destruct E3|done]).
  rewrite write_buf_ok by (rewrite strlen_pipe_line; lia). cbn [mbind comp_bind].
  eexists. split; [done|]. exists sub, b64. split; [done|]. split; [done|].
  unfold INT_MAX in Hn. rewrite E2, <- chars_length, E2, decode_encode; [|done|unfold Base64.ULONG; lia|lia].
  by rewrite <- Hd, drop_all, app_nil_r.
Qed.

Lemma msg_received_handler_safe_witness :
  (exists line, msg_received_handler "hub/cmd/sn0000000001" (Some [77; 97; 110]) 3 = Ret (true, line)
    /\ exists sub b64, line = Some (pipe_line "hub/cmd/sn0000000001" sub b64) /\ strlen sub <= 64
       /\ Base64.base64_decrypt (chars b64) (strlen b64) [0; 0; 0] = Ret (Base64.BASE64_OK, [77; 97; 110], 3))
  /\ (exists line, msg_received_handler "hub/info/sn0000000001" (Some [77; 97; 110]) 3 = Ret (false, line) /\ line = None).
Proof.
  split.
  - refine (msg_received_handler_safe "hub/cmd/sn0000000001" (Some [77; 97; 110]) [0; 0; 0] _ _ _ eq_refl).
    + intros pre tail _ Ht. vm_compute in Ht. injection Ht as <- <-. by vm_compute.
    + repeat constructor; unfold is_byte; lia.
    + by vm_compute.
  - refine (msg_received_handler_safe "hub/info/sn0000000001" (Some [77; 97; 110]) [0; 0; 0] _ _ _ eq_refl).
    + intros pre tail Hs. by vm_compute in Hs.
    + repeat constructor; unfold is_byte; lia.
    + by vm_compute.
Defined.

(** A topic part of 64 characters or more does not fit [topicTail]. *)
Example long_topic_faults :
  msg_received_handler
    ("hub/cmd/" +:+ "0123456789012345678901234567890123456789012345678901234567890123") (Some [1]) 1
  = Err OutOfBounds.
Proof. reflexivity. Qed.
