(* ===== verification/Httpd.v ===== *)
(** * Reading HTTP requests (httpd/source/protocol.c, api.c)

    The library reads a connection through a buffer of 4096 bytes that it fills
    when it is used up, takes lines of at most 10240 characters from it, and
    finds method, path, a few headers, the body and the variables of the query
    in them.  What the socket answers is a list; an empty answer stands for the
    end of the connection or for ten seconds without a byte.  Buffers on the
    stack hold [junk] before they are written. *)

From Stdlib Require Import Ascii.
From S2P Require Import Prelude CString.

Local Open Scope Z_scope.

Module Httpd.

Definition HTTP_MAX_LEN : Z := 10240.
Definition HTTP_MAX_URL : Z := 1024 * 100.
Definition HTTP_MAX_AUTH : Z := 128.
Definition HTTP_IP_ADDR_LEN : Z := 17.
Definition HTTP_READ_BUF_LEN : Z := 4096.
Definition HTTP_GET : Z := 1.
Definition HTTP_POST : Z := 2.

(** ** The connection *)

Inductive net_answer :=
  | Got (d : list ascii)
  | Failed.

(** The result of select and read, the bytes, and the answers left; what
    does not fit is read the next time. *)
Definition _httpd_net_read (len : Z) (a : list net_answer) : Z * list ascii * list net_answer :=
  match a with
  | [] => (0, [], [])
  | Failed :: a => (-1, [], a)
  | Got d :: a =>
      (Z.min (Z.of_nat (length d)) len, take (Z.to_nat len) d,
       if Z.of_nat (length d) <=? len then a else Got (drop (Z.to_nat len) d) :: a)
  end.

Record reader := { readBufRemain : Z; readBuf : list ascii; readBufPtr : option Z; answers : list net_answer }.

Definition next_char (r : reader) : comp (option ascii * reader) :=
  match readBufPtr r with
  | None => Err NullDeref
  | Some p =>
      let* c := arr_get (readBuf r) p in
      Ret (Some c, {| readBufRemain := readBufRemain r - 1; readBuf := readBuf r; readBufPtr := Some (p + 1); answers := answers r |})
  end.

(** [None] when it returns 0. *)
Definition _httpd_readChar (r : reader) : comp (option ascii * reader) :=
  if readBufRemain r =? 0 then
    let '(n, d, a) := _httpd_net_read HTTP_READ_BUF_LEN (answers r) in
    let buf := d ++ replicate (Z.to_nat (HTTP_READ_BUF_LEN + 1) - length d) NUL in
    if n <? 1 then Ret (None, {| readBufRemain := n; readBuf := buf; readBufPtr := readBufPtr r; answers := a |})
    else next_char {| readBufRemain := n; readBuf := buf; readBufPtr := Some 0; answers := a |}
  else next_char r.

Definition isascii (c : ascii) : bool := uchar_val c <? 128.
Definition ends_line (c : ascii) : bool := bool_decide (c = LF) || negb (isascii c).

(** The characters stored from [dst] on; [destBuf] has [cap] bytes, of which
    [count] are used, and the terminator is stored behind the last. *)
Fixpoint _httpd_readLine (fuel : nat) (r : reader) (cap count len : Z) : comp (Z * string * reader) :=
  match fuel with
  | O => Err OutOfFuel
  | S fuel =>
      if count <? len then
        let* (c, r) := _httpd_readChar r in
        match c with
        | None => Ret (0, EmptyString, r)
        | Some curChar =>
            if ends_line curChar then (if count <? cap then Ret (1, EmptyString, r) else Err OutOfBounds)
            else if bool_decide (curChar = CR) then _httpd_readLine fuel r cap count len
            else if cap <=? count then Err OutOfBounds
            else let* (rc, s, r) := _httpd_readLine fuel r cap (count + 1) len in Ret (rc, String curChar s, r)
        end
      else if count <? cap then Ret (1, EmptyString, r) else Err OutOfBounds
  end.

(** [len] is what is still to be read. *)
Fixpoint _httpd_readBuf (len : nat) (r : reader) : comp (Z * string * reader) :=
  match len with
  | O => Ret (1, EmptyString, r)
  | S len =>
      let* (c, r) := _httpd_readChar r in
      match c with
      | None => Ret (0, EmptyString, r)
      | Some c => let* (rc, s, r) := _httpd_readBuf len r in Ret (rc, String c s, r)
      end
  end.

(** ** Text in a buffer *)

(** The characters up to the terminator. *)
Fixpoint text_of (mem : list ascii) : comp string :=
  match mem with
  | [] => Err OutOfBounds
  | c :: mem => if decide (c = NUL) then Ret EmptyString else let* s := text_of mem in Ret (String c s)
  end.

(** The characters that satisfy [p], and what begins at the first that does
    not. *)
Fixpoint span (p : ascii -> bool) (mem : list ascii) : comp (string * list ascii) :=
  match mem with
  | [] => Err OutOfBounds
  | c :: mem' => if p c then let* (w, rest) := span p mem' in Ret (String c w, rest) else Ret (EmptyString, mem)
  end.

(** [strncpy] of at most [n - 1] characters, terminated. *)
Fixpoint str_take (n : nat) (s : string) : string :=
  match n, s with
  | S n, String c s => String c (str_take n s)
  | _, _ => EmptyString
  end.
Definition copy_text (size : Z) (s : string) : string := str_take (Z.to_nat (size - 1)) s.

Definition isalpha (c : ascii) : bool :=
  let v := uchar_val c in ((65 <=? v) && (v <=? 90)) || ((97 <=? v) && (v <=? 122)).

(** [strncasecmp(s, pre, strlen(pre)) == 0] *)
Fixpoint has_prefix (pre s : string) : bool :=
  match pre, s with
  | EmptyString, _ => true
  | String c pre, String d s => bool_decide (tolower c = tolower d) && has_prefix pre s
  | _, _ => false
  end.

(** [strchr(s, ':') + 2] *)
Definition after_colon (s : string) : option string :=
  match strchr s ":"%char with
  | Some (_, String _ s) => Some s
  | Some (_, EmptyString) => Some EmptyString
  | None => None
  end.

(** ** The URL *)

Definition SLASH : ascii := "/"%char.
Definition DOT : ascii := "."%char.

(** The first loop: of several slashes the last stays. *)
Fixpoint single_slashes (s : list ascii) : list ascii :=
  match s with
  | c :: ((d :: _) as s') => if bool_decide (c = SLASH) && bool_decide (d = SLASH) then single_slashes s' else c :: single_slashes s'
  | s => s
  end.

(** The second: "/./" becomes "/". *)
Fixpoint no_dots (s : list ascii) : list ascii :=
  match s with
  | c :: s' =>
      match s' with
      | d :: ((e :: _) as s'') =>
          if bool_decide (c = SLASH) && bool_decide (d = DOT) && bool_decide (e = SLASH) then no_dots s'' else c :: no_dots s'
      | _ => c :: no_dots s'
      end
  | [] => []
  end.

(** The third: "/../" goes back to the last slash that was written; [to] is
    what is written, [last] the length before that slash. *)
Fixpoint no_parents (s to : list ascii) (last : nat) : list ascii :=
  match s with
  | [] => to
  | c :: s1 =>
      let step := no_parents s1 (to ++ [c]) (if bool_decide (c = SLASH) then length to else last) in
      match s1 with
      | d :: e :: ((f :: _) as s3) =>
          if bool_decide (c = SLASH) && bool_decide (d = DOT) && bool_decide (e = DOT) && bool_decide (f = SLASH)
          then no_parents s3 (take last to) last else step
      | _ => step
      end
  end.

Definition _httpd_sanitiseUrl (url : string) : string :=
  String.string_of_list_ascii (no_parents (no_dots (single_slashes (String.list_ascii_of_string url))) [] 0).

(** ** The query *)

Definition _httpd_from_hex (c : ascii) : Z :=
  let v := char_val c in
  if (48 <=? v) && (v <=? 57) then v - 48 else if (65 <=? v) && (v <=? 70) then v - 65 + 10 else v - 97 + 10.

(** [p] is what is still to be read and [q] the text, as it was, from where
    the next character is written. *)
Fixpoint unescape_from (p q : string) : string :=
  match q with
  | EmptyString => EmptyString
  | String old q =>
      match p with
      | EmptyString => EmptyString
      | String c p =>
          if bool_decide (c = "%"%char) then
            match p with
            | EmptyString => String old (unescape_from EmptyString q)
            | String h EmptyString => String (chr (_httpd_from_hex h * 16)) (unescape_from EmptyString q)
            | String h (String l p) => String (chr (_httpd_from_hex h * 16 + _httpd_from_hex l)) (unescape_from p q)
            end
          else if bool_decide (c = "+"%char) then String SPACE (unescape_from p q)
          else String c (unescape_from p q)
      end
  end.
(** The result is a C string: it ends at a NUL that was escaped. *)
Definition _httpd_unescape (s : option string) : string :=
  match s with None => EmptyString | Some s => c_str (unescape_from s s) end.

(** A name with its values in order. *)
Definition httpVar : Type := string * list string.

Fixpoint add_value (name value : string) (vars : list httpVar) : list httpVar :=
  match vars with
  | [] => [(name, [value])]
  | (n, vs) :: vars => if strcmp_eq n name then (n, vs ++ [value]) :: vars else (n, vs) :: add_value name value vars
  end.
Fixpoint skip_blanks (s : string) : string :=
  match s with
  | String c s' => if bool_decide (c = SPACE) || bool_decide (c = chr 9) then skip_blanks s' else s
  | EmptyString => EmptyString
  end.
Definition httpdAddVariable (vars : list httpVar) (name value : string) : list httpVar := add_value (skip_blanks name) value vars.
Definition httpdGetVariableByName (vars : list httpVar) (name : string) : option (string * list string) :=
  find (fun v => strcmp_eq v.1 name) vars.

(** The value replaces all the values of its name. *)
Fixpoint replace_value (name value : string) (vars : list httpVar) : list httpVar :=
  match vars with
  | [] => [(name, [value])]
  | (n, vs) :: vars => if strcmp_eq n name then (n, (fun _ => value) <$> vs) :: vars else (n, vs) :: replace_value name value vars
  end.
Definition httpdModifyVariable (vars : list httpVar) (name value : string) : list httpVar := replace_value (skip_blanks name) value vars.

(** A variable found is the list from it on. *)
Fixpoint first_var (p : string -> bool) (vars : list httpVar) : list httpVar :=
  match vars with [] => [] | v :: vars' => if p v.1 then vars else first_var p vars' end.
Definition httpdGetVariableByPrefix (vars : list httpVar) (pre : option string) : list httpVar :=
  match pre with None => vars | Some pre => first_var (String.prefix pre) vars end.
Definition httpdGetVariableByPrefixedName (vars : list httpVar) (pre : option string) (name : string) : list httpVar :=
  match pre with None => vars | Some pre => first_var (fun n => strcmp_eq n (pre +:+ name)) vars end.
Definition httpdGetNextVariableByPrefix (curVar : list httpVar) (pre : string) : list httpVar :=
  first_var (String.prefix pre) (tail curVar).

(** [var] is the buffer for names with [cp2] in it; [val] the text of the
    value so far. *)
Fixpoint store_from (query : string) (var : list ascii) (cp2 : Z) (val : option string) (vars : list httpVar)
    : comp (list httpVar) :=
  match query with
  | EmptyString =>
      match val with
      | None => Ret vars
      | Some v => let* name := text_of var in Ret (httpdAddVariable vars name (_httpd_unescape (Some v)))
      end
  | String c query =>
      if bool_decide (c = "="%char) then
        let* var := arr_set var cp2 NUL in store_from query var cp2 (Some EmptyString) vars
      else if bool_decide (c = "&"%char) then
        let* name := text_of var in
        store_from query var 0 None (httpdAddVariable vars name (_httpd_unescape val))
      else
        match val with
        | Some v => store_from query var cp2 (Some (v +:+ String c EmptyString)) vars
        | None => let* var := arr_set var cp2 c in store_from query var (cp2 + 1) None vars
        end
  end.
Definition _httpd_storeData (query : string) (vars : list httpVar) : comp (list httpVar) :=
  store_from query (replicate (String.length query) NUL) 0 None vars.

(** ** The request *)

Record httpReq := {
  method : Z; contentLength : Z; authLength : Z;
  path : string; query : string; host : string; userAgent : string; ipForwardedFor : string;
  authUser : string; authPassword : string;
  body_len : Z; body : string
}.

Definition httpdRequestMethodName (m : Z) : string :=
  if m =? HTTP_GET then "GET" else if m =? HTTP_POST then "POST" else "Invalid method '" +:+ fmt_d m +:+ "'".

Definition httpReq0 : httpReq :=
  {| method := 0; contentLength := 0; authLength := 0; path := EmptyString; query := EmptyString; host := EmptyString;
     userAgent := EmptyString; ipForwardedFor := EmptyString; authUser := EmptyString; authPassword := EmptyString;
     body_len := 0; body := EmptyString |}.

Definition set_line (m : Z) (p : string) (q : httpReq) : httpReq :=
  {| method := m; contentLength := contentLength q; authLength := authLength q; path := p; query := query q; host := host q;
     userAgent := userAgent q; ipForwardedFor := ipForwardedFor q; authUser := authUser q; authPassword := authPassword q;
     body_len := body_len q; body := body q |}.
Definition set_auth (len : Z) (u p : string) (q : httpReq) : httpReq :=
  {| method := method q; contentLength := contentLength q; authLength := len; path := path q; query := query q; host := host q;
     userAgent := userAgent q; ipForwardedFor := ipForwardedFor q; authUser := u; authPassword := p;
     body_len := body_len q; body := body q |}.
Definition set_contentLength (n : Z) (q : httpReq) : httpReq :=
  {| method := method q; contentLength := n; authLength := authLength q; path := path q; query := query q; host := host q;
     userAgent := userAgent q; ipForwardedFor := ipForwardedFor q; authUser := authUser q; authPassword := authPassword q;
     body_len := body_len q; body := body q |}.
Definition set_texts (h ua ip : string) (q : httpReq) : httpReq :=
  {| method := method q; contentLength := contentLength q; authLength := authLength q; path := path q; query := query q; host := h;
     userAgent := ua; ipForwardedFor := ip; authUser := authUser q; authPassword := authPassword q;
     body_len := body_len q; body := body q |}.
Definition set_body (n : Z) (b : string) (q : httpReq) : httpReq :=
  {| method := method q; contentLength := contentLength q; authLength := authLength q; path := path q; query := query q; host := host q;
     userAgent := userAgent q; ipForwardedFor := ipForwardedFor q; authUser := authUser q; authPassword := authPassword q;
     body_len := n; body := b |}.
Definition set_query (p s : string) (q : httpReq) : httpReq :=
  {| method := method q; contentLength := contentLength q; authLength := authLength q; path := p; query := s; host := host q;
     userAgent := userAgent q; ipForwardedFor := ipForwardedFor q; authUser := authUser q; authPassword := authPassword q;
     body_len := body_len q; body := body q |}.

(** *** Basic authentication *)

Definition six2pr : string := "ABCDEFGHIJKLMNOPQRSTUVWXYZabcdefghijklmnopqrstuvwxyz0123456789+/".
Fixpoint index_from (s : string) (c : ascii) (i : Z) : Z :=
  match s with EmptyString => 64 | String d s => if bool_decide (d = c) then i else index_from s c (i + 1) end.
(** [pr2six[(int)c]]: a negative [char] is an index before the table. *)
Definition pr2six (c : ascii) : comp Z := if isascii c then Ret (index_from six2pr c 0) else Err OutOfBounds.

Fixpoint count_coded (mem : list ascii) : comp Z :=
  match mem with
  | [] => Err OutOfBounds
  | c :: mem => let* v := pr2six c in if v <=? 63 then let* n := count_coded mem in Ret (n + 1) else Ret 0
  end.

Definition dec (mem : list ascii) (i : Z) : comp Z := let* c := arr_get mem i in pr2six c.

(** The loop over groups of four; [n] bounds the groups, [i] and [o] are the
    positions in the input and the output.  The number left at its end, the
    position and the output. *)
Fixpoint decode_loop (n : nat) (mem : list ascii) (nprbytes i o : Z) (out : list ascii) : comp (Z * Z * list ascii) :=
  match n with
  | O => Ret (nprbytes, i, out)
  | S n =>
      if nprbytes <=? 0 then Ret (nprbytes, i, out)
      else
        let* a := dec mem i in let* b := dec mem (i + 1) in let* c := dec mem (i + 2) in let* d := dec mem (i + 3) in
        let* out := arr_set out o (chr (Z.lor (Z.shiftl a 2) (Z.shiftr b 4))) in
        let* out := arr_set out (o + 1) (chr (Z.lor (Z.shiftl b 4) (Z.shiftr c 2))) in
        let* out := arr_set out (o + 2) (chr (Z.lor (Z.shiftl c 6) d)) in
        decode_loop n mem (nprbytes - 4) (i + 4) (o + 3) out
  end.

Fixpoint skip_blanks_mem (mem : list ascii) : list ascii :=
  match mem with
  | c :: mem' => if bool_decide (c = SPACE) || bool_decide (c = chr 9) then skip_blanks_mem mem' else mem
  | [] => []
  end.

(** The number of bytes and the buffer. *)
Definition _httpd_decode (bufcoded : list ascii) (bufplain : list ascii) (outbufsize : Z) : comp (Z * list ascii) :=
  let bufcoded := skip_blanks_mem bufcoded in
  let* nprbytes := count_coded bufcoded in
  let nbytesdecoded := Z.quot (nprbytes + 3) 4 * 3 in
  let nprbytes := if outbufsize <? nbytesdecoded then Z.quot (outbufsize * 4) 3 else nprbytes in
  let* (rest, bufin, bufplain) := decode_loop (Z.to_nat nprbytes) bufcoded nprbytes 0 0 bufplain in
  let* nbytesdecoded :=
    if Z.land rest 3 =? 0 then Ret nbytesdecoded
    else let* v := dec bufcoded (bufin - 2) in Ret (if 63 <? v then nbytesdecoded - 2 else nbytesdecoded - 1) in
  let* bufplain := arr_set bufplain nbytesdecoded NUL in
  Ret (nbytesdecoded, bufplain).

(** *** Lines *)

Definition is_space (c : ascii) : bool := bool_decide (c = SPACE).
Definition url_char (c : ascii) : bool := negb (bool_decide (c = SPACE)) && negb (bool_decide (c = NUL)).

(** [mem] is the buffer with the first line in it; the method as it was
    received when it is neither. *)
Definition request_line (mem : list ascii) (q : httpReq) : comp (string + httpReq) :=
  let* (cp, cp2) := span isalpha mem in
  let m := if strcasecmp_eq cp "GET" then HTTP_GET else method q in
  let m := if strcasecmp_eq cp "POST" then HTTP_POST else m in
  if m =? 0 then Ret (inl cp)
  else
    let* (_, cp) := span is_space (tail cp2) in
    let* (p, _) := span url_char cp in
    Ret (inr (set_line m (_httpd_sanitiseUrl (copy_text HTTP_MAX_URL p)) q)).

(** What follows [n] characters of the buffer, up to the terminator. *)
Definition strncmp_eq (pre s : string) : bool := String.prefix pre s.

Definition header_auth (mem authBuf : list ascii) (buf : string) (q : httpReq) : comp httpReq :=
  if has_prefix "Authorization: " buf then
    match after_colon buf with
    | None => Ret q
    | Some cp =>
        if negb (strncmp_eq "Basic " cp) then Ret q
        else
          let* (_, authBuf) := _httpd_decode (drop (String.length buf - String.length cp + 6) mem) authBuf 100 in
          let* auth := text_of authBuf in
          match strchr auth ":"%char with
          | Some (u, p) => Ret (set_auth (strlen auth) (copy_text HTTP_MAX_AUTH u) (copy_text HTTP_MAX_AUTH p) q)
          | None => Ret (set_auth (strlen auth) (copy_text HTTP_MAX_AUTH auth) (authPassword q) q)
          end
    end
  else Ret q.

(** A header with this name: its text, cut to [size], or what was there. *)
Definition header_text (name : string) (size : Z) (buf old : string) : string :=
  if has_prefix name buf then match after_colon buf with Some cp => copy_text size cp | None => old end else old.
Definition header_length (buf : string) (q : httpReq) : httpReq :=
  if has_prefix "Content-Length: " buf then
    match after_colon buf with Some cp => set_contentLength (atoi cp) q | None => q end
  else q.

Definition process_header (mem authBuf : list ascii) (buf : string) (q : httpReq) : comp httpReq :=
  let* q := header_auth mem authBuf buf q in
  let q := header_length buf q in
  Ret (set_texts (header_text "Host: " HTTP_MAX_URL buf (host q)) (header_text "User-Agent: " HTTP_MAX_URL buf (userAgent q))
         (header_text "X-Forwarded-For: " HTTP_IP_ADDR_LEN buf (ipForwardedFor q)) q).

(** The line in the buffer, over what was there before. *)
Definition put_line (s : string) (mem : list ascii) : list ascii :=
  String.list_ascii_of_string s ++ NUL :: drop (S (String.length s)) mem.

Fixpoint read_headers (fuel : nat) (r : reader) (mem authBuf : list ascii) (q : httpReq) : comp (httpReq * reader) :=
  match fuel with
  | O => Err OutOfFuel
  | S fuel =>
      let* (rc, line, r) := _httpd_readLine fuel r HTTP_MAX_LEN 0 HTTP_MAX_LEN in
      if rc <=? 0 then Ret (q, r)
      else
        let mem := put_line line mem in
        let* buf := text_of mem in
        if bool_decide (buf = EmptyString) then Ret (q, r)
        else let* q := process_header mem authBuf buf q in read_headers fuel r mem authBuf q
  end.

(** The body, then the query. *)
Definition read_body (q : httpReq) (r : reader) : comp (httpReq * reader) :=
  if (method q =? HTTP_POST) && (0 <? contentLength q) then
    let len := if contentLength q <? HTTP_MAX_URL - 1 then contentLength q else HTTP_MAX_URL - 1 in
    let* (_, b, r) := _httpd_readBuf (Z.to_nat len) r in
    Ret (set_body len (c_str b) q, r)
  else Ret (q, r).
Definition read_query (q : httpReq) (vars : list httpVar) : comp (httpReq * list httpVar) :=
  match strchr (path q) "?"%char with
  | Some (p, cp) => let* vars := _httpd_storeData cp vars in Ret (set_query p (copy_text HTTP_MAX_URL cp) q, vars)
  | None => Ret (q, vars)
  end.

Definition HTTP_METHOD_ERROR : string :=
  String LF ("<B>ERROR : Method Not Implemented</B>" +:+ String LF (String LF EmptyString)).

(** The result, the request, its variables, what was written, and the
    connection. *)
Definition httpdReadRequest (fuel : nat) (junk authBuf : list ascii) (r : reader)
    : comp (Z * httpReq * list httpVar * list string * reader) :=
  let* (rc, line, r) := _httpd_readLine fuel r HTTP_MAX_LEN 0 HTTP_MAX_LEN in
  if rc <=? 0 then Ret (0, httpReq0, [], [], r)
  else
    let mem := put_line line junk in
    let* q := request_line mem httpReq0 in
    match q with
    | inl m => Ret (-1, httpReq0, [], [HTTP_METHOD_ERROR; m], r)
    | inr q =>
        let* (q, r) := read_headers fuel r mem authBuf q in
        let* (q, r) := read_body q r in
        let* (q, vars) := read_query q [] in
        Ret (0, q, vars, [], r)
    end.

(** A request that was just accepted: the whole object is zero. *)
Definition accepted (a : list net_answer) : reader :=
  {| readBufRemain := 0; readBuf := replicate (Z.to_nat (HTTP_READ_BUF_LEN + 1)) NUL; readBufPtr := None; answers := a |}.

Definition CRLF : string := String CR (String LF EmptyString).
Definition demo_text : string :=
  "POST /mqtt//send?a=1%2B2&b=x HTTP/1.1" +:+ CRLF +:+ "Content-Length: 5" +:+ CRLF +:+ "X-Forwarded-For: 10.0.0.9" +:+ CRLF +:+
  "Authorization: Basic dXNlcjpwYXNz" +:+ CRLF +:+ CRLF +:+ "hello".
Definition junk0 (n : nat) : list ascii := replicate n "j"%char.

Example read_ex :
  (let* (rc, q, vars, _, _) := httpdReadRequest 300 (junk0 10240) (junk0 100)
     (accepted [Got (take 30 (String.list_ascii_of_string demo_text)); Got (drop 30 (String.list_ascii_of_string demo_text))]) in
   Ret (rc, method q, path q, query q, ipForwardedFor q, body q, (authUser q, authPassword q), vars)) =
  Ret (0, HTTP_POST, "/mqtt/send", "a=1%2B2&b=x", "10.0.0.9", "hello", ("user", "pass"), [("a", ["1+2"]); ("b", ["x"])]).
Proof. vm_compute. reflexivity. Qed.

(** ** The buffer is a stream *)

(** Reading from the buffer gives the characters [s] that the socket
    delivers, whatever the pieces they come in. *)
Definition holds (r : reader) (s : list ascii) : Prop :=
  exists rest ds, answers r = Got <$> ds /\ Forall (fun d => d <> []) ds /\ s = rest ++ concat ds /\
    readBufRemain r = Z.of_nat (length rest) /\
    (rest = [] \/ exists pre z, readBuf r = pre ++ rest ++ z /\ readBufPtr r = Some (Z.of_nat (length pre))).

Lemma accepted_holds ds : Forall (fun d => d <> []) ds -> holds (accepted (Got <$> ds)) (concat ds).
Proof. intros Hd. exists [], ds. split_and!; [done..|by left]. Qed.

Lemma next_char_holds r c rest pre z ds :
  answers r = Got <$> ds -> Forall (fun d => d <> []) ds -> readBufRemain r = Z.of_nat (length (c :: rest)) ->
  readBuf r = pre ++ (c :: rest) ++ z -> readBufPtr r = Some (Z.of_nat (length pre)) ->
  exists r', next_char r = Ret (Some c, r') /\ holds r' (rest ++ concat ds).
Proof.
  intros Ha Hd Hn Hb Hp. unfold next_char. rewrite Hp, Hb. cbn [app]. rewrite (arr_get_app pre c (rest ++ z)) by done. cbn [mbind comp_bind].
  eexists. split; [reflexivity|]. exists rest, ds. cbn [answers readBufRemain readBuf readBufPtr].
  split_and!; [done..|cbn [length] in Hn; lia|]. right. exists (pre ++ [c]), z. split; [by rewrite <- !app_assoc|].
  rewrite length_app. cbn [length]. f_equal. lia.
Qed.

Lemma readChar_some r c s : holds r (c :: s) -> exists r', _httpd_readChar r = Ret (Some c, r') /\ holds r' s.
Proof.
  intros (rest & ds & Ha & Hd & Es & Hn & Hb). unfold _httpd_readChar. destruct rest as [|c' rest].
  - rewrite Hn. change (Z.of_nat (length (@nil ascii)) =? 0) with true. cbn iota. destruct ds as [|d ds]; [done|].
    apply Forall_cons in Hd as [Hd0 Hd]. rewrite Ha. cbn [fmap list_fmap _httpd_net_read].
    destruct d as [|c' d]; [done|]. cbn [app concat] in Es. injection Es as <- ->.
    change (Z.to_nat HTTP_READ_BUF_LEN) with (S 4095). cbn [take drop].
    assert (0 < Z.of_nat (length (c :: d))) by (cbn [length]; lia). unfold HTTP_READ_BUF_LEN.
    rewrite (proj2 (Z.ltb_ge _ 1)) by lia.
    destruct (next_char_holds {| readBufRemain := Z.min (Z.of_nat (length (c :: d))) 4096;
      readBuf := (c :: take 4095 d) ++ replicate (Z.to_nat (4096 + 1) - length (c :: take 4095 d)) NUL; readBufPtr := Some 0;
      answers := if Z.of_nat (length (c :: d)) <=? 4096 then Got <$> ds else Got (drop 4095 d) :: (Got <$> ds) |}
      c (take 4095 d) [] (replicate (Z.to_nat (4096 + 1) - length (c :: take 4095 d)) NUL)
      (if Z.of_nat (length (c :: d)) <=? 4096 then ds else drop 4095 d :: ds)) as (r' & E & Hr).
    + cbn [answers]. by destruct (_ <=? _).
    + destruct (Z.leb_spec (Z.of_nat (length (c :: d))) 4096) as [|Hlt]; [done|]. constructor; [|done]. intros E.
      apply (f_equal length) in E. rewrite length_drop in E. cbn [length] in *. lia.
    + cbn [readBufRemain length]. rewrite length_take. lia.
    + done.
    + done.
    + exists r'. split; [exact E|]. destruct (Z.leb_spec (Z.of_nat (length (c :: d))) 4096); cbn [concat] in Hr.
      * rewrite take_ge in Hr by (cbn [length] in *; lia). done.
      * rewrite app_assoc, take_drop in Hr. done.
  - rewrite Hn, (proj2 (Z.eqb_neq _ _)) by (cbn [length]; lia). injection Es as -> ->. destruct Hb as [|(pre & z & Hb & Hp)]; [done|].
    by apply (next_char_holds r c' rest pre z ds).
Qed.

Lemma readChar_none r : holds r [] -> exists r', _httpd_readChar r = Ret (None, r') /\ holds r' [].
Proof.
  intros (rest & ds & Ha & Hd & Es & Hn & Hb). symmetry in Es. apply app_nil in Es as [-> Es].
  destruct Hd as [|d ds Hd0 Hd]; [|by destruct d]. unfold _httpd_readChar. rewrite Hn, Ha. cbn.
  eexists. split; [reflexivity|]. exists [], []. split_and!; [done..|by left].
Qed.

(** The line at the beginning of a text: whether it is ended, what is stored
    of it, and the text behind it. *)
Fixpoint text_line (s : list ascii) : bool * string * list ascii :=
  match s with
  | [] => (false, EmptyString, [])
  | c :: s =>
      if ends_line c then (true, EmptyString, s)
      else
        let '(e, l, rest) := text_line s in
        if bool_decide (c = CR) then (e, l, rest) else (e, String c l, rest)
  end.

Lemma readLine_text fuel r s cap count e l rest :
  holds r s -> (length s < fuel)%nat -> text_line s = (e, l, rest) -> 0 <= count -> count + strlen l < cap ->
  exists l' r', _httpd_readLine fuel r cap count cap = Ret (if e then 1 else 0, l', r') /\ (e = true -> l' = l) /\ holds r' rest.
Proof.
  revert r s count l. induction fuel as [|fuel IH]; intros r s count l Hr Hf Hl H0 Hc; [lia|]. cbn [_httpd_readLine].
  pose proof (strlen_nonneg l). rewrite (proj2 (Z.ltb_lt count cap)) by lia. destruct s as [|c s]; cbn [text_line] in Hl.
  - injection Hl as <- <- <-. destruct (readChar_none r Hr) as (r' & -> & Hr'). cbn [mbind comp_bind]. by exists EmptyString, r'.
  - destruct (readChar_some r c s Hr) as (r' & -> & Hr'). cbn [mbind comp_bind]. cbn [length] in Hf. destruct (ends_line c).
    + injection Hl as <- <- <-. by exists EmptyString, r'.
    + destruct (text_line s) as [[e' l0] rest'] eqn:E. case_bool_decide.
      * injection Hl as -> -> ->. apply (IH r' s count l Hr'); [lia|done|lia|lia].
      * assert (l = String c l0 /\ e' = e /\ rest' = rest) as (-> & -> & ->) by by injection Hl as <- <- <-.
        rewrite strlen_cons in Hc. pose proof (strlen_nonneg l0). rewrite (proj2 (Z.leb_gt cap count)) by lia.
        destruct (IH r' s (count + 1) l0 Hr') as (l' & r'' & -> & Hl' & Hr''); [lia|done|lia|lia|]. cbn [mbind comp_bind].
        exists (String c l'), r''. split; [done|]. split; [|done]. intros He. by rewrite Hl'.
Qed.

Lemma readBuf_text n r s :
  holds r s -> exists r', _httpd_readBuf n r = Ret (if (n <=? length s)%nat then 1 else 0, String.string_of_list_ascii (take n s), r')
    /\ holds r' (drop n s).
Proof.
  revert r s. induction n as [|n IH]; intros r s Hr; [by exists r|]. cbn [_httpd_readBuf]. destruct s as [|c s].
  - destruct (readChar_none r Hr) as (r' & -> & Hr'). by exists r'.
  - destruct (readChar_some r c s Hr) as (r' & -> & Hr'). cbn [mbind comp_bind].
    destruct (IH r' s Hr') as (r'' & -> & Hr''). cbn [mbind comp_bind]. by exists r''.
Qed.

(** ** Text of a line *)

Lemma list_ascii_app s t : String.list_ascii_of_string (s +:+ t) = String.list_ascii_of_string s ++ String.list_ascii_of_string t.
Proof. induction s as [|c s IH]; [done|]. cbn. by rewrite IH. Qed.
Lemma length_list_ascii s : length (String.list_ascii_of_string s) = String.length s.
Proof. induction s as [|c s IH]; [done|]. cbn. by rewrite IH. Qed.

Lemma line_text_app l mem : text_of (String.list_ascii_of_string l ++ NUL :: mem) = Ret (c_str l).
Proof.
  unfold c_str. induction l as [|c l IH]; [done|]. cbn [String.list_ascii_of_string app text_of strchr].
  destruct (decide (c = NUL)); [done|]. rewrite IH. cbn [mbind comp_bind]. by destruct (strchr l NUL) as [[? ?]|].
Qed.

Lemma text_of_put l mem : text_of (put_line l mem) = Ret (c_str l).
Proof. apply line_text_app. Qed.

Lemma span_app p w c mem :
  str_forall p w = true -> p c = false -> span p (String.list_ascii_of_string w ++ c :: mem) = Ret (w, c :: mem).
Proof.
  intros Hw Hc. induction w as [|d w IH]; cbn [String.list_ascii_of_string app span]; [by rewrite Hc|].
  cbn [str_forall] in Hw. apply andb_true_iff in Hw as [-> Hw]. by rewrite IH.
Qed.

(** The longest beginning that satisfies [p]. *)
Fixpoint leading (p : ascii -> bool) (s : string) : string :=
  match s with String c s => if p c then String c (leading p s) else EmptyString | EmptyString => EmptyString end.

Lemma leading_spec p s :
  str_forall p (leading p s) = true /\ exists t, s = leading p s +:+ t /\ (t = EmptyString \/ exists c t', t = String c t' /\ p c = false).
Proof.
  induction s as [|c s (H & t & E & Ht)]; [split; [done|]; exists EmptyString; split; [done|by left]|]. cbn [leading]. destruct (p c) eqn:Ep.
  - cbn [str_forall]. rewrite Ep, H. split; [done|]. exists t. split; [cbn; by rewrite <- E|done].
  - split; [done|]. exists (String c s). split; [done|]. right. by eexists _, _.
Qed.

(** A stop that ends every search in a line: the terminator. *)
Lemma span_line p l mem :
  p NUL = false -> exists w rest, span p (String.list_ascii_of_string l ++ NUL :: mem) = Ret (w, rest) /\ w = leading p l /\
    exists t, rest = String.list_ascii_of_string t ++ NUL :: mem /\ l = w +:+ t.
Proof.
  intros Hp. destruct (leading_spec p l) as (Hw & t & E & Ht). exists (leading p l), (String.list_ascii_of_string t ++ NUL :: mem).
  split; [|split; [done|by exists t]]. rewrite E at 1. rewrite list_ascii_app, <- app_assoc.
  destruct Ht as [->|(c & t' & -> & Hc)]; by apply span_app.
Qed.

(** ** The first line *)

Definition verb_method (cp : string) : Z :=
  if strcasecmp_eq cp "POST" then HTTP_POST else if strcasecmp_eq cp "GET" then HTTP_GET else 0.

(** The URL in a first line: behind the method and the character after it. *)
Fixpoint skip_while (p : ascii -> bool) (s : string) : string :=
  match s with String c s' => if p c then skip_while p s' else s | EmptyString => EmptyString end.

Lemma leading_skip p s : s = leading p s +:+ skip_while p s.
Proof. induction s as [|c s IH]; [done|]. cbn. destruct (p c); [|done]. cbn. by rewrite <- IH. Qed.

Lemma request_line_text v c t mem q :
  str_forall isalpha v = true -> isalpha c = false -> method q = 0 ->
  request_line (put_line (v +:+ String c t) mem) q =
    Ret (if verb_method v =? 0 then inl v
         else inr (set_line (verb_method v) (_httpd_sanitiseUrl (copy_text HTTP_MAX_URL (leading url_char (skip_while is_space t)))) q)).
Proof.
  intros Hv Hc Hq. unfold request_line, put_line. set (m := drop _ mem). rewrite list_ascii_app, <- app_assoc. cbn [String.list_ascii_of_string app].
  rewrite span_app by done. cbn [mbind comp_bind tail]. rewrite Hq.
  assert ((if strcasecmp_eq v "POST" then HTTP_POST else if strcasecmp_eq v "GET" then HTTP_GET else 0) = verb_method v) as -> by done.
  destruct (verb_method v =? 0); [done|].
  destruct (span_line is_space t m) as (w & rest & E & Ew & t' & -> & Et); [done|]. rewrite E. cbn [mbind comp_bind].
  destruct (span_line url_char t' m) as (w' & rest' & E' & Ew' & _); [done|]. rewrite E'. cbn [mbind comp_bind]. rewrite Ew'. do 5 f_equal.
  subst w. rewrite (leading_skip is_space t) in Et at 1. by apply str_app_inj_l in Et as <-.
Qed.

(** ** Headers *)

Definition plain_header (q : httpReq) (buf : string) : httpReq :=
  let q := header_length buf q in
  set_texts (header_text "Host: " HTTP_MAX_URL buf (host q)) (header_text "User-Agent: " HTTP_MAX_URL buf (userAgent q))
    (header_text "X-Forwarded-For: " HTTP_IP_ADDR_LEN buf (ipForwardedFor q)) q.

Lemma process_plain mem authBuf buf q :
  has_prefix "Authorization: " buf = false -> process_header mem authBuf buf q = Ret (plain_header q buf).
Proof. intros Hb. unfold process_header, header_auth. by rewrite Hb. Qed.

(** The lines of headers at the beginning of a text, and the text behind the
    empty line or the end of it. *)
Inductive headers_of : list ascii -> list string -> list ascii -> Prop :=
  | H_end s l rest : text_line s = (false, l, rest) -> strlen l < HTTP_MAX_LEN -> headers_of s [] rest
  | H_blank s l rest : text_line s = (true, l, rest) -> strlen l < HTTP_MAX_LEN -> c_str l = EmptyString -> headers_of s [] rest
  | H_line s l rest hs rest' :
      text_line s = (true, l, rest) -> strlen l < HTTP_MAX_LEN -> c_str l <> EmptyString ->
      headers_of rest hs rest' -> headers_of s (c_str l :: hs) rest'.

Lemma text_line_shorter s l rest : text_line s = (true, l, rest) -> (length rest < length s)%nat.
Proof.
  revert l rest. induction s as [|c s IH]; intros l rest; cbn [text_line]; [done|]. destruct (ends_line c); [intros [= <- <-]; cbn; lia|].
  destruct (text_line s) as [[e l'] rest'] eqn:E. case_bool_decide; intros H'; [|injection H' as -> <- <-]; cbn [length].
  - injection H' as -> -> ->. specialize (IH l rest eq_refl). lia.
  - specialize (IH l' rest' eq_refl). lia.
Qed.

Definition no_authorization (hs : list string) : Prop := Forall (fun h => has_prefix "Authorization: " h = false) hs.

Lemma read_headers_text fuel r s hs rest mem authBuf q :
  headers_of s hs rest -> holds r s -> (length s + 1 < fuel)%nat -> no_authorization hs ->
  exists r', read_headers fuel r mem authBuf q = Ret (fold_left plain_header hs q, r') /\ holds r' rest.
Proof.
  intros Hh. revert fuel r mem q. induction Hh as [s l rest E Hl|s l rest E Hl Hb|s l rest hs rest' E Hl Hb Hh IH]; intros fuel r mem q Hr Hf Hn;
    (destruct fuel as [|fuel]; [lia|]); cbn [read_headers];
    (destruct (readLine_text fuel r s HTTP_MAX_LEN 0 _ l rest Hr ltac:(lia) E ltac:(lia) Hl) as (l' & r' & -> & El & Hr'));
    cbn [mbind comp_bind].
  - by exists r'.
  - rewrite El by done. rewrite text_of_put. cbn [mbind comp_bind]. change (1 <=? 0) with false. cbn iota.
    rewrite bool_decide_true by done. by exists r'.
  - rewrite El by done. rewrite text_of_put. cbn [mbind comp_bind]. change (1 <=? 0) with false. cbn iota.
    rewrite bool_decide_false by done. apply Forall_cons in Hn as [Hn1 Hn]. rewrite process_plain by done. cbn [mbind comp_bind fold_left].
    apply text_line_shorter in E. apply IH; [done|lia|done].
Qed.

(** *** The query *)

Lemma text_of_total mem i : (i < length mem)%nat -> mem !! i = Some NUL -> exists s, text_of mem = Ret s.
Proof.
  revert i. induction mem as [|c mem IH]; intros i Hi Hc; [cbn in Hi; lia|]. cbn [text_of]. destruct (decide (c = NUL)); [by eexists|].
  destruct i as [|i]; [by injection Hc|]. destruct (IH i) as [s ->]; [cbn in Hi; lia|done|]. by eexists.
Qed.

(** The buffer for names: behind [hi], up to which it was written, it is zero
    and has room for the rest of the query. *)
Record names_ok (query : string) (var : list ascii) (cp2 hi : nat) (val : option string) : Prop := {
  no_cp2 : (cp2 <= hi)%nat;
  no_room : (hi + String.length query <= length var)%nat;
  no_zero : forall i, (hi <= i < length var)%nat -> var !! i = Some NUL;
  no_name : val <> None -> var !! cp2 = Some NUL
}.

Lemma arr_set_lt (var : list ascii) (i : nat) c : (i < length var)%nat -> arr_set var (Z.of_nat i) c = Ret (<[i := c]> var).
Proof. intros Hi. unfold arr_set. rewrite (proj2 (Z.leb_le _ _)), (proj2 (Z.ltb_lt _ _)), Nat2Z.id by lia. done. Qed.

(** Storing the query stays inside it. *)
Lemma store_from_total query var cp2 hi val vars :
  names_ok query var cp2 hi val -> exists vars', store_from query var (Z.of_nat cp2) val vars = Ret vars'.
Proof.
  revert var cp2 hi val vars. induction query as [|c query IH]; intros var cp2 hi val vars [H1 H2 H3 H4]; cbn [store_from].
  - destruct val as [v|]; [|by eexists]. specialize (H4 ltac:(done)).
    destruct (text_of_total var cp2) as [name ->]; [by eapply lookup_lt_Some|done|]. by eexists.
  - cbn [String.length] in H2. case_bool_decide.
    + rewrite arr_set_lt by lia. cbn [mbind comp_bind]. apply (IH _ cp2 hi). constructor; rewrite ?length_insert; [lia|lia| |].
      * intros i Hi. rewrite list_lookup_insert. destruct (decide _); [done|]. by apply H3.
      * intros _. by rewrite list_lookup_insert_eq by lia.
    + case_bool_decide.
      * destruct (text_of_total var hi) as [name ->]; [lia|apply H3; lia|]. cbn [mbind comp_bind].
        apply (IH _ 0%nat hi). constructor; [lia|lia|done|done].
      * destruct val as [v|].
        -- apply (IH _ cp2 hi). constructor; [lia|lia|done|]. intros _. by apply H4.
        -- rewrite arr_set_lt by lia. cbn [mbind comp_bind]. replace (Z.of_nat cp2 + 1) with (Z.of_nat (S cp2)) by lia.
           apply (IH _ (S cp2) (Nat.max hi (S cp2))). constructor; rewrite ?length_insert; [lia|lia| |done].
           intros i Hi. rewrite list_lookup_insert_ne by lia. apply H3. lia.
Qed.

Lemma storeData_total query vars : exists vars', _httpd_storeData query vars = Ret vars'.
Proof.
  unfold _httpd_storeData. apply (store_from_total query _ 0 0). constructor; rewrite ?length_replicate; [lia|lia| |done].
  intros i Hi. apply lookup_replicate. split; [done|lia].
Qed.

(** ** Requests *)

(** The request with what its body and query add. *)
Definition with_body (q : httpReq) (rest : list ascii) : httpReq :=
  if (method q =? HTTP_POST) && (0 <? contentLength q) then
    let len := if contentLength q <? HTTP_MAX_URL - 1 then contentLength q else HTTP_MAX_URL - 1 in
    set_body len (c_str (String.string_of_list_ascii (take (Z.to_nat len) rest))) q
  else q.
Definition with_query (q : httpReq) : httpReq :=
  match strchr (path q) "?"%char with Some (p, cp) => set_query p (copy_text HTTP_MAX_URL cp) q | None => q end.

Lemma read_body_text q r s : holds r s -> exists r', read_body q r = Ret (with_body q s, r').
Proof.
  intros Hr. unfold read_body, with_body. destruct (_ && _); [|by eexists].
  destruct (readBuf_text (Z.to_nat (if contentLength q <? HTTP_MAX_URL - 1 then contentLength q else HTTP_MAX_URL - 1)) r s Hr) as (r' & -> & _).
  by eexists.
Qed.
Lemma read_query_total q vars : exists vars', read_query q vars = Ret (with_query q, vars').
Proof.
  unfold read_query, with_query. destruct (strchr _ _) as [[p cp]|]; [|by eexists].
  destruct (storeData_total cp vars) as [vars' ->]. by eexists.
Qed.

(** The request that a text is: its first line, its headers, and what follows
    them. *)
Definition parsed (v t : string) (hs : list string) (rest : list ascii) : httpReq :=
  with_query (with_body (fold_left plain_header hs
    (set_line (verb_method v) (_httpd_sanitiseUrl (copy_text HTTP_MAX_URL (leading url_char (skip_while is_space t)))) httpReq0)) rest).

(** Whatever the pieces in which the socket delivers it, a text whose
    first line has a known method and whose lines are shorter than the buffer is
    read without a fault as the request it is: method, sanitised path, headers,
    body up to its bound, query. *)
Lemma request_received fuel junk authBuf ds v c t s hs rest :
  Forall (fun d => d <> []) ds -> text_line (concat ds) = (true, v +:+ String c t, s) -> strlen (v +:+ String c t) < HTTP_MAX_LEN ->
  str_forall isalpha v = true -> isalpha c = false -> verb_method v <> 0 ->
  headers_of s hs rest -> no_authorization hs -> (length (concat ds) < fuel)%nat ->
  exists vars r, httpdReadRequest fuel junk authBuf (accepted (Got <$> ds)) = Ret (0, parsed v t hs rest, vars, [], r).
Proof.
  intros Hd El Hl Hv Hc Hm Hh Hn Hf. unfold httpdReadRequest.
  destruct (readLine_text fuel _ _ HTTP_MAX_LEN 0 _ _ _ (accepted_holds ds Hd) Hf El ltac:(lia) Hl) as (l' & r' & -> & E' & Hr').
  cbn [mbind comp_bind]. change (1 <=? 0) with false. cbn iota. rewrite (E' eq_refl), request_line_text by done. cbn [mbind comp_bind].
  rewrite (proj2 (Z.eqb_neq _ _)) by done. pose proof (text_line_shorter _ _ _ El).
  unfold parsed. set (q0 := set_line _ _ _).
  destruct (read_headers_text fuel r' s hs rest (put_line (v +:+ String c t) junk) authBuf q0) as (r'' & -> & Hr''); [done|done|lia|done|].
  cbn [mbind comp_bind]. destruct (read_body_text (fold_left plain_header hs q0) r'' rest Hr'') as (r3 & ->). cbn [mbind comp_bind].
  destruct (read_query_total (with_body (fold_left plain_header hs q0) rest) []) as (vars & ->). cbn [mbind comp_bind]. by exists vars, r3.
Qed.

(** *** A text with its lines *)

(** A line of a request as a client writes it. *)
Definition line_char (c : ascii) : bool := negb (ends_line c) && negb (bool_decide (c = CR)) && negb (bool_decide (c = NUL)).
Definition good_line (l : string) : Prop := str_forall line_char l = true /\ strlen l < HTTP_MAX_LEN.

Lemma text_line_crlf l s : str_forall line_char l = true -> text_line (String.list_ascii_of_string (l +:+ CRLF) ++ s) = (true, l, s).
Proof.
  induction l as [|c l IH]; [done|]. cbn [str_forall]. intros H. apply andb_true_iff in H as [Hc Hl]. unfold line_char in Hc.
  rewrite !andb_true_iff, !negb_true_iff in Hc. destruct Hc as [[H1 H2] H3]. cbn [String.append String.list_ascii_of_string app text_line].
  rewrite H1, IH by done. by rewrite H2.
Qed.
Lemma line_no_nul l : str_forall line_char l = true -> c_str l = l.
Proof.
  intros Hl. unfold c_str. assert (strchr l NUL = None) as ->; [|done]. apply strchr_str_forall.
  apply (str_forall_weaken line_char); [|done]. intros c Hc. unfold line_char in Hc. rewrite !andb_true_iff, !negb_true_iff in Hc.
  destruct Hc as [_ Hc]. apply bool_decide_eq_true. by apply bool_decide_eq_false in Hc.
Qed.

Fixpoint header_text_of (hs : list string) : string :=
  match hs with [] => CRLF | h :: hs => h +:+ CRLF +:+ header_text_of hs end.

Lemma headers_of_text hs rest :
  Forall (fun h => good_line h /\ h <> EmptyString) hs -> headers_of (String.list_ascii_of_string (header_text_of hs) ++ rest) hs rest.
Proof.
  induction 1 as [|h hs [[Hh Hl] Hne] _ IH]; cbn [header_text_of]; [by apply (H_blank _ EmptyString)|].
  rewrite str_app_assoc, list_ascii_app, <- app_assoc. rewrite <- (line_no_nul h Hh) at 2.
  apply (H_line _ h (String.list_ascii_of_string (header_text_of hs) ++ rest)); [by apply text_line_crlf|done|by rewrite line_no_nul|done].
Qed.

Definition request_text (first : string) (hs : list string) (b : string) : string := first +:+ CRLF +:+ header_text_of hs +:+ b.

Lemma request_text_received fuel junk authBuf ds v c t hs b :
  Forall (fun d => d <> []) ds -> concat ds = String.list_ascii_of_string (request_text (v +:+ String c t) hs b) ->
  good_line (v +:+ String c t) -> str_forall isalpha v = true -> isalpha c = false -> verb_method v <> 0 ->
  Forall (fun h => good_line h /\ h <> EmptyString) hs -> no_authorization hs -> (length (concat ds) < fuel)%nat ->
  exists vars r, httpdReadRequest fuel junk authBuf (accepted (Got <$> ds)) = Ret (0, parsed v t hs (String.list_ascii_of_string b), vars, [], r).
Proof.
  intros Hd E [Hl1 Hl2] Hv Hc Hm Hh Hn Hf.
  assert (text_line (concat ds) = (true, v +:+ String c t, String.list_ascii_of_string (header_text_of hs) ++ String.list_ascii_of_string b)) as El.
  { rewrite E. unfold request_text. rewrite str_app_assoc, list_ascii_app, text_line_crlf by done. by rewrite list_ascii_app. }
  eapply request_received; [done|exact El|done..|by apply headers_of_text|done|done].
Qed.

(** A first line with another method is answered before anything else is read. *)
Lemma request_text_refused fuel junk authBuf ds v c t hs b :
  Forall (fun d => d <> []) ds -> concat ds = String.list_ascii_of_string (request_text (v +:+ String c t) hs b) ->
  good_line (v +:+ String c t) -> str_forall isalpha v = true -> isalpha c = false -> verb_method v = 0 ->
  (length (concat ds) < fuel)%nat ->
  exists r, httpdReadRequest fuel junk authBuf (accepted (Got <$> ds)) = Ret (-1, httpReq0, [], [HTTP_METHOD_ERROR; v], r).
Proof.
  intros Hd E [Hl1 Hl2] Hv Hc Hm Hf. unfold httpdReadRequest.
  assert (text_line (concat ds) = (true, v +:+ String c t, String.list_ascii_of_string (header_text_of hs +:+ b))) as El
    by (rewrite E; unfold request_text; by rewrite str_app_assoc, list_ascii_app, text_line_crlf by done).
  destruct (readLine_text fuel _ _ HTTP_MAX_LEN 0 _ _ _ (accepted_holds ds Hd) Hf El ltac:(lia) Hl2) as (l' & r' & -> & E' & _).
  cbn [mbind comp_bind]. change (1 <=? 0) with false. cbn iota. rewrite (E' eq_refl), request_line_text by done. cbn [mbind comp_bind].
  rewrite Hm. by exists r'.
Qed.

(** ** The path has no parents *)

Definition up : list ascii := [SLASH; DOT; DOT; SLASH].
Definition clean (t : list ascii) : Prop := forall a b, t <> a ++ up ++ b.

Lemma clean_prefix t u : clean (t ++ u) -> clean t.
Proof. intros H a b ->. apply (H a (b ++ u)). by rewrite <- !app_assoc. Qed.

(** What the loop keeps: [to] is [pre], which a slash may follow, and the
    segment since the last slash, which together with the text left is not
    "/../". *)
Record unwinding (s pre seg : list ascii) : Prop := {
  un_clean : clean (pre ++ seg);
  un_pre : clean (pre ++ [SLASH]);
  un_seg : SLASH ∉ tail seg;
  un_next : seg <> [] -> forall b, seg ++ s <> up ++ b;
  un_start : head seg = Some SLASH \/ (SLASH ∉ seg /\ pre = []) \/ (seg = [] /\ head s = Some SLASH)
}.

Lemma last_four (t a : list ascii) c b : t ++ [c] = a ++ up ++ b -> clean t -> b = [] /\ c = SLASH /\ t = a ++ [SLASH; DOT; DOT].
Proof.
  intros E Ht. destruct b as [|x b' _] using rev_ind.
  - rewrite app_nil_r in E. change up with ([SLASH; DOT; DOT] ++ [SLASH]) in E. rewrite app_assoc in E. by apply app_inj_tail in E as [-> ->].
  - rewrite !app_assoc in E. apply app_inj_tail in E as [-> ->]. exfalso. apply (Ht a b'). by rewrite <- !app_assoc.
Qed.

Lemma last_slash_eq (l1 l2 t1 t2 : list ascii) :
  l1 ++ SLASH :: t1 = l2 ++ SLASH :: t2 -> SLASH ∉ t1 -> SLASH ∉ t2 -> l1 = l2 /\ t1 = t2.
Proof.
  revert l2. induction l1 as [|x l1 IH]; intros [|y l2]; cbn [app]; intros E H1 H2.
  - by injection E.
  - injection E as <- ->. destruct H1. apply elem_of_app. right. left.
  - injection E as -> <-. destruct H2. apply elem_of_app. right. left.
  - injection E as <- E. destruct (IH l2 E H1 H2) as [-> ->]. done.
Qed.

Lemma unwinding_clean c s pre seg : unwinding (c :: s) pre seg -> clean ((pre ++ seg) ++ [c]).
Proof.
  intros [H1 H2 H3 H4 H5] a b E. destruct (last_four _ _ _ _ E H1) as (-> & -> & E').
  destruct H5 as [H5|[[H5 ->]|[-> _]]].
  - destruct seg as [|x seg]; [done|]. injection H5 as ->. cbn [tail] in H3.
    destruct (last_slash_eq pre a seg [DOT; DOT] E' H3) as [-> ->]; [by rewrite !not_elem_of_cons; split_and!; [..|apply not_elem_of_nil]|].
    by apply (H4 ltac:(done) s).
  - cbn [app] in E'. subst seg. apply H5. rewrite elem_of_app. right. left.
  - rewrite app_nil_r in E'. apply (H2 a []). by rewrite E', <- app_assoc, app_nil_r.
Qed.

Lemma unwinding_step c s pre seg :
  unwinding (c :: s) pre seg -> (forall b, c :: s <> up ++ b) ->
  if bool_decide (c = SLASH) then unwinding s (pre ++ seg) [c] else unwinding s pre (seg ++ [c]).
Proof.
  intros Hu Hc. pose proof (unwinding_clean _ _ _ _ Hu) as Hcl. destruct Hu as [H1 H2 H3 H4 H5].
  case_bool_decide as Ec.
  - subst c. constructor; [done|done|apply not_elem_of_nil|intros _; exact Hc|by left].
  - constructor; [by rewrite app_assoc|done| | |].
    + destruct seg as [|x seg]; [apply not_elem_of_nil|]. cbn [tail app] in *. rewrite elem_of_app, list_elem_of_singleton.
      by intros [|].
    + intros _ b. rewrite <- app_assoc. cbn [app]. destruct seg; [apply Hc|by apply H4].
    + destruct H5 as [H5|[[H5 ->]|[-> H5]]].
      * left. by destruct seg.
      * right. left. split; [|done]. rewrite elem_of_app, list_elem_of_singleton. by intros [|].
      * by injection H5.
Qed.

(** The case that goes back. *)
Lemma unwinding_back s pre seg : unwinding (up ++ s) pre seg -> unwinding (SLASH :: s) pre [].
Proof.
  intros [H1 H2 H3 H4 H5]. constructor; [|done|apply not_elem_of_nil|done|by right; right]. rewrite app_nil_r. by apply clean_prefix in H2.
Qed.

Lemma no_parents_clean s pre seg : unwinding s pre seg -> clean (no_parents s (pre ++ seg) (length pre)).
Proof.
  remember (length s) as n eqn:En. revert s En pre seg. induction n as [n IH] using lt_wf_ind. intros s -> pre seg Hu.
  destruct s as [|c s]; [apply Hu|]. cbn [no_parents].
  assert ((forall b, c :: s <> up ++ b) ->
    clean (no_parents s ((pre ++ seg) ++ [c]) (if bool_decide (c = SLASH) then length (pre ++ seg) else length pre))) as Hstep.
  { intros Hc. pose proof (unwinding_step c s pre seg Hu Hc) as Hu'. case_bool_decide.
    - eapply IH; [|done|done]. cbn. lia.
    - rewrite <- app_assoc. eapply IH; [|done|done]. cbn. lia. }
  destruct s as [|d [|e [|f s]]]; [apply Hstep; intros b E; discriminate E..|].
  destruct (bool_decide (c = SLASH) && bool_decide (d = DOT) && bool_decide (e = DOT) && bool_decide (f = SLASH)) eqn:Em.
  - rewrite !andb_true_iff, !bool_decide_eq_true in Em. destruct Em as [[[-> ->] ->] ->].
    rewrite take_app_length. rewrite <- (app_nil_r pre) at 1. eapply IH; [|done|by eapply (unwinding_back s)]. cbn. lia.
  - apply Hstep. intros b E. injection E as -> -> -> -> _. by rewrite !bool_decide_true in Em.
Qed.

(** C14: a sanitised path has no "/../" left, wherever it was. *)
Theorem sanitised_clean url a b : _httpd_sanitiseUrl url <> a +:+ "/../" +:+ b.
Proof.
  intros E. apply (f_equal String.list_ascii_of_string) in E. unfold _httpd_sanitiseUrl in E.
  rewrite String.list_ascii_of_string_of_list_ascii, !list_ascii_app in E. revert E.
  apply (no_parents_clean _ [] []). constructor; cbn [app tail head].
  - by intros [|? ?] ?.
  - intros [|x [|y l]] b'; discriminate.
  - apply not_elem_of_nil.
  - done.
  - right. left. split; [apply not_elem_of_nil|done].
Qed.

(** ** Faults *)

(** A line that fills its buffer. *)
Lemma readLine_long fuel r l rest cap count :
  holds r (String.list_ascii_of_string l ++ rest) -> str_forall line_char l = true -> 0 <= count -> count + strlen l = cap ->
  (String.length l < fuel)%nat -> _httpd_readLine fuel r cap count cap = Err OutOfBounds.
Proof.
  revert r l count. induction fuel as [|fuel IH]; intros r l count Hr Hl H0 Hc Hf; [lia|]. cbn [_httpd_readLine]. destruct l as [|c l].
  - change (strlen EmptyString) with 0 in Hc. rewrite (proj2 (Z.ltb_ge count cap)) by lia. done.
  - rewrite strlen_cons in Hc. pose proof (strlen_nonneg l). rewrite (proj2 (Z.ltb_lt count cap)) by lia.
    cbn [str_forall] in Hl. apply andb_true_iff in Hl as [Hch Hl]. unfold line_char in Hch. rewrite !andb_true_iff, !negb_true_iff in Hch.
    destruct Hch as [[H1 H2] _]. destruct (readChar_some r _ _ Hr) as (r' & -> & Hr'). cbn [mbind comp_bind]. rewrite H1, H2.
    rewrite (proj2 (Z.leb_gt cap count)) by lia. cbn [String.length] in Hf. by rewrite (IH r' l (count + 1)) by (done || lia).
Qed.

(** After a failed read the count is negative, and reading goes on behind the
    buffer. *)
Lemma readBuf_overrun n r p :
  readBufRemain r < 0 -> readBufPtr r = Some p -> 0 <= p <= Z.of_nat (length (readBuf r)) ->
  Z.of_nat (length (readBuf r)) - p < Z.of_nat n -> _httpd_readBuf n r = Err OutOfBounds.
Proof.
  revert r p. induction n as [|n IH]; intros r p Hn Hp H0 Hl; [lia|]. cbn [_httpd_readBuf]. unfold _httpd_readChar, next_char.
  rewrite (proj2 (Z.eqb_neq _ _)), Hp by lia. destruct (Z.eq_dec p (Z.of_nat (length (readBuf r)))) as [->|Hne].
  - by rewrite arr_get_fault by lia.
  - destruct (lookup_lt_is_Some_2 (readBuf r) (Z.to_nat p)) as [c Hc]; [lia|]. rewrite (arr_get_Some _ _ c) by (done || lia). cbn [mbind comp_bind].
    rewrite (IH _ (p + 1)); [done|cbn [readBufRemain readBuf readBufPtr]..]; (done || lia).
Qed.

(** The groups of a Basic authentication do not fit into its buffer. *)
Lemma dec_fault mem i : (exists v, dec mem i = Ret v) \/ dec mem i = Err OutOfBounds.
Proof.
  unfold dec, arr_get. destruct (0 <=? i); [|by right]. destruct (mem !! Z.to_nat i) as [c|]; [|by right]. cbn [comp_of_option mbind comp_bind].
  unfold pr2six. destruct (isascii c); [left; by eexists|by right].
Qed.

Lemma decode_overflows k n mem nprbytes i out :
  (0 < k <= n)%nat -> 4 * (Z.of_nat k - 1) < nprbytes -> length out = 100%nat ->
  decode_loop n mem nprbytes i (102 - 3 * Z.of_nat k) out = Err OutOfBounds.
Proof.
  revert n nprbytes i out. induction k as [|k IH]; intros n nprbytes i out Hk Hp Ho; [lia|]. destruct n as [|n]; [lia|]. cbn [decode_loop].
  rewrite (proj2 (Z.leb_gt _ _)) by lia.
  destruct (dec_fault mem i) as [[a ->]| ->]; [|done]. cbn [mbind comp_bind].
  destruct (dec_fault mem (i + 1)) as [[b ->]| ->]; [|done]. cbn [mbind comp_bind].
  destruct (dec_fault mem (i + 2)) as [[c ->]| ->]; [|done]. cbn [mbind comp_bind].
  destruct (dec_fault mem (i + 3)) as [[d ->]| ->]; [|done]. cbn [mbind comp_bind].
  assert (forall (o : list ascii) j x, length o = 100%nat -> arr_set o j x = Err OutOfBounds \/ exists o', arr_set o j x = Ret o' /\ length o' = 100%nat) as Hset.
  { intros o j x Hlo. unfold arr_set. destruct (_ && _); [right|by left]. eexists. split; [done|]. by rewrite length_insert. }
  destruct k as [|k].
  - replace (102 - 3 * Z.of_nat 1) with 99 by lia.
    destruct (Hset out 99 (chr (Z.lor (Z.shiftl a 2) (Z.shiftr b 4))) Ho) as [->|(o1 & -> & Ho1)]; [done|]. cbn [mbind comp_bind].
    match goal with |- context [arr_set o1 ?j ?x] => replace (arr_set o1 j x) with (@Err (list ascii) OutOfBounds) by (unfold arr_set; by rewrite Ho1) end.
    done.
  - destruct (Hset out (102 - 3 * Z.of_nat (S (S k))) (chr (Z.lor (Z.shiftl a 2) (Z.shiftr b 4))) Ho) as [->|(o1 & -> & Ho1)]; [done|]. cbn [mbind comp_bind].
    match goal with |- context [arr_set o1 ?j ?x] => destruct (Hset o1 j x Ho1) as [->|(o2 & -> & Ho2)]; [done|] end. cbn [mbind comp_bind].
    match goal with |- context [arr_set o2 ?j ?x] => destruct (Hset o2 j x Ho2) as [->|(o3 & -> & Ho3)]; [done|] end. cbn [mbind comp_bind].
    replace (102 - 3 * Z.of_nat (S (S k)) + 3) with (102 - 3 * Z.of_nat (S k)) by lia. apply IH; [lia|lia|done].
Qed.

Definition coded (c : ascii) : bool := isascii c && (index_from six2pr c 0 <=? 63).

Lemma count_coded_app w mem : str_forall coded w = true -> count_coded (String.list_ascii_of_string w ++ NUL :: mem) = Ret (strlen w).
Proof.
  induction w as [|c w IH]; intros Hw; [done|]. cbn [str_forall] in Hw. apply andb_true_iff in Hw as [Hc Hw].
  unfold coded in Hc. apply andb_true_iff in Hc as [H1 H2]. cbn [String.list_ascii_of_string app count_coded]. unfold pr2six. rewrite H1.
  cbn [mbind comp_bind]. rewrite H2, IH by done. cbn [mbind comp_bind]. rewrite strlen_cons. f_equal. lia.
Qed.

Lemma skip_blanks_coded w mem :
  str_forall coded w = true -> w <> EmptyString -> skip_blanks_mem (String.list_ascii_of_string w ++ mem) = String.list_ascii_of_string w ++ mem.
Proof.
  destruct w as [|c w]; [done|]. cbn [str_forall String.list_ascii_of_string app skip_blanks_mem]. intros Hw _. apply andb_true_iff in Hw as [Hc _].
  rewrite !bool_decide_false; [done|intros ->; by vm_compute in Hc..].
Qed.

Lemma long_authorization w mem out q :
  str_forall coded w = true -> 133 <= strlen w -> length out = 100%nat ->
  header_auth (put_line ("Authorization: Basic " +:+ w) mem) out ("Authorization: Basic " +:+ w) q = Err OutOfBounds.
Proof.
  intros Hw Hl Ho. unfold header_auth. change (has_prefix "Authorization: " ("Authorization: Basic " +:+ w)) with true.
  change (after_colon ("Authorization: Basic " +:+ w)) with (Some ("Basic " +:+ w)). cbn iota.
  assert (strncmp_eq "Basic " ("Basic " +:+ w) = true) as -> by (unfold strncmp_eq; cbn; by destruct w). cbn [negb]. cbn iota.
  assert (String.length ("Authorization: Basic " +:+ w) - String.length ("Basic " +:+ w) + 6 = 21)%nat as ->.
  { rewrite !str_length_app. cbn [String.length]. lia. }
  unfold put_line. rewrite list_ascii_app, <- app_assoc. rewrite drop_app_length_eq by done.
  unfold _httpd_decode. rewrite skip_blanks_coded by (done || (intros ->; by vm_compute in Hl)). rewrite count_coded_app by done. cbn [mbind comp_bind].
  assert (34 * 3 <= Z.quot (strlen w + 3) 4 * 3) by (rewrite Z.quot_div_nonneg by lia; Z.div_mod_to_equations; lia).
  rewrite (proj2 (Z.ltb_lt 100 _)) by lia. change (Z.quot (100 * 4) 3) with 133.
  match goal with |- context [decode_loop ?n ?m _ _ _ _] => pose proof (decode_overflows 34 n m 133 0 out) as E end.
  change (102 - 3 * Z.of_nat 34) with 0 in E. by rewrite E by (done || lia).
Qed.

(** C39: three inputs that leave the buffers: a line of 10240 characters, a
    Basic authentication of 133 or more, and a body announced by a connection
    that then fails. *)
Theorem reading_faults :
  (forall fuel junk authBuf ds l rest,
     Forall (fun d => d <> []) ds -> concat ds = String.list_ascii_of_string l ++ rest -> str_forall line_char l = true ->
     strlen l = HTTP_MAX_LEN -> (String.length l < fuel)%nat -> httpdReadRequest fuel junk authBuf (accepted (Got <$> ds)) = Err OutOfBounds)
  /\ (forall w mem authBuf q,
     str_forall coded w = true -> 133 <= strlen w -> length authBuf = 100%nat ->
     process_header (put_line ("Authorization: Basic " +:+ w) mem) authBuf ("Authorization: Basic " +:+ w) q = Err OutOfBounds)
  /\ (forall q r p,
     method q = HTTP_POST -> readBufRemain r < 0 -> readBufPtr r = Some p -> 0 <= p <= Z.of_nat (length (readBuf r)) ->
     Z.of_nat (length (readBuf r)) - p < contentLength q < HTTP_MAX_URL -> read_body q r = Err OutOfBounds).
Proof.
  split_and!.
  - intros fuel junk authBuf ds l rest Hd E Hl Hn Hf. unfold httpdReadRequest. pose proof (accepted_holds ds Hd) as Hr. rewrite E in Hr.
    by rewrite (readLine_long fuel _ l rest HTTP_MAX_LEN 0) by (done || lia).
  - intros w mem authBuf q Hw Hl Ho. unfold process_header. by rewrite long_authorization.
  - intros q r p Hm Hn Hp H0 Hl. unfold read_body. rewrite Hm. change (HTTP_POST =? HTTP_POST) with true.
    rewrite (proj2 (Z.ltb_lt 0 _)) by lia. cbn [andb]. cbn zeta.
    destruct (Z.ltb_spec (contentLength q) (HTTP_MAX_URL - 1)); by rewrite (readBuf_overrun _ r p) by (done || lia).
Qed.

(** The connection fails behind the header that announces the body. *)
Example failed_read_ex :
  httpdReadRequest 200 (junk0 10240) (junk0 100)
    (accepted [Got (String.list_ascii_of_string ("POST /mqtt/send HTTP/1.1" +:+ CRLF +:+ "Content-Length: 5000" +:+ CRLF)); Failed]) = Err OutOfBounds.
Proof. vm_compute. reflexivity. Qed.

Fixpoint letters (n : nat) : string := match n with O => EmptyString | S n => String "A" (letters n) end.
Definition failed_post : httpReq := set_contentLength 5000 (set_line HTTP_POST "/mqtt/send" httpReq0).
Definition failed_reader : reader := {| readBufRemain := -1; readBuf := junk0 4097; readBufPtr := Some 60; answers := [] |}.

Lemma reading_faults_witness :
  httpdReadRequest 10300 [] [] (accepted [Got (String.list_ascii_of_string (letters 10240))]) = Err OutOfBounds
  /\ process_header (put_line ("Authorization: Basic " +:+ letters 133) (junk0 10240)) (junk0 100) ("Authorization: Basic " +:+ letters 133) httpReq0 =
       Err OutOfBounds
  /\ read_body failed_post failed_reader = Err OutOfBounds.
Proof.
  destruct reading_faults as (H1 & H2 & H3). split_and!.
  - apply (H1 10300%nat [] [] [String.list_ascii_of_string (letters 10240)] (letters 10240) []);
      [by repeat constructor|by vm_compute|by vm_compute|by vm_compute|by apply Nat.ltb_lt; vm_compute].
  - apply H2; by vm_compute.
  - apply (H3 failed_post failed_reader 60); [done|by vm_compute|done|by vm_compute|by vm_compute].
Defined.
End Httpd.
