(* ===== verification/HttpdServe.v ===== *)
(** * Answering HTTP requests (httpd/source/protocol.c, api.c, ip_acl.c)

    The tree of directories and contents of a server, the search of a path in
    it, the response with what is written to the connection, and access lists.
    A callback is a function on the state of the program, the request and the
    response.  The texts of times are given by [gmtime]; a file system answers
    for files.  What is written is a list of the pieces, in order. *)

From Stdlib Require Import Ascii.
From S2P Require Import Prelude CString Httpd.

Local Open Scope Z_scope.

Module HttpdServe.
Import Httpd.

Definition HTTP_MAX_HEADERS : Z := 1024.

(** ** The response *)

Record httpRes := {
  responseLength : Z; headersSent : bool; headers : string; response : string; contentType : string; written : list string
}.

Definition with_headers (h : string) (r : httpRes) : httpRes :=
  {| responseLength := responseLength r; headersSent := headersSent r; headers := h; response := response r;
     contentType := contentType r; written := written r |}.
Definition with_response (s : string) (r : httpRes) : httpRes :=
  {| responseLength := responseLength r; headersSent := headersSent r; headers := headers r; response := s;
     contentType := contentType r; written := written r |}.
Definition with_contentType (s : string) (r : httpRes) : httpRes :=
  {| responseLength := responseLength r; headersSent := headersSent r; headers := headers r; response := response r;
     contentType := s; written := written r |}.
Definition with_length (n : Z) (r : httpRes) : httpRes :=
  {| responseLength := n; headersSent := headersSent r; headers := headers r; response := response r;
     contentType := contentType r; written := written r |}.
Definition _httpd_net_write (s : list string) (r : httpRes) : httpRes :=
  {| responseLength := responseLength r; headersSent := headersSent r; headers := headers r; response := response r;
     contentType := contentType r; written := written r ++ s |}.
Definition sent_headers (r : httpRes) : httpRes :=
  {| responseLength := responseLength r; headersSent := true; headers := headers r; response := response r;
     contentType := contentType r; written := written r |}.

(** What httpdReadRequest sets up. *)
Definition standard_response : httpRes :=
  {| responseLength := 0; headersSent := false; headers := "Server: Tiger Server" +:+ CRLF; response := "200 OK" +:+ CRLF;
     contentType := "text/html" +:+ CRLF; written := [] |}.

Definition httpdSetResponse (r : httpRes) (msg : string) : httpRes := with_response (copy_text HTTP_MAX_URL msg) r.
Definition httpdSetContentType (r : httpRes) (type : string) : httpRes := with_contentType (copy_text HTTP_MAX_URL type) r.

Fixpoint last_char (s : string) : option ascii :=
  match s with EmptyString => None | String c EmptyString => Some c | String _ s => last_char s end.

Definition httpdAddHeader (r : httpRes) (msg : string) : comp httpRes :=
  let size := HTTP_MAX_HEADERS - 2 - strlen (headers r) in
  if 0 <? size then
    let* h := write_buf HTTP_MAX_HEADERS (headers r +:+ str_take (Z.to_nat size) msg) in
    match last_char h with
    | None => Err OutOfBounds
    | Some c =>
        if bool_decide (c = LF) then Ret (with_headers h r)
        else let* h := write_buf HTTP_MAX_HEADERS (h +:+ CRLF) in Ret (with_headers h r)
    end
  else Ret r.

Definition httpdSetCookie (r : httpRes) (name value : string) : comp httpRes :=
  httpdAddHeader r (copy_text HTTP_MAX_URL ("Set-Cookie: " +:+ name +:+ "=" +:+ value +:+ "; path=/;")).

Section serve.
(** The text of a time, the current one for 0. *)
Variable gmtime : Z -> string.

Definition _httpd_sendHeaders (r : httpRes) (contentLength modTime : Z) : httpRes :=
  if headersSent r then r
  else
    _httpd_net_write
      (["HTTP/1.1 "; response r; headers r; "Date: "; gmtime 0; CRLF; "Connection: close" +:+ CRLF; "Content-Type: "; contentType r] ++
       (if 0 <? contentLength then
          ["Content-Length: "; fmt_d contentLength; CRLF; "Last-Modified: "; gmtime modTime; CRLF]
        else []) ++ [CRLF]) (sent_headers r).
Definition httpdSendHeaders (r : httpRes) : httpRes := _httpd_sendHeaders r 0 0.

Definition _httpd_sendText (r : httpRes) (msg : string) : httpRes :=
  _httpd_net_write [msg] (with_length (responseLength r + strlen msg) r).

Definition _httpd_send304 (r : httpRes) : httpRes :=
  _httpd_sendHeaders (httpdSetResponse r ("304 Not Modified" +:+ String LF EmptyString)) 0 0.
Definition _httpd_send403 (r : httpRes) : httpRes :=
  let r := _httpd_sendHeaders (httpdSetResponse r ("403 Permission Denied" +:+ String LF EmptyString)) 0 0 in
  let r := _httpd_sendText r ("<HTML><HEAD><TITLE>403 Permission Denied</TITLE></HEAD>" +:+ String LF EmptyString) in
  _httpd_sendText r ("<BODY><H1>Access to the request URL was denied!</H1>" +:+ String LF EmptyString).
Definition stock404 (r : httpRes) : httpRes :=
  let r := _httpd_sendHeaders (httpdSetResponse r ("404 Not Found" +:+ String LF EmptyString)) 0 0 in
  let r := _httpd_sendText r ("<HTML><HEAD><TITLE>404 Not Found</TITLE></HEAD>" +:+ String LF EmptyString) in
  let r := _httpd_sendText r ("<BODY><H1>The request URL was not found!</H1>" +:+ String LF EmptyString) in
  _httpd_sendText r ("</BODY></HTML>" +:+ String LF EmptyString).

(** *** httpdOutput *)

Definition name_char (c : ascii) : bool := isalpha c || isdigit c || bool_decide (c = "_"%char).

(** The name behind a dollar, in a buffer of 80 bytes. *)
Definition var_name (s : string) : comp string :=
  let w := str_take 80 (leading name_char s) in if strlen w <? 80 then Ret w else Err OutOfBounds.

Fixpoint str_drop (n : nat) (s : string) : string :=
  match n, s with S n, String _ s => str_drop n s | _, _ => s end.

(** [buf] is what is written up to [dest]; [count] is the variable of that
    name, which a value does not advance. *)
Fixpoint output_loop (fuel : nat) (vars : list httpVar) (src buf : string) (count : Z) : comp string :=
  match fuel with
  | O => Err OutOfFuel
  | S fuel =>
      match src with
      | EmptyString => write_buf HTTP_MAX_LEN buf
      | String c src' =>
          if HTTP_MAX_LEN <=? count then write_buf HTTP_MAX_LEN buf
          else
            let plain :=
              if strlen buf <? HTTP_MAX_LEN then output_loop fuel vars src' (buf +:+ String c EmptyString) (count + 1)
              else Err OutOfBounds in
            if bool_decide (c = "$"%char) then
              let* varName := var_name src' in
              match httpdGetVariableByName vars varName with
              | Some (_, value :: _) =>
                  if count + strlen value <? HTTP_MAX_LEN then
                    let* buf := write_buf HTTP_MAX_LEN (buf +:+ value) in
                    output_loop fuel vars (str_drop (String.length varName) src') buf count
                  else plain
              | _ => plain
              end
            else plain
      end
  end.

Definition httpdOutput (vars : list httpVar) (r : httpRes) (msg : string) : comp httpRes :=
  let* buf := output_loop (S (String.length msg)) vars msg EmptyString 0 in
  let r := with_length (responseLength r + strlen buf) r in
  let r := if headersSent r then r else httpdSendHeaders r in
  Ret (_httpd_net_write [buf] r).

(** [text] is what the format and its arguments give. *)
Definition httpdPrintf (r : httpRes) (text : string) : httpRes :=
  let r := if headersSent r then r else httpdSendHeaders r in
  let buf := copy_text HTTP_MAX_LEN text in
  _httpd_net_write [buf] (with_length (responseLength r + strlen buf) r).

Definition httpdForceAuthenticate (vars : list httpVar) (r : httpRes) (realm : string) : comp httpRes :=
  let r := httpdSetResponse r "401 Please Authenticate" in
  let* r := httpdAddHeader r (copy_text 255 ("WWW-Authenticate: Basic realm=" +:+ quoted realm +:+ String LF EmptyString)) in
  httpdOutput vars r (String LF EmptyString).
Definition httpdAuthenticate (vars : list httpVar) (authLen : Z) (r : httpRes) (realm : string) : comp httpRes :=
  if authLen =? 0 then httpdForceAuthenticate vars r realm else Ret r.

(** ** The contents *)

Context {St : Type}.
(** A callback, over the state of the program. *)
Definition callback : Type := St -> httpReq -> httpRes -> comp (St * httpRes).

Inductive content_type :=
  | HTTP_FILE (path : string)
  | HTTP_C_FUNCT (f : callback)
  | HTTP_STATIC (data : string)
  | HTTP_WILDCARD (path : string)
  | HTTP_C_WILDCARD (f : callback).

(** A wildcard has no name; [preload] is the result of the function that is
    called before, if there is one. *)
Record httpContent := { c_name : string; c_type : content_type; indexFlag : Z; preload : option Z }.

Inductive httpDir := Dir (name : string) (children : list httpDir) (entries : list httpContent).
Definition dir_name (d : httpDir) : string := let 'Dir n _ _ := d in n.
Definition children (d : httpDir) : list httpDir := let 'Dir _ c _ := d in c.
Definition entries (d : httpDir) : list httpContent := let 'Dir _ _ e := d in e.

Record httpd := { startTime : Z; fileBasePath : string; content : httpDir; handle404 : option callback }.

Definition httpdCreate (now : Z) : httpd :=
  {| startTime := now; fileBasePath := EmptyString; content := Dir EmptyString [] []; handle404 := None |}.

Definition named (n : string) (d : httpDir) : bool := strcmp_eq (dir_name d) n.
Definition path_tokens (dir : string) : list string := strtok_all "/" EmptyString (copy_text HTTP_MAX_URL dir).

Fixpoint find_dir (d : httpDir) (ts : list string) : option httpDir :=
  match ts with
  | [] => Some d
  | t :: ts => match find (named t) (children d) with Some d => find_dir d ts | None => None end
  end.
(** With [createFlag] unset. *)
Definition _httpd_findContentDir (server : httpd) (dir : string) : option httpDir := find_dir (content server) (path_tokens dir).

(** The first child of this name is changed, or a new one goes to the front. *)
Fixpoint update_child (t : string) (f : httpDir -> httpDir) (ds : list httpDir) : option (list httpDir) :=
  match ds with
  | [] => None
  | d :: ds => if named t d then Some (f d :: ds) else (fun ds => d :: ds) <$> update_child t f ds
  end.
Fixpoint update_dir (ts : list string) (f : httpDir -> httpDir) (d : httpDir) : httpDir :=
  match ts with
  | [] => f d
  | t :: ts =>
      let 'Dir n cs es := d in
      Dir n (match update_child t (update_dir ts f) cs with
             | Some cs => cs
             | None => update_dir ts f (Dir t [] []) :: cs
             end) es
  end.
Definition add_entry (e : httpContent) (d : httpDir) : httpDir := let 'Dir n cs es := d in Dir n cs (e :: es).
Definition add_content (server : httpd) (dir : string) (e : httpContent) : httpd :=
  {| startTime := startTime server; fileBasePath := fileBasePath server;
     content := update_dir (path_tokens dir) (add_entry e) (content server); handle404 := handle404 server |}.

Definition base_path (server : httpd) (path : string) : string :=
  match path with
  | String c _ => if bool_decide (c = SLASH) then path else copy_text HTTP_MAX_URL (fileBasePath server +:+ "/" +:+ path)
  | EmptyString => copy_text HTTP_MAX_URL (fileBasePath server +:+ "/")
  end.
Definition httpdSetFileBase (server : httpd) (path : string) : httpd :=
  {| startTime := startTime server; fileBasePath := copy_text HTTP_MAX_URL path; content := content server; handle404 := handle404 server |}.
Definition httpdAddFileContent (server : httpd) (dir name : string) (index : Z) (pre : option Z) (path : string) : httpd :=
  add_content server dir {| c_name := name; c_type := HTTP_FILE (base_path server path); indexFlag := index; preload := pre |}.
Definition httpdAddWildcardContent (server : httpd) (dir : string) (pre : option Z) (path : string) : httpd :=
  add_content server dir {| c_name := EmptyString; c_type := HTTP_WILDCARD (base_path server path); indexFlag := 0; preload := pre |}.
Definition httpdAddCContent (server : httpd) (dir name : string) (index : Z) (pre : option Z) (f : callback) : httpd :=
  add_content server dir {| c_name := name; c_type := HTTP_C_FUNCT f; indexFlag := index; preload := pre |}.
Definition httpdAddCWildcardContent (server : httpd) (dir : string) (pre : option Z) (f : callback) : httpd :=
  add_content server dir {| c_name := EmptyString; c_type := HTTP_C_WILDCARD f; indexFlag := 0; preload := pre |}.
Definition httpdAddStaticContent (server : httpd) (dir name : string) (index : Z) (pre : option Z) (data : string) : httpd :=
  add_content server dir {| c_name := name; c_type := HTTP_STATIC data; indexFlag := index; preload := pre |}.
Definition httpdAddC404Content (server : httpd) (f : callback) : httpd :=
  {| startTime := startTime server; fileBasePath := fileBasePath server; content := content server; handle404 := Some f |}.

Definition is_wildcard (e : httpContent) : bool := match c_type e with HTTP_WILDCARD _ | HTTP_C_WILDCARD _ => true | _ => false end.
Definition _httpd_findContentEntry (d : httpDir) (entryName : string) : option httpContent :=
  find (fun e => is_wildcard e || (bool_decide (entryName = EmptyString) && negb (indexFlag e =? 0)) || strcmp_eq (c_name e) entryName) (entries d).

(** ** Serving *)

Definition _httpd_send404 (server : httpd) (st : St) (q : httpReq) (r : httpRes) : comp (St * httpRes) :=
  match handle404 server with Some f => f st q r | None => Ret (st, stock404 r) end.

(** The header If-Modified-Since is not read: the text compared is empty. *)
Definition _httpd_checkLastModified (modTime : Z) : Z := if strcmp_eq (gmtime modTime) EmptyString then 0 else 1.

Definition _httpd_sendStatic (server : httpd) (q : httpReq) (vars : list httpVar) (r : httpRes) (data : string) : comp httpRes :=
  let r := if _httpd_checkLastModified (startTime server) =? 0 then _httpd_send304 r else r in
  httpdOutput vars (_httpd_sendHeaders r (strlen data) (startTime server)) data.

(** What stat and read give for a path: the time of the last change and the
    bytes. *)
Variable file : string -> option (Z * string).

Definition image_types : list (string * string) :=
  [(".gif", "image/gif"); (".jpg", "image/jpeg"); (".xbm", "image/xbm"); (".png", "image/png")].
Definition suffix_type (path old : string) : string :=
  match strrchr path DOT with
  | Some (_, s) =>
      fold_left (fun t '(x, ty) => if strcasecmp_eq (String DOT s) x then ty else t) image_types old
  | None => old
  end.

(** The blocks that read gives. *)
Fixpoint blocks_of (fuel : nat) (data : string) : list string :=
  match fuel, data with
  | S fuel, String _ _ => str_take (Z.to_nat HTTP_MAX_LEN) data :: blocks_of fuel (str_drop (Z.to_nat HTTP_MAX_LEN) data)
  | _, _ => []
  end.
Definition _httpd_catFile (r : httpRes) (path : string) : httpRes :=
  match file path with
  | Some (_, data) => _httpd_net_write (blocks_of (String.length data) data) (with_length (responseLength r + strlen data) r)
  | None => r
  end.
Definition _httpd_sendFile (server : httpd) (st : St) (q : httpReq) (r : httpRes) (path : string) : comp (St * httpRes) :=
  let r := with_contentType (suffix_type path (contentType r)) r in
  match file path with
  | None => _httpd_send404 server st q r
  | Some (mtime, data) =>
      if _httpd_checkLastModified mtime =? 0 then Ret (st, _httpd_send304 r)
      else Ret (st, _httpd_catFile (_httpd_sendHeaders r (strlen data) mtime) path)
  end.
Definition _httpd_sendDirectoryEntry (server : httpd) (st : St) (q : httpReq) (r : httpRes) (dir entryName : string)
    : comp (St * httpRes) :=
  _httpd_sendFile server st q r (copy_text HTTP_MAX_URL (dir +:+ "/" +:+ entryName)).

(** The directory and the name in a path. *)
Definition split_path (path : string) : option (string * string) :=
  match strrchr (copy_text HTTP_MAX_URL path) SLASH with
  | None => None
  | Some (EmptyString, name) => Some (String SLASH EmptyString, name)
  | Some (dir, name) => Some (dir, name)
  end.

Definition find_entry (server : httpd) (path : string) : option (option (httpContent * string)) :=
  match split_path path with
  | None => None
  | Some (dirName, entryName) =>
      Some (match _httpd_findContentDir server dirName with
            | None => None
            | Some dir => (fun e => (e, entryName)) <$> _httpd_findContentEntry dir entryName
            end)
  end.

Definition httpdProcessRequest (server : httpd) (st : St) (q : httpReq) (vars : list httpVar) (r : httpRes) : comp (St * httpRes) :=
  let r := with_length 0 r in
  match find_entry server (path q) with
  | None => Ret (st, r)
  | Some None => _httpd_send404 server st q r
  | Some (Some (entry, entryName)) =>
      if match preload entry with Some rc => rc <? 0 | None => false end then Ret (st, r)
      else
        match c_type entry with
        | HTTP_C_FUNCT f | HTTP_C_WILDCARD f => f st q r
        | HTTP_STATIC data => let* r := _httpd_sendStatic server q vars r data in Ret (st, r)
        | HTTP_FILE p => _httpd_sendFile server st q r p
        | HTTP_WILDCARD p => _httpd_sendDirectoryEntry server st q r p entryName
        end
  end.
End serve.
Arguments callback : clear implicits.
Arguments httpd : clear implicits.
Arguments httpDir : clear implicits.
Arguments httpContent : clear implicits.
Arguments content_type : clear implicits.

(** ** Escaping *)

Definition row_acceptable (v : Z) : bool :=
  ((48 <=? v) && (v <=? 57)) || ((64 <=? v) && (v <=? 90)) || ((97 <=? v) && (v <=? 122)) ||
  bool_decide (v = 32 \/ v = 42 \/ v = 45 \/ v = 46 \/ v = 47 \/ v = 95).
Definition hex (v : Z) : ascii := chr (if v <? 10 then 48 + v else 55 + v).
Fixpoint _httpd_escape (s : string) : string :=
  match s with
  | EmptyString => EmptyString
  | String c s =>
      let a := uchar_val c in
      if row_acceptable a then String c (_httpd_escape s)
      else String "%"%char (String (hex (Z.shiftr a 4)) (String (hex (Z.land a 15)) (_httpd_escape s)))
  end.
Definition httpdUrlEncode (s : string) : string :=
  str_map (fun c => if bool_decide (c = SPACE) then "+"%char else c) (_httpd_escape s).

(** ** Access lists (ip_acl.c) *)

(** The address and the length; the numbers are [u_int]. *)
Definition scanCidr (val : string) : option (Z * Z) :=
  let res1 := to_uint (atoi val) in
  match strchr val DOT with
  | None => None
  | Some (_, cp) =>
      let res2 := to_uint (atoi cp) in
      match strchr cp DOT with
      | None => None
      | Some (_, cp) =>
          let res3 := to_uint (atoi cp) in
          match strchr cp DOT with
          | None => None
          | Some (_, cp) =>
              let res4 := to_uint (atoi cp) in
              let res5 := match strchr cp SLASH with Some (_, cp) => to_uint (atoi cp) | None => 32 end in
              if (255 <? res1) || (255 <? res2) || (255 <? res3) || (255 <? res4) || (32 <? res5) then None
              else Some (to_int (Z.shiftl res1 24 + Z.shiftl res2 16 + Z.shiftl res3 8 + res4), res5)
          end
      end
  end.

(** The loop that builds [len] ones; beyond 31 the sign bit is reached. *)
Fixpoint ones_loop (len : nat) (mask : Z) : Z :=
  match len with O => mask | S len => ones_loop len (to_int (to_int (Z.shiftl mask 1) + 1)) end.
Definition _isInCidrBlock (addr1 len1 addr2 len2 : Z) : Z :=
  if len2 <? len1 then 0
  else
    let mask := to_int (Z.shiftl (ones_loop (Z.to_nat len1) 0) (32 - len1)) in
    if Z.land addr1 mask =? Z.land addr2 mask then 1 else 0.

Definition HTTP_ACL_PERMIT : Z := 1.
Definition HTTP_ACL_DENY : Z := 2.
Record httpAcl := { addr : Z; len : Z; action : Z }.

(** The list with the entry at its end, or NULL. *)
Definition httpdAddAcl (acl : list httpAcl) (cidr : string) (act : Z) : option (list httpAcl) :=
  match scanCidr cidr with
  | None => None
  | Some (a, l) =>
      if negb (act =? HTTP_ACL_PERMIT) && negb (act =? HTTP_ACL_DENY) then None
      else Some (acl ++ [{| addr := a; len := l; action := act |}])
  end.

(** The action, and the response of a client that is refused.  [junk] is the
    address and the length when the client's address cannot be scanned. *)
Definition httpdCheckAcl (gmtime : Z -> string) (junk : Z * Z) (clientAddr : string) (acl : list httpAcl) (r : httpRes) : Z * httpRes :=
  let '(a, l) := default junk (scanCidr clientAddr) in
  let act := match find (fun cur => _isInCidrBlock (addr cur) (len cur) a l =? 1) acl with
             | Some cur => action cur
             | None => HTTP_ACL_DENY
             end in
  (act, if act =? HTTP_ACL_DENY then _httpd_send403 gmtime r else r).

(** ** Accepting *)

(** A response that is all zero. *)
Definition httpRes0 : httpRes :=
  {| responseLength := 0; headersSent := false; headers := EmptyString; response := EmptyString; contentType := EmptyString; written := [] |}.

(** The results of select, whether there is a timeout, whether malloc gives a
    request, the peer's address: the new [lastError], the address of the client,
    or nothing, and what was written to it. *)
Fixpoint httpdGetConnection (gmtime : Z -> string) (selects : list Z) (timeout alloc : bool) (ipaddr : option string) (junk : Z * Z)
    (defaultAcl : option (list httpAcl)) (lastError : Z) : option (Z * option string * list string) :=
  match selects with
  | [] => None
  | result :: selects =>
      if result <? 0 then Some (-1, None, [])
      else if result =? 0 then
        if timeout then Some (lastError, None, [])
        else httpdGetConnection gmtime selects timeout alloc ipaddr junk defaultAcl lastError
      else if negb alloc then Some (-3, None, [])
      else
        let clientAddr := copy_text HTTP_IP_ADDR_LEN (default EmptyString ipaddr) in
        match defaultAcl with
        | Some acl =>
            let '(act, r) := httpdCheckAcl gmtime junk clientAddr acl httpRes0 in
            if act =? HTTP_ACL_DENY then Some (2, None, written r) else Some (0, Some clientAddr, [])
        | None => Some (0, Some clientAddr, [])
        end
  end.

(** ** The contents are a map *)

Section contents.
Context {St : Type}.
Implicit Types (d : httpDir St).

(** The entries of the directory at a path. *)
Definition entries_at (d : httpDir St) (ts : list string) : list (httpContent St) :=
  match find_dir d ts with Some d => entries d | None => [] end.

Lemma find_update_child t f (ds ds' : list (httpDir St)) u :
  (forall d, dir_name (f d) = dir_name d) -> update_child t f ds = Some ds' ->
  find (named u) ds' = if strcmp_eq t u then f <$> find (named t) ds else find (named u) ds.
Proof.
  intros Hf. revert ds'. induction ds as [|d ds IH]; intros ds'; cbn [update_child find]; [done|]. destruct (named t d) eqn:En.
  - intros [= <-]. cbn [find]. unfold named at 1. rewrite Hf. unfold named, strcmp_eq in *. apply bool_decide_eq_true in En as <-.
    case_bool_decide; [by subst|]. done.
  - destruct (update_child t f ds) as [ds0|]; [|done]. intros [= <-]. cbn [find]. rewrite (IH ds0 eq_refl). unfold named, strcmp_eq in *.
    apply bool_decide_eq_false in En. destruct (bool_decide (t = u)) eqn:Etu; [|done]. apply bool_decide_eq_true in Etu as <-.
    by rewrite bool_decide_false.
Qed.
Lemma update_child_none t f (ds : list (httpDir St)) : update_child t f ds = None -> find (named t) ds = None.
Proof. induction ds as [|d ds IH]; cbn; [done|]. destruct (named t d); [done|]. destruct (update_child t f ds); [done|]. intros _. by apply IH. Qed.

Lemma update_dir_name ts (f : httpDir St -> httpDir St) d : (forall d, dir_name (f d) = dir_name d) -> dir_name (update_dir ts f d) = dir_name d.
Proof. intros Hf. destruct ts as [|t ts]; [apply Hf|]. by destruct d. Qed.
Lemma add_entry_name (e : httpContent St) d : dir_name (add_entry e d) = dir_name d.
Proof. by destruct d. Qed.

Lemma find_child_update t ts e d u :
  find (named u) (children (update_dir (t :: ts) (add_entry e) d)) =
    if strcmp_eq t u then Some (update_dir ts (add_entry e) (default (Dir t [] []) (find (named t) (children d))))
    else find (named u) (children d).
Proof.
  destruct d as [n cs es]. cbn [update_dir children]. pose proof (fun x => update_dir_name ts (add_entry e) x (add_entry_name e)) as Hn.
  destruct (update_child t (update_dir ts (add_entry e)) cs) as [cs'|] eqn:E.
  - rewrite (find_update_child t _ cs cs' u Hn E). destruct (strcmp_eq t u) eqn:Etu; [|done].
    destruct (find (named t) cs) as [d|] eqn:Ef; [done|]. exfalso. clear -E Ef. revert cs' E. induction cs as [|c cs IH]; intros cs'; cbn in *; [done|].
    destruct (named t c); [done|]. destruct (update_child t _ cs); [|done]. intros _. by eapply IH.
  - rewrite (update_child_none _ _ _ E). cbn [find default]. unfold named at 1. rewrite Hn. cbn [dir_name].
    destruct (strcmp_eq t u); done.
Qed.

(** Adding an entry to a directory changes what is found there and nowhere
    else, whatever the directories on the way. *)
Lemma entries_add ts e d ts' :
  entries_at (update_dir ts (add_entry e) d) ts' = if decide (ts = ts') then e :: entries_at d ts' else entries_at d ts'.
Proof.
  revert d ts'. induction ts as [|t ts IH]; intros d ts'.
  - destruct ts' as [|t' ts']; [destruct d; by rewrite decide_True|]. rewrite decide_False by done. unfold entries_at. cbn [update_dir find_dir].
    by destruct d.
  - destruct ts' as [|t' ts'].
    + rewrite decide_False by done. by destruct d.
    + unfold entries_at. cbn [find_dir]. rewrite find_child_update. unfold strcmp_eq. case_bool_decide as Ht.
      * subst t'. fold (entries_at (update_dir ts (add_entry e) (default (Dir t [] []) (find (named t) (children d)))) ts'). rewrite IH.
        assert (entries_at (default (Dir t [] []) (find (named t) (children d))) ts' =
          match match find (named t) (children d) with Some d => find_dir d ts' | None => None end with Some d => entries d | None => [] end) as ->.
        { destruct (find (named t) (children d)); [done|]. unfold entries_at. by destruct ts'. }
        destruct (decide (ts = ts')) as [->|Hne]; [by rewrite decide_True|]. rewrite decide_False; [done|]. congruence.
      * rewrite decide_False; [done|]. congruence.
Qed.
End contents.

(** ** What is escaped is read back *)

Lemma escape_bytes : forallb (fun z =>
  let c := chr z in
  if row_acceptable z then negb (bool_decide (c = "%"%char)) && negb (bool_decide (c = "+"%char)) && negb (bool_decide (z = 0))
  else bool_decide (chr (_httpd_from_hex (hex (Z.shiftr z 4)) * 16 + _httpd_from_hex (hex (Z.land z 15))) = c) &&
       negb (bool_decide (hex (Z.shiftr z 4) = SPACE)) && negb (bool_decide (hex (Z.land z 15) = SPACE)))
  (map Z.of_nat (seq 0 256)) = true.
Proof. vm_compute. reflexivity. Qed.

Lemma unescape_encoded s q : (String.length s <= String.length q)%nat -> unescape_from (httpdUrlEncode s) q = s.
Proof.
  revert q. induction s as [|c s IH]; intros q Hq; [by destruct q|]. destruct q as [|old q]; [cbn in Hq; lia|]. cbn [String.length] in Hq.
  pose proof (proj1 (forallb_forall _ _) escape_bytes (uchar_val c)) as Hc. cbn beta zeta in Hc. rewrite chr_uchar_val in Hc.
  assert (In (uchar_val c) (map Z.of_nat (seq 0 256))) as Hin.
  { pose proof (uchar_val_range c). apply in_map_iff. exists (Z.to_nat (uchar_val c)). split; [lia|apply in_seq; lia]. }
  specialize (Hc Hin).
  unfold httpdUrlEncode. cbn [_httpd_escape]. destruct (row_acceptable (uchar_val c)) eqn:Ha.
  - rewrite !andb_true_iff, !negb_true_iff, !bool_decide_eq_false in Hc. destruct Hc as [[H1 H2] _]. cbn [str_map].
    fold (httpdUrlEncode s). case_bool_decide as Hs.
    + subst c. cbn [unescape_from]. rewrite bool_decide_false, bool_decide_true by done. by rewrite IH by lia.
    + cbn [unescape_from]. rewrite !bool_decide_false by done. by rewrite IH by lia.
  - rewrite !andb_true_iff, !negb_true_iff, !bool_decide_eq_false, bool_decide_eq_true in Hc. destruct Hc as [[H1 H2] H3].
    cbn [str_map]. rewrite (bool_decide_false ("%"%char = SPACE)), !bool_decide_false by done. fold (httpdUrlEncode s).
    cbn [unescape_from]. rewrite bool_decide_true by done. by rewrite H1, IH by lia.
Qed.

Lemma escape_longer s : (String.length s <= String.length (httpdUrlEncode s))%nat.
Proof.
  unfold httpdUrlEncode. pose proof (strlen_map (fun c => if bool_decide (c = SPACE) then "+"%char else c) (_httpd_escape s)) as H.
  unfold strlen in H. assert (String.length s <= String.length (_httpd_escape s))%nat; [|lia]. clear H.
  induction s as [|c s IH]; [done|]. cbn [_httpd_escape]. destruct (row_acceptable _); cbn [String.length]; lia.
Qed.

(** A text that is escaped into a query is the value that is read from it. *)
Lemma url_roundtrip s : no_nul s = true -> _httpd_unescape (Some (httpdUrlEncode s)) = s.
Proof.
  intros Hs. unfold _httpd_unescape. rewrite unescape_encoded by apply escape_longer. unfold c_str.
  assert (strchr s NUL = None) as ->; [|done]. by apply strchr_str_forall.
Qed.

(** ** Blocks of addresses *)

Lemma mask_values : forallb (fun l => to_int (Z.shiftl (ones_loop l 0) (32 - Z.of_nat l)) =? to_int (- 2 ^ (32 - Z.of_nat l))) (seq 0 33) = true.
Proof. vm_compute. reflexivity. Qed.
Lemma mask_value l : 0 <= l <= 32 -> to_int (Z.shiftl (ones_loop (Z.to_nat l) 0) (32 - l)) = to_int (- 2 ^ (32 - l)).
Proof.
  intros Hl. pose proof (proj1 (forallb_forall _ _) mask_values (Z.to_nat l)) as H. cbn beta in H. rewrite Z2Nat.id in H by lia.
  apply Z.eqb_eq, H, in_seq. lia.
Qed.

Lemma land_high a k : 0 <= k -> Z.land a (- 2 ^ k) = a / 2 ^ k * 2 ^ k.
Proof.
  intros Hk. replace (- 2 ^ k) with (Z.lnot (Z.ones k)) by (rewrite Z.ones_equiv; unfold Z.lnot, Z.pred; lia).
  rewrite <- Z.ldiff_land, Z.ldiff_ones_r, Z.shiftl_mul_pow2, Z.shiftr_div_pow2 by done. done.
Qed.

(** An address is in a block when it is at least as specific and agrees on
    the leading bits. *)
Lemma in_block_iff a1 l1 a2 l2 :
  is_int a1 -> is_int a2 -> 0 <= l1 <= 32 ->
  _isInCidrBlock a1 l1 a2 l2 = 1 <-> l1 <= l2 /\ to_uint a1 / 2 ^ (32 - l1) = to_uint a2 / 2 ^ (32 - l1).
Proof.
  intros Ha1 Ha2 Hl. unfold _isInCidrBlock. destruct (Z.ltb_spec l2 l1); [split; [done|lia]|]. rewrite mask_value by done.
  assert (forall a, is_int a -> exists b : bool, to_uint a = a + (if b then 2 ^ 32 else 0) /\ (b = true <-> a < 0)) as Hu.
  { intros a Ha. exists (a <? 0). unfold is_int, INT_MIN, INT_MAX in Ha. unfold to_uint. change (2 ^ 32) with 4294967296.
    split; [|apply Z.ltb_lt]. destruct (Z.ltb_spec a 0); [|rewrite Z.add_0_r; apply Z.mod_small; lia]. rewrite <- (Z.mod_add _ 1) by lia. apply Z.mod_small. lia. }
  destruct (Z.eq_dec l1 0) as [->|Hne].
  - change (to_int (- 2 ^ (32 - 0))) with 0. rewrite !Z.land_0_r. change (0 =? 0) with true. cbn iota. split; [|done]. intros _. split; [lia|].
    change (2 ^ (32 - 0)) with 4294967296. unfold to_uint.
    rewrite !Z.div_small by (apply Z.mod_pos_bound; lia). done.
  - assert (0 < 2 ^ (32 - l1) <= 2 ^ 31) as Hp by (split; [apply Z.pow_pos_nonneg; lia|apply Z.pow_le_mono_r; lia]).
    rewrite to_int_id by (unfold is_int, INT_MIN, INT_MAX; lia). rewrite !land_high by lia.
    assert (forall a, is_int a -> exists b : bool, to_uint a / 2 ^ (32 - l1) = a / 2 ^ (32 - l1) + (if b then 2 ^ l1 else 0) /\
      - 2 ^ (l1 - 1) <= a / 2 ^ (32 - l1) < 2 ^ (l1 - 1) /\ (b = true <-> a / 2 ^ (32 - l1) < 0)) as Hq.
    { intros a Ha. destruct (Hu a Ha) as (b & -> & Hb). exists b.
      assert (2 ^ 32 = 2 ^ l1 * 2 ^ (32 - l1)) as E32 by (rewrite <- Z.pow_add_r by lia; f_equal; lia).
      assert (2 ^ 31 = 2 ^ (l1 - 1) * 2 ^ (32 - l1)) as E31 by (rewrite <- Z.pow_add_r by lia; f_equal; lia).
      split_and!.
      - destruct b; [rewrite E32, Z.div_add by lia; done|by rewrite !Z.add_0_r].
      - unfold is_int, INT_MIN, INT_MAX in Ha. apply Z.div_le_lower_bound; [lia|]. change (2 ^ 31) with 2147483648 in E31. nia.
      - unfold is_int, INT_MIN, INT_MAX in Ha. apply Z.div_lt_upper_bound; [lia|]. change (2 ^ 31) with 2147483648 in E31. nia.
      - rewrite Hb. split; intros H'; [apply Z.div_lt_upper_bound; lia|]. apply Z.nle_gt. intros Hge. pose proof (Z.div_pos a (2 ^ (32 - l1)) Hge). lia. }
    destruct (Hq a1 Ha1) as (b1 & -> & Hr1 & Hb1), (Hq a2 Ha2) as (b2 & -> & Hr2 & Hb2).
    assert (2 ^ l1 = 2 * 2 ^ (l1 - 1)) as E1 by (rewrite <- Z.pow_succ_r by lia; f_equal; lia).
    destruct (Z.eqb_spec (a1 / 2 ^ (32 - l1) * 2 ^ (32 - l1)) (a2 / 2 ^ (32 - l1) * 2 ^ (32 - l1))) as [E|E].
    + split; [|done]. intros _. split; [lia|]. apply Z.mul_reg_r in E; [|lia]. rewrite E in *.
      assert (b1 = b2) as -> by (destruct b1, b2; intuition congruence). done.
    + split; [done|]. intros [_ E']. exfalso. apply E. f_equal.
      destruct b1, b2; try lia.
Qed.
End HttpdServe.
