(* ===== verification/HttpCallback.v ===== *)
(** * The HTTP requests (hub-app/source/httprequestcallback.c, httpserver.c,
      netutils.c)

    What one request does to the hub: the client's MAC address is looked up,
    the body is parsed, and the message is published, cached or discarded.
    The HTTP library hands over the request and takes the answer. *)

From Stdlib Require Import Ascii.
From S2P Require Import Prelude CString Unicode StringUtils FileSys Json SendReqParser OfflineCache Cipher MqttWrapper MsgCounter.

Local Open Scope Z_scope.

(** ** netutils.c *)

(** What a scanf conversion reads: at most [max] leading characters that
    satisfy [p], and what follows them. *)
Fixpoint scan_set (p : ascii -> bool) (max : nat) (s : string) : string * string :=
  match max, s with
  | S max, String c s' =>
      if p c then let '(w, rest) := scan_set p max s' in (String c w, rest) else (EmptyString, s)
  | _, _ => (EmptyString, s)
  end.

Definition ip_char (c : ascii) : bool := isdigit c || bool_decide (c = DOT).
Definition mac_char (c : ascii) : bool :=
  let v := uchar_val c in
  ((65 <=? v) && (v <=? 70)) || ((97 <=? v) && (v <=? 102)) || isdigit c || (v =? 58).

(** [%*s]: one word, skipped. *)
Definition scan_word (s : string) : option string :=
  let s := skip_spaces s in
  let '(w, rest) := scan_set (fun c => negb (isspace c)) (String.length s) s in
  if string_is_empty (Some w) then None else Some rest.

(** One call of [fscanf(procFile, " %15[0-9.] %*s %*s %17[A-Fa-f0-9:] %*s %*s",
    ip, mac)] that assigns both; the words after the address may be missing. *)
Definition scan_row (s : string) : option (string * string * string) :=
  let '(ip, s) := scan_set ip_char 15 (skip_spaces s) in
  if string_is_empty (Some ip) then None
  else match scan_word s ≫= scan_word with
       | None => None
       | Some s =>
           let '(mac, s) := scan_set mac_char 17 (skip_spaces s) in
           if string_is_empty (Some mac) then None
           else Some (ip, mac, default EmptyString (scan_word s ≫= scan_word))
       end.

Fixpoint arp_scan (fuel : nat) (s reqIp : string) : option string :=
  match fuel with
  | O => None
  | S fuel =>
      match scan_row s with
      | Some (ip, mac, s) => if strcmp_eq ip reqIp then Some mac else arp_scan fuel s reqIp
      | None => None
      end
  end.

(** [procFile] is the text of /proc/net/arp, [None] when it cannot be
    opened; [cap] is the size of the caller's buffer. *)
Definition arp_get_mac (procFile : option string) (reqIp : string) (cap : Z) : comp (Z * option string) :=
  match procFile with
  | None => Ret (FAILURE, None)
  | Some s =>
      let s := match strchr s LF with Some (_, s) => s | None => EmptyString end in
      match arp_scan (S (String.length s)) s reqIp with
      | Some mac => let* mac := write_buf cap mac in Ret (SUCCESS, Some mac)
      | None => Ret (FAILURE, None)
      end
  end.

(** ** Responses *)
Definition JSON_NODE_STATUS_KEY : string := "status".
Definition JSON_NODE_MESSAGE_KEY : string := "msg".
Definition VALUE_OK : string := "ok".
Definition VALUE_ERROR : string := "err".
Definition HTTP_IP_ADDR_LEN : Z := 17.

Definition CRLF : string := String CR (String LF EmptyString).

Record http_response := { content_type : string; headers : list string; response_body : string }.

Definition http_send_response (body : string) : http_response :=
  {| content_type := "application/json" +:+ CRLF;
     headers := [String.substring 0 63 ("Content-Length: " +:+ fmt_d (strlen body) +:+ CRLF);
                 "Access-Control-Allow-Origin:*"];
     response_body := body |}.

Definition ok_body : string := "{" +:+ quoted JSON_NODE_STATUS_KEY +:+ ":" +:+ quoted VALUE_OK +:+ "}".
Definition error_body (msg : string) : string :=
  "{" +:+ quoted JSON_NODE_STATUS_KEY +:+ ":" +:+ quoted VALUE_ERROR +:+ ","
    +:+ quoted JSON_NODE_MESSAGE_KEY +:+ ":" +:+ quoted msg +:+ "}".

Definition http_callback_404 : comp http_response :=
  let* m := write_buf 128 (error_body "request not supported, please check url") in
  Ret (http_send_response m).

(** [cpu] is the text of the percentage with two digits. *)
Definition http_callback_mqtt_status (cpu : string) (memUsage : Z) (connected : bool) (capacity : Z)
    (cacheRootPath : string) (count : Z) : comp http_response :=
  let* root := write_buf POSIX_PATH_MAX cacheRootPath in
  let* m := write_buf 1024
      ("{" +:+ quoted "cpu" +:+ ":" +:+ cpu +:+ "," +:+ quoted "memory" +:+ ":" +:+ fmt_d memUsage +:+ ","
         +:+ quoted "MQTT_connected_status" +:+ ":" +:+ quoted (if connected then "connected" else "disconnected") +:+ ","
         +:+ quoted "offline_cache_capacity" +:+ ":" +:+ fmt_d capacity +:+ ","
         +:+ quoted "offline_cache_path" +:+ ":" +:+ quoted root +:+ ","
         +:+ quoted "offline_message_count" +:+ ":" +:+ fmt_d count +:+ "}") in
  Ret (http_send_response m).

(** ** Sending a message *)
Record request := { clientAddr : string; body : option string; ipForwardedFor : string }.

(** The hub's own state as the callback sees it: the client, the offline
    queue, and the counters of sent and of discarded online messages. *)
Record hub_state := { h_mqtt : MQTTClientStatus; h_cache : cache_state; h_counts : counts }.

Definition with_cache (st : hub_state) (c : cache_state) : hub_state :=
  {| h_mqtt := h_mqtt st; h_cache := c; h_counts := h_counts st |}.
Definition with_counts (st : hub_state) (n : counts) : hub_state :=
  {| h_mqtt := h_mqtt st; h_cache := h_cache st; h_counts := n |}.

(** What the surroundings answer while the request is handled: the ARP table,
    time(NULL), json-c's error text, the clock, the file system's answer to a
    write, and the bytes of the heap behind the payload text. *)
Record call_env := {
  arp_file : option string;
  now : Z;
  last_err : option string;
  tv_sec : Z;
  tv_nsec : Z;
  write : write_resp;
  heap : list Z
}.

Section callback.
Variable json_tokener_parse : string -> option json.
Variable json_object_to_json_string_ext : json -> string.
Variable cbc_encrypt : list Z -> list Z -> list Z -> option (list Z).
Variable cbc_key : list Z.
Variable rand : Z -> nat -> Z.
Variable MQTTAsync_sendMessage : string -> MQTTAsync_message -> Z.
Variables (root serverIP : string).

Definition client_ip (r : request) : comp string :=
  if string_equals (clientAddr r) serverIP true then
    if negb (string_is_empty (Some (ipForwardedFor r))) && negb (string_equals (ipForwardedFor r) serverIP true)
    then write_buf 32 (ipForwardedFor r) else Ret EmptyString
  else write_buf 32 (clientAddr r).

Definition client_mac (e : call_env) (r : request) : comp string :=
  let* clientIp := client_ip r in
  if string_is_empty (Some clientIp) then Ret EmptyString
  else
    let* (rc, mac) := arp_get_mac (arp_file e) clientIp 32 in
    Ret (if rc =? SUCCESS then default EmptyString mac else EmptyString).

Definition NANOSECONDS_PER_SECOND : Z := 1000000000.
Definition timestamp_nsec (e : call_env) : Z := to_long (tv_sec e * NANOSECONDS_PER_SECOND + tv_nsec e).

(** The return code, what was handed to the client, and the state, in which
    an accepted message is counted. *)
Definition try_send (e : call_env) (st : hub_state) (c : mqtt_send_content)
    : comp (Z * option (string * MQTTAsync_message) * hub_state) :=
  if MQTTClientWrapper_isConnected (h_mqtt st) then
    match topic c, payload c with
    | Some topic, Some payload =>
        let* (rc, pub, counted) := MQTTClientWrapper_sendMessage cbc_encrypt cbc_key rand MQTTAsync_sendMessage
                                     (now e) topic (bytes_of payload ++ 0 :: heap e) (qos c) in
        Ret (rc, pub, if (counted : bool) then with_counts st (increase_sent_msg_count (h_counts st)) else st)
    | _, _ => Err NullDeref
    end
  else Ret (MQTTASYNC_DISCONNECTED, None, st).

(** The state and [cacheStatusMsg]. *)
Definition cache_or_discard (fuel : nat) (e : call_env) (st : hub_state) (c : mqtt_send_content) (jobj : option json)
    (cacheIfSendFailed : bool) : comp (hub_state * string) :=
  if cacheIfSendFailed then
    let* cacheStatusMsg := write_buf 256 "cache status: " in
    let* (cache, cacheRC, cacheErrMsg) :=
      enqueue_offline_message fuel root (write e) (h_cache st) (json_object_to_json_string_ext <$> jobj)
        (cache_priority c) (timestamp_nsec e) in
    let* cacheErrMsg := write_buf 256 cacheErrMsg in
    let* cacheStatusMsg := write_buf 256 (cacheStatusMsg +:+
      (if cacheRC =? SUCCESS then "message was cached to offline queue" else cacheErrMsg)) in
    Ret (with_cache st cache, cacheStatusMsg)
  else
    let* cacheStatusMsg := write_buf 256 "discard it" in
    Ret (with_counts st (increase_online_discarded_msg_count (h_counts st)), cacheStatusMsg).

(** The state, the responses sent, and what was handed to the client. *)
Definition _http_callback_mqtt_send (fuel : nat) (e : call_env) (st : hub_state) (r : request)
    (cacheIfSendFailed : bool) : comp (hub_state * list http_response * option (string * MQTTAsync_message)) :=
  let* macAddr := client_mac e r in
  let* p := parse_mqtt_send_request_body json_tokener_parse json_object_to_json_string_ext (now e) (last_err e)
              (body r) (Some macAddr) content_zero in
  if p_rc p =? SUCCESS then
    let* (sendRetCode, pub, st) := try_send e st (p_content p) in
    if sendRetCode =? SUCCESS then
      let* m := write_buf 512 ok_body in Ret (st, [http_send_response m], pub)
    else
      let* (st, cacheStatusMsg) := cache_or_discard fuel e st (p_content p) (p_jobj p) cacheIfSendFailed in
      let* descr := MQTTClientWrapper_errorDescription sendRetCode in
      let* m := write_buf 512 (error_body ("Send MQTT message failed, error: " +:+ descr +:+ ". " +:+ cacheStatusMsg)) in
      Ret (st, [http_send_response m], pub)
  else
    let* m := write_buf 512 (error_body (p_error p)) in Ret (st, [http_send_response m], None).

Definition http_callback_mqtt_send_discard_failed (fuel : nat) (e : call_env) (st : hub_state) (r : request)
    : comp (hub_state * list http_response * option (string * MQTTAsync_message)) :=
  _http_callback_mqtt_send fuel e st r false.
Definition http_callback_mqtt_send_cache_failed (fuel : nat) (e : call_env) (st : hub_state) (r : request)
    : comp (hub_state * list http_response * option (string * MQTTAsync_message)) :=
  _http_callback_mqtt_send fuel e st r true.
End callback.

(** ** httpserver.c *)

(** What one round of the accept loop sees: [lastError], the connection if
    there is one, and the result of [pthread_create]. *)
Record accept_event := { lastError : Z; connection : option request; create_rc : Z }.

(** The requests given to threads, and the exit code once the loop ends. *)
Fixpoint accept_loop (exitCode : Z) (events : list accept_event) : list request * option Z :=
  match events with
  | [] => ([], None)
  | ev :: events =>
      if lastError ev =? -1 then accept_loop exitCode events
      else if lastError ev <? -1 then ([], Some 1)
      else match connection ev with
           | Some r =>
               let '(rs, x) := accept_loop (if create_rc ev =? SUCCESS then exitCode else 1) events in
               (if create_rc ev =? SUCCESS then r :: rs else rs, x)
           | None => ([], Some exitCode)
           end
  end.

(** [created] tells whether httpdCreate made a server. *)
Definition HttpServer_run (server : string) (port : Z) (created : bool) (events : list accept_event)
    : list request * option Z :=
  if string_is_empty (Some server) then ([], Some FAILURE)
  else if port <=? 0 then ([], Some FAILURE)
  else if negb created then ([], Some FAILURE)
  else accept_loop 0 events.

(** ** The MAC address fits *)

Lemma scan_set_length p max s : strlen (scan_set p max s).1 <= Z.of_nat max.
Proof.
  revert s. induction max as [|max IH]; intros [|c s]; cbn [scan_set fst];
    [by vm_compute|by vm_compute|change (strlen "") with 0; lia|].
  destruct (p c); [|change (strlen (EmptyString, String c s).1) with 0; lia]. specialize (IH s). destruct (scan_set p max s) as [w rest]. cbn [fst] in *.
  rewrite strlen_cons. lia.
Qed.

Lemma arp_scan_length fuel s ip mac : arp_scan fuel s ip = Some mac -> 0 < strlen mac <= 17.
Proof.
  revert s. induction fuel as [|fuel IH]; intros s; cbn [arp_scan]; [done|].
  destruct (scan_row s) as [[[ip' mac'] s']|] eqn:E; [|done]. destruct (strcmp_eq ip' ip); [|apply IH].
  intros [= <-]. unfold scan_row in E. destruct (scan_set ip_char 15 _) as [ip0 s0].
  destruct (string_is_empty (Some ip0)); [done|]. destruct (scan_word s0 ≫= scan_word) as [s1|]; [|done].
  pose proof (scan_set_length mac_char 17 (skip_spaces s1)) as Hl.
  destruct (scan_set mac_char 17 (skip_spaces s1)) as [m s2]. cbn [fst] in Hl.
  destruct (string_is_empty (Some m)) eqn:He; [done|]. injection E as _ -> _.
  unfold string_is_empty in He. apply Z.eqb_neq in He. pose proof (strlen_nonneg mac'). lia.
Qed.

Lemma arp_get_mac_ok f ip cap : 18 <= cap -> exists rc mac, arp_get_mac f ip cap = Ret (rc, mac).
Proof.
  intros Hc. unfold arp_get_mac. destruct f as [s|]; [|by eexists _, _].
  destruct (arp_scan _ _ ip) as [mac|] eqn:E; [|by eexists _, _]. apply arp_scan_length in E.
  rewrite write_buf_ok by lia. cbn [mbind comp_bind]. by eexists _, _.
Qed.

Lemma client_mac_ok serverIP e r :
  strlen (clientAddr r) < HTTP_IP_ADDR_LEN -> strlen (ipForwardedFor r) < HTTP_IP_ADDR_LEN ->
  exists mac, client_mac serverIP e r = Ret mac.
Proof.
  unfold HTTP_IP_ADDR_LEN. intros H1 H2. unfold client_mac, client_ip.
  assert (exists ip, (if string_equals (clientAddr r) serverIP true then
    if negb (string_is_empty (Some (ipForwardedFor r))) && negb (string_equals (ipForwardedFor r) serverIP true)
    then write_buf 32 (ipForwardedFor r) else Ret EmptyString
    else write_buf 32 (clientAddr r)) = Ret ip) as [ip ->].
  { repeat case_match; first [by eexists|rewrite write_buf_ok by lia; by eexists]. }
  cbn [mbind comp_bind]. destruct (string_is_empty (Some ip)); [by eexists|].
  destruct (arp_get_mac_ok (arp_file e) ip 32) as (rc & mac & ->); [lia|]. cbn [mbind comp_bind]. by eexists.
Qed.

(** ** The fate of a message *)

Lemma bytes_strlen_bytes_of s rest : exists n, bytes_strlen (bytes_of s ++ 0 :: rest) = Ret n /\ 0 <= n <= strlen s.
Proof.
  induction s as [|c s (n & E & Hn)]; [by exists 0|].
  cbn [bytes_of app bytes_strlen]. rewrite strlen_cons.
  destruct (uchar_val c =? 0); [exists 0; split; [done|lia]|]. rewrite E.
  cbn [mbind comp_bind]. exists (n + 1). split; [done|lia].
Qed.

Section publish_facts.
Variable cbc_encrypt : list Z -> list Z -> list Z -> option (list Z).
Variable cbc_key : list Z.
Variable rand : Z -> nat -> Z.
Variable MQTTAsync_sendMessage : string -> MQTTAsync_message -> Z.

(** With the whole blocks of the text readable, sending it ends with SUCCESS,
    the message given to the client and counted, or with FAILURE. *)
Lemma send_total now t p tail qos :
  strlen p + 15 <= INT_MAX -> blocks (strlen p) <= strlen p + 1 + Z.of_nat (length tail) ->
  exists rc pub, MQTTClientWrapper_sendMessage cbc_encrypt cbc_key rand MQTTAsync_sendMessage now t
                   (bytes_of p ++ 0 :: tail) qos = Ret (rc, pub, bool_decide (rc = SUCCESS))
    /\ (rc = SUCCESS \/ rc = FAILURE)
    /\ (rc = SUCCESS -> exists msg, pub = Some (t, msg) /\ MQTTAsync_sendMessage t msg = MQTTASYNC_SUCCESS
          /\ m_qos msg = if (0 <=? qos) && (qos <=? 2) then qos else 0)
    /\ (rc = FAILURE -> match pub with Some (t, msg) => MQTTAsync_sendMessage t msg <> MQTTASYNC_SUCCESS | None => True end).
Proof.
  intros Hp Hl. destruct (bytes_strlen_bytes_of p tail) as (n & E & Hn). unfold MQTTClientWrapper_sendMessage.
  rewrite E. cbn [mbind comp_bind].
  assert (blocks n <= blocks (strlen p)) as Hb by (unfold blocks; Z.div_mod_to_equations; lia).
  unfold mqtt_payload_encrypt, aes_cbc_encrypt. cbn [negb]. rewrite outlen_eq by lia.
  unfold read_bytes. rewrite (proj2 (Z.leb_le (blocks n) (Z.of_nat (length (bytes_of p ++ 0 :: tail)))))
    by (rewrite length_app; pose proof (length_bytes_of p); cbn [length]; lia).
  cbn [mbind comp_bind]. destruct (cbc_encrypt _ _ _) as [out|]; cbn [mbind comp_bind].
  - match goal with |- context [MQTTAsync_sendMessage t ?m] => set (msg := m) end.
    destruct (MQTTAsync_sendMessage t msg =? MQTTASYNC_SUCCESS) eqn:Ha.
    + exists SUCCESS, (Some (t, msg)). split; [reflexivity|]. split; [by left|]. split; [|done]. intros _.
      exists msg. by apply Z.eqb_eq in Ha.
    + exists FAILURE, (Some (t, msg)). split; [reflexivity|]. split; [by right|]. split; [done|]. intros _.
      by apply Z.eqb_neq.
  - exists FAILURE, None. split; [reflexivity|]. split; [by right|done].
Qed.
End publish_facts.

Section callback_facts.
Variable json_tokener_parse : string -> option json.
Variable json_object_to_json_string_ext : json -> string.
Variable cbc_encrypt : list Z -> list Z -> list Z -> option (list Z).
Variable cbc_key : list Z.
Variable rand : Z -> nat -> Z.
Variable MQTTAsync_sendMessage : string -> MQTTAsync_message -> Z.
Variables (root serverIP : string).

(** The texts of the answers fit their buffers. *)
Lemma strlen_error_body m : strlen (error_body m) = strlen m + 25.
Proof.
  unfold error_body. rewrite !strlen_app, !strlen_quoted. change (strlen "{") with 1. change (strlen ":") with 1.
  change (strlen ",") with 1. change (strlen "}") with 1. change (strlen JSON_NODE_STATUS_KEY) with 6.
  change (strlen VALUE_ERROR) with 3. change (strlen JSON_NODE_MESSAGE_KEY) with 3. lia.
Qed.

Lemma failure_text rc msg : rc = FAILURE \/ rc = MQTTASYNC_DISCONNECTED -> strlen msg <= 200 ->
  exists d, MQTTClientWrapper_errorDescription rc = Ret d
    /\ strlen (error_body ("Send MQTT message failed, error: " +:+ d +:+ ". " +:+ msg)) < 300.
Proof.
  intros Hrc Hm. unfold FAILURE, MQTTASYNC_DISCONNECTED in Hrc.
  exists (if rc =? -1 then "FAILURE" else "DISCONNECTED"). split; [by destruct Hrc as [-> | ->]|].
  rewrite strlen_error_body, !strlen_app. change (strlen "Send MQTT message failed, error: ") with 33.
  change (strlen ". ") with 2. assert (strlen (if rc =? -1 then "FAILURE" else "DISCONNECTED") <= 12)
    by (destruct (rc =? -1); by vm_compute). lia.
Qed.

(** What can become of a request: the parser's result, whether a failed
    message is to be cached, the state before and after, the text of the
    answer, and what was handed to the MQTT client. *)
Definition not_taken (st : hub_state) (pub : option (string * MQTTAsync_message)) : Prop :=
  MQTTClientWrapper_isConnected (h_mqtt st) = false
  \/ match pub with Some (t, msg) => MQTTAsync_sendMessage t msg <> MQTTASYNC_SUCCESS | None => True end.

Definition failed_text (descr msg : string) : string :=
  error_body ("Send MQTT message failed, error: " +:+ descr +:+ ". " +:+ msg).

Inductive fate (e : call_env) (st : hub_state) (l : list cache_file_header) (p : parse_result)
    : bool -> hub_state -> string -> option (string * MQTTAsync_message) -> Prop :=
  | Rejected caching :
      p_rc p = FAILURE -> fate e st l p caching st (error_body (p_error p)) None
  | Published caching t msg :
      p_rc p = SUCCESS -> topic (p_content p) = Some t -> MQTTClientWrapper_isConnected (h_mqtt st) = true ->
      MQTTAsync_sendMessage t msg = MQTTASYNC_SUCCESS ->
      fate e st l p caching (with_counts st (increase_sent_msg_count (h_counts st))) ok_body (Some (t, msg))
  | Discarded pub descr :
      p_rc p = SUCCESS -> not_taken st pub ->
      fate e st l p false (with_counts st (increase_online_discarded_msg_count (h_counts st)))
        (failed_text descr "discard it") pub
  | Cached pub descr c l' j :
      p_rc p = SUCCESS -> not_taken st pub -> p_jobj p = Some j ->
      let h := {| h_priority := cache_priority (p_content p); h_timestamp := timestamp_nsec e |} in
      cache_inv root c (l' ++ [h]) -> l' `sublist_of` l ->
      files (disk c) !! file_of root h = Some (json_object_to_json_string_ext j) ->
      fate e st l p true (with_cache st c) (failed_text descr "cache status: message was cached to offline queue") pub
  | Refused pub descr :
      p_rc p = SUCCESS -> not_taken st pub ->
      g_cacheCapacity (h_cache st) <= Z.of_nat (length l) ->
      Forall (fun h => cache_priority (p_content p) < h_priority h) l ->
      fate e st l p true (with_cache st (increase_discarded (h_cache st)))
        (failed_text descr ("cache status: " +:+ refused_message)) pub.

Lemma try_send_total e st p :
  p_rc p = SUCCESS -> is_Some (topic (p_content p)) -> is_Some (payload (p_content p)) ->
  strlen (default EmptyString (payload (p_content p))) + 15 <= INT_MAX -> 15 <= Z.of_nat (length (heap e)) ->
  exists rc pub st', try_send cbc_encrypt cbc_key rand MQTTAsync_sendMessage e st (p_content p) = Ret (rc, pub, st')
    /\ ((rc = SUCCESS /\ st' = with_counts st (increase_sent_msg_count (h_counts st))
          /\ exists t msg, pub = Some (t, msg) /\ topic (p_content p) = Some t
               /\ MQTTClientWrapper_isConnected (h_mqtt st) = true /\ MQTTAsync_sendMessage t msg = MQTTASYNC_SUCCESS)
        \/ ((rc = FAILURE \/ rc = MQTTASYNC_DISCONNECTED) /\ st' = st /\ not_taken st pub)).
Proof.
  intros Hrc [t Ht] [pl Hpl] Hlen Hh. unfold try_send. rewrite Ht, Hpl.
  destruct (MQTTClientWrapper_isConnected (h_mqtt st)) eqn:Hc.
  - rewrite Hpl in Hlen. assert (blocks (strlen pl) <= strlen pl + 1 + Z.of_nat (length (heap e))) as Hbl
      by (pose proof (blocks_bounds (strlen pl) (strlen_nonneg pl)); lia).
    destruct (send_total cbc_encrypt cbc_key rand MQTTAsync_sendMessage (now e) t pl (heap e) (qos (p_content p)) Hlen Hbl) as (rc & pub & -> & [-> | ->] & H1 & H2); cbn [mbind comp_bind]; eexists _, _, _; (split; [reflexivity|]).
    + left. destruct (H1 eq_refl) as (msg & -> & Hm & _). split_and!; [done|done|]. by eexists _, _.
    + right. split_and!; [by left|done|]. right. by apply H2.
  - eexists _, _, _. split; [reflexivity|]. right. split_and!; [by right|done|by left].
Qed.

(** The queue is in step, and the clock gives a time no queued file has. *)
Definition cache_ready (e : call_env) (st : hub_state) (l : list cache_file_header) : Prop :=
  cache_inv root (h_cache st) l /\ 1 <= g_cacheCapacity (h_cache st) /\ strlen root <= ROOT_MAX
  /\ write e = WFull /\ 0 < timestamp_nsec e <= LONG_MAX
  /\ forall prio, is_int prio ->
       file_of root {| h_priority := prio; h_timestamp := timestamp_nsec e |} ∉ file_of root <$> l.

Lemma cache_or_discard_total fuel e st l p j pub rc caching :
  cache_ready e st l -> (length l < fuel)%nat ->
  p_rc p = SUCCESS -> is_int (cache_priority (p_content p)) -> p_jobj p = Some j ->
  json_object_to_json_string_ext j <> EmptyString -> rc = FAILURE \/ rc = MQTTASYNC_DISCONNECTED -> not_taken st pub ->
  exists st' msg descr, cache_or_discard json_object_to_json_string_ext root fuel e st (p_content p) (p_jobj p) caching = Ret (st', msg)
    /\ MQTTClientWrapper_errorDescription rc = Ret descr
    /\ strlen (failed_text descr msg) < 300 /\ fate e st l p caching st' (failed_text descr msg) pub.
Proof.
  intros (Hi & Hcap & Hr & Hw & Hts & Hfresh) Hf Hs Hp Hj Hne Hrc Hnt. unfold cache_or_discard, failed_text.
  destruct caching.
  - rewrite (write_buf_ok 256 "cache status: ") by (by vm_compute). cbn [mbind comp_bind]. rewrite Hj, Hw. cbn [fmap option_fmap option_map].
    assert (header_ok {| h_priority := cache_priority (p_content p); h_timestamp := timestamp_nsec e |}) as Hok
      by (by split).
    pose proof (enqueue_total fuel root (h_cache st) l (json_object_to_json_string_ext j)
      (cache_priority (p_content p)) (timestamp_nsec e) Hr Hi Hok Hcap Hne (Hfresh _ Hp) Hf) as H.
    destruct (_ || _) eqn:Ha.
    + destruct H as (c' & l' & E & Hi' & Hsub & _ & Hfile). rewrite E. cbn [mbind comp_bind].
      rewrite (write_buf_ok 256 EmptyString) by (by vm_compute). cbn [mbind comp_bind].
      rewrite Z.eqb_refl, write_buf_ok by (by vm_compute). cbn [mbind comp_bind].
      destruct (failure_text rc ("cache status: " +:+ "message was cached to offline queue") Hrc) as (d & Hd & Hl);
        [by vm_compute|]. eexists _, _, d. split; [reflexivity|]. split; [done|]. split; [done|].
      exact (Cached e st l p pub d c' l' j Hs Hnt Hj Hi' Hsub Hfile).
    + rewrite H. cbn [mbind comp_bind]. rewrite (write_buf_ok 256 refused_message) by (by vm_compute).
      cbn [mbind comp_bind]. rewrite write_buf_ok by (by vm_compute). cbn [mbind comp_bind].
      destruct (failure_text rc ("cache status: " +:+ refused_message) Hrc) as (d & Hd & Hl); [by vm_compute|].
      eexists _, _, d. split; [reflexivity|]. split; [done|]. split; [done|].
      apply orb_false_iff in Ha as [Ha1%Z.ltb_ge Ha2]. apply (Refused e st l p pub d Hs Hnt Ha1).
      apply Forall_forall. intros h Hin.
      apply Z.lt_nge. intros Hle. apply not_true_iff_false in Ha2. apply Ha2, existsb_exists. exists h.
      split; [by apply list_elem_of_In|by apply Z.leb_le].
  - rewrite write_buf_ok by (by vm_compute). cbn [mbind comp_bind].
    destruct (failure_text rc "discard it" Hrc) as (d & Hd & Hl); [by vm_compute|].
    eexists _, _, d. split; [reflexivity|]. split; [done|]. split; [done|]. exact (Discarded e st l p pub d Hs Hnt).
Qed.

(** A send request with a body is answered exactly once, without a fault
    and within the buffers, and its message meets exactly one fate: it is
    rejected and nothing changes; it is accepted by the connected client and
    counted as sent; or, not accepted, it is counted as discarded, or cached
    with its file at the end of the queue, or refused by a queue full of more
    important messages and counted - as the URL asked. *)
Lemma mqtt_send_fate fuel e st r l b caching :
  body r = Some b -> strlen (clientAddr r) < HTTP_IP_ADDR_LEN -> strlen (ipForwardedFor r) < HTTP_IP_ADDR_LEN ->
  strlen (default "(null)" (last_err e)) <= 109 -> 15 <= Z.of_nat (length (heap e)) ->
  cache_ready e st l -> (length l < fuel)%nat ->
  (forall mac p, client_mac serverIP e r = Ret mac ->
     parse_mqtt_send_request_body json_tokener_parse json_object_to_json_string_ext (now e) (last_err e)
                   (Some b) (Some mac) content_zero = Ret p ->
     strlen (default EmptyString (payload (p_content p))) + 15 <= INT_MAX
     /\ forall j, p_jobj p = Some j -> json_object_to_json_string_ext j <> EmptyString) ->
  exists mac p st' m pub,
    client_mac serverIP e r = Ret mac
    /\ parse_mqtt_send_request_body json_tokener_parse json_object_to_json_string_ext (now e) (last_err e)
         (Some b) (Some mac) content_zero = Ret p
    /\ _http_callback_mqtt_send json_tokener_parse json_object_to_json_string_ext cbc_encrypt cbc_key rand
         MQTTAsync_sendMessage root serverIP fuel e st r caching = Ret (st', [http_send_response m], pub)
    /\ strlen m < 512 /\ fate e st l p caching st' m pub.
Proof.
  intros Hb Hc1 Hc2 Hle Hh Hready Hf Hp. unfold _http_callback_mqtt_send.
  destruct (client_mac_ok serverIP e r Hc1 Hc2) as [mac Hmac]. rewrite Hmac in *. cbn [mbind comp_bind]. rewrite Hb.
  destruct (parse_ok json_tokener_parse json_object_to_json_string_ext (now e) (last_err e) b (Some mac) content_zero Hle)
    as (p & E & He & [(Hs & Ht & Hpl & [j Hj] & _ & Hprio)|[Hs _]]); rewrite E; cbn [mbind comp_bind];
    specialize (Hp _ _ eq_refl E) as [Hlen Hne]; rewrite Hs; exists mac, p.
  - rewrite Z.eqb_refl.
    assert (is_Some (topic (p_content p))) as Ht' by (by destruct (topic (p_content p)); [eexists|]).
    destruct (try_send_total e st p Hs Ht' Hpl Hlen Hh) as
      (rc & pub & st' & -> & [(-> & -> & t & msg & -> & Ht1 & Hc & Ha)|(Hrc & -> & Hnt)]); cbn [mbind comp_bind].
    + rewrite Z.eqb_refl, write_buf_ok by (by vm_compute). cbn [mbind comp_bind]. eexists _, _, _.
      split; [done|]. split; [done|]. split; [reflexivity|]. split; [by vm_compute|]. by apply Published.
    + rewrite (proj2 (Z.eqb_neq rc SUCCESS)) by (by destruct Hrc as [-> | ->]).
      destruct (cache_or_discard_total fuel e st l p j pub rc caching Hready Hf Hs Hprio Hj (Hne _ Hj) Hrc Hnt)
        as (st' & msg & d & -> & Hd & Hl & Hfate). cbn [mbind comp_bind]. rewrite Hd. cbn [mbind comp_bind].
      unfold failed_text in Hl. rewrite write_buf_ok by lia. cbn [mbind comp_bind]. eexists _, _, _.
      split; [done|]. split; [done|]. split; [reflexivity|]. split; [lia|done].
  - change (FAILURE =? SUCCESS) with false. cbn iota.
    rewrite write_buf_ok by (rewrite strlen_error_body; lia). cbn [mbind comp_bind]. eexists _, _, _.
    split; [done|]. split; [done|]. split; [reflexivity|]. split; [rewrite strlen_error_body; lia|]. by apply Rejected.
Qed.
End callback_facts.

Definition demo_env : call_env :=
  {| arp_file := Some ("IP address" +:+ String LF ("10.0.0.7 0x1 0x2 aa:bb:cc:dd:ee:ff * eth0" +:+ String LF EmptyString));
     now := 7; last_err := None; tv_sec := 7; tv_nsec := 9; write := WFull; heap := replicate 15 1 |}.

Example arp_ex : arp_get_mac (arp_file demo_env) "10.0.0.7" 32 = Ret (SUCCESS, Some "aa:bb:cc:dd:ee:ff").
Proof. reflexivity. Qed.

Definition demo_state : hub_state :=
  {| h_mqtt := mqttClientStatus0; h_cache := with_list (demo_cache 2) (Some []); h_counts := zero_counts |}.
Definition demo_http : request :=
  {| clientAddr := "10.0.0.7"; body := Some demo_body; ipForwardedFor := EmptyString |}.
