(* ===== verification/HttpServer.v ===== *)
(** * The hub as an HTTP server (hub-app/source/httpserver.c,
      httprequestcallback.c)

    The hub's callbacks are registered with the library of [Httpd] and
    [HttpdServe]: here a connection's thread is followed from the bytes on its
    socket to the bytes of its response.  The state is that of the hub, with
    the client's address and what the connection hands to the MQTT client. *)

From Stdlib Require Import Ascii.
From S2P Require Import Prelude CString FileSys Json SendReqParser OfflineCache Cipher MqttWrapper MsgCounter Httpd HttpdServe HttpCallback.

Local Open Scope Z_scope.

(** What the server keeps for a connection. *)
Record connection_state := {
  remote : string; hub : hub_state; handed : option (string * MQTTAsync_message)
}.

(** The request as the hub's callbacks see it; its body is an array, never
    NULL. *)
Definition received (client : string) (q : Httpd.httpReq) : request :=
  {| clientAddr := client; body := Some (Httpd.body q);
     ipForwardedFor := Httpd.ipForwardedFor q |}.

Fixpoint add_headers (hs : list string) (r : HttpdServe.httpRes) : comp HttpdServe.httpRes :=
  match hs with
  | [] => Ret r
  | h :: hs => let* r := HttpdServe.httpdAddHeader r h in add_headers hs r
  end.

Section server.
(** The library's times and files. *)
Variable gmtime : Z -> string.
Variable file : string -> option (Z * string).
(** What the callbacks use. *)
Variable json_tokener_parse : string -> option json.
Variable json_object_to_json_string_ext : json -> string.
Variable cbc_encrypt : list Z -> list Z -> list Z -> option (list Z).
Variable cbc_key : list Z.
Variable rand : Z -> nat -> Z.
Variable MQTTAsync_sendMessage : string -> MQTTAsync_message -> Z.
Variables (root serverIP : string).
Variable fuel : nat.
Variable e : call_env.
(** The readings of the process: the percentage as text, and the memory. *)
Variables (cpuPercent : string) (memUsage : Z).

(** [http_send_response] on the library. *)
Definition answer (r : HttpdServe.httpRes) (a : http_response) : comp HttpdServe.httpRes :=
  let r := HttpdServe.httpdSetContentType r (content_type a) in
  let* r := add_headers (headers a) r in
  Ret (HttpdServe.httpdPrintf gmtime r (response_body a)).
Fixpoint answer_all (r : HttpdServe.httpRes) (l : list http_response) : comp HttpdServe.httpRes :=
  match l with
  | [] => Ret r
  | a :: l => let* r := answer r a in answer_all r l
  end.

(** ** The callbacks *)

Definition send_callback (caching : bool) : HttpdServe.callback connection_state := fun st q r =>
  let* (h, rs, pub) :=
    (if caching then http_callback_mqtt_send_cache_failed else http_callback_mqtt_send_discard_failed)
      json_tokener_parse json_object_to_json_string_ext cbc_encrypt cbc_key rand MQTTAsync_sendMessage root serverIP
      fuel e (hub st) (received (remote st) q) in
  let* r := answer_all r rs in
  Ret ({| remote := remote st; hub := h; handed := pub |}, r).

Definition status_callback : HttpdServe.callback connection_state := fun st q r =>
  let* a := http_callback_mqtt_status cpuPercent memUsage (MQTTClientWrapper_isConnected (h_mqtt (hub st)))
              (g_cacheCapacity (h_cache (hub st))) root (offline_messages_count (h_cache (hub st))) in
  let* r := answer r a in
  Ret (st, r).

Definition not_found_callback : HttpdServe.callback connection_state := fun st q r =>
  let* a := http_callback_404 in
  let* r := answer r a in
  Ret (st, r).

(** ** The server *)

Definition hub_server (now : Z) : HttpdServe.httpd connection_state :=
  let s := HttpdServe.httpdCreate now in
  let s := HttpdServe.httpdAddCContent s "/mqtt" "send" 0 None (send_callback false) in
  let s := HttpdServe.httpdAddCContent s "/mqtt/send" "offlinecache" 0 None (send_callback true) in
  let s := HttpdServe.httpdAddCContent s "/mqtt" "status" 0 None status_callback in
  HttpdServe.httpdAddC404Content s not_found_callback.

(** The state and what was written; [rfuel] bounds the lines, [junk] and
    [authBuf] are the stack. *)
Definition httpd_thread (started : Z) (rfuel : nat) (junk authBuf : list ascii) (rd : Httpd.reader) (st : connection_state)
    : comp (connection_state * list string) :=
  let* (rc, q, vars, out, _) := Httpd.httpdReadRequest rfuel junk authBuf rd in
  if rc =? 0 then
    let* (st, r) := HttpdServe.httpdProcessRequest gmtime file (hub_server started) st q vars HttpdServe.standard_response in
    Ret (st, out ++ HttpdServe.written r)
  else Ret (st, out).

(** ** Responses *)

(** The bytes on the wire. *)
Definition sent_text (l : list string) : string := foldr String.append EmptyString l.

(** A response with its length. *)
Definition response_text (m : string) : string :=
  "HTTP/1.1 200 OK" +:+ CRLF +:+ "Server: Tiger Server" +:+ CRLF +:+ "Content-Length: " +:+ fmt_d (strlen m) +:+ CRLF +:+
  "Access-Control-Allow-Origin:*" +:+ CRLF +:+ "Date: " +:+ gmtime 0 +:+ CRLF +:+ "Connection: close" +:+ CRLF +:+
  "Content-Type: application/json" +:+ CRLF +:+ CRLF +:+ m.

Lemma last_char_app s t : t <> EmptyString -> HttpdServe.last_char (s +:+ t) = HttpdServe.last_char t.
Proof.
  intros Ht. induction s as [|c s IH]; [done|]. cbn [String.append HttpdServe.last_char]. rewrite IH.
  destruct s; [by destruct t|done].
Qed.
Lemma take_text_all n s : strlen s <= Z.of_nat n -> Httpd.str_take n s = s.
Proof.
  revert s. induction n as [|n IH]; intros [|c s]; rewrite ?strlen_cons; intros H; cbn [Httpd.str_take]; [done| |done|].
  - pose proof (strlen_nonneg s). lia.
  - rewrite IH by lia. done.
Qed.
Lemma copy_text_all size s : strlen s < size -> Httpd.copy_text size s = s.
Proof. intros H. apply take_text_all. pose proof (strlen_nonneg s). lia. Qed.

(** A header that fits is put behind the others, on a line of its own. *)
Lemma add_header_ok r msg c :
  strlen (HttpdServe.headers r) + strlen msg + 2 < HttpdServe.HTTP_MAX_HEADERS -> HttpdServe.last_char msg = Some c ->
  HttpdServe.httpdAddHeader r msg =
    Ret (HttpdServe.with_headers (HttpdServe.headers r +:+ (if bool_decide (c = LF) then msg else msg +:+ CRLF)) r).
Proof.
  intros Hl Hc. unfold HttpdServe.httpdAddHeader, HttpdServe.HTTP_MAX_HEADERS in *. pose proof (strlen_nonneg msg).
  cbv zeta. rewrite (proj2 (Z.ltb_lt 0 _)), take_text_all by lia.
  rewrite write_buf_ok by (rewrite strlen_app; lia). cbn [mbind comp_bind]. rewrite last_char_app, Hc by (intros ->; done).
  case_bool_decide; [done|]. rewrite write_buf_ok by (rewrite !strlen_app; change (strlen Httpd.CRLF) with 2; lia). cbn [mbind comp_bind].
  by rewrite <- str_app_assoc.
Qed.

Lemma substring_all n s : strlen s <= Z.of_nat n -> String.substring 0 n s = s.
Proof.
  revert s. induction n as [|n IH]; intros [|c s]; rewrite ?strlen_cons; intros H; cbn [String.substring]; [done| |done|].
  - pose proof (strlen_nonneg s). lia.
  - rewrite IH by lia. done.
Qed.

Lemma last_char_crlf s : HttpdServe.last_char (s +:+ CRLF) = Some LF.
Proof. by rewrite last_char_app. Qed.

(** What a callback sends arrives with its length, behind a line for each
    header. *)
Lemma response_framed m :
  is_long (strlen m) -> strlen m < Httpd.HTTP_MAX_LEN - 1 ->
  exists r, answer (HttpdServe.with_length 0 HttpdServe.standard_response) (http_send_response m) = Ret r
    /\ sent_text (HttpdServe.written r) = response_text m.
Proof.
  intros Hi Hm. unfold answer, http_send_response. cbn [content_type headers response_body add_headers].
  set (r0 := HttpdServe.httpdSetContentType _ _).
  assert (HttpdServe.headers r0 = "Server: Tiger Server" +:+ CRLF) as Hh by done.
  pose proof (fmt_d_long_length _ Hi).
  rewrite substring_all by (rewrite !strlen_app; change (strlen "Content-Length: ") with 16; change (strlen CRLF) with 2; lia).
  rewrite str_app_assoc.
  rewrite (add_header_ok r0 _ LF); [|rewrite Hh, !strlen_app; unfold HttpdServe.HTTP_MAX_HEADERS; change (strlen "Server: Tiger Server") with 20; change (strlen CRLF) with 2; change (strlen "Content-Length: ") with 16; lia|apply last_char_crlf].
  cbn [mbind comp_bind]. rewrite bool_decide_true, Hh by done.
  erewrite (add_header_ok _ "Access-Control-Allow-Origin:*"); [|cbn [HttpdServe.headers HttpdServe.with_headers]; rewrite !strlen_app; unfold HttpdServe.HTTP_MAX_HEADERS; change (strlen "Server: Tiger Server") with 20; change (strlen CRLF) with 2; change (strlen "Content-Length: ") with 16; change (strlen "Access-Control-Allow-Origin:*") with 29; lia|reflexivity].
  cbn [mbind comp_bind]. rewrite bool_decide_false by done. eexists. split; [reflexivity|].
  unfold HttpdServe.httpdPrintf. cbv zeta. rewrite copy_text_all by lia. clear Hh Hi Hm H. subst r0. unfold response_text, sent_text.
  cbn. rewrite str_app_nil_r. repeat (rewrite <- str_app_assoc; cbn [String.append]). reflexivity.
Qed.

(** ** Which callback a path reaches *)

Inductive http_callback : Set := MqttSendDiscardFailed | MqttSendCacheFailed | MqttStatus | NotFound.

Definition callback_of (c : http_callback) : HttpdServe.callback connection_state :=
  match c with
  | MqttSendDiscardFailed => send_callback false
  | MqttSendCacheFailed => send_callback true
  | MqttStatus => status_callback
  | NotFound => not_found_callback
  end.

(** The segments up to the last slash name the directory; what follows is the
    name in it.  A path without a slash is not looked up. *)
Definition route (path : string) : option http_callback :=
  match HttpdServe.split_path path with
  | None => None
  | Some (dir, name) =>
      Some (if decide (HttpdServe.path_tokens dir = ["mqtt"]) then
              if decide (name = "send") then MqttSendDiscardFailed else if decide (name = "status") then MqttStatus else NotFound
            else if decide (HttpdServe.path_tokens dir = ["mqtt"; "send"]) then
              if decide (name = "offlinecache") then MqttSendCacheFailed else NotFound
            else NotFound)
  end.

Definition send_entry : HttpdServe.httpContent connection_state :=
  {| HttpdServe.c_name := "send"; HttpdServe.c_type := HttpdServe.HTTP_C_FUNCT (send_callback false); HttpdServe.indexFlag := 0; HttpdServe.preload := None |}.
Definition cache_entry : HttpdServe.httpContent connection_state :=
  {| HttpdServe.c_name := "offlinecache"; HttpdServe.c_type := HttpdServe.HTTP_C_FUNCT (send_callback true); HttpdServe.indexFlag := 0; HttpdServe.preload := None |}.
Definition status_entry : HttpdServe.httpContent connection_state :=
  {| HttpdServe.c_name := "status"; HttpdServe.c_type := HttpdServe.HTTP_C_FUNCT status_callback; HttpdServe.indexFlag := 0; HttpdServe.preload := None |}.

(** The contents of the hub's server, directory by directory. *)
Lemma hub_entries now ts :
  HttpdServe.entries_at (HttpdServe.content (hub_server now)) ts =
    if decide (ts = ["mqtt"]) then [status_entry; send_entry]
    else if decide (ts = ["mqtt"; "send"]) then [cache_entry] else [].
Proof.
  unfold hub_server, HttpdServe.httpdAddCContent, HttpdServe.add_content. cbn [HttpdServe.content HttpdServe.httpdAddC404Content].
  change (HttpdServe.path_tokens "/mqtt") with ["mqtt"]. change (HttpdServe.path_tokens "/mqtt/send") with ["mqtt"; "send"].
  rewrite !HttpdServe.entries_add. fold send_entry cache_entry status_entry.
  assert (HttpdServe.entries_at (HttpdServe.content (HttpdServe.httpdCreate now : HttpdServe.httpd connection_state)) ts = []) as ->.
  { unfold HttpdServe.entries_at. by destruct ts. }
  destruct (decide (["mqtt"] = ts)) as [<-|H1]; [reflexivity|]. rewrite (decide_False (P := ts = ["mqtt"])) by congruence.
  destruct (decide (["mqtt"; "send"] = ts)) as [<-|H2]; [reflexivity|]. by rewrite decide_False by congruence.
Qed.

(** What is found for a path, through the entries of its directory. *)
Lemma find_entry_at {St} (server : HttpdServe.httpd St) path dir name :
  HttpdServe.split_path path = Some (dir, name) ->
  HttpdServe.find_entry server path =
    Some ((fun e => (e, name)) <$> HttpdServe._httpd_findContentEntry (HttpdServe.Dir EmptyString []
            (HttpdServe.entries_at (HttpdServe.content server) (HttpdServe.path_tokens dir))) name).
Proof.
  intros E. unfold HttpdServe.find_entry. rewrite E. unfold HttpdServe._httpd_findContentDir, HttpdServe.entries_at.
  by destruct (HttpdServe.find_dir _ _) as [[n cs es]|].
Qed.

(** Every path reaches the callback its segments name: "/mqtt/send" the
    one that discards what it cannot send, "/mqtt/send/offlinecache" the one that
    caches it, "/mqtt/status" the status, whatever the method and the number of
    slashes; any other path reaches the hub's own 404, except one without a
    slash, which is neither looked up nor answered. *)
Lemma process_routed now st q vars r :
  HttpdServe.httpdProcessRequest gmtime file (hub_server now) st q vars r =
    match route (Httpd.path q) with
    | None => Ret (st, HttpdServe.with_length 0 r)
    | Some c => callback_of c st q (HttpdServe.with_length 0 r)
    end.
Proof.
  unfold HttpdServe.httpdProcessRequest, route. destruct (HttpdServe.split_path (Httpd.path q)) as [[dir name]|] eqn:E;
    [|by unfold HttpdServe.find_entry; rewrite E].
  rewrite (find_entry_at _ _ _ _ E), hub_entries. cbv zeta. unfold HttpdServe._httpd_findContentEntry. cbn [HttpdServe.entries].
  repeat case_decide; cbn; unfold strcmp_eq; try subst name; cbn; rewrite ?bool_decide_false by congruence; try done.
  all: rewrite ?andb_false_r; cbn; repeat (rewrite bool_decide_false by congruence; rewrite ?andb_false_r; cbn); done.
Qed.

(** ** What is read of a request with a body *)

Lemma plain_header_method h q : Httpd.method (Httpd.plain_header q h) = Httpd.method q.
Proof. unfold Httpd.plain_header, Httpd.header_length. repeat case_match; done. Qed.
Lemma headers_method hs q : Httpd.method (fold_left Httpd.plain_header hs q) = Httpd.method q.
Proof. revert q. induction hs as [|h hs IH]; intros q; cbn [fold_left]; [done|]. by rewrite IH, plain_header_method. Qed.

Lemma headers_keep_length hs q :
  Forall (fun h => Httpd.has_prefix "Content-Length: " h = false) hs ->
  Httpd.contentLength (fold_left Httpd.plain_header hs q) = Httpd.contentLength q.
Proof.
  intros Hh. revert q. induction Hh as [|h hs Hp _ IH]; intros q; cbn [fold_left]; [done|]. rewrite IH.
  unfold Httpd.plain_header, Httpd.header_length. by rewrite Hp.
Qed.

Lemma str_take_length n s : strlen (Httpd.str_take n s) <= Z.of_nat n.
Proof.
  revert s. induction n as [|n IH]; intros [|c s]; cbn [Httpd.str_take]; rewrite ?strlen_cons; change (strlen EmptyString) with 0; try lia.
  specialize (IH s). lia.
Qed.
Lemma copy_text_length size s : 0 < size -> strlen (Httpd.copy_text size s) < size.
Proof. intros Hs. unfold Httpd.copy_text. pose proof (str_take_length (Z.to_nat (size - 1)) s). lia. Qed.

Lemma headers_forwarded hs q :
  strlen (Httpd.ipForwardedFor q) < HTTP_IP_ADDR_LEN -> strlen (Httpd.ipForwardedFor (fold_left Httpd.plain_header hs q)) < HTTP_IP_ADDR_LEN.
Proof.
  revert q. induction hs as [|h hs IH]; intros q Hq; cbn [fold_left]; [done|]. apply IH.
  unfold Httpd.plain_header. cbn [Httpd.ipForwardedFor Httpd.set_texts]. unfold Httpd.header_text.
  assert (Httpd.ipForwardedFor (Httpd.header_length h q) = Httpd.ipForwardedFor q) as -> by (unfold Httpd.header_length; by repeat case_match).
  destruct (Httpd.has_prefix _ _); [|done]. destruct (Httpd.after_colon _); [|done]. by apply copy_text_length.
Qed.

(** The headers with the length of the body among them, the last of its
    name. *)
Definition length_header (b : string) : string := "Content-Length: " +:+ fmt_d (strlen b).
Definition headers_for (hs1 : list string) (b : string) (hs2 : list string) : list string := hs1 ++ length_header b :: hs2.

Lemma headers_length hs1 b hs2 q :
  strlen b <= INT_MAX -> Forall (fun h => Httpd.has_prefix "Content-Length: " h = false) hs2 ->
  Httpd.contentLength (fold_left Httpd.plain_header (headers_for hs1 b hs2) q) = strlen b.
Proof.
  intros Hb Hh. unfold headers_for. rewrite fold_left_app. cbn [fold_left]. rewrite headers_keep_length by done.
  unfold Httpd.plain_header, Httpd.header_length, length_header.
  change (Httpd.has_prefix "Content-Length: " ("Content-Length: " +:+ fmt_d (strlen b))) with true. cbn iota.
  change (Httpd.after_colon ("Content-Length: " +:+ fmt_d (strlen b))) with (Some (fmt_d (strlen b))). cbn iota.
  cbn [Httpd.contentLength Httpd.set_texts Httpd.set_contentLength]. apply atoi_fmt_d. pose proof (strlen_nonneg b).
  unfold is_int, INT_MIN, INT_MAX in *. lia.
Qed.

(** What the callbacks receive of a posted text: its body, whole. *)
Lemma received_body client t hs1 b hs2 :
  0 < strlen b < Httpd.HTTP_MAX_URL - 1 -> no_nul b = true ->
  Forall (fun h => Httpd.has_prefix "Content-Length: " h = false) hs2 ->
  let r := received client (Httpd.parsed "POST" t (headers_for hs1 b hs2) (String.list_ascii_of_string b)) in
  clientAddr r = client /\ body r = Some b /\ strlen (ipForwardedFor r) < HTTP_IP_ADDR_LEN.
Proof.
  intros Hb Hn Hh r. unfold r, received, Httpd.parsed. clear r. set (q0 := Httpd.set_line _ _ _).
  set (q := fold_left _ _ _).
  assert (Httpd.method q = Httpd.HTTP_POST) as Hm by apply headers_method.
  assert (Httpd.contentLength q = strlen b) as Hl by (apply headers_length; [unfold Httpd.HTTP_MAX_URL, INT_MAX in *; lia|done]).
  assert (strlen (Httpd.ipForwardedFor q) < HTTP_IP_ADDR_LEN) as Hi by by apply headers_forwarded.
  assert (Httpd.with_body q (String.list_ascii_of_string b) = Httpd.set_body (strlen b) b q) as E.
  { unfold Httpd.with_body. rewrite Hm, Hl, (proj2 (Z.ltb_lt 0 _)), (proj2 (Z.ltb_lt _ _)) by lia. cbn [andb]. change (Httpd.HTTP_POST =? Httpd.HTTP_POST) with true.
    cbn iota zeta. f_equal. rewrite take_ge by (rewrite Httpd.length_list_ascii; unfold strlen; lia).
    rewrite String.string_of_list_ascii_of_string. unfold c_str. assert (strchr b NUL = None) as ->; [by apply strchr_str_forall|done]. }
  rewrite E. unfold Httpd.with_query. destruct (strchr _ _) as [[p cp]|]; done.
Qed.

(** The text a client posts. *)
Definition post_text (t : string) (hs1 : list string) (b : string) (hs2 : list string) : string :=
  Httpd.request_text ("POST" +:+ String SPACE t) (headers_for hs1 b hs2) b.
Definition posted (t : string) (hs1 : list string) (b : string) (hs2 : list string) : Httpd.httpReq :=
  Httpd.parsed "POST" t (headers_for hs1 b hs2) (String.list_ascii_of_string b).

(** It is well-formed when its lines are, and the body is not longer than
    what is read. *)
Record post_ok (t : string) (hs1 : list string) (b : string) (hs2 : list string) : Prop := {
  po_line : Httpd.good_line ("POST" +:+ String SPACE t);
  po_headers : Forall (fun h => Httpd.good_line h /\ h <> EmptyString /\ Httpd.has_prefix "Authorization: " h = false) (hs1 ++ hs2);
  po_last : Forall (fun h => Httpd.has_prefix "Content-Length: " h = false) hs2;
  po_body : 0 < strlen b < Httpd.HTTP_MAX_URL - 1 /\ no_nul b = true
}.

Lemma digits_line s : str_forall isdigit s = true -> str_forall Httpd.line_char s = true.
Proof.
  apply str_forall_weaken. intros c Hc. unfold isdigit in Hc. apply andb_true_iff in Hc as [H1%Z.leb_le H2%Z.leb_le].
  unfold Httpd.line_char, Httpd.ends_line, Httpd.isascii. rewrite (proj2 (Z.ltb_lt _ _)) by lia.
  rewrite !bool_decide_false; [done|..]; intros ->; by vm_compute in H1.
Qed.

Lemma length_header_line b : 0 <= strlen b <= INT_MAX -> Httpd.good_line (length_header b).
Proof.
  intros Hb. unfold Httpd.good_line, length_header. split.
  - rewrite str_forall_app. rewrite (digits_line (fmt_d _)) by (apply fmt_d_digits; lia). done.
  - rewrite strlen_app. change (strlen "Content-Length: ") with 16. pose proof (fmt_d_int_length (strlen b)) as H.
    unfold is_int, INT_MIN, INT_MAX, Httpd.HTTP_MAX_LEN in *. lia.
Qed.

(** It is read as what was posted, in whatever pieces it comes. *)
Lemma post_received rfuel junk authBuf ds t hs1 b hs2 :
  Forall (fun d => d <> []) ds -> concat ds = String.list_ascii_of_string (post_text t hs1 b hs2) -> post_ok t hs1 b hs2 ->
  (length (concat ds) < rfuel)%nat ->
  exists vars rd, Httpd.httpdReadRequest rfuel junk authBuf (Httpd.accepted (Httpd.Got <$> ds)) = Ret (0, posted t hs1 b hs2, vars, [], rd).
Proof.
  intros Hd E [Hl Hh _ [Hb _]] Hf. apply Forall_app in Hh as [H1 H2].
  assert (Httpd.good_line (length_header b)) as Hlen by (apply length_header_line; unfold Httpd.HTTP_MAX_URL, INT_MAX in *; lia).
  apply Httpd.request_text_received with (c := SPACE) (fuel := rfuel); [done|exact E|done|done|done|done|..].
  - unfold headers_for. apply Forall_app. split; [|constructor; [done|]].
    + by eapply Forall_impl; [apply H1|]; intros h (? & ? & ?).
    + by eapply Forall_impl; [apply H2|]; intros h (? & ? & ?).
  - unfold Httpd.no_authorization, headers_for. apply Forall_app. split; [|constructor; [done|]].
    + by eapply Forall_impl; [apply H1|]; intros h (? & ? & ?).
    + by eapply Forall_impl; [apply H2|]; intros h (? & ? & ?).
  - done.
Qed.

(** C1: a message posted to one of the two send URLs, delivered by the
    socket in any pieces, is read whole, and its client gets exactly one
    response, with the length of its body; the message has met exactly one fate:
    it is rejected and nothing changes; it is accepted by the connected client
    and counted as sent; or, not accepted, it is counted as discarded, or cached
    with its file at the end of the queue, or refused by a queue full of more
    important messages and counted - as the URL asked. *)
Theorem send_request_served started rfuel junk authBuf ds t hs1 b hs2 st l (caching : bool) :
  Forall (fun d => d <> []) ds -> concat ds = String.list_ascii_of_string (post_text t hs1 b hs2) -> post_ok t hs1 b hs2 ->
  (length (concat ds) < rfuel)%nat ->
  route (Httpd.path (posted t hs1 b hs2)) = Some (if caching then MqttSendCacheFailed else MqttSendDiscardFailed) ->
  strlen (remote st) < HTTP_IP_ADDR_LEN -> strlen (default "(null)" (last_err e)) <= 109 -> 15 <= Z.of_nat (length (heap e)) ->
  cache_ready root e (hub st) l -> (length l < fuel)%nat ->
  (forall mac p, client_mac serverIP e (received (remote st) (posted t hs1 b hs2)) = Ret mac ->
     parse_mqtt_send_request_body json_tokener_parse json_object_to_json_string_ext (now e) (last_err e)
                   (Some b) (Some mac) content_zero = Ret p ->
     strlen (default EmptyString (payload (p_content p))) + 15 <= INT_MAX
     /\ forall j, p_jobj p = Some j -> json_object_to_json_string_ext j <> EmptyString) ->
  exists mac p h m pub pieces,
    client_mac serverIP e (received (remote st) (posted t hs1 b hs2)) = Ret mac
    /\ parse_mqtt_send_request_body json_tokener_parse json_object_to_json_string_ext (now e) (last_err e)
         (Some b) (Some mac) content_zero = Ret p
    /\ httpd_thread started rfuel junk authBuf (Httpd.accepted (Httpd.Got <$> ds)) st =
         Ret ({| remote := remote st; hub := h; handed := pub |}, pieces)
    /\ sent_text pieces = response_text m
    /\ fate json_object_to_json_string_ext MQTTAsync_sendMessage root e (hub st) l p caching h m pub.
Proof.
  intros Hd E Hok Hf Hroute Hc Hle Hh Hready Hfuel Hp.
  destruct (post_received rfuel junk authBuf ds t hs1 b hs2 Hd E Hok Hf) as (vars & rd & Hread).
  destruct Hok as [_ _ Hlast [Hb Hn]].
  destruct (received_body (remote st) t hs1 b hs2 Hb Hn Hlast) as (Hrc & Hrb & Hrf). fold (posted t hs1 b hs2) in *.
  destruct (mqtt_send_fate json_tokener_parse json_object_to_json_string_ext cbc_encrypt cbc_key rand MQTTAsync_sendMessage root serverIP
    fuel e (hub st) (received (remote st) (posted t hs1 b hs2)) l b caching Hrb) as (mac & p & h & m & pub & Hmac & Hparse & Hsend & Hm & Hfate);
    [by rewrite Hrc|done|done|done|done|done|done|].
  destruct (response_framed m) as (r & Hr & Hsent); [unfold is_long, LONG_MIN, LONG_MAX; pose proof (strlen_nonneg m); lia|unfold Httpd.HTTP_MAX_LEN; lia|].
  exists mac, p, h, m, pub, (HttpdServe.written r). split; [done|]. split; [done|]. split; [|done].
  unfold httpd_thread. rewrite Hread. cbn [mbind comp_bind]. change (0 =? 0) with true. cbn iota. rewrite process_routed, Hroute.
  assert (callback_of (if caching then MqttSendCacheFailed else MqttSendDiscardFailed) = send_callback caching) as -> by by destruct caching.
  unfold send_callback, http_callback_mqtt_send_cache_failed, http_callback_mqtt_send_discard_failed.
  destruct caching; rewrite Hsend; cbn [mbind comp_bind answer_all]; rewrite Hr; done.
Qed.

(** ** The other requests *)

Definition not_found_text : string := error_body "request not supported, please check url".
Definition status_text (connected : bool) (capacity count : Z) : string :=
  "{" +:+ quoted "cpu" +:+ ":" +:+ cpuPercent +:+ "," +:+ quoted "memory" +:+ ":" +:+ fmt_d memUsage +:+ "," +:+
  quoted "MQTT_connected_status" +:+ ":" +:+ quoted (if connected then "connected" else "disconnected") +:+ "," +:+
  quoted "offline_cache_capacity" +:+ ":" +:+ fmt_d capacity +:+ "," +:+ quoted "offline_cache_path" +:+ ":" +:+ quoted root +:+ "," +:+
  quoted "offline_message_count" +:+ ":" +:+ fmt_d count +:+ "}".

Lemma strlen_status_text connected capacity count :
  strlen cpuPercent <= 300 -> strlen root < POSIX_PATH_MAX -> is_int memUsage -> is_int capacity -> is_int count ->
  strlen (status_text connected capacity count) < 1024.
Proof.
  unfold POSIX_PATH_MAX. intros H1 H2 H3%fmt_d_int_length H4%fmt_d_int_length H5%fmt_d_int_length. unfold status_text.
  assert (strlen (if connected then "connected" else "disconnected") <= 12) by (by destruct connected; vm_compute).
  rewrite !strlen_app, !strlen_quoted.
  change (strlen "{") with 1. change (strlen ":") with 1. change (strlen ",") with 1. change (strlen "}") with 1.
  change (strlen "cpu") with 3. change (strlen "memory") with 6. change (strlen "MQTT_connected_status") with 21.
  change (strlen "offline_cache_capacity") with 22. change (strlen "offline_cache_path") with 18. change (strlen "offline_message_count") with 21.
  lia.
Qed.

(** The readings of the status fit their text. *)
Definition readings_ok (st : connection_state) : Prop :=
  strlen cpuPercent <= 300 /\ strlen root < POSIX_PATH_MAX /\ is_int memUsage /\ is_int (g_cacheCapacity (h_cache (hub st))) /\
  is_int (offline_messages_count (h_cache (hub st))).

Lemma status_answered st q :
  readings_ok st ->
  exists r, status_callback st q (HttpdServe.with_length 0 HttpdServe.standard_response) = Ret (st, r) /\
    sent_text (HttpdServe.written r) = response_text (status_text (MQTTClientWrapper_isConnected (h_mqtt (hub st)))
      (g_cacheCapacity (h_cache (hub st))) (offline_messages_count (h_cache (hub st)))).
Proof.
  intros (H1 & H2 & H3 & H4 & H5). unfold status_callback, http_callback_mqtt_status. rewrite write_buf_ok by lia. cbn [mbind comp_bind].
  match goal with |- context [write_buf 1024 ?x] => change x with (status_text (MQTTClientWrapper_isConnected (h_mqtt (hub st)))
    (g_cacheCapacity (h_cache (hub st))) (offline_messages_count (h_cache (hub st)))) end.
  set (m := status_text _ _ _). assert (strlen m < 1024) by by apply strlen_status_text. rewrite write_buf_ok by lia. cbn [mbind comp_bind].
  destruct (response_framed m) as (r & -> & Hr); [unfold is_long, LONG_MIN, LONG_MAX; pose proof (strlen_nonneg m); lia|unfold Httpd.HTTP_MAX_LEN; lia|].
  cbn [mbind comp_bind]. by exists r.
Qed.

Lemma not_found_answered st q :
  exists r, not_found_callback st q (HttpdServe.with_length 0 HttpdServe.standard_response) = Ret (st, r) /\
    sent_text (HttpdServe.written r) = response_text not_found_text.
Proof.
  unfold not_found_callback, http_callback_404. rewrite write_buf_ok by (by vm_compute). cbn [mbind comp_bind]. fold not_found_text.
  destruct (response_framed not_found_text) as (r & -> & Hr); [by vm_compute|by vm_compute|]. cbn [mbind comp_bind]. by exists r.
Qed.

(** C2: a text of lines shorter than the line buffer and without an
    Authorization header, in any pieces, whose path is neither of the two that
    send, leaves the hub as it was: any method but GET and POST is answered
    with the library's method error and the method itself; of the others,
    a path to the status is answered with the hub's readings (when they can
    be taken and printed) and every other one with the hub's 404, each framed
    by its length; only a path without a slash gets no answer at all. *)
Theorem other_requests_harmless started rfuel junk authBuf ds v c t hs b st :
  Forall (fun d => d <> []) ds -> concat ds = String.list_ascii_of_string (Httpd.request_text (v +:+ String c t) hs b) ->
  Httpd.good_line (v +:+ String c t) -> str_forall Httpd.isalpha v = true -> Httpd.isalpha c = false ->
  Forall (fun h => Httpd.good_line h /\ h <> EmptyString) hs -> Httpd.no_authorization hs -> (length (concat ds) < rfuel)%nat ->
  readings_ok st ->
  let path := Httpd.path (Httpd.parsed v t hs (String.list_ascii_of_string b)) in
  (Httpd.verb_method v <> 0 -> route path <> Some MqttSendDiscardFailed /\ route path <> Some MqttSendCacheFailed) ->
  exists pieces, httpd_thread started rfuel junk authBuf (Httpd.accepted (Httpd.Got <$> ds)) st = Ret (st, pieces) /\
    if Httpd.verb_method v =? 0 then pieces = [Httpd.HTTP_METHOD_ERROR; v]
    else match route path with
    | None => pieces = []
    | Some MqttStatus => sent_text pieces = response_text (status_text (MQTTClientWrapper_isConnected (h_mqtt (hub st)))
        (g_cacheCapacity (h_cache (hub st))) (offline_messages_count (h_cache (hub st))))
    | Some _ => sent_text pieces = response_text not_found_text
    end.
Proof.
  intros Hd E Hl Hv Hc Hh Hn Hf Hst path Hpath. subst path. unfold httpd_thread.
  destruct (Z.eqb_spec (Httpd.verb_method v) 0) as [Hm|Hm].
  { destruct (Httpd.request_text_refused rfuel junk authBuf ds v c t hs b Hd E Hl Hv Hc Hm Hf) as (rd & ->).
    cbn [mbind comp_bind]. change (-1 =? 0) with false. by eexists. }
  destruct (Hpath Hm) as [H1 H2].
  destruct (Httpd.request_text_received rfuel junk authBuf ds v c t hs b Hd E Hl Hv Hc Hm Hh Hn Hf) as (vars & rd & Hread).
  rewrite Hread. cbn [mbind comp_bind]. change (0 =? 0) with true. cbn iota. rewrite process_routed.
  destruct (route _) as [[]|]; [done|done|..|by eexists]; cbn [callback_of].
  - destruct (status_answered st (Httpd.parsed v t hs (String.list_ascii_of_string b)) Hst) as (r & -> & Hr). cbn [mbind comp_bind]. by exists (HttpdServe.written r).
  - destruct (not_found_answered st (Httpd.parsed v t hs (String.list_ascii_of_string b))) as (r & -> & Hr). cbn [mbind comp_bind]. by exists (HttpdServe.written r).
Qed.
End server.

(** ** Concrete runs *)

Definition demo_post : string := post_text "//mqtt/send/offlinecache HTTP/1.1" ["Host: hub"] demo_body ["X-Forwarded-For: 10.0.0.9"].
(** The text in two pieces, cut in the first line. *)
Definition demo_pieces (s : string) : list (list ascii) :=
  [take 10 (String.list_ascii_of_string s); drop 10 (String.list_ascii_of_string s)].
Definition demo_connection : connection_state := {| remote := "10.0.0.7"; hub := demo_state; handed := None |}.

Lemma demo_post_ok : post_ok "//mqtt/send/offlinecache HTTP/1.1" ["Host: hub"] demo_body ["X-Forwarded-For: 10.0.0.9"].
Proof.
  constructor.
  - by vm_compute.
  - repeat constructor; by vm_compute.
  - repeat constructor; by vm_compute.
  - by vm_compute.
Qed.

Lemma demo_cache_ready : cache_ready "/c" demo_env demo_state [].
Proof.
  split; [constructor; [done|apply Forall_nil_2|apply NoDup_nil_2|intros h Hin; by apply not_elem_of_nil in Hin]|].
  split; [done|]. split; [by vm_compute|]. split; [done|]. split; [by vm_compute|].
  intros prio _. apply not_elem_of_nil.
Qed.

Lemma send_request_served_witness :
  exists mac p h m pub pieces,
    client_mac "127.0.0.1" demo_env (received "10.0.0.7" (posted "//mqtt/send/offlinecache HTTP/1.1" ["Host: hub"] demo_body ["X-Forwarded-For: 10.0.0.9"])) = Ret mac
    /\ parse_mqtt_send_request_body demo_parse demo_print 7 None (Some demo_body) (Some mac) content_zero = Ret p
    /\ httpd_thread (fun _ => "now") (fun _ => None) demo_parse demo_print (fun _ _ d => Some d) [] (fun _ i => Z.of_nat i) (fun _ _ => 0)
         "/c" "127.0.0.1" 5 demo_env "0.10" 4 100 400 [] [] (Httpd.accepted (Httpd.Got <$> demo_pieces demo_post)) demo_connection =
       Ret ({| remote := "10.0.0.7"; hub := h; handed := pub |}, pieces)
    /\ sent_text pieces = response_text (fun _ => "now") m
    /\ fate demo_print (fun _ _ => 0) "/c" demo_env demo_state [] p true h m pub.
Proof.
  apply (send_request_served (fun _ => "now") (fun _ => None) demo_parse demo_print (fun _ _ d => Some d) [] (fun _ i => Z.of_nat i) (fun _ _ => 0)
    "/c" "127.0.0.1" 5 demo_env "0.10" 4 100 400 [] [] (demo_pieces demo_post) "//mqtt/send/offlinecache HTTP/1.1" ["Host: hub"] demo_body
    ["X-Forwarded-For: 10.0.0.9"] demo_connection [] true);
    [by repeat constructor|by vm_compute|exact demo_post_ok|vm_compute; lia|by vm_compute|by vm_compute|by vm_compute|by vm_compute|exact demo_cache_ready|cbn; lia|].
  intros mac p Hm H. vm_compute in Hm. injection Hm as <-. vm_compute in H. injection H as <-. split; [by vm_compute|]. intros j [= <-]. by vm_compute.
Defined.

(** The status is read with GET, whatever slashes its path has. *)
Definition demo_get : string := Httpd.request_text "GET //mqtt/./status HTTP/1.0" [] EmptyString.

Lemma other_requests_harmless_witness :
  exists pieces, httpd_thread (fun _ => "now") (fun _ => None) demo_parse demo_print (fun _ _ d => Some d) [] (fun _ i => Z.of_nat i) (fun _ _ => 0)
         "/c" "127.0.0.1" 5 demo_env "0.10" 4 100 60 [] [] (Httpd.accepted (Httpd.Got <$> demo_pieces demo_get)) demo_connection =
       Ret (demo_connection, pieces) /\
    sent_text pieces = response_text (fun _ => "now") (status_text "/c" "0.10" 4 false 2 0).
Proof.
  apply (other_requests_harmless (fun _ => "now") (fun _ => None) demo_parse demo_print (fun _ _ d => Some d) [] (fun _ i => Z.of_nat i) (fun _ _ => 0)
    "/c" "127.0.0.1" 5 demo_env "0.10" 4 100 60 [] [] (demo_pieces demo_get) "GET" SPACE "//mqtt/./status HTTP/1.0" [] EmptyString demo_connection);
    [by repeat constructor|by vm_compute|by vm_compute|by vm_compute|by vm_compute|constructor|constructor|vm_compute; lia|repeat split; by vm_compute|intros _; split; by vm_compute].
Defined.
