(* ===== verification/Schedule.v ===== *)
(** * Scheduled jobs (hub-app/source/schedulejob.c, utils/source/timerhelper.c)

    A timer of ten seconds runs the jobs of a table whose interval divides the
    seconds counted so far: looking after the MQTT connection, and saving the
    message counters. *)

From Stdlib Require Import Ascii.
From S2P Require Import Prelude CString StringUtils FileSys IniParser MqttWrapper MsgCounter.

Local Open Scope Z_scope.

Definition BASE_SCHEDULE_INTERVAL : Z := 10.

(** ** timerhelper.c *)

(** [doJob] is the function pointer; [None] is a null pointer. *)
Record schedule_job (J : Type) := { name : option string; interval : Z; doJob : option J }.
Arguments name {J}.
Arguments interval {J}.
Arguments doJob {J}.

(** The result code, the timer's identifier afterwards, and the period set. *)
Definition timer_helper_setup_timer (baseInterval timer_id create_rc new_id settime_rc : Z) : Z * Z * option Z :=
  if negb (create_rc =? 0) then (create_rc, timer_id, None)
  else if negb (settime_rc =? 0) then (settime_rc, new_id, None)
  else (0, new_id, Some baseInterval).

Definition timer_helper_destroy_timer (timer_id delete_rc : Z) : Z :=
  if 0 <? timer_id then delete_rc else 0.

Section table.
Context {J : Type}.
Implicit Types jobList : list (schedule_job J).

Definition set_interval (job : schedule_job J) (i : Z) : schedule_job J :=
  {| name := name job; interval := i; doJob := doJob job |}.

(** One job of the loop; the remainder by a base of zero faults. *)
Definition update_job (baseInterval : Z) (parser : ini_parser) (job : schedule_job J) : comp (schedule_job J) :=
  if string_is_empty (name job) then Ret job
  else match _value parser (safe_string (name job)) with
       | None => Ret job
       | Some strInterval =>
           let strInterval := string_trim strInterval SPACE in
           if string_is_empty (Some strInterval) then Ret job
           else if string_is_number (Some strInterval) then
             let interval := atoi strInterval in
             if interval =? 0 then Ret (set_interval job interval)
             else if baseInterval =? 0 then Err OutOfBounds
             else if Z.rem interval baseInterval =? 0 then Ret (set_interval job interval) else Ret job
           else Ret job
       end.

(** The table ends at the first entry without a function. *)
Fixpoint update_jobs (baseInterval : Z) (parser : ini_parser) (jobList : list (schedule_job J))
    : comp (list (schedule_job J)) :=
  match jobList with
  | [] => Err OutOfBounds
  | job :: rest =>
      match doJob job with
      | None => Ret (job :: rest)
      | Some _ =>
          let* job := update_job baseInterval parser job in
          let* rest := update_jobs baseInterval parser rest in
          Ret (job :: rest)
      end
  end.

Definition timer_helper_update_interval_from_config (s : fs) (exe : option string) (baseInterval : Z) (jobList : list (schedule_job J))
    (iniFile : string) : comp (list (schedule_job J)) :=
  let* parser := create_app_ini_parser s exe iniFile in
  match parser with
  | None => Ret jobList
  | Some parser => update_jobs baseInterval parser jobList
  end.
End table.

(** ** schedulejob.c *)

Inductive hub_job : Set := CheckMqttConnection | SyncMsgCountFile.

#[global] Instance hub_job_eq_dec : EqDecision hub_job.
Proof. solve_decision. Defined.

Definition schedule_job_list : list (schedule_job hub_job) :=
  [{| name := Some "chkconninterval"; interval := 30; doJob := Some CheckMqttConnection |};
   {| name := Some "syncmsgcountinterval"; interval := 5; doJob := Some SyncMsgCountFile |};
   {| name := None; interval := 0; doJob := None |}].

(** What the jobs act on, and what they do to the MQTT library. *)
Record sched_state := { s_mqtt : MQTTClientStatus; s_counts : counts; s_fs : fs }.

(** The answers of the surroundings to one job: the results of the subscribe
    and connect calls, the counters' file and whether it can be written. *)
Record job_env := { subscribe_rc : Z; connect_rc : Z; count_file : string; opened : bool }.

Definition check_mqtt_connection (e : job_env) (s : MQTTClientStatus) : comp (MQTTClientStatus * list action) :=
  if MQTTClientWrapper_isConnected s then
    if MQTTClientWrapper_isSubscribed s then Ret (s, [])
    else let* (_, acts) := MQTTClientWrapper_subscribe (subscribe_rc e) in Ret (s, acts)
  else if negb (MQTTClientWrapper_hasEverConnected s) then
    let* (s, _, acts) := MQTTClientWrapper_connect s (connect_rc e) in Ret (s, acts)
  else Ret (s, []).

Definition sync_msg_count_file (e : job_env) (s : fs) (c : counts) : comp (fs * counts) :=
  save_msg_count_to_file s (count_file e) c (opened e).

Definition do_job (e : job_env) (st : sched_state) (j : hub_job) : comp (sched_state * list action) :=
  match j with
  | CheckMqttConnection =>
      let* (m, acts) := check_mqtt_connection e (s_mqtt st) in
      Ret ({| s_mqtt := m; s_counts := s_counts st; s_fs := s_fs st |}, acts)
  | SyncMsgCountFile =>
      let* (f, c) := sync_msg_count_file e (s_fs st) (s_counts st) in
      Ret ({| s_mqtt := s_mqtt st; s_counts := c; s_fs := f |}, [])
  end.

(** The jobs of the table that are due; it ends at the first entry without a
    name. *)
Fixpoint due {J} (g_totalSeconds : Z) (jobs : list (schedule_job J)) : list (option J) :=
  match jobs with
  | [] => []
  | job :: jobs =>
      match name job with
      | None => []
      | Some _ =>
          (if (0 <? interval job) && (Z.rem g_totalSeconds (interval job) =? 0) then [doJob job] else [])
            ++ due g_totalSeconds jobs
      end
  end.

Fixpoint run_jobs (e : job_env) (st : sched_state) (js : list (option hub_job)) : comp (sched_state * list action) :=
  match js with
  | [] => Ret (st, [])
  | None :: _ => Err NullDeref
  | Some j :: js =>
      let* (st, acts) := do_job e st j in
      let* (st, acts') := run_jobs e st js in
      Ret (st, acts ++ acts')
  end.

(** The seconds counted at this tick, and those kept for the next one. *)
Definition tick_seconds (g_totalSeconds : Z) : Z := g_totalSeconds + BASE_SCHEDULE_INTERVAL.
Definition next_seconds (g_totalSeconds : Z) : Z :=
  if INT_MAX - BASE_SCHEDULE_INTERVAL <=? g_totalSeconds then 0 else g_totalSeconds.

Definition sig_alarm_handler (e : job_env) (g_totalSeconds : Z) (st : sched_state)
    : comp (Z * sched_state * list action) :=
  let g := tick_seconds g_totalSeconds in
  let* (st, acts) := run_jobs e st (due g schedule_job_list) in
  Ret (next_seconds g, st, acts).

Definition setup_schedule_timer (timer_id create_rc new_id settime_rc : Z) : Z * Z * option Z :=
  timer_helper_setup_timer BASE_SCHEDULE_INTERVAL timer_id create_rc new_id settime_rc.
Definition destroy_schedule_timer (timer_id delete_rc : Z) : Z := timer_helper_destroy_timer timer_id delete_rc.

(** The ticks one after another, each with its own answers. *)
Fixpoint ticks (es : list job_env) (g : Z) (st : sched_state) : comp (Z * sched_state * list action) :=
  match es with
  | [] => Ret (g, st, [])
  | e :: es =>
      let* (g, st, acts) := sig_alarm_handler e g st in
      let* (g, st, acts') := ticks es g st in
      Ret (g, st, acts ++ acts')
  end.

(** ** When the jobs run *)

(** The counter wraps here, a multiple of every interval of the table. *)
Definition WRAP : Z := 2147483640.

(** The counter after [n] ticks. *)
Fixpoint seconds (n : nat) : Z :=
  match n with O => 0 | S n => next_seconds (tick_seconds (seconds n)) end.

Lemma seconds_eq n : seconds n = (10 * Z.of_nat n) mod WRAP.
Proof.
  induction n as [|n IH]; [done|]. cbn [seconds]. rewrite IH. unfold next_seconds, tick_seconds, BASE_SCHEDULE_INTERVAL, INT_MAX, WRAP.
  destruct (Z.leb_spec (2147483647 - 10) ((10 * Z.of_nat n) mod 2147483640 + 10)); Z.div_mod_to_equations; lia.
Qed.

Lemma due_eq g : 0 <= g ->
  due g schedule_job_list =
    (if g mod 30 =? 0 then [Some CheckMqttConnection] else []) ++ (if g mod 5 =? 0 then [Some SyncMsgCountFile] else []).
Proof.
  intros Hg. cbn [due schedule_job_list name interval doJob]. rewrite !Z.rem_mod_nonneg by lia.
  change (0 <? 30) with true. change (0 <? 5) with true. cbn [andb]. by rewrite app_nil_r.
Qed.

Lemma due_at (n : nat) :
  due (tick_seconds (seconds n)) schedule_job_list =
    if Z.of_nat (S n) mod 3 =? 0 then [Some CheckMqttConnection; Some SyncMsgCountFile] else [Some SyncMsgCountFile].
Proof.
  rewrite seconds_eq. unfold tick_seconds, BASE_SCHEDULE_INTERVAL, WRAP.
  pose proof (Z.mod_pos_bound (10 * Z.of_nat n) 2147483640 ltac:(lia)) as Hb. rewrite due_eq by lia.
  assert (((10 * Z.of_nat n) mod 2147483640 + 10) mod 5 = 0) as -> by (Z.div_mod_to_equations; lia).
  assert ((((10 * Z.of_nat n) mod 2147483640 + 10) mod 30 =? 0) = (Z.of_nat (S n) mod 3 =? 0)) as ->.
  { apply eq_bool_prop_intro. rewrite !Is_true_true, !Z.eqb_eq. Z.div_mod_to_equations. lia. }
  by destruct (Z.of_nat (S n) mod 3 =? 0).
Qed.

(** C40: the table is kept for ever: the second counter never overflows, and
    at the n-th tick after the start the counters are saved and, at every
    third tick, the connection is looked after first; the wrap of the counter
    after 68 years shifts nothing. *)
Theorem schedule_exact (n : nat) :
  0 <= tick_seconds (seconds n) <= INT_MAX
  /\ due (tick_seconds (seconds n)) schedule_job_list =
       if Z.of_nat (S n) mod 3 =? 0 then [Some CheckMqttConnection; Some SyncMsgCountFile] else [Some SyncMsgCountFile].
Proof.
  split; [|apply due_at]. rewrite seconds_eq. unfold tick_seconds, BASE_SCHEDULE_INTERVAL, WRAP, INT_MAX.
  pose proof (Z.mod_pos_bound (10 * Z.of_nat n) 2147483640 ltac:(lia)). Z.div_mod_to_equations; lia.
Qed.

(** What looking after the connection comes to. *)
Definition connection_care (s : MQTTClientStatus) (acts : list action) : Prop :=
  if MQTTClientWrapper_isConnected s then
    if subscribed s then acts = []
    else acts = [SubscribeMany ["hub/cmd/ALL"; "hub/cmd/SN0000000001"] [2; 2]]
  else if hasEverConnected s || negb (client s) then acts = []
  else exists will, acts = [Connect "hub/offline" will MAXQOS].

Lemma check_mqtt_connection_ok e s :
  exists s' acts, check_mqtt_connection e s = Ret (s', acts) /\ connection_care s acts
    /\ client s' = client s /\ hasEverConnected s' = hasEverConnected s /\ subscribed s' = subscribed s
    /\ (MQTTClientWrapper_isConnected s = true -> s' = s)
    /\ MQTTClientWrapper_isConnected s' = MQTTClientWrapper_isConnected s.
Proof.
  unfold check_mqtt_connection, connection_care, MQTTClientWrapper_isSubscribed, MQTTClientWrapper_hasEverConnected.
  destruct (MQTTClientWrapper_isConnected s) eqn:Hc.
  - destruct (subscribed s) eqn:Hs; [exists s, []; by split_and!|].
    rewrite subscribe_eq. cbn [mbind comp_bind]. eexists s, _. split; [reflexivity|]. by split_and!.
  - destruct (hasEverConnected s) eqn:He; cbn [negb orb]; [exists s, []; by split_and!|].
    destruct (connect_eq s (connect_rc e)) as [will ->]. unfold MQTTClientWrapper_isConnected in Hc |- *.
    destruct (client s) eqn:Hcl; cbn [mbind comp_bind negb] in *.
    + destruct (connect_rc e =? MQTTASYNC_SUCCESS); cbn [mbind comp_bind]; eexists _, _; (split; [reflexivity|]);
        cbn [client hasEverConnected subscribed connected set_connected]; rewrite ?Hcl; split_and!; try done; by eexists.
    + exists s, []. split; [done|]. rewrite Hcl. by split_and!.
Qed.

(** Every tick runs to its end: with the totals [f] in the file and [c]
    in memory, the file then holds their sums and the counters are zero; a
    subscription that is missing on a live connection is made again, a client
    that was never connected is told to connect, a connection that was lost
    is left to the library - at every third tick, and nothing else touches the
    client. *)
Theorem alarm_tick_spec (n : nat) (e : job_env) (st : sched_state) (f : counts) :
  opened e = true -> file_holds (s_fs st) (count_file e) f ->
  (forall k, 0 <= get f k /\ 0 <= get (s_counts st) k /\ get f k + get (s_counts st) k <= INT_MAX) ->
  exists st' acts f', sig_alarm_handler e (seconds n) st = Ret (seconds (S n), st', acts)
    /\ file_holds (s_fs st') (count_file e) f' /\ (forall k, get f' k = get f k + get (s_counts st) k)
    /\ (forall k, get (s_counts st') k = 0)
    /\ MQTTClientWrapper_isConnected (s_mqtt st') = MQTTClientWrapper_isConnected (s_mqtt st)
    /\ (if Z.of_nat (S n) mod 3 =? 0 then connection_care (s_mqtt st) acts
        else acts = [] /\ s_mqtt st' = s_mqtt st).
Proof.
  intros Ho Hf Hb. unfold sig_alarm_handler.
  destruct (save_ok (s_fs st) (count_file e) (s_counts st) f Hf Hb) as (s' & f' & Es & Hf' & Hsum & _).
  assert (forall k, get (if all_zero (s_counts st) then s_counts st else zero_counts) k = 0) as Hz.
  { intros k. destruct (all_zero (s_counts st)) eqn:Hz; [|by destruct k].
    unfold all_zero in Hz. rewrite !andb_true_iff, !Z.eqb_eq in Hz. destruct k; cbn; lia. }
  rewrite due_at. destruct (Z.of_nat (S n) mod 3 =? 0); cbn [run_jobs do_job]; unfold sync_msg_count_file; rewrite Ho.
  - destruct (check_mqtt_connection_ok e (s_mqtt st)) as (m & acts & -> & Hcare & _ & _ & _ & _ & Hconn).
    cbn [mbind comp_bind s_fs s_counts]. rewrite Es. cbn [mbind comp_bind s_fs s_counts]. rewrite !app_nil_r.
    eexists _, _, f'. split; [reflexivity|]. cbn [s_fs s_counts s_mqtt]. by split_and!.
  - rewrite Es. cbn [mbind comp_bind s_fs s_counts]. eexists _, _, f'. split; [reflexivity|].
    cbn [s_fs s_counts s_mqtt]. by split_and!.
Qed.

Lemma alarm_tick_spec_witness :
  exists st' acts f', sig_alarm_handler {| subscribe_rc := 0; connect_rc := 0; count_file := "/m"; opened := true |}
      (seconds 2) {| s_mqtt := set_client mqttClientStatus0 true; s_counts := demo_counts; s_fs := demo_fs |}
      = Ret (30, st', acts)
    /\ file_holds (s_fs st') "/m" f' /\ exists will, acts = [Connect "hub/offline" will MAXQOS].
Proof.
  destruct (alarm_tick_spec 2 {| subscribe_rc := 0; connect_rc := 0; count_file := "/m"; opened := true |}
    {| s_mqtt := set_client mqttClientStatus0 true; s_counts := demo_counts; s_fs := demo_fs |} zero_counts)
    as (st' & acts & f' & E & Hf & _ & _ & _ & Hc); [done|by left|intros []; cbn; unfold INT_MAX; lia|].
  exists st', acts, f'. split; [exact E|]. split; [exact Hf|exact Hc].
Defined.

(** ** Intervals read from the configuration *)

Lemma update_job_ok base parser (J : Type) (job : schedule_job J) :
  base <> 0 -> exists job', update_job base parser job = Ret job' /\ name job' = name job /\ doJob job' = doJob job
    /\ (interval job' = interval job \/ Z.rem (interval job') base = 0).
Proof.
  intros Hb. unfold update_job. destruct (string_is_empty (name job)); [exists job; auto|].
  destruct (_value parser _) as [v|]; [|exists job; auto]. destruct (string_is_empty _); [exists job; auto|].
  destruct (string_is_number _); [|exists job; auto].
  destruct (Z.eqb_spec (atoi (string_trim v SPACE)) 0) as [E|E].
  - rewrite E. eexists. split; [done|]. split_and!; try done. right. cbn. by apply Z.rem_0_l.
  - rewrite (proj2 (Z.eqb_neq _ _) Hb). destruct (Z.eqb_spec (Z.rem (atoi (string_trim v SPACE)) base) 0) as [E2|E2];
      [|exists job; auto]. eexists. split; [done|]. split_and!; try done. by right.
Qed.

(** With a table that is closed by an entry without a function, reading the
    configuration keeps names, functions and order, and every interval is
    either the old one or a multiple of the base. *)
Lemma update_jobs_ok base parser (J : Type) (jobs : list (schedule_job J)) :
  base <> 0 -> Exists (fun job => doJob job = None) jobs ->
  exists jobs', update_jobs base parser jobs = Ret jobs' /\ name <$> jobs' = name <$> jobs /\ doJob <$> jobs' = doJob <$> jobs
    /\ Forall2 (fun job' job => interval job' = interval job \/ Z.rem (interval job') base = 0) jobs' jobs.
Proof.
  intros Hb. induction jobs as [|job jobs IH]; intros He; [by apply Exists_nil in He|]. cbn [update_jobs].
  destruct (doJob job) as [j|] eqn:Hj.
  - apply Exists_cons in He as [He|He]; [congruence|]. destruct (IH He) as (jobs' & -> & Hn & Hd & Hi).
    destruct (update_job_ok base parser J job Hb) as (job' & -> & Hn1 & Hd1 & Hi1). cbn [mbind comp_bind].
    eexists. split; [reflexivity|]. rewrite !fmap_cons, Hn, Hd, Hn1, Hd1. split_and!; [done..|]. by constructor.
  - exists (job :: jobs). split; [done|]. split_and!; [done..|]. apply Forall2_same_length_lookup_2; [done|].
    intros i x y Hx Hy. left. congruence.
Qed.
