(* ===== verification/SysUtils.v ===== *)
(** * System utilities (utils/source/sysutils.c, processstatus.c, sysstatus.c)
      and received HTTP bodies (utils/source/httpwrapper.c)

    A shell command is a parameter: what it prints and the status it ends
    with. *)

From Stdlib Require Import Ascii.
From S2P Require Import Prelude CString StringUtils IniParser.

Local Open Scope Z_scope.

(** ** sysutils.c *)
Section shell.
(** What [popen] of a command delivers and what [pclose] then returns;
    [None] when [popen] fails. *)
Variable popen : string -> option (string * Z).

(** [while(fgets(buf_ps, sizeof(buf_ps), fpRead) != NULL)]: whole lines are
    appended until one does not fit. *)
Fixpoint read_output (fuel : nat) (buf : string) (bufSize : Z) (output : string) : comp string :=
  match fuel with
  | O => Err OutOfFuel
  | S fuel =>
      match output with
      | EmptyString => Ret buf
      | String _ _ =>
          let '(line, rest) := fgets (Z.to_nat 10239) output in
          let line := c_str line in
          if to_ulong (bufSize - 1) <? strlen buf + strlen line then Ret buf
          else
            let* buf := write_buf bufSize (buf +:+ line) in
            read_output fuel buf bufSize rest
      end
  end.

Definition WEXITSTATUS (status : Z) : Z := Z.land (Z.shiftr status 8) 255.
Definition WIFEXITED (status : Z) : bool := Z.land status 127 =? 0.

(** [if(len > 0 && '\n' == buf[len - 1]) buf[len - 1] = 0;] *)
Definition strip_newline (buf : string) : string := strip_last buf LF.

(** The result and the buffer; [buf0] is its content before. *)
Definition cmd_system (command : string) (buf0 : string) (bufSize : Z) : comp (Z * string) :=
  match popen command with
  | None => Ret (-1, buf0)
  | Some (output, rc) =>
      let* buf := read_output (S (String.length output)) EmptyString bufSize output in
      Ret (if rc <? 0 then rc else WEXITSTATUS rc, strip_newline buf)
  end.

(** ** processstatus.c, sysstatus.c *)
Definition get_process_id (procesName : string) : comp Z :=
  let* cmdBuffer := write_buf 128 ("ps aux | grep -i " +:+ quoted procesName +:+ " | grep -v " +:+ quoted "grep"
                                     +:+ " | grep -v " +:+ quoted "PPID" +:+ " | awk '{print $2}'") in
  let* (_, resultBuffer) := cmd_system cmdBuffer EmptyString 64 in
  Ret (if string_is_empty (Some resultBuffer) then 0 else atoi resultBuffer).

Definition get_sys_boot_time : comp Z :=
  let* cmdBuffer := write_buf 64 "cat /proc/stat | grep btime | awk '{print $2}'" in
  let* (_, resultBuffer) := cmd_system cmdBuffer EmptyString 128 in
  Ret (if string_is_empty (Some resultBuffer) then -1
       else if string_is_number (Some resultBuffer) then strtol resultBuffer else -1).

(** [system] is the status of the kill command. *)
Definition kill_process (system : string -> Z) (name : string) : comp Z :=
  let* pid := get_process_id name in
  if 0 <? pid then
    let* cmd := write_buf 32 ("kill " +:+ fmt_d pid) in
    let code := system cmd in
    Ret (if negb (WIFEXITED code) || negb (WEXITSTATUS code =? 0) then -1 else 0)
  else Ret (-1).
End shell.

Inductive lock_result : Set := NotOpened | Locked | OtherInstance.

(** [fd] is the result of opening the lock file, [test] and [lock] those of
    the two calls of [lockf]; another instance ends the process. *)
Definition single_instance_app (dir lockFileName : string) (fd test lock : Z) : comp lock_result :=
  let* path := write_buf 256 dir in
  let* path := write_buf 256 (path +:+ "/") in
  let* _ := write_buf 256 (path +:+ lockFileName) in
  Ret (if fd <? 0 then NotOpened else if (test <? 0) || (lock <? 0) then OtherInstance else Locked).

(** ** httpwrapper.c *)
Definition MAX_RESPONSE_SIZE : Z := 4096.

Record Resp := { content : list Z; ret_size : Z; real_size : Z }.

(** The structure after [memset]. *)
Definition resp_zero : Resp :=
  {| content := replicate (Z.to_nat (MAX_RESPONSE_SIZE + 1)) 0; ret_size := 0; real_size := 0 |}.

(** [memcpy(&dst[off], src, n)] *)
Definition memcpy_at (dst : list Z) (off : Z) (src : list Z) (n : Z) : comp (list Z) :=
  if (off + n <=? Z.of_nat (length dst)) && (n <=? Z.of_nat (length src))
  then Ret (take (Z.to_nat off) dst ++ take (Z.to_nat n) src ++ drop (Z.to_nat (off + n)) dst) else Err OutOfBounds.

(** The value returned to the library and the structure. *)
Definition write_callback (contents : list Z) (size nmemb : Z) (resp : Resp) : comp (Z * Resp) :=
  let realsize := to_ulong (size * nmemb) in
  let room := to_ulong (MAX_RESPONSE_SIZE - ret_size resp) in
  let copysize := if room <? realsize then room else realsize in
  let* c := if copysize =? 0 then Ret (content resp) else memcpy_at (content resp) (ret_size resp) contents copysize in
  Ret (realsize, {| content := c; ret_size := to_ulong (ret_size resp + copysize);
                    real_size := to_ulong (real_size resp + realsize) |}).

(** The chunks of one response, as the library delivers them ([size] is 1). *)
Fixpoint receive (chunks : list (list Z)) (resp : Resp) : comp (list Z * Resp) :=
  match chunks with
  | [] => Ret ([], resp)
  | c :: chunks =>
      let* (n, resp) := write_callback c 1 (Z.of_nat (length c)) resp in
      let* (ns, resp) := receive chunks resp in
      Ret (n :: ns, resp)
  end.

Definition status_code_to_string (code : Z) : string :=
  if code =? 200 then "OK"
  else if code =? 400 then "Bad Request"
  else if code =? 401 then "Unauthorized"
  else if code =? 403 then "Forbidden"
  else if code =? 404 then "Not Found"
  else if code =? 405 then "Method Not Allowed"
  else if code =? 500 then "Internal Server Error"
  else if code =? 502 then "Bad Gateway"
  else if code =? 503 then "Service Unavailable"
  else if code =? 504 then "Gateway Timeout"
  else "Error".

(** ** Facts *)

(** The state after the bytes [l] were received. *)
Definition resp_of (l : list Z) : Resp :=
  let kept := take (Z.to_nat MAX_RESPONSE_SIZE) l in
  {| content := kept ++ replicate (Z.to_nat (MAX_RESPONSE_SIZE + 1) - length kept) 0;
     ret_size := Z.of_nat (length kept); real_size := Z.of_nat (length l) |}.

Definition SIZE_LIMIT : Z := 18446744073709551616.

Lemma write_callback_ok l c :
  Z.of_nat (length l) + Z.of_nat (length c) < SIZE_LIMIT ->
  write_callback c 1 (Z.of_nat (length c)) (resp_of l) = Ret (Z.of_nat (length c), resp_of (l ++ c)).
Proof.
  unfold SIZE_LIMIT. intros Hl. unfold write_callback. rewrite Z.mul_1_l, (to_ulong_id (Z.of_nat (length c))) by lia.
  set (M := Z.to_nat MAX_RESPONSE_SIZE).
  assert (Z.of_nat M = 4096) as HM by (by vm_compute).
  assert (Z.to_nat (MAX_RESPONSE_SIZE + 1) = S M) as HM1 by (by vm_compute).
  assert (Z.to_nat MAX_RESPONSE_SIZE = M) as HMd by done. clearbody M.
  unfold resp_of. cbn zeta. cbn [ret_size content real_size]. rewrite !HMd, !HM1, !length_take.
  change MAX_RESPONSE_SIZE with 4096. rewrite (to_ulong_id (4096 - Z.of_nat (M `min` length l))) by lia.
  set (k := Nat.min M (length l)). set (n := Nat.min (M - k) (length c)).
  assert ((if 4096 - Z.of_nat k <? Z.of_nat (length c) then 4096 - Z.of_nat k else Z.of_nat (length c)) = Z.of_nat n) as ->
    by (unfold n; destruct (Z.ltb_spec (4096 - Z.of_nat k) (Z.of_nat (length c))); lia).
  assert (take M (l ++ c) = take M l ++ take n c) as Et.
  { rewrite take_app. f_equal. unfold n. replace (M - k)%nat with (M - length l)%nat by lia.
    destruct (Nat.le_ge_cases (M - length l) (length c)).
    - by rewrite (Nat.min_l (M - length l) (length c)) by done.
    - rewrite (Nat.min_r (M - length l) (length c)) by done. by rewrite !take_ge by lia. }
  assert ((if Z.of_nat n =? 0 then Ret (take M l ++ replicate (S M - k) 0)
           else memcpy_at (take M l ++ replicate (S M - k) 0) (Z.of_nat k) c (Z.of_nat n))
    = Ret (take M (l ++ c) ++ replicate (S M - (k + n)) 0)) as ->.
  { rewrite Et. destruct (Z.eqb_spec (Z.of_nat n) 0) as [Hn|Hn].
    - assert (n = 0)%nat as -> by lia. cbn [take]. by rewrite app_nil_r, Nat.add_0_r.
    - unfold memcpy_at. rewrite length_app, length_take, length_replicate. fold k.
      rewrite (proj2 (Z.leb_le _ _)), (proj2 (Z.leb_le _ _)) by (unfold n, k; lia). cbn [andb].
      rewrite Nat2Z.id, take_app_length_eq, Nat2Z.id by (rewrite length_take; done).
      rewrite <- app_assoc. do 3 f_equal. rewrite drop_app_ge by (rewrite length_take; lia).
      rewrite length_take. fold k. replace (Z.to_nat (Z.of_nat k + Z.of_nat n) - k)%nat with n by lia.
      rewrite drop_replicate. f_equal. lia. }
  cbn [mbind comp_bind]. rewrite !length_app. replace (M `min` (length l + length c))%nat with (k + n)%nat by (unfold n; lia).
  rewrite !to_ulong_id by (unfold n; lia). do 3 f_equal; lia.
Qed.

Lemma receive_ok chunks l :
  Z.of_nat (length l) + Z.of_nat (length (concat chunks)) < SIZE_LIMIT ->
  receive chunks (resp_of l) = Ret (Z.of_nat ∘ length <$> chunks, resp_of (l ++ concat chunks)).
Proof.
  revert l. induction chunks as [|c chunks IH]; intros l Hl; cbn [receive concat]; [by rewrite app_nil_r|].
  cbn [concat] in Hl. rewrite length_app in Hl. rewrite write_callback_ok by lia. cbn [mbind comp_bind].
  rewrite IH by (rewrite length_app; lia). cbn [mbind comp_bind]. by rewrite app_assoc.
Qed.

(** However a response is cut into chunks, the callback accepts each of
    them whole, keeps exactly the first 4096 bytes with a terminator behind
    them inside the buffer, and reports how many were kept and how many there
    were. *)
Theorem response_prefix (chunks : list (list Z)) :
  Z.of_nat (length (concat chunks)) < SIZE_LIMIT ->
  let body := concat chunks in let kept := take (Z.to_nat MAX_RESPONSE_SIZE) body in
  exists resp pad, receive chunks resp_zero = Ret (Z.of_nat ∘ length <$> chunks, resp)
    /\ content resp = kept ++ 0 :: pad /\ Z.of_nat (length (content resp)) = MAX_RESPONSE_SIZE + 1
    /\ ret_size resp = Z.of_nat (length kept) /\ real_size resp = Z.of_nat (length body).
Proof.
  intros Hl body kept.
  assert (length kept <= Z.to_nat MAX_RESPONSE_SIZE)%nat as Hk by (unfold kept; rewrite length_take; lia).
  change resp_zero with (resp_of []). rewrite receive_ok by (cbn [length]; lia). cbn [app].
  exists (resp_of body), (replicate (Z.to_nat (MAX_RESPONSE_SIZE + 1) - length kept - 1) 0). split; [done|].
  unfold resp_of. fold kept. cbn [content ret_size real_size]. split_and!; [|..|done|done].
  - f_equal. replace (Z.to_nat (MAX_RESPONSE_SIZE + 1) - length kept)%nat
      with (S (Z.to_nat (MAX_RESPONSE_SIZE + 1) - length kept - 1)) at 1 by (unfold MAX_RESPONSE_SIZE in *; lia). done.
  - rewrite length_app, length_replicate. unfold MAX_RESPONSE_SIZE in *. lia.
Qed.

Lemma response_prefix_witness :
  exists resp pad, receive [[104; 105]; [33]] resp_zero = Ret ([2; 1], resp)
    /\ content resp = [104; 105; 33] ++ 0 :: pad /\ ret_size resp = 3.
Proof.
  destruct (response_prefix [[104; 105]; [33]]) as (resp & pad & E & Hc & _ & Hr & _); [by vm_compute|].
  exists resp, pad. split; [exact E|]. split; [exact Hc|exact Hr].
Defined.

(** ** Output of a command *)

Lemma fgets_split n s a b : fgets n s = (a, b) -> s = a +:+ b /\ ((0 < n)%nat -> s <> EmptyString -> a <> EmptyString).
Proof.
  revert s a b. induction n as [|n IH]; intros [|c s] a b; cbn [fgets];
    [intros [= <- <-]; split; [done|lia]..| |]; [by intros [= <- <-]|].
  destruct (decide (c = LF)); [by intros [= <- <-]|]. destruct (fgets n s) as [a' b'] eqn:E.
  intros [= <- <-]. destruct (IH _ _ _ E) as [-> _]. done.
Qed.

Lemma strchr_app_inv s t c : strchr (s +:+ t) c = None -> strchr s c = None /\ strchr t c = None.
Proof.
  induction s as [|d s IH]; cbn [String.append strchr]; [done|]. case_decide; [done|].
  destruct (strchr (s +:+ t) c) as [[? ?]|]; [done|]. intros _. destruct (IH eq_refl) as [-> ->]. done.
Qed.

Lemma read_output_ok fuel buf bufSize output :
  1 <= bufSize <= INT_MAX -> strlen buf < bufSize -> strchr output NUL = None -> (String.length output < fuel)%nat ->
  exists kept rest, output = kept +:+ rest /\ read_output fuel buf bufSize output = Ret (buf +:+ kept)
    /\ strlen buf + strlen kept < bufSize /\ (strlen buf + strlen output < bufSize -> rest = EmptyString).
Proof.
  unfold INT_MAX. intros Hs. revert buf output. induction fuel as [|fuel IH]; intros buf output Hb Hn Hf; [lia|].
  cbn [read_output]. destruct output as [|c0 o].
  - exists EmptyString, EmptyString. rewrite (str_app_nil_r buf). change (strlen "") with 0. split_and!; [done|done|lia|done].
  - set (output := String c0 o) in *. destruct (fgets (Z.to_nat 10239) output) as [line rest] eqn:E.
    destruct (fgets_split _ _ _ _ E) as [Eo Hne]. specialize (Hne ltac:(lia) ltac:(done)).
    rewrite Eo in Hn. apply strchr_app_inv in Hn as [Hn1 Hn2].
    assert (c_str line = line) as -> by (unfold c_str; by rewrite Hn1).
    rewrite to_ulong_id by lia. destruct (Z.ltb_spec (bufSize - 1) (strlen buf + strlen line)) as [Hlt|Hge].
    + exists EmptyString, output. rewrite (str_app_nil_r buf). change (strlen "") with 0. split_and!; [done|done|lia|].
      rewrite Eo, strlen_app. pose proof (strlen_nonneg rest). lia.
    + rewrite write_buf_ok by (rewrite strlen_app; lia). cbn [mbind comp_bind].
      destruct (IH (buf +:+ line) rest) as (kept & rest' & -> & -> & Hl & Hr); [rewrite strlen_app; lia|done| |].
      { rewrite Eo, str_length_app in Hf. destruct line; [done|]. cbn [String.length] in Hf. lia. }
      exists (line +:+ kept), rest'. rewrite Eo, !str_app_assoc. rewrite !strlen_app in *.
      split_and!; [done|done|lia|]. intros H. apply Hr. lia.
Qed.

(** A command's output never overruns the caller's buffer, however long
    it is: what is kept is a beginning of the output - all of it when it
    fits - without its last line feed, and the result is the command's exit
    status. *)
Theorem cmd_system_bounded popen command buf0 bufSize output rc :
  popen command = Some (output, rc) -> 1 <= bufSize <= INT_MAX -> strchr output NUL = None ->
  exists kept rest, output = kept +:+ rest /\ strlen kept < bufSize
    /\ cmd_system popen command buf0 bufSize = Ret (if rc <? 0 then rc else (rc / 256) mod 256, strip_newline kept)
    /\ (strlen output < bufSize -> rest = EmptyString).
Proof.
  intros Hp Hs Hn. unfold cmd_system. rewrite Hp.
  destruct (read_output_ok (S (String.length output)) EmptyString bufSize output Hs) as (kept & rest & Eo & E & Hl & Hr);
    [change (strlen "") with 0; lia|done|lia|]. change (strlen "") with 0 in *.
  exists kept, rest. rewrite E. cbn [mbind comp_bind String.append]. split_and!; [done|lia| |done].
  do 2 f_equal. destruct (rc <? 0); [done|]. unfold WEXITSTATUS. rewrite Z.shiftr_div_pow2 by lia.
  exact (Z.land_ones _ 8 ltac:(lia)).
Qed.

Lemma cmd_system_bounded_witness :
  exists kept rest, "1234" +:+ String LF EmptyString = kept +:+ rest /\ strlen kept < 64
    /\ cmd_system (fun _ => Some ("1234" +:+ String LF EmptyString, 256)) "ps" EmptyString 64 = Ret (1, strip_newline kept).
Proof.
  destruct (cmd_system_bounded (fun _ => Some ("1234" +:+ String LF EmptyString, 256)) "ps" EmptyString 64
    ("1234" +:+ String LF EmptyString) 256 eq_refl) as (kept & rest & E & Hl & Hc & _);
    [by vm_compute|by vm_compute|]. by exists kept, rest.
Defined.
