(* ===== verification/FileWatcher.v ===== *)
(** * Watching files for changes (utils/source/filechangewatcher.c)

    The watched files in a list, and the rounds of the watching thread over
    it.  The list is the sequence that the doubly linked list of DList.v
    represents. *)

From Stdlib Require Import Ascii.
From S2P Require Import Prelude CString StringUtils FileSys.

Local Open Scope Z_scope.

(** [notify] is whether a function is set. *)
Record watch_file := { path : string; modifyTime : Z; notify : bool }.

Record file_change_watcher := { watched : list watch_file; timeInterval : Z; threadId : Z }.

Definition create_file_change_watcher (timeInterval : Z) : file_change_watcher :=
  {| watched := []; timeInterval := timeInterval; threadId := 0 |}.

Definition with_watched (w : file_change_watcher) (l : list watch_file) : file_change_watcher :=
  {| watched := l; timeInterval := timeInterval w; threadId := threadId w |}.

Definition current_time (s : fs) (p : string) : Z := if file_exists s p then get_file_modified_time s p else 0.

Definition add_watch_file (s : fs) (w : file_change_watcher) (p : string) (notify : bool) : comp (file_change_watcher * Z) :=
  let* p := write_buf POSIX_PATH_MAX p in
  Ret (with_watched w (watched w ++ [{| path := p; modifyTime := current_time s p; notify := notify |}]), 0).

Definition file_path_match (wf : watch_file) (p : string) : bool := strcmp_eq (path wf) p.

Definition remove_watch_file (w : file_change_watcher) (p : string) : comp (file_change_watcher * Z) :=
  let* p := write_buf POSIX_PATH_MAX p in
  match split_first (fun wf => file_path_match wf p) (watched w) with
  | Some (l1, _, l2) => Ret (with_watched w (l1 ++ l2), 0)
  | None => Ret (w, -1)
  end.

(** [rc] and [tid] are what pthread_create answers. *)
Definition start_watching (w : file_change_watcher) (rc tid : Z) : file_change_watcher * Z :=
  if 0 <? threadId w then (w, -1)
  else
    let w := {| watched := watched w; timeInterval := timeInterval w; threadId := tid |} in
    if rc <? 0 then (w, rc) else (w, 0).

(** The signal sent to the thread, if any. *)
Definition stop_watching (w : file_change_watcher) : option Z * Z :=
  (if 0 <? threadId w then Some 0 else None, 0).

(** One file of a round: its new record and the call made. *)
Definition check_file (s : fs) (wf : watch_file) : watch_file * list (string * Z) :=
  let modifyTime' := current_time s (path wf) in
  if modifyTime' =? 0 then (wf, [])
  else if negb (modifyTime' =? modifyTime wf) then
    ({| path := path wf; modifyTime := modifyTime'; notify := notify wf |},
     if notify wf then [(path wf, modifyTime')] else [])
  else (wf, []).

(** One round of [watch_thread_fun] over an unchanging file system. *)
Fixpoint watch_round (s : fs) (l : list watch_file) : list watch_file * list (string * Z) :=
  match l with
  | [] => ([], [])
  | wf :: l =>
      let '(wf, calls) := check_file s wf in
      let '(l, calls') := watch_round s l in
      (wf :: l, calls ++ calls')
  end.

(** The rounds one after another, each with the files as it finds them. *)
Fixpoint watch_thread_fun (ss : list fs) (l : list watch_file) : list watch_file * list (list (string * Z)) :=
  match ss with
  | [] => (l, [])
  | s :: ss =>
      let '(l, calls) := watch_round s l in
      let '(l, rest) := watch_thread_fun ss l in
      (l, calls :: rest)
  end.

(** ** Facts *)

Definition changed (s : fs) (wf : watch_file) : bool :=
  negb (current_time s (path wf) =? 0) && negb (current_time s (path wf) =? modifyTime wf).

Lemma check_file_eq s wf :
  check_file s wf =
    (if changed s wf then {| path := path wf; modifyTime := current_time s (path wf); notify := notify wf |} else wf,
     if changed s wf && notify wf then [(path wf, current_time s (path wf))] else []).
Proof.
  unfold check_file, changed. destruct (current_time s (path wf) =? 0); cbn [negb andb]; [done|].
  by destruct (current_time s (path wf) =? modifyTime wf).
Qed.

Lemma check_file_settles s wf : changed s (check_file s wf).1 = false.
Proof.
  rewrite check_file_eq. cbn [fst]. destruct (changed s wf) eqn:E; [|done].
  unfold changed. cbn [path modifyTime]. by rewrite Z.eqb_refl, andb_false_r.
Qed.

Lemma watch_round_eq s l :
  watch_round s l = ((fun wf => (check_file s wf).1) <$> l, l ≫= (fun wf => (check_file s wf).2)).
Proof.
  induction l as [|wf l IH]; [done|]. cbn [watch_round]. rewrite IH, fmap_cons, bind_cons.
  by destruct (check_file s wf).
Qed.

(** A round calls back exactly for the files that exist with a time
    other than the remembered one, in the order they were added, remembers
    those times, and is silent when it is repeated without a change; files
    that are missing are skipped and their time is kept. *)
Theorem watch_round_spec (s : fs) (l : list watch_file) :
  let '(l', calls) := watch_round s l in
  calls = (fun wf => (path wf, current_time s (path wf))) <$> filter (fun wf => changed s wf && notify wf = true) l
  /\ path <$> l' = path <$> l
  /\ modifyTime <$> l' = (fun wf => if changed s wf then current_time s (path wf) else modifyTime wf) <$> l
  /\ watch_round s l' = (l', []).
Proof.
  rewrite watch_round_eq. split_and!.
  - induction l as [|wf l IH]; [done|]. rewrite bind_cons, filter_cons, IH, check_file_eq. cbn [snd].
    by destruct (changed s wf && notify wf).
  - rewrite <- list_fmap_compose. apply list_fmap_ext. intros i wf _. unfold compose. rewrite check_file_eq. cbn [fst].
    by destruct (changed s wf).
  - rewrite <- list_fmap_compose. apply list_fmap_ext. intros i wf _. unfold compose. rewrite check_file_eq. cbn [fst].
    by destruct (changed s wf).
  - rewrite watch_round_eq. f_equal.
    + rewrite <- list_fmap_compose. apply list_fmap_ext. intros i wf _. unfold compose.
      rewrite check_file_eq at 1. by rewrite check_file_settles.
    + induction l as [|wf l IH]; [done|]. rewrite fmap_cons, bind_cons, IH.
      rewrite check_file_eq, check_file_settles. done.
Qed.
