(* ===== verification/App.v ===== *)
(** * The program (hub-app/source/app.c, config.c)

    Configuration, command line, what happens when the client gets connected,
    and the order in which the parts are started and stopped. *)

From Stdlib Require Import Ascii.
From S2P Require Import Prelude CString Unicode StringUtils FileSys IniParser SendReqParser OfflineCache Cipher MqttWrapper MsgCounter.
From S2P Require Import ThreadPool MsgRecv HttpCallback Schedule SysUtils.

Local Open Scope Z_scope.

Definition MQTTMSGHUB_INI_FILE_NAME : string := "mqttmsghub.ini".

(** ** config.c *)
Section config.
Variables (s : fs) (exe : option string).

(** The cached value, read once. *)
Definition get_config_mqtt_end_point (g_mqttEndPoint : string) : comp string :=
  if string_is_empty (Some g_mqttEndPoint) then
    let* (_, v) := get_string_from_ini_file s exe MQTTMSGHUB_INI_FILE_NAME "mqttserver" (Some EmptyString) 256 g_mqttEndPoint in
    Ret v
  else Ret g_mqttEndPoint.



(** [cap] and [path] are the caller's buffer. *)
Definition get_config_offline_cache_path (home : string) (cap : Z) (path : string) : comp (Z * string) :=
  let* defaultCacheRootPath := write_buf POSIX_PATH_MAX (home +:+ "/" +:+ "mqttmsghub-data" +:+ "/" +:+ "mqtt-offline-msgs") in
  get_string_from_ini_file s exe MQTTMSGHUB_INI_FILE_NAME "cachepath" (Some defaultCacheRootPath) cap path.

End config.

(** ** Command line *)
Inductive launch : Set := Usage | Version | RunTest | RunApp (isDaemon : bool).

Fixpoint parse_args (isDaemon : bool) (argv : list string) : launch :=
  match argv with
  | [] => RunApp isDaemon
  | arg :: argv =>
      if string_equals arg "--help" true then Usage
      else if string_equals arg "--version" true then Version
      else if string_equals arg "--test" true then RunTest
      else parse_args (if string_equals arg "--nodaemon" true then false else isDaemon) argv
  end.




(** ** When the client gets connected *)

(** A [char] array of [cap] bytes, zeroed and then written with [s]. *)
Definition array_of (cap : Z) (s : string) : list Z :=
  bytes_of s ++ replicate (Z.to_nat (cap - strlen s)) 0.

Definition online_message (timestamp : Z) : string :=
  "{" +:+ quoted JSON_NODE_SN_KEY +:+ ":" +:+ quoted get_device_sn +:+ "," +:+ quoted JSON_NODE_TIME_KEY +:+ ":"
    +:+ fmt_d timestamp +:+ "}".

Definition msg_count_message (c : counts) (capacity timestamp : Z) : string :=
  "{" +:+ quoted "sent" +:+ ":" +:+ fmt_d (c_sent c) +:+ "," +:+ quoted "onlinediscard" +:+ ":" +:+ fmt_d (c_online c)
    +:+ "," +:+ quoted "offlinediscard" +:+ ":" +:+ fmt_d (c_offline c) +:+ "," +:+ quoted "offlinesent" +:+ ":"
    +:+ fmt_d (c_offsent c) +:+ "," +:+ quoted "offlinecap" +:+ ":" +:+ fmt_d capacity +:+ ","
    +:+ quoted JSON_NODE_SN_KEY +:+ ":" +:+ quoted get_device_sn +:+ "," +:+ quoted JSON_NODE_TIME_KEY +:+ ":"
    +:+ fmt_d timestamp +:+ "}".

Section connected.
Variable cbc_encrypt : list Z -> list Z -> list Z -> option (list Z).
Variable cbc_key : list Z.
Variable rand : Z -> nat -> Z.
Variable MQTTAsync_sendMessage : string -> MQTTAsync_message -> Z.
Notation send := (MQTTClientWrapper_sendMessage cbc_encrypt cbc_key rand MQTTAsync_sendMessage).

(** The answers of the surroundings: the time, the result of creating the
    sender thread, the counters' file and whether it can be written. *)
Record connect_env := { c_now : Z; c_thread_rc : Z; c_file : string; c_opened : bool }.

(** What the callback does: the messages handed to the client with the
    results, and whether a thread was started for the offline messages. *)
Record connect_report := {
  r_online : Z * option (string * MQTTAsync_message);
  r_sender : bool;
  r_counts : option (Z * option (string * MQTTAsync_message))
}.

Definition count_sent (n : counts) (counted : bool) : counts :=
  if counted then increase_sent_msg_count n else n.

Definition positive_counts (c : counts) : bool :=
  (0 <? c_sent c) || (0 <? c_online c) || (0 <? c_offline c) || (0 <? c_offsent c).

Definition on_mqtt_client_connected (e : connect_env) (d : fs) (cache : cache_state) (n : counts)
    : comp (fs * counts * connect_report) :=
  let timestamp := c_now e in
  let* onlineMessage := write_buf 64 (online_message timestamp) in
  let* (rc1, pub1, counted1) := send (c_now e) "hub/online" (array_of 64 onlineMessage) MAXQOS in
  let n := count_sent n counted1 in
  let started := if 0 <? offline_messages_count cache then (asyn_send_offline_messages cache (c_thread_rc e)).2 else false in
  let* (_, total) := get_total_msg_count d (c_file e) in
  if positive_counts total then
    let* msgCountMessage := write_buf 256 (msg_count_message total (get_offline_cache_capacity cache) timestamp) in
    let* (rc2, pub2, counted2) := send (c_now e) "hub/msgcount" (array_of 256 msgCountMessage) MAXQOS in
    let n := count_sent n counted2 in
    let* d := if rc2 =? SUCCESS then clear_msg_count_file d (c_file e) (c_opened e) else Ret d in
    Ret (d, n, {| r_online := (rc1, pub1); r_sender := started; r_counts := Some (rc2, pub2) |})
  else Ret (d, n, {| r_online := (rc1, pub1); r_sender := started; r_counts := None |}).
End connected.

(** ** Starting and stopping *)
Section run.
Context {W T : Type}.
Variable path_exists file_exists : W -> string -> bool.
Variable mkdir mkfifo : W -> string -> W * Z.
Variable open : W -> string -> Z.










End run.

(** ** Facts *)

Lemma strlen_online_message t : is_long t -> strlen (online_message t) <= 49.
Proof.
  intros Ht. pose proof (fmt_d_long_length t Ht). unfold online_message. rewrite !strlen_app, !strlen_quoted.
  change (strlen "{") with 1. change (strlen ":") with 1. change (strlen ",") with 1. change (strlen "}") with 1.
  change (strlen JSON_NODE_SN_KEY) with 2. change (strlen get_device_sn) with 12. change (strlen JSON_NODE_TIME_KEY) with 4. lia.
Qed.

Lemma strlen_msg_count_message c capacity t :
  (forall k, is_int (get c k)) -> is_int capacity -> is_long t -> strlen (msg_count_message c capacity t) <= 180.
Proof.
  intros Hc Hcap Ht. pose proof (fmt_d_long_length t Ht). pose proof (fmt_d_int_length _ Hcap).
  pose proof (fmt_d_int_length _ (Hc Sent)). pose proof (fmt_d_int_length _ (Hc OnlineDiscarded)).
  pose proof (fmt_d_int_length _ (Hc OfflineDiscarded)). pose proof (fmt_d_int_length _ (Hc OfflineSent)).
  cbn [get] in *. unfold msg_count_message. rewrite !strlen_app, !strlen_quoted.
  change (strlen "{") with 1. change (strlen ":") with 1. change (strlen ",") with 1. change (strlen "}") with 1.
  change (strlen "sent") with 4. change (strlen "onlinediscard") with 13. change (strlen "offlinediscard") with 14.
  change (strlen "offlinesent") with 11. change (strlen "offlinecap") with 10.
  change (strlen JSON_NODE_SN_KEY) with 2. change (strlen get_device_sn) with 12. change (strlen JSON_NODE_TIME_KEY) with 4. lia.
Qed.

(** A text that leaves room for its terminator and its last block is sent out
    of its array without reading past it. *)
Lemma send_array cbc_encrypt cbc_key rand MQTTAsync_sendMessage now t cap s qos :
  strlen s < cap -> blocks (strlen s) <= cap -> cap <= 1024 ->
  exists rc pub, MQTTClientWrapper_sendMessage cbc_encrypt cbc_key rand MQTTAsync_sendMessage now t (array_of cap s) qos
      = Ret (rc, pub, bool_decide (rc = SUCCESS))
    /\ (rc = SUCCESS \/ rc = FAILURE).
Proof.
  intros Hl Hb Hcap. unfold array_of.
  assert (replicate (Z.to_nat (cap - strlen s)) 0 = 0 :: replicate (Z.to_nat (cap - strlen s - 1)) 0) as ->.
  { replace (Z.to_nat (cap - strlen s)) with (S (Z.to_nat (cap - strlen s - 1))) by lia. done. }
  destruct (send_total cbc_encrypt cbc_key rand MQTTAsync_sendMessage now t s
    (replicate (Z.to_nat (cap - strlen s - 1)) 0) qos) as (rc & pub & E & Hrc & _);
    [unfold INT_MAX; lia|rewrite length_replicate; lia|]. by exists rc, pub.
Qed.

Lemma blocks_le n m : n <= m -> blocks n <= blocks m.
Proof. intros H. unfold blocks. Z.div_mod_to_equations. lia. Qed.

(** The callback for a new connection never leaves its two message
    arrays, not even in the whole blocks the cipher reads, for every time and
    all totals; the sender is started exactly when something is queued and no
    sender runs; the totals are reported exactly when one of them is positive,
    and the file is reset to zero exactly when that report was accepted. *)
Theorem on_connected_spec cbc_encrypt cbc_key rand MQTTAsync_sendMessage
    (e : connect_env) (d : fs) (cache : cache_state) (n total : counts) :
  is_long (c_now e) -> is_int (g_cacheCapacity cache) -> c_opened e = true ->
  file_holds d (c_file e) total -> (forall k, 0 <= get total k <= INT_MAX) ->
  exists d' n' rep,
    on_mqtt_client_connected cbc_encrypt cbc_key rand MQTTAsync_sendMessage e d cache n = Ret (d', n', rep)
    /\ r_sender rep = (0 <? offline_messages_count cache) && negb (g_isAsyncSending cache) && (c_thread_rc e =? 0)
    /\ match r_counts rep with
       | None => total = zero_counts /\ d' = d
       | Some (rc, _) => positive_counts total = true
           /\ if rc =? SUCCESS then file_holds d' (c_file e) zero_counts else d' = d
       end
    /\ n' = count_sent (count_sent n ((r_online rep).1 =? SUCCESS))
              (match r_counts rep with Some (rc, _) => rc =? SUCCESS | None => false end).
Proof.
  intros Hnow Hcap Ho Hf Ht. unfold on_mqtt_client_connected.
  pose proof (strlen_online_message _ Hnow) as Hl1. pose proof (blocks_le _ _ Hl1) as Hb1.
  change (blocks 49) with 64 in Hb1. rewrite (write_buf_ok 64) by lia. cbn [mbind comp_bind].
  destruct (send_array cbc_encrypt cbc_key rand MQTTAsync_sendMessage (c_now e) "hub/online" 64
    (online_message (c_now e)) MAXQOS) as (rc1 & pub1 & -> & Hrc1); [lia..|]. cbn [mbind comp_bind].
  destruct (read_total_ok d (c_file e) total Hf) as [rc Er]. unfold get_total_msg_count. rewrite Er. cbn [mbind comp_bind].
  assert (forall b, (if 0 <? offline_messages_count cache then (asyn_send_offline_messages cache (c_thread_rc e)).2 else false) = b
    -> b = (0 <? offline_messages_count cache) && negb (g_isAsyncSending cache) && (c_thread_rc e =? 0)) as Hstart.
  { intros b <-. unfold asyn_send_offline_messages, asyn_send_decide. destruct (Z.ltb_spec 0 (offline_messages_count cache)); [|done].
    rewrite (proj2 (Z.eqb_neq (offline_messages_count cache) 0)) by lia. destruct (g_isAsyncSending cache); [done|].
    destruct (Z.ltb_spec (c_thread_rc e) 0); cbn; [|done]. symmetry. apply Z.eqb_neq. lia. }
  assert (bool_decide (rc1 = SUCCESS) = (rc1 =? SUCCESS)) as -> by (by destruct Hrc1 as [-> | ->]).
  destruct (positive_counts total) eqn:Hp.
  - pose proof (strlen_msg_count_message total (g_cacheCapacity cache) (c_now e)) as Hl2.
    assert (strlen (msg_count_message total (g_cacheCapacity cache) (c_now e)) <= 180) as Hl
      by (apply Hl2; [intros k; specialize (Ht k); unfold is_int, INT_MIN; lia|done|done]).
    pose proof (blocks_le _ _ Hl) as Hb2. change (blocks 180) with 192 in Hb2.
    unfold get_offline_cache_capacity. rewrite (write_buf_ok 256) by lia. cbn [mbind comp_bind].
    destruct (send_array cbc_encrypt cbc_key rand MQTTAsync_sendMessage (c_now e) "hub/msgcount" 256
      (msg_count_message total (g_cacheCapacity cache) (c_now e)) MAXQOS) as (rc2 & pub2 & -> & Hrc2); [lia..|].
    cbn [mbind comp_bind]. assert (bool_decide (rc2 = SUCCESS) = (rc2 =? SUCCESS)) as -> by (by destruct Hrc2 as [-> | ->]).
    destruct (rc2 =? SUCCESS) eqn:E2.
    + unfold clear_msg_count_file. rewrite Ho.
      destruct (save_total_ok d (c_file e) zero_counts total Hf) as (d' & -> & Hd'); [intros []; cbn; unfold INT_MAX; lia|].
      cbn [mbind comp_bind]. eexists d', _, _. split; [reflexivity|]. cbn [r_sender r_counts r_online fst].
      rewrite E2. split; [by apply Hstart|]. done.
    + cbn [mbind comp_bind]. eexists d, _, _. split; [reflexivity|]. cbn [r_sender r_counts r_online fst].
      rewrite E2. split; [by apply Hstart|]. done.
  - eexists d, _, _. split; [reflexivity|]. cbn [r_sender r_counts r_online fst].
    split; [by apply Hstart|]. split; [|done]. split; [|done]. apply counts_ext. intros k.
    unfold positive_counts in Hp. rewrite !orb_false_iff, !Z.ltb_ge in Hp. specialize (Ht k). destruct k; cbn in *; lia.
Qed.

Lemma on_connected_spec_witness :
  exists d' n' rep,
    on_mqtt_client_connected demo_cbc [] (fun _ i => Z.of_nat i) (fun _ _ => 0)
      {| c_now := 7; c_thread_rc := 0; c_file := "/m"; c_opened := true |} demo_fs (demo_cache 2) demo_counts
      = Ret (d', n', rep) /\ r_sender rep = true.
Proof.
  destruct (on_connected_spec demo_cbc [] (fun _ i => Z.of_nat i) (fun _ _ => 0)
    {| c_now := 7; c_thread_rc := 0; c_file := "/m"; c_opened := true |} demo_fs (demo_cache 2) demo_counts zero_counts)
    as (d' & n' & rep & E & Hs & _);
    [by vm_compute|by vm_compute|done|by left|intros []; by vm_compute|]. by exists d', n', rep.
Defined.

(** The command line: the first of --help, --version and --test, in any
    letter case, decides what is printed and nothing behind it is looked at;
    without one of them the hub runs, as a daemon unless --nodaemon is given. *)
Theorem parse_args_spec (argv : list string) :
  let named s a := string_equals a s true in
  let stops a := named "--help" a || named "--version" a || named "--test" a in
  match split_first stops argv with
  | Some (_, a, _) => parse_args true argv = if named "--help" a then Usage else if named "--version" a then Version else RunTest
  | None => parse_args true argv = RunApp (negb (existsb (named "--nodaemon") argv))
  end.
Proof.
  cbn zeta. assert (forall b, match split_first (fun a => string_equals a "--help" true || string_equals a "--version" true || string_equals a "--test" true) argv with
    | Some (_, a, _) => parse_args b argv = if string_equals a "--help" true then Usage
                         else if string_equals a "--version" true then Version else RunTest
    | None => parse_args b argv = RunApp (b && negb (existsb (fun a => string_equals a "--nodaemon" true) argv)) end) as H;
    [|exact (H true)].
  induction argv as [|a argv IH]; intros b; cbn [split_first parse_args existsb]; [by destruct b|].
  destruct (string_equals a "--help" true) eqn:E1; cbn [orb]; [by rewrite E1|].
  destruct (string_equals a "--version" true) eqn:E2; cbn [orb]; [by rewrite E1, E2|].
  destruct (string_equals a "--test" true) eqn:E3; cbn [orb]; [by rewrite E1, E2|].
  specialize (IH (if string_equals a "--nodaemon" true then false else b)).
  destruct (split_first _ argv) as [[[l1 x] l2]|]; [done|]. rewrite IH.
  by destruct (string_equals a "--nodaemon" true), b.
Qed.

Section run_facts.
Context {W T : Type}.
Variable path_exists file_exists : W -> string -> bool.
Variable mkdir mkfifo : W -> string -> W * Z.
Variable open : W -> string -> Z.











End run_facts.





